(* ===== verification/_CoqProject ===== *)
-Q . S2P
Prelude.v
Zmalloc.v
Zproc.v
Atomicvar.v
Adlist.v
Aes.v
Xxhash.v
Xxh3.v
Xxh3Stream.v
Xxh3Secret.v
Xxh3Vec.v
XxhState.v
FileCrypt.v
Chex.v
User.v
Util.v
Terminal.v
History.v
Lineedit.v
Linenoise.v
Shell.v
Net.v
Db.v
Log.v
Mq.v
Midl.v
MidlHeap.v
MdbPage.v
MdbPageSpec.v
MdbSearch.v
MdbPageOps.v
MdbLeaf2.v
MdbTree.v
MdbTreeSpec.v
MdbDump.v
MdbLoad.v
MdbRound.v
Client.v
KxUser.v
KxFile.v
Rkx.v
