(* ===== verification/Prelude.v ===== *)
(** * rkx: a verification library

    rkx is a shell that encrypts files for a registered user, tells a redis
    server about the machine, its users and its files, keeps the records of
    the files in a local LMDB data base, and listens to an MQTT broker.  The
    development models the C files of src/src and proves what they do.

    ** The program and the files of the development

    - main starts the thread of the MQTT loop, waits for the first answer to
      the subscription and runs the shell: Rkx.v (rkx_init, and main before and
      after the threads meet), Mq.v (mq.c, and of rkx.c the callbacks,
      kxmq_thread_main and the waiting in main) and Shell.v (split_str, get_cmd, shell_usage, kx_loop of rkx.c;
      do_command of kx_command.c).
    - kx_loop reads its lines with linenoise.c: Terminal.v (raw mode, width,
      append buffer, completion lists), History.v (the lines and their file),
      Lineedit.v (the editing operations and the refresh of the screen),
      Linenoise.v (keys, completion, the function linenoise).
    - The commands "user" and "file" work on struct kxclient of rkx.h:
      Client.v (one heap and one output under the states of all components),
      KxUser.v (kx_user.c) and KxFile.v (kx_file.c).
    - They call: User.v (node.c, user.c: the identity of the machine, the user
      and the key), FileCrypt.v (file.c: encryption of a file, its id), Adlist.v
      (adlist.c: the list of records), Net.v (net.c: a request to the server),
      Db.v (db.c: the records in LMDB).
    - Below them: Zmalloc.v (zmalloc.c), Zproc.v (its statistics from /proc), Atomicvar.v (atomicvar.h, the counter
      of zmalloc.c under several threads), Aes.v (aes.c), Chex.v (chex.h),
      Util.v (util.c), Log.v (log.c).
    - The hashes of xxhash.h: Xxhash.v (XXH32, XXH64, of which file.c uses
      the last), Xxh3.v (the one-shot functions of XXH3 and XXH128 over the
      class [Vector], the choice of XXH_VECTOR), Xxh3Stream.v (the state, its
      resets, updates and digests), Xxh3Secret.v (generated secrets, the
      canonical form), Xxh3Vec.v (the SSE2, AVX2 and AVX512 implementations, over a class
      of intrinsics), XxhState.v (the allocation of the states, aligned for XXH3).
    - The data base under db.c is LMDB, kept in src/liblmdb.  Of it the lists of page
      numbers are modelled: Midl.v (midl.c: search, sort, merge, insertion on
      an array), MidlHeap.v (midl.c: allocation and growth of the lists); and the programs that write a
      data base as text and read it: MdbDump.v (mdb_dump.c), MdbLoad.v (mdb_load.c), MdbRound.v (the proofs over both);
      and the pages of mdb.c: MdbPage.v (the operations on the bytes of a page), MdbPageSpec.v (what they do to the nodes of a page),
      MdbSearch.v (the comparisons of keys, the search), MdbPageOps.v (a leaf page as a list of nodes), MdbLeaf2.v (pages of keys of one size);
      and the reading of its tree: MdbTree.v (mdb_get, mdb_cursor_get and the functions below them, in a read-only
      transaction), MdbTreeSpec.v (what they find).
    - Prelude.v, this file: machine integers, C strings and blocks of bytes,
      the monad of state and outcome, and the allocator the components need.

    A definition has the name of the C function it models, and a loop of a
    function is a Fixpoint of its own (split_str is made of [count_args] and [fill_args]).

    ** How the code is modelled

    A function that changes state is a program [ST S A] of the monad below:
    it takes a state and gives [Ret] of a result and a state, [Abort] (the
    process ends), [Undef] (undefined behaviour of C: a NULL or dead pointer,
    a write past a block, a double free) or [NoFuel].  Memory is modelled where
    it matters: adlist.c on maps from addresses to objects; the structures of
    node.c, user.c and db.c as their blocks of bytes, since the code writes one past
    several of its arrays; the history with entries that may be freed.
    Components allocate through the class [Allocator], a heap with fresh addresses and a set
    of live ones, whose allocations may fail; Zmalloc.v gives the instance made of
    zmalloc and zfree over any C library with the documented guarantees.  Integers wrap at their
    width, with [wrap] and [swrap].

    What is not in src/src is an argument of the definitions that use it: the
    system calls, getopt_long, hiredis, LMDB and mosquitto.  Most of them
    are arbitrary functions of a call and of their own state; where a theorem
    needs more it says so in a hypothesis (LMDB and the server answer; the
    cursor of LMDB walks over the contents, class [Db.Cursors]).

    ** What the theorems show

    - Aes: the cipher is FIPS 197 for the three key sizes, decryption inverts
      it, CBC and CTR are the modes of SP 800-38A and invert.  Xxhash: streaming in any
      chunks is the one-shot hash, no build option changes a result, the
      canonical form reads back.  Xxh3: the hash
      depends on the input, the seed and the secret only, whatever the build and
      the vectors; it gives the published values; streaming is the one-shot
      hash (but for one case of 128 bits, [effective128]); each vector
      implementation does what the scalar one does; generated secrets.  Chex: hexadecimal text reads back.
    - Zmalloc: the counter is the sum of the live blocks after any history of
      calls.  Atomicvar: the three implementations of the atomic operations refine
      whole operations, in every interleaving, without deadlock or infinite run.  Adlist: every operation implements its counterpart on sequences,
      iterators of both directions survive a deletion, release frees each node once.
    - FileCrypt: a decrypted file is the padded original; [kx_crypt_file] on
      every branch, a file that cannot be examined, opened or read whole included (only the last
      leaks, the buffer of the hash).  User: the key and the node, with the
      writes past the arrays.  Util: the directories are made parents first.
    - Lineedit, History, Linenoise: the editor on the buffer refines an editor
      on a string with a cursor and a list of lines, key by key and over a session; the
      terminal shows the window around the cursor, with the character under it but for the last column;
      the terminal settings are restored, unless the input ends inside an escape sequence, which is undefined; lines
      without a terminal are read whole.  The sessions assume that no request fails, no completion is offered and the
      prompt is narrower than the terminal ([Linenoise.ready]).
    - Shell: a script is run line by line; splitting ends unless there is a
      newline; a terminal at the end of its input keeps the loop going for ever.
    - Net, Db, Log: the text of a request, its handler and what is given back;
      the calls of LMDB and the record they store; the order of a log event.
    - Mq: for all interleavings of the two threads the shell starts only after
      the subscription was answered, no wake-up is lost, and nothing else starts it.
    - Midl, MidlHeap: the sort permutes into descending order within its stack of
      64 words, the merge and the insertion keep the order, growing keeps the
      list, to the exact new capacity, and changes nothing only when realloc() fails.  MdbRound: mdb_load makes of the text of mdb_dump the same calls
      of LMDB, for any keys and values (a data base without a name is opened under the name before it).  MdbPageSpec, MdbPageOps, MdbLeaf2: a page holds a list of nodes; adding and deleting one
      is insertion and deletion in it, within the page, and a page that is too full is left alone.  MdbSearch: the
      comparisons are orders and the search finds the place of a key.  MdbTreeSpec: mdb_get finds the data of a key in a
      tree sorted by any of LMDB's comparisons, or tells that it is not there; a cursor walks over all its nodes in order, which is what [Db.Cursors] assumes
      of LMDB for the listing of the records.  Zproc, XxhState: the readers of /proc on every input of
      their form; an aligned state is inside its block and freed as it was allocated.
    - KxUser, KxFile: what the options mean, with every block of the command
      freed once, but for the strings an option given again has overwritten; the encryption of a file over all
      components, with the record that is kept, sent and stored.
    - Rkx: the start leaves a ready client, an invariant that registering
      keeps; a session that registers, encrypts and decrypts; and, evaluated, the
      whole program on a script ([main_script]).

    ** Fuel

    Structural recursion is used where the code walks over data.  The loops of
    adlist.c take as fuel any number above the length of the list, those of
    Linenoise.v any number above the bytes left to read, those of split_str,
    path_normalize and kx_mkdirp above the length of the text, the listing of Db.v
    above the number of records; the loops of Midl.v take the length of the
    array, its sort twice that, its binary searches 32; [consume_blocks] of
    Xxh3Stream.v takes the number of stripes and [fill_secret] of
    Xxh3Secret.v the size of the secret, since each round uses up one at least; the loops of MdbLoad.v and
    Zproc.v take any number above the length of their input, those of MdbDump.v above the number of records; [dec] writes at most twenty digits, the
    length of 2^64 - 1; the search in a page takes any number above that of its keys, the
    descent in a tree one more than the slots of a cursor's stack (CURSOR_STACK, 32), for each step down takes a slot, and the search for a sibling one more
    than the slots in use.  The theorems say that this is enough, or, for a loop that
    does not end ([Shell.split_str_spec], [Shell.kx_loop_eof_diverges]), that no fuel is.

    ** Not modelled

    - liblmdb but for midl.c, mdb_dump.c, mdb_load.c and, of mdb.c, the pages and the reading of the tree (its writing,
      the transactions, the free list, the lock table, the duplicates of MDB_DUPSORT): a third-party library kept in the repository, which
      db.c only calls, and the MDB_ID3 lists of midl.c, which only a 32-bit build
      with MDB_VL32 has.  hiredis and mosquitto are not in the repository.
    - Of XXH3, which rkx never calls: the NEON, VSX and SVE implementations, and the
      multiplications of MSVC and of the inline assembly, which give the same products.
    - Of zmalloc.c what needs jemalloc's statistics, Mach or sysctl.  It is sequential here; that its counter may be shared is Atomicvar.v.
    - The contents of what is printed on stderr (but for the logger), and errors of read
      and write inside the loops of encrypt_file and decrypt_file, which the code does not look at.  There
      a read after a write on an update stream is taken as defined, and the text of kx_command is not
      read as a format (both are findings).
    - The overflow of the int index of path_normalize, for a path of 2^31 bytes; errno, of which mkdir gives whether it is EEXIST,
      is taken as left alone by zfree.
    - The failure of pthread_create, the locale and the rwlock in main.  The
      steps of the MQTT thread after the shell has started are not interleaved with the shell: the two
      share only the standard output and, at the end of main, the MQTT object.
    - The options of mdb_dump and mdb_load, which getopt reads; functions that are declared
      and never defined. *)

From Stdlib Require Import ZArith Lia.
From Stdlib Require String Ascii.
From stdpp Require Import prelude gmap.

Open Scope Z_scope.

Declare Scope rkx_scope.
Delimit Scope rkx_scope with rkx.
Open Scope rkx_scope.

(** ** Machine integers

    A [w]-bit unsigned integer is a [Z] in [0, 2^w); arithmetic wraps by
    reducing modulo [2^w].  Signed integers are kept in [-2^(w-1), 2^(w-1)). *)

Definition wrap (w x : Z) : Z := x mod 2 ^ w.

Abbreviation u8 := (wrap 8).
Abbreviation u32 := (wrap 32).
Abbreviation u64 := (wrap 64).

Definition swrap (w x : Z) : Z := (x + 2 ^ (w - 1)) mod 2 ^ w - 2 ^ (w - 1).

Abbreviation i32 := (swrap 32).

(** A value that fits in [w] bits. *)
Definition fits (w x : Z) : Prop := 0 <= x < 2 ^ w.

Abbreviation is_byte := (fits 8).

#[export] Instance fits_dec w x : Decision (fits w x).
Proof. unfold fits. apply _. Defined.

(** Byte buffers. *)
Definition bytes (l : list Z) : Prop := Forall is_byte l.

#[export] Instance bytes_dec l : Decision (bytes l).
Proof. unfold bytes. apply _. Defined.

(** *** Facts about bytes *)

Lemma byte_bits x n : is_byte x -> 8 <= n -> Z.testbit x n = false.
Proof.
  intros H Hn. rewrite <- (Z.mod_small x (2 ^ 8)) by exact H. by apply Z.mod_pow2_bits_high.
Qed.

Lemma byte_u8 x : is_byte (u8 x).
Proof. by apply Z.mod_pos_bound. Qed.

(** The results of the operations on words fit. *)
Lemma fits_wrap w x : 0 <= w -> fits w (wrap w x).
Proof. intros H. apply Z.mod_pos_bound. lia. Qed.

Lemma fits_log2 w x : 0 < w -> 0 <= x -> fits w x <-> Z.log2 x < w.
Proof.
  intros Hw Hx. unfold fits. destruct (Z.eq_dec x 0) as [->|]; [cbn; lia|].
  rewrite Z.log2_lt_pow2 by lia. lia.
Qed.

Lemma fits_lxor w x y : 0 < w -> fits w x -> fits w y -> fits w (Z.lxor x y).
Proof.
  intros Hw Hx Hy. assert (0 <= x /\ 0 <= y) as [? ?] by (unfold fits in *; lia).
  assert (0 <= Z.lxor x y) by (apply Z.lxor_nonneg; lia). rewrite fits_log2 in * by lia.
  eapply Z.le_lt_trans; [by apply Z.log2_lxor|]. by apply Z.max_lub_lt.
Qed.

Lemma fits_lor w x y : 0 < w -> fits w x -> fits w y -> fits w (Z.lor x y).
Proof.
  intros Hw Hx Hy. assert (0 <= x /\ 0 <= y) as [? ?] by (unfold fits in *; lia).
  assert (0 <= Z.lor x y) by (apply Z.lor_nonneg; lia). rewrite fits_log2 in * by lia.
  rewrite Z.log2_lor by done. by apply Z.max_lub_lt.
Qed.

Lemma fits_shiftr w x k : 0 <= k -> fits w x -> fits w (Z.shiftr x k).
Proof.
  unfold fits. intros Hk Hx. rewrite Z.shiftr_div_pow2 by lia.
  split; [apply Z.div_pos; lia|]. apply Z.div_lt_upper_bound; nia.
Qed.

Lemma fits_weaken v w x : v <= w -> fits v x -> fits w x.
Proof. unfold fits. intros H Hx. pose proof (Z.pow_le_mono_r 2 v w). lia. Qed.

Lemma wrap_fits w x : fits w x -> wrap w x = x.
Proof. apply Z.mod_small. Qed.

Lemma u64_add_l x y : u64 (u64 x + y) = u64 (x + y).
Proof. unfold wrap. by rewrite Zplus_mod_idemp_l. Qed.

Lemma u64_add_r x y : u64 (x + u64 y) = u64 (x + y).
Proof. unfold wrap. by rewrite Zplus_mod_idemp_r. Qed.

Lemma u64_sub_l x y : u64 (u64 x - y) = u64 (x - y).
Proof. unfold wrap. by rewrite Zminus_mod_idemp_l. Qed.

Lemma byte_lxor x y : is_byte x -> is_byte y -> is_byte (Z.lxor x y).
Proof. by apply fits_lxor. Qed.

Create HintDb fits.
#[export] Hint Resolve fits_wrap fits_lxor fits_lor fits_shiftr : fits.
#[export] Hint Extern 1 (_ < _) => lia : fits.
#[export] Hint Extern 1 (_ <= _) => lia : fits.

(** A decidable statement about all bytes. *)
Definition all_bytes (P : Z -> bool) : bool := forallb (fun n => P (Z.of_nat n)) (seq 0 256).

Lemma all_bytes_spec P x : all_bytes P = true -> is_byte x -> P x = true.
Proof.
  unfold all_bytes. rewrite forallb_forall. intros H Hx. change (0 <= x < 256) in Hx.
  rewrite <- (Z2Nat.id x) by lia. apply H, in_seq. lia.
Qed.

(** An equation with the byte [x], by computing its 256 instances. *)
Ltac by_bytes x :=
  match goal with
  | |- ?a = ?b =>
    let P := eval pattern x in (Z.eqb a b) in
    match P with ?Q x =>
      apply Z.eqb_eq; apply (all_bytes_spec Q x); [vm_compute; reflexivity | assumption] end
  end.

(** ** Outcomes of a C computation

    [Ret]: a normal return; [Abort]: the process stopped itself ([abort],
    [exit]); [Undef]: the C standard gives the execution no meaning (a read
    or write outside an object, a dereference of NULL); [NoFuel]: the model's
    bound on a loop ran out, which the termination theorems exclude. *)

Inductive outcome (A : Type) : Type :=
  | Ret (a : A)
  | Abort
  | Undef
  | NoFuel.
Arguments Ret {A} a.
Arguments Abort {A}.
Arguments Undef {A}.
Arguments NoFuel {A}.

#[export] Instance outcome_ret : MRet outcome := @Ret.

#[export] Instance outcome_bind : MBind outcome := fun A B f m =>
  match m with
  | Ret a => f a
  | Abort => Abort
  | Undef => Undef
  | NoFuel => NoFuel
  end.

Definition of_option {A} (o : option A) : outcome A :=
  match o with Some a => Ret a | None => Undef end.

(** ** State and outcome: the monad of the operations on a heap *)

Definition ST (S A : Type) : Type := S -> outcome (A * S).

#[export] Instance ST_ret {S} : MRet (ST S) := fun A a s => Ret (a, s).

#[export] Instance ST_bind {S} : MBind (ST S) := fun A B f m s =>
  match m s with
  | Ret (a, s') => f a s'
  | Abort => Abort
  | Undef => Undef
  | NoFuel => NoFuel
  end.

Definition gets {S A} (f : S -> A) : ST S A := fun s => Ret (f s, s).
Definition modify {S} (f : S -> S) : ST S unit := fun s => Ret (tt, f s).
Definition undef {S A} : ST S A := fun _ => Undef.
Definition no_fuel {S A} : ST S A := fun _ => NoFuel.

(** *** Total correctness of a stateful computation

    [runs m s Q]: from [s], [m] returns a result and a state that satisfy
    [Q].  In particular it neither stops, nor loops, nor is undefined. *)

Definition runs {S A} (m : ST S A) (s : S) (Q : A -> S -> Prop) : Prop :=
  exists a s', m s = Ret (a, s') /\ Q a s'.

Lemma runs_intro {S A} (m : ST S A) s a s' (Q : A -> S -> Prop) : m s = Ret (a, s') -> Q a s' -> runs m s Q.
Proof. intros E H. by exists a, s'. Qed.

Lemma bind_ret {S A B} (m : ST S A) (k : A -> ST S B) s a s1 : m s = Ret (a, s1) -> (a ← m; k a) s = k a s1.
Proof. unfold mbind, ST_bind. by intros ->. Qed.

Lemma runs_ret {S A} (a : A) (s : S) (Q : A -> S -> Prop) : Q a s -> runs (mret a) s Q.
Proof. intros H. by exists a, s. Qed.

Lemma runs_bind {S A B} (m : ST S A) (f : A -> ST S B) s (Q : B -> S -> Prop) :
  runs m s (fun a s' => runs (f a) s' Q) -> runs (m ≫= f) s Q.
Proof.
  intros (a & s1 & E & b & s2 & E2 & H). exists b, s2. split; [|done].
  unfold mbind, ST_bind. by rewrite E.
Qed.

Lemma runs_mono {S A} (m : ST S A) s (P Q : A -> S -> Prop) :
  runs m s P -> (forall a s', P a s' -> Q a s') -> runs m s Q.
Proof. intros (a & s' & E & H) HPQ. exists a, s'. split; [done|]. by apply HPQ. Qed.

Lemma runs_gets {S A} (f : S -> A) (s : S) (Q : A -> S -> Prop) : Q (f s) s -> runs (gets f) s Q.
Proof. intros H. by exists (f s), s. Qed.

Lemma runs_modify {S} (f : S -> S) (s : S) (Q : unit -> S -> Prop) : Q tt (f s) -> runs (modify f) s Q.
Proof. intros H. by exists tt, (f s). Qed.

(** ** Counted loops *)

(** [for (i = first; n iterations; ++i) a = f(i, a)]. *)
Fixpoint for_up {A} (n first : nat) (f : nat -> A -> A) (a : A) : A :=
  match n with
  | O => a
  | S n' => for_up n' (S first) f (f first a)
  end.

Lemma for_up_ind {A} (P : nat -> A -> Prop) n first f a :
  P first a ->
  (forall i x, (first <= i < first + n)%nat -> P i x -> P (S i) (f i x)) ->
  P (first + n)%nat (for_up n first f a).
Proof.
  revert first a. induction n as [|n IH]; intros first a H0 HS; simpl.
  - by rewrite Nat.add_0_r.
  - rewrite <- Nat.add_succ_comm. apply IH; [apply HS; [lia|done]|].
    intros i x Hi. apply HS. lia.
Qed.

Lemma for_up_ext {A} (P : A -> Prop) n first (f g : nat -> A -> A) a :
  P a -> (forall i x, (first <= i < first + n)%nat -> P x -> f i x = g i x /\ P (f i x)) ->
  for_up n first f a = for_up n first g a /\ P (for_up n first f a).
Proof.
  revert first a. induction n as [|n IH]; intros first a Ha H; cbn [for_up]; [done|].
  destruct (H first a) as [E Ha']; [lia|done|]. rewrite <- E.
  apply IH; [done|]. intros i x Hi. apply H. lia.
Qed.

Lemma for_up_same {A} n first (f g : nat -> A -> A) a :
  (forall i x, (first <= i < first + n)%nat -> f i x = g i x) -> for_up n first f a = for_up n first g a.
Proof. intros H. apply (for_up_ext (fun _ => True)); [done|]. intros i x Hi _. by rewrite H. Qed.

Lemma for_up_add {A} n m first (f : nat -> A -> A) a :
  for_up (n + m) first f a = for_up m (first + n) f (for_up n first f a).
Proof.
  revert first a. induction n as [|n IH]; intros first a; cbn [for_up Nat.add].
  - by rewrite Nat.add_0_r.
  - rewrite IH. by rewrite Nat.add_succ_comm.
Qed.

Lemma list_insert_at (l : list Z) i j x :
  <[i := x]> l !!! j = if decide (i = j /\ j < length l)%nat then x else l !!! j.
Proof.
  case_decide as H.
  - destruct H as [-> H]. by apply list_lookup_total_insert_eq.
  - destruct (decide (i = j)) as [-> |].
    + by rewrite list_insert_ge by lia.
    + by apply list_lookup_total_insert_ne.
Qed.

(** ** Memory as a list of bytes *)

(** [peek m off n] reads [n] bytes, [poke m off bs] writes the bytes [bs];
    both fail outside the object. *)
Definition peek (m : list Z) (off n : nat) : option (list Z) :=
  if decide (off + n <= length m)%nat then Some (take n (drop off m)) else None.

Definition poke (m : list Z) (off : nat) (bs : list Z) : option (list Z) :=
  if decide (off + length bs <= length m)%nat
  then Some (take off m ++ bs ++ drop (off + length bs) m) else None.

(** A C string is a [list Z] of non-zero bytes; in memory it is followed by a
    NUL.  [cstr m] is the string at the start of [m] ([None]: no NUL before
    the object ends, so reading it is undefined). *)
Fixpoint cstr (m : list Z) : option (list Z) :=
  match m with
  | [] => None
  | c :: m' => if decide (c = 0) then Some [] else (fun s => c :: s) <$> cstr m'
  end.

Definition nonul (s : list Z) : Prop := Forall (fun c => c <> 0) s.

#[export] Instance nonul_dec s : Decision (nonul s).
Proof. unfold nonul. apply _. Defined.

Lemma cstr_app s r : nonul s -> cstr (s ++ 0 :: r) = Some s.
Proof.
  induction 1 as [|c s Hc Hs IH]; [done|]. simpl. rewrite decide_False by done. by rewrite IH.
Qed.

Lemma cstr_Some m s : cstr m = Some s -> exists r, m = s ++ 0 :: r /\ nonul s.
Proof.
  revert s. induction m as [|c m IH]; intros s; simpl; [done|]. case_decide as Hc.
  - intros [= <-]. subst. exists m. split; [done|constructor].
  - destruct (cstr m) as [s'|]; simpl; [|done]. intros [= <-].
    destruct (IH _ eq_refl) as (r & -> & H). exists r. split; [done|]. by constructor.
Qed.

(** The [n] bytes [strncpy(dst, s, n)] writes at [dst]. *)
Definition strncpy (s : list Z) (n : nat) : list Z :=
  take n (s ++ replicate n 0).

(** The bytes [snprintf(dst, n, ...)] writes when the formatted text is [s]:
    at most [n - 1] bytes of text and a NUL; nothing for [n = 0]. *)
Definition snprintf (s : list Z) (n : nat) : list Z :=
  match n with
  | O => []
  | S n' => take n' s ++ [0]
  end.

(** *** Facts about memory *)

Lemma poke_length m off bs m' : poke m off bs = Some m' -> length m' = length m.
Proof.
  unfold poke. case_decide; [|done]. intros [= <-].
  rewrite !length_app, length_take, length_drop. lia.
Qed.

Lemma poke_Some m off bs : (off + length bs <= length m)%nat ->
  poke m off bs = Some (take off m ++ bs ++ drop (off + length bs) m).
Proof. intros H. unfold poke. by rewrite decide_True. Qed.

Lemma strncpy_length s n : length (strncpy s n) = n.
Proof. unfold strncpy. rewrite length_take, length_app, length_replicate. lia. Qed.

Lemma snprintf_length s n : (length (snprintf s n) <= n)%nat.
Proof. destruct n; [done|]. unfold snprintf. rewrite length_app, length_take. simpl. lia. Qed.

Lemma lookup_poke m off bs m' i : poke m off bs = Some m' ->
  m' !! i = if decide (off <= i < off + length bs)%nat then bs !! (i - off)%nat else m !! i.
Proof.
  unfold poke. case_decide as H; [|done]. intros [= <-].
  assert (L : length (take off m) = off) by (rewrite length_take; lia). case_decide as C.
  - rewrite lookup_app_r, L by lia. rewrite lookup_app_l by lia. done.
  - destruct (decide (i < off)%nat).
    + rewrite lookup_app_l by lia. by rewrite lookup_take_lt by lia.
    + rewrite lookup_app_r, L by lia. rewrite lookup_app_r by lia. rewrite lookup_drop. f_equal. lia.
Qed.

Lemma cstr_at m off s :
  nonul s -> (forall i, (i < length s)%nat -> m !! (off + i)%nat = s !! i) ->
  m !! (off + length s)%nat = Some 0 -> cstr (drop off m) = Some s.
Proof.
  intros N. revert off. induction N as [|c s Hc N IH]; intros off Hi H0.
  - rewrite Nat.add_0_r in H0. by rewrite (drop_S m 0 off H0).
  - assert (Ec : m !! off = Some c).
    { specialize (Hi O ltac:(simpl; lia)). by rewrite Nat.add_0_r in Hi. }
    rewrite (drop_S m c off Ec). simpl. rewrite decide_False by done. rewrite IH; [done|..].
    + intros i Hl. rewrite Nat.add_succ_comm. apply (Hi (S i)). simpl. lia.
    + rewrite Nat.add_succ_comm. exact H0.
Qed.

Lemma lookup_strncpy s n i : (i < n)%nat ->
  strncpy s n !! i = Some (default 0 (s !! i)).
Proof.
  intros H. unfold strncpy. rewrite lookup_take_lt by done. destruct (s !! i) as [x|] eqn:E; simpl.
  - by apply lookup_app_l_Some.
  - apply lookup_ge_None in E. rewrite lookup_app_r by done. apply lookup_replicate. lia.
Qed.

(** A string shorter than the array less one is terminated by [strncpy]. *)
Lemma cstr_strncpy m off n s :
  nonul s -> (length s < n)%nat -> (forall i, (i < n)%nat -> m !! (off + i)%nat = strncpy s n !! i) ->
  cstr (drop off m) = Some s.
Proof.
  intros N L H. apply cstr_at; [done| |].
  - intros i Hi. rewrite H, lookup_strncpy by lia. by destruct (lookup_lt_is_Some_2 s i Hi) as [x ->].
  - rewrite H, lookup_strncpy by lia. by rewrite (proj2 (lookup_ge_None s (length s)) ltac:(lia)).
Qed.

(** The cases of [peek] and [poke] on a block written as a concatenation. *)
Lemma peek_at a b c off n : length a = off -> length b = n -> peek (a ++ b ++ c) off n = Some b.
Proof.
  intros <- <-. unfold peek. rewrite decide_True by (rewrite !length_app; lia).
  by rewrite drop_app_length, take_app_length.
Qed.

Lemma poke_at a b b' c off : length a = off -> length b = length b' ->
  poke (a ++ b ++ c) off b' = Some (a ++ b' ++ c).
Proof.
  intros <- L. rewrite poke_Some by (rewrite !length_app; lia).
  rewrite take_app_length. do 3 f_equal. by rewrite drop_app_add', drop_app_length'.
Qed.

(** ** Decimal numbers: "%d" and "%lu" *)

(** The digits of [n] in front of [acc]; [fuel] bounds their number. *)
Fixpoint digits (fuel : nat) (n : Z) (acc : list Z) : list Z :=
  match fuel with
  | O => acc
  | S f => let acc := (48 + n mod 10) :: acc in
           if decide (n < 10) then acc else digits f (n / 10) acc
  end.

(** Twenty digits are enough for 64 bits. *)
Definition dec (n : Z) : list Z :=
  if decide (n < 0) then 45 :: digits 20 (- n) [] else digits 20 n [].

Definition isdigit (c : Z) : bool := bool_decide (48 <= c <= 57).

(** The value of a run of digits after [a]. *)
Definition undigits (a : Z) (l : list Z) : Z := fold_left (fun a c => 10 * a + (c - 48)) l a.

Lemma digits_spec fuel n acc : 0 <= n < 10 ^ Z.of_nat fuel ->
  (0 < fuel)%nat ->
  exists ds, digits fuel n acc = ds ++ acc /\ (0 < length ds <= fuel)%nat /\
    Forall (fun c => 48 <= c <= 57) ds /\ forall a, undigits a ds = a * 10 ^ Z.of_nat (length ds) + n.
Proof.
  revert n acc. induction fuel as [|f IH]; intros n acc Hn Hf; [lia|]. cbn [digits].
  pose proof (Z.mod_pos_bound n 10 ltac:(lia)) as Hm. destruct (decide (n < 10)) as [Hs|Hs].
  - exists [48 + n mod 10]. rewrite Z.mod_small by lia. split; [done|]. split; [simpl; lia|].
    split; [repeat constructor; lia|]. intros a. cbn. lia.
  - rewrite Nat2Z.inj_succ, Z.pow_succ_r in Hn by lia.
    assert (Hd : 0 <= n / 10 < 10 ^ Z.of_nat f)
      by (split; [apply Z.div_pos; lia|apply Z.div_lt_upper_bound; lia]).
    assert (Hf' : (0 < f)%nat). { destruct f; [|lia]. simpl in Hd. pose proof (Z.div_le_mono 10 n 10). cbn in *. lia. }
    destruct (IH (n / 10) ((48 + n mod 10) :: acc) Hd Hf') as (ds & E & L & F & U).
    exists (ds ++ [48 + n mod 10]). rewrite E, <- app_assoc. split; [done|].
    rewrite length_app. cbn [length]. split; [lia|]. split; [apply Forall_app; split; [done|repeat constructor; lia]|].
    intros a. unfold undigits in *. rewrite fold_left_app, U. cbn [fold_left].
    replace (Z.of_nat (length ds + 1)) with (Z.succ (Z.of_nat (length ds))) by lia.
    rewrite Z.pow_succ_r by lia. pose proof (Z.div_mod n 10 ltac:(lia)). lia.
Qed.

Lemma dec_nonneg n : 0 <= n < 10 ^ 20 ->
  dec n <> [] /\ (length (dec n) <= 20)%nat /\ Forall (fun c => 48 <= c <= 57) (dec n) /\ undigits 0 (dec n) = n.
Proof.
  intros Hn. unfold dec. rewrite decide_False by lia.
  destruct (digits_spec 20 n [] Hn ltac:(lia)) as (ds & E & L & F & U). rewrite E, app_nil_r.
  split; [by destruct ds; [simpl in L; lia|]|]. split; [lia|]. split; [done|]. rewrite U. lia.
Qed.

Lemma dec_inj n m : 0 <= n < 10 ^ 20 -> 0 <= m < 10 ^ 20 -> dec n = dec m -> n = m.
Proof.
  intros Hn Hm E. destruct (dec_nonneg n Hn) as (_ & _ & _ & <-).
  destruct (dec_nonneg m Hm) as (_ & _ & _ & <-). by rewrite E.
Qed.

(** ** Reading text *)

(** The bytes of a literal. *)
Definition text (s : String.string) : list Z := (fun c => Z.of_nat (Ascii.nat_of_ascii c)) <$> String.list_ascii_of_string s.

Definition isspace (c : Z) : bool := bool_decide (c = 32 \/ 9 <= c <= 13).

Fixpoint skip_spaces (l : list Z) : list Z :=
  match l with
  | c :: l' => if isspace c then skip_spaces l' else l
  | [] => []
  end.

Fixpoint span_digits (l : list Z) : list Z * list Z :=
  match l with
  | c :: l' => if isdigit c then (c :: (span_digits l').1, (span_digits l').2) else ([], l)
  | [] => ([], [])
  end.

(** What [atoi] and [strtol(s, NULL, 10)] read: blanks, a sign, digits. *)
Definition number (l : list Z) : Z :=
  match skip_spaces l with
  | [] => 0
  | c :: l' =>
      if decide (c = 45) then - undigits 0 (span_digits l').1
      else if decide (c = 43) then undigits 0 (span_digits l').1
      else undigits 0 (span_digits (c :: l')).1
  end.

(** [strtol] and [strtoll] of 64 bits stay in their range. *)
Definition strtol (l : list Z) : Z := Z.max (- 2 ^ 63) (Z.min (2 ^ 63 - 1) (number l)).

(** [fgets(buf, n + 1, fp)]: at most [n] bytes, up to a newline. *)
Fixpoint fgets (n : nat) (l : list Z) : list Z * list Z :=
  match n, l with
  | S n', c :: l' => if decide (c = 10) then ([c], l')
                     else (c :: (fgets n' l').1, (fgets n' l').2)
  | _, _ => ([], l)
  end.

(** The part of a string before the first [c] ([None]: not there). *)
Fixpoint before (c : Z) (l : list Z) : option (list Z) :=
  match l with
  | [] => None
  | x :: l' => if decide (x = c) then Some [] else (fun s => x :: s) <$> before c l'
  end.

Lemma fgets_line n s r : Forall (fun c => c <> 10) s -> (length s < n)%nat -> fgets n (s ++ 10 :: r) = (s ++ [10], r).
Proof.
  intros F. revert n. induction F as [|c s H10 F IH]; intros n Hn.
  - destruct n; [simpl in Hn; lia|]. done.
  - destruct n; [simpl in Hn; lia|]. cbn [app fgets]. rewrite decide_False by done.
    rewrite IH by (simpl in Hn; lia). done.
Qed.

Lemma before_none c s : Forall (fun x => x <> c) s -> before c s = None.
Proof. induction 1 as [|x s Hx _ IH]; [done|]. cbn. rewrite decide_False by done. by rewrite IH. Qed.

Lemma before_app c s r : Forall (fun x => x <> c) s -> before c (s ++ c :: r) = Some s.
Proof.
  induction 1 as [|x s Hx _ IH]; cbn; [by rewrite decide_True|]. rewrite decide_False by done. by rewrite IH.
Qed.

Lemma isdigit_true c : isdigit c = true <-> 48 <= c <= 57.
Proof. unfold isdigit. by rewrite bool_decide_eq_true. Qed.

Lemma span_digits_app ds r : Forall (fun c => 48 <= c <= 57) ds -> match r with [] => True | c :: _ => isdigit c = false end ->
  span_digits (ds ++ r) = (ds, r).
Proof.
  intros F Hr. induction F as [|c ds Hc _ IH]; cbn [app span_digits].
  - destruct r as [|c r]; [done|]. cbn [span_digits]. by rewrite Hr.
  - by rewrite (proj2 (isdigit_true c) Hc), IH.
Qed.

(** A decimal number is read back, after blanks, up to what follows. *)
Lemma number_dec blanks n r : Forall (fun c => isspace c = true) blanks -> 0 <= n < 10 ^ 20 ->
  match r with [] => True | c :: _ => isdigit c = false end -> number (blanks ++ dec n ++ r) = n.
Proof.
  intros B Hn Hr. destruct (dec_nonneg n Hn) as (Ne & _ & F & U). unfold number.
  assert (E : skip_spaces (blanks ++ dec n ++ r) = dec n ++ r).
  { induction B as [|c l Hc _ IH]; [|cbn [app skip_spaces]; by rewrite Hc].
    cbn [app]. destruct (dec n) as [|d ds]; [done|]. cbn [app skip_spaces]. inversion_clear F.
    unfold isspace. by rewrite bool_decide_false by lia. }
  rewrite E. pose proof (span_digits_app (dec n) r F Hr) as D. destruct (dec n) as [|d ds]; [done|]. cbn [app] in *.
  inversion_clear F. rewrite !decide_False by lia. by rewrite D.
Qed.

(** ** Allocation

    What the callers of [zmalloc] rely on: a state [A] with a set of live
    block addresses; an allocation returns NULL ([0], with a handler that
    returns), stops the process, or returns a fresh non-NULL address; freeing
    a live address removes it, freeing NULL does nothing. *)

Class Allocator (A : Type) := {
  a_live : A -> gset Z;
  a_alloc : Z -> ST A Z;
  a_free : Z -> ST A unit;
  a_alloc_null : forall n h h', a_alloc n h = Ret (0, h') -> a_live h' = a_live h;
  a_alloc_fresh : forall n h p h',
    a_alloc n h = Ret (p, h') -> p <> 0 ->
    (p ∉ a_live h) /\ a_live h' = {[p]} ∪ a_live h;
  a_free_null : forall h, a_free 0 h = Ret (tt, h);
  a_free_live : forall p h, p ∈ a_live h -> p <> 0 ->
    exists h', a_free p h = Ret (tt, h') /\ a_live h' = a_live h ∖ {[p]}
}.

(** An allocator whose blocks never run out, for the witnesses: the next block is
    above the last one. *)
Definition highest (h : gset Z) : Z := set_fold Z.max 0 h.

Lemma highest_spec h a : a ∈ h -> a <= highest h.
Proof.
  revert a. unfold highest.
  apply (set_fold_ind_L (fun r X => forall a, a ∈ X -> a <= r) Z.max); [set_solver|].
  intros x X r Hx IH a. rewrite elem_of_union, elem_of_singleton.
  intros [-> | Ha%IH]; lia.
Qed.

Lemma highest_pos h : 0 <= highest h.
Proof.
  unfold highest. apply (set_fold_ind_L (fun r _ => 0 <= r) Z.max); [done|]. intros; lia.
Qed.

Lemma endless_fresh (n : Z) (h : gset Z) p h' :
  Ret (highest h + 1, {[highest h + 1]} ∪ h) = Ret (p, h') -> p <> 0 ->
  (p ∉ h) /\ h' = {[p]} ∪ h.
Proof. intros [= <- <-] _. split; [|done]. intros Hi%highest_spec. lia. Qed.

#[export] Program Instance endless : Allocator (gset Z) := {|
  a_live h := h;
  a_alloc _ h := Ret (highest h + 1, {[highest h + 1]} ∪ h);
  a_free p h := Ret (tt, if decide (p = 0) then h else h ∖ {[p]})
|}.
Next Obligation. intros _ h h' [= E _]. pose proof (highest_pos h). lia. Qed.
Next Obligation. intros n h p h' E Hp. exact (endless_fresh n h p h' E Hp). Qed.
Next Obligation. intros h. reflexivity. Qed.
Next Obligation.
  intros p h _ Hp. eexists. split; [reflexivity|]. by rewrite decide_False.
Qed.

Lemma endless_total (n : Z) (h : gset Z) : exists p h', a_alloc n h = Ret (p, h').
Proof. exists (highest h + 1), ({[highest h + 1]} ∪ h). reflexivity. Qed.
