(* ===== verification/Zmalloc.v ===== *)
(** * The accounting allocator (src/src/zmalloc.c, src/src/zmalloc.h)

    zmalloc wraps the C library's allocator and keeps in [used_memory] the
    number of bytes in use.  The C library's choices (where a block goes, how
    large its usable size is, whether memory is left) are the functions of
    the class [Malloc]; its documented guarantees are the laws of the class.
    Both build variants are modelled: with [HAVE_MALLOC_SIZE] (glibc: the
    usable size is asked from the library) and without (the size is stored in
    a header in front of the block). *)

From Stdlib Require Import ZArith Lia.
From stdpp Require Import prelude gmap.
From S2P Require Import Prelude.

(** ** The C library's heap *)

(** A live block: its usable size, the word at its start ([size_t] header,
    meaningful in the variant without [HAVE_MALLOC_SIZE]), the bytes the
    caller may use, and whether zmalloc, rather than the program calling the
    C library directly, created it. *)
Record block := Block {
  b_usable : Z;
  b_header : Z;
  b_data : list Z;
  b_counted : bool
}.

(** [pick m n]: the address and usable size [malloc(n)] gives, or [None] when
    it fails.  [repick m p n]: the same for [realloc(p, n)] with [n > 0]. *)
Class Malloc := {
  pick : gmap Z block -> Z -> option (Z * Z);
  repick : gmap Z block -> Z -> Z -> option (Z * Z);
  junk_bytes : Z -> list Z;
  junk_bytes_length : forall n, length (junk_bytes n) = Z.to_nat n;
  pick_ok : forall m n p u, pick m n = Some (p, u) ->
    m !! p = None /\ 0 < p /\ n <= u < 2 ^ 64;
  repick_ok : forall m p0 n p u, repick m p0 n = Some (p, u) ->
    (p = p0 \/ m !! p = None) /\ 0 < p /\ n <= u < 2 ^ 64
}.

(** [zmalloc_oom_handler]: the default aborts; one set by
    [zmalloc_set_oom_handler] may return. *)
Inductive oom_handler := zmalloc_default_oom | returning_handler.

Record zstate := ZState {
  blocks : gmap Z block;
  used_memory : Z;
  zmalloc_oom_handler : oom_handler
}.

Section Zmalloc.
Context `{!Malloc}.

(** The build option [HAVE_MALLOC_SIZE]. *)
Variable HAVE_MALLOC_SIZE : bool.

Definition PREFIX_SIZE : Z := if HAVE_MALLOC_SIZE then 0 else 8.

Definition with_blocks (f : gmap Z block -> gmap Z block) (st : zstate) : zstate :=
  ZState (f (blocks st)) (used_memory st) (zmalloc_oom_handler st).

(** ** The C library calls *)

Definition malloc_with (data : Z -> list Z) (n : Z) : ST zstate Z := fun st =>
  match pick (blocks st) n with
  | None => Ret (0, st)
  | Some (p, u) =>
      Ret (p, with_blocks <[p := Block u 0 (data (n - PREFIX_SIZE)) false]> st)
  end.

Definition malloc : Z -> ST zstate Z := malloc_with junk_bytes.

Definition calloc : Z -> ST zstate Z := malloc_with (fun n => replicate (Z.to_nat n) 0).

(** [free(p)]: freeing anything but NULL or a live block is undefined. *)
Definition libc_free (p : Z) : ST zstate unit := fun st =>
  if decide (p = 0) then Ret (tt, st)
  else match blocks st !! p with
       | None => Undef
       | Some _ => Ret (tt, with_blocks (delete p) st)
       end.

(** The bytes [realloc] keeps of [d] in a block for [n] bytes. *)
Definition resize (d : list Z) (n : Z) : list Z :=
  take (Z.to_nat n) (d ++ drop (length d) (junk_bytes n)).

(** [realloc(p, n)] for a non-NULL [p]: with [n = 0] glibc frees the block and
    returns NULL; on failure the old block stays. *)
Definition realloc (p n : Z) : ST zstate Z := fun st =>
  match blocks st !! p with
  | None => Undef
  | Some b =>
      if decide (n = 0) then Ret (0, with_blocks (delete p) st)
      else match repick (blocks st) p n with
           | None => Ret (0, st)
           | Some (q, u) =>
               Ret (q, with_blocks
                  (fun m => <[q := Block u (b_header b) (resize (b_data b) (n - PREFIX_SIZE))
                                (b_counted b)]> (delete p m)) st)
           end
  end.

(** [malloc_usable_size(p)], which is 0 for NULL. *)
Definition malloc_usable_size (p : Z) : ST zstate Z := fun st =>
  if decide (p = 0) then Ret (0, st)
  else match blocks st !! p with Some b => Ret (b_usable b, st) | None => Undef end.

(** [*((size_t* )p) = size] and [*((size_t* )p)]. *)
Definition write_header (p size : Z) : ST zstate unit := fun st =>
  if decide (p = 0) then Undef else
  match blocks st !! p with
  | None => Undef
  | Some b =>
      Ret (tt, with_blocks <[p := Block (b_usable b) size (b_data b) (b_counted b)]> st)
  end.

Definition read_header (p : Z) : ST zstate Z := fun st =>
  if decide (p = 0) then Undef else
  match blocks st !! p with Some b => Ret (b_header b, st) | None => Undef end.

(** The block at [p] is now one of zmalloc's (no code: it makes the invariant
    of [used_memory] expressible). *)
Definition count_block (p : Z) : ST zstate unit :=
  if decide (p = 0) then mret tt
  else modify (with_blocks (alter (fun b => Block (b_usable b) (b_header b) (b_data b) true) p)).

(** ** The statistics *)

(** [_n] is rounded up to a multiple of [sizeof(long)], and then not used. *)
Definition round_long (n : Z) : Z :=
  if decide (Z.land n 7 = 0) then n else u64 (n + (8 - Z.land n 7)).

Definition update_zmalloc_stat_alloc (n : Z) : ST zstate unit :=
  modify (fun st =>
    let _n := round_long n in
    ZState (blocks st) (u64 (used_memory st + n)) (zmalloc_oom_handler st)).

Definition update_zmalloc_stat_free (n : Z) : ST zstate unit :=
  modify (fun st =>
    let _n := round_long n in
    ZState (blocks st) (u64 (used_memory st - n)) (zmalloc_oom_handler st)).

(** [if (!ptr) zmalloc_oom_handler(size)]. *)
Definition check_oom (ptr : Z) : ST zstate unit := fun st =>
  if decide (ptr = 0) then
    match zmalloc_oom_handler st with
    | zmalloc_default_oom => Abort
    | returning_handler => Ret (tt, st)
    end
  else Ret (tt, st).

(** ** The functions of zmalloc.c *)

(** [zmalloc_size]: the library's usable size, or the header rounded up to
    [sizeof(long)] plus the prefix. *)
Definition zmalloc_size (ptr : Z) : ST zstate Z :=
  if HAVE_MALLOC_SIZE then malloc_usable_size ptr
  else
    size ← read_header (ptr - PREFIX_SIZE);
    mret (u64 (round_long size + PREFIX_SIZE)).

Definition zmalloc_usable (ptr : Z) : ST zstate Z :=
  n ← zmalloc_size ptr;
  mret (if HAVE_MALLOC_SIZE then n else u64 (n - PREFIX_SIZE)).

(** The common body of [zmalloc] and [zcalloc] after the library call. *)
Definition zalloc_finish (ptr size : Z) : ST zstate Z :=
  check_oom ptr;;
  if HAVE_MALLOC_SIZE then
    count_block ptr;;
    n ← zmalloc_size ptr;
    update_zmalloc_stat_alloc n;;
    mret ptr
  else
    write_header ptr size;;
    count_block ptr;;
    update_zmalloc_stat_alloc (u64 (size + PREFIX_SIZE));;
    mret (ptr + PREFIX_SIZE).

Definition zmalloc (size : Z) : ST zstate Z :=
  ptr ← malloc (u64 (size + PREFIX_SIZE)); zalloc_finish ptr size.

Definition zcalloc (size : Z) : ST zstate Z :=
  ptr ← calloc (u64 (size + PREFIX_SIZE)); zalloc_finish ptr size.

Definition zrealloc (ptr size : Z) : ST zstate Z :=
  if decide (ptr = 0) then zmalloc size
  else if HAVE_MALLOC_SIZE then
    oldsize ← zmalloc_size ptr;
    newptr ← realloc ptr size;
    check_oom newptr;;
    update_zmalloc_stat_free oldsize;;
    n ← zmalloc_size newptr;
    update_zmalloc_stat_alloc n;;
    mret newptr
  else
    let realptr := ptr - PREFIX_SIZE in
    oldsize ← read_header realptr;
    newptr ← realloc realptr (u64 (size + PREFIX_SIZE));
    check_oom newptr;;
    write_header newptr size;;
    update_zmalloc_stat_free (u64 (oldsize + PREFIX_SIZE));;
    update_zmalloc_stat_alloc (u64 (size + PREFIX_SIZE));;
    mret (newptr + PREFIX_SIZE).

Definition zfree (ptr : Z) : ST zstate unit :=
  if decide (ptr = 0) then mret tt
  else if HAVE_MALLOC_SIZE then
    n ← zmalloc_size ptr;
    update_zmalloc_stat_free n;;
    libc_free ptr
  else
    let realptr := ptr - PREFIX_SIZE in
    oldsize ← read_header realptr;
    update_zmalloc_stat_free (u64 (oldsize + PREFIX_SIZE));;
    libc_free realptr.

(** With HAVE_DEFRAG (jemalloc, which has HAVE_MALLOC_SIZE): mallocx and
    dallocx without the thread cache. *)
Definition zmalloc_no_tcache (size : Z) : ST zstate Z :=
  ptr ← malloc (u64 (size + PREFIX_SIZE));
  check_oom ptr;;
  count_block ptr;;
  n ← zmalloc_size ptr;
  update_zmalloc_stat_alloc n;;
  mret ptr.

Definition zfree_no_tcache (ptr : Z) : ST zstate unit :=
  if decide (ptr = 0) then mret tt
  else
    n ← zmalloc_size ptr;
    update_zmalloc_stat_free n;;
    libc_free ptr.

(** [memcpy(p, bs, n)] into the caller's part of a block. *)
Definition store_bytes (ptr : Z) (bs : list Z) : ST zstate unit := fun st =>
  match blocks st !! (ptr - PREFIX_SIZE) with
  | None => Undef
  | Some b =>
      match poke (b_data b) 0 bs with
      | None => Undef
      | Some d =>
          Ret (tt, with_blocks
             <[ptr - PREFIX_SIZE := Block (b_usable b) (b_header b) d (b_counted b)]> st)
      end
  end.

(** [zstrdup] of the C string [s]. *)
Definition zstrdup (s : list Z) : ST zstate Z :=
  let l := Z.of_nat (length s) + 1 in
  p ← zmalloc l;
  store_bytes p (s ++ [0]);;
  mret p.

Definition zmalloc_used_memory : ST zstate Z := gets used_memory.

Definition zmalloc_set_oom_handler (h : oom_handler) : ST zstate unit :=
  modify (fun st => ZState (blocks st) (used_memory st) h).

(** Without [HAVE_PROC_STAT] (config.h defines neither it nor
    [HAVE_TASKINFO]) the resident size is estimated by [used_memory]. *)
Definition zmalloc_get_rss : ST zstate Z := zmalloc_used_memory.

(** Without jemalloc: the three outputs, then the result. *)
Definition zmalloc_get_allocator_info : Z * Z * Z * Z := (0, 0, 0, 1).

(** Without [HAVE_PROC_SMAPS]. *)
Definition zmalloc_get_smap_bytes_by_field (field : list Z) (pid : Z) : Z := 0.

Definition zmalloc_get_private_dirty (pid : Z) : Z :=
  zmalloc_get_smap_bytes_by_field [80; 114; 105; 118; 97; 116; 101; 95; 68; 105; 114; 116; 121; 58] pid.

End Zmalloc.

(** ** The accounting invariant *)

Section Accounting.
Context `{!Malloc}.
Variable HAVE_MALLOC_SIZE : bool.

(** What a block of zmalloc's contributes to [used_memory]. *)
Definition charge (b : block) : Z :=
  if b_counted b then if HAVE_MALLOC_SIZE then b_usable b else u64 (b_header b + 8) else 0.

Definition total (m : gmap Z block) : Z := map_fold (fun _ b acc => charge b + acc) 0 m.

Definition accounted (st : zstate) : Prop := used_memory st = u64 (total (blocks st)).

Lemma total_insert m p b : m !! p = None -> total (<[p := b]> m) = charge b + total m.
Proof. intros E. unfold total. rewrite map_fold_insert_L; [done | intros; lia | done]. Qed.

Lemma total_delete m p b : m !! p = Some b -> total (delete p m) = total m - charge b.
Proof.
  intros E. rewrite <- (insert_delete_id m p b E) at 2.
  rewrite total_insert by apply lookup_delete_eq. lia.
Qed.

Lemma total_update m p b b' :
  m !! p = Some b -> total (<[p := b']> m) = total m - charge b + charge b'.
Proof.
  intros E. rewrite <- insert_delete_eq, total_insert by apply lookup_delete_eq.
  rewrite (total_delete _ _ _ E). lia.
Qed.

(** The cost of a block of zmalloc's, whatever its tag. *)
Definition cost (b : block) : Z := if HAVE_MALLOC_SIZE then b_usable b else u64 (b_header b + 8).

Abbreviation prefix := (PREFIX_SIZE HAVE_MALLOC_SIZE).

(** The block a successful [zmalloc(size)] creates. *)
Definition new_block (data : Z -> list Z) (size u : Z) : block :=
  Block u (if HAVE_MALLOC_SIZE then 0 else size) (data (u64 (size + prefix) - prefix)) true.

Definition out_of_memory (st : zstate) : outcome (Z * zstate) :=
  match zmalloc_oom_handler st with
  | zmalloc_default_oom => Abort
  | returning_handler =>
      if HAVE_MALLOC_SIZE
      then Ret (0, ZState (blocks st) (u64 (used_memory st)) (zmalloc_oom_handler st)) else Undef
  end.

Ltac zrun :=
  cbv [zmalloc zcalloc zrealloc zfree zalloc_finish malloc calloc malloc_with check_oom
       zmalloc_size malloc_usable_size write_header read_header count_block libc_free realloc
       update_zmalloc_stat_alloc update_zmalloc_stat_free with_blocks modify
       mbind mret ST_bind ST_ret].

Ltac zlook :=
  repeat (simpl;
    first
    [ rewrite lookup_insert_eq
    | rewrite lookup_alter_eq
    | rewrite insert_insert_eq
    | rewrite alter_insert_eq
    | rewrite Z.add_0_r
    | rewrite Z.sub_0_r
    | rewrite decide_True by (first [done | lia])
    | rewrite decide_False by (first [done | lia])
    | match goal with E : _ = _ |- _ => rewrite E end ]).

Lemma alloc_run data st size :
  (ptr ← malloc_with HAVE_MALLOC_SIZE data (u64 (size + prefix));
   zalloc_finish HAVE_MALLOC_SIZE ptr size) st =
  match pick (blocks st) (u64 (size + prefix)) with
  | None => out_of_memory st
  | Some (p, u) =>
      let b := new_block data size u in
      Ret (p + prefix, ZState (<[p := b]> (blocks st)) (u64 (used_memory st + cost b))
                         (zmalloc_oom_handler st))
  end.
Proof.
  unfold out_of_memory, new_block, cost, PREFIX_SIZE in *. zrun.
  destruct (pick _ _) as [[p u]|] eqn:E.
  - apply pick_ok in E as (_ & Hp & _). destruct HAVE_MALLOC_SIZE; unfold PREFIX_SIZE; zlook; simpl; reflexivity.
  - destruct (zmalloc_oom_handler st) eqn:Eo; [zlook; done|].
    destruct HAVE_MALLOC_SIZE; zlook; simpl; reflexivity.
Qed.

Lemma zmalloc_run st size :
  zmalloc HAVE_MALLOC_SIZE size st =
  match pick (blocks st) (u64 (size + prefix)) with
  | None => out_of_memory st
  | Some (p, u) =>
      let b := new_block junk_bytes size u in
      Ret (p + prefix, ZState (<[p := b]> (blocks st)) (u64 (used_memory st + cost b))
                         (zmalloc_oom_handler st))
  end.
Proof. apply alloc_run. Qed.

Lemma zfree_run st ptr b :
  ptr <> 0 -> ptr <> prefix -> blocks st !! (ptr - prefix) = Some b ->
  zfree HAVE_MALLOC_SIZE ptr st =
    Ret (tt, ZState (delete (ptr - prefix) (blocks st)) (u64 (used_memory st - cost b))
               (zmalloc_oom_handler st)).
Proof.
  unfold cost, PREFIX_SIZE. intros Hp Hq E. zrun. destruct HAVE_MALLOC_SIZE.
  - rewrite Z.sub_0_r in *. zlook. simpl. reflexivity.
  - zlook. simpl. zlook. reflexivity.
Qed.

(** [zrealloc] of a live block with a positive (prefixed) size. *)
Lemma zrealloc_run st ptr b size :
  ptr <> 0 -> ptr <> prefix -> blocks st !! (ptr - prefix) = Some b ->
  u64 (size + prefix) <> 0 -> (HAVE_MALLOC_SIZE -> u64 size = size) ->
  zrealloc HAVE_MALLOC_SIZE ptr size st =
  match repick (blocks st) (ptr - prefix) (u64 (size + prefix)) with
  | None =>
      match zmalloc_oom_handler st with
      | zmalloc_default_oom => Abort
      | returning_handler =>
          if HAVE_MALLOC_SIZE
          then Ret (0, ZState (blocks st) (u64 (u64 (used_memory st - cost b) + 0))
                         (zmalloc_oom_handler st))
          else Undef
      end
  | Some (q, u) =>
      let b' := Block u (if HAVE_MALLOC_SIZE then b_header b else size)
                  (resize (b_data b) (u64 (size + prefix) - prefix)) (b_counted b) in
      Ret (q + prefix,
           ZState (<[q := b']> (delete (ptr - prefix) (blocks st)))
             (u64 (u64 (used_memory st - cost b) + cost b')) (zmalloc_oom_handler st))
  end.
Proof.
  unfold cost, PREFIX_SIZE. intros Hp Hq E Hn Hs. zrun. destruct HAVE_MALLOC_SIZE.
  - specialize (Hs I). rewrite !Z.sub_0_r, !Z.add_0_r in *. rewrite !Hs in Hn |- *. zlook.
    destruct (repick _ _ _) as [[q u]|] eqn:Er.
    + apply repick_ok in Er as (_ & ? & _). zlook. simpl. reflexivity.
    + zlook. destruct (zmalloc_oom_handler st) eqn:Eo; simpl; zlook; simpl; rewrite ?Eo; reflexivity.
  - zlook. destruct (repick _ _ _) as [[q u]|] eqn:Er.
    + apply repick_ok in Er as (_ & ? & _). simpl. zlook. simpl. reflexivity.
    + simpl. destruct (zmalloc_oom_handler st) eqn:Eo; simpl; zlook; reflexivity.
Qed.

(** ** Traces of calls *)

Inductive zop :=
  | Op_zmalloc (size : Z)
  | Op_zcalloc (size : Z)
  | Op_zrealloc (ptr size : Z)
  | Op_zfree (ptr : Z)
  | Op_zstrdup (s : list Z)
  | Op_zmalloc_no_tcache (size : Z)
  | Op_zfree_no_tcache (ptr : Z)
  | Op_malloc (size : Z)
  | Op_free (ptr : Z).

Definition run_op (op : zop) : ST zstate unit :=
  match op with
  | Op_zmalloc n => zmalloc HAVE_MALLOC_SIZE n;; mret tt
  | Op_zcalloc n => zcalloc HAVE_MALLOC_SIZE n;; mret tt
  | Op_zrealloc p n => zrealloc HAVE_MALLOC_SIZE p n;; mret tt
  | Op_zfree p => zfree HAVE_MALLOC_SIZE p
  | Op_zstrdup s => zstrdup HAVE_MALLOC_SIZE s;; mret tt
  | Op_zmalloc_no_tcache n => zmalloc_no_tcache HAVE_MALLOC_SIZE n;; mret tt
  | Op_zfree_no_tcache p => zfree_no_tcache HAVE_MALLOC_SIZE p
  | Op_malloc n => malloc HAVE_MALLOC_SIZE n;; mret tt
  | Op_free p => libc_free p
  end.

(** [ptr] is a pointer zmalloc returned and the program has not given back. *)
Definition zpointer (st : zstate) (ptr : Z) : Prop :=
  exists b, blocks st !! (ptr - prefix) = Some b /\ b_counted b = true.

(** Each pointer goes back to the allocator it came from. *)
Definition paired (st : zstate) (op : zop) : Prop :=
  match op with
  | Op_zrealloc p n =>
      (p = 0 \/ zpointer st p) /\ u64 (n + prefix) <> 0 /\ 0 <= n < 2 ^ 64
  | Op_zfree p => p = 0 \/ zpointer st p
  | Op_zmalloc_no_tcache _ => HAVE_MALLOC_SIZE = true
  | Op_zfree_no_tcache p => HAVE_MALLOC_SIZE = true /\ (p = 0 \/ zpointer st p)
  | Op_free p => p = 0 \/ exists b, blocks st !! p = Some b /\ b_counted b = false
  | _ => True
  end.

Inductive paired_run : zstate -> list zop -> zstate -> Prop :=
  | paired_nil st : paired_run st [] st
  | paired_cons st st1 st2 op ops :
      paired st op -> run_op op st = Ret (tt, st1) -> paired_run st1 ops st2 ->
      paired_run st (op :: ops) st2.

(** The invariant: exact accounting, no block at NULL, the default handler. *)
Definition zinv (st : zstate) : Prop :=
  accounted st /\ blocks st !! 0 = None /\ zmalloc_oom_handler st = zmalloc_default_oom.

Lemma charge_counted b : b_counted b = true -> charge b = cost b.
Proof. unfold charge, cost. by intros ->. Qed.

Lemma zinv_insert st p b o :
  zinv st -> blocks st !! p = None -> p <> 0 -> o = zmalloc_default_oom ->
  zinv (ZState (<[p := b]> (blocks st)) (u64 (used_memory st + charge b)) o).
Proof.
  intros (A & N0 & Ho) Hf Hp ->. split; [|split]; simpl; [|by rewrite lookup_insert_ne|done].
  unfold accounted in *; simpl. rewrite A, total_insert, u64_add_l by done. f_equal. lia.
Qed.

Lemma alloc_zinv data st size p st' :
  zinv st ->
  (ptr ← malloc_with HAVE_MALLOC_SIZE data (u64 (size + prefix));
   zalloc_finish HAVE_MALLOC_SIZE ptr size) st = Ret (p, st') ->
  zinv st' /\ zpointer st' p /\ p - prefix <> 0.
Proof.
  intros I. rewrite alloc_run. unfold out_of_memory. destruct I as (A & N0 & Ho) eqn:HI; clear HI.
  destruct (pick _ _) as [[q u]|] eqn:E; [|by rewrite Ho]. apply pick_ok in E as (Hf & Hq & _).
  cbv zeta. intros [= <- <-]. split; [|split; [|lia]].
  - rewrite <- charge_counted by done. apply zinv_insert; [by split_and!|done|lia|done].
  - exists (new_block data size u). replace (q + prefix - prefix) with q by lia.
    simpl. by rewrite lookup_insert_eq.
Qed.

Lemma zpointer_nonnull st ptr : zinv st -> zpointer st ptr -> ptr <> prefix.
Proof. intros (_ & N0 & _) (b & E & _) ->. rewrite Z.sub_diag in E. congruence. Qed.

Lemma zpointer_pos st ptr : zinv st -> ptr <> 0 -> zpointer st ptr -> ptr <> prefix.
Proof. intros ? _. by apply zpointer_nonnull. Qed.

Lemma zfree_zinv st ptr st' :
  zinv st -> ptr = 0 \/ zpointer st ptr -> zfree HAVE_MALLOC_SIZE ptr st = Ret (tt, st') ->
  zinv st'.
Proof.
  intros I [-> | P].
  { unfold zfree. rewrite decide_True by done. by intros [= <-]. }
  destruct (decide (ptr = 0)) as [-> |].
  { unfold zfree. rewrite decide_True by done. by intros [= <-]. }
  pose proof (zpointer_nonnull _ _ I P). destruct P as (b & E & C).
  rewrite (zfree_run _ _ b) by done. intros [= <-]. destruct I as (A & N0 & Ho).
  split; [|split]; simpl; [|by rewrite lookup_delete_None; right|done].
  unfold accounted in *; simpl. rewrite A, u64_sub_l, (total_delete _ _ b E).
  by rewrite charge_counted.
Qed.

Lemma zrealloc_zinv st ptr size p st' :
  zinv st -> paired st (Op_zrealloc ptr size) ->
  zrealloc HAVE_MALLOC_SIZE ptr size st = Ret (p, st') -> zinv st'.
Proof.
  intros I (P & Hn & Hs).
  destruct (decide (ptr = 0)) as [-> |].
  { unfold zrealloc. rewrite decide_True by done. intros E. by eapply (alloc_zinv junk_bytes). }
  destruct P as [|P]; [done|]. pose proof (zpointer_nonnull _ _ I P). destruct P as (b & E & C).
  rewrite (zrealloc_run _ _ b) by (try done; intros; unfold wrap; by rewrite Z.mod_small).
  destruct I as (A & N0 & Ho). destruct (repick _ _ _) as [[q u]|] eqn:Er; [|by rewrite Ho].
  apply repick_ok in Er as (Hq & Hp & _). cbv zeta. intros [= <- <-].
  assert (Fq : delete (ptr - prefix) (blocks st) !! q = None).
  { apply lookup_delete_None. destruct Hq as [-> |]; auto. }
  split; [|split]; simpl; [|rewrite lookup_insert_ne by lia; by rewrite lookup_delete_None; right|done].
  unfold accounted in *; simpl. rewrite A, !u64_sub_l, u64_add_l, total_insert by done.
  rewrite (total_delete _ _ b E), (charge_counted b), (charge_counted (Block _ _ _ _)) by done.
  f_equal. lia.
Qed.

Lemma zstrdup_zinv st s p st' :
  zinv st -> zstrdup HAVE_MALLOC_SIZE s st = Ret (p, st') -> zinv st'.
Proof.
  intros I. unfold zstrdup, mbind, ST_bind.
  destruct (zmalloc HAVE_MALLOC_SIZE _ st) as [[q st1]| | |] eqn:E; try done.
  apply (alloc_zinv junk_bytes) in E as (I1 & P & Hq); [|done].
  unfold store_bytes. destruct (blocks st1 !! (q - _)) as [b|] eqn:Eb; [|done].
  destruct (poke _ _ _) as [d|] eqn:Ep; [|done]. intros [= <- <-].
  destruct I1 as (A & N0 & Ho). split; [|split]; simpl; [|by rewrite lookup_insert_ne|done].
  unfold accounted in *; simpl. rewrite A, (total_update _ _ b) by done. f_equal.
  unfold charge; simpl. lia.
Qed.

Lemma run_op_zinv st op st' :
  zinv st -> paired st op -> run_op op st = Ret (tt, st') -> zinv st'.
Proof.
  intros I P. destruct op as [n|n|q n|q|s|n|q|n|q]; cbn [run_op]; try unfold mbind at 1, ST_bind at 1.
  - destruct (zmalloc _ _ _) as [[p st1]| | |] eqn:E; try done. intros [= <-].
    by eapply (alloc_zinv junk_bytes).
  - destruct (zcalloc _ _ _) as [[p st1]| | |] eqn:E; try done. intros [= <-].
    by eapply (alloc_zinv (fun n => replicate (Z.to_nat n) 0)).
  - destruct (zrealloc _ _ _) as [[p st1]| | |] eqn:E; try done. intros [= <-].
    by eapply zrealloc_zinv.
  - by apply zfree_zinv.
  - destruct (zstrdup _ _ _) as [[p st1]| | |] eqn:E; try done. intros [= <-].
    by eapply zstrdup_zinv.
  - replace (zmalloc_no_tcache HAVE_MALLOC_SIZE n) with (zmalloc HAVE_MALLOC_SIZE n) by (by rewrite P).
    destruct (zmalloc _ _ _) as [[p st1]| | |] eqn:E; try done. intros [= <-].
    by eapply (alloc_zinv junk_bytes).
  - destruct P as [Hs P]. replace (zfree_no_tcache HAVE_MALLOC_SIZE q) with (zfree HAVE_MALLOC_SIZE q) by (by rewrite Hs).
    by apply zfree_zinv.
  - unfold malloc, malloc_with. destruct (pick _ _) as [[p u]|] eqn:E; intros [= <-]; [|done].
    apply pick_ok in E as (Hf & Hp & _).
    pose proof (zinv_insert _ p (Block u 0 (junk_bytes (n - prefix)) false) _ I Hf ltac:(lia) ltac:(apply I)) as J.
    unfold charge in J; simpl in J. rewrite Z.add_0_r in J.
    destruct I as (A & _). unfold with_blocks. replace (used_memory st) with (u64 (used_memory st)); [done|].
    rewrite A. unfold wrap. by rewrite Z.mod_mod.
  - unfold libc_free. case_decide; [by intros [= <-]|].
    destruct P as [|(b & E & C)]; [done|]. rewrite E. intros [= <-]. destruct I as (A & N0 & Ho).
    split; [|split]; simpl; [|by rewrite lookup_delete_None; right|done].
    unfold accounted in *; simpl. rewrite A, (total_delete _ _ b E).
    unfold charge. by rewrite C, Z.sub_0_r.
Qed.

End Accounting.

(** ** The promise to the other components *)

Section Contract.
Context `{!Malloc}.
Variable HAVE_MALLOC_SIZE : bool.

Abbreviation prefix := (PREFIX_SIZE HAVE_MALLOC_SIZE).

(** The pointers zmalloc has given out and not got back. *)
Definition zlive (st : zstate) : gset Z :=
  set_map (fun p => p + prefix)
    (dom (filter (fun pb : Z * block => b_counted pb.2 = true /\ pb.1 <> 0) (blocks st))).

Lemma elem_of_zlive st x :
  x ∈ zlive st <->
  exists b, blocks st !! (x - prefix) = Some b /\ b_counted b = true /\ x <> prefix.
Proof.
  unfold zlive. rewrite elem_of_map. setoid_rewrite elem_of_dom. split.
  - intros (p & -> & b & E). apply map_lookup_filter_Some in E as (E & C & Hp). simpl in *.
    exists b. replace (p + prefix - prefix) with p by lia. split_and!; [done|done|lia].
  - intros (b & E & C & Hx). exists (x - prefix). split; [lia|]. exists b.
    apply map_lookup_filter_Some. simpl. split_and!; [done|done|lia].
Qed.

Lemma zlive_insert st p b o :
  blocks st !! p = None -> p <> 0 -> b_counted b = true ->
  forall u, zlive (ZState (<[p := b]> (blocks st)) u o) = {[p + prefix]} ∪ zlive st.
Proof.
  intros Hf Hp C u. apply set_eq. intros x.
  rewrite elem_of_union, elem_of_singleton, !elem_of_zlive. simpl.
  destruct (decide (x = p + prefix)) as [-> |].
  - split; [auto|]. intros _. exists b. replace (p + prefix - prefix) with p by lia.
    rewrite lookup_insert_eq. split_and!; [done|done|lia].
  - rewrite lookup_insert_ne by lia. naive_solver.
Qed.

Lemma zlive_delete st x :
  forall u o, zlive (ZState (delete (x - prefix) (blocks st)) u o) = zlive st ∖ {[x]}.
Proof.
  intros u o. apply set_eq. intros y.
  rewrite elem_of_difference, elem_of_singleton, !elem_of_zlive. simpl.
  destruct (decide (y = x)) as [-> |].
  - rewrite lookup_delete_eq. naive_solver.
  - rewrite lookup_delete_ne by lia. naive_solver.
Qed.

#[export, refine] Instance zmalloc_allocator : Allocator zstate := {
  a_live := zlive;
  a_alloc := zmalloc HAVE_MALLOC_SIZE;
  a_free := zfree HAVE_MALLOC_SIZE
}.
Proof.
  - intros n st st'. rewrite zmalloc_run. unfold out_of_memory.
    destruct (pick _ _) as [[p u]|] eqn:E.
    + apply pick_ok in E as (_ & Hp & _). cbv zeta. intros [= E0 <-].
      exfalso. revert E0. unfold PREFIX_SIZE. destruct HAVE_MALLOC_SIZE; lia.
    + destruct (zmalloc_oom_handler st); [done|]. destruct HAVE_MALLOC_SIZE; [|done].
      by intros [= <-].
  - intros n st q st'. rewrite zmalloc_run. unfold out_of_memory.
    destruct (pick _ _) as [[p u]|] eqn:E.
    + apply pick_ok in E as (Hf & Hp & _). cbv zeta. intros [= <- <-] Hq. split.
      * rewrite elem_of_zlive. intros (b & Eb & _).
        replace (p + prefix - prefix) with p in Eb by lia. congruence.
      * rewrite zlive_insert; [done|done|lia|done].
    + destruct (zmalloc_oom_handler st); [done|]. destruct HAVE_MALLOC_SIZE; [|done].
      by intros [= <- <-].
  - intros st. unfold zfree. by rewrite decide_True.
  - intros p st Hp Hn. apply elem_of_zlive in Hp as (b & E & C & Hx).
    rewrite (zfree_run _ _ _ b) by done. eexists. split; [done|]. apply zlive_delete.
Defined.

End Contract.

(** ** A concrete C library, for the witnesses

    Blocks are placed after the highest live one; a request above 2^48 bytes
    fails; the usable size is the request rounded up to 8. *)

Definition top (m : gmap Z block) : Z := map_fold (fun p _ acc => Z.max p acc) 0 m.

Lemma top_above m p b : m !! p = Some b -> p <= top m.
Proof.
  revert p b. unfold top.
  refine (map_fold_weak_ind (fun acc m => forall p b, m !! p = Some b -> p <= acc) _ _ _ _ m).
  - intros p b. by rewrite lookup_empty.
  - intros q c m' acc Hq IH p b. rewrite lookup_insert. case_decide; [lia|].
    intros E. specialize (IH _ _ E). lia.
Qed.

Lemma top_nonneg m : 0 <= top m.
Proof.
  unfold top.
  refine (map_fold_weak_ind (fun acc _ => 0 <= acc) _ _ _ _ m); [lia|].
  intros; lia.
Qed.

Definition bump_pick (m : gmap Z block) (n : Z) : option (Z * Z) :=
  if decide (0 <= n <= 2 ^ 48) then Some (top m + 16, n + (- n) mod 8) else None.

#[export, refine] Instance bump_malloc : Malloc := {
  pick := bump_pick;
  repick := fun m _ n => bump_pick m n;
  junk_bytes := fun n => replicate (Z.to_nat n) 165
}.
Proof.
  - intros n. apply length_replicate.
  - intros m n p u. unfold bump_pick. case_decide; [|done]. intros [= <- <-].
    pose proof (top_nonneg m). split; [|split; [lia|]].
    + apply eq_None_not_Some. intros [b E]. apply top_above in E. lia.
    + pose proof (Z.mod_pos_bound (- n) 8). lia.
  - intros m p0 n p u. unfold bump_pick. case_decide; [|done]. intros [= <- <-].
    pose proof (top_nonneg m). split; [right|split; [lia|]].
    + apply eq_None_not_Some. intros [b E]. apply top_above in E. lia.
    + pose proof (Z.mod_pos_bound (- n) 8). lia.
Defined.

Definition zstate0 : zstate := ZState ∅ 0 zmalloc_default_oom.

(** ** Properties *)

(** C40: the accounting of zmalloc is exact: along any sequence of calls of
    zmalloc, zcalloc, zrealloc, zfree, zstrdup, malloc and free in which each
    pointer is given back to the allocator it came from, [used_memory] stays
    the sum (mod 2^64) of the sizes of zmalloc's live blocks, in both build
    variants. *)
Theorem zmalloc_accounting `{!Malloc} (have : bool) st ops st' :
  zinv have st -> paired_run have st ops st' -> zinv have st'.
Proof.
  intros I R. induction R as [|st st1 st2 op ops P E R IH]; [done|].
  by eapply IH, run_op_zinv.
Qed.

Lemma zmalloc_accounting_witness :
  exists st', zinv true zstate0 /\
    paired_run true zstate0
      [Op_zmalloc 100; Op_malloc 7; Op_zstrdup [114; 107; 120]; Op_zrealloc 16 300; Op_free 32;
       Op_zfree 64] st' /\
    used_memory st' = 8 /\ zinv true st'.
Proof.
  assert (I : zinv true zstate0) by (split_and!; reflexivity).
  assert (R : exists st', used_memory st' = 8 /\ paired_run true zstate0
    [Op_zmalloc 100; Op_malloc 7; Op_zstrdup [114; 107; 120]; Op_zrealloc 16 300; Op_free 32;
     Op_zfree 64] st').
  { eexists. split; cycle 1.
    - eapply paired_cons; [exact Logic.I | vm_compute; reflexivity |].
      eapply paired_cons; [exact Logic.I | vm_compute; reflexivity |].
      eapply paired_cons; [exact Logic.I | vm_compute; reflexivity |].
      eapply paired_cons; [split; [right; eexists; split; vm_compute; reflexivity | split; [vm_compute; congruence | lia]] | vm_compute; reflexivity |].
      eapply paired_cons; [right; eexists; split; vm_compute; reflexivity | vm_compute; reflexivity |].
      eapply paired_cons; [right; eexists; split; vm_compute; reflexivity | vm_compute; reflexivity |].
      apply paired_nil.
    - vm_compute. reflexivity. }
  destruct R as (st' & U & R). exists st'. split; [exact I|]. split; [exact R|].
  split; [exact U|]. exact (zmalloc_accounting true zstate0 _ st' I R).
Defined.

Lemma wrap_wrap w x : wrap w (wrap w x) = wrap w x.
Proof. unfold wrap. by rewrite Zmod_mod. Qed.

(** [zstrdup] returns a pointer that was not in use, to a block holding
    exactly the string and its NUL, and [zfree] of it restores the allocator,
    statistics included. *)
Theorem zstrdup_zfree `{!Malloc} (have : bool) st s p st' :
  zinv have st -> Z.of_nat (length s) + 9 < 2 ^ 64 ->
  zstrdup have s st = Ret (p, st') ->
  (p ∉ zlive have st) /\
  (exists b, blocks st' !! (p - PREFIX_SIZE have) = Some b /\ b_data b = s ++ [0]) /\
  zfree have p st' = Ret (tt, st).
Proof.
  intros I Hs. unfold zstrdup, mbind, ST_bind. rewrite zmalloc_run. unfold out_of_memory.
  destruct I as (A & N0 & Ho). assert (Hpre : 0 <= PREFIX_SIZE have <= 8) by (by destruct have).
  destruct (pick _ _) as [[q u]|] eqn:E; [|by rewrite Ho].
  apply pick_ok in E as (Hf & Hq & _). cbv zeta. unfold store_bytes. simpl.
  replace (q + PREFIX_SIZE have - PREFIX_SIZE have) with q by lia. rewrite lookup_insert_eq.
  unfold new_block at 1; cbn [b_data]. unfold wrap at 1. rewrite Z.mod_small by lia.
  unfold poke. rewrite length_app. cbn [length].
  rewrite junk_bytes_length. rewrite decide_True by lia.
  rewrite drop_ge by (rewrite junk_bytes_length; lia). rewrite app_nil_r, app_nil_l.
  intros [= <- <-]. unfold with_blocks. cbn [blocks used_memory zmalloc_oom_handler].
  rewrite insert_insert_eq.
  replace (q + PREFIX_SIZE have - PREFIX_SIZE have) with q by lia. split; [|split].
  - rewrite elem_of_zlive. replace (q + PREFIX_SIZE have - PREFIX_SIZE have) with q by lia.
    intros (b & Eb & _). congruence.
  - eexists. simpl. rewrite lookup_insert_eq. split; reflexivity.
  - set (b := Block _ _ _ _).
    rewrite (zfree_run have _ _ b); [|lia|lia|].
    2:{ simpl. replace (q + PREFIX_SIZE have - PREFIX_SIZE have) with q by lia.
        by rewrite lookup_insert_eq. }
    simpl. replace (q + PREFIX_SIZE have - PREFIX_SIZE have) with q by lia.
    rewrite delete_insert_id by done. rewrite u64_sub_l.
    replace (cost have (new_block have junk_bytes (Z.of_nat (length s) + 1) u)) with (cost have b) by done.
    replace (used_memory st + cost have b - cost have b) with (used_memory st) by lia.
    rewrite A, wrap_wrap, <- A. by destruct st.
Qed.

Lemma zstrdup_zfree_witness :
  exists p st', zstrdup false [114; 107; 120] zstate0 = Ret (p, st') /\
    zfree false p st' = Ret (tt, zstate0).
Proof.
  do 2 eexists. split; [vm_compute; reflexivity|].
  eapply (zstrdup_zfree false zstate0 [114; 107; 120]); [split_and!; reflexivity | simpl; lia | vm_compute; reflexivity].
Defined.
