(* ===== verification/Zproc.v ===== *)
(** * Memory statistics of the process (src/src/zmalloc.c)

    zmalloc_get_rss with HAVE_PROC_STAT and the sums over /proc/<pid>/smaps
    with HAVE_PROC_SMAPS: two readers of text files.  config.h defines
    neither option, and Zmalloc.v has what is compiled without them.  The
    files and the values of sysconf are arguments; memory that is not
    written holds arbitrary bytes. *)

From Stdlib Require Import ZArith Lia.
From Stdlib Require Import String Ascii.
From stdpp Require Import prelude gmap.
From S2P Require Import Prelude.

(** ** The calls of the system *)

Class Procfs := {
  getpid : Z;
  sysconf_pagesize : Z;
  sysconf_phys_pages : Z;
  (** [open] and [read] of 4096 bytes: [None] when the file does not open,
      [Some None] when the read fails. *)
  read_4096 : list Z -> option (option (list Z));
  read_short : forall path bs, read_4096 path = Some (Some bs) -> (length bs <= 4096)%nat;
  (** [fopen] for reading: the text. *)
  fopen_read : list Z -> option (list Z)
}.

Definition proc_text (who file : list Z) : list Z := text "/proc/" ++ who ++ text "/" ++ file.

(** [strchr(p, c)]: the rest of the memory from the character on, [None] for
    NULL; the code that reads past the end of the memory is undefined. *)
Fixpoint strchr (c : Z) (p : list Z) : outcome (option (list Z)) :=
  match p with
  | [] => Undef
  | x :: p' => if decide (x = c) then Ret (Some p) else if decide (x = 0) then Ret None else strchr c p'
  end.

Section Zproc.
Context {P : Procfs}.

(** ** zmalloc_get_rss with HAVE_PROC_STAT *)

(** [while(p && count--) { p = strchr(p,' '); if (p) p++; }] *)
Fixpoint skip_fields (count : nat) (p : list Z) : outcome (option (list Z)) :=
  match count with
  | O => Ret (Some p)
  | S count =>
      q ← strchr 32 p;
      match q with None => Ret None | Some q => skip_fields count (tail q) end
  end.

(** [junk] is what the buffer of 4096 bytes on the stack holds. *)
Definition zmalloc_get_rss_proc (junk : list Z) : outcome Z :=
  let page := sysconf_pagesize in
  let filename := take 255 (proc_text (dec getpid) (text "stat")) in
  match read_4096 filename with
  | None => Ret 0
  | Some None => Ret 0
  | Some (Some bs) =>
      if decide (length bs <= 0)%nat then Ret 0 else
      let buf := bs ++ drop (length bs) junk in
      p ← skip_fields 23 buf;
      match p with
      | None => Ret 0
      | Some p =>
          x ← strchr 32 p;
          match x with
          | None => Ret 0
          | Some x =>
              (* [*x] becomes the end of the string at [p] *)
              s ← of_option (cstr (take (length p - length x) p ++ 0 :: tail x));
              let rss := u64 (strtol s) in
              Ret (u64 (rss * u64 page))
          end
      end
  end.

(** ** The sums over smaps, with HAVE_PROC_SMAPS *)

(** [strncmp(line, field, flen) == 0], [flen] being the length of [field]. *)
Definition has_prefix (field line : list Z) : bool := bool_decide (take (length field) line = field).

(** The product of two [long]; an overflow is undefined. *)
Definition mul_long (x y : Z) : outcome Z :=
  if decide (- 2 ^ 63 <= x * y < 2 ^ 63) then Ret (x * y) else Undef.

(** What a line adds: the first 'k' becomes an end of string, and the number is
    read behind the field. *)
Definition line_bytes (field line : list Z) (bytes : Z) : outcome Z :=
  if has_prefix field line then
    match before 107 line with
    | None => Ret bytes
    | Some s =>
        let buf := <[length s := 0]> (line ++ [0]) in
        n ← of_option (cstr (drop (length field) buf));
        v ← mul_long (strtol n) 1024;
        Ret (u64 (bytes + u64 v))
    end
  else Ret bytes.

(** [while(fgets(line, 1024, fp) != NULL)] *)
Fixpoint smap_lines (fuel : nat) (field text : list Z) (bytes : Z) : outcome Z :=
  match fuel with
  | O => NoFuel
  | S fuel =>
      if decide (text = []) then Ret bytes else
      let (l, text) := fgets 1023 text in
      line ← of_option (cstr (l ++ [0]));
      bytes ← line_bytes field line bytes;
      smap_lines fuel field text bytes
  end.

Definition zmalloc_get_smap_bytes_proc (field : list Z) (pid : Z) : outcome Z :=
  let fp :=
    if decide (pid = -1) then fopen_read (proc_text (text "self") (text "smaps"))
    else fopen_read (take 127 (proc_text (dec pid) (text "smaps"))) in
  match fp with
  | None => Ret 0
  | Some text => smap_lines (S (length text)) field text 0
  end.

Definition zmalloc_get_private_dirty_proc (pid : Z) : outcome Z :=
  zmalloc_get_smap_bytes_proc (text "Private_Dirty:") pid.

(** The branch of Linux: the conversions of [long] to [size_t] wrap. *)
Definition zmalloc_get_memory_size : Z := u64 (u64 sysconf_phys_pages * u64 sysconf_pagesize).

End Zproc.

(** ** Reading a line of fields *)

Definition plain (c : Z) (s : list Z) : Prop := Forall (fun x => x <> c /\ x <> 0) s.

Lemma strchr_app c s r : plain c s -> strchr c (s ++ c :: r) = Ret (Some (c :: r)).
Proof.
  induction 1 as [|x s [Hc H0] _ IH]; cbn [app strchr]; [by rewrite decide_True|].
  by rewrite !decide_False, IH by done.
Qed.

(** Fields with a space after each. *)
Definition spaced (fields : list (list Z)) : list Z := concat ((fun f => f ++ [32]) <$> fields).

Lemma skip_fields_run fields r : Forall (plain 32) fields ->
  skip_fields (length fields) (spaced fields ++ r) = Ret (Some r).
Proof.
  induction 1 as [|f fields Hf _ IH]; [done|]. unfold spaced in *. cbn [length fmap list_fmap concat skip_fields].
  rewrite <- !app_assoc. cbn [app]. rewrite strchr_app by done. cbn [mbind outcome_bind tail]. apply IH.
Qed.

Lemma strtol_small l : - 2 ^ 63 <= number l < 2 ^ 63 -> strtol l = number l.
Proof. unfold strtol. lia. Qed.

Lemma dec_plain n : 0 <= n < 10 ^ 20 -> plain 32 (dec n) /\ nonul (dec n).
Proof.
  intros Hn. destruct (dec_nonneg n Hn) as (_ & _ & F & _).
  split; (eapply Forall_impl; [exact F|]); cbn; lia.
Qed.

(** ** The lines of smaps *)

Inductive smap_line :=
  | Kb (blanks : list Z) (n : Z)
  | Other (line : list Z).

Definition kb_tail : list Z := text " kB".

Definition line_text (field : list Z) (l : smap_line) : list Z :=
  match l with
  | Kb blanks n => field ++ blanks ++ dec n ++ kb_tail
  | Other line => line
  end.

Definition line_ok (field : list Z) (l : smap_line) : Prop :=
  (length (line_text field l) < 1023)%nat /\
  match l with
  | Kb blanks n => Forall (fun c => c = 32 \/ c = 9) blanks /\ 0 <= n < 2 ^ 53
  | Other line => plain 10 line /\ has_prefix field (line ++ [10]) = false
  end.

Definition line_kb (l : smap_line) : Z := match l with Kb _ n => n | Other _ => 0 end.

Definition smap_text (field : list Z) (ls : list smap_line) : list Z :=
  concat ((fun l => line_text field l ++ [10]) <$> ls).

Definition total_kb (ls : list smap_line) : Z := foldr (fun l n => line_kb l + n) 0 ls.

Lemma line_plain field l : plain 10 field -> line_ok field l -> plain 10 (line_text field l).
Proof.
  intros Hf [_ H]. destruct l as [bl n|line]; [|by destruct H]. destruct H as [Hb Hn].
  destruct (dec_nonneg n ltac:(lia)) as (_ & _ & F & _). unfold plain, line_text. rewrite !Forall_app. split_and!; [done| | |].
  - eapply Forall_impl; [exact Hb|]. cbn. lia.
  - eapply Forall_impl; [exact F|]. cbn. lia.
  - apply (bool_decide_unpack _). vm_compute. exact I.
Qed.

(** The number is read whether the 'k' that ends the string is the one of the
    unit or one of the field. *)
Lemma kb_line_bytes field bl n bytes : plain 10 field -> Forall (fun c => c = 32 \/ c = 9) bl -> 0 <= n < 2 ^ 53 ->
  line_bytes field (line_text field (Kb bl n) ++ [10]) bytes = Ret (u64 (bytes + 1024 * n)).
Proof.
  intros Hf Hb Hn. destruct (dec_nonneg n ltac:(lia)) as (_ & _ & F & _). unfold line_bytes, has_prefix. cbn [line_text].
  rewrite <- !app_assoc, bool_decide_true by (by rewrite take_app_length). set (num := bl ++ dec n).
  assert (Nu : Forall (fun c => c <> 107 /\ c <> 0) num).
  { apply Forall_app. split; [eapply Forall_impl; [exact Hb|]|eapply Forall_impl; [exact F|]]; cbn; lia. }
  assert (Bl : Forall (fun c => isspace c = true) bl).
  { eapply Forall_impl; [exact Hb|]. intros c Hc. cbn in Hc. unfold isspace. rewrite bool_decide_true by lia. done. }
  assert (Q : forall r, cstr (num ++ 32 :: r) = (fun l => num ++ 32 :: l) <$> cstr r).
  { intros r. clear - Nu. induction Nu as [|c l [_ H0] _ IH]; [done|]. cbn [app cstr].
    rewrite decide_False, IH by done. by destruct (cstr r). }
  assert (Hs : exists sp, before 107 (field ++ bl ++ dec n ++ kb_tail ++ [10]) = Some sp /\
    exists t, cstr (drop (length field) (<[length sp := 0]> (field ++ bl ++ dec n ++ kb_tail ++ [10] ++ [0]))) =
      Some (num ++ 32 :: t)).
  { replace (field ++ bl ++ dec n ++ kb_tail ++ [10] ++ [0]) with ((field ++ bl ++ dec n ++ kb_tail ++ [10]) ++ [0])
      by (by rewrite <- !app_assoc).
    change (field ++ bl ++ dec n ++ kb_tail ++ [10]) with (field ++ bl ++ dec n ++ 32 :: 107 :: [66; 10]).
    rewrite (app_assoc bl). fold num. destruct (decide (107 ∈ field)) as [Hk|Hk].
    - apply list_elem_of_split_l in Hk as (f1 & f2 & E & N1). exists f1. split.
      { rewrite E, <- app_assoc. apply before_app, Forall_forall. by intros x Hx ->. }
      exists [107; 66; 10]. rewrite drop_insert_lt by (rewrite E, length_app; cbn; lia).
      rewrite <- app_assoc, drop_app_length. rewrite <- app_assoc. cbn [app]. by rewrite Q.
    - exists (field ++ num ++ [32]). split.
      { replace (field ++ num ++ 32 :: 107 :: [66; 10]) with ((field ++ num ++ [32]) ++ 107 :: [66; 10])
          by (by rewrite <- !app_assoc). apply before_app. rewrite !Forall_app. split_and!;
          [apply Forall_forall; by intros x Hx ->|eapply Forall_impl; [exact Nu|]; by intros x []|by repeat constructor]. }
      exists []. rewrite drop_insert_ge by (rewrite length_app; lia).
      rewrite <- app_assoc, drop_app_length, length_app, Nat.add_sub', <- app_assoc.
      change ((32 :: 107 :: [66; 10]) ++ [0]) with ([32] ++ [107; 66; 10; 0]). rewrite app_assoc.
      rewrite insert_app_r_alt by lia. rewrite Nat.sub_diag, <- app_assoc. cbn [app insert list_insert]. by rewrite Q. }
  destruct Hs as (sp & -> & t & ->). cbn [of_option mbind outcome_bind].
  assert (E : number (num ++ 32 :: t) = n).
  { unfold num. rewrite <- app_assoc. apply number_dec; [done|lia|done]. }
  rewrite strtol_small, E by lia. unfold mul_long. rewrite decide_True by lia. cbn [mbind outcome_bind].
  rewrite u64_add_r. do 2 f_equal. lia.
Qed.

Lemma line_bytes_run field l bytes : plain 10 field -> line_ok field l ->
  line_bytes field (line_text field l ++ [10]) bytes = Ret (u64 (bytes + 1024 * line_kb l)) \/
  line_bytes field (line_text field l ++ [10]) bytes = Ret bytes /\ line_kb l = 0.
Proof.
  intros Hf [_ H]. destruct l as [bl n|line].
  - left. destruct H as [Hb Hn]. by apply kb_line_bytes.
  - right. destruct H as [_ E]. split; [|done]. unfold line_bytes. cbn [line_text]. by rewrite E.
Qed.

Lemma smap_lines_run field ls fuel bytes : plain 10 field -> Forall (line_ok field) ls ->
  (length (smap_text field ls) < fuel)%nat -> fits 64 bytes ->
  smap_lines fuel field (smap_text field ls) bytes = Ret (u64 (bytes + 1024 * total_kb ls)).
Proof.
  intros Hf F. revert fuel bytes. induction F as [|l ls Hl _ IH]; intros fuel bytes Hn Hb.
  - destruct fuel as [|fuel]; [cbn in Hn; lia|]. cbn [smap_lines smap_text total_kb foldr fmap list_fmap concat].
    rewrite decide_True by done. by rewrite Z.mul_0_r, Z.add_0_r, wrap_fits.
  - pose proof (line_plain field l Hf Hl) as Pl. unfold smap_text in *.
    cbn [fmap list_fmap concat total_kb foldr] in *. fold (total_kb ls). rewrite <- app_assoc in *. cbn [app] in *.
    rewrite length_app in Hn. cbn [length] in Hn. destruct fuel as [|fuel]; [lia|]. cbn [smap_lines].
    rewrite decide_False by (by destruct (line_text field l)).
    rewrite fgets_line; [|eapply Forall_impl; [exact Pl|]; by intros x []|apply Hl].
    rewrite <- app_assoc. cbn [app].
    change (line_text field l ++ [10; 0]) with (line_text field l ++ [10] ++ 0 :: []). rewrite app_assoc, cstr_app.
    2: { apply Forall_app. split; [eapply Forall_impl; [exact Pl|]; by intros x []|by repeat constructor]. }
    cbn [of_option mbind outcome_bind]. destruct (line_bytes_run field l bytes Hf Hl) as [-> | [-> E]]; cbn [mbind outcome_bind].
    + rewrite IH by (lia || auto with fits). rewrite u64_add_l. f_equal. f_equal. lia.
    + by rewrite IH, E by (lia || done).
Qed.

(** ** Properties *)

Section Spec.
Context {P : Procfs}.

(** The two readers of /proc.  [zmalloc_get_rss] of a line of fields with a
    space after each is the page size times the number in the 24th, and 0
    when the file does not open, the read fails or gives nothing.  The sum over
    smaps ends, and of lines shorter than the buffer is 1024 times the sum of
    the numbers behind the field, whether or not the field has a 'k' in
    it, and 0 when the file does not open. *)
Theorem zmalloc_proc_spec (field rest junk : list Z) (fields : list (list Z)) (pages pid : Z) (ls : list smap_line)
    (stat := take 255 (proc_text (dec getpid) (text "stat"))) 
    (smaps := if decide (pid = -1) then proc_text (text "self") (text "smaps")
              else take 127 (proc_text (dec pid) (text "smaps"))) :
  Forall (plain 32) fields -> length fields = 23%nat -> 0 <= pages < 2 ^ 63 ->
  plain 10 field -> Forall (line_ok field) ls ->
  (read_4096 stat = Some (Some (spaced fields ++ dec pages ++ 32 :: rest)) ->
   zmalloc_get_rss_proc junk = Ret (u64 (pages * sysconf_pagesize))) /\
  (read_4096 stat = None \/ read_4096 stat = Some None \/ read_4096 stat = Some (Some []) ->
   zmalloc_get_rss_proc junk = Ret 0) /\
  (fopen_read smaps = Some (smap_text field ls) ->
   zmalloc_get_smap_bytes_proc field pid = Ret (u64 (1024 * total_kb ls))) /\
  (fopen_read smaps = None -> zmalloc_get_smap_bytes_proc field pid = Ret 0).
Proof.
  intros Ff Lf Hp Hf Fl. unfold zmalloc_get_rss_proc, zmalloc_get_smap_bytes_proc. fold stat.
  destruct (dec_plain pages ltac:(lia)) as [Pd Nd]. split_and!.
  - intros ->. rewrite decide_False by (rewrite !length_app; cbn [length]; lia).
    rewrite <- app_assoc, <- Lf, skip_fields_run by done. cbn [mbind outcome_bind].
    rewrite <- app_assoc. cbn [app]. rewrite strchr_app by done. cbn [mbind outcome_bind tail].
    rewrite length_app, Nat.add_sub, take_app_length, cstr_app by done. cbn [of_option mbind outcome_bind].
    pose proof (number_dec [] pages [] ltac:(constructor) ltac:(lia) I) as E. rewrite app_nil_r in E. cbn [app] in E.
    rewrite strtol_small, E by lia. f_equal. rewrite (wrap_fits 64 pages) by (unfold fits; lia).
    unfold wrap. by rewrite Zmult_mod_idemp_r.
  - by intros [-> | [-> | ->]].
  - assert (E : forall o, o = Some (smap_text field ls) ->
      match o with None => Ret 0 | Some text => smap_lines (S (length text)) field text 0 end =
      Ret (u64 (1024 * total_kb ls))).
    { intros o ->. by rewrite smap_lines_run by (done || lia). }
    intros H. apply E. rewrite <- H. unfold smaps. by case_decide.
  - intros H. replace (if decide (pid = -1) then _ else _) with (@None (list Z)); [done|].
    rewrite <- H. unfold smaps. by case_decide.
Qed.

End Spec.

(** A machine with a line of 24 fields and two mappings. *)
Definition demo_stat : list Z := spaced (replicate 23 [49]) ++ dec 700 ++ [32; 49; 10].
Definition demo_lines : list smap_line :=
  [Other (text "00400000-0040b000 r-xp 00000000 08:01 12 /bin/rkx"); Kb [32; 32] 40;
   Other (text "Rss:        8 kB"); Kb [9] 12].

(** The machine whose /proc/77/stat reads [bs]. *)
Definition stat_proc (bs : list Z) (H : (length bs <= 4096)%nat) : Procfs := {|
  getpid := 77; sysconf_pagesize := 4096; sysconf_phys_pages := 1000;
  read_4096 := fun path => if decide (path = text "/proc/77/stat") then Some (Some bs) else None;
  read_short := fun path bs' E =>
    match decide (path = text "/proc/77/stat") as d
      return (if d then Some (Some bs) else None) = Some (Some bs') -> _ with
    | left _ => fun E => eq_ind bs (fun l => (length l <= 4096)%nat) H bs' (f_equal (fun o => default [] (default None o)) E)
    | right _ => fun E => ltac:(discriminate E)
    end E;
  fopen_read := fun path =>
    if decide (path = text "/proc/self/smaps") then Some (smap_text (text "Private_Dirty:") demo_lines)
    else None
|}.

Definition demo_proc : Procfs := stat_proc demo_stat ltac:(vm_compute; lia).

Lemma zmalloc_proc_spec_witness :
  zmalloc_get_rss_proc (P := demo_proc) [] = Ret (700 * 4096) /\
  zmalloc_get_private_dirty_proc (P := demo_proc) (-1) = Ret (52 * 1024).
Proof.
  destruct (zmalloc_proc_spec (P := demo_proc) (text "Private_Dirty:") [49; 10] [] (replicate 23 [49]) 700 (-1)
    demo_lines) as (A & _ & B & _).
  - apply (bool_decide_unpack _). vm_compute. exact I.
  - reflexivity.
  - lia.
  - apply (bool_decide_unpack _). vm_compute. exact I.
  - repeat constructor; try (vm_compute; lia); try (vm_compute; reflexivity); apply (bool_decide_unpack _); vm_compute; exact I.
  - split; [exact (A eq_refl)|exact (B eq_refl)].
Defined.

(** The buffer gets no end after what was read: with fewer than 24 fields the
    result is that of whatever the stack holds, or a run past the array. *)
Example rss_reads_junk :
  let P := stat_proc (text "77 (rkx)") ltac:(vm_compute; lia) in
  zmalloc_get_rss_proc (P := P) (replicate 4096 0) = Ret 0 /\
  zmalloc_get_rss_proc (P := P) (replicate 4096 65) = Undef.
Proof. split; vm_compute; reflexivity. Qed.

(** A name with a space moves the fields: the 23rd number is taken. *)
Example rss_name_with_space :
  let P := stat_proc (text "77 (my shell) " ++ spaced (replicate 20 [49]) ++ dec 9 ++ [32] ++ dec 700 ++ [32]) ltac:(vm_compute; lia) in
  zmalloc_get_rss_proc (P := P) [] = Ret (9 * 4096).
Proof. vm_compute. reflexivity. Qed.
