(* ===== verification/Atomicvar.v ===== *)
(** * Atomic counters (src/src/atomicvar.h)

    zmalloc.c counts the bytes in use in a variable that several threads
    change.  atomicvar.h has three implementations of the operations on such
    a variable: the __atomic builtins, the __sync builtins, and a
    mutex.  Each operation is the list of the accesses its macro makes, any
    number of threads run operations one after the other, and their
    accesses interleave.  The builtins are single accesses, as documented
    for the compiler.  The header promises operations without any
    interleaving: the relation [astep], which the three implementations refine. *)

From Stdlib Require Import ZArith Lia.
From stdpp Require Import prelude gmap relations.
From S2P Require Import Prelude Zmalloc.

(** ** Operations and their meaning *)

Inductive op :=
  | atomicIncr (count : Z)
  | atomicGetIncr (count : Z)
  | atomicDecr (count : Z)
  | atomicGet
  | atomicSet (value : Z).

(** The new value of a [size_t] variable, and what the operation reports. *)
Definition apply (o : op) (v : Z) : Z * list Z :=
  match o with
  | atomicIncr c => (u64 (v + c), [])
  | atomicGetIncr c => (u64 (v + c), [v])
  | atomicDecr c => (u64 (v - c), [])
  | atomicGet => (v, [v])
  | atomicSet x => (u64 x, [])
  end.

(** ** The three implementations *)

Inductive api := atomic_builtin | sync_builtin | pthread_mutex.

(** One access: the builtins, the plain read into a register and writes from it,
    the plain read into the destination, and the mutex of the variable. *)
Inductive instr :=
  | AddFetch (c : Z) | SubFetch (c : Z) | FetchAdd (c : Z) | LoadN | StoreN (x : Z)
  | SubFetchGet | Cas (x : Z)
  | Read | WriteAdd (c : Z) | WriteSub (c : Z) | Write (x : Z) | ReadOut
  | Lock | Unlock.

Definition code (a : api) (o : op) : list instr :=
  match a, o with
  | atomic_builtin, atomicIncr c => [AddFetch c]
  | atomic_builtin, atomicGetIncr c => [FetchAdd c]
  | atomic_builtin, atomicDecr c => [SubFetch c]
  | atomic_builtin, atomicGet => [LoadN]
  | atomic_builtin, atomicSet x => [StoreN x]
  | sync_builtin, atomicIncr c => [AddFetch c]
  | sync_builtin, atomicGetIncr c => [FetchAdd c]
  | sync_builtin, atomicDecr c => [SubFetch c]
  | sync_builtin, atomicGet => [SubFetchGet]
  | sync_builtin, atomicSet x => [Read; Cas x]
  | pthread_mutex, atomicIncr c => [Lock; Read; WriteAdd c; Unlock]
  | pthread_mutex, atomicGetIncr c => [Lock; ReadOut; Read; WriteAdd c; Unlock]
  | pthread_mutex, atomicDecr c => [Lock; Read; WriteSub c; Unlock]
  | pthread_mutex, atomicGet => [Lock; ReadOut; Unlock]
  | pthread_mutex, atomicSet x => [Lock; Write x; Unlock]
  end.

(** A thread: the operations still to come, the accesses left of the current one,
    its register, and what its operations have reported. *)
Record thread := Thread { todo : list op; left : list instr; reg : Z; out : list Z }.

Record config := Config { var : Z; owner : option nat; threads : list thread }.

(** What one access does to the variable, the register and the reports, but
    for the mutex and the compare-and-swap. *)
Definition exec (ins : instr) (v r : Z) (os : list Z) : Z * Z * list Z :=
  match ins with
  | AddFetch c => (u64 (v + c), r, os)
  | SubFetch c => (u64 (v - c), r, os)
  | FetchAdd c => (u64 (v + c), r, os ++ [v])
  | LoadN => (v, r, os ++ [v])
  | StoreN x => (u64 x, r, os)
  | SubFetchGet => (u64 (v - 0), r, os ++ [u64 (v - 0)])
  | Read => (v, v, os)
  | WriteAdd c => (u64 (r + c), r, os)
  | WriteSub c => (u64 (r - c), r, os)
  | Write x => (u64 x, r, os)
  | ReadOut => (v, r, os ++ [v])
  | Cas x => (u64 x, r, os)
  | Lock | Unlock => (v, r, os)
  end.

Definition plain (ins : instr) : bool :=
  match ins with Lock | Unlock | Cas _ => false | _ => true end.

Definition with_thread (c : config) (v : Z) (ow : option nat) (i : nat) (t : thread) : config :=
  Config v ow (<[i := t]> (threads c)).

(** One step of thread [i]. *)
Inductive step (a : api) : config -> config -> Prop :=
  | step_call c i o os k r ws : threads c !! i = Some (Thread (o :: os) [] r ws) -> k = code a o ->
      step a c (with_thread c (var c) (owner c) i (Thread os k r ws))
  | step_plain c i os ins k r ws v' r' ws' : threads c !! i = Some (Thread os (ins :: k) r ws) ->
      plain ins = true -> exec ins (var c) r ws = (v', r', ws') ->
      step a c (with_thread c v' (owner c) i (Thread os k r' ws'))
  | step_swap c i os x k r ws : threads c !! i = Some (Thread os (Cas x :: k) r ws) -> var c = r ->
      step a c (with_thread c (u64 x) (owner c) i (Thread os k r ws))
  | step_retry c i os x k r ws : threads c !! i = Some (Thread os (Cas x :: k) r ws) -> var c <> r ->
      step a c (with_thread c (var c) (owner c) i (Thread os (Read :: Cas x :: k) r ws))
  | step_lock c i os k r ws : threads c !! i = Some (Thread os (Lock :: k) r ws) -> owner c = None ->
      step a c (with_thread c (var c) (Some i) i (Thread os k r ws))
  | step_unlock c i os k r ws : threads c !! i = Some (Thread os (Unlock :: k) r ws) -> owner c = Some i ->
      step a c (with_thread c (var c) None i (Thread os k r ws)).

Definition start (v : Z) (programs : list (list op)) : config :=
  Config v None (map (fun os => Thread os [] 0 []) programs).

(** ** The specification: whole operations, one after the other *)

Record aconfig := AConfig { avar : Z; athreads : list (list op * list Z) }.

Inductive astep : aconfig -> aconfig -> Prop :=
  | astep_op a i o os ws : athreads a !! i = Some (o :: os, ws) ->
      astep a (AConfig (fst (apply o (avar a))) (<[i := (os, ws ++ snd (apply o (avar a)))]> (athreads a))).

Definition astart (v : Z) (programs : list (list op)) : aconfig := AConfig v (map (fun os => (os, [])) programs).

(** ** The simulation

    An operation takes effect with the last of its accesses; in front of it
    the specification still has the operation to do. *)

(** What the accesses left do when nothing comes between. *)
Fixpoint solo (k : list instr) (v r : Z) (os : list Z) : Z * list Z :=
  match k with
  | [] => (v, os)
  | ins :: k => let '(v, r, os) := exec ins v r os in solo k v r os
  end.

Definition effect (o : op) (v : Z) (os : list Z) : Z * list Z := (fst (apply o v), os ++ snd (apply o v)).

Lemma u64_fits x : fits 64 (u64 x).
Proof. by apply Z.mod_pos_bound. Qed.

Lemma apply_fits o v : fits 64 v -> fits 64 (fst (apply o v)).
Proof. intros H. destruct o; simpl; first [done|apply u64_fits]. Qed.

Lemma code_solo a o v r os : fits 64 v -> solo (code a o) v r os = effect o v os.
Proof.
  intros H. destruct a, o; cbn; rewrite ?app_nil_r, ?Z.sub_0_r; unfold effect; simpl; rewrite ?app_nil_r; try done.
  all: unfold wrap; by rewrite Z.mod_small.
Qed.

Lemma exec_fits ins v r os v' r' os' : fits 64 v -> exec ins v r os = (v', r', os') -> fits 64 v'.
Proof. intros H. destruct ins; simpl; intros [= <- _ _]; first [done|apply u64_fits]. Qed.

(** The accesses left in a critical section: some plain ones and the unlock. *)
Fixpoint guarded (k : list instr) : bool :=
  match k with
  | [] => false
  | [Unlock] => true
  | ins :: k => plain ins && guarded k
  end.

Lemma guarded_cons ins k : guarded (ins :: k) = true -> (ins = Unlock /\ k = []) \/ (plain ins = true /\ guarded k = true).
Proof. destruct ins; try discriminate; cbn; [..|destruct k; [by left|done]]; by right. Qed.

(** The thread and its counterpart, without and with the mutex. *)
Definition outside (a : api) (t : thread) (s : list op * list Z) : Prop :=
  (left t = [] /\ s = (todo t, out t)) \/
  exists o, s = (o :: todo t, out t) /\
    (left t = code a o \/ exists x, a = sync_builtin /\ o = atomicSet x /\ left t = [Cas x]).

Definition inside (v av : Z) (t : thread) (s : list op * list Z) : Prop :=
  exists o os, s = (o :: todo t, os) /\ guarded (left t) = true /\ solo (left t) v (reg t) (out t) = effect o av os.

Definition related (a : api) (ow : option nat) (v av : Z) (j : nat) (t : thread) (s : list op * list Z) : Prop :=
  if decide (ow = Some j) then inside v av t s else outside a t s.

Record sim (a : api) (c : config) (s : aconfig) : Prop := {
  s_fits : fits 64 (var c);
  s_length : length (threads c) = length (athreads s);
  s_free : owner c = None -> avar s = var c;
  s_owner : forall i, owner c = Some i -> a = pthread_mutex /\ (i < length (threads c))%nat;
  s_threads : forall j t u, threads c !! j = Some t -> athreads s !! j = Some u ->
    related a (owner c) (var c) (avar s) j t u
}.

Lemma sim_thread a c s i t : sim a c s -> threads c !! i = Some t ->
  exists u, athreads s !! i = Some u /\ related a (owner c) (var c) (avar s) i t u.
Proof.
  intros S H. destruct (lookup_lt_is_Some_2 (athreads s) i) as [u Hu].
  { rewrite <- (s_length _ _ _ S). by eapply lookup_lt_Some. }
  exists u. split; [done|]. by apply (s_threads _ _ _ S).
Qed.

(** A step of thread [i] that does not disturb a thread with the mutex. *)
Lemma sim_update a c s i t u v' ow' t' av' u' : sim a c s -> threads c !! i = Some t -> athreads s !! i = Some u ->
  fits 64 v' -> (ow' = None -> av' = v') ->
  (forall j, ow' = Some j -> a = pthread_mutex /\ (j = i \/ owner c = Some j)) ->
  (forall j, j <> i -> owner c = Some j -> ow' = Some j /\ v' = var c /\ av' = avar s) ->
  related a ow' v' av' i t' u' ->
  sim a (with_thread c v' ow' i t') (AConfig av' (<[i := u']> (athreads s))).
Proof.
  intros S Hi Hu Hf Hfree How Hoth Hrel. split; cbn [with_thread var owner threads avar athreads].
  - done.
  - rewrite !length_insert. apply (s_length _ _ _ S).
  - done.
  - intros j Hj. destruct (How j Hj) as [-> Ho]. split; [done|]. rewrite length_insert.
    destruct Ho as [-> |Ho]; [by eapply lookup_lt_Some|]. by apply (s_owner _ _ _ S).
  - intros j t1 u1 Ht1 Hu1. destruct (decide (i = j)) as [<-|Hne].
    + rewrite list_lookup_insert_eq in Ht1 by (by eapply lookup_lt_Some).
      rewrite list_lookup_insert_eq in Hu1 by (by eapply lookup_lt_Some). by injection Ht1 as <-; injection Hu1 as <-.
    + rewrite list_lookup_insert_ne in Ht1 by done. rewrite list_lookup_insert_ne in Hu1 by done. pose proof (s_threads _ _ _ S j t1 u1 Ht1 Hu1) as R.
      unfold related in *. destruct (decide (owner c = Some j)) as [Ho|Ho].
      * destruct (Hoth j) as (-> & -> & ->); [done..|]. by rewrite decide_True.
      * rewrite decide_False; [done|]. intros Ho'. destruct (How j Ho') as [_ [->|?]]; done.
Qed.

(** The step is none of the specification's. *)
Lemma sim_stutter a c s i t u v' ow' t' : sim a c s -> threads c !! i = Some t -> athreads s !! i = Some u ->
  fits 64 v' -> (ow' = None -> avar s = v') ->
  (forall j, ow' = Some j -> a = pthread_mutex /\ (j = i \/ owner c = Some j)) ->
  (forall j, j <> i -> owner c = Some j -> ow' = Some j /\ v' = var c) ->
  related a ow' v' (avar s) i t' u ->
  sim a (with_thread c v' ow' i t') s.
Proof.
  intros S Hi Hu Hf Hfree How Hoth Hrel.
  replace s with (AConfig (avar s) (<[i := u]> (athreads s))) by (destruct s; cbn; by rewrite list_insert_id).
  apply sim_update with t u; try done. intros j Hj Ho. by destruct (Hoth j Hj Ho).
Qed.

(** The step is the operation [o] of the specification. *)
Lemma sim_commit a c s i t o os ws ow' t' v' : sim a c s -> threads c !! i = Some t ->
  athreads s !! i = Some (o :: os, ws) -> (owner c = None \/ owner c = Some i) -> ow' = None ->
  (v', out t') = effect o (avar s) ws -> todo t' = os -> left t' = [] -> fits 64 v' ->
  exists s', rtc astep s s' /\ sim a (with_thread c v' ow' i t') s'.
Proof.
  intros S Hi Hu Ho -> [= -> Ew] Et El Hf. eexists. split; [apply rtc_once; by eapply astep_op|].
  apply sim_update with t (o :: os, ws); try done.
  - intros j Hj Hc. destruct Ho; congruence.
  - unfold related. rewrite decide_False by done. left. split; [done|]. by rewrite Et, Ew.
Qed.

(** Outside, the first access left says which implementation it is. *)
Lemma outside_cons a os ins k r ws u : outside a (Thread os (ins :: k) r ws) u ->
  exists o, u = (o :: os, ws) /\ (ins :: k = code a o \/ exists x, a = sync_builtin /\ o = atomicSet x /\ ins = Cas x /\ k = []).
Proof.
  intros [[E _]|(o & -> & H)]; [done|]. exists o. split; [done|]. destruct H as [H|(x & -> & -> & [= -> ->])]; [by left|].
  right. by exists x.
Qed.

(** A plain access of a thread without the mutex: the only access of its
    operation, or the first of the two of a set. *)
Lemma plain_outside a o ins k : ins :: k = code a o -> plain ins = true ->
  a <> pthread_mutex /\ (k = [] \/ exists x, a = sync_builtin /\ o = atomicSet x /\ ins = Read /\ k = [Cas x]).
Proof. destruct a, o; intros [= -> ->] H; try done; (split; [done|]); naive_solver. Qed.

Lemma no_owner a c s : sim a c s -> a <> pthread_mutex -> owner c = None.
Proof. intros S Ha. destruct (owner c) as [i|] eqn:E; [|done]. by destruct (s_owner _ _ _ S i E). Qed.

Lemma plain_step_sim a c s i os ins k r ws v' r' ws' : sim a c s ->
  threads c !! i = Some (Thread os (ins :: k) r ws) -> plain ins = true -> exec ins (var c) r ws = (v', r', ws') ->
  exists s', rtc astep s s' /\ sim a (with_thread c v' (owner c) i (Thread os k r' ws')) s'.
Proof.
  intros S Hi Hp He. destruct (sim_thread _ _ _ _ _ S Hi) as (u & Hu & R).
  pose proof (exec_fits _ _ _ _ _ _ _ (s_fits _ _ _ S) He) as Hf. unfold related in R.
  destruct (decide (owner c = Some i)) as [Ho|Ho].
  - destruct R as (o & os' & -> & Hg & Hs). cbn [todo left reg out] in *.
    apply guarded_cons in Hg as [[-> _]|[_ Hg]]; [done|]. exists s. split; [done|].
    apply sim_stutter with (1 := S) (2 := Hi) (3 := Hu); [done|congruence|by intros j Hj; split; [by destruct (s_owner _ _ _ S j Hj)|right]| |].
    + intros j Hj Hc. congruence.
    + unfold related. rewrite decide_True by done. exists o, os'. split; [done|]. split; [done|].
      cbn [solo left reg out] in *. by rewrite He in Hs.
  - apply outside_cons in R as (o & -> & [E|(x & _ & _ & -> & _)]); [|done].
    destruct (plain_outside _ _ _ _ E Hp) as [Ha Hk]. pose proof (no_owner _ _ _ S Ha) as Hn.
    pose proof (s_free _ _ _ S Hn) as Hv. destruct Hk as [-> |(x & -> & -> & -> & ->)].
    + apply sim_commit with (1 := S) (2 := Hi) (3 := Hu); [by left|done| |done|done|done].
      pose proof (code_solo a o (var c) r ws (s_fits _ _ _ S)) as C. rewrite <- E in C. cbn [solo] in C. rewrite He in C.
      by rewrite Hv.
    + injection He as <- <- <-. exists s. split; [done|].
      apply sim_stutter with (1 := S) (2 := Hi) (3 := Hu); [apply (s_fits _ _ _ S)|by rewrite Hn|by intros j Hj; split; [by destruct (s_owner _ _ _ S j Hj)|right]|done|].
      unfold related. rewrite decide_False by done. right. exists (atomicSet x). split; [done|]. right. by exists x.
Qed.

Lemma step_sim a c c' s : step a c c' -> sim a c s -> exists s', rtc astep s s' /\ sim a c' s'.
Proof.
  intros St S. destruct St as [c i o os k r ws Hi ->|c i os ins k r ws v' r' ws' Hi Hp He
    |c i os x k r ws Hi Hr|c i os x k r ws Hi Hr|c i os k r ws Hi Ho|c i os k r ws Hi Ho].
  2: by eapply plain_step_sim.
  all: destruct (sim_thread _ _ _ _ _ S Hi) as (u & Hu & R); pose proof (s_fits _ _ _ S) as Hf; unfold related in R.
  - destruct (decide (owner c = Some i)) as [Ho|Ho]; [by destruct R as (? & ? & _ & ? & _)|].
    destruct R as [[_ ->]|(o' & _ & [E|(x & _ & _ & E)])]; [|by destruct a, o'|done].
    exists s. split; [done|]. apply sim_stutter with (1 := S) (2 := Hi) (3 := Hu); [done|apply (s_free _ _ _ S)| |done|].
    + intros j Hj. split; [by destruct (s_owner _ _ _ S j Hj)|by right].
    + unfold related. rewrite decide_False by done. right. exists o. split; [done|by left].
  - destruct (decide (owner c = Some i)) as [Ho|Ho]; [by destruct R as (? & ? & _ & ? & _)|].
    apply outside_cons in R as (o & -> & [E|(y & -> & -> & [= <-] & ->)]); [by destruct a, o|].
    pose proof (no_owner _ _ _ S ltac:(done)) as Hn.
    apply sim_commit with (1 := S) (2 := Hi) (3 := Hu); [by left|done| |done|done|apply u64_fits].
    unfold effect. simpl. by rewrite app_nil_r.
  - destruct (decide (owner c = Some i)) as [Ho|Ho]; [by destruct R as (? & ? & _ & ? & _)|].
    apply outside_cons in R as (o & -> & [E|(y & -> & -> & [= <-] & ->)]); [by destruct a, o|].
    pose proof (no_owner _ _ _ S ltac:(done)) as Hn. exists s. split; [done|].
    apply sim_stutter with (1 := S) (2 := Hi) (3 := Hu); [done|apply (s_free _ _ _ S)|by rewrite Hn|done|].
    + unfold related. rewrite decide_False by done. right. exists (atomicSet x). split; [done|by left].
  - rewrite Ho in R. rewrite decide_False in R by done. pose proof (s_free _ _ _ S Ho) as Hv.
    apply outside_cons in R as (o & -> & [E|(y & _ & _ & ? & _)]); [|done].
    assert (Ha : a = pthread_mutex) by (by destruct a, o). exists s. split; [done|].
    apply sim_stutter with (1 := S) (2 := Hi) (3 := Hu); [done|done| |by rewrite Ho|].
    + intros j [= <-]. split; [done|by left].
    + unfold related. rewrite decide_True by done. exists o, ws. split; [done|]. cbn [left reg out].
      pose proof (code_solo a o (var c) r ws Hf) as C. rewrite <- E in C. split; [|by rewrite Hv].
      rewrite Ha in E. destruct o; injection E as ->; done.
  - rewrite decide_True in R by done. destruct R as (o & ws' & -> & Hg & Hs). cbn [todo left reg out] in *.
    apply guarded_cons in Hg as [[_ ->]|[? _]]; [|done].
    apply sim_commit with (1 := S) (2 := Hi) (3 := Hu); [by right|done|exact Hs|done|done|done].
Qed.

Lemma reachable_sim a v programs c : fits 64 v -> rtc (step a) (start v programs) c ->
  exists s, rtc astep (astart v programs) s /\ sim a c s.
Proof.
  intros Hf R. assert (S0 : sim a (start v programs) (astart v programs)).
  { split; cbn; [done|by rewrite !length_map|done|done|]. intros j t u Ht Hu.
    apply list_lookup_fmap_Some in Ht as (os & -> & Hos). apply list_lookup_fmap_Some in Hu as (os' & -> & Hos').
    left. split; [done|]. cbn. congruence. }
  remember (start v programs) as c0 eqn:E0. clear E0. revert S0. generalize (astart v programs).
  induction R as [c|c c1 c2 St R IH]; intros s S; [by exists s|].
  destruct (step_sim _ _ _ _ St S) as (s1 & R1 & S1). destruct (IH s1 S1) as (s2 & R2 & S2).
  exists s2. split; [by etrans|done].
Qed.

(** ** No deadlock *)

Definition finished (t : thread) : Prop := todo t = [] /\ left t = [].

#[export] Instance finished_dec t : Decision (finished t).
Proof. unfold finished. destruct t as [[|] [|] r ws]; cbn; (left; by split) || (right; by intros []). Defined.

(** A thread steps unless it waits for the mutex. *)
Lemma thread_step a c i t : threads c !! i = Some t -> ~ finished t ->
  (forall k, left t = Lock :: k -> owner c = None) -> (forall k, left t = Unlock :: k -> owner c = Some i) ->
  exists c', step a c c'.
Proof.
  intros Hi Hf Hl Hu. destruct t as [os k r ws]. destruct k as [|ins k].
  - destruct os as [|o os]; [by destruct Hf|]. eexists. by eapply step_call.
  - destruct (plain ins) eqn:Hp.
    + destruct (exec ins (var c) r ws) as [[v' r'] ws'] eqn:He. eexists. by eapply step_plain.
    + destruct ins; try done.
      * destruct (decide (var c = r)); eexists; [by eapply step_swap|by eapply step_retry].
      * eexists. eapply step_lock; [done|]. by apply (Hl k).
      * eexists. eapply step_unlock; [done|]. by apply (Hu k).
Qed.

Lemma sim_progress a c s : sim a c s -> (exists c', step a c c') \/ Forall finished (threads c).
Proof.
  intros S. destruct (owner c) as [i|] eqn:Ho.
  - left. destruct (s_owner _ _ _ S i Ho) as [_ Hi]. apply lookup_lt_is_Some_2 in Hi as [t Ht].
    destruct (sim_thread _ _ _ _ _ S Ht) as (u & _ & R). unfold related in R. rewrite decide_True in R by done.
    destruct R as (o & os & _ & Hg & _). apply (thread_step a c i t Ht).
    + intros [_ E]. by rewrite E in Hg.
    + intros k E. rewrite E in Hg. by destruct k.
    + done.
  - destruct (decide (Forall finished (threads c))) as [F|E]; [by right|left].
    apply (not_Forall_Exists finished) in E. apply Exists_exists in E as (t & Hin & Hn). apply list_elem_of_lookup in Hin as [i Ht].
    destruct (sim_thread _ _ _ _ _ S Ht) as (u & _ & R). unfold related in R. rewrite decide_False in R by congruence.
    apply (thread_step a c i t Ht Hn); [done|]. intros k E. exfalso.
    destruct R as [[E' _]|(o & _ & [E'|(x & _ & _ & E')])]; rewrite E in E'; [done|by destruct a, o|done].
Qed.

(** ** Counting *)

(** What an operation adds. *)
Definition delta (o : op) : Z :=
  match o with atomicIncr c | atomicGetIncr c => c | atomicDecr c => - c | _ => 0 end.

Definition is_set (o : op) : bool := match o with atomicSet _ => true | _ => false end.

Definition sum (l : list Z) : Z := foldr Z.add 0 l.

(** What the operations of the threads still add. *)
Definition pending (ts : list (list op * list Z)) : Z := sum (map (fun t => sum (map delta (fst t))) ts).

Lemma sum_insert {A} (f : A -> Z) l i x y : l !! i = Some x ->
  sum (map f (<[i := y]> l)) = sum (map f l) - f x + f y.
Proof.
  unfold sum. revert i. induction l as [|z l IH]; intros [|i] H; [done|done| |].
  - injection H as ->. change (<[0%nat := y]> (x :: l)) with (y :: l). cbn [map foldr]. lia.
  - change (<[S i := y]> (z :: l)) with (z :: <[i := y]> l). cbn [map foldr]. rewrite (IH i H). lia.
Qed.

Definition no_set (a : aconfig) : Prop := Forall (fun t => Forall (fun o => is_set o = false) (fst t)) (athreads a).

Lemma apply_delta o v : fits 64 v -> is_set o = false -> fst (apply o v) = u64 (v + delta o).
Proof.
  intros H. destruct o; simpl; intros E; try done.
  rewrite Z.add_0_r. symmetry. by apply Z.mod_small.
Qed.

Lemma astep_count s s' : astep s s' -> fits 64 (avar s) -> no_set s ->
  fits 64 (avar s') /\ no_set s' /\ u64 (avar s' + pending (athreads s')) = u64 (avar s + pending (athreads s)).
Proof.
  intros [a i o os ws Hi] Hf Hn. unfold no_set in Hn. pose proof (Forall_lookup_1 _ _ _ _ Hn Hi) as Ho.
  cbn [fst] in Ho. apply Forall_cons in Ho as [Ho Hos]. cbn [avar athreads]. split; [by apply apply_fits|]. split.
  - by apply Forall_insert.
  - unfold pending. rewrite (sum_insert _ _ _ _ _ Hi). cbn [fst map sum foldr]. rewrite apply_delta by done.
    unfold wrap. rewrite Zplus_mod_idemp_l. f_equal. fold (sum (map delta os)). lia.
Qed.

Lemma asteps_count s s' : rtc astep s s' -> fits 64 (avar s) -> no_set s ->
  fits 64 (avar s') /\ u64 (avar s' + pending (athreads s')) = u64 (avar s + pending (athreads s)).
Proof.
  induction 1 as [s|s s1 s2 St R IH]; intros Hf Hn; [done|].
  destruct (astep_count _ _ St Hf Hn) as (Hf1 & Hn1 & E). rewrite <- E. by apply IH.
Qed.

(** ** Every run ends

    A failed compare-and-swap reads again, and it fails only after another
    thread has changed the variable, by an access that is not made again:
    [accesses] counts these, and [reads] the reads that may still follow when
    nothing changes. *)

Definition is_read (ins : instr) : bool := match ins with Read => true | _ => false end.

(** An operation to come counts for 5: it has four accesses at most. *)
Definition accesses (t : thread) : Z :=
  5 * Z.of_nat (length (todo t)) + Z.of_nat (length (filter (fun ins => is_read ins = false) (left t))).

Definition reads (v : Z) (t : thread) : Z :=
  2 * Z.of_nat (length (filter (fun ins => is_read ins = true) (left t))) +
  match left t with Cas _ :: _ => if decide (reg t = v) then 0 else 3 | _ => 0 end.

Definition all_accesses (c : config) : Z := sum (map accesses (threads c)).
Definition all_reads (c : config) : Z := sum (map (reads (var c)) (threads c)).

Lemma sum_nonneg {A} (f : A -> Z) l : (forall x, 0 <= f x) -> 0 <= sum (map f l).
Proof. intros H. induction l as [|x l IH]; [done|]. cbn [map sum foldr]. fold (sum (map f l)). specialize (H x). lia. Qed.

Lemma accesses_nonneg c : 0 <= all_accesses c.
Proof. apply sum_nonneg. intros t. unfold accesses. lia. Qed.

Lemma reads_nonneg c : 0 <= all_reads c.
Proof. apply sum_nonneg. intros t. unfold reads. destruct (left t) as [|[] ?]; try case_decide; lia. Qed.

Lemma code_accesses a o : Z.of_nat (length (filter (fun ins => is_read ins = false) (code a o))) < 5.
Proof. by destruct a, o. Qed.

Lemma accesses_cons os ins k r ws r' ws' :
  accesses (Thread os (ins :: k) r ws) = accesses (Thread os k r' ws') + (if is_read ins then 0 else 1).
Proof. unfold accesses. cbn [todo left]. rewrite filter_cons. destruct ins; case_decide; try done; cbn [length is_read]; lia. Qed.

Lemma reads_read v os k r ws ws' : reads v (Thread os k v ws') < reads v (Thread os (Read :: k) r ws).
Proof.
  unfold reads. cbn [left reg].
  assert (match k with Cas _ :: _ => if decide (v = v) then 0 else 3 | _ => 0 end = 0) as ->
    by (destruct k as [|[] k]; rewrite ?decide_True by done; done).
  rewrite (filter_cons _ Read), decide_True by done. cbn [length]. lia.
Qed.

Lemma reads_retry v os x k r ws : v <> r -> reads v (Thread os (Read :: Cas x :: k) r ws) < reads v (Thread os (Cas x :: k) r ws).
Proof.
  intros H. unfold reads. cbn [left reg]. rewrite (filter_cons _ Read), decide_True by done. rewrite decide_False by done. cbn [length]. lia.
Qed.

(** A step makes one access of the first kind, or it changes nothing but the number of reads to come. *)
Lemma step_progress a c c' : step a c c' ->
  all_accesses c' < all_accesses c \/ (all_accesses c' = all_accesses c /\ all_reads c' < all_reads c).
Proof.
  intros [c0 i o os k r ws Hi ->|c0 i os ins k r ws v' r' ws' Hi Hp He|c0 i os x k r ws Hi Hv|c0 i os x k r ws Hi Hv
    |c0 i os k r ws Hi Ho|c0 i os k r ws Hi Ho]; unfold all_accesses, all_reads, with_thread; cbn [threads var];
    rewrite ?(sum_insert _ _ _ _ _ Hi).
  - left. pose proof (code_accesses a o). unfold accesses at 2 3. cbn [todo left length filter list_filter]. lia.
  - rewrite (accesses_cons os ins k r ws r' ws'). destruct (is_read ins) eqn:Er; [|left; lia].
    destruct ins; try discriminate Er. injection He as <- <- <-. right.
    pose proof (reads_read (var c0) os k r ws ws). lia.
  - left. rewrite (accesses_cons os (Cas x) k r ws r ws). cbn [is_read]. lia.
  - right. rewrite (accesses_cons os Read (Cas x :: k) r ws r ws). cbn [is_read].
    pose proof (reads_retry (var c0) os x k r ws Hv). lia.
  - left. rewrite (accesses_cons os Lock k r ws r ws). cbn [is_read]. lia.
  - left. rewrite (accesses_cons os Unlock k r ws r ws). cbn [is_read]. lia.
Qed.

(** So there is no infinite run, whatever the scheduling. *)
Lemma runs_end a c : sn (step a) c.
Proof.
  remember (Z.to_nat (all_accesses c)) as n eqn:En. revert c En. induction (lt_wf n) as [n _ IHn].
  intros c. remember (Z.to_nat (all_reads c)) as m eqn:Em. revert c Em. induction (lt_wf m) as [m _ IHm].
  intros c -> ->. constructor. intros c' Hs. unfold flip in Hs. pose proof (accesses_nonneg c'). pose proof (reads_nonneg c').
  destruct (step_progress _ _ _ Hs) as [H1|[H1 H2]].
  - eapply IHn; [|reflexivity]. lia.
  - eapply IHm; [|reflexivity|]; [lia|by rewrite H1].
Qed.

(** C28: whichever implementation is compiled in, and however the accesses of the
    threads interleave, the operations are atomic: a run of whole operations,
    in the order of each thread, has given the same value of the variable and the
    same reports.  There is no deadlock and no livelock: a state that is not final has a next step, and
    no run is infinite (a compare-and-swap fails only because another thread made progress), so
    every run that goes on as long as it can ends with all threads
    finished; and when only increments and decrements ran,
    the variable ends as the start and the sum of all, modulo 2^64. *)
Theorem atomicvar_refines a v programs c :
  fits 64 v -> rtc (step a) (start v programs) c ->
  (exists s, rtc astep (astart v programs) s /\ (owner c = None -> avar s = var c) /\
     forall i t, threads c !! i = Some t -> left t = [] -> athreads s !! i = Some (todo t, out t)) /\
  ((exists c', step a c c') \/ Forall finished (threads c)) /\ sn (step a) c /\
  (Forall finished (threads c) -> Forall (Forall (fun o => is_set o = false)) programs ->
     var c = u64 (v + sum (map (fun os => sum (map delta os)) programs))).
Proof.
  intros Hf R. destruct (reachable_sim a v programs c Hf R) as (s & Rs & S).
  assert (Hat : forall i t, threads c !! i = Some t -> left t = [] ->
    owner c <> Some i /\ athreads s !! i = Some (todo t, out t)).
  { intros i t Ht El. destruct (sim_thread _ _ _ _ _ S Ht) as (u & Hu & Q). unfold related in Q. destruct (decide _) as [Ho|Ho].
    - destruct Q as (? & ? & _ & Hg & _). by rewrite El in Hg.
    - split; [done|]. destruct Q as [[_ ->]|(o & _ & [E|(x & _ & _ & E)])]; [done|..]; rewrite El in E; by destruct a, o. }
  split; [|split; [|split; [apply runs_end|]]].
  - exists s. split; [done|]. split; [apply (s_free _ _ _ S)|]. intros i t Ht El. by apply Hat.
  - by eapply sim_progress.
  - intros F Hn. rewrite Forall_lookup in F.
    assert (Ho : owner c = None).
    { destruct (owner c) as [i|] eqn:Ho; [|done]. destruct (s_owner _ _ _ S i Ho) as [_ Hi].
      apply lookup_lt_is_Some_2 in Hi as [t Ht]. destruct (F i t Ht) as [_ El]. by destruct (Hat i t Ht El). }
    rewrite <- (s_free _ _ _ S Ho).
    assert (Hp : pending (athreads s) = 0).
    { unfold pending. assert (G : Forall (fun u => fst u = []) (athreads s)).
      { apply Forall_lookup. intros i u Hu. destruct (lookup_lt_is_Some_2 (threads c) i) as [t Ht].
        { rewrite (s_length _ _ _ S). by eapply lookup_lt_Some. }
        destruct (F i t Ht) as [Et El]. destruct (Hat i t Ht El) as [_ E]. rewrite Hu in E. by injection E as ->. }
      clear -G. induction G as [|u l Eu G IH]; [done|]. cbn [map]. unfold sum in *. cbn [foldr]. by rewrite IH, Eu. }
    assert (Hns : no_set (astart v programs)) by (unfold no_set; cbn; by apply Forall_map).
    destruct (asteps_count _ _ Rs Hf Hns) as [Hfs C]. cbn [astart avar athreads] in C. rewrite Hp, Z.add_0_r in C.
    unfold pending in C. rewrite map_map in C. cbn [fst] in C. rewrite <- C. symmetry. by apply Z.mod_small.
Qed.

(** The witness: two threads with the mutex; the second has just taken it. *)
Definition two_programs : list (list op) := [[atomicIncr 5; atomicGet]; [atomicDecr 2]].

Lemma two_run : rtc (step pthread_mutex) (start 10 two_programs)
  (Config 10 (Some 1%nat) [Thread [atomicGet] [Lock; Read; WriteAdd 5; Unlock] 0 []; Thread [] [Read; WriteSub 2; Unlock] 0 []]).
Proof.
  eapply rtc_l; [eapply (step_call _ _ 0 (atomicIncr 5) [atomicGet] _ 0 []); reflexivity|].
  eapply rtc_l; [eapply (step_call _ _ 1 (atomicDecr 2) [] _ 0 []); reflexivity|].
  eapply rtc_l; [eapply (step_lock _ _ 1 [] [Read; WriteSub 2; Unlock] 0 []); reflexivity|]. apply rtc_refl.
Qed.

Lemma atomicvar_refines_witness :
  exists c, rtc (step pthread_mutex) (start 10 two_programs) c /\ owner c = Some 1%nat /\
    ((exists c', step pthread_mutex c c') \/ Forall finished (threads c)) /\ sn (step pthread_mutex) c /\
    (Forall finished (threads c) -> Forall (Forall (fun o => is_set o = false)) two_programs ->
       var c = u64 (10 + sum (map (fun os => sum (map delta os)) two_programs))).
Proof.
  eexists. split; [exact two_run|]. split; [reflexivity|].
  assert (Hf : fits 64 10) by (split; [discriminate|reflexivity]).
  exact (proj2 (atomicvar_refines pthread_mutex 10 two_programs _ Hf two_run)).
Defined.

(** ** The counter of zmalloc.c

    Its updates are operations on [used_memory]; the sequential model of
    Zmalloc is one of the runs of the specification. *)

Lemma update_alloc_atomicIncr n st : update_zmalloc_stat_alloc n st =
  Ret (tt, ZState (blocks st) (fst (apply (atomicIncr n) (used_memory st))) (zmalloc_oom_handler st)).
Proof. done. Qed.

Lemma update_free_atomicDecr n st : update_zmalloc_stat_free n st =
  Ret (tt, ZState (blocks st) (fst (apply (atomicDecr n) (used_memory st))) (zmalloc_oom_handler st)).
Proof. done. Qed.
