(* ===== verification/Adlist.v ===== *)
(** * Doubly linked lists (src/src/adlist.c, src/src/adlist.h)

    The nodes, list headers and iterators live in a store, one finite map per
    C type, with addresses as keys and [0] as NULL.  Each function of adlist.c
    is a program of the state-and-outcome monad that reads and writes the
    fields in the order of the source; a dereference of an address that holds
    no object is [Undef].  The abstract state of a list is the sequence of
    its (node address, value) pairs; [rep] relates the two, and each
    operation is proved to implement its sequence operation. *)

From Stdlib Require Import ZArith Lia.
From stdpp Require Import prelude gmap.
From S2P Require Import Prelude.
From S2P Require Import Zmalloc.

(** ** Data *)

Record listNode := Node { prev : Z; next : Z; value : Z }.

Inductive direction := AL_START_HEAD | AL_START_TAIL.

Record listIter := Iter { it_next : Z; it_direction : direction }.

(** The three methods of a list; the [free] method is called for its effect,
    which the store records. *)
Record methods := Methods {
  dup : option (Z -> Z);
  free : bool;
  match_ : option (Z -> Z -> bool)
}.

Record clist := CList { head : Z; tail : Z; meth : methods; len : Z }.

Section Adlist.
Context {HP : Type} `{!Allocator HP}.

(** The contents of a fresh block: any values. *)
Variable junk_node : listNode.
Variable junk_list : clist.
Variable junk_iter : listIter.

(** [freed] lists the values passed to [list->free], latest first. *)
Record store := Store {
  heap : HP;
  nodes : gmap Z listNode;
  lists : gmap Z clist;
  iters : gmap Z listIter;
  freed : list Z
}.

(** ** Field accesses *)

Definition deref_node (a : Z) : ST store listNode := fun s =>
  match nodes s !! a with Some n => Ret (n, s) | None => Undef end.

Definition deref_list (l : Z) : ST store clist := fun s =>
  match lists s !! l with Some x => Ret (x, s) | None => Undef end.

Definition deref_iter (i : Z) : ST store listIter := fun s =>
  match iters s !! i with Some x => Ret (x, s) | None => Undef end.

Definition with_nodes (f : gmap Z listNode -> gmap Z listNode) (s : store) : store :=
  Store (heap s) (f (nodes s)) (lists s) (iters s) (freed s).

Definition with_lists (f : gmap Z clist -> gmap Z clist) (s : store) : store :=
  Store (heap s) (nodes s) (f (lists s)) (iters s) (freed s).

Definition with_iters (f : gmap Z listIter -> gmap Z listIter) (s : store) : store :=
  Store (heap s) (nodes s) (lists s) (f (iters s)) (freed s).

Definition with_heap (h : HP) (s : store) : store :=
  Store h (nodes s) (lists s) (iters s) (freed s).

Definition put_node (a : Z) (n : listNode) : ST store unit :=
  modify (with_nodes <[a := n]>).

Definition put_list (l : Z) (x : clist) : ST store unit :=
  modify (with_lists <[l := x]>).

Definition put_iter (i : Z) (x : listIter) : ST store unit :=
  modify (with_iters <[i := x]>).

Definition set_prev (a x : Z) : ST store unit :=
  n ← deref_node a; put_node a (Node x (next n) (value n)).

Definition set_next (a x : Z) : ST store unit :=
  n ← deref_node a; put_node a (Node (prev n) x (value n)).

Definition set_value (a x : Z) : ST store unit :=
  n ← deref_node a; put_node a (Node (prev n) (next n) x).

Definition set_head (l x : Z) : ST store unit :=
  c ← deref_list l; put_list l (CList x (tail c) (meth c) (len c)).

Definition set_tail (l x : Z) : ST store unit :=
  c ← deref_list l; put_list l (CList (head c) x (meth c) (len c)).

Definition set_len (l x : Z) : ST store unit :=
  c ← deref_list l; put_list l (CList (head c) (tail c) (meth c) (u64 x)).

Definition set_meth (l : Z) (m : methods) : ST store unit :=
  c ← deref_list l; put_list l (CList (head c) (tail c) m (len c)).

(** ** Allocation of the three objects *)

Definition on_heap {A} (m : ST HP A) : ST store A := fun s =>
  match m (heap s) with
  | Ret (a, h) => Ret (a, with_heap h s)
  | Abort => Abort
  | Undef => Undef
  | NoFuel => NoFuel
  end.

Definition zmalloc_node : ST store Z :=
  p ← on_heap (a_alloc 24);
  if decide (p = 0) then mret 0 else put_node p junk_node;; mret p.

Definition zmalloc_list : ST store Z :=
  p ← on_heap (a_alloc 48);
  if decide (p = 0) then mret 0 else put_list p junk_list;; mret p.

Definition zmalloc_iter : ST store Z :=
  p ← on_heap (a_alloc 16);
  if decide (p = 0) then mret 0 else put_iter p junk_iter;; mret p.

Definition zfree_node (a : Z) : ST store unit :=
  on_heap (a_free a);; modify (with_nodes (delete a)).

Definition zfree_list (l : Z) : ST store unit :=
  on_heap (a_free l);; modify (with_lists (delete l)).

Definition zfree_iter (i : Z) : ST store unit :=
  on_heap (a_free i);; modify (with_iters (delete i)).

(** [if (list->free) list->free(v)]. *)
Definition call_free (l v : Z) : ST store unit :=
  c ← deref_list l;
  if free (meth c)
  then modify (fun s => Store (heap s) (nodes s) (lists s) (iters s) (v :: freed s))
  else mret tt.

(** ** The functions of adlist.c *)

Definition listCreate : ST store Z :=
  l ← zmalloc_list;
  if decide (l = 0) then mret 0 else
  set_tail l 0;; set_head l 0;;
  set_len l 0;;
  set_meth l (Methods None false None);;
  mret l.

(** The loop of [listEmpty]: [n] is the value of [len] on entry. *)
Fixpoint listEmpty_loop (l : Z) (n : nat) (current : Z) : ST store unit :=
  match n with
  | O => mret tt
  | S n' =>
      c ← deref_node current;
      call_free l (value c);;
      zfree_node current;;
      listEmpty_loop l n' (next c)
  end.

Definition listEmpty (l : Z) : ST store unit :=
  c ← deref_list l;
  listEmpty_loop l (Z.to_nat (len c)) (head c);;
  set_tail l 0;; set_head l 0;;
  set_len l 0.

Definition listRelease (l : Z) : ST store unit :=
  listEmpty l;; zfree_list l.

Definition listAddNodeHead (l v : Z) : ST store Z :=
  node ← zmalloc_node;
  if decide (node = 0) then mret 0 else
  set_value node v;;
  c ← deref_list l;
  (if decide (len c = 0) then
     set_tail l node;; set_head l node;;
     set_next node 0;; set_prev node 0
   else
     set_prev node 0;;
     set_next node (head c);;
     set_prev (head c) node;;
     set_head l node);;
  c' ← deref_list l;
  set_len l (len c' + 1);;
  mret l.

Definition listAddNodeTail (l v : Z) : ST store Z :=
  node ← zmalloc_node;
  if decide (node = 0) then mret 0 else
  set_value node v;;
  c ← deref_list l;
  (if decide (len c = 0) then
     set_tail l node;; set_head l node;;
     set_next node 0;; set_prev node 0
   else
     set_prev node (tail c);;
     set_next node 0;;
     set_next (tail c) node;;
     set_tail l node);;
  c' ← deref_list l;
  set_len l (len c' + 1);;
  mret l.

Definition listInsertNode (l old_node v : Z) (after : bool) : ST store Z :=
  node ← zmalloc_node;
  if decide (node = 0) then mret 0 else
  set_value node v;;
  (if after then
     set_prev node old_node;;
     o ← deref_node old_node;
     set_next node (next o);;
     c ← deref_list l;
     if decide (tail c = old_node) then set_tail l node else mret tt
   else
     set_next node old_node;;
     o ← deref_node old_node;
     set_prev node (prev o);;
     c ← deref_list l;
     if decide (head c = old_node) then set_head l node else mret tt);;
  n ← deref_node node;
  (if decide (prev n = 0) then mret tt else set_next (prev n) node);;
  n' ← deref_node node;
  (if decide (next n' = 0) then mret tt else set_prev (next n') node);;
  c' ← deref_list l;
  set_len l (len c' + 1);;
  mret l.

Definition listDelNode (l node : Z) : ST store unit :=
  n ← deref_node node;
  (if decide (prev n = 0) then set_head l (next n) else set_next (prev n) (next n));;
  n' ← deref_node node;
  (if decide (next n' = 0) then set_tail l (prev n') else set_prev (next n') (prev n'));;
  n'' ← deref_node node;
  call_free l (value n'');;
  zfree_node node;;
  c ← deref_list l;
  set_len l (len c - 1).

Definition listGetIterator (l : Z) (d : direction) : ST store Z :=
  iter ← zmalloc_iter;
  if decide (iter = 0) then mret 0 else
  c ← deref_list l;
  put_iter iter
    (Iter match d with AL_START_HEAD => head c | AL_START_TAIL => tail c end d);;
  mret iter.

Definition listReleaseIterator (iter : Z) : ST store unit := zfree_iter iter.

Definition listRewind (l : Z) : ST store listIter :=
  c ← deref_list l; mret (Iter (head c) AL_START_HEAD).

Definition listRewindTail (l : Z) : ST store listIter :=
  c ← deref_list l; mret (Iter (tail c) AL_START_TAIL).

(** [listNext] on an iterator the caller holds: the node (NULL at the end)
    and the advanced iterator. *)
Definition listNext (it : listIter) : ST store (Z * listIter) :=
  let current := it_next it in
  if decide (current = 0) then mret (current, it) else
  n ← deref_node current;
  mret (current,
        Iter match it_direction it with
             | AL_START_HEAD => next n
             | AL_START_TAIL => prev n
             end (it_direction it)).

(** The loop of [listDup] over the original list; [false] stands for the two
    early returns after [listRelease(copy)]. *)
Fixpoint listDup_loop (fuel : nat) (copy : Z) (it : listIter) : ST store bool :=
  match fuel with
  | O => no_fuel
  | S fuel' =>
      r ← listNext it;
      if decide (r.1 = 0) then mret true else
      n ← deref_node r.1;
      c ← deref_list copy;
      let v := match dup (meth c) with Some f => f (value n) | None => value n end in
      if decide (v = 0 /\ dup (meth c) <> None) then listRelease copy;; mret false else
      t ← listAddNodeTail copy v;
      if decide (t = 0) then listRelease copy;; mret false else
      listDup_loop fuel' copy r.2
  end.

Definition listDup (fuel : nat) (orig : Z) : ST store Z :=
  copy ← listCreate;
  if decide (copy = 0) then mret 0 else
  o ← deref_list orig;
  set_meth copy (meth o);;
  it ← listRewind orig;
  ok ← listDup_loop fuel copy it;
  mret (if ok : bool then copy else 0).

Definition node_matches (m : methods) (v key : Z) : bool :=
  match match_ m with
  | Some f => f v key
  | None => bool_decide (key = v)
  end.

Fixpoint listSearchKey_loop (fuel : nat) (l key : Z) (it : listIter) : ST store Z :=
  match fuel with
  | O => no_fuel
  | S fuel' =>
      r ← listNext it;
      if decide (r.1 = 0) then mret 0 else
      c ← deref_list l;
      n ← deref_node r.1;
      if node_matches (meth c) (value n) key then mret r.1
      else listSearchKey_loop fuel' l key r.2
  end.

Definition listSearchKey (fuel : nat) (l key : Z) : ST store Z :=
  it ← listRewind l; listSearchKey_loop fuel l key it.

(** [while (index-- && n) n = n->next] (or [n->prev]). *)
Fixpoint listIndex_loop (index : nat) (back : bool) (n : Z) : ST store Z :=
  match index with
  | O => mret n
  | S index' =>
      if decide (n = 0) then mret n else
      x ← deref_node n;
      listIndex_loop index' back (if back then prev x else next x)
  end.

(** [index] is a [long]; [-index] overflows, undefined, on [LONG_MIN]. *)
Definition listIndex (l index : Z) : ST store Z :=
  c ← deref_list l;
  if decide (index < 0) then
    if decide (index = -2 ^ 63) then undef
    else listIndex_loop (Z.to_nat (- index - 1)) true (tail c)
  else listIndex_loop (Z.to_nat index) false (head c).

Definition listRotate (l : Z) : ST store unit :=
  c ← deref_list l;
  let t := tail c in
  if decide (len c <= 1) then mret tt else
  n ← deref_node t;
  set_tail l (prev n);;
  c1 ← deref_list l;
  set_next (tail c1) 0;;
  set_prev (head c1) t;;
  set_prev t 0;;
  c2 ← deref_list l;
  set_next t (head c2);;
  set_head l t.

Definition listJoin (l o : Z) : ST store unit :=
  co ← deref_list o;
  cl ← deref_list l;
  (if decide (head co = 0) then mret tt else set_prev (head co) (tail cl));;
  (if decide (tail cl = 0) then set_head l (head co) else set_next (tail cl) (head co));;
  (if decide (tail co = 0) then mret tt else set_tail l (tail co));;
  cl' ← deref_list l;
  co' ← deref_list o;
  set_len l (len cl' + len co');;
  set_tail o 0;; set_head o 0;;
  set_len o 0.

End Adlist.

(** ** Segments

    [seg m p xs n]: the nodes [xs] are linked in order in [m], the first
    one's [prev] is [p] and the last one's [next] is [n]. *)

Definition first_addr (xs : list (Z * Z)) (d : Z) : Z :=
  match xs with [] => d | x :: _ => x.1 end.

Fixpoint last_addr (xs : list (Z * Z)) (d : Z) : Z :=
  match xs with [] => d | x :: xs' => last_addr xs' x.1 end.

Fixpoint seg (m : gmap Z listNode) (p : Z) (xs : list (Z * Z)) (n : Z) : Prop :=
  match xs with
  | [] => True
  | x :: xs' => m !! x.1 = Some (Node p (first_addr xs' n) x.2) /\ seg m x.1 xs' n
  end.

(** [if (a) a->next = q] and [if (a) a->prev = q], as maps. *)
Definition link_next (a q : Z) (m : gmap Z listNode) : gmap Z listNode :=
  if decide (a = 0) then m else alter (fun x => Node (prev x) q (value x)) a m.

Definition link_prev (a q : Z) (m : gmap Z listNode) : gmap Z listNode :=
  if decide (a = 0) then m else alter (fun x => Node q (next x) (value x)) a m.

Lemma first_addr_app xs ys d : first_addr (xs ++ ys) d = first_addr xs (first_addr ys d).
Proof. by destruct xs. Qed.

Lemma last_addr_app xs ys d : last_addr (xs ++ ys) d = last_addr ys (last_addr xs d).
Proof. revert d; induction xs as [|x xs IH]; intros d; simpl; auto. Qed.

Lemma first_addr_in xs d : first_addr xs d = d \/ first_addr xs d ∈ xs.*1.
Proof. destruct xs; simpl; set_solver. Qed.

Lemma last_addr_in xs d : last_addr xs d = d \/ last_addr xs d ∈ xs.*1.
Proof.
  revert d; induction xs as [|x xs IH]; intros d; simpl; [by left|].
  destruct (IH x.1) as [-> | ]; set_solver.
Qed.

Lemma seg_app m p xs ys n :
  seg m p (xs ++ ys) n <-> seg m p xs (first_addr ys n) /\ seg m (last_addr xs p) ys n.
Proof.
  revert p; induction xs as [|x xs IH]; intros p; simpl; [tauto|].
  rewrite IH, first_addr_app. tauto.
Qed.

Lemma seg_ext m m' p xs n :
  (forall a, a ∈ xs.*1 -> m' !! a = m !! a) -> seg m p xs n -> seg m' p xs n.
Proof.
  revert p; induction xs as [|x xs IH]; intros p E; simpl; [done|].
  rewrite fmap_cons in E; intros [? ?].
  split; [rewrite E by set_solver; done | apply IH; set_solver].
Qed.

Lemma seg_dom m p xs n a : seg m p xs n -> a ∈ xs.*1 -> a ∈ dom m.
Proof.
  revert p; induction xs as [|x xs IH]; intros p; simpl; [set_solver|].
  rewrite elem_of_cons. intros [? ?] [-> | ?]; [|by eapply IH].
  apply elem_of_dom; eauto.
Qed.

Lemma lookup_link_next_ne a q m b : b <> a -> link_next a q m !! b = m !! b.
Proof. intros; unfold link_next; case_decide; [done|]. by rewrite lookup_alter_ne. Qed.

Lemma lookup_link_prev_ne a q m b : b <> a -> link_prev a q m !! b = m !! b.
Proof. intros; unfold link_prev; case_decide; [done|]. by rewrite lookup_alter_ne. Qed.

Lemma link_next_insert a q m x :
  a <> 0 -> m !! a = Some x -> link_next a q m = <[a := Node (prev x) q (value x)]> m.
Proof.
  intros Ha E. unfold link_next. rewrite decide_False by done.
  apply map_eq; intros b. destruct (decide (b = a)) as [-> |].
  - by rewrite lookup_alter_eq, lookup_insert_eq, E.
  - by rewrite lookup_alter_ne, lookup_insert_ne.
Qed.

Lemma link_prev_insert a q m x :
  a <> 0 -> m !! a = Some x -> link_prev a q m = <[a := Node q (next x) (value x)]> m.
Proof.
  intros Ha E. unfold link_prev. rewrite decide_False by done.
  apply map_eq; intros b. destruct (decide (b = a)) as [-> |].
  - by rewrite lookup_alter_eq, lookup_insert_eq, E.
  - by rewrite lookup_alter_ne, lookup_insert_ne.
Qed.

Lemma link_next_0 q m : link_next 0 q m = m.
Proof. done. Qed.

Lemma link_prev_0 q m : link_prev 0 q m = m.
Proof. done. Qed.

(** Relinking an end of a segment. *)
Lemma seg_link_prev m p xs n q :
  NoDup xs.*1 -> 0 ∉ xs.*1 -> seg m p xs n -> seg (link_prev (first_addr xs 0) q m) q xs n.
Proof.
  destruct xs as [|x xs]; csimpl; [done|]. rewrite NoDup_cons, not_elem_of_cons.
  intros [Nx _] [N0 _] [E Sg]. split.
  - rewrite (link_prev_insert _ _ _ _ (not_eq_sym N0) E). by rewrite lookup_insert_eq.
  - eapply seg_ext; [|exact Sg]. intros b Hb. apply lookup_link_prev_ne. congruence.
Qed.

Lemma seg_link_next m p xs n q :
  NoDup xs.*1 -> 0 ∉ xs.*1 -> seg m p xs n -> seg (link_next (last_addr xs 0) q m) p xs q.
Proof.
  destruct xs as [|y ys _] using rev_ind; [done|].
  rewrite last_addr_app, fmap_app, NoDup_app, !seg_app. csimpl.
  intros (_ & Ny & _) N0 [Sg [E _]].
  assert (Hy : y.1 ∉ ys.*1) by set_solver. assert (y.1 <> 0) by set_solver.
  split; [|split; [|done]].
  - eapply seg_ext; [|exact Sg]. intros b Hb. apply lookup_link_next_ne. congruence.
  - rewrite (link_next_insert _ _ _ _ ltac:(done) E). by rewrite lookup_insert_eq.
Qed.

(** A map change outside a segment. *)
Lemma seg_link_prev_out m p xs n a q :
  a = 0 \/ a ∉ xs.*1 -> seg m p xs n -> seg (link_prev a q m) p xs n.
Proof.
  intros [-> | Ha]; [done|]. apply seg_ext. intros b Hb. apply lookup_link_prev_ne. congruence.
Qed.

Lemma seg_link_next_out m p xs n a q :
  a = 0 \/ a ∉ xs.*1 -> seg m p xs n -> seg (link_next a q m) p xs n.
Proof.
  intros [-> | Ha]; [done|]. apply seg_ext. intros b Hb. apply lookup_link_next_ne. congruence.
Qed.

Lemma seg_insert_out m p xs n a x :
  a ∉ xs.*1 -> seg m p xs n -> seg (<[a := x]> m) p xs n.
Proof. intros Ha. apply seg_ext. intros b Hb. apply lookup_insert_ne. congruence. Qed.

Lemma seg_delete_out m p xs n a :
  a ∉ xs.*1 -> seg m p xs n -> seg (delete a m) p xs n.
Proof. intros Ha. apply seg_ext. intros b Hb. apply lookup_delete_ne. congruence. Qed.

Lemma last_addr_out xs ys :
  NoDup (xs ++ ys).*1 -> last_addr xs 0 = 0 \/ last_addr xs 0 ∉ ys.*1.
Proof.
  rewrite fmap_app, NoDup_app. intros (_ & D & _).
  destruct (last_addr_in xs 0) as [-> |]; [by left | right; eauto].
Qed.

Lemma first_addr_out xs ys :
  NoDup (xs ++ ys).*1 -> first_addr ys 0 = 0 \/ first_addr ys 0 ∉ xs.*1.
Proof.
  rewrite fmap_app, NoDup_app. intros (_ & D & _).
  destruct (first_addr_in ys 0) as [-> |]; [by left | right; set_solver].
Qed.

(** Two whole lists linked into one: [listJoin]. *)
Lemma seg_join m xs ys :
  NoDup (xs ++ ys).*1 -> 0 ∉ (xs ++ ys).*1 -> seg m 0 xs 0 -> seg m 0 ys 0 ->
  seg (link_next (last_addr xs 0) (first_addr ys 0)
        (link_prev (first_addr ys 0) (last_addr xs 0) m)) 0 (xs ++ ys) 0.
Proof.
  intros ND N0 Sx Sy. pose proof (last_addr_out _ _ ND). pose proof (first_addr_out _ _ ND).
  rewrite fmap_app in ND, N0. apply NoDup_app in ND as (? & ? & ?).
  apply not_elem_of_app in N0 as [? ?]. apply seg_app. split.
  - eapply seg_link_next; [done..|]. by apply seg_link_prev_out.
  - apply seg_link_next_out; [done|]. eapply seg_link_prev; done.
Qed.

(** A node unlinked from its neighbours: [listDelNode]. *)
Lemma seg_unlink m xs x ys :
  NoDup (xs ++ x :: ys).*1 -> 0 ∉ (xs ++ x :: ys).*1 -> seg m 0 (xs ++ x :: ys) 0 ->
  seg (link_prev (first_addr ys 0) (last_addr xs 0)
        (link_next (last_addr xs 0) (first_addr ys 0) m)) 0 (xs ++ ys) 0.
Proof.
  intros ND N0 Sg. rewrite fmap_app in ND, N0. csimpl in *.
  apply NoDup_app in ND as (ND1 & D & ND2). apply NoDup_cons in ND2 as [? ND2].
  apply not_elem_of_app in N0 as [? N0]. apply not_elem_of_cons in N0 as [? ?].
  assert (ND : NoDup (xs ++ ys).*1) by (rewrite fmap_app; apply NoDup_app; set_solver).
  pose proof (last_addr_out _ _ ND). pose proof (first_addr_out _ _ ND).
  apply seg_app in Sg as [S1 [_ S2]]. apply seg_app. split.
  - apply seg_link_prev_out; [done|]. eapply seg_link_next; done.
  - eapply seg_link_prev; [done..|]. apply seg_link_next_out; done.
Qed.

(** A node linked between its neighbours: the insertions. *)
Lemma seg_relink m xs p v ys :
  p <> 0 -> p ∉ (xs ++ ys).*1 -> NoDup (xs ++ ys).*1 -> 0 ∉ (xs ++ ys).*1 ->
  seg m 0 (xs ++ ys) 0 ->
  seg (link_prev (first_addr ys 0) p (link_next (last_addr xs 0) p
        (<[p := Node (last_addr xs 0) (first_addr ys 0) v]> m))) 0 (xs ++ (p, v) :: ys) 0.
Proof.
  intros Hp Hn ND N0 Sg. pose proof (last_addr_out _ _ ND). pose proof (first_addr_out _ _ ND).
  rewrite fmap_app in Hn, ND, N0.
  apply NoDup_app in ND as (? & ? & ?). apply not_elem_of_app in N0 as [? ?].
  apply not_elem_of_app in Hn as [? ?]. apply seg_app in Sg as [S1 S2].
  assert (p <> last_addr xs 0) by (destruct (last_addr_in xs 0); congruence || set_solver).
  assert (p <> first_addr ys 0) by (destruct (first_addr_in ys 0); congruence || set_solver).
  apply seg_app; csimpl. split; [|split].
  - apply seg_link_prev_out; [done|]. eapply seg_link_next; [done..|]. by apply seg_insert_out.
  - rewrite lookup_link_prev_ne, lookup_link_next_ne, lookup_insert_eq by done. done.
  - eapply seg_link_prev; [done..|]. apply seg_link_next_out; [done|]. by apply seg_insert_out.
Qed.

(** ** Symbolic execution *)

Ltac unrun :=
  cbv [zmalloc_node zmalloc_list zmalloc_iter zfree_node zfree_list zfree_iter
       set_prev set_next set_value set_head set_tail set_len set_meth put_node put_list put_iter
       deref_node deref_list deref_iter on_heap call_free
       with_nodes with_lists with_iters with_heap modify undef gets
       mbind mret ST_bind ST_ret]; simpl.

Ltac look :=
  repeat (first
    [ rewrite lookup_insert_eq
    | rewrite lookup_insert_ne by (first [done | congruence])
    | rewrite decide_True by (first [done | lia | congruence])
    | rewrite decide_False by (first [done | lia | congruence])
    | match goal with E : _ !! _ = _ |- context [_ !! _] => rewrite E end ]; simpl).

Ltac maps :=
  apply map_eq; intros ?b; unfold link_prev, link_next;
  repeat (rewrite ?lookup_alter, ?lookup_insert; case_decide; subst; simpl; try congruence);
  simplify_map_eq; try done.

(** Closes [Ret (r, s1) = Ret (r, s2)] for two stores with equal maps. *)
Ltac same_store :=
  unfold wrap; rewrite ?Z.mod_small by lia; rewrite ?insert_insert_eq;
  match goal with |- Ret (_, ?s1) = Ret (_, ?s2) => enough (s1 = s2) by congruence end;
  f_equal; try (solve [maps | f_equal; maps | rewrite ?first_addr_app, ?last_addr_app, ?length_app; simpl; repeat f_equal; lia]).


(** ** The representation of a list, and the invariant of the store *)

Section Specs.
Context {HP : Type} `{!Allocator HP}.
Variable junk_node : listNode.
Variable junk_list : clist.
Variable junk_iter : listIter.

Abbreviation store := (store (HP := HP)).

Implicit Types (s : store) (xs ys zs : list (Z * Z)) (ms : methods).

(** The list header [l] with methods [ms] represents [xs]. *)
Definition rep (s : store) (l : Z) (ms : methods) (xs : list (Z * Z)) : Prop :=
  lists s !! l = Some (CList (first_addr xs 0) (last_addr xs 0) ms (Z.of_nat (length xs))) /\
  NoDup xs.*1 /\ (0 ∉ xs.*1) /\ seg (nodes s) 0 xs 0 /\ Z.of_nat (length xs) < 2 ^ 64.

(** Every object of the store is a live block of the allocator, and a block
    holds one object. *)
Definition wf (s : store) : Prop :=
  (forall a, is_Some (nodes s !! a) ->
     a ∈ a_live (heap s) /\ lists s !! a = None /\ iters s !! a = None) /\
  (forall l, is_Some (lists s !! l) ->
     l ∈ a_live (heap s) /\ nodes s !! l = None /\ iters s !! l = None) /\
  (forall i, is_Some (iters s !! i) ->
     i ∈ a_live (heap s) /\ nodes s !! i = None /\ lists s !! i = None).

(** Only the list [l] and nodes of [changed] differ. *)
Definition same_but (l : Z) (changed : gset Z) (s s' : store) : Prop :=
  (forall a, a ∉ changed -> nodes s' !! a = nodes s !! a) /\
  (forall l', l' <> l -> lists s' !! l' = lists s !! l') /\
  iters s' = iters s.

Lemma rep_frame l changed s s' l' ms' ys :
  same_but l changed s s' -> l' <> l -> changed ## list_to_set ys.*1 ->
  rep s l' ms' ys -> rep s' l' ms' ys.
Proof.
  intros (En & El & _) Hl Hd (L & ND & N0 & Sg & LT). split; [by rewrite El|].
  split; [done|]. split; [done|]. split; [|done].
  eapply seg_ext; [|exact Sg]. intros a Ha. apply En. set_solver.
Qed.

Lemma rep_live s l ms xs a : wf s -> rep s l ms xs -> a ∈ xs.*1 -> a ∈ a_live (heap s).
Proof.
  intros (W & _) (_ & _ & _ & Sg & _) Ha. apply W, elem_of_dom. by eapply seg_dom.
Qed.

Lemma link_next_is_Some a q m b : is_Some (link_next a q m !! b) <-> is_Some (m !! b).
Proof.
  unfold link_next. case_decide; [done|]. rewrite lookup_alter. case_decide; [|done].
  subst. by rewrite fmap_is_Some.
Qed.

Lemma link_prev_is_Some a q m b : is_Some (link_prev a q m !! b) <-> is_Some (m !! b).
Proof.
  unfold link_prev. case_decide; [done|]. rewrite lookup_alter. case_decide; [|done].
  subst. by rewrite fmap_is_Some.
Qed.

Lemma insert_is_Some_or `{Countable K} {A} (m : gmap K A) k x i :
  is_Some (<[k := x]> m !! i) <-> i = k \/ is_Some (m !! i).
Proof.
  destruct (decide (i = k)) as [-> |].
  - rewrite lookup_insert_eq. naive_solver.
  - rewrite lookup_insert_ne by done. naive_solver.
Qed.

(** The store an insertion of [(p, v)] between [xs] and [ys] leaves. *)
Definition after_insert (s : store) (h : HP) (l : Z) (ms : methods) (p v : Z)
    (xs ys : list (Z * Z)) : store :=
  Store h
    (link_prev (first_addr ys 0) p (link_next (last_addr xs 0) p
       (<[p := Node (last_addr xs 0) (first_addr ys 0) v]> (nodes s))))
    (<[l := CList (first_addr (xs ++ (p, v) :: ys) 0) (last_addr (xs ++ (p, v) :: ys) 0) ms
              (Z.of_nat (S (length (xs ++ ys))))]> (lists s))
    (iters s) (freed s).

Lemma after_insert_rep s h l ms p v xs ys :
  rep s l ms (xs ++ ys) -> Z.of_nat (S (length (xs ++ ys))) < 2 ^ 64 ->
  p <> 0 -> p ∉ (xs ++ ys).*1 ->
  rep (after_insert s h l ms p v xs ys) l ms (xs ++ (p, v) :: ys).
Proof.
  intros (L & ND & N0 & Sg & _) LT Hp Hn.
  split; [|split; [|split; [|split]]]; simpl.
  - rewrite lookup_insert_eq, !length_app. simpl. by rewrite Nat.add_succ_r.
  - rewrite fmap_app in *; csimpl. apply NoDup_app in ND as (? & D & ?).
    apply not_elem_of_app in Hn as [? ?]. apply NoDup_app. rewrite NoDup_cons.
    split; [done|]. split; [|done]. intros a Ha. rewrite elem_of_cons.
    intros [-> | ?]; [done|]. by eapply D.
  - rewrite fmap_app in *; csimpl. apply not_elem_of_app in N0 as [? ?].
    rewrite not_elem_of_app, not_elem_of_cons. auto.
  - by apply seg_relink.
  - rewrite length_app in *. simpl. lia.
Qed.

Lemma wf_fresh s p : wf s -> p ∉ a_live (heap s) ->
  nodes s !! p = None /\ lists s !! p = None /\ iters s !! p = None.
Proof.
  intros (Wn & Wl & Wi) Hp.
  split; [|split]; apply eq_None_not_Some; intros Hs; apply Hp; naive_solver.
Qed.

(** The domains of the three maps determine [wf]. *)
Lemma wf_dom s s' :
  (forall a, is_Some (nodes s' !! a) <-> is_Some (nodes s !! a)) ->
  (forall a, is_Some (lists s' !! a) <-> is_Some (lists s !! a)) ->
  iters s' = iters s -> a_live (heap s') = a_live (heap s) -> wf s -> wf s'.
Proof.
  intros En El Ei Eh. unfold wf. setoid_rewrite eq_None_not_Some.
  setoid_rewrite En. setoid_rewrite El. by rewrite Ei, Eh.
Qed.

Lemma wf_alloc_node s n p h x :
  wf s -> a_alloc n (heap s) = Ret (p, h) -> p <> 0 ->
  wf (Store h (<[p := x]> (nodes s)) (lists s) (iters s) (freed s)).
Proof.
  intros W AL Hp. destruct (a_alloc_fresh _ _ _ _ AL Hp) as [Fr Lv].
  destruct (wf_fresh _ _ W Fr) as (Pn & Pl & Pi). destruct W as (Wn & Wl & Wi).
  unfold wf; simpl; rewrite Lv; split; [|split]; intros a Ha;
    rewrite elem_of_union, elem_of_singleton.
  - apply insert_is_Some_or in Ha as [-> | Ha]; [auto | naive_solver].
  - assert (a <> p) by (intros ->; rewrite Pl in Ha; by destruct Ha).
    rewrite lookup_insert_ne by done. naive_solver.
  - assert (a <> p) by (intros ->; rewrite Pi in Ha; by destruct Ha).
    rewrite lookup_insert_ne by done. naive_solver.
Qed.

Lemma after_insert_wf s n h l ms p v xs ys :
  wf s -> rep s l ms (xs ++ ys) -> a_alloc n (heap s) = Ret (p, h) -> p <> 0 ->
  wf (after_insert s h l ms p v xs ys).
Proof.
  intros W (L & _) AL Hp.
  eapply wf_dom; [..|eapply wf_alloc_node; eassumption]; simpl; try done; intros a.
  - by rewrite link_prev_is_Some, link_next_is_Some, !insert_is_Some_or.
  - rewrite insert_is_Some_or. split; [|auto]. intros [-> |]; eauto.
Qed.

Lemma after_insert_same s h l ms p v xs ys :
  same_but l ({[p]} ∪ list_to_set (xs ++ ys).*1) s (after_insert s h l ms p v xs ys).
Proof.
  split; [|split]; simpl; [|intros; by rewrite lookup_insert_ne|done].
  intros a. rewrite not_elem_of_union, not_elem_of_singleton, elem_of_list_to_set, fmap_app,
    not_elem_of_app. intros (Hp & Hx & Hy).
  assert (Lk : forall b, b = 0 \/ b ∈ xs.*1 \/ b ∈ ys.*1 -> b = 0 \/ a <> b) by naive_solver.
  destruct (Lk (last_addr xs 0)) as [E1 | E1]; [destruct (last_addr_in xs 0); auto| |];
  (destruct (Lk (first_addr ys 0)) as [E2 | E2]; [destruct (first_addr_in ys 0); auto| |]);
  rewrite ?E1, ?E2, ?link_prev_0, ?link_next_0, ?lookup_link_prev_ne, ?lookup_link_next_ne by done;
  by rewrite lookup_insert_ne.
Qed.

(** A NULL from [zmalloc] makes the insertions return NULL and change nothing
    but the allocator. *)
Lemma insert_oom s h l v old after :
  a_alloc 24 (heap s) = Ret (0, h) ->
  listAddNodeHead junk_node l v s = Ret (0, with_heap h s) /\
  listAddNodeTail junk_node l v s = Ret (0, with_heap h s) /\
  listInsertNode junk_node l old v after s = Ret (0, with_heap h s).
Proof.
  intros E. unfold listAddNodeHead, listAddNodeTail, listInsertNode. unrun. by rewrite E.
Qed.

Lemma listAddNodeHead_run s h l ms p v xs :
  wf s -> rep s l ms xs -> Z.of_nat (S (length xs)) < 2 ^ 64 ->
  a_alloc 24 (heap s) = Ret (p, h) -> p <> 0 ->
  listAddNodeHead junk_node l v s = Ret (l, after_insert s h l ms p v [] xs).
Proof.
  intros W R LT AL Hp. destruct (a_alloc_fresh _ _ _ _ AL Hp) as [Fr _].
  assert (Hx : p ∉ xs.*1) by (intros ?; apply Fr; by eapply rep_live).
  destruct R as (L & _ & N0 & Sg & _).
  unfold listAddNodeHead, after_insert. unrun. rewrite AL. look.
  destruct xs as [|[a w] xs]; csimpl in *; [look; same_store|].
  apply not_elem_of_cons in Hx as [? _], N0 as [? _]. destruct Sg as [E _]. look. same_store.
Qed.

Lemma listAddNodeTail_run s h l ms p v xs :
  wf s -> rep s l ms xs -> Z.of_nat (S (length xs)) < 2 ^ 64 ->
  a_alloc 24 (heap s) = Ret (p, h) -> p <> 0 ->
  listAddNodeTail junk_node l v s = Ret (l, after_insert s h l ms p v xs []).
Proof.
  intros W R LT AL Hp. destruct (a_alloc_fresh _ _ _ _ AL Hp) as [Fr _].
  assert (Hx : p ∉ xs.*1) by (intros ?; apply Fr; by eapply rep_live).
  destruct R as (L & _ & N0 & Sg & _).
  unfold listAddNodeTail, after_insert. unrun. rewrite AL. look.
  destruct xs as [|[a w] xs _] using rev_ind; [simpl in *; look; same_store|].
  rewrite app_nil_r, !last_addr_app, !first_addr_app in *. rewrite length_app in *. csimpl in *.
  rewrite fmap_app in *. apply not_elem_of_app in Hx as [? Hx], N0 as [? N0]. csimpl in *.
  apply not_elem_of_cons in Hx as [? _], N0 as [? _].
  apply seg_app in Sg as [_ [E _]]. csimpl in *. look. same_store.
Qed.

(** The two branches of [listInsertNode]. *)
Lemma listInsertNode_after_run s h l ms p v xs x ys :
  wf s -> rep s l ms (xs ++ x :: ys) -> Z.of_nat (S (length (xs ++ x :: ys))) < 2 ^ 64 ->
  a_alloc 24 (heap s) = Ret (p, h) -> p <> 0 ->
  listInsertNode junk_node l x.1 v true s =
    Ret (l, after_insert s h l ms p v (xs ++ [x]) ys).
Proof.
  intros W R LT AL Hp. destruct (a_alloc_fresh _ _ _ _ AL Hp) as [Fr _].
  assert (Hx : p ∉ (xs ++ x :: ys).*1) by (intros ?; apply Fr; by eapply rep_live).
  destruct R as (L & ND & N0 & Sg & _). destruct x as [a w].
  rewrite last_addr_app, first_addr_app, fmap_app in *. csimpl in *.
  apply seg_app in Sg as [_ [E Sg]]. apply NoDup_app in ND as (_ & _ & ND). csimpl in *.
  apply NoDup_cons in ND as [Ha _].
  apply not_elem_of_app in Hx as [_ Hx], N0 as [_ N0].
  apply not_elem_of_cons in Hx as [? Hx], N0 as [? N0].
  unfold listInsertNode, after_insert. unrun. rewrite AL. look.
  rewrite !last_addr_app, !first_addr_app. rewrite !length_app in *. csimpl in *.
  destruct ys as [|[b u] ys]; csimpl in *; look; [same_store|].
  apply not_elem_of_cons in Hx as [? Hx], N0 as [? N0], Ha as [? Ha]. destruct Sg as [E' _].
  assert (Ne : last_addr ys b <> a)
    by (destruct (last_addr_in ys b) as [-> | I]; [done | intros E1; by rewrite E1 in I]).
  look. same_store.
Qed.

Lemma listInsertNode_before_run s h l ms p v xs x ys :
  wf s -> rep s l ms (xs ++ x :: ys) -> Z.of_nat (S (length (xs ++ x :: ys))) < 2 ^ 64 ->
  a_alloc 24 (heap s) = Ret (p, h) -> p <> 0 ->
  listInsertNode junk_node l x.1 v false s =
    Ret (l, after_insert s h l ms p v xs (x :: ys)).
Proof.
  intros W R LT AL Hp. destruct (a_alloc_fresh _ _ _ _ AL Hp) as [Fr _].
  assert (Hx : p ∉ (xs ++ x :: ys).*1) by (intros ?; apply Fr; by eapply rep_live).
  destruct R as (L & ND & N0 & Sg & _). destruct x as [a w].
  rewrite last_addr_app, first_addr_app, fmap_app in *. csimpl in *.
  apply seg_app in Sg as [S1 [E _]]. apply NoDup_app in ND as (_ & D & _). csimpl in *.
  apply not_elem_of_app in Hx as [Hx Hx'], N0 as [N0 N0'].
  apply not_elem_of_cons in Hx' as [? _], N0' as [? _].
  unfold listInsertNode, after_insert. unrun. rewrite AL. look.
  rewrite !last_addr_app, !first_addr_app. rewrite !length_app in *. csimpl in *.
  destruct xs as [|[b u] xs _] using rev_ind; csimpl in *; look; [same_store|].
  rewrite last_addr_app, first_addr_app, fmap_app, length_app in *. csimpl in *.
  apply not_elem_of_app in Hx as [Hx Hx'], N0 as [N0 N0'].
  apply not_elem_of_cons in Hx' as [? _], N0' as [? _].
  apply seg_app in S1 as [_ [E' _]]. csimpl in *.
  assert (b <> a) by (intros ->; apply (D a); set_solver).
  assert (Ne : first_addr xs b <> a)
    by (destruct (first_addr_in xs b) as [-> | I]; [done | intros E1; rewrite E1 in I; apply (D a); set_solver]).
  look. same_store.
Qed.

(** The store after unlinking and freeing the node [x] between [xs] and
    [ys], the allocator being left as [h]. *)
Definition after_delete (s : store) (h : HP) (l : Z) (ms : methods)
    (xs : list (Z * Z)) (x : Z * Z) (ys : list (Z * Z)) : store :=
  Store h
    (delete x.1 (link_prev (first_addr ys 0) (last_addr xs 0)
       (link_next (last_addr xs 0) (first_addr ys 0) (nodes s))))
    (<[l := CList (first_addr (xs ++ ys) 0) (last_addr (xs ++ ys) 0) ms
              (Z.of_nat (length (xs ++ ys)))]> (lists s))
    (iters s) (if free ms then x.2 :: freed s else freed s).

Lemma after_delete_rep s h l ms xs x ys :
  rep s l ms (xs ++ x :: ys) -> rep (after_delete s h l ms xs x ys) l ms (xs ++ ys).
Proof.
  intros (L & ND & N0 & Sg & LT). pose proof (seg_unlink _ _ _ _ ND N0 Sg) as Sg'.
  rewrite !fmap_app, !length_app in *. csimpl in *.
  apply NoDup_app in ND as (? & D & ND). apply NoDup_cons in ND as [Hx ?].
  apply not_elem_of_app in N0 as [? N0]. apply not_elem_of_cons in N0 as [? ?].
  assert (Hx' : x.1 ∉ xs.*1) by (intros Hi; apply (D _ Hi); set_solver).
  unfold rep, after_delete; simpl. rewrite lookup_insert_eq, !fmap_app, !length_app.
  split; [done|]. split.
  { apply NoDup_app. split; [done|]. split; [|done]. intros a Ha Hy. apply (D a Ha). set_solver. }
  split; [by apply not_elem_of_app|]. split; [|lia].
  apply seg_delete_out; [|done]. by rewrite fmap_app, not_elem_of_app.
Qed.

Lemma delete_is_Some_iff {A} (m : gmap Z A) k i :
  is_Some (delete k m !! i) <-> i <> k /\ is_Some (m !! i).
Proof.
  destruct (decide (i = k)) as [-> |].
  - rewrite lookup_delete_eq. split; [by intros [? ?] | tauto].
  - rewrite lookup_delete_ne by done. tauto.
Qed.

Lemma after_delete_wf s h l ms xs x ys :
  wf s -> rep s l ms (xs ++ x :: ys) -> a_live h = a_live (heap s) ∖ {[x.1]} ->
  wf (after_delete s h l ms xs x ys).
Proof.
  intros (Wn & Wl & Wi) (L & _ & _ & Sg & _) Lv.
  assert (Hx : is_Some (nodes s !! x.1)).
  { apply elem_of_dom. eapply seg_dom; [exact Sg|]. rewrite fmap_app. csimpl. set_solver. }
  unfold wf. setoid_rewrite eq_None_not_Some. simpl. rewrite Lv.
  setoid_rewrite delete_is_Some_iff. setoid_rewrite link_prev_is_Some.
  setoid_rewrite link_next_is_Some. setoid_rewrite insert_is_Some_or.
  setoid_rewrite elem_of_difference. setoid_rewrite elem_of_singleton.
  setoid_rewrite eq_None_not_Some in Wn. setoid_rewrite eq_None_not_Some in Wl.
  setoid_rewrite eq_None_not_Some in Wi.
  assert (is_Some (lists s !! l)) by eauto.
  repeat split; intros; naive_solver.
Qed.

Lemma after_delete_same s h l ms xs x ys :
  same_but l (list_to_set (xs ++ x :: ys).*1) s (after_delete s h l ms xs x ys).
Proof.
  split; [|split]; simpl; [|intros; by rewrite lookup_insert_ne|done].
  intros a. rewrite elem_of_list_to_set, fmap_app. csimpl.
  rewrite not_elem_of_app, not_elem_of_cons. intros (Hx & Ha & Hy).
  rewrite lookup_delete_ne by done.
  assert (Lk : forall b, b = 0 \/ b ∈ xs.*1 \/ b ∈ ys.*1 -> b = 0 \/ a <> b) by naive_solver.
  destruct (Lk (last_addr xs 0)) as [E1 | E1]; [destruct (last_addr_in xs 0); auto| |];
  (destruct (Lk (first_addr ys 0)) as [E2 | E2]; [destruct (first_addr_in ys 0); auto| |]);
  by rewrite ?E1, ?E2, ?link_prev_0, ?link_next_0, ?lookup_link_prev_ne, ?lookup_link_next_ne by done.
Qed.

Lemma listDelNode_run s l ms xs x ys :
  wf s -> rep s l ms (xs ++ x :: ys) ->
  exists h, listDelNode l x.1 s = Ret (tt, after_delete s h l ms xs x ys) /\
    a_live h = a_live (heap s) ∖ {[x.1]}.
Proof.
  intros W R. pose proof (rep_live _ _ _ _ x.1 W R) as Hl.
  destruct R as (L & ND & N0 & Sg & LT). destruct x as [a w].
  rewrite fmap_app, length_app in *. csimpl in *.
  apply NoDup_app in ND as (_ & D & ND). apply NoDup_cons in ND as [Ha _].
  apply not_elem_of_app in N0 as [N0 N0']. apply not_elem_of_cons in N0' as [? N0'].
  assert (Ha' : a ∉ xs.*1) by (intros Hi; apply (D _ Hi); set_solver).
  destruct (a_free_live a (heap s)) as (h & F & Lv); [set_solver | done|].
  exists h; split; [|done]. apply seg_app in Sg as [S1 [E S2]]. csimpl in *.
  rewrite last_addr_app, first_addr_app in *. csimpl in *.
  unfold listDelNode, after_delete. unrun. look.
  assert (Ex : xs = [] \/ exists xs' b u, xs = xs' ++ [(b, u)] /\ b <> a /\ 0 <> b /\
    nodes s !! b = Some (Node (last_addr xs' 0) a u)).
  { destruct xs as [|[b u] xs' _] using rev_ind; [by left | right].
    rewrite fmap_app in *. csimpl in *. apply not_elem_of_app in Ha' as [_ Ha'], N0 as [_ N0].
    apply not_elem_of_cons in Ha' as [? _], N0 as [? _].
    apply seg_app in S1 as [_ [E1 _]]. csimpl in *. exists xs', b, u. auto. }
  assert (Ey : ys = [] \/ exists b u ys', ys = (b, u) :: ys' /\ b <> a /\ 0 <> b /\ b ∉ xs.*1 /\
    nodes s !! b = Some (Node a (first_addr ys' 0) u)).
  { destruct ys as [|[b u] ys']; [by left | right]. csimpl in *.
    apply not_elem_of_cons in Ha as [? _], N0' as [? _]. destruct S2 as [E1 _].
    exists b, u, ys'. split_and!; auto. intros Hi; apply (D _ Hi); set_solver. }
  destruct Ex as [-> | (xs' & b & u & -> & ? & ? & Eb)];
  destruct Ey as [-> | (c & t & ys' & -> & ? & ? & Hc & Ec)];
  rewrite ?last_addr_app, ?first_addr_app, ?fmap_app, ?length_app in *; csimpl in *;
  try (apply not_elem_of_app in Hc as [_ Hc]; apply not_elem_of_cons in Hc as [? _]);
  look; rewrite ?F; simpl; destruct (free ms); simpl; look; rewrite ?F; simpl; look; same_store.
Qed.

End Specs.
Section Operations.
Context {HP : Type} `{!Allocator HP}.
Variable junk_node : listNode.
Variable junk_list : clist.
Variable junk_iter : listIter.

Abbreviation store := (store (HP := HP)).

Implicit Types (s : store) (xs ys zs : list (Z * Z)) (ms : methods).

(** ** Rotation and joining *)

Lemma seg_rotate m ys x :
  NoDup (ys ++ [x]).*1 -> 0 ∉ (ys ++ [x]).*1 -> seg m 0 (ys ++ [x]) 0 ->
  seg (<[x.1 := Node 0 (first_addr ys 0) x.2]>
        (link_prev (first_addr ys 0) x.1 (link_next (last_addr ys 0) 0 m))) 0 (x :: ys) 0.
Proof.
  rewrite fmap_app, NoDup_app, not_elem_of_app, seg_app. csimpl.
  intros (ND & D & _) [N0 N0'] [Sg _].
  assert (x.1 ∉ ys.*1) by (intros Hi; apply (D _ Hi); set_solver).
  split; [by rewrite lookup_insert_eq|]. apply seg_insert_out; [done|].
  eapply seg_link_prev; [done..|]. eapply seg_link_next; done.
Qed.

Definition after_rotate (s : store) (l : Z) (ms : methods) (ys : list (Z * Z)) (x : Z * Z) : store :=
  Store (heap s)
    (<[x.1 := Node 0 (first_addr ys 0) x.2]>
       (link_prev (first_addr ys 0) x.1 (link_next (last_addr ys 0) 0 (nodes s))))
    (<[l := CList x.1 (last_addr ys 0) ms (Z.of_nat (S (length ys)))]> (lists s))
    (iters s) (freed s).

Lemma listRotate_run s l ms y ys x :
  rep s l ms ((y :: ys) ++ [x]) ->
  listRotate l s = Ret (tt, after_rotate s l ms (y :: ys) x).
Proof.
  intros (L & ND & N0 & Sg & LT). destruct x as [t w], y as [a v].
  rewrite fmap_app, NoDup_app, not_elem_of_app, seg_app in *. csimpl in *.
  destruct ND as (NDx & D & _), N0 as [N0 N0'], Sg as [[E Sg] [Et _]]. csimpl in *.
  rewrite last_addr_app, length_app in *. csimpl in *.
  assert (t ∉ a :: ys.*1) as [Hta Ht]%not_elem_of_cons by (intros Hi; apply (D _ Hi); set_solver).
  apply not_elem_of_cons in N0 as [N0 N1]. apply not_elem_of_cons in N0' as [? _].
  apply NoDup_cons in NDx as [Ha NDx].
  unfold listRotate, after_rotate. unrun. look.
  destruct ys as [|[b u] ys _] using rev_ind; csimpl in *; look; [same_store|].
  rewrite last_addr_app, first_addr_app, fmap_app, length_app in *. csimpl in *.
  rewrite not_elem_of_app, not_elem_of_cons in *. destruct N1 as [_ [? _]], Ha as [_ [? _]], Ht as [_ [? _]].
  apply seg_app in Sg as [_ [Eb _]]. csimpl in *. look. same_store.
Qed.

Lemma after_rotate_rep s l ms y ys x :
  rep s l ms ((y :: ys) ++ [x]) -> rep (after_rotate s l ms (y :: ys) x) l ms (x :: y :: ys).
Proof.
  intros (L & ND & N0 & Sg & LT). pose proof (seg_rotate _ _ _ ND N0 Sg).
  rewrite fmap_app, length_app in *.
  unfold rep, after_rotate. cbn [lists nodes]. rewrite lookup_insert_eq.
  split; [done|split; [|split; [|split]]]; [| |done|].
  - rewrite Permutation_app_comm in ND. done.
  - rewrite Permutation_app_comm in N0. done.
  - simpl in *. lia.
Qed.

(** The store after [listJoin(l, o)]. *)
Definition after_join (s : store) (l o : Z) (ml mo : methods) (xs ys : list (Z * Z)) : store :=
  Store (heap s)
    (link_next (last_addr xs 0) (first_addr ys 0)
       (link_prev (first_addr ys 0) (last_addr xs 0) (nodes s)))
    (<[o := CList 0 0 mo 0]>
       (<[l := CList (first_addr (xs ++ ys) 0) (last_addr (xs ++ ys) 0) ml
                 (Z.of_nat (length (xs ++ ys)))]> (lists s)))
    (iters s) (freed s).

Lemma rep_ends s l ms xs :
  rep s l ms xs ->
  (xs = [] /\ first_addr xs 0 = 0 /\ last_addr xs 0 = 0) \/
  (first_addr xs 0 <> 0 /\ last_addr xs 0 <> 0 /\
   is_Some (nodes s !! first_addr xs 0) /\ is_Some (nodes s !! last_addr xs 0) /\
   first_addr xs 0 ∈ xs.*1 /\ last_addr xs 0 ∈ xs.*1).
Proof.
  intros (_ & _ & N0 & Sg & _). destruct xs as [|x xs']; [by left | right].
  set (xs := x :: xs') in *.
  assert (F : first_addr xs 0 ∈ xs.*1) by (unfold xs; csimpl; set_solver).
  assert (La : last_addr xs 0 ∈ xs.*1)
    by (unfold xs; csimpl; destruct (last_addr_in xs' x.1) as [-> |]; set_solver).
  split_and!; try done; try (intros Z0; by rewrite Z0 in *);
    apply elem_of_dom; by eapply seg_dom.
Qed.

Lemma listJoin_run s l o ml mo xs ys :
  rep s l ml xs -> rep s o mo ys -> l <> o -> xs.*1 ## ys.*1 ->
  Z.of_nat (length (xs ++ ys)) < 2 ^ 64 ->
  listJoin l o s = Ret (tt, after_join s l o ml mo xs ys).
Proof.
  intros Rl Ro Hlo D LT. pose proof (rep_ends _ _ _ _ Rl) as El. pose proof (rep_ends _ _ _ _ Ro) as Eo.
  destruct Rl as (L & _), Ro as (O & _).
  assert (Fx : ys <> [] -> first_addr (xs ++ ys) 0 = if decide (xs = []) then first_addr ys 0 else first_addr xs 0)
    by (intros; destruct xs; done).
  assert (Ly : last_addr (xs ++ ys) 0 = if decide (ys = []) then last_addr xs 0 else last_addr ys 0).
  { rewrite last_addr_app. by destruct ys. }
  rewrite length_app in *. unfold listJoin, after_join. rewrite Ly, length_app. unrun. look.
  destruct El as [(-> & F1 & L1) | (F1 & L1 & [n1 N1] & [n2 N2] & I1 & I2)];
  destruct Eo as [(-> & F2 & L2) | (F2 & L2 & [n3 N3] & [n4 N4] & I3 & I4)];
  rewrite ?app_nil_r, ?app_nil_l in *; simpl in *.
  - look. same_store.
  - look. rewrite decide_False by (intros ->; done). same_store.
  - look. same_store.
  - assert (last_addr xs 0 <> first_addr ys 0) by (intros Eq; rewrite Eq in I2; by apply (D _ I2)).
    look. rewrite Fx, !decide_False by (by intros ->). same_store.
Qed.

Lemma after_join_rep s l o ml mo xs ys :
  rep s l ml xs -> rep s o mo ys -> l <> o -> xs.*1 ## ys.*1 ->
  Z.of_nat (length (xs ++ ys)) < 2 ^ 64 ->
  rep (after_join s l o ml mo xs ys) l ml (xs ++ ys) /\
  rep (after_join s l o ml mo xs ys) o mo [].
Proof.
  intros (_ & ND1 & N1 & S1 & _) (_ & ND2 & N2 & S2 & _) Hlo D LT.
  assert (ND : NoDup (xs ++ ys).*1) by (rewrite fmap_app; apply NoDup_app; set_solver).
  assert (N0 : 0 ∉ (xs ++ ys).*1) by (rewrite fmap_app; apply not_elem_of_app; done).
  split; (split; [simpl; rewrite ?lookup_insert_eq, ?lookup_insert_ne, ?lookup_insert_eq by done; done|]).
  - split_and!; [done|done| |done]. by apply seg_join.
  - split_and!; [constructor | set_solver | done | simpl; lia].
Qed.

(** ** Iterators, search and indexing *)

Definition iter_at (d : direction) (xs ys : list (Z * Z)) : listIter :=
  match d with
  | AL_START_HEAD => Iter (first_addr ys 0) AL_START_HEAD
  | AL_START_TAIL => Iter (last_addr xs 0) AL_START_TAIL
  end.

(** An iterator between [xs] and [y :: ys] going towards the tail returns [y]
    and ends after it; at the end it returns NULL for ever. *)
Lemma listNext_head_run s l ms xs y ys :
  rep s l ms (xs ++ y :: ys) ->
  listNext (iter_at AL_START_HEAD xs (y :: ys)) s =
    Ret ((y.1, iter_at AL_START_HEAD (xs ++ [y]) ys), s).
Proof.
  intros (_ & _ & N0 & Sg & _). apply seg_app in Sg as [_ [E _]].
  rewrite fmap_app, not_elem_of_app in N0. csimpl in *. destruct N0 as [_ [N0 _]%not_elem_of_cons].
  unfold listNext. unrun. look. done.
Qed.

Lemma listNext_tail_run s l ms xs x ys :
  rep s l ms ((xs ++ [x]) ++ ys) ->
  listNext (iter_at AL_START_TAIL (xs ++ [x]) ys) s =
    Ret ((x.1, iter_at AL_START_TAIL xs (x :: ys)), s).
Proof.
  intros (_ & _ & N0 & Sg & _). rewrite <- app_assoc in *. apply seg_app in Sg as [_ [E _]].
  rewrite fmap_app, not_elem_of_app in N0. csimpl in *. destruct N0 as [_ [N0 _]%not_elem_of_cons].
  unfold listNext. rewrite last_addr_app. unrun. look. done.
Qed.

Lemma listNext_end_run s d : listNext (Iter 0 d) s = Ret ((0, Iter 0 d), s).
Proof. done. Qed.

(** What [listSearchKey] computes on the abstract list. *)
Fixpoint search_key (ms : methods) (key : Z) (xs : list (Z * Z)) : Z :=
  match xs with
  | [] => 0
  | x :: xs' => if node_matches ms x.2 key then x.1 else search_key ms key xs'
  end.

Lemma listSearchKey_loop_run s l ms key xs ys fuel :
  rep s l ms (xs ++ ys) -> (length ys < fuel)%nat ->
  listSearchKey_loop fuel l key (iter_at AL_START_HEAD xs ys) s = Ret (search_key ms key ys, s).
Proof.
  revert xs fuel; induction ys as [|y ys IH]; intros xs [|fuel] R F; simpl in F; try lia; [done|].
  cbn [listSearchKey_loop]. pose proof (listNext_head_run _ _ _ _ _ _ R) as E.
  unfold mbind, ST_bind in *. rewrite E. simpl.
  destruct R as (L & ND & N0 & Sg & LT) eqn:HR. clear HR.
  assert (y.1 <> 0) by (intros E0; apply N0; rewrite fmap_app; csimpl; set_solver).
  rewrite decide_False by done. unfold deref_list, deref_node. rewrite L.
  pose proof Sg as Sg'. apply seg_app in Sg' as [_ [En _]]. rewrite En. simpl.
  destruct (node_matches ms y.2 key); [done|].
  change (Iter (first_addr ys 0) AL_START_HEAD) with (iter_at AL_START_HEAD (xs ++ [y]) ys).
  apply IH; [|lia]. rewrite <- app_assoc. split_and!; done.
Qed.

Definition addr_at (xs : list (Z * Z)) (i : nat) : Z :=
  match xs !! i with Some x => x.1 | None => 0 end.

Lemma listIndex_fwd_run s l ms xs ys i :
  rep s l ms (xs ++ ys) -> listIndex_loop i false (first_addr ys 0) s = Ret (addr_at ys i, s).
Proof.
  revert xs ys; induction i as [|i IH]; intros xs ys R; [by destruct ys|].
  destruct ys as [|y ys]; [done|]. cbn [listIndex_loop].
  assert (R' : rep s l ms ((xs ++ [y]) ++ ys)) by (by rewrite <- app_assoc).
  destruct R as (L & ND & N0 & Sg & LT). simpl.
  assert (y.1 <> 0) by (intros E0; apply N0; rewrite fmap_app; csimpl; set_solver).
  apply seg_app in Sg as [_ [En _]]. unrun. look. apply (IH (xs ++ [y]) ys R').
Qed.

Lemma listIndex_bwd_run s l ms xs ys i :
  rep s l ms (xs ++ ys) ->
  listIndex_loop i true (last_addr xs 0) s = Ret (addr_at (reverse xs) i, s).
Proof.
  revert xs ys; induction i as [|i IH]; intros xs ys R.
  - destruct xs as [|x xs _] using rev_ind; [done|].
    by rewrite last_addr_app, reverse_snoc.
  - destruct xs as [|x xs _] using rev_ind; [done|]. cbn [listIndex_loop].
    rewrite last_addr_app, reverse_snoc. simpl.
    assert (R' : rep s l ms (xs ++ x :: ys)) by (by rewrite <- app_assoc in R).
    pose proof R' as (L & ND & N0 & Sg & LT).
    assert (x.1 <> 0) by (intros E0; apply N0; rewrite fmap_app; csimpl; set_solver).
    apply seg_app in Sg as [_ [En _]]. unrun. look. apply (IH xs (x :: ys) R').
Qed.

End Operations.
Section Lifecycle.
Context {HP : Type} `{!Allocator HP}.
Variable junk_node : listNode.
Variable junk_list : clist.
Variable junk_iter : listIter.

Abbreviation store := (store (HP := HP)).

Implicit Types (s : store) (xs ys zs : list (Z * Z)) (ms : methods).

(** Everything that was live in [s] is unchanged in [s']. *)
Definition preserves (s s' : store) : Prop :=
  forall a, a ∈ a_live (heap s) ->
    nodes s' !! a = nodes s !! a /\ lists s' !! a = lists s !! a /\ iters s' !! a = iters s !! a.

Lemma rep_preserved s s' l ms xs : wf s -> preserves s s' -> rep s l ms xs -> rep s' l ms xs.
Proof.
  intros W P R. pose proof (fun a => rep_live _ _ _ _ a W R) as Lv. destruct R as (L & ND & N0 & Sg & LT).
  split; [|split; [done|]; split; [done|]; split; [|done]].
  - assert (E : lists s' !! l = lists s !! l) by (apply P; destruct W as (_ & Wl & _); apply Wl; eauto).
    by rewrite E.
  - eapply seg_ext; [|exact Sg]. intros a Ha. by apply P, Lv.
Qed.

Definition no_methods : methods := Methods None false None.

Lemma listCreate_run s p h :
  a_alloc 48 (heap s) = Ret (p, h) ->
  listCreate junk_list s =
    Ret (p, if decide (p = 0) then with_heap h s
            else Store h (nodes s) (<[p := CList 0 0 no_methods 0]> (lists s)) (iters s) (freed s)).
Proof.
  intros E. unfold listCreate. unrun. rewrite E. case_decide; [by subst | look; same_store].
Qed.

Lemma listCreate_post s p h :
  wf s -> a_alloc 48 (heap s) = Ret (p, h) -> p <> 0 ->
  let s' := Store h (nodes s) (<[p := CList 0 0 no_methods 0]> (lists s)) (iters s) (freed s) in
  rep s' p no_methods [] /\ wf s' /\ preserves s s'.
Proof.
  intros W E Hp. destruct (a_alloc_fresh _ _ _ _ E Hp) as [Fr Lv].
  destruct (wf_fresh _ _ W Fr) as (Pn & Pl & Pi). destruct W as (Wn & Wl & Wi).
  split; [|split].
  - split_and!; simpl; [by rewrite lookup_insert_eq | constructor | set_solver | done | lia].
  - unfold wf; simpl; rewrite Lv; split; [|split]; intros a Ha;
      rewrite elem_of_union, elem_of_singleton.
    + assert (a <> p) by (intros ->; rewrite Pn in Ha; by destruct Ha).
      rewrite lookup_insert_ne by done. naive_solver.
    + apply insert_is_Some_or in Ha as [-> | Ha]; [auto | naive_solver].
    + assert (a <> p) by (intros ->; rewrite Pi in Ha; by destruct Ha).
      rewrite lookup_insert_ne by done. naive_solver.
  - intros a Ha. simpl. rewrite lookup_insert_ne by congruence. done.
Qed.

(** ** Emptying a list *)

(** The loop of [listEmpty] frees the nodes in order. *)
Lemma listEmpty_loop_run s l c p xs :
  lists s !! l = Some c -> NoDup xs.*1 -> 0 ∉ xs.*1 -> seg (nodes s) p xs 0 ->
  (forall a, a ∈ xs.*1 -> a ∈ a_live (heap s)) ->
  exists h m,
    listEmpty_loop l (length xs) (first_addr xs 0) s =
      Ret (tt, Store h m (lists s) (iters s)
                 ((if free (meth c) then reverse xs.*2 else []) ++ freed s)) /\
    a_live h = a_live (heap s) ∖ list_to_set xs.*1 /\
    (forall a, m !! a = if decide (a ∈ xs.*1) then None else nodes s !! a).
Proof.
  revert s p; induction xs as [|x xs IH]; intros s p L ND N0 Sg Lv.
  - exists (heap s), (nodes s). split_and!; [|set_solver|done].
    destruct s; simpl. by destruct (free (meth c)).
  - csimpl in *. apply NoDup_cons in ND as [Nx ND]. apply not_elem_of_cons in N0 as [Hx N0].
    destruct Sg as [E Sg]. destruct (a_free_live x.1 (heap s)) as (h & F & Lh); [set_solver|done|].
    set (s1 := Store h (delete x.1 (nodes s)) (lists s) (iters s)
                 (if free (meth c) then x.2 :: freed s else freed s)).
    destruct (IH s1 x.1) as (h' & m & Ed & Lh' & Em); try done.
    { by apply seg_delete_out. }
    { simpl. rewrite Lh. intros a Ha. set_solver. }
    exists h', m. split; [|split].
    + unrun. look. destruct (free (meth c)) eqn:Fm; simpl; rewrite F; simpl.
      * change (with_nodes _ _) with s1. unfold s1 in *. rewrite Ed. simpl.
        rewrite reverse_cons, <- app_assoc. done.
      * unfold s1 in *. rewrite Ed. done.
    + rewrite Lh'. simpl. rewrite Lh. set_solver.
    + intros a. rewrite Em. unfold s1; simpl. destruct (decide (a = x.1)) as [-> |].
      * rewrite lookup_delete_eq. by rewrite (decide_True (P := x.1 ∈ x.1 :: xs.*1)) by set_solver; case_decide.
      * rewrite lookup_delete_ne by done. repeat case_decide; set_solver.
Qed.

(** What [listEmpty] leaves: the list is empty, its nodes are dead, the free
    method has been called on the values in order. *)
Definition emptied (s s' : store) (l : Z) (ms : methods) (xs : list (Z * Z)) : Prop :=
  rep s' l ms [] /\ wf s' /\
  a_live (heap s') = a_live (heap s) ∖ list_to_set xs.*1 /\
  freed s' = (if free ms then reverse xs.*2 else []) ++ freed s /\
  (forall a, nodes s' !! a = if decide (a ∈ xs.*1) then None else nodes s !! a) /\
  (forall l', l' <> l -> lists s' !! l' = lists s !! l') /\ iters s' = iters s.

Lemma listEmpty_run s l ms xs :
  wf s -> rep s l ms xs -> exists s', listEmpty l s = Ret (tt, s') /\ emptied s s' l ms xs.
Proof.
  intros W R. pose proof (fun a => rep_live _ _ _ _ a W R) as Lv.
  destruct R as (L & ND & N0 & Sg & LT).
  destruct (listEmpty_loop_run _ _ _ _ _ L ND N0 Sg Lv) as (h & m & E & Lh & Em).
  eexists. split.
  { unfold listEmpty, mbind, ST_bind, deref_list at 1. rewrite L. simpl.
    rewrite Nat2Z.id, E. unrun. look. reflexivity. }
  destruct W as (Wn & Wl & Wi). assert (is_Some (lists s !! l)) by eauto.
  split; [|split].
  - split_and!; simpl; [by rewrite lookup_insert_eq | constructor | set_solver | done | lia].
  - unfold wf; simpl; rewrite Lh. setoid_rewrite eq_None_not_Some.
    setoid_rewrite eq_None_not_Some in Wn. setoid_rewrite eq_None_not_Some in Wl.
    setoid_rewrite eq_None_not_Some in Wi. setoid_rewrite insert_is_Some_or.
    setoid_rewrite insert_is_Some_or. setoid_rewrite insert_is_Some_or.
    setoid_rewrite elem_of_difference. setoid_rewrite elem_of_list_to_set. setoid_rewrite Em.
    assert (Dn : forall a, a ∈ xs.*1 -> is_Some (nodes s !! a))
      by (intros a Ha; apply elem_of_dom; by eapply seg_dom).
    assert (Sm : forall a, is_Some (if decide (a ∈ xs.*1) then None else nodes s !! a) <->
               a ∉ xs.*1 /\ is_Some (nodes s !! a))
      by (intros a; case_decide; [split; [by intros [? ?] | tauto] | tauto]).
    setoid_rewrite Sm. repeat split; intros; naive_solver.
  - simpl. split_and!; try done. intros l' Hl. by rewrite !lookup_insert_ne.
Qed.

Lemma listRelease_run s l ms xs :
  wf s -> rep s l ms xs -> l <> 0 ->
  exists s', listRelease l s = Ret (tt, s') /\ wf s' /\
    a_live (heap s') = a_live (heap s) ∖ ({[l]} ∪ list_to_set xs.*1) /\
    freed s' = (if free ms then reverse xs.*2 else []) ++ freed s /\
    (forall a, a <> l -> a ∉ xs.*1 ->
       nodes s' !! a = nodes s !! a /\ lists s' !! a = lists s !! a /\ iters s' !! a = iters s !! a).
Proof.
  intros W R Hl. destruct (listEmpty_run _ _ _ _ W R) as (s1 & E & R1 & W1 & Lv & Fr & En & El & Ei).
  destruct R1 as (L1 & _). destruct W1 as (Wn & Wl & Wi).
  assert (Sl : is_Some (lists s1 !! l)) by eauto.
  destruct (a_free_live l (heap s1)) as (h & F & Lh); [by apply Wl | done|].
  eexists. split; [|split; [|split; [|split]]].
  - unfold listRelease, mbind, ST_bind. rewrite E. unrun. rewrite F. reflexivity.
  - unfold wf; simpl; rewrite Lh. setoid_rewrite eq_None_not_Some.
    setoid_rewrite eq_None_not_Some in Wn. setoid_rewrite eq_None_not_Some in Wl.
    setoid_rewrite eq_None_not_Some in Wi. setoid_rewrite delete_is_Some_iff.
    setoid_rewrite elem_of_difference. setoid_rewrite elem_of_singleton.
    repeat split; intros; naive_solver.
  - simpl. rewrite Lh, Lv. set_solver.
  - simpl. by rewrite Fr.
  - intros a Ha Hx. simpl. rewrite lookup_delete_ne, El, Ei, En by done.
    by rewrite decide_False by done.
Qed.

(** ** Duplication *)

Definition dup_value (ms : methods) (v : Z) : Z :=
  match dup ms with Some f => f v | None => v end.

(** Why a duplication can fail. *)
Definition dup_failure (ms : methods) (vs : list Z) : Prop :=
  (exists n (h h' : HP), a_alloc n h = Ret (0, h')) \/
  (exists v, v ∈ vs /\ dup ms <> None /\ dup_value ms v = 0).

(** The loop invariant of [listDup]: [s0] is the store before the call, [dn]
    what the copy holds. *)
Definition dup_inv (s0 s : store) (copy : Z) (ms : methods) (dn : list (Z * Z)) : Prop :=
  wf s /\ preserves s0 s /\ rep s copy ms dn /\ copy <> 0 /\
  (copy ∉ a_live (heap s0)) /\ (forall a, a ∈ dn.*1 -> a ∉ a_live (heap s0)) /\
  a_live (heap s) = a_live (heap s0) ∪ ({[copy]} ∪ list_to_set dn.*1).

Lemma union_difference_cancel (A B : gset Z) :
  (forall a, a ∈ B -> a ∉ A) -> (A ∪ B) ∖ B = A.
Proof. set_solver. Qed.

Lemma dup_inv_release s0 s copy ms dn :
  wf s0 -> dup_inv s0 s copy ms dn ->
  exists s', listRelease copy s = Ret (tt, s') /\ wf s' /\ preserves s0 s' /\
    a_live (heap s') = a_live (heap s0).
Proof.
  intros W0 (W & P & R & Hc & Fc & Fd & Lv).
  destruct (listRelease_run _ _ _ _ W R Hc) as (s' & E & W' & Lv' & _ & Same).
  exists s'. split; [done|]. split; [done|]. split.
  - intros a Ha. destruct (P a Ha) as (<- & <- & <-). apply Same; [congruence|].
    intros Hi. by apply (Fd a).
  - rewrite Lv', Lv. apply union_difference_cancel. intros a.
    rewrite elem_of_union, elem_of_singleton, elem_of_list_to_set. intros [-> |]; auto.
Qed.

Lemma dup_inv_push s0 s copy ms dn p v h :
  wf s0 -> dup_inv s0 s copy ms dn -> Z.of_nat (S (length dn)) < 2 ^ 64 ->
  a_alloc 24 (heap s) = Ret (p, h) -> p <> 0 ->
  let s' := after_insert s h copy ms p v dn [] in
  listAddNodeTail junk_node copy v s = Ret (copy, s') /\
  dup_inv s0 s' copy ms (dn ++ [(p, v)]).
Proof.
  intros W0 (W & P & R & Hc & Fc & Fd & Lv) LT AL Hp s'.
  destruct (a_alloc_fresh _ _ _ _ AL Hp) as [Fr Lh].
  assert (Hx : p ∉ dn.*1) by (intros ?; apply Fr; by eapply rep_live).
  split; [by eapply listAddNodeTail_run|].
  assert (R0 : rep s copy ms (dn ++ [])) by (by rewrite app_nil_r).
  split_and!; try done.
  - by eapply after_insert_wf.
  - intros a Ha. destruct (P a Ha) as (<- & <- & <-).
    destruct (after_insert_same s h copy ms p v dn []) as (Sn & Sl & Si).
    rewrite app_nil_r in Sn. unfold s'. rewrite Sn, Sl, Si; [done|congruence|].
    rewrite not_elem_of_union, not_elem_of_singleton, elem_of_list_to_set.
    split; [intros ->; apply Fr; rewrite Lv; by apply elem_of_union_l | intros Hi; by apply (Fd a)].
  - eapply after_insert_rep; rewrite ?app_nil_r; done.
  - intros a. rewrite fmap_app, elem_of_app. csimpl. rewrite list_elem_of_singleton.
    intros [Ha | ->]; [by apply Fd | intros Hi; apply Fr; rewrite Lv; by apply elem_of_union_l].
  - unfold s'; cbn [heap after_insert]. rewrite Lh, Lv, fmap_app, list_to_set_app_L. csimpl.
    clear. set_solver.
Qed.

Lemma listDup_loop_run s0 o copy ms xs ys dn s fuel :
  (forall n (h : HP), exists p h', a_alloc n h = Ret (p, h')) ->
  wf s0 -> rep s0 o ms (xs ++ ys) -> dup_inv s0 s copy ms dn ->
  (length ys < fuel)%nat -> Z.of_nat (length dn + length ys) < 2 ^ 64 ->
  exists b s', listDup_loop junk_node fuel copy (iter_at AL_START_HEAD xs ys) s = Ret (b, s') /\
    if b : bool
    then exists zs, dup_inv s0 s' copy ms (dn ++ zs) /\ zs.*2 = dup_value ms <$> ys.*2
    else wf s' /\ preserves s0 s' /\ a_live (heap s') = a_live (heap s0) /\
         dup_failure ms ys.*2.
Proof.
  intros Tot W0. revert xs dn s fuel. induction ys as [|y ys IH]; intros xs dn s fuel Ro I F LT.
  { destruct fuel as [|fuel]; [simpl in F; lia|]. exists true, s. split; [done|].
    exists []. rewrite app_nil_r. done. }
  destruct fuel as [|fuel]; simpl in F, LT; [lia|].
  assert (R : rep s o ms (xs ++ y :: ys)) by (by eapply rep_preserved; [..|apply I|]).
  assert (E1 := listNext_head_run _ _ _ _ _ _ R).
  pose proof I as (W & P & (Lc & _) & _).
  pose proof R as (_ & _ & N0 & Sg & _). apply seg_app in Sg as [_ [E2 _]].
  assert (Hy : y.1 <> 0) by (intros E0; apply N0; rewrite fmap_app; csimpl; set_solver).
  cbn [listDup_loop]. unfold mbind, ST_bind in *. rewrite E1. cbn [fst snd].
  rewrite decide_False by done. unfold deref_node, deref_list. rewrite E2, Lc. cbn [meth value].
  change (match dup ms with Some f => f y.2 | None => y.2 end) with (dup_value ms y.2).
  case_decide as Hd.
  - destruct (dup_inv_release _ _ _ _ _ W0 I) as (s' & E & W' & P' & Lv').
    exists false, s'. rewrite E. split; [done|]. split_and!; try done.
    right. exists y.2. csimpl. split; [set_solver | tauto].
  - destruct (Tot 24 (heap s)) as (p & h & AL). destruct (decide (p = 0)) as [-> |].
    + destruct (insert_oom junk_node s h copy (dup_value ms y.2) 0 true AL) as (_ & E & _).
      assert (I' : dup_inv s0 (with_heap h s) copy ms dn).
      { pose proof (a_alloc_null _ _ _ AL) as Eh. destruct I as (A1 & A2 & A3 & A4 & A5 & A6 & A7).
        split_and!; try done; [|simpl; by rewrite Eh]. by eapply wf_dom; [..|exact W]. }
      destruct (dup_inv_release _ _ _ _ _ W0 I') as (s' & E' & W' & P' & Lv').
      exists false, s'. rewrite E; cbv beta iota. rewrite decide_True by done. rewrite E'.
      split; [done|]. split_and!; try done.
      left. eauto.
    + destruct (dup_inv_push _ _ _ _ _ _ (dup_value ms y.2) _ W0 I ltac:(lia) AL ltac:(done)) as [E I'].
      rewrite E. destruct I as (_ & _ & _ & Hc & _). rewrite decide_False by done.
      destruct (IH (xs ++ [y]) _ _ fuel ltac:(by rewrite <- app_assoc) I' ltac:(lia))
        as (b & s' & El & Post); [rewrite length_app; simpl; lia|].
      exists b, s'. split; [done|]. destruct b.
      * destruct Post as (zs & Iz & Ez). exists ((p, dup_value ms y.2) :: zs).
        rewrite <- app_assoc in Iz. split; [done|]. csimpl. by rewrite Ez.
      * destruct Post as (? & ? & ? & Fl). split_and!; try done.
        destruct Fl as [|(v & Hv & ?)]; [by left | right; exists v; csimpl; set_solver].
Qed.

End Lifecycle.
(** ** Properties *)

(** The four places a value can be inserted at, the program for each, and the
    parts of the list before and after the new element. *)
Inductive place := AtHead | AtTail | Before (a : Z) | After (a : Z).

Fixpoint cut (a : Z) (xs : list (Z * Z)) : option (list (Z * Z) * (Z * Z) * list (Z * Z)) :=
  match xs with
  | [] => None
  | x :: xs' =>
      if decide (x.1 = a) then Some ([], x, xs')
      else '(ys, y, zs) ← cut a xs'; Some (x :: ys, y, zs)
  end.

Definition split_at (pl : place) (xs : list (Z * Z)) : option (list (Z * Z) * list (Z * Z)) :=
  match pl with
  | AtHead => Some ([], xs)
  | AtTail => Some (xs, [])
  | Before a => '(ys, y, zs) ← cut a xs; Some (ys, y :: zs)
  | After a => '(ys, y, zs) ← cut a xs; Some (ys ++ [y], zs)
  end.

Definition run_insert `{Allocator HP} (junk : listNode) (pl : place) (l v : Z) :
    ST (store (HP := HP)) Z :=
  match pl with
  | AtHead => listAddNodeHead junk l v
  | AtTail => listAddNodeTail junk l v
  | Before a => listInsertNode junk l a v false
  | After a => listInsertNode junk l a v true
  end.

Lemma cut_Some a xs ys y zs : cut a xs = Some (ys, y, zs) -> xs = ys ++ y :: zs /\ y.1 = a.
Proof.
  revert ys; induction xs as [|x xs IH]; intros ys; simpl; [done|].
  case_decide; [by intros [= <- <- <-]|].
  destruct (cut a xs) as [[[ys' y'] zs']|] eqn:E; simpl; [|done]. intros [= <- <- <-].
  by destruct (IH _ eq_refl) as [-> ->].
Qed.

(** The list the witnesses run on: three nodes, by the code itself. *)
Definition junk0 : listNode := Node 77 78 79.

#[local] Existing Instance bump_malloc.
#[local] Instance sample_allocator : Allocator zstate := zmalloc_allocator true.

Definition sample : store (HP := zstate) :=
  match (l ← listCreate (CList 1 2 no_methods 3);
         listAddNodeTail junk0 l 7;; listAddNodeTail junk0 l 9;; listAddNodeTail junk0 l 7)
        (Store zstate0 ∅ ∅ ∅ []) with
  | Ret (_, s) => s
  | _ => Store zstate0 ∅ ∅ ∅ []
  end.

Definition sample_nodes : list (Z * Z) := [(32, 7); (48, 9); (64, 7)].

Lemma wf_check `{Allocator HP} (s : store (HP := HP)) :
  map_Forall (fun a _ => a ∈ a_live (heap s) /\ lists s !! a = None /\ iters s !! a = None) (nodes s) ->
  map_Forall (fun a _ => a ∈ a_live (heap s) /\ nodes s !! a = None /\ iters s !! a = None) (lists s) ->
  iters s = ∅ -> wf s.
Proof.
  intros Hn Hl Hi. split; [|split]; intros a [x E].
  - exact (Hn a x E).
  - exact (Hl a x E).
  - rewrite Hi in E. done.
Qed.

Lemma sample_wf : wf sample.
Proof.
  apply wf_check; [| |reflexivity]; apply (bool_decide_unpack _); vm_compute; exact I.
Qed.

Lemma sample_rep : rep sample 16 no_methods sample_nodes.
Proof.
  split_and!; [vm_compute; reflexivity | | | |vm_compute; reflexivity].
  - apply (bool_decide_unpack _); vm_compute; exact I.
  - apply (bool_decide_unpack _); vm_compute; exact I.
  - cbn. split_and!; vm_compute; reflexivity.
Qed.

(** C29: the insertions implement list insertion: [listAddNodeHead],
    [listAddNodeTail] and [listInsertNode] (before and after any node of the
    list), when zmalloc gives memory, return the list, which then holds the
    new value at the requested place and everything else in order; all links
    are right in both directions, the length is right, and no other list,
    node or iterator is touched.  When zmalloc returns NULL they return NULL
    and change nothing. *)
Theorem adlist_insert_refines `{!Allocator HP} (junk : listNode) (s : store (HP := HP))
    l ms xs pl ys zs v p h :
  wf s -> rep s l ms xs -> Z.of_nat (S (length xs)) < 2 ^ 64 ->
  split_at pl xs = Some (ys, zs) -> a_alloc 24 (heap s) = Ret (p, h) ->
  if decide (p = 0) then run_insert junk pl l v s = Ret (0, with_heap h s)
  else exists s', run_insert junk pl l v s = Ret (l, s') /\
         rep s' l ms (ys ++ (p, v) :: zs) /\ wf s' /\
         same_but l ({[p]} ∪ list_to_set xs.*1) s s'.
Proof.
  intros W R LT Sp AL. case_decide as Hp.
  { subst p. destruct pl as [| |a|a]; cbn [run_insert];
      [apply (insert_oom junk s h l v 0 true AL)..|apply (insert_oom junk s h l v a false AL)
      |apply (insert_oom junk s h l v a true AL)]. }
  exists (after_insert s h l ms p v ys zs).
  enough (xs = ys ++ zs /\ run_insert junk pl l v s = Ret (l, after_insert s h l ms p v ys zs))
    as [-> E].
  { destruct (a_alloc_fresh _ _ _ _ AL Hp) as [Fr _].
    assert (p ∉ (ys ++ zs).*1) by (intros ?; apply Fr; by eapply rep_live).
    split; [done|]. split; [by eapply after_insert_rep|]. split; [by eapply after_insert_wf|].
    apply after_insert_same. }
  destruct pl as [| |a|a]; cbn [run_insert split_at] in *.
  - simplify_eq. split; [done|]. by eapply listAddNodeHead_run.
  - simplify_eq. rewrite app_nil_r. split; [done|]. by eapply listAddNodeTail_run.
  - destruct (cut a xs) as [[[ys' y] zs']|] eqn:C; simpl in Sp; [|done]. simplify_eq.
    apply cut_Some in C as [-> <-]. split; [done|]. by eapply listInsertNode_before_run.
  - destruct (cut a xs) as [[[ys' y] zs']|] eqn:C; simpl in Sp; [|done]. simplify_eq.
    apply cut_Some in C as [-> <-]. rewrite <- app_assoc. split; [done|].
    by eapply listInsertNode_after_run.
Qed.

Lemma adlist_insert_refines_witness :
  exists s', run_insert junk0 (After 48) 16 5 sample = Ret (16, s') /\
    rep s' 16 no_methods [(32, 7); (48, 9); (80, 5); (64, 7)].
Proof.
  assert (AL : exists h, a_alloc 24 (heap sample) = Ret (80, h))
    by (eexists; vm_compute; reflexivity).
  destruct AL as [h AL].
  pose proof (adlist_insert_refines junk0 sample 16 no_methods sample_nodes (After 48)
    [(32, 7); (48, 9)] [(64, 7)] 5 80 h sample_wf sample_rep ltac:(reflexivity)
    ltac:(reflexivity) AL) as T.
  destruct T as (s' & E & R & _). exists s'. split; [exact E | exact R].
Defined.

(** What an iterator between [xs] and [ys] gives next, and where it is then. *)
Definition onward (d : direction) (xs ys : list (Z * Z)) : Z * listIter :=
  match d with
  | AL_START_HEAD => match ys with [] => (0, Iter 0 d) | y :: ys' => (y.1, iter_at d (xs ++ [y]) ys') end
  | AL_START_TAIL =>
      match reverse xs with [] => (0, Iter 0 d) | y :: rest => (y.1, iter_at d (reverse rest) (y :: ys)) end
  end.

Lemma listNext_onward `{!Allocator HP} (s : store (HP := HP)) l ms xs ys d :
  rep s l ms (xs ++ ys) -> listNext (iter_at d xs ys) s = Ret (onward d xs ys, s).
Proof.
  intros R. destruct d; cbn [onward].
  - destruct ys as [|y ys]; [done|]. exact (listNext_head_run _ _ _ _ _ _ R).
  - destruct (reverse xs) as [|y rest] eqn:E; apply (f_equal reverse) in E; rewrite reverse_involutive in E; subst xs.
    + done.
    + rewrite reverse_cons in *. exact (listNext_tail_run _ _ _ _ _ _ R).
Qed.

Lemma listNext_node `{!Allocator HP} (s : store (HP := HP)) l ms xs x ys d : rep s l ms (xs ++ x :: ys) ->
  exists it, listNext (Iter x.1 d) s = Ret ((x.1, it), s) /\ it = iter_at d (match d with AL_START_HEAD => xs ++ [x] | _ => xs end)
    (match d with AL_START_HEAD => ys | _ => x :: ys end).
Proof.
  intros R. eexists. split; [|reflexivity]. destruct d.
  - exact (listNext_head_run _ _ _ _ _ _ R).
  - pose proof (listNext_tail_run s l ms xs x ys) as E. rewrite <- app_assoc in E at 1. specialize (E R).
    unfold iter_at in E. by rewrite last_addr_app in E.
Qed.

(** C30: [listDelNode] removes exactly the given node: the remaining sequence is
    represented, the node's block is freed and no other, nothing else changes; the list's free method is
    called on the value when there is one, although the comment of the function
    leaves the value to the caller; and an iterator of either direction that has just returned
    the deleted node goes on with the node after it, in its direction (the removal the comment of
    [listNext] allows). *)
Theorem adlist_delete_refines `{!Allocator HP} (s : store (HP := HP)) l ms xs x ys :
  wf s -> rep s l ms (xs ++ x :: ys) ->
  exists s', listDelNode l x.1 s = Ret (tt, s') /\
    rep s' l ms (xs ++ ys) /\ wf s' /\
    a_live (heap s') = a_live (heap s) ∖ {[x.1]} /\
    freed s' = (if free ms then x.2 :: freed s else freed s) /\
    same_but l (list_to_set (xs ++ x :: ys).*1) s s' /\
    forall d, exists it, listNext (Iter x.1 d) s = Ret ((x.1, it), s) /\ listNext it s' = Ret (onward d xs ys, s').
Proof.
  intros W R. destruct (listDelNode_run _ _ _ _ _ _ W R) as (h & E & Lv).
  exists (after_delete s h l ms xs x ys). split; [done|].
  pose proof (after_delete_rep s h _ _ _ _ _ R) as R'.
  split; [done|]. split; [by apply after_delete_wf|]. split; [done|]. split; [done|].
  split; [apply after_delete_same|]. intros d. destruct (listNext_node s l ms xs x ys d R) as (it & E1 & ->).
  eexists. split; [exact E1|]. rewrite <- (listNext_onward _ _ _ _ _ d R'). by destruct d.
Qed.

Lemma adlist_delete_refines_witness :
  exists s', listDelNode 16 48 sample = Ret (tt, s') /\ rep s' 16 no_methods [(32, 7); (64, 7)].
Proof.
  destruct (adlist_delete_refines sample 16 no_methods [(32, 7)] (48, 9) [(64, 7)]
    sample_wf sample_rep) as (s' & E & R & _).
  exists s'. split; [exact E | exact R].
Defined.

(** [listDup], with any allocator that does not stop the process, ends and
    returns either a new list, disjoint from everything live, whose values are
    the original's through the [dup] method in order, with exactly its own
    blocks allocated; or NULL, only when an allocation returned NULL or the
    [dup] method did, and then with nothing left allocated.  In both cases
    the original is not modified. *)
Theorem listDup_spec `{!Allocator HP} (junk : listNode) (junkl : clist) (s : store (HP := HP))
    o ms xs fuel :
  (forall n (h : HP), exists p h', a_alloc n h = Ret (p, h')) ->
  wf s -> rep s o ms xs -> (length xs < fuel)%nat ->
  exists r s', listDup junk junkl fuel o s = Ret (r, s') /\ wf s' /\ rep s' o ms xs /\
    if decide (r = 0)
    then a_live (heap s') = a_live (heap s) /\ dup_failure (HP := HP) ms xs.*2
    else exists ys, rep s' r ms ys /\ ys.*2 = dup_value ms <$> xs.*2 /\
           (forall a, a ∈ r :: ys.*1 -> a ∉ a_live (heap s)) /\
           a_live (heap s') = a_live (heap s) ∪ list_to_set (r :: ys.*1).
Proof.
  intros Tot W R F. destruct (Tot 48 (heap s)) as (c & h & AL).
  pose proof (listCreate_run junkl s c h AL) as E. destruct (decide (c = 0)) as [-> |Hc].
  { exists 0, (with_heap h s). unfold listDup, mbind, ST_bind. rewrite E.
    cbv beta iota. rewrite decide_True by done. split; [done|].
    pose proof (a_alloc_null _ _ _ AL) as Eh.
    split; [by eapply wf_dom; [..|exact W]|]. split; [done|]. rewrite decide_True by done.
    split; [done|]. left; eauto. }
  destruct (listCreate_post _ _ _ W AL Hc) as (R1 & W1 & P1). cbv zeta in *.
  destruct (a_alloc_fresh _ _ _ _ AL Hc) as [Fr Lv].
  set (s1 := Store _ _ _ _ _) in *.
  set (s2 := Store h (nodes s) (<[c := CList 0 0 ms 0]> (lists s)) (iters s) (freed s)).
  assert (Ro : rep s1 o ms xs) by exact (rep_preserved _ _ _ _ _ W P1 R).
  assert (Hoc : o <> c).
  { intros ->. apply Fr. destruct R as (L & _). destruct W as (_ & Wl & _). apply Wl. eauto. }
  assert (Em : set_meth c ms s1 = Ret (tt, s2)) by (unfold s1, s2; unrun; look; same_store).
  assert (I0 : dup_inv s s2 c ms []).
  { split; [|split; [|split; [|split; [|split; [|split]]]]].
    - eapply wf_dom; [..|exact W1]; [done| |done|done].
      intros a. simpl. by rewrite !insert_is_Some_or.
    - intros a Ha. simpl. rewrite lookup_insert_ne by congruence. done.
    - split; [simpl; by rewrite lookup_insert_eq | by destruct R1 as (_ & R1)].
    - done.
    - done.
    - intros a Ha. by apply elem_of_nil in Ha.
    - simpl. rewrite Lv. clear. csimpl. set_solver. }
  destruct (listDup_loop_run junk s o c ms [] xs [] s2 fuel Tot W R I0 F) as (b & s' & El & Post);
    [destruct R as (_ & _ & _ & _ & ?); simpl; lia|].
  exists (if b then c else 0), s'. split.
  { unfold listDup, mbind, ST_bind. rewrite E. cbv beta iota. rewrite decide_False by done.
    unfold deref_list at 1. rewrite (proj1 Ro). cbn [meth]. rewrite Em. unfold listRewind, mbind, ST_bind.
    unfold deref_list at 1. assert (R2 : rep s2 o ms xs) by (eapply rep_preserved; [..|apply I0|]; done).
    rewrite (proj1 R2). cbn [head mret ST_ret]. unfold iter_at in El. by rewrite El. }
  destruct b.
  - destruct Post as (zs & (W' & P' & R' & _ & _ & Fz & Lv') & Ez).
    split; [done|]. split; [exact (rep_preserved _ _ _ _ _ W P' R)|]. rewrite decide_False by done.
    exists zs. split; [done|]. split; [done|]. split; [|done].
    intros a. rewrite elem_of_cons. intros [-> |]; auto.
  - destruct Post as (W' & P' & Lv' & Fl). split; [done|]. split; [exact (rep_preserved _ _ _ _ _ W P' R)|].
    by rewrite decide_True.
Qed.

(** The same three-node list there. *)
Definition sample' : store (HP := gset Z) :=
  Store ({[1; 2; 3; 4]} : gset Z)
    (<[2 := Node 0 3 7]> (<[3 := Node 2 4 9]> {[4 := Node 3 0 7]}))
    {[1 := CList 2 4 no_methods 3]} ∅ [].

Lemma sample'_wf : wf sample'.
Proof.
  apply wf_check; [| |reflexivity]; apply (bool_decide_unpack _); vm_compute; exact I.
Qed.

Lemma sample'_rep : rep sample' 1 no_methods [(2, 7); (3, 9); (4, 7)].
Proof.
  split_and!; [vm_compute; reflexivity | | | |vm_compute; reflexivity].
  - apply (bool_decide_unpack _); vm_compute; exact I.
  - apply (bool_decide_unpack _); vm_compute; exact I.
  - cbn. split_and!; vm_compute; reflexivity.
Qed.

Lemma listDup_spec_witness :
  exists s', listDup junk0 (CList 1 2 no_methods 3) 5 1 sample' = Ret (5, s') /\
    exists ys, rep s' 5 no_methods ys /\ ys.*2 = [7; 9; 7].
Proof.
  destruct (listDup_spec junk0 (CList 1 2 no_methods 3) sample' 1 no_methods
    [(2, 7); (3, 9); (4, 7)] 5 endless_total
    sample'_wf sample'_rep ltac:(simpl; lia)) as (r & s' & E & _ & _ & P).
  assert (V : exists s0, listDup junk0 (CList 1 2 no_methods 3) 5 1 sample' = Ret (5, s0))
    by (eexists; vm_compute; reflexivity).
  destruct V as [s0 V]. rewrite V in E. injection E as <- <-.
  exists s0. split; [exact V|]. rewrite decide_False in P by lia.
  destruct P as (ys & R & Ey & _). exists ys. split; [exact R | exact Ey].
Defined.

(** [listSearchKey] returns the first node in order that matches by the
    [match] method, or by equality without one, and NULL when there is none;
    [listIndex] returns the node at position [i] from the head for [i >= 0],
    the node at position [-i-1] from the tail for [i < 0], and NULL out of
    range, for every [long] but [LONG_MIN], whose negation overflows.  Neither
    modifies anything, and [listSearchKey] ends. *)
Theorem adlist_find_spec `{!Allocator HP} (s : store (HP := HP)) l ms xs key fuel i :
  rep s l ms xs -> (length xs < fuel)%nat -> - 2 ^ 63 <= i < 2 ^ 63 ->
  listSearchKey fuel l key s =
    Ret (match list_find (fun x => node_matches ms x.2 key) xs with
         | Some (_, x) => x.1 | None => 0 end, s) /\
  listIndex l i s =
    (if decide (i = - 2 ^ 63) then Undef
     else Ret (match (if decide (0 <= i) then xs !! Z.to_nat i
                      else reverse xs !! Z.to_nat (- i - 1)) with
               | Some x => x.1 | None => 0 end, s)).
Proof.
  intros R F Hi. pose proof R as (L & _). split.
  - pose proof (listSearchKey_loop_run s l ms key [] xs fuel R F) as E.
    unfold listSearchKey, listRewind, mbind, ST_bind, deref_list. rewrite L. cbn [head mret ST_ret].
    unfold iter_at in E. rewrite E. f_equal. f_equal. clear.
    induction xs as [|x xs IH]; [done|]. cbn [search_key list_find].
    case_decide as Hd; destruct (node_matches ms x.2 key) eqn:M; try done.
    rewrite IH. by destruct (list_find _ xs) as [[]|].
  - unfold listIndex, mbind, ST_bind, deref_list. rewrite L. cbn [head tail].
    destruct (decide (i < 0)).
    + case_decide; [done|]. rewrite decide_False by lia.
      apply (listIndex_bwd_run s l ms xs [] _). by rewrite app_nil_r.
    + rewrite decide_False by lia. rewrite decide_True by lia.
      apply (listIndex_fwd_run s l ms [] xs). done.
Qed.

Lemma adlist_find_spec_witness :
  listSearchKey 4 1 9 sample' = Ret (3, sample') /\ listIndex 1 (-1) sample' = Ret (4, sample').
Proof.
  destruct (adlist_find_spec sample' 1 no_methods [(2, 7); (3, 9); (4, 7)] 9 4 (-1)
    sample'_rep ltac:(simpl; lia) ltac:(lia)) as [E1 E2].
  split; [exact E1 | exact E2].
Defined.

Lemma after_rotate_wf `{!Allocator HP} (s : store (HP := HP)) l ms ys x :
  wf s -> rep s l ms (ys ++ [x]) -> wf (after_rotate s l ms ys x).
Proof.
  intros W (L & _ & _ & Sg & _). eapply wf_dom; [| | | |exact W]; simpl; try done; intros a.
  - rewrite insert_is_Some_or, link_prev_is_Some, link_next_is_Some.
    split; [|auto]. intros [-> |]; [|done]. apply elem_of_dom.
    eapply seg_dom; [exact Sg|]. rewrite fmap_app. csimpl. apply elem_of_app. right.
    by apply list_elem_of_singleton.
  - rewrite insert_is_Some_or. split; [|auto]. intros [-> |]; eauto.
Qed.

Lemma after_rotate_same `{!Allocator HP} (s : store (HP := HP)) l ms ys x :
  same_but l (list_to_set (ys ++ [x]).*1) s (after_rotate s l ms ys x).
Proof.
  split; [|split]; simpl; [|intros; by rewrite lookup_insert_ne|done].
  intros a. rewrite elem_of_list_to_set, fmap_app. csimpl.
  rewrite not_elem_of_app, list_elem_of_singleton. intros (Hy & Hx).
  rewrite lookup_insert_ne by done.
  destruct (last_addr_in ys 0) as [E1 | E1]; destruct (first_addr_in ys 0) as [E2 | E2];
  rewrite ?E1, ?E2, ?link_prev_0, ?link_next_0; try done;
  rewrite ?lookup_link_prev_ne, ?lookup_link_next_ne by (by intros ->); done.
Qed.

Lemma after_join_wf `{!Allocator HP} (s : store (HP := HP)) l o ml mo xs ys :
  wf s -> rep s l ml xs -> rep s o mo ys -> wf (after_join s l o ml mo xs ys).
Proof.
  intros W (L & _) (O & _). eapply wf_dom; [| | | |exact W]; simpl; try done; intros a.
  - by rewrite link_next_is_Some, link_prev_is_Some.
  - rewrite !insert_is_Some_or. split; [|auto]. intros [-> | [-> |]]; eauto.
Qed.

(** [listRotate] moves the last element to the front and does nothing on
    lists of at most one; [listJoin(l, o)], on two different lists, leaves [l]
    with its elements followed by those of [o], and [o] empty but usable with
    its own methods; no memory is allocated or freed by either and nothing
    else changes. *)
Theorem adlist_rotate_join_refine `{!Allocator HP} (s : store (HP := HP)) l o ml mo xs ys :
  wf s -> rep s l ml xs -> rep s o mo ys -> l <> o -> xs.*1 ## ys.*1 ->
  Z.of_nat (length (xs ++ ys)) < 2 ^ 64 ->
  (exists s', listRotate l s = Ret (tt, s') /\ heap s' = heap s /\ wf s' /\ rep s' o mo ys /\
     rep s' l ml (match last xs with
                  | Some x => x :: take (length xs - 1) xs | None => [] end)) /\
  (exists s', listJoin l o s = Ret (tt, s') /\ heap s' = heap s /\ wf s' /\
     rep s' l ml (xs ++ ys) /\ rep s' o mo []).
Proof.
  intros W Rl Ro Hlo D LT. split.
  - destruct xs as [|x xs _] using rev_ind; [|destruct xs as [|y xs]].
    + exists s. destruct Rl as (L & Rl). unfold listRotate, mbind, ST_bind, deref_list.
      rewrite L. done.
    + exists s. destruct Rl as (L & Rl). unfold listRotate, mbind, ST_bind, deref_list.
      rewrite L. done.
    + rewrite last_snoc, length_app, Nat.add_sub, take_app_length. eexists.
      split; [by eapply listRotate_run|]. split; [done|].
      split; [by eapply after_rotate_wf|].
      split; [|by apply after_rotate_rep].
      eapply rep_frame; [by eapply after_rotate_same|congruence| |exact Ro].
      intros a. rewrite !elem_of_list_to_set. apply D.
  - eexists. split; [by eapply listJoin_run|]. split; [done|].
    split; [by eapply after_join_wf|]. by apply after_join_rep.
Qed.

(** Two lists: three nodes and one node. *)
Definition sample2 : store (HP := gset Z) :=
  Store ({[1; 2; 3; 4; 5; 6]} : gset Z)
    (<[2 := Node 0 3 7]> (<[3 := Node 2 4 9]> (<[6 := Node 0 0 1]> {[4 := Node 3 0 7]})))
    (<[5 := CList 6 6 no_methods 1]> {[1 := CList 2 4 no_methods 3]}) ∅ [].

Lemma sample2_wf : wf sample2.
Proof.
  apply wf_check; [| |reflexivity]; apply (bool_decide_unpack _); vm_compute; exact I.
Qed.

Lemma sample2_rep1 : rep sample2 1 no_methods [(2, 7); (3, 9); (4, 7)].
Proof.
  split_and!; [vm_compute; reflexivity | | | |vm_compute; reflexivity].
  - apply (bool_decide_unpack _); vm_compute; exact I.
  - apply (bool_decide_unpack _); vm_compute; exact I.
  - cbn. split_and!; vm_compute; reflexivity.
Qed.

Lemma sample2_rep5 : rep sample2 5 no_methods [(6, 1)].
Proof.
  split_and!; [vm_compute; reflexivity | | | |vm_compute; reflexivity].
  - apply (bool_decide_unpack _); vm_compute; exact I.
  - apply (bool_decide_unpack _); vm_compute; exact I.
  - cbn. split_and!; vm_compute; reflexivity.
Qed.

Lemma sample2_disjoint : [(2, 7); (3, 9); (4, 7)].*1 ## [(6, 1)].*1.
Proof. csimpl. intros a. rewrite !elem_of_cons. intros Ha Hb.
  destruct Ha as [-> |[-> |[-> |Ha]]], Hb as [Hb|Hb]; try discriminate; by apply elem_of_nil in Hb || apply elem_of_nil in Ha.
Qed.

Lemma adlist_rotate_join_refine_witness :
  exists s', listRotate 1 sample2 = Ret (tt, s') /\ rep s' 1 no_methods [(4, 7); (2, 7); (3, 9)].
Proof.
  destruct (adlist_rotate_join_refine sample2 1 5 no_methods no_methods
    [(2, 7); (3, 9); (4, 7)] [(6, 1)] sample2_wf sample2_rep1 sample2_rep5 ltac:(lia)
    sample2_disjoint ltac:(reflexivity)) as [(s' & E & _ & _ & _ & R) _].
  exists s'. split; [exact E | exact R].
Defined.

(** No leak and no double free: [listEmpty] frees exactly the nodes and
    leaves an empty usable list, and [listRelease] frees exactly the nodes and
    the header, calling the free method once on every value in order; every
    other object stays as it was. *)
Theorem adlist_release_spec `{!Allocator HP} (s : store (HP := HP)) l ms xs :
  wf s -> rep s l ms xs -> l <> 0 ->
  (exists s', listEmpty l s = Ret (tt, s') /\ wf s' /\ rep s' l ms [] /\
     a_live (heap s') = a_live (heap s) ∖ list_to_set xs.*1 /\
     freed s' = (if free ms then reverse xs.*2 else []) ++ freed s) /\
  (exists s', listRelease l s = Ret (tt, s') /\ wf s' /\
     a_live (heap s') = a_live (heap s) ∖ ({[l]} ∪ list_to_set xs.*1) /\
     freed s' = (if free ms then reverse xs.*2 else []) ++ freed s /\
     (forall a, a <> l -> a ∉ xs.*1 -> nodes s' !! a = nodes s !! a /\
        lists s' !! a = lists s !! a /\ iters s' !! a = iters s !! a)).
Proof.
  intros W R Hl. split; [|by eapply listRelease_run].
  destruct (listEmpty_run _ _ _ _ W R) as (s1 & E & R1 & W1 & Lv & Fr & _).
  exists s1. auto.
Qed.

Lemma adlist_release_spec_witness :
  exists s', listRelease 1 sample2 = Ret (tt, s') /\ a_live (heap s') = {[5; 6]}.
Proof.
  destruct (adlist_release_spec sample2 1 no_methods [(2, 7); (3, 9); (4, 7)]
    sample2_wf sample2_rep1 ltac:(lia)) as [_ (s' & E & _ & Lv & _)].
  exists s'. split; [exact E|]. rewrite Lv. vm_compute. reflexivity.
Defined.
