(* ===== verification/Aes.v ===== *)
(** * AES (src/src/aes.c, src/src/aes.h)

    The state, the round keys and the buffers are lists of bytes;
    the element [i][j] of the state is byte [4 * i + j] of the block, as the
    cast of [buf] to a pointer to [state_t] makes it.  The development is over the three key sizes the
    preprocessor selects; aes.h selects [AES128].  The reference is FIPS 197:
    multiplication in GF(2^8), the S-box as inversion followed by an affine
    map, the columns as a matrix product, the key schedule on words; and
    SP 800-38A for the three modes. *)

From Stdlib Require Import ZArith Lia Btauto.
From stdpp Require Import prelude gmap.
From S2P Require Import Prelude.

(** ** Data and tables *)

Inductive variant := AES128 | AES192 | AES256.

Definition Nb : nat := 4.
Definition Nk (v : variant) : nat := match v with AES128 => 4 | AES192 => 6 | AES256 => 8 end.
Definition Nr (v : variant) : nat := match v with AES128 => 10 | AES192 => 12 | AES256 => 14 end.

Definition AES_BLOCKLEN : nat := 16.
Definition AES_KEYLEN (v : variant) : nat :=
  match v with AES128 => 16 | AES192 => 24 | AES256 => 32 end.
Definition AES_keyExpSize (v : variant) : nat :=
  match v with AES128 => 176 | AES192 => 208 | AES256 => 240 end.

Record AES_ctx := Ctx { RoundKey : list Z; Iv : list Z }.

Definition sbox : list Z :=
  [0x63; 0x7c; 0x77; 0x7b; 0xf2; 0x6b; 0x6f; 0xc5; 0x30; 0x01; 0x67; 0x2b; 0xfe; 0xd7; 0xab; 0x76;
   0xca; 0x82; 0xc9; 0x7d; 0xfa; 0x59; 0x47; 0xf0; 0xad; 0xd4; 0xa2; 0xaf; 0x9c; 0xa4; 0x72; 0xc0;
   0xb7; 0xfd; 0x93; 0x26; 0x36; 0x3f; 0xf7; 0xcc; 0x34; 0xa5; 0xe5; 0xf1; 0x71; 0xd8; 0x31; 0x15;
   0x04; 0xc7; 0x23; 0xc3; 0x18; 0x96; 0x05; 0x9a; 0x07; 0x12; 0x80; 0xe2; 0xeb; 0x27; 0xb2; 0x75;
   0x09; 0x83; 0x2c; 0x1a; 0x1b; 0x6e; 0x5a; 0xa0; 0x52; 0x3b; 0xd6; 0xb3; 0x29; 0xe3; 0x2f; 0x84;
   0x53; 0xd1; 0x00; 0xed; 0x20; 0xfc; 0xb1; 0x5b; 0x6a; 0xcb; 0xbe; 0x39; 0x4a; 0x4c; 0x58; 0xcf;
   0xd0; 0xef; 0xaa; 0xfb; 0x43; 0x4d; 0x33; 0x85; 0x45; 0xf9; 0x02; 0x7f; 0x50; 0x3c; 0x9f; 0xa8;
   0x51; 0xa3; 0x40; 0x8f; 0x92; 0x9d; 0x38; 0xf5; 0xbc; 0xb6; 0xda; 0x21; 0x10; 0xff; 0xf3; 0xd2;
   0xcd; 0x0c; 0x13; 0xec; 0x5f; 0x97; 0x44; 0x17; 0xc4; 0xa7; 0x7e; 0x3d; 0x64; 0x5d; 0x19; 0x73;
   0x60; 0x81; 0x4f; 0xdc; 0x22; 0x2a; 0x90; 0x88; 0x46; 0xee; 0xb8; 0x14; 0xde; 0x5e; 0x0b; 0xdb;
   0xe0; 0x32; 0x3a; 0x0a; 0x49; 0x06; 0x24; 0x5c; 0xc2; 0xd3; 0xac; 0x62; 0x91; 0x95; 0xe4; 0x79;
   0xe7; 0xc8; 0x37; 0x6d; 0x8d; 0xd5; 0x4e; 0xa9; 0x6c; 0x56; 0xf4; 0xea; 0x65; 0x7a; 0xae; 0x08;
   0xba; 0x78; 0x25; 0x2e; 0x1c; 0xa6; 0xb4; 0xc6; 0xe8; 0xdd; 0x74; 0x1f; 0x4b; 0xbd; 0x8b; 0x8a;
   0x70; 0x3e; 0xb5; 0x66; 0x48; 0x03; 0xf6; 0x0e; 0x61; 0x35; 0x57; 0xb9; 0x86; 0xc1; 0x1d; 0x9e;
   0xe1; 0xf8; 0x98; 0x11; 0x69; 0xd9; 0x8e; 0x94; 0x9b; 0x1e; 0x87; 0xe9; 0xce; 0x55; 0x28; 0xdf;
   0x8c; 0xa1; 0x89; 0x0d; 0xbf; 0xe6; 0x42; 0x68; 0x41; 0x99; 0x2d; 0x0f; 0xb0; 0x54; 0xbb; 0x16].

Definition rsbox : list Z :=
  [0x52; 0x09; 0x6a; 0xd5; 0x30; 0x36; 0xa5; 0x38; 0xbf; 0x40; 0xa3; 0x9e; 0x81; 0xf3; 0xd7; 0xfb;
   0x7c; 0xe3; 0x39; 0x82; 0x9b; 0x2f; 0xff; 0x87; 0x34; 0x8e; 0x43; 0x44; 0xc4; 0xde; 0xe9; 0xcb;
   0x54; 0x7b; 0x94; 0x32; 0xa6; 0xc2; 0x23; 0x3d; 0xee; 0x4c; 0x95; 0x0b; 0x42; 0xfa; 0xc3; 0x4e;
   0x08; 0x2e; 0xa1; 0x66; 0x28; 0xd9; 0x24; 0xb2; 0x76; 0x5b; 0xa2; 0x49; 0x6d; 0x8b; 0xd1; 0x25;
   0x72; 0xf8; 0xf6; 0x64; 0x86; 0x68; 0x98; 0x16; 0xd4; 0xa4; 0x5c; 0xcc; 0x5d; 0x65; 0xb6; 0x92;
   0x6c; 0x70; 0x48; 0x50; 0xfd; 0xed; 0xb9; 0xda; 0x5e; 0x15; 0x46; 0x57; 0xa7; 0x8d; 0x9d; 0x84;
   0x90; 0xd8; 0xab; 0x00; 0x8c; 0xbc; 0xd3; 0x0a; 0xf7; 0xe4; 0x58; 0x05; 0xb8; 0xb3; 0x45; 0x06;
   0xd0; 0x2c; 0x1e; 0x8f; 0xca; 0x3f; 0x0f; 0x02; 0xc1; 0xaf; 0xbd; 0x03; 0x01; 0x13; 0x8a; 0x6b;
   0x3a; 0x91; 0x11; 0x41; 0x4f; 0x67; 0xdc; 0xea; 0x97; 0xf2; 0xcf; 0xce; 0xf0; 0xb4; 0xe6; 0x73;
   0x96; 0xac; 0x74; 0x22; 0xe7; 0xad; 0x35; 0x85; 0xe2; 0xf9; 0x37; 0xe8; 0x1c; 0x75; 0xdf; 0x6e;
   0x47; 0xf1; 0x1a; 0x71; 0x1d; 0x29; 0xc5; 0x89; 0x6f; 0xb7; 0x62; 0x0e; 0xaa; 0x18; 0xbe; 0x1b;
   0xfc; 0x56; 0x3e; 0x4b; 0xc6; 0xd2; 0x79; 0x20; 0x9a; 0xdb; 0xc0; 0xfe; 0x78; 0xcd; 0x5a; 0xf4;
   0x1f; 0xdd; 0xa8; 0x33; 0x88; 0x07; 0xc7; 0x31; 0xb1; 0x12; 0x10; 0x59; 0x27; 0x80; 0xec; 0x5f;
   0x60; 0x51; 0x7f; 0xa9; 0x19; 0xb5; 0x4a; 0x0d; 0x2d; 0xe5; 0x7a; 0x9f; 0x93; 0xc9; 0x9c; 0xef;
   0xa0; 0xe0; 0x3b; 0x4d; 0xae; 0x2a; 0xf5; 0xb0; 0xc8; 0xeb; 0xbb; 0x3c; 0x83; 0x53; 0x99; 0x61;
   0x17; 0x2b; 0x04; 0x7e; 0xba; 0x77; 0xd6; 0x26; 0xe1; 0x69; 0x14; 0x63; 0x55; 0x21; 0x0c; 0x7d].

Definition Rcon : list Z :=
  [0x8d; 0x01; 0x02; 0x04; 0x08; 0x10; 0x20; 0x40; 0x80; 0x1b; 0x36].

(** ** Key schedule *)

Definition getSBoxValue (num : Z) : Z := sbox !!! Z.to_nat num.
Definition getSBoxInvert (num : Z) : Z := rsbox !!! Z.to_nat num.

(** Subword(): the S-box on the four bytes of [tempa]. *)
Definition SubWord (tempa : list Z) : list Z := getSBoxValue <$> tempa.

(** RotWord(): [a0,a1,a2,a3] becomes [a1,a2,a3,a0]. *)
Definition RotWord (tempa : list Z) : list Z :=
  [tempa !!! 1; tempa !!! 2; tempa !!! 3; tempa !!! 0]%nat.

Section KeyExpansion.
Variable v : variant.

(** The body of the second loop, for the word [i]. *)
Definition KeyExpansion_step (i : nat) (RoundKey : list Z) : list Z :=
  let k := ((i - 1) * 4)%nat in
  let tempa := [RoundKey !!! (k + 0); RoundKey !!! (k + 1);
                RoundKey !!! (k + 2); RoundKey !!! (k + 3)]%nat in
  let tempa :=
    if decide (i mod Nk v = 0)%nat then
      let t := SubWord (RotWord tempa) in
      <[0%nat := Z.lxor (t !!! 0%nat) (Rcon !!! (i / Nk v)%nat)]> t
    else tempa in
  let tempa :=
    match v with
    | AES256 => if decide (i mod Nk v = 4)%nat then SubWord tempa else tempa
    | _ => tempa
    end in
  let j := (i * 4)%nat in
  let k := ((i - Nk v) * 4)%nat in
  for_up 4 0 (fun b rk => <[(j + b)%nat := Z.lxor (rk !!! (k + b)%nat) (tempa !!! b)]> rk) RoundKey.

(** [RoundKey] is the caller's array: its old contents are overwritten. *)
Definition KeyExpansion (RoundKey Key : list Z) : list Z :=
  let rk := for_up (Nk v) 0 (fun i rk =>
    for_up 4 0 (fun b rk => <[(i * 4 + b)%nat := Key !!! (i * 4 + b)%nat]> rk) rk) RoundKey in
  for_up (Nb * (Nr v + 1) - Nk v) (Nk v) KeyExpansion_step rk.

(** Reading a key shorter than [AES_KEYLEN] leaves the caller's buffer. *)
Definition AES_init_ctx (ctx : AES_ctx) (key : list Z) : outcome AES_ctx :=
  if decide (AES_KEYLEN v <= length key)%nat
  then Ret (Ctx (KeyExpansion (RoundKey ctx) key) (Iv ctx)) else Undef.

Definition AES_ctx_set_iv (ctx : AES_ctx) (iv : list Z) : outcome AES_ctx :=
  iv' ← of_option (peek iv 0 AES_BLOCKLEN); mret (Ctx (RoundKey ctx) iv').

Definition AES_init_ctx_iv (ctx : AES_ctx) (key iv : list Z) : outcome AES_ctx :=
  ctx' ← AES_init_ctx ctx key; AES_ctx_set_iv ctx' iv.

End KeyExpansion.

(** ** The rounds *)

Definition at_ (st : list Z) (i j : nat) : Z := st !!! (4 * i + j)%nat.
Definition set_at (i j : nat) (x : Z) (st : list Z) : list Z := <[(4 * i + j)%nat := x]> st.

(** [for (i..4) for (j..4) body]. *)
Definition for_4x4 {A} (body : nat -> nat -> A -> A) (a : A) : A :=
  for_up 4 0 (fun i => for_up 4 0 (fun j => body i j)) a.

Definition AddRoundKey (round : nat) (state RoundKey : list Z) : list Z :=
  for_4x4 (fun i j st =>
    set_at i j (Z.lxor (at_ st i j) (RoundKey !!! (round * Nb * 4 + i * Nb + j)%nat)) st) state.

Definition SubBytes (state : list Z) : list Z :=
  for_4x4 (fun i j st => set_at j i (getSBoxValue (at_ st j i)) st) state.

Definition ShiftRows (state : list Z) : list Z :=
  let temp := at_ state 0 1 in
  let state := set_at 0 1 (at_ state 1 1) state in
  let state := set_at 1 1 (at_ state 2 1) state in
  let state := set_at 2 1 (at_ state 3 1) state in
  let state := set_at 3 1 temp state in
  let temp := at_ state 0 2 in
  let state := set_at 0 2 (at_ state 2 2) state in
  let state := set_at 2 2 temp state in
  let temp := at_ state 1 2 in
  let state := set_at 1 2 (at_ state 3 2) state in
  let state := set_at 3 2 temp state in
  let temp := at_ state 0 3 in
  let state := set_at 0 3 (at_ state 3 3) state in
  let state := set_at 3 3 (at_ state 2 3) state in
  let state := set_at 2 3 (at_ state 1 3) state in
  set_at 1 3 temp state.

Definition xtime (x : Z) : Z :=
  u8 (Z.lxor (Z.shiftl x 1) (Z.land (Z.shiftr x 7) 1 * 0x1b)).

Definition MixColumns (state : list Z) : list Z :=
  for_up 4 0 (fun i st =>
    let t := at_ st i 0 in
    let Tmp := Z.lxor (Z.lxor (Z.lxor (at_ st i 0) (at_ st i 1)) (at_ st i 2)) (at_ st i 3) in
    let Tm := xtime (Z.lxor (at_ st i 0) (at_ st i 1)) in
    let st := set_at i 0 (Z.lxor (at_ st i 0) (Z.lxor Tm Tmp)) st in
    let Tm := xtime (Z.lxor (at_ st i 1) (at_ st i 2)) in
    let st := set_at i 1 (Z.lxor (at_ st i 1) (Z.lxor Tm Tmp)) st in
    let Tm := xtime (Z.lxor (at_ st i 2) (at_ st i 3)) in
    let st := set_at i 2 (Z.lxor (at_ st i 2) (Z.lxor Tm Tmp)) st in
    let Tm := xtime (Z.lxor (at_ st i 3) t) in
    set_at i 3 (Z.lxor (at_ st i 3) (Z.lxor Tm Tmp)) st) state.

Definition Multiply (x y : Z) : Z :=
  Z.lxor (Z.lxor (Z.lxor (Z.lxor
    (Z.land y 1 * x)
    (Z.land (Z.shiftr y 1) 1 * xtime x))
    (Z.land (Z.shiftr y 2) 1 * xtime (xtime x)))
    (Z.land (Z.shiftr y 3) 1 * xtime (xtime (xtime x))))
    (Z.land (Z.shiftr y 4) 1 * xtime (xtime (xtime (xtime x)))).

Definition InvMixColumns (state : list Z) : list Z :=
  for_up 4 0 (fun i st =>
    let a := at_ st i 0 in
    let b := at_ st i 1 in
    let c := at_ st i 2 in
    let d := at_ st i 3 in
    let x4 p q r s := Z.lxor (Z.lxor (Z.lxor (Multiply a p) (Multiply b q)) (Multiply c r)) (Multiply d s) in
    let st := set_at i 0 (x4 0x0e 0x0b 0x0d 0x09) st in
    let st := set_at i 1 (x4 0x09 0x0e 0x0b 0x0d) st in
    let st := set_at i 2 (x4 0x0d 0x09 0x0e 0x0b) st in
    set_at i 3 (x4 0x0b 0x0d 0x09 0x0e) st) state.

Definition InvSubBytes (state : list Z) : list Z :=
  for_4x4 (fun i j st => set_at j i (getSBoxInvert (at_ st j i)) st) state.

Definition InvShiftRows (state : list Z) : list Z :=
  let temp := at_ state 3 1 in
  let state := set_at 3 1 (at_ state 2 1) state in
  let state := set_at 2 1 (at_ state 1 1) state in
  let state := set_at 1 1 (at_ state 0 1) state in
  let state := set_at 0 1 temp state in
  let temp := at_ state 0 2 in
  let state := set_at 0 2 (at_ state 2 2) state in
  let state := set_at 2 2 temp state in
  let temp := at_ state 1 2 in
  let state := set_at 1 2 (at_ state 3 2) state in
  let state := set_at 3 2 temp state in
  let temp := at_ state 0 3 in
  let state := set_at 0 3 (at_ state 1 3) state in
  let state := set_at 1 3 (at_ state 2 3) state in
  let state := set_at 2 3 (at_ state 3 3) state in
  set_at 3 3 temp state.

Section Cipher.
Variable v : variant.

(** The loop [for (round = 1; ; ++round)], left when [round == Nr]; [left] is
    [Nr - round]. *)
Fixpoint Cipher_loop (round : nat) (state RoundKey : list Z) (left : nat) {struct left} : list Z :=
  let state := ShiftRows (SubBytes state) in
  match left with
  | O => state
  | S left' => Cipher_loop (S round) (AddRoundKey round (MixColumns state) RoundKey) RoundKey left'
  end.

Definition Cipher (state RoundKey : list Z) : list Z :=
  let state := AddRoundKey 0 state RoundKey in
  let state := Cipher_loop 1 state RoundKey (Nr v - 1) in
  AddRoundKey (Nr v) state RoundKey.

(** The loop [for (round = Nr - 1; ; --round)], left when [round == 0]. *)
Fixpoint InvCipher_loop (state RoundKey : list Z) (round : nat) {struct round} : list Z :=
  let state := AddRoundKey round (InvSubBytes (InvShiftRows state)) RoundKey in
  match round with
  | O => state
  | S round' => InvCipher_loop (InvMixColumns state) RoundKey round'
  end.

Definition InvCipher (state RoundKey : list Z) : list Z :=
  InvCipher_loop (AddRoundKey (Nr v) state RoundKey) RoundKey (Nr v - 1).

(** ** The public functions

    A function on a block at [off] of a buffer, with the read and the write
    inside the buffer. *)
Definition on_block (f : list Z -> list Z) (buf : list Z) (off : nat) : outcome (list Z) :=
  b ← of_option (peek buf off AES_BLOCKLEN); of_option (poke buf off (f b)).

Definition AES_ECB_encrypt (ctx : AES_ctx) (buf : list Z) : outcome (list Z) :=
  on_block (fun b => Cipher b (RoundKey ctx)) buf 0.

Definition AES_ECB_decrypt (ctx : AES_ctx) (buf : list Z) : outcome (list Z) :=
  on_block (fun b => InvCipher b (RoundKey ctx)) buf 0.

Definition XorWithIv (buf Iv : list Z) : list Z :=
  for_up AES_BLOCKLEN 0 (fun i b => <[i := Z.lxor (b !!! i) (Iv !!! i)]> b) buf.

(** The number of iterations of [for (i = 0; i < length; i += AES_BLOCKLEN)]. *)
Definition blocks_of (length : nat) : nat := ((length + 15) / 16)%nat.

(** The pointer [Iv] of the encryption: [ctx->Iv], or a block of the buffer. *)
Definition read_Iv (ctx : AES_ctx) (buf : list Z) (p : option nat) : outcome (list Z) :=
  match p with
  | None => mret (Iv ctx)
  | Some off => of_option (peek buf off AES_BLOCKLEN)
  end.

Fixpoint AES_CBC_encrypt_loop (n : nat) (ctx : AES_ctx) (p : option nat) (buf : list Z) (off : nat) :
    outcome (list Z * option nat) :=
  match n with
  | O => mret (buf, p)
  | S n' =>
      iv ← read_Iv ctx buf p;
      buf1 ← on_block (fun b => XorWithIv b iv) buf off;
      buf2 ← on_block (fun b => Cipher b (RoundKey ctx)) buf1 off;
      AES_CBC_encrypt_loop n' ctx (Some off) buf2 (off + AES_BLOCKLEN)
  end.

Definition AES_CBC_encrypt_buffer (ctx : AES_ctx) (buf : list Z) (length : nat) :
    outcome (AES_ctx * list Z) :=
  r ← AES_CBC_encrypt_loop (blocks_of length) ctx None buf 0;
  iv ← read_Iv ctx r.1 r.2;
  mret (Ctx (RoundKey ctx) iv, r.1).

Fixpoint AES_CBC_decrypt_loop (n : nat) (ctx : AES_ctx) (buf : list Z) (off : nat) :
    outcome (AES_ctx * list Z) :=
  match n with
  | O => mret (ctx, buf)
  | S n' =>
      storeNextIv ← of_option (peek buf off AES_BLOCKLEN);
      buf1 ← on_block (fun b => InvCipher b (RoundKey ctx)) buf off;
      buf2 ← on_block (fun b => XorWithIv b (Iv ctx)) buf1 off;
      AES_CBC_decrypt_loop n' (Ctx (RoundKey ctx) storeNextIv) buf2 (off + AES_BLOCKLEN)
  end.

Definition AES_CBC_decrypt_buffer (ctx : AES_ctx) (buf : list Z) (length : nat) :
    outcome (AES_ctx * list Z) :=
  AES_CBC_decrypt_loop (blocks_of length) ctx buf 0.

(** [for (bi = AES_BLOCKLEN - 1; bi >= 0; --bi)]: [n] is [bi + 1]. *)
Fixpoint increment_Iv (n : nat) (Iv : list Z) : list Z :=
  match n with
  | O => Iv
  | S bi =>
      if decide (Iv !!! bi = 255) then increment_Iv bi (<[bi := 0]> Iv)
      else <[bi := u8 (Iv !!! bi + 1)]> Iv
  end.

(** The loop of the counter mode, for [n] more bytes, with the local array
    [buffer] and its index [bi]. *)
Fixpoint AES_CTR_xcrypt_loop (n i : nat) (ctx : AES_ctx) (buffer : list Z) (bi : nat) (buf : list Z) :
    outcome (AES_ctx * list Z) :=
  match n with
  | O => mret (ctx, buf)
  | S n' =>
      let '(ctx, buffer, bi) :=
        if decide (bi = AES_BLOCKLEN) then
          (Ctx (RoundKey ctx) (increment_Iv AES_BLOCKLEN (Iv ctx)),
           Cipher (Iv ctx) (RoundKey ctx), O)
        else (ctx, buffer, bi) in
      x ← of_option (buf !! i);
      AES_CTR_xcrypt_loop n' (S i) ctx buffer (S bi) (<[i := Z.lxor x (buffer !!! bi)]> buf)
  end.

Definition AES_CTR_xcrypt_buffer (buffer0 : list Z) (ctx : AES_ctx) (buf : list Z) (length : nat) :
    outcome (AES_ctx * list Z) :=
  AES_CTR_xcrypt_loop length 0 ctx buffer0 AES_BLOCKLEN buf.

End Cipher.

(** ** XOR *)

(** An identity between XORs of the same atoms. *)
Ltac xor_solve := apply Z.bits_inj; intros ?n; rewrite ?Z.lxor_spec, ?Z.bits_0; btauto.

Lemma land_lxor a b c : Z.land (Z.lxor a b) c = Z.lxor (Z.land a c) (Z.land b c).
Proof. apply Z.bits_inj; intros n; rewrite ?Z.lxor_spec, ?Z.land_spec, ?Z.lxor_spec; btauto. Qed.

Lemma land_1 x : Z.land x 1 = Z.b2z (Z.testbit x 0).
Proof. change 1 with (Z.ones 1). rewrite Z.land_ones by lia. by rewrite Z.bit0_mod. Qed.

Lemma xtime_alt x :
  xtime x = Z.lxor (Z.land (Z.shiftl x 1) 255) (if Z.testbit x 7 then 0x1b else 0).
Proof.
  unfold xtime. rewrite land_1, Z.shiftr_spec by lia. unfold wrap.
  rewrite <- Z.land_ones, land_lxor by lia. change (0 + 7) with 7.
  by destruct (Z.testbit x 7).
Qed.

Lemma xtime_lxor x y : xtime (Z.lxor x y) = Z.lxor (xtime x) (xtime y).
Proof.
  rewrite !xtime_alt, Z.shiftl_lxor, land_lxor, Z.lxor_spec.
  destruct (Z.testbit x 7), (Z.testbit y 7); simpl; xor_solve.
Qed.

Lemma byte_xtime x : is_byte (xtime x).
Proof. apply byte_u8. Qed.

Ltac multiply :=
  unfold Multiply;
  repeat match goal with
  | |- context [Z.land ?a 1 * _] => let r := eval vm_compute in (Z.land a 1) in change (Z.land a 1) with r
  end;
  rewrite ?Z.mul_0_l, ?Z.mul_1_l, ?Z.lxor_0_l, ?Z.lxor_0_r.

Lemma Multiply_09 x : Multiply x 0x09 = Z.lxor x (xtime (xtime (xtime x))).
Proof. by multiply. Qed.
Lemma Multiply_0b x : Multiply x 0x0b = Z.lxor (Z.lxor x (xtime x)) (xtime (xtime (xtime x))).
Proof. by multiply. Qed.
Lemma Multiply_0d x : Multiply x 0x0d = Z.lxor (Z.lxor x (xtime (xtime x))) (xtime (xtime (xtime x))).
Proof. by multiply. Qed.
Lemma Multiply_0e x :
  Multiply x 0x0e = Z.lxor (Z.lxor (xtime x) (xtime (xtime x))) (xtime (xtime (xtime x))).
Proof. by multiply. Qed.

(** ** Blocks *)

Definition is_block (st : list Z) : Prop := length st = AES_BLOCKLEN /\ bytes st.

(** Name the 16 bytes of a block. *)
Ltac block st H :=
  let L := fresh "L" in
  assert (L : length st = 16%nat) by exact H;
  do 16 (destruct st as [|? st]; [discriminate L|]);
  destruct st; [|discriminate L]; clear L.

Definition xor_block (a b : list Z) : list Z := zip_with Z.lxor a b.

Definition round_key (r : nat) (rk : list Z) : list Z :=
  (fun i => rk !!! (r * 16 + i)%nat) <$> seq 0 16.

Lemma SubBytes_eq st : length st = AES_BLOCKLEN -> SubBytes st = getSBoxValue <$> st.
Proof. intros H. block st H. reflexivity. Qed.

Lemma InvSubBytes_eq st : length st = AES_BLOCKLEN -> InvSubBytes st = getSBoxInvert <$> st.
Proof. intros H. block st H. reflexivity. Qed.

Lemma for_4x4_xor (k : nat -> nat -> Z) st :
  length st = AES_BLOCKLEN ->
  for_4x4 (fun i j st => set_at i j (Z.lxor (at_ st i j) (k i j)) st) st =
  xor_block st (concat ((fun i => k i <$> seq 0 4) <$> seq 0 4)).
Proof. intros H. block st H. reflexivity. Qed.

Lemma AddRoundKey_eq r st rk :
  length st = AES_BLOCKLEN -> AddRoundKey r st rk = xor_block st (round_key r rk).
Proof.
  intros H. etrans; [by apply (for_4x4_xor (fun i j => rk !!! (r * Nb * 4 + i * Nb + j)%nat))|].
  f_equal. unfold round_key, Nb. csimpl. repeat (f_equal; [f_equal; lia|]).
  do 2 f_equal; lia.
Qed.

Lemma ShiftRows_eq st :
  length st = AES_BLOCKLEN ->
  ShiftRows st = (fun i => st !!! (5 * i mod 16)%nat) <$> seq 0 16.
Proof. intros H. block st H. reflexivity. Qed.

Lemma InvShiftRows_eq st :
  length st = AES_BLOCKLEN ->
  InvShiftRows st = (fun i => st !!! (13 * i mod 16)%nat) <$> seq 0 16.
Proof. intros H. block st H. reflexivity. Qed.

Lemma XorWithIv_eq b iv :
  length b = AES_BLOCKLEN -> length iv = AES_BLOCKLEN -> XorWithIv b iv = xor_block b iv.
Proof. intros H H'. block b H. block iv H'. reflexivity. Qed.

(** *** Blocks are preserved *)

Lemma round_key_length r rk : length (round_key r rk) = AES_BLOCKLEN.
Proof. done. Qed.

Lemma bytes_lookup_total l i : bytes l -> is_byte (l !!! i).
Proof.
  intros H. rewrite list_lookup_total_alt. destruct (l !! i) eqn:E; simpl; [|done].
  by eapply Forall_lookup_1 in H.
Qed.

Lemma round_key_bytes r rk : bytes rk -> bytes (round_key r rk).
Proof. intros H. apply Forall_fmap, Forall_true. intros i. by apply bytes_lookup_total. Qed.

Lemma xor_block_bytes a b : bytes a -> bytes b -> bytes (xor_block a b).
Proof.
  intros Ba. revert b. induction Ba as [|x a Hx Ba IH]; intros b Bb; [constructor|].
  destruct Bb as [|y b Hy Bb]; [constructor|]. constructor; [by apply byte_lxor | by apply IH].
Qed.

Lemma xor_block_is_block a b : is_block a -> is_block b -> is_block (xor_block a b).
Proof.
  intros [La Ba] [Lb Bb]. split; [unfold xor_block; by rewrite length_zip_with, La, Lb|].
  by apply xor_block_bytes.
Qed.

Lemma xor_block_cancel a b : length b = length a -> xor_block (xor_block a b) b = a.
Proof.
  revert b. induction a as [|x a IH]; intros [|y b] L; try done; simpl in *.
  rewrite Z.lxor_assoc, Z.lxor_nilpotent, Z.lxor_0_r. f_equal. apply IH. lia.
Qed.

Lemma AddRoundKey_block r st rk : is_block st -> bytes rk -> is_block (AddRoundKey r st rk).
Proof.
  intros H Hk. rewrite AddRoundKey_eq by apply H. apply xor_block_is_block; [done|].
  split; [done | by apply round_key_bytes].
Qed.

Lemma sbox_bytes x : is_byte (getSBoxValue x).
Proof.
  apply bytes_lookup_total. apply (bool_decide_unpack _). vm_compute. exact I.
Qed.

Lemma rsbox_bytes x : is_byte (getSBoxInvert x).
Proof.
  apply bytes_lookup_total. apply (bool_decide_unpack _). vm_compute. exact I.
Qed.

Lemma map_block (f : Z -> Z) st : length st = AES_BLOCKLEN -> (forall x, is_byte (f x)) -> is_block (f <$> st).
Proof. intros L H. split; [by rewrite length_fmap | by apply Forall_fmap, Forall_true]. Qed.

Lemma perm_block (f : nat -> nat) (st : list Z) :
  is_block st -> is_block ((fun i => st !!! f i) <$> seq 0 16).
Proof.
  intros [L B]. split; [done|]. apply Forall_fmap, Forall_true. intros i. by apply bytes_lookup_total.
Qed.

Lemma SubBytes_block st : is_block st -> is_block (SubBytes st).
Proof. intros [L B]. rewrite SubBytes_eq by done. apply map_block; [done | apply sbox_bytes]. Qed.

Lemma InvSubBytes_block st : is_block st -> is_block (InvSubBytes st).
Proof. intros [L B]. rewrite InvSubBytes_eq by done. apply map_block; [done | apply rsbox_bytes]. Qed.

Lemma ShiftRows_block st : is_block st -> is_block (ShiftRows st).
Proof. intros H. rewrite ShiftRows_eq by apply H. by apply perm_block. Qed.

Lemma InvShiftRows_block st : is_block st -> is_block (InvShiftRows st).
Proof. intros H. rewrite InvShiftRows_eq by apply H. by apply perm_block. Qed.

Lemma Multiply_byte x y : is_byte x -> y ∈ [0x09; 0x0b; 0x0d; 0x0e] -> is_byte (Multiply x y).
Proof.
  intros Hx Hy. rewrite !elem_of_cons in Hy.
  destruct Hy as [-> |[-> |[-> |[-> | Hy%elem_of_nil]]]]; [..|done];
    rewrite ?Multiply_09, ?Multiply_0b, ?Multiply_0d, ?Multiply_0e;
    repeat apply byte_lxor; apply byte_xtime || done.
Qed.

#[export] Hint Resolve byte_lxor byte_xtime : bytes.

(** A function on the four bytes of each column. *)
Definition on_columns (f : Z -> Z -> Z -> Z -> list Z) (st : list Z) : list Z :=
  concat ((fun i => f (st !!! (4 * i)%nat) (st !!! (4 * i + 1)%nat)
                      (st !!! (4 * i + 2)%nat) (st !!! (4 * i + 3)%nat)) <$> seq 0 4).

Definition mix_column (a b c d : Z) : list Z :=
  let Tmp := Z.lxor (Z.lxor (Z.lxor a b) c) d in
  [Z.lxor a (Z.lxor (xtime (Z.lxor a b)) Tmp);
   Z.lxor b (Z.lxor (xtime (Z.lxor b c)) Tmp);
   Z.lxor c (Z.lxor (xtime (Z.lxor c d)) Tmp);
   Z.lxor d (Z.lxor (xtime (Z.lxor d a)) Tmp)].

Definition inv_mix_column (a b c d : Z) : list Z :=
  let x4 p q r s := Z.lxor (Z.lxor (Z.lxor (Multiply a p) (Multiply b q)) (Multiply c r)) (Multiply d s) in
  [x4 0x0e 0x0b 0x0d 0x09; x4 0x09 0x0e 0x0b 0x0d; x4 0x0d 0x09 0x0e 0x0b; x4 0x0b 0x0d 0x09 0x0e].

Lemma MixColumns_eq st :
  length st = AES_BLOCKLEN -> MixColumns st = on_columns mix_column st.
Proof.
  intros H. block st H. with_strategy opaque [xtime Z.lxor] reflexivity.
Qed.

Lemma InvMixColumns_eq st :
  length st = AES_BLOCKLEN -> InvMixColumns st = on_columns inv_mix_column st.
Proof.
  intros H. block st H. with_strategy opaque [Multiply Z.lxor] reflexivity.
Qed.

Lemma on_columns_block f st :
  (forall a b c d, is_byte a -> is_byte b -> is_byte c -> is_byte d ->
     length (f a b c d) = 4%nat /\ bytes (f a b c d)) ->
  is_block st -> is_block (on_columns f st).
Proof.
  intros H [L B]. pose proof (fun i => bytes_lookup_total st i B) as Bs. unfold on_columns.
  csimpl. split.
  - rewrite !length_app. simpl length.
    rewrite !(fun a b c d => proj1 (H (st !!! a) (st !!! b) (st !!! c) (st !!! d) (Bs a) (Bs b) (Bs c) (Bs d))).
    done.
  - unfold bytes. rewrite !Forall_app. split_and!; [..|constructor]; by apply H.
Qed.

Lemma mix_column_block a b c d :
  is_byte a -> is_byte b -> is_byte c -> is_byte d ->
  length (mix_column a b c d) = 4%nat /\ bytes (mix_column a b c d).
Proof.
  intros. split; [done|]. unfold mix_column, bytes. rewrite !Forall_cons, Forall_nil.
  auto 20 with bytes.
Qed.

Lemma inv_mix_column_block a b c d :
  is_byte a -> is_byte b -> is_byte c -> is_byte d ->
  length (inv_mix_column a b c d) = 4%nat /\ bytes (inv_mix_column a b c d).
Proof.
  intros. split; [done|]. unfold inv_mix_column, bytes. rewrite !Forall_cons, Forall_nil.
  split_and!; try done;
    repeat match goal with |- fits 8 (Z.lxor _ _) => apply byte_lxor end; apply Multiply_byte; try done;
    apply (bool_decide_unpack _); vm_compute; exact I.
Qed.

Lemma MixColumns_block st : is_block st -> is_block (MixColumns st).
Proof. intros H. rewrite MixColumns_eq by apply H. by apply on_columns_block; [apply mix_column_block|]. Qed.

Lemma InvMixColumns_block st : is_block st -> is_block (InvMixColumns st).
Proof.
  intros H. rewrite InvMixColumns_eq by apply H. by apply on_columns_block; [apply inv_mix_column_block|].
Qed.

#[export] Hint Resolve AddRoundKey_block SubBytes_block InvSubBytes_block ShiftRows_block
  InvShiftRows_block MixColumns_block InvMixColumns_block : bytes.

(** *** Each step and its inverse *)

Lemma AddRoundKey_twice r st rk :
  length st = AES_BLOCKLEN -> AddRoundKey r (AddRoundKey r st rk) rk = st.
Proof.
  intros H. rewrite (AddRoundKey_eq r st) by done. rewrite AddRoundKey_eq.
  - by apply xor_block_cancel.
  - unfold xor_block. by rewrite length_zip_with, H.
Qed.

Lemma rsbox_sbox x : is_byte x -> getSBoxInvert (getSBoxValue x) = x.
Proof. intros H. by_bytes x. Qed.

Lemma sbox_rsbox x : is_byte x -> getSBoxValue (getSBoxInvert x) = x.
Proof. intros H. by_bytes x. Qed.

Lemma map_cancel (f g : Z -> Z) st : (forall x, is_byte x -> f (g x) = x) -> bytes st -> f <$> (g <$> st) = st.
Proof. intros H. induction 1; csimpl; [done|]. by rewrite H, IHForall. Qed.

Lemma InvSubBytes_SubBytes st : is_block st -> InvSubBytes (SubBytes st) = st.
Proof.
  intros H. rewrite InvSubBytes_eq by (apply SubBytes_block, H). rewrite SubBytes_eq by apply H.
  apply map_cancel; [apply rsbox_sbox | apply H].
Qed.

Lemma SubBytes_InvSubBytes st : is_block st -> SubBytes (InvSubBytes st) = st.
Proof.
  intros H. rewrite SubBytes_eq by (apply InvSubBytes_block, H). rewrite InvSubBytes_eq by apply H.
  apply map_cancel; [apply sbox_rsbox | apply H].
Qed.

Lemma InvShiftRows_ShiftRows st : length st = AES_BLOCKLEN -> InvShiftRows (ShiftRows st) = st.
Proof. intros H. block st H. reflexivity. Qed.

Lemma ShiftRows_InvShiftRows st : length st = AES_BLOCKLEN -> ShiftRows (InvShiftRows st) = st.
Proof. intros H. block st H. reflexivity. Qed.

Lemma inv_mix_mix a b c d :
  match mix_column a b c d with
  | [a'; b'; c'; d'] => inv_mix_column a' b' c' d'
  | _ => []
  end = [a; b; c; d].
Proof.
  unfold mix_column, inv_mix_column. rewrite !Multiply_09, !Multiply_0b, !Multiply_0d, !Multiply_0e, !xtime_lxor.
  f_equal; [|f_equal; [|f_equal; [|f_equal]]]; xor_solve.
Qed.

Lemma mix_inv_mix a b c d :
  match inv_mix_column a b c d with
  | [a'; b'; c'; d'] => mix_column a' b' c' d'
  | _ => []
  end = [a; b; c; d].
Proof.
  unfold mix_column, inv_mix_column. rewrite !Multiply_09, !Multiply_0b, !Multiply_0d, !Multiply_0e, !xtime_lxor.
  f_equal; [|f_equal; [|f_equal; [|f_equal]]]; xor_solve.
Qed.

Lemma on_columns_cancel (f g : Z -> Z -> Z -> Z -> list Z) st :
  (forall a b c d, match f a b c d with
                   | [a'; b'; c'; d'] => g a' b' c' d' | _ => [] end = [a; b; c; d]) ->
  length st = AES_BLOCKLEN -> on_columns g (on_columns f st) = st.
Proof.
  intros Hfg H. block st H. unfold on_columns at 2. csimpl.
  repeat match goal with |- context [f ?a ?b ?c ?d] =>
    let E := fresh "E" in pose proof (Hfg a b c d) as E;
    destruct (f a b c d) as [|? [|? [|? [|? [|]]]]]; try discriminate E end.
  unfold on_columns. csimpl. by rewrite E, E0, E1, E2.
Qed.

Lemma InvMixColumns_MixColumns st : length st = AES_BLOCKLEN -> InvMixColumns (MixColumns st) = st.
Proof.
  intros H. pose proof (on_columns_cancel mix_column inv_mix_column st inv_mix_mix H) as E.
  rewrite MixColumns_eq, InvMixColumns_eq; [done| |done].
  block st H. done.
Qed.

Lemma MixColumns_InvMixColumns st : length st = AES_BLOCKLEN -> MixColumns (InvMixColumns st) = st.
Proof.
  intros H. pose proof (on_columns_cancel inv_mix_column mix_column st mix_inv_mix H) as E.
  rewrite InvMixColumns_eq, MixColumns_eq; [done| |done].
  block st H. done.
Qed.

Lemma block_length st : is_block st -> length st = AES_BLOCKLEN.
Proof. by intros []. Qed.

#[export] Hint Resolve block_length : bytes.

Lemma InvRound st : is_block st -> InvSubBytes (InvShiftRows (ShiftRows (SubBytes st))) = st.
Proof.
  intros H. rewrite InvShiftRows_ShiftRows by auto with bytes. by apply InvSubBytes_SubBytes.
Qed.

Lemma Round st : is_block st -> ShiftRows (SubBytes (InvSubBytes (InvShiftRows st))) = st.
Proof.
  intros H. rewrite SubBytes_InvSubBytes by auto with bytes. apply ShiftRows_InvShiftRows, H.
Qed.

(** ** The cipher *)

#[global] Opaque AddRoundKey SubBytes ShiftRows MixColumns InvSubBytes InvShiftRows InvMixColumns.

Lemma Cipher_loop_0 r st rk : Cipher_loop r st rk 0 = ShiftRows (SubBytes st).
Proof. reflexivity. Qed.

Lemma Cipher_loop_S l r st rk :
  Cipher_loop r st rk (S l) =
  Cipher_loop (S r) (AddRoundKey r (MixColumns (ShiftRows (SubBytes st))) rk) rk l.
Proof. reflexivity. Qed.

Lemma InvCipher_loop_0 st rk :
  InvCipher_loop st rk 0 = AddRoundKey 0 (InvSubBytes (InvShiftRows st)) rk.
Proof. reflexivity. Qed.

Lemma InvCipher_loop_S r st rk :
  InvCipher_loop st rk (S r) =
  InvCipher_loop (InvMixColumns (AddRoundKey (S r) (InvSubBytes (InvShiftRows st)) rk)) rk r.
Proof. reflexivity. Qed.

Section CipherFacts.
Variable rk : list Z.
Hypothesis rk_bytes : bytes rk.

Lemma Cipher_loop_block left round st :
  is_block st -> is_block (Cipher_loop round st rk left).
Proof.
  revert round st. induction left as [|left IH]; intros round st H; rewrite ?Cipher_loop_0, ?Cipher_loop_S; auto 8 with bytes.
Qed.

Lemma InvCipher_loop_block round st : is_block st -> is_block (InvCipher_loop st rk round).
Proof.
  revert st. induction round as [|round IH]; intros st H; rewrite ?InvCipher_loop_0, ?InvCipher_loop_S; auto 8 with bytes.
Qed.

Lemma Cipher_block v st : is_block st -> is_block (Cipher v st rk).
Proof. intros H. apply AddRoundKey_block, rk_bytes. apply Cipher_loop_block. auto with bytes. Qed.

Lemma InvCipher_block v st : is_block st -> is_block (InvCipher v st rk).
Proof. intros H. apply InvCipher_loop_block. auto with bytes. Qed.

(** Running the inverse rounds on the result of the rounds undoes them. *)
Lemma InvCipher_Cipher_loop left r st :
  is_block st ->
  InvCipher_loop (Cipher_loop (S r) st rk left) rk (r + left) =
  InvCipher_loop (ShiftRows (SubBytes st)) rk r.
Proof.
  revert r st. induction left as [|left IH]; intros r st H; rewrite ?Cipher_loop_0, ?Cipher_loop_S.
  - by rewrite Nat.add_0_r.
  - rewrite <- Nat.add_succ_comm, IH by auto 8 with bytes. rewrite ?InvCipher_loop_0, ?InvCipher_loop_S.
    rewrite InvRound by auto 8 with bytes. rewrite AddRoundKey_twice by auto 8 with bytes.
    by rewrite InvMixColumns_MixColumns by auto 8 with bytes.
Qed.

Lemma InvCipher_Cipher v st : is_block st -> InvCipher v (Cipher v st rk) rk = st.
Proof.
  intros H. unfold InvCipher, Cipher.
  rewrite AddRoundKey_twice by (apply block_length, Cipher_loop_block; auto with bytes).
  rewrite (InvCipher_Cipher_loop (Nr v - 1) 0) by auto with bytes. rewrite ?InvCipher_loop_0, ?InvCipher_loop_S.
  rewrite InvRound by auto with bytes. apply AddRoundKey_twice, H.
Qed.

Lemma Cipher_InvCipher_loop r left st :
  is_block st ->
  Cipher_loop 1 (AddRoundKey 0 (InvCipher_loop st rk r) rk) rk (r + left) =
  Cipher_loop (S r) (InvSubBytes (InvShiftRows st)) rk left.
Proof.
  revert left st. induction r as [|r IH]; intros left st H; rewrite ?InvCipher_loop_0, ?InvCipher_loop_S.
  - by rewrite AddRoundKey_twice by auto 8 with bytes.
  - rewrite Nat.add_succ_comm, IH by auto 8 with bytes. rewrite ?Cipher_loop_0, ?Cipher_loop_S.
    rewrite Round by auto 8 with bytes. rewrite MixColumns_InvMixColumns by auto 8 with bytes.
    by rewrite AddRoundKey_twice by auto 8 with bytes.
Qed.

Lemma Cipher_InvCipher v st : is_block st -> Cipher v (InvCipher v st rk) rk = st.
Proof.
  intros H. unfold InvCipher, Cipher.
  pose proof (Cipher_InvCipher_loop (Nr v - 1) 0 (AddRoundKey (Nr v) st rk)) as E.
  rewrite Nat.add_0_r in E. rewrite E by auto with bytes.
  rewrite Cipher_loop_0, Round by auto with bytes.
  replace (S (Nr v - 1)) with (Nr v) by (by destruct v).
  by apply AddRoundKey_twice, block_length.
Qed.

End CipherFacts.

(** ** The standard (FIPS 197)

    Bytes as polynomials modulo x^8 + x^4 + x^3 + x + 1. *)

Definition gf_double (a : Z) : Z := if decide (128 <= a) then Z.lxor (2 * a) 0x11b else 2 * a.

Fixpoint gf_mul_loop (n : nat) (a b : Z) : Z :=
  match n with
  | O => 0
  | S n' => Z.lxor (if Z.testbit b 0 then a else 0) (gf_mul_loop n' (gf_double a) (Z.shiftr b 1))
  end.

Definition gf_mul (a b : Z) : Z := gf_mul_loop 8 a b.

(** The inverse, and [0] for [0]. *)
Definition gf_inv (a : Z) : Z :=
  default 0 (head (filter (fun b => gf_mul a b = 1) (seqZ 0 256))).

Definition affine (b : Z) : Z :=
  foldr (fun i acc =>
    Z.b2z (xorb (xorb (xorb (xorb (Z.testbit b i) (Z.testbit b ((i + 4) mod 8)))
      (Z.testbit b ((i + 5) mod 8))) (Z.testbit b ((i + 6) mod 8)))
      (xorb (Z.testbit b ((i + 7) mod 8)) (Z.testbit 0x63 i))) * 2 ^ i + acc) 0 (seqZ 0 8).

Definition fips_sbox (x : Z) : Z := affine (gf_inv x).

Definition fips_SubBytes (st : list Z) : list Z := fips_sbox <$> st.

(** Row [r] of column [c] comes from column [c + r]. *)
Definition fips_ShiftRows (st : list Z) : list Z :=
  (fun p => st !!! (4 * ((p / 4 + p mod 4) mod 4) + p mod 4)%nat) <$> seq 0 16.

(** The matrix with first row 02 03 01 01, each row rotated by one. *)
Definition fips_MixColumns (st : list Z) : list Z :=
  (fun p => let c := (p / 4)%nat in let r := (p mod 4)%nat in
     foldr Z.lxor 0 ((fun k => gf_mul ([2; 3; 1; 1] !!! ((k + 4 - r) mod 4)%nat)
                                 (st !!! (4 * c + k)%nat)) <$> seq 0 4)) <$> seq 0 16.

Definition fips_Rcon (i : nat) : list Z := [Nat.iter (i - 1) gf_double 1; 0; 0; 0].

(** The first [n] words of the key schedule. *)
Fixpoint fips_words (v : variant) (key : list Z) (n : nat) : list (list Z) :=
  match n with
  | O => []
  | S i =>
      let w := fips_words v key i in
      let temp := w !!! (i - 1)%nat in
      let temp :=
        if decide (i mod Nk v = 0)%nat
        then xor_block (fips_sbox <$> RotWord temp) (fips_Rcon (i / Nk v))
        else if decide (6 < Nk v /\ i mod Nk v = 4)%nat then fips_sbox <$> temp else temp in
      w ++ [if decide (i < Nk v)%nat then take 4 (drop (4 * i) key)
            else xor_block (w !!! (i - Nk v)%nat) temp]
  end.

Definition fips_round_key (v : variant) (key : list Z) (r : nat) : list Z :=
  concat ((fun c => fips_words v key (4 * (Nr v + 1)) !!! (4 * r + c)%nat) <$> seq 0 4).

Definition fips_cipher (v : variant) (key st : list Z) : list Z :=
  let st := xor_block st (fips_round_key v key 0) in
  let st := for_up (Nr v - 1) 1 (fun r st =>
    xor_block (fips_MixColumns (fips_ShiftRows (fips_SubBytes st))) (fips_round_key v key r)) st in
  xor_block (fips_ShiftRows (fips_SubBytes st)) (fips_round_key v key (Nr v)).

(** *** The steps are those of the standard *)

Lemma sbox_fips x : is_byte x -> getSBoxValue x = fips_sbox x.
Proof. intros H. by_bytes x. Qed.

Lemma map_sbox_fips st : bytes st -> getSBoxValue <$> st = fips_sbox <$> st.
Proof. induction 1; csimpl; [done|]. by rewrite sbox_fips, IHForall. Qed.

Lemma gf_mul_2 x : is_byte x -> gf_mul 2 x = xtime x.
Proof. intros H. by_bytes x. Qed.

Lemma gf_mul_3 x : is_byte x -> gf_mul 3 x = Z.lxor x (xtime x).
Proof. intros H. by_bytes x. Qed.

Lemma gf_mul_1 x : is_byte x -> gf_mul 1 x = x.
Proof. intros H. by_bytes x. Qed.

Lemma SubBytes_fips st : is_block st -> SubBytes st = fips_SubBytes st.
Proof. intros [L B]. rewrite SubBytes_eq by done. by apply map_sbox_fips. Qed.

Lemma ShiftRows_fips st : is_block st -> ShiftRows st = fips_ShiftRows st.
Proof. intros [L B]. rewrite ShiftRows_eq by done. reflexivity. Qed.

Lemma MixColumns_fips st : is_block st -> MixColumns st = fips_MixColumns st.
Proof.
  intros [L B]. rewrite MixColumns_eq by done. unfold fips_MixColumns, on_columns, mix_column.
  pose proof (fun i => bytes_lookup_total st i B) as Bs.
  with_strategy opaque [gf_mul xtime Z.lxor lookup_total] (cbn [fmap list_fmap seq concat app foldr]).
  repeat match goal with |- context [[2; 3; 1; 1] !!! ?n] =>
    let r := eval vm_compute in ([2; 3; 1; 1] !!! n) in change ([2; 3; 1; 1] !!! n) with r end.
  repeat match goal with |- context [st !!! ?n] =>
    let r := eval vm_compute in n in progress change (st !!! n) with (st !!! r) end.
  rewrite !gf_mul_1, !gf_mul_2, !gf_mul_3, !xtime_lxor by apply Bs.
  repeat (f_equal; [xor_solve|]). f_equal. xor_solve.
Qed.

(** *** The key schedule *)

(** Writing four bytes at [j] from four bytes below [j]. *)
Lemma write4 (g : nat -> Z -> Z) j k (rk : list Z) :
  (k + 4 <= j)%nat -> (j + 4 <= length rk)%nat ->
  let rk' := for_up 4 0 (fun b rk => <[(j + b)%nat := g b (rk !!! (k + b)%nat)]> rk) rk in
  length rk' = length rk /\
  (forall b, (b < 4)%nat -> rk' !!! (j + b)%nat = g b (rk !!! (k + b)%nat)) /\
  (forall p, (p < j)%nat -> rk' !!! p = rk !!! p).
Proof.
  intros Hk Hl. cbn [for_up]. split; [|split].
  - by rewrite !length_insert.
  - intros b Hb. assert (b = 0 \/ b = 1 \/ b = 2 \/ b = 3)%nat as [-> |[-> |[-> | ->]]] by lia;
      rewrite !list_insert_at, !length_insert; repeat (case_decide; [try lia|]); done || lia.
  - intros p Hp. by rewrite !list_lookup_total_insert_ne by lia.
Qed.

Lemma write4_const (g : nat -> Z) j (rk : list Z) :
  (j + 4 <= length rk)%nat ->
  let rk' := for_up 4 0 (fun b rk => <[(j + b)%nat := g b]> rk) rk in
  length rk' = length rk /\
  (forall b, (b < 4)%nat -> rk' !!! (j + b)%nat = g b) /\
  (forall p, (p < j)%nat -> rk' !!! p = rk !!! p).
Proof.
  intros Hl. cbn [for_up]. split; [|split].
  - by rewrite !length_insert.
  - intros b Hb. assert (b = 0 \/ b = 1 \/ b = 2 \/ b = 3)%nat as [-> |[-> |[-> | ->]]] by lia;
      rewrite !list_insert_at, !length_insert; repeat (case_decide; [try lia|]); done || lia.
  - intros p Hp. by rewrite !list_lookup_total_insert_ne by lia.
Qed.

Lemma fips_words_S v key i :
  fips_words v key (S i) =
  let w := fips_words v key i in
  let temp := w !!! (i - 1)%nat in
  w ++ [if decide (i < Nk v)%nat then take 4 (drop (4 * i) key)
        else xor_block (w !!! (i - Nk v)%nat)
          (if decide (i mod Nk v = 0)%nat
           then xor_block (fips_sbox <$> RotWord temp) (fips_Rcon (i / Nk v))
           else if decide (6 < Nk v /\ i mod Nk v = 4)%nat then fips_sbox <$> temp else temp)].
Proof. reflexivity. Qed.

Lemma fips_words_length v key n : length (fips_words v key n) = n.
Proof. induction n as [|n IH]; [done|]. rewrite fips_words_S, length_app, IH. simpl. lia. Qed.

Lemma fips_words_prefix v key n m : (m < n)%nat ->
  fips_words v key n !!! m = fips_words v key (S m) !!! m.
Proof.
  induction n as [|n IH]; intros Hm; [lia|].
  destruct (decide (m = n)) as [-> |]; [done|]. rewrite fips_words_S at 1.
  rewrite lookup_total_app_l by (rewrite fips_words_length; lia). apply IH. lia.
Qed.

Section KeySchedule.
Variable v : variant.
Variable key : list Z.
Hypothesis key_length : (AES_KEYLEN v <= length key)%nat.
Hypothesis key_bytes : bytes key.

Abbreviation word m := (fips_words v key (S m) !!! m).

Definition is_word (w : list Z) : Prop := length w = 4%nat /\ bytes w.

(** The recurrence of the standard. *)
Lemma word_eq i :
  word i = if decide (i < Nk v)%nat then take 4 (drop (4 * i) key)
           else xor_block (word (i - Nk v)%nat)
             (if decide (i mod Nk v = 0)%nat
              then xor_block (fips_sbox <$> RotWord (word (i - 1)%nat)) (fips_Rcon (i / Nk v))
              else if decide (6 < Nk v /\ i mod Nk v = 4)%nat
                   then fips_sbox <$> word (i - 1)%nat else word (i - 1)%nat).
Proof.
  rewrite fips_words_S at 1. rewrite lookup_total_app_r by (rewrite fips_words_length; lia).
  rewrite fips_words_length, Nat.sub_diag. cbn [lookup_total list_lookup_total].
  case_decide; [done|]. assert (0 < Nk v)%nat by (destruct v; simpl; lia).
  rewrite !(fips_words_prefix v key i) by lia. done.
Qed.

Lemma is_word_sub w : is_word w -> is_word (fips_sbox <$> w).
Proof.
  intros [L B]. split; [by rewrite length_fmap|]. rewrite <- map_sbox_fips by done.
  apply Forall_fmap, Forall_true. intros x. apply sbox_bytes.
Qed.

Lemma is_word_rot w : is_word w -> is_word (RotWord w).
Proof.
  intros [L B]. split; [done|]. unfold RotWord, bytes.
  rewrite !Forall_cons, Forall_nil. split_and!; try done; by apply bytes_lookup_total.
Qed.

Lemma is_word_xor a b : is_word a -> is_word b -> is_word (xor_block a b).
Proof.
  intros [La Ba] [Lb Bb]. split; [unfold xor_block; by rewrite length_zip_with, La, Lb|].
  by apply xor_block_bytes.
Qed.

(** The constants of the table are the powers of {02}. *)
Lemma Rcon_fips q : (1 <= q <= 10)%nat ->
  fips_Rcon q = [Rcon !!! q; 0; 0; 0] /\ is_byte (Rcon !!! q).
Proof.
  intros Hq. do 11 (destruct q as [|q]; [lia || (split; [reflexivity|done])|]). lia.
Qed.

Lemma quotient_range i : (Nk v <= i < Nb * (Nr v + 1))%nat -> (1 <= i / Nk v <= 10)%nat.
Proof.
  intros Hi. split.
  - apply Nat.div_le_lower_bound; destruct v; simpl in *; lia.
  - enough (i / Nk v < 11)%nat by lia. apply Nat.Div0.div_lt_upper_bound. destruct v; simpl in *; lia.
Qed.

Lemma KEYLEN : AES_KEYLEN v = (4 * Nk v)%nat.
Proof. by destruct v. Qed.

Lemma word_is_word m : (m < Nb * (Nr v + 1))%nat -> is_word (word m).
Proof.
  induction m as [m IH] using lt_wf_ind. intros Hm. rewrite word_eq.
  assert (0 < Nk v)%nat by (destruct v; simpl; lia). case_decide.
  - split; [|by apply Forall_take, Forall_drop]. rewrite length_take, length_drop. rewrite KEYLEN in key_length. lia.
  - apply is_word_xor; [apply IH; lia|]. assert (is_word (word (m - 1)%nat)) by (apply IH; lia).
    case_decide.
    + apply is_word_xor; [by apply is_word_sub, is_word_rot|].
      destruct (Rcon_fips (m / Nk v)) as [-> ?]; [apply quotient_range; lia|].
      split; [done|]. unfold bytes. rewrite !Forall_cons. split_and!; done.
    + case_decide; [by apply is_word_sub | done].
Qed.

(** After [i] words the array holds the first [i] words. *)
Definition expanded (i : nat) (rk : list Z) : Prop :=
  length rk = AES_keyExpSize v /\
  forall m b, (m < i)%nat -> (b < 4)%nat -> rk !!! (m * 4 + b)%nat = word m !!! b.

Lemma expSize : AES_keyExpSize v = (16 * (Nr v + 1))%nat.
Proof. by destruct v. Qed.

Lemma word_list (w : list Z) : length w = 4%nat -> w = [w !!! 0; w !!! 1; w !!! 2; w !!! 3]%nat.
Proof. by destruct w as [|? [|? [|? [|? [|]]]]]. Qed.

Lemma expanded_word i m rk : expanded i rk -> (m < i)%nat -> (m < Nb * (Nr v + 1))%nat ->
  [rk !!! (m * 4 + 0); rk !!! (m * 4 + 1); rk !!! (m * 4 + 2); rk !!! (m * 4 + 3)]%nat = word m.
Proof.
  intros [_ E] Hm Hm'. rewrite !E by lia. symmetry. apply word_list. by apply word_is_word.
Qed.

(** The three ways [tempa] is computed. *)
Definition step_temp (i : nat) (w : list Z) : list Z :=
  let tempa :=
    if decide (i mod Nk v = 0)%nat then
      let t := SubWord (RotWord w) in
      <[0%nat := Z.lxor (t !!! 0%nat) (Rcon !!! (i / Nk v)%nat)]> t
    else w in
  match v with
  | AES256 => if decide (i mod Nk v = 4)%nat then SubWord tempa else tempa
  | _ => tempa
  end.

Lemma rot_sub_Rcon w r :
  bytes w ->
  <[0%nat := Z.lxor (SubWord (RotWord w) !!! 0%nat) r]> (SubWord (RotWord w)) =
  xor_block (fips_sbox <$> RotWord w) [r; 0; 0; 0].
Proof.
  intros B. unfold SubWord. rewrite map_sbox_fips.
  - unfold RotWord. csimpl. unfold xor_block. cbn [zip_with]. by rewrite !Z.lxor_0_r.
  - unfold RotWord, bytes. rewrite !Forall_cons, Forall_nil.
    split_and!; try done; by apply bytes_lookup_total.
Qed.

Lemma step_temp_fips i : (Nk v <= i < Nb * (Nr v + 1))%nat ->
  step_temp i (word (i - 1)%nat) =
  if decide (i mod Nk v = 0)%nat
  then xor_block (fips_sbox <$> RotWord (word (i - 1)%nat)) (fips_Rcon (i / Nk v))
  else if decide (6 < Nk v /\ i mod Nk v = 4)%nat
       then fips_sbox <$> word (i - 1)%nat else word (i - 1)%nat.
Proof.
  intros Hi. unfold step_temp. assert (0 < Nk v)%nat by (destruct v; simpl; lia).
  destruct (word_is_word (i - 1)) as [L B]; [lia|].
  destruct (decide (i mod Nk v = 0)%nat) as [E0 | E0].
  - rewrite rot_sub_Rcon by done. destruct (Rcon_fips (i / Nk v)) as [-> _]; [by apply quotient_range|].
    destruct v; try done. by rewrite E0.
  - unfold SubWord. rewrite map_sbox_fips by done. destruct v; simpl Nk in *.
    + by rewrite (decide_False (P := (6 < 4 /\ _)%nat)) by lia.
    + by rewrite (decide_False (P := (6 < 6 /\ _)%nat)) by lia.
    + repeat case_decide; done || lia.
Qed.

Lemma xor_block_lookup (a b : list Z) (i : nat) :
  length a = length b -> (i < length a)%nat ->
  xor_block a b !!! i = Z.lxor (a !!! i) (b !!! i).
Proof.
  revert b i. induction a as [|x a IH]; intros [|y b] i E Hi; simpl in Hi; try done || lia.
  destruct i as [|i]; [done|]. injection E as E. apply (IH b i E). lia.
Qed.

Lemma KeyExpansion_step_expanded i rk :
  (Nk v <= i < Nb * (Nr v + 1))%nat -> expanded i rk -> expanded (S i) (KeyExpansion_step v i rk).
Proof.
  intros Hi E. pose proof E as [L Ew]. assert (0 < Nk v)%nat by (destruct v; simpl; lia).
  unfold KeyExpansion_step. rewrite (expanded_word i (i - 1) rk E) by lia. cbv zeta.
  change (expanded (S i) (for_up 4 0 (fun b rk0 =>
    <[(i * 4 + b)%nat := Z.lxor (rk0 !!! ((i - Nk v) * 4 + b)%nat)
        (step_temp i (word (i - 1)%nat) !!! b)]> rk0) rk)).
  pose proof (word_eq i) as Wi. rewrite (decide_False (P := (i < Nk v)%nat)) in Wi by lia.
  rewrite <- step_temp_fips in Wi by lia.
  assert (Lt : length (step_temp i (word (i - 1)%nat)) = 4%nat).
  { pose proof (word_is_word i ltac:(lia)) as [Lw _]. rewrite Wi in Lw.
    unfold xor_block in Lw. rewrite length_zip_with in Lw.
    destruct (word_is_word (i - 1)) as [L1 _]; [lia|]. rewrite step_temp_fips by lia.
    repeat case_decide; unfold xor_block; rewrite ?length_zip_with, ?length_fmap; done. }
  set (temp := step_temp i _) in *. clearbody temp.
  destruct (write4 (fun b x => Z.lxor x (temp !!! b)) (i * 4) ((i - Nk v) * 4) rk) as (L' & Ej & Ep);
    [lia | rewrite L, expSize; unfold Nb in *; lia|]. cbv zeta in *.
  split; [by rewrite L'|]. intros m b Hm Hb. destruct (decide (m = i)) as [-> |].
  - rewrite Ej, Ew, Wi by lia. destruct (word_is_word (i - Nk v)) as [Lw _]; [lia|].
    rewrite xor_block_lookup; [done| |]; rewrite Lw; [by rewrite Lt | done].
  - rewrite Ep by lia. apply Ew; lia.
Qed.

Lemma KeyExpansion_first rk :
  length rk = AES_keyExpSize v ->
  expanded (Nk v) (for_up (Nk v) 0 (fun i rk =>
    for_up 4 0 (fun b rk => <[(i * 4 + b)%nat := key !!! (i * 4 + b)%nat]> rk) rk) rk).
Proof.
  intros L. apply (for_up_ind expanded (Nk v) 0); [split; [done|lia]|].
  intros i rk' Hi [L' Ew].
  destruct (write4_const (fun b => key !!! (i * 4 + b)%nat) (i * 4) rk') as (Ls & Ej & Ep);
    [rewrite L', expSize; destruct v; simpl in *; lia|]. cbv zeta in *.
  split; [by rewrite Ls|]. intros m b Hm Hb. destruct (decide (m = i)) as [-> |].
  - rewrite Ej, word_eq, decide_True by lia.
    rewrite (lookup_total_take_lt _ 4 b Hb), lookup_total_drop. f_equal. lia.
  - rewrite Ep by lia. apply Ew; lia.
Qed.

Lemma KeyExpansion_expanded rk :
  length rk = AES_keyExpSize v -> expanded (Nb * (Nr v + 1)) (KeyExpansion v rk key).
Proof.
  intros L. unfold KeyExpansion.
  replace (Nb * (Nr v + 1))%nat with (Nk v + (Nb * (Nr v + 1) - Nk v))%nat at 1
    by (destruct v; simpl; lia).
  apply (for_up_ind expanded); [by apply KeyExpansion_first|].
  intros i rk' Hi E. apply KeyExpansion_step_expanded; [|done]. destruct v; simpl in *; lia.
Qed.

Lemma KeyExpansion_round_key rk r :
  length rk = AES_keyExpSize v -> (r <= Nr v)%nat ->
  round_key r (KeyExpansion v rk key) = fips_round_key v key r.
Proof.
  intros L Hr. destruct (KeyExpansion_expanded rk L) as [_ E].
  unfold fips_round_key, round_key. csimpl.
  assert (Hw : forall c, (c < 4)%nat ->
    fips_words v key (4 * (Nr v + 1)) !!! (4 * r + c)%nat =
    (fun b => KeyExpansion v rk key !!! (r * 16 + (4 * c + b))%nat) <$> seq 0 4).
  { intros c Hc. rewrite fips_words_prefix by lia.
    rewrite (word_list (word (4 * r + c)%nat)) by (apply word_is_word; unfold Nb; lia).
    cbn [seq fmap list_fmap].
    rewrite <- !E by (unfold Nb; lia). repeat (f_equal; [f_equal; lia|]). do 2 f_equal; lia. }
  rewrite !Hw by lia. reflexivity.
Qed.

Lemma KeyExpansion_bytes rk : length rk = AES_keyExpSize v -> bytes (KeyExpansion v rk key).
Proof.
  intros L. destruct (KeyExpansion_expanded rk L) as [L' E]. apply Forall_lookup_2.
  intros p x Hx. pose proof (lookup_lt_Some _ _ _ Hx) as Hp.
  rewrite L', expSize in Hp. apply list_lookup_total_correct in Hx. subst x.
  rewrite (Nat.div_mod_eq p 4), Nat.mul_comm.
  pose proof (Nat.mod_upper_bound p 4 ltac:(lia)). pose proof (Nat.div_lt_upper_bound p 4 (4 * (Nr v + 1)) ltac:(lia) ltac:(lia)).
  rewrite E by (unfold Nb; lia). apply bytes_lookup_total. apply word_is_word. unfold Nb; lia.
Qed.

(** *** The whole cipher *)

Lemma Cipher_loop_fips left r st rk :
  length rk = AES_keyExpSize v -> (r + left = Nr v)%nat -> is_block st ->
  Cipher_loop r st (KeyExpansion v rk key) left =
  fips_ShiftRows (fips_SubBytes (for_up left r (fun r st =>
    xor_block (fips_MixColumns (fips_ShiftRows (fips_SubBytes st))) (fips_round_key v key r)) st)).
Proof.
  intros L. pose proof (KeyExpansion_bytes rk L) as B.
  revert r st. induction left as [|left IH]; intros r st Hr H.
  - rewrite Cipher_loop_0. cbn [for_up]. rewrite ShiftRows_fips, SubBytes_fips by auto with bytes. done.
  - rewrite Cipher_loop_S, IH by (auto 8 with bytes || lia). cbn [for_up].
    rewrite AddRoundKey_eq, KeyExpansion_round_key by (auto 8 with bytes || lia).
    by rewrite MixColumns_fips, ShiftRows_fips, SubBytes_fips by auto 8 with bytes.
Qed.

Lemma Cipher_fips rk st :
  length rk = AES_keyExpSize v -> is_block st ->
  Cipher v st (KeyExpansion v rk key) = fips_cipher v key st.
Proof.
  intros L H. pose proof (KeyExpansion_bytes rk L) as B. unfold Cipher, fips_cipher.
  rewrite AddRoundKey_eq by (apply block_length, Cipher_loop_block; auto with bytes).
  rewrite KeyExpansion_round_key, Cipher_loop_fips by (done || auto with bytes || destruct v; simpl; lia).
  rewrite AddRoundKey_eq, KeyExpansion_round_key by (apply H || done || lia). done.
Qed.

End KeySchedule.

(** ** The modes (SP 800-38A) *)

Lemma on_block_app f pre b post off :
  length pre = off -> length b = AES_BLOCKLEN -> length (f b) = AES_BLOCKLEN ->
  on_block f (pre ++ b ++ post) off = Ret (pre ++ f b ++ post).
Proof.
  intros <- Lb Lf. unfold on_block, peek, poke. rewrite !length_app, Lb.
  rewrite decide_True by (unfold AES_BLOCKLEN; lia). cbn [of_option mbind outcome_bind].
  rewrite drop_app_length, take_app_length', Lf by done.
  rewrite decide_True by (unfold AES_BLOCKLEN; lia). cbn [of_option].
  rewrite take_app_length. do 3 f_equal.
  rewrite app_assoc, drop_app_length'; [done|]. by rewrite length_app, Lb.
Qed.

Lemma on_block_head f b r :
  length b = AES_BLOCKLEN -> length (f b) = AES_BLOCKLEN -> on_block f (b ++ r) 0 = Ret (f b ++ r).
Proof. intros. by apply (on_block_app f [] b r 0). Qed.

Lemma peek_app pre b post off n :
  length pre = off -> length b = n -> peek (pre ++ b ++ post) off n = Some b.
Proof.
  intros <- <-. unfold peek. rewrite !length_app, decide_True by lia.
  by rewrite drop_app_length, take_app_length.
Qed.

(** *** CBC *)

(** Cipher block chaining over a block function [E]. *)
Fixpoint cbc (E : list Z -> list Z) (iv : list Z) (bs : list (list Z)) : list (list Z) :=
  match bs with
  | [] => []
  | b :: bs' => let c := E (xor_block b iv) in c :: cbc E c bs'
  end.

Section Modes.
Variable v : variant.
Variable rk : list Z.
Hypothesis rk_bytes : bytes rk.

Abbreviation E := (fun b => Cipher v b rk).

Lemma cbc_block iv bs : is_block iv -> Forall is_block bs -> Forall is_block (cbc E iv bs).
Proof.
  intros Hiv H. revert iv Hiv. induction H as [|b bs Hb H IH]; intros iv Hiv; simpl; [constructor|].
  assert (is_block (E (xor_block b iv))) by (apply Cipher_block, xor_block_is_block; done).
  constructor; [done|]. by apply IH.
Qed.

(** The encryption loop with the pointer [p] at the value [iv]. *)
Lemma cbc_encrypt_loop iv0 p iv pre bs post :
  read_Iv (Ctx rk iv0) pre p = Ret iv -> is_block iv -> Forall is_block bs ->
  exists p', AES_CBC_encrypt_loop v (length bs) (Ctx rk iv0) p (pre ++ concat bs ++ post) (length pre) =
      Ret (pre ++ concat (cbc E iv bs) ++ post, p') /\
    read_Iv (Ctx rk iv0) (pre ++ concat (cbc E iv bs) ++ post) p' =
      Ret (default iv (last (cbc E iv bs))).
Proof.
  intros Hp Hiv H. revert p iv pre Hp Hiv. induction H as [|b bs Hb H IH]; intros p iv pre Hp Hiv.
  - exists p. split; [done|]. destruct p as [off|]; simpl in *; [|done].
    unfold peek in *. case_decide; [|done]. rewrite decide_True by (rewrite length_app; lia).
    simpl in *. injection Hp as <-. f_equal. rewrite drop_app_le, take_app_le; rewrite ?length_drop; lia || done.
  - assert (Hp' : forall post', read_Iv (Ctx rk iv0) (pre ++ post') p = Ret iv).
    { intros post'. destruct p as [off|]; simpl in *; [|done].
      unfold peek in *. case_decide; [|done]. rewrite decide_True by (rewrite length_app; lia).
      simpl in *. injection Hp as <-. f_equal. rewrite drop_app_le, take_app_le; rewrite ?length_drop; lia || done. }
    set (x := xor_block b iv). assert (Hx : is_block x) by by apply xor_block_is_block.
    assert (Hc : is_block (E x)) by by apply Cipher_block.
    cbn [length AES_CBC_encrypt_loop concat cbc]. fold x. rewrite <- !app_assoc. rewrite Hp'.
    cbn [mbind outcome_bind].
    assert (Ex : XorWithIv b iv = x) by (apply XorWithIv_eq; [apply Hb | apply Hiv]).
    rewrite on_block_app; [|done|apply Hb|rewrite Ex; apply Hx]. cbn [mbind outcome_bind RoundKey].
    rewrite Ex, on_block_app; [|done|apply Hx|apply Hc]. cbn [mbind outcome_bind].
    destruct (IH (Some (length pre)) (E x) (pre ++ E x)) as (p' & E1 & E2); [|done|].
    { simpl. rewrite <- (app_nil_r (E x)) at 1. rewrite peek_app; [done|done|apply Hc]. }
    exists p'. rewrite length_app in E1. destruct Hc as [Lc _]. rewrite Lc, <- app_assoc in E1.
    rewrite <- app_assoc in E1, E2. split; [done|]. rewrite E2. f_equal.
    rewrite last_cons. by destruct (last (cbc E (E x) bs)).
Qed.

Lemma cbc_decrypt_loop iv pre bs post :
  is_block iv -> Forall is_block bs ->
  AES_CBC_decrypt_loop v (length bs) (Ctx rk iv) (pre ++ concat (cbc E iv bs) ++ post) (length pre) =
  Ret (Ctx rk (default iv (last (cbc E iv bs))), pre ++ concat bs ++ post).
Proof.
  intros Hiv H. revert iv pre Hiv. induction H as [|b bs Hb H IH]; intros iv pre Hiv; [done|].
  set (x := xor_block b iv). assert (Hx : is_block x) by by apply xor_block_is_block.
  assert (Hc : is_block (E x)) by by apply Cipher_block.
  cbn [length AES_CBC_decrypt_loop concat cbc]. fold x. rewrite <- !app_assoc.
  rewrite peek_app; [|done|apply Hc]. cbn [of_option mbind outcome_bind RoundKey Iv].
  assert (Ed : InvCipher v (E x) rk = x) by by apply InvCipher_Cipher.
  rewrite on_block_app; [|done|apply Hc|rewrite Ed; apply Hx]. rewrite Ed. cbn [mbind outcome_bind].
  assert (Ex : XorWithIv x iv = b).
  { rewrite XorWithIv_eq; [|apply Hx|apply Hiv]. apply xor_block_cancel.
    destruct Hb as [-> _], Hiv as [-> _]. done. }
  rewrite on_block_app; [|done|apply Hx|rewrite Ex; apply Hb]. rewrite Ex. cbn [mbind outcome_bind].
  specialize (IH (E x) (pre ++ b) Hc). rewrite length_app in IH. destruct Hb as [Lb _].
  rewrite Lb, <- !app_assoc in IH. rewrite IH. do 3 f_equal.
  rewrite last_cons. by destruct (last (cbc E (E x) bs)).
Qed.

End Modes.

(** *** CTR *)

(** Big-endian numbers. *)
Fixpoint be_loop (acc : Z) (l : list Z) : Z :=
  match l with [] => acc | x :: l' => be_loop (256 * acc + x) l' end.

Definition be (l : list Z) : Z := be_loop 0 l.

Definition to_be (n : nat) (x : Z) : list Z :=
  (fun i => (x / 256 ^ Z.of_nat (n - 1 - i)) mod 256) <$> seq 0 n.

Lemma be_snoc l x : be (l ++ [x]) = 256 * be l + x.
Proof.
  unfold be. generalize 0. induction l as [|y l IH]; intros acc; simpl; [done|]. apply IH.
Qed.

Lemma be_range l : bytes l -> 0 <= be l < 256 ^ Z.of_nat (length l).
Proof.
  intros H. induction l as [|x l IH] using rev_ind; [done|].
  apply Forall_app in H as [H [Hx _]%Forall_cons]. rewrite be_snoc, length_app.
  specialize (IH H). change (0 <= x < 256) in Hx. simpl length.
  rewrite Nat2Z.inj_add, Z.pow_add_r by lia. simpl (256 ^ Z.of_nat 1). lia.
Qed.

Lemma to_be_S n x : 0 <= x -> to_be (S n) x = to_be n (x / 256) ++ [x mod 256].
Proof.
  intros Hx. unfold to_be. rewrite seq_S, fmap_app. f_equal.
  - apply list_fmap_ext. intros i y Hi. apply lookup_seq in Hi as [-> Hi]. simpl in *.
    replace (n - 0 - i)%nat with (S (n - 1 - i))%nat by lia.
    rewrite Nat2Z.inj_succ, Z.pow_succ_r by lia. by rewrite Z.div_div by lia.
  - csimpl. replace (n - 0 - n)%nat with O by lia. by rewrite Z.div_1_r.
Qed.

Lemma to_be_be l : bytes l -> to_be (length l) (be l) = l.
Proof.
  intros H. induction l as [|x l IH] using rev_ind; [done|].
  apply Forall_app in H as [H [Hx _]%Forall_cons]. pose proof (be_range _ H).
  change (0 <= x < 256) in Hx.
  rewrite length_app, Nat.add_comm, be_snoc. cbn [length Nat.add]. rewrite to_be_S by lia.
  rewrite Z.mul_comm, Z.add_comm, Z.div_add, Z.mod_add by lia.
  rewrite Z.div_small, Z.mod_small, Z.add_0_l by lia. by rewrite IH.
Qed.

(** The increment is [+ 1] modulo [256 ^ n] on the first [n] bytes. *)
Lemma increment_Iv_spec n l r :
  length l = n -> bytes l ->
  exists l', increment_Iv n (l ++ r) = l' ++ r /\ length l' = n /\ bytes l' /\
    be l' = (be l + 1) mod 256 ^ Z.of_nat n.
Proof.
  revert l r. induction n as [|n IH]; intros l r L H.
  - exists l. destruct l; [|done]. done.
  - destruct l as [|x l _] using rev_ind; [done|].
    apply Forall_app in H as [H [Hx _]%Forall_cons]. change (0 <= x < 256) in Hx.
    rewrite length_app in L. simpl in L. assert (Ln : length l = n) by lia.
    pose proof (be_range _ H) as Hb. rewrite Ln in Hb.
    cbn [increment_Iv]. rewrite <- app_assoc.
    rewrite lookup_total_app_r, Ln, Nat.sub_diag by lia. cbn [app lookup_total list_lookup_total].
    rewrite !insert_app_r_alt, Ln, Nat.sub_diag by lia. cbn [insert list_insert].
    rewrite be_snoc, Nat2Z.inj_succ, Z.pow_succ_r by lia. case_decide as Hd.
    + destruct (IH l (0 :: r) Ln H) as (l' & -> & L' & B' & E'). exists (l' ++ [0]).
      rewrite <- app_assoc. split; [done|]. rewrite length_app. simpl. split; [lia|].
      split; [apply Forall_app; split; [done|]; by constructor|].
      rewrite be_snoc, E'. subst x. replace (256 * be l + 255 + 1) with (256 * (be l + 1)) by lia.
      rewrite Zmult_mod_distr_l. lia.
    + exists (l ++ [u8 (x + 1)]). rewrite <- app_assoc. split; [done|]. rewrite length_app. simpl.
      split; [lia|]. split; [apply Forall_app; split; [done|]; constructor; [apply byte_u8|constructor]|].
      rewrite be_snoc. unfold wrap. rewrite !Z.mod_small by lia. lia.
Qed.

Definition incr_block (iv : list Z) : list Z := increment_Iv AES_BLOCKLEN iv.

Lemma incr_block_spec iv : is_block iv ->
  is_block (incr_block iv) /\ be (incr_block iv) = (be iv + 1) mod 2 ^ 128.
Proof.
  intros [L B]. destruct (increment_Iv_spec AES_BLOCKLEN iv [] L B) as (l' & E & L' & B' & Eb).
  rewrite !app_nil_r in E. unfold incr_block. rewrite E. done.
Qed.

(** The [k]-th counter block. *)
Definition counter (iv : list Z) (k : nat) : list Z :=
  to_be AES_BLOCKLEN ((be iv + Z.of_nat k) mod 2 ^ 128).

Lemma iter_incr iv k : is_block iv ->
  is_block (Nat.iter k incr_block iv) /\
  be (Nat.iter k incr_block iv) = (be iv + Z.of_nat k) mod 2 ^ 128.
Proof.
  intros H. induction k as [|k [IHb IHe]]; simpl Nat.iter.
  - split; [done|]. rewrite Z.add_0_r. destruct H as [L B]. pose proof (be_range _ B) as R.
    rewrite L in R. symmetry. apply Z.mod_small. exact R.
  - destruct (incr_block_spec _ IHb) as [Hb He]. split; [done|]. rewrite He, IHe.
    rewrite Zplus_mod_idemp_l. f_equal. lia.
Qed.

Lemma counter_iter iv k : is_block iv -> Nat.iter k incr_block iv = counter iv k.
Proof.
  intros H. destruct (iter_incr iv k H) as [[L B] E]. unfold counter. rewrite <- E.
  rewrite <- L. symmetry. by apply to_be_be.
Qed.

(** Byte [j] of the key stream. *)
Definition keystream (E : list Z -> list Z) (iv : list Z) (j : nat) : Z :=
  E (counter iv (j / 16)) !!! (j mod 16)%nat.

Definition ctr_range (E : list Z -> list Z) (iv : list Z) (i n : nat) (buf : list Z) : list Z :=
  imap (fun j x => if decide (i <= j < i + n)%nat then Z.lxor x (keystream E iv j) else x) buf.

Lemma next_block i : (i mod 16 = 0)%nat -> blocks_of i = (i / 16)%nat /\ blocks_of (S i) = S (i / 16)%nat.
Proof.
  intros H. unfold blocks_of. rewrite (Nat.div_mod_eq i 16), H, Nat.add_0_r.
  split; [rewrite (Nat.mul_comm 16), Nat.div_add_l by lia; rewrite Nat.div_mul by lia; simpl; lia|].
  rewrite (Nat.mul_comm 16), Nat.div_mul by lia.
  replace (S (i / 16 * 16) + 15)%nat with ((i / 16 + 1) * 16)%nat by lia. rewrite Nat.div_mul by lia. lia.
Qed.

Lemma same_block i : (0 < i mod 16)%nat -> blocks_of (S i) = blocks_of i.
Proof.
  intros H. unfold blocks_of. rewrite (Nat.div_mod_eq i 16) at 1 2.
  pose proof (Nat.mod_upper_bound i 16 ltac:(lia)).
  rewrite (Nat.mul_comm 16). 
  replace (S (i / 16 * 16 + i mod 16) + 15)%nat with ((i / 16) * 16 + (i mod 16 + 16))%nat by lia.
  replace (i / 16 * 16 + i mod 16 + 15)%nat with ((i / 16) * 16 + (i mod 16 + 15))%nat by lia.
  rewrite !Nat.div_add_l by lia. f_equal.
  rewrite <- (Nat.div_unique (i mod 16 + 16) 16 1 (i mod 16)) by lia.
  rewrite <- (Nat.div_unique (i mod 16 + 15) 16 1 (i mod 16 - 1)) by lia. done.
Qed.

Lemma mod_succ i :
  ((i mod 16 = 15 /\ S i mod 16 = 0 /\ S i / 16 = S (i / 16)) \/
   (i mod 16 < 15 /\ S i mod 16 = S (i mod 16) /\ S i / 16 = i / 16))%nat.
Proof.
  pose proof (Nat.mod_upper_bound i 16 ltac:(lia)). pose proof (Nat.div_mod_eq i 16).
  destruct (decide (i mod 16 = 15)%nat); [left | right]; (split; [lia|split]).
  - symmetry. apply (Nat.mod_unique (S i) 16 (S (i / 16))); lia.
  - symmetry. apply (Nat.div_unique (S i) 16 (S (i / 16)) 0); lia.
  - symmetry. apply (Nat.mod_unique (S i) 16 (i / 16)); lia.
  - symmetry. apply (Nat.div_unique (S i) 16 (i / 16) (S (i mod 16))); lia.
Qed.

Section Counter.
Variable v : variant.
Variable rk iv0 : list Z.
Hypothesis iv0_block : is_block iv0.

Abbreviation E := (fun b => Cipher v b rk).

(** Before byte [i]: the counter is past the blocks used, and [buffer] holds
    the current block's key stream from [bi] on. *)
Definition ctr_inv (i : nat) (iv buffer : list Z) (bi : nat) : Prop :=
  iv = counter iv0 (blocks_of i) /\
  ((i mod 16 = 0 /\ bi = 16)%nat \/
   (0 < i mod 16 /\ bi = i mod 16)%nat /\ buffer = E (counter iv0 (i / 16))).

Lemma incr_counter k : incr_block (counter iv0 k) = counter iv0 (S k).
Proof. rewrite <- !counter_iter by done. done. Qed.

Lemma ctr_loop n i iv buffer bi buf :
  ctr_inv i iv buffer bi -> (i + n <= length buf)%nat ->
  AES_CTR_xcrypt_loop v n i (Ctx rk iv) buffer bi buf =
  Ret (Ctx rk (counter iv0 (blocks_of (i + n))), ctr_range E iv0 i n buf).
Proof.
  revert i iv buffer bi buf. induction n as [|n IH]; intros i iv buffer bi buf [-> Hb] Hl.
  - rewrite Nat.add_0_r. cbn. f_equal. f_equal. symmetry. unfold ctr_range.
    apply list_eq. intros j. rewrite list_lookup_imap. destruct (buf !! j); [|done]. simpl.
    by rewrite decide_False by lia.
  - cbn [AES_CTR_xcrypt_loop RoundKey Iv].
    set (iv1 := counter iv0 (blocks_of (S i))).
    set (buffer1 := E (counter iv0 (i / 16))).
    assert (Es : (if decide (bi = AES_BLOCKLEN)
       then (Ctx rk (increment_Iv AES_BLOCKLEN (counter iv0 (blocks_of i))),
             Cipher v (counter iv0 (blocks_of i)) rk, O)
       else (Ctx rk (counter iv0 (blocks_of i)), buffer, bi)) = (Ctx rk iv1, buffer1, (i mod 16)%nat)).
    { destruct Hb as [[H0 ->] | [[H0 ->] ->]].
      - rewrite decide_True, H0 by done. destruct (next_block i H0) as [-> E2].
        fold (incr_block (counter iv0 (i / 16))). unfold iv1. by rewrite incr_counter, E2.
      - rewrite decide_False by (pose proof (Nat.mod_upper_bound i 16); unfold AES_BLOCKLEN; lia).
        unfold iv1. by rewrite same_block. }
    rewrite Es. destruct (lookup_lt_is_Some_2 buf i ltac:(lia)) as [x Hx]. rewrite Hx.
    cbn [of_option mbind outcome_bind]. rewrite IH; [|split; [done|]|rewrite length_insert; lia].
    + rewrite <- Nat.add_succ_comm. do 2 f_equal. unfold ctr_range. apply list_eq. intros j.
      rewrite !list_lookup_imap. destruct (decide (i = j)) as [<- |].
      * rewrite list_lookup_insert_eq, Hx by (by eapply lookup_lt_Some). csimpl.
        rewrite decide_False, decide_True by lia. done.
      * rewrite list_lookup_insert_ne by done. destruct (buf !! j); [|done]. csimpl.
        f_equal. repeat case_decide; done || lia.
    + destruct (mod_succ i) as [(M1 & M2 & M3) | (M1 & M2 & M3)]; [left; lia | right].
      rewrite M2, M3. split; [lia | done].
Qed.

End Counter.

(** ** Properties *)

(** C3: the block cipher is a permutation of the blocks for every key size and
    every round-key array: [AES_ECB_decrypt] undoes [AES_ECB_encrypt] and the
    other way round, on any buffer of at least a block, touching only its
    first 16 bytes; on a shorter buffer both leave the object. *)
Theorem aes_ecb_permutation (v : variant) (ctx : AES_ctx) (buf : list Z) :
  bytes (RoundKey ctx) -> bytes buf ->
  if decide (length buf < AES_BLOCKLEN)%nat
  then AES_ECB_encrypt v ctx buf = Undef /\ AES_ECB_decrypt v ctx buf = Undef
  else exists e d, AES_ECB_encrypt v ctx buf = Ret e /\ AES_ECB_decrypt v ctx buf = Ret d /\
    AES_ECB_decrypt v ctx e = Ret buf /\ AES_ECB_encrypt v ctx d = Ret buf /\
    bytes e /\ bytes d /\ drop AES_BLOCKLEN e = drop AES_BLOCKLEN buf /\
    drop AES_BLOCKLEN d = drop AES_BLOCKLEN buf.
Proof.
  intros Hk Hb. unfold AES_ECB_encrypt, AES_ECB_decrypt. case_decide as L.
  { unfold on_block, peek. rewrite decide_False by lia. done. }
  assert (exists b r, buf = b ++ r /\ length b = AES_BLOCKLEN) as (b & r & -> & Lb).
  { exists (take AES_BLOCKLEN buf), (drop AES_BLOCKLEN buf).
    rewrite take_drop, length_take. split; [done|lia]. }
  apply Forall_app in Hb as [Hb Hr]. assert (Bb : is_block b) by done. clear L.
  set (rk := RoundKey ctx) in *.
  pose proof (Cipher_block rk Hk v b Bb) as Be. pose proof (InvCipher_block rk Hk v b Bb) as Bd.
  exists (Cipher v b rk ++ r), (InvCipher v b rk ++ r).
  rewrite (on_block_app _ [] b r 0) by (done || apply Bb || apply Be).
  rewrite (on_block_app _ [] b r 0) by (done || apply Bb || apply Bd).
  rewrite (on_block_app _ [] (Cipher v b rk) r 0)
    by (done || apply Be || rewrite InvCipher_Cipher by done; apply Bb).
  rewrite (on_block_app _ [] (InvCipher v b rk) r 0)
    by (done || apply Bd || rewrite Cipher_InvCipher by done; apply Bb).
  rewrite InvCipher_Cipher, Cipher_InvCipher by done. cbn [app].
  split_and!; try done; try (apply Forall_app; split; [|done]); try apply Be; try apply Bd.
  - rewrite !drop_app_length'; [done|symmetry; apply Bb|symmetry; apply Be].
  - rewrite !drop_app_length'; [done|symmetry; apply Bb|symmetry; apply Bd].
Qed.

Definition key128 : list Z := to_be 16 0x2b7e151628aed2a6abf7158809cf4f3c.
Definition ctx0 : AES_ctx := Ctx (replicate 176 7) (to_be 16 0x000102030405060708090a0b0c0d0e0f).
Definition plain : list Z :=
  to_be 64 0x6bc1bee22e409f96e93d7e117393172aae2d8a571e03ac9c9eb76fac45af8e5130c81c46a35ce411e5fbc1191a0a52eff69f2445df4f9b17ad2b417be66c3710.

Lemma aes_ecb_permutation_witness :
  exists e d, AES_ECB_encrypt AES128 ctx0 plain = Ret e /\ AES_ECB_decrypt AES128 ctx0 plain = Ret d /\
    AES_ECB_decrypt AES128 ctx0 e = Ret plain.
Proof.
  assert (B1 : bytes (RoundKey ctx0)) by (apply (bool_decide_unpack _); vm_compute; exact I).
  assert (B2 : bytes plain) by (apply (bool_decide_unpack _); vm_compute; exact I).
  pose proof (aes_ecb_permutation AES128 ctx0 plain B1 B2) as T.
  rewrite decide_False in T by (vm_compute; lia).
  destruct T as (e & d & E1 & E2 & E3 & _). exists e, d. split; [exact E1|]. split; [exact E2|exact E3].
Defined.

(** C4: the code is AES: for the three key sizes, whatever the [RoundKey] array
    held, [AES_init_ctx] followed by [AES_ECB_encrypt] is the cipher of
    FIPS 197 (S-box by inversion in GF(2^8) and the affine map, rows, columns
    as a matrix product, the word recurrence of the key schedule) under the
    first [AES_KEYLEN] bytes of the key; a shorter key is read past its end. *)
Theorem aes_implements_fips197 (v : variant) (ctx : AES_ctx) (key st : list Z) :
  length (RoundKey ctx) = AES_keyExpSize v -> bytes key -> is_block st ->
  if decide (length key < AES_KEYLEN v)%nat then AES_init_ctx v ctx key = Undef
  else exists ctx', AES_init_ctx v ctx key = Ret ctx' /\ Iv ctx' = Iv ctx /\
    length (RoundKey ctx') = AES_keyExpSize v /\ bytes (RoundKey ctx') /\
    AES_ECB_encrypt v ctx' st = Ret (fips_cipher v key st).
Proof.
  intros Lk Bk Hst. unfold AES_init_ctx. case_decide as L.
  { by rewrite decide_False by lia. }
  rewrite decide_True by lia. assert (L' : (AES_KEYLEN v <= length key)%nat) by lia.
  eexists. split; [done|]. split; [done|].
  pose proof (KeyExpansion_bytes v key L' Bk _ Lk) as B. cbn [RoundKey].
  split; [by apply KeyExpansion_expanded|]. split; [done|].
  unfold AES_ECB_encrypt. cbn [RoundKey]. pose proof (on_block_app
    (fun b => Cipher v b (KeyExpansion v (RoundKey ctx) key)) [] st [] 0 eq_refl) as E.
  cbn [app] in E. rewrite !app_nil_r in E.
  rewrite E by (apply Hst || by apply Cipher_block).
  f_equal. by apply Cipher_fips.
Qed.

Lemma aes_implements_fips197_witness :
  exists ctx', AES_init_ctx AES128 ctx0 key128 = Ret ctx' /\
    AES_ECB_encrypt AES128 ctx' (take 16 plain) = Ret (fips_cipher AES128 key128 (take 16 plain)).
Proof.
  assert (B1 : bytes key128) by (apply (bool_decide_unpack _); vm_compute; exact I).
  assert (B2 : is_block (take 16 plain))
    by (split; [reflexivity | apply (bool_decide_unpack _); vm_compute; exact I]).
  pose proof (aes_implements_fips197 AES128 ctx0 key128 (take 16 plain) eq_refl B1 B2) as T.
  rewrite decide_False in T by (vm_compute; lia).
  destruct T as (ctx' & E1 & _ & _ & _ & E2). exists ctx'. split; [exact E1|exact E2].
Defined.

(** The published vectors: the four blocks of the header of aes.c
    (SP 800-38A, ECB-AES128), and the CBC and CTR vectors of the same
    document, in both directions. *)
Theorem aes_test_vectors :
  let ctx := AES_init_ctx AES128 ctx0 key128 in
  (c ← ctx; mapM (M := outcome) (fun i => AES_ECB_encrypt AES128 c (take 16 (drop (16 * i) plain))) (seq 0 4)) =
    Ret [to_be 16 0x3ad77bb40d7a3660a89ecaf32466ef97; to_be 16 0xf5d3d58503b9699de785895a96fdbaaf;
         to_be 16 0x43b1cd7f598ece23881b00e3ed030688; to_be 16 0x7b0c785e27e8ad3f8223207104725dd4] /\
  (c ← ctx; r ← AES_CBC_encrypt_buffer AES128 c plain 64; Ret r.2) =
    Ret (to_be 64 0x7649abac8119b246cee98e9b12e9197d5086cb9b507219ee95db113a917678b273bed6b8e3c1743b7116e69e222295163ff1caa1681fac09120eca307586e1a7) /\
  (c ← ctx; r ← AES_CTR_xcrypt_buffer AES128 (replicate 16 9)
       (Ctx (RoundKey c) (to_be 16 0xf0f1f2f3f4f5f6f7f8f9fafbfcfdfeff)) plain 64; Ret r.2) =
    Ret (to_be 64 0x874d6191b620e3261bef6864990db6ce9806f66b7970fdff8617187bb9fffdff5ae4df3edbd5d35e5b4f09020db03eab1e031dda2fbe03d1792170a0f3009cee).
Proof. vm_compute. done. Qed.

(** C10: [AES_CBC_encrypt_buffer] is cipher block chaining from [ctx->Iv] over
    the blocks of the buffer, leaves the rest of the buffer alone and leaves
    the last ciphertext block in [ctx->Iv]; [AES_CBC_decrypt_buffer] from the
    same context gives the buffer back and leaves the same context, so that
    successive calls chain in both directions.  A length that is not a
    multiple of 16 is rounded up to whole blocks. *)
Theorem aes_cbc_spec (v : variant) (ctx : AES_ctx) (bs : list (list Z)) (rest : list Z) (n : nat) :
  bytes (RoundKey ctx) -> is_block (Iv ctx) -> Forall is_block bs -> blocks_of n = length bs ->
  let cs := cbc (fun b => Cipher v b (RoundKey ctx)) (Iv ctx) bs in
  let ctx' := Ctx (RoundKey ctx) (default (Iv ctx) (last cs)) in
  AES_CBC_encrypt_buffer v ctx (concat bs ++ rest) n = Ret (ctx', concat cs ++ rest) /\
  AES_CBC_decrypt_buffer v ctx (concat cs ++ rest) n = Ret (ctx', concat bs ++ rest) /\
  Forall is_block cs.
Proof.
  intros Hk Hiv H Hn. destruct ctx as [rk iv]. cbn [RoundKey Iv] in *. cbv zeta.
  unfold AES_CBC_encrypt_buffer, AES_CBC_decrypt_buffer. rewrite Hn. split; [|split].
  - destruct (cbc_encrypt_loop v rk Hk iv None iv [] bs rest eq_refl Hiv H) as (p & E1 & E2).
    cbn [app length] in E1, E2. rewrite E1. cbn [mbind outcome_bind fst snd]. by rewrite E2.
  - apply (cbc_decrypt_loop v rk Hk iv [] bs rest Hiv H).
  - by apply cbc_block.
Qed.

Lemma aes_cbc_spec_witness :
  exists ctx' buf', AES_CBC_encrypt_buffer AES128 ctx0 (take 32 plain) 20 = Ret (ctx', buf') /\
    AES_CBC_decrypt_buffer AES128 ctx0 buf' 20 = Ret (ctx', take 32 plain).
Proof.
  assert (B1 : bytes (RoundKey ctx0)) by (apply (bool_decide_unpack _); vm_compute; exact I).
  assert (B2 : is_block (Iv ctx0))
    by (split; [reflexivity | apply (bool_decide_unpack _); vm_compute; exact I]).
  assert (B3 : Forall is_block [take 16 plain; take 16 (drop 16 plain)])
    by (repeat constructor; apply (bool_decide_unpack _); vm_compute; exact I).
  destruct (aes_cbc_spec AES128 ctx0 [take 16 plain; take 16 (drop 16 plain)] [] 20
    B1 B2 B3 ltac:(reflexivity)) as (E1 & E2 & _).
  eexists _, _. split; [exact E1 | exact E2].
Defined.

(** C11: [AES_CTR_xcrypt_buffer] XORs byte [j] of the first [n] bytes with byte
    [j mod 16] of the encryption of the counter block [Iv + j / 16], the
    counter being a 128-bit big-endian number that wraps; it leaves the
    counter past the blocks used, and a second call from the same context
    gives the buffer back.  The local array's old contents do not matter. *)
Theorem aes_ctr_spec (v : variant) (ctx : AES_ctx) (buffer0 buf : list Z) (n : nat) :
  is_block (Iv ctx) -> (n <= length buf)%nat ->
  exists ctx' buf', AES_CTR_xcrypt_buffer v buffer0 ctx buf n = Ret (ctx', buf') /\
    ctx' = Ctx (RoundKey ctx) (to_be 16 ((be (Iv ctx) + Z.of_nat (blocks_of n)) mod 2 ^ 128)) /\
    length buf' = length buf /\
    (forall j x, buf !! j = Some x -> buf' !! j = Some
       (if decide (j < n)%nat
        then Z.lxor x (Cipher v (to_be 16 ((be (Iv ctx) + Z.of_nat (j / 16)) mod 2 ^ 128))
                         (RoundKey ctx) !!! (j mod 16)%nat) else x)) /\
    AES_CTR_xcrypt_buffer v buffer0 ctx buf' n = Ret (ctx', buf).
Proof.
  intros Hiv Hn. destruct ctx as [rk iv]. cbn [RoundKey Iv] in *. unfold AES_CTR_xcrypt_buffer.
  assert (I0 : ctr_inv v rk iv 0 iv buffer0 AES_BLOCKLEN).
  { split; [|by left]. change (blocks_of 0) with O. by rewrite <- counter_iter. }
  eexists _, _. split; [by rewrite (ctr_loop v rk iv Hiv n 0 iv)|]. split; [done|].
  split; [by unfold ctr_range; rewrite length_imap|]. split.
  - intros j x Hx. unfold ctr_range. rewrite list_lookup_imap, Hx. csimpl.
    f_equal. repeat case_decide; done || lia.
  - rewrite (ctr_loop v rk iv Hiv n 0 iv); [|done|unfold ctr_range; rewrite length_imap; lia].
    do 2 f_equal. unfold ctr_range. apply list_eq. intros j. rewrite !list_lookup_imap.
    destruct (buf !! j) as [x|]; [|done]. csimpl. f_equal. case_decide; [|done].
    by rewrite Z.lxor_assoc, Z.lxor_nilpotent, Z.lxor_0_r.
Qed.

Lemma aes_ctr_spec_witness :
  exists ctx' buf', AES_CTR_xcrypt_buffer AES128 (replicate 16 1) ctx0 plain 37 = Ret (ctx', buf') /\
    AES_CTR_xcrypt_buffer AES128 (replicate 16 1) ctx0 buf' 37 = Ret (ctx', plain).
Proof.
  assert (B : is_block (Iv ctx0))
    by (split; [reflexivity | apply (bool_decide_unpack _); vm_compute; exact I]).
  destruct (aes_ctr_spec AES128 ctx0 (replicate 16 1) plain 37 B
    ltac:(apply (bool_decide_unpack _); vm_compute; exact I)) as (ctx' & buf' & E1 & _ & _ & _ & E2).
  exists ctx', buf'. split; [exact E1 | exact E2].
Defined.
