(* ===== verification/Xxhash.v ===== *)
(** * XXH32 and XXH64 (src/src/xxhash.h)

    The one-shot functions, the streaming functions and the canonical forms,
    with the build options of the header as parameters: the byte order of the
    CPU, the alignment check, the unrolled tail of XXH32 ([XXH32_ENDJMP]) and
    the size-optimised one-shot functions.  A pointer into the input is the
    list of the bytes from it on; words wrap at their width.  XXH3 is in
    Xxh3.v. *)

From Stdlib Require Import ZArith Lia Btauto.
From stdpp Require Import prelude gmap.
From S2P Require Import Prelude.

(** ** Memory reads *)

(** The value of the first [n] bytes, least significant first. *)
Fixpoint le_value (n : nat) (p : list Z) : Z :=
  match n with
  | O => 0
  | S n' => match p with [] => 0 | b :: p' => Z.lor b (Z.shiftl (le_value n' p') 8) end
  end.

(** The bytes of a word in memory, least significant first. *)
Fixpoint le_bytes (n : nat) (x : Z) : list Z :=
  match n with
  | O => []
  | S n' => Z.land x 255 :: le_bytes n' (Z.shiftr x 8)
  end.

Definition XXH_rotl32 (x r : Z) : Z := u32 (Z.lor (Z.shiftl x r) (Z.shiftr x (32 - r))).
Definition XXH_rotl64 (x r : Z) : Z := u64 (Z.lor (Z.shiftl x r) (Z.shiftr x (64 - r))).

Definition XXH_swap32 (x : Z) : Z :=
  Z.lor (Z.lor (Z.lor (Z.land (Z.shiftl x 24) 0xff000000)
    (Z.land (Z.shiftl x 8) 0x00ff0000))
    (Z.land (Z.shiftr x 8) 0x0000ff00))
    (Z.land (Z.shiftr x 24) 0x000000ff).

Definition XXH_swap64 (x : Z) : Z :=
  Z.lor (Z.lor (Z.lor (Z.lor (Z.lor (Z.lor (Z.lor
    (Z.land (Z.shiftl x 56) 0xff00000000000000)
    (Z.land (Z.shiftl x 40) 0x00ff000000000000))
    (Z.land (Z.shiftl x 24) 0x0000ff0000000000))
    (Z.land (Z.shiftl x 8) 0x000000ff00000000))
    (Z.land (Z.shiftr x 8) 0x00000000ff000000))
    (Z.land (Z.shiftr x 24) 0x0000000000ff0000))
    (Z.land (Z.shiftr x 40) 0x000000000000ff00))
    (Z.land (Z.shiftr x 56) 0x00000000000000ff).

Inductive XXH_alignment := XXH_aligned | XXH_unaligned.

(** ** The constants *)

Definition XXH_PRIME32_1 : Z := 0x9E3779B1.
Definition XXH_PRIME32_2 : Z := 0x85EBCA77.
Definition XXH_PRIME32_3 : Z := 0xC2B2AE3D.
Definition XXH_PRIME32_4 : Z := 0x27D4EB2F.
Definition XXH_PRIME32_5 : Z := 0x165667B1.

Definition XXH_PRIME64_1 : Z := 0x9E3779B185EBCA87.
Definition XXH_PRIME64_2 : Z := 0xC2B2AE3D27D4EB4F.
Definition XXH_PRIME64_3 : Z := 0x165667B19E3779F9.
Definition XXH_PRIME64_4 : Z := 0x85EBCA77C2B2AE63.
Definition XXH_PRIME64_5 : Z := 0x27D4EB2F165667C5.

(** ** The mixing steps *)

Definition XXH32_round (acc input : Z) : Z :=
  let acc := u32 (acc + input * XXH_PRIME32_2) in
  let acc := XXH_rotl32 acc 13 in
  u32 (acc * XXH_PRIME32_1).

Definition XXH32_avalanche (hash : Z) : Z :=
  let hash := Z.lxor hash (Z.shiftr hash 15) in
  let hash := u32 (hash * XXH_PRIME32_2) in
  let hash := Z.lxor hash (Z.shiftr hash 13) in
  let hash := u32 (hash * XXH_PRIME32_3) in
  Z.lxor hash (Z.shiftr hash 16).

Definition XXH64_round (acc input : Z) : Z :=
  let acc := u64 (acc + input * XXH_PRIME64_2) in
  let acc := XXH_rotl64 acc 31 in
  u64 (acc * XXH_PRIME64_1).

Definition XXH64_mergeRound (acc val : Z) : Z :=
  let val := XXH64_round 0 val in
  let acc := Z.lxor acc val in
  u64 (acc * XXH_PRIME64_1 + XXH_PRIME64_4).

Definition XXH64_avalanche (hash : Z) : Z :=
  let hash := Z.lxor hash (Z.shiftr hash 33) in
  let hash := u64 (hash * XXH_PRIME64_2) in
  let hash := Z.lxor hash (Z.shiftr hash 29) in
  let hash := u64 (hash * XXH_PRIME64_3) in
  Z.lxor hash (Z.shiftr hash 32).

(** The four accumulators [v1..v4], or [v[0..3]]. *)
Record acc4 := Acc { v0 : Z; v1 : Z; v2 : Z; v3 : Z }.

(** [do { stripe; p += w } while (another stripe is left)]: [n] iterations. *)
Fixpoint stripes (w : nat) (stripe : acc4 -> list Z -> acc4) (n : nat) (v : acc4) (p : list Z) : acc4 :=
  match n with
  | O => v
  | S n' => stripes w stripe n' (stripe v p) (drop w p)
  end.

(** [memcpy(mem + off, bs, length bs)]. *)
Definition memcpy_at (mem : list Z) (off : nat) (bs : list Z) : list Z :=
  take off mem ++ bs ++ drop (off + length bs) mem.

(** The build options; [XXH_SIZE_OPT_2] stands for [XXH_SIZE_OPT >= 2]. *)
Record config := Config {
  LITTLE_ENDIAN : bool;
  FORCE_ALIGN_CHECK : bool;
  ENDJMP : bool;
  SIZE_OPT_2 : bool
}.

Section WithConfig.
Variable cfg : config.

Abbreviation XXH_CPU_LITTLE_ENDIAN := (LITTLE_ENDIAN cfg).
Abbreviation XXH_FORCE_ALIGN_CHECK := (FORCE_ALIGN_CHECK cfg).
Abbreviation XXH32_ENDJMP := (ENDJMP cfg).
Abbreviation XXH_SIZE_OPT_2 := (SIZE_OPT_2 cfg).

(** A native load of [n] bytes. *)
Definition XXH_read32 (p : list Z) : Z :=
  if XXH_CPU_LITTLE_ENDIAN then le_value 4 p else le_value 4 (reverse (take 4 p)).
Definition XXH_read64 (p : list Z) : Z :=
  if XXH_CPU_LITTLE_ENDIAN then le_value 8 p else le_value 8 (reverse (take 8 p)).

(** A native store. *)
Definition store32 (x : Z) : list Z :=
  if XXH_CPU_LITTLE_ENDIAN then le_bytes 4 x else reverse (le_bytes 4 x).
Definition store64 (x : Z) : list Z :=
  if XXH_CPU_LITTLE_ENDIAN then le_bytes 8 x else reverse (le_bytes 8 x).

Definition XXH_readLE32 (p : list Z) : Z :=
  if XXH_CPU_LITTLE_ENDIAN then XXH_read32 p else XXH_swap32 (XXH_read32 p).
Definition XXH_readBE32 (p : list Z) : Z :=
  if XXH_CPU_LITTLE_ENDIAN then XXH_swap32 (XXH_read32 p) else XXH_read32 p.
Definition XXH_readLE64 (p : list Z) : Z :=
  if XXH_CPU_LITTLE_ENDIAN then XXH_read64 p else XXH_swap64 (XXH_read64 p).
Definition XXH_readBE64 (p : list Z) : Z :=
  if XXH_CPU_LITTLE_ENDIAN then XXH_swap64 (XXH_read64 p) else XXH_read64 p.

Definition XXH_readLE32_align (p : list Z) (align : XXH_alignment) : Z :=
  match align with
  | XXH_unaligned => XXH_readLE32 p
  | XXH_aligned => if XXH_CPU_LITTLE_ENDIAN then XXH_read32 p else XXH_swap32 (XXH_read32 p)
  end.
Definition XXH_readLE64_align (p : list Z) (align : XXH_alignment) : Z :=
  match align with
  | XXH_unaligned => XXH_readLE64 p
  | XXH_aligned => if XXH_CPU_LITTLE_ENDIAN then XXH_read64 p else XXH_swap64 (XXH_read64 p)
  end.

(** ** XXH32 *)

Definition XXH_PROCESS1 (s : Z * list Z) : Z * list Z :=
  let hash := u32 (s.1 + hd 0 s.2 * XXH_PRIME32_5) in
  (u32 (XXH_rotl32 hash 11 * XXH_PRIME32_1), drop 1 s.2).

Definition XXH_PROCESS4 (align : XXH_alignment) (s : Z * list Z) : Z * list Z :=
  let hash := u32 (s.1 + XXH_readLE32_align s.2 align * XXH_PRIME32_3) in
  (u32 (XXH_rotl32 hash 17 * XXH_PRIME32_4), drop 4 s.2).

(** The compact tail: [while (len >= 4)], then [while (len > 0)]. *)
Definition XXH32_finalize_compact (hash : Z) (ptr : list Z) (len : nat) (align : XXH_alignment) : Z :=
  let len := (len mod 16)%nat in
  let s := Nat.iter (len / 4) (XXH_PROCESS4 align) (hash, ptr) in
  let s := Nat.iter (len mod 4) XXH_PROCESS1 s in
  XXH32_avalanche s.1.

(** The switch, with its fallthroughs. *)
Definition XXH32_finalize_switch (hash : Z) (ptr : list Z) (len : nat) (align : XXH_alignment) : Z :=
  let p4 := XXH_PROCESS4 align in
  let p1 := XXH_PROCESS1 in
  let s := (hash, ptr) in
  let done s := XXH32_avalanche (fst s) in
  match (len mod 16)%nat with
  | 12 => done (p4 (p4 (p4 s)))
  | 8 => done (p4 (p4 s))
  | 4 => done (p4 s)
  | 13 => done (p1 (p4 (p4 (p4 s))))
  | 9 => done (p1 (p4 (p4 s)))
  | 5 => done (p1 (p4 s))
  | 14 => done (p1 (p1 (p4 (p4 (p4 s)))))
  | 10 => done (p1 (p1 (p4 (p4 s))))
  | 6 => done (p1 (p1 (p4 s)))
  | 15 => done (p1 (p1 (p1 (p4 (p4 (p4 s))))))
  | 11 => done (p1 (p1 (p1 (p4 (p4 s)))))
  | 7 => done (p1 (p1 (p1 (p4 s))))
  | 3 => done (p1 (p1 (p1 s)))
  | 2 => done (p1 (p1 s))
  | 1 => done (p1 s)
  | 0 => done s
  | _ => hash
  end%nat.

Definition XXH32_finalize (hash : Z) (ptr : list Z) (len : nat) (align : XXH_alignment) : Z :=
  if XXH32_ENDJMP then XXH32_finalize_switch hash ptr len align
  else XXH32_finalize_compact hash ptr len align.

Definition XXH32_stripe (align : XXH_alignment) (v : acc4) (p : list Z) : acc4 :=
  Acc (XXH32_round (v0 v) (XXH_readLE32_align p align))
      (XXH32_round (v1 v) (XXH_readLE32_align (drop 4 p) align))
      (XXH32_round (v2 v) (XXH_readLE32_align (drop 8 p) align))
      (XXH32_round (v3 v) (XXH_readLE32_align (drop 12 p) align)).

Definition XXH32_init (seed : Z) : acc4 :=
  Acc (u32 (seed + XXH_PRIME32_1 + XXH_PRIME32_2)) (u32 (seed + XXH_PRIME32_2))
      (u32 (seed + 0)) (u32 (seed - XXH_PRIME32_1)).

Definition XXH32_merge (v : acc4) : Z :=
  u32 (XXH_rotl32 (v0 v) 1 + XXH_rotl32 (v1 v) 7 + XXH_rotl32 (v2 v) 12 + XXH_rotl32 (v3 v) 18).

Definition XXH32_endian_align (input : list Z) (len : nat) (seed : Z) (align : XXH_alignment) : Z :=
  let '(h32, input) :=
    if decide (16 <= len)%nat then
      let v := stripes 16 (XXH32_stripe align) (len / 16) (XXH32_init seed) input in
      (XXH32_merge v, drop (16 * (len / 16)) input)
    else (u32 (seed + XXH_PRIME32_5), input) in
  let h32 := u32 (h32 + u32 (Z.of_nat len)) in
  XXH32_finalize h32 input (len mod 16) align.

Record XXH32_state := State32 {
  total_len_32 : Z;
  large_len : Z;
  v32 : acc4;
  mem32 : list Z;
  memsize32 : nat
}.

Definition XXH32_reset (seed : Z) : XXH32_state :=
  State32 0 0 (XXH32_init seed) (replicate 16 0) 0.

Definition XXH32_update (state : XXH32_state) (input : list Z) : XXH32_state :=
  let len := length input in
  let total := u32 (total_len_32 state + u32 (Z.of_nat len)) in
  let large := Z.lor (large_len state)
    (Z.lor (Z.b2z (bool_decide (16 <= len)%nat)) (Z.b2z (bool_decide (16 <= total)))) in
  if decide (memsize32 state + len < 16)%nat then
    State32 total large (v32 state) (memcpy_at (mem32 state) (memsize32 state) input)
      (memsize32 state + len)
  else
    let '(v, mem, memsize, p) :=
      if decide (memsize32 state <> 0)%nat then
        let mem := memcpy_at (mem32 state) (memsize32 state) (take (16 - memsize32 state) input) in
        (Acc (XXH32_round (v0 (v32 state)) (XXH_readLE32 mem))
             (XXH32_round (v1 (v32 state)) (XXH_readLE32 (drop 4 mem)))
             (XXH32_round (v2 (v32 state)) (XXH_readLE32 (drop 8 mem)))
             (XXH32_round (v3 (v32 state)) (XXH_readLE32 (drop 12 mem))),
         mem, O, drop (16 - memsize32 state) input)
      else (v32 state, mem32 state, memsize32 state, input) in
    let '(v, p) :=
      if decide (16 <= length p)%nat then
        (stripes 16 (XXH32_stripe XXH_unaligned) (length p / 16) v p, drop (16 * (length p / 16)) p)
      else (v, p) in
    if decide (0 < length p)%nat then State32 total large v (memcpy_at mem 0 p) (length p)
    else State32 total large v mem memsize.

Definition XXH32_digest (state : XXH32_state) : Z :=
  let h32 := if decide (large_len state = 0) then u32 (v2 (v32 state) + XXH_PRIME32_5)
             else XXH32_merge (v32 state) in
  let h32 := u32 (h32 + total_len_32 state) in
  XXH32_finalize h32 (mem32 state) (memsize32 state) XXH_aligned.

(** [input_address] is the address of the input, for the alignment check. *)
Definition XXH32 (input_address : Z) (input : list Z) (seed : Z) : Z :=
  if XXH_SIZE_OPT_2 then XXH32_digest (XXH32_update (XXH32_reset seed) input)
  else if XXH_FORCE_ALIGN_CHECK && bool_decide (Z.land input_address 3 = 0)
  then XXH32_endian_align input (length input) seed XXH_aligned
  else XXH32_endian_align input (length input) seed XXH_unaligned.

Definition XXH32_canonicalFromHash (hash : Z) : list Z :=
  store32 (if XXH_CPU_LITTLE_ENDIAN then XXH_swap32 hash else hash).
Definition XXH32_hashFromCanonical (src : list Z) : Z := XXH_readBE32 src.

(** ** XXH64 *)

(** The bodies of [while (len >= 8)], [if (len >= 4)] and [while (len > 0)]. *)
Definition XXH64_step8 (align : XXH_alignment) (s : Z * list Z) : Z * list Z :=
  let k1 := XXH64_round 0 (XXH_readLE64_align s.2 align) in
  let hash := Z.lxor s.1 k1 in
  (u64 (XXH_rotl64 hash 27 * XXH_PRIME64_1 + XXH_PRIME64_4), drop 8 s.2).

Definition XXH64_step4 (align : XXH_alignment) (s : Z * list Z) : Z * list Z :=
  let hash := Z.lxor s.1 (u64 (XXH_readLE32_align s.2 align * XXH_PRIME64_1)) in
  (u64 (XXH_rotl64 hash 23 * XXH_PRIME64_2 + XXH_PRIME64_3), drop 4 s.2).

Definition XXH64_step1 (s : Z * list Z) : Z * list Z :=
  let hash := Z.lxor s.1 (u64 (hd 0 s.2 * XXH_PRIME64_5)) in
  (u64 (XXH_rotl64 hash 11 * XXH_PRIME64_1), drop 1 s.2).

Definition XXH64_finalize (hash : Z) (ptr : list Z) (len : nat) (align : XXH_alignment) : Z :=
  let len := (len mod 32)%nat in
  let s := Nat.iter (len / 8) (XXH64_step8 align) (hash, ptr) in
  let len := (len mod 8)%nat in
  let '(s, len) :=
    if decide (4 <= len)%nat then (XXH64_step4 align s, (len - 4)%nat) else (s, len) in
  XXH64_avalanche (Nat.iter len XXH64_step1 s).1.

Definition XXH64_stripe (align : XXH_alignment) (v : acc4) (p : list Z) : acc4 :=
  Acc (XXH64_round (v0 v) (XXH_readLE64_align p align))
      (XXH64_round (v1 v) (XXH_readLE64_align (drop 8 p) align))
      (XXH64_round (v2 v) (XXH_readLE64_align (drop 16 p) align))
      (XXH64_round (v3 v) (XXH_readLE64_align (drop 24 p) align)).

Definition XXH64_init (seed : Z) : acc4 :=
  Acc (u64 (seed + XXH_PRIME64_1 + XXH_PRIME64_2)) (u64 (seed + XXH_PRIME64_2))
      (u64 (seed + 0)) (u64 (seed - XXH_PRIME64_1)).

Definition XXH64_merge (v : acc4) : Z :=
  let h64 := u64 (XXH_rotl64 (v0 v) 1 + XXH_rotl64 (v1 v) 7 + XXH_rotl64 (v2 v) 12 + XXH_rotl64 (v3 v) 18) in
  let h64 := XXH64_mergeRound h64 (v0 v) in
  let h64 := XXH64_mergeRound h64 (v1 v) in
  let h64 := XXH64_mergeRound h64 (v2 v) in
  XXH64_mergeRound h64 (v3 v).

Definition XXH64_endian_align (input : list Z) (len : nat) (seed : Z) (align : XXH_alignment) : Z :=
  let '(h64, input) :=
    if decide (32 <= len)%nat then
      let v := stripes 32 (XXH64_stripe align) (len / 32) (XXH64_init seed) input in
      (XXH64_merge v, drop (32 * (len / 32)) input)
    else (u64 (seed + XXH_PRIME64_5), input) in
  let h64 := u64 (h64 + u64 (Z.of_nat len)) in
  XXH64_finalize h64 input len align.

Record XXH64_state := State64 {
  total_len : Z;
  v64 : acc4;
  mem64 : list Z;
  memsize64 : nat
}.

Definition XXH64_reset (seed : Z) : XXH64_state :=
  State64 0 (XXH64_init seed) (replicate 32 0) 0.

Definition XXH64_update (state : XXH64_state) (input : list Z) : XXH64_state :=
  let len := length input in
  let total := u64 (total_len state + Z.of_nat len) in
  if decide (memsize64 state + len < 32)%nat then
    State64 total (v64 state) (memcpy_at (mem64 state) (memsize64 state) input) (memsize64 state + len)
  else
    let '(v, mem, memsize, p) :=
      if decide (memsize64 state <> 0)%nat then
        let mem := memcpy_at (mem64 state) (memsize64 state) (take (32 - memsize64 state) input) in
        (Acc (XXH64_round (v0 (v64 state)) (XXH_readLE64 mem))
             (XXH64_round (v1 (v64 state)) (XXH_readLE64 (drop 8 mem)))
             (XXH64_round (v2 (v64 state)) (XXH_readLE64 (drop 16 mem)))
             (XXH64_round (v3 (v64 state)) (XXH_readLE64 (drop 24 mem))),
         mem, O, drop (32 - memsize64 state) input)
      else (v64 state, mem64 state, memsize64 state, input) in
    let '(v, p) :=
      if decide (32 <= length p)%nat then
        (stripes 32 (XXH64_stripe XXH_unaligned) (length p / 32) v p, drop (32 * (length p / 32)) p)
      else (v, p) in
    if decide (0 < length p)%nat then State64 total v (memcpy_at mem 0 p) (length p)
    else State64 total v mem memsize.

Definition XXH64_digest (state : XXH64_state) : Z :=
  let h64 := if decide (32 <= total_len state) then XXH64_merge (v64 state)
             else u64 (v2 (v64 state) + XXH_PRIME64_5) in
  let h64 := u64 (h64 + total_len state) in
  XXH64_finalize h64 (mem64 state) (Z.to_nat (total_len state)) XXH_aligned.

Definition XXH64 (input_address : Z) (input : list Z) (seed : Z) : Z :=
  if XXH_SIZE_OPT_2 then XXH64_digest (XXH64_update (XXH64_reset seed) input)
  else if XXH_FORCE_ALIGN_CHECK && bool_decide (Z.land input_address 7 = 0)
  then XXH64_endian_align input (length input) seed XXH_aligned
  else XXH64_endian_align input (length input) seed XXH_unaligned.

Definition XXH64_canonicalFromHash (hash : Z) : list Z :=
  store64 (if XXH_CPU_LITTLE_ENDIAN then XXH_swap64 hash else hash).
Definition XXH64_hashFromCanonical (src : list Z) : Z := XXH_readBE64 src.

End WithConfig.

(** ** Reading a prefix *)

Lemma le_value_app n p r : (n <= length p)%nat -> le_value n (p ++ r) = le_value n p.
Proof.
  revert p. induction n as [|n IH]; intros p Hn; [done|].
  destruct p as [|b p]; simpl in *; [lia|]. by rewrite IH by lia.
Qed.

Section Reads.
Variable cfg : config.

Lemma XXH_readLE32_app p r : (4 <= length p)%nat -> XXH_readLE32 cfg (p ++ r) = XXH_readLE32 cfg p.
Proof.
  intros H. unfold XXH_readLE32, XXH_read32. rewrite take_app_le by done.
  destruct (LITTLE_ENDIAN cfg); [by apply le_value_app | done].
Qed.

Lemma XXH_readLE64_app p r : (8 <= length p)%nat -> XXH_readLE64 cfg (p ++ r) = XXH_readLE64 cfg p.
Proof.
  intros H. unfold XXH_readLE64, XXH_read64. rewrite take_app_le by done.
  destruct (LITTLE_ENDIAN cfg); [by apply le_value_app | done].
Qed.

(** The alignment only chooses between two ways to load. *)
Lemma XXH_readLE32_align_eq p a : XXH_readLE32_align cfg p a = XXH_readLE32 cfg p.
Proof. by destruct a. Qed.

Lemma XXH_readLE64_align_eq p a : XXH_readLE64_align cfg p a = XXH_readLE64 cfg p.
Proof. by destruct a. Qed.

Lemma XXH32_stripe_app a v p r :
  (16 <= length p)%nat -> XXH32_stripe cfg a v (p ++ r) = XXH32_stripe cfg a v p.
Proof.
  intros H. unfold XXH32_stripe. rewrite !XXH_readLE32_align_eq, !drop_app_le by lia.
  by rewrite !XXH_readLE32_app by (rewrite ?length_drop; lia).
Qed.

Lemma XXH64_stripe_app a v p r :
  (32 <= length p)%nat -> XXH64_stripe cfg a v (p ++ r) = XXH64_stripe cfg a v p.
Proof.
  intros H. unfold XXH64_stripe. rewrite !XXH_readLE64_align_eq, !drop_app_le by lia.
  by rewrite !XXH_readLE64_app by (rewrite ?length_drop; lia).
Qed.

Lemma XXH32_stripe_align a v p : XXH32_stripe cfg a v p = XXH32_stripe cfg XXH_unaligned v p.
Proof. by destruct a. Qed.

Lemma XXH64_stripe_align a v p : XXH64_stripe cfg a v p = XXH64_stripe cfg XXH_unaligned v p.
Proof. by destruct a. Qed.

End Reads.

(** ** Tails: steps that eat [k] bytes *)

Definition eats (k : nat) (f : Z * list Z -> Z * list Z) : Prop :=
  forall h p r, (k <= length p)%nat ->
    f (h, p ++ r) = ((f (h, p)).1, (f (h, p)).2 ++ r) /\
    length (f (h, p)).2 = (length p - k)%nat.

Lemma iter_eats k f n h p r :
  eats k f -> (k * n <= length p)%nat ->
  Nat.iter n f (h, p ++ r) = ((Nat.iter n f (h, p)).1, (Nat.iter n f (h, p)).2 ++ r) /\
  length (Nat.iter n f (h, p)).2 = (length p - k * n)%nat.
Proof.
  intros Hf. induction n as [|n IH]; intros Hn; [simpl; split; [done|lia]|].
  destruct IH as [E L]; [lia|]. cbn [Nat.iter nat_rect]. fold (Nat.iter n f).
  change (nat_rect _ ?x _ n) with (Nat.iter n f x). rewrite E.
  destruct (Nat.iter n f (h, p)) as [h' p']. simpl in *.
  destruct (Hf h' p' r) as [E' L']; [lia|]. rewrite E'. split; [done|]. lia.
Qed.

Section Tails.
Variable cfg : config.

Lemma eats_PROCESS1 : eats 1 XXH_PROCESS1.
Proof.
  intros h p r H. destruct p as [|b p]; simpl in H; [lia|]. unfold XXH_PROCESS1. simpl.
  split; [done|]. rewrite skipn_O. lia.
Qed.

Lemma eats_PROCESS4 a : eats 4 (XXH_PROCESS4 cfg a).
Proof.
  intros h p r H. unfold XXH_PROCESS4. cbn [fst snd].
  rewrite !XXH_readLE32_align_eq, XXH_readLE32_app, drop_app_le, length_drop by lia. done.
Qed.

(** The switch of [XXH32_ENDJMP] and the loops do the same. *)
Lemma XXH32_finalize_switch_eq hash ptr len a :
  XXH32_finalize_switch cfg hash ptr len a = XXH32_finalize_compact cfg hash ptr len a.
Proof.
  unfold XXH32_finalize_switch, XXH32_finalize_compact.
  pose proof (Nat.mod_upper_bound len 16 ltac:(lia)) as H.
  generalize dependent (len mod 16)%nat. intros n H.
  do 16 (destruct n as [|n]; [reflexivity|]). lia.
Qed.

Lemma XXH32_finalize_eq hash ptr len a :
  XXH32_finalize cfg hash ptr len a = XXH32_finalize_compact cfg hash ptr len XXH_unaligned.
Proof.
  unfold XXH32_finalize. rewrite XXH32_finalize_switch_eq.
  destruct (ENDJMP cfg), a; reflexivity.
Qed.

Lemma XXH32_finalize_app hash p r len a :
  (len mod 16 <= length p)%nat ->
  XXH32_finalize cfg hash (p ++ r) len a = XXH32_finalize cfg hash p len a.
Proof.
  intros H. rewrite !XXH32_finalize_eq. unfold XXH32_finalize_compact.
  set (n := (len mod 16)%nat) in *. pose proof (Nat.div_mod_eq n 4).
  destruct (iter_eats 4 (XXH_PROCESS4 cfg XXH_unaligned) (n / 4) hash p r) as [E L];
    [apply eats_PROCESS4 | lia|]. rewrite E.
  destruct (Nat.iter (n / 4) (XXH_PROCESS4 cfg XXH_unaligned) (hash, p)) as [h' p']. cbn [fst snd] in *.
  destruct (iter_eats 1 XXH_PROCESS1 (n mod 4) h' p' r) as [E' L'];
    [apply eats_PROCESS1 | lia|]. by rewrite E'.
Qed.

Lemma XXH64_finalize_align hash p len a :
  XXH64_finalize cfg hash p len a = XXH64_finalize cfg hash p len XXH_unaligned.
Proof. by destruct a. Qed.

Lemma eats_step8 a : eats 8 (XXH64_step8 cfg a).
Proof.
  intros h p r H. unfold XXH64_step8. cbn [fst snd].
  rewrite !XXH_readLE64_align_eq, XXH_readLE64_app, drop_app_le, length_drop by lia. done.
Qed.

Lemma eats_step4 a : eats 4 (XXH64_step4 cfg a).
Proof.
  intros h p r H. unfold XXH64_step4. cbn [fst snd].
  rewrite !XXH_readLE32_align_eq, XXH_readLE32_app, drop_app_le, length_drop by lia. done.
Qed.

Lemma eats_step1 : eats 1 XXH64_step1.
Proof.
  intros h p r H. destruct p as [|b p]; simpl in H; [lia|]. unfold XXH64_step1.
  cbn [fst snd app hd drop length]. split; [done|]. rewrite skipn_O. lia.
Qed.

Lemma XXH64_finalize_app hash p r len a :
  (len mod 32 <= length p)%nat ->
  XXH64_finalize cfg hash (p ++ r) len a = XXH64_finalize cfg hash p len a.
Proof.
  intros H. unfold XXH64_finalize.
  set (n := (len mod 32)%nat) in *. pose proof (Nat.div_mod_eq n 8).
  destruct (iter_eats 8 _ (n / 8) hash p r (eats_step8 a)) as [E L]; [lia|]. rewrite E.
  destruct (Nat.iter (n / 8) (XXH64_step8 cfg a) (hash, p)) as [h' p']. cbn [fst snd] in *.
  case_decide as Hd.
  - destruct (eats_step4 a h' p' r) as [E4 L4]; [lia|]. rewrite E4.
    destruct (XXH64_step4 cfg a (h', p')) as [h4 p4]. cbn [fst snd] in *.
    destruct (iter_eats 1 _ (n mod 8 - 4) h4 p4 r eats_step1) as [E' _]; [lia|]. by rewrite E'.
  - destruct (iter_eats 1 _ (n mod 8) h' p' r eats_step1) as [E' _]; [lia|]. by rewrite E'.
Qed.

End Tails.

Lemma memcpy_at_length mem off bs :
  (off + length bs <= length mem)%nat -> length (memcpy_at mem off bs) = length mem.
Proof. intros H. unfold memcpy_at. rewrite !length_app, length_take, length_drop. lia. Qed.

Lemma memcpy_at_take mem off bs :
  (off + length bs <= length mem)%nat ->
  take (off + length bs) (memcpy_at mem off bs) = take off mem ++ bs.
Proof.
  intros H. unfold memcpy_at. rewrite app_assoc, take_app_le, take_ge; [done|..];
    rewrite length_app, length_take; lia.
Qed.

(** ** Streaming

    What an update does to the accumulators, the buffer and its fill, for
    stripes of [w] bytes. *)
Section Streaming.
Variable w : nat.
Hypothesis w_pos : (0 < w)%nat.
Variable stripe : acc4 -> list Z -> acc4.
Hypothesis stripe_app : forall v p r, (w <= length p)%nat -> stripe v (p ++ r) = stripe v p.

Lemma stripes_app n v p r : (w * n <= length p)%nat ->
  stripes w stripe n v (p ++ r) = stripes w stripe n v p.
Proof.
  revert v p. induction n as [|n IH]; intros v p H; [done|]. cbn [stripes].
  rewrite stripe_app, drop_app_le by lia. apply IH. rewrite length_drop. lia.
Qed.

Lemma stripes_add n m v p :
  stripes w stripe (n + m) v p = stripes w stripe m (stripes w stripe n v p) (drop (w * n) p).
Proof.
  revert v p. induction n as [|n IH]; intros v p; cbn [stripes Nat.add].
  - by rewrite Nat.mul_0_r.
  - rewrite IH, drop_drop. do 2 f_equal. lia.
Qed.

Definition core_update (v : acc4) (mem : list Z) (memsize : nat) (input : list Z) :
    acc4 * list Z * nat :=
  if decide (memsize + length input < w)%nat
  then (v, memcpy_at mem memsize input, (memsize + length input)%nat)
  else
    let '(v, mem, memsize, p) :=
      if decide (memsize <> 0)%nat then
        let mem := memcpy_at mem memsize (take (w - memsize) input) in
        (stripe v mem, mem, O, drop (w - memsize) input)
      else (v, mem, memsize, input) in
    let '(v, p) :=
      if decide (w <= length p)%nat
      then (stripes w stripe (length p / w) v p, drop (w * (length p / w)) p) else (v, p) in
    if decide (0 < length p)%nat then (v, memcpy_at mem 0 p, length p) else (v, mem, memsize).

(** The state has absorbed [d]: [q] stripes, and [memsize] bytes waiting. *)
Definition absorbed (v_init : acc4) (d : list Z) (s : acc4 * list Z * nat) : Prop :=
  let '(v, mem, memsize) := s in
  exists q, length d = (w * q + memsize)%nat /\ (memsize < w)%nat /\ length mem = w /\
    take memsize mem = drop (w * q) d /\ v = stripes w stripe q v_init d.

(** The waiting bytes and the first of the input make a stripe. *)
Lemma first_stripe v_init d q mem memsize input :
  length d = (w * q + memsize)%nat -> (memsize < w)%nat -> length mem = w -> take memsize mem = drop (w * q) d ->
  (w <= memsize + length input)%nat ->
  exists q' mem',
    (if decide (memsize <> 0)%nat then
       (stripe (stripes w stripe q v_init d) (memcpy_at mem memsize (take (w - memsize) input)),
        memcpy_at mem memsize (take (w - memsize) input), O, drop (w - memsize) input)
     else (stripes w stripe q v_init d, mem, memsize, input)) =
      (stripes w stripe q' v_init (d ++ input), mem', O, drop (w * q') (d ++ input)) /\
    length mem' = w /\ (w * q' <= length (d ++ input))%nat.
Proof.
  intros Ld Hm Lm Et Hs. case_decide as Hz.
  - exists (q + 1)%nat, (memcpy_at mem memsize (take (w - memsize) input)).
    assert (Lt : length (take (w - memsize) input) = (w - memsize)%nat) by (rewrite length_take; lia).
    rewrite memcpy_at_length by lia. split_and!; [|done|rewrite length_app; lia].
    rewrite stripes_add. cbn [stripes].
    rewrite stripes_app, drop_app_le, <- Et by lia.
    assert (Em : memcpy_at mem memsize (take (w - memsize) input) =
                 take memsize mem ++ take (w - memsize) input).
    { rewrite <- memcpy_at_take by lia. symmetry. apply take_ge. rewrite memcpy_at_length; lia. }
    assert (Ev : forall V, stripe V (memcpy_at mem memsize (take (w - memsize) input)) =
                 stripe V (take memsize mem ++ input)).
    { intros V. rewrite Em. symmetry.
      replace (take memsize mem ++ input)
        with ((take memsize mem ++ take (w - memsize) input) ++ drop (w - memsize) input)
        by (by rewrite <- app_assoc, take_drop).
      apply stripe_app. rewrite length_app, length_take, Lt. lia. }
    rewrite Ev. replace (drop (w * (q + 1)) (d ++ input)) with (drop (w - memsize) input); [done|].
    rewrite drop_app_ge by lia. f_equal. lia.
  - assert (memsize = O) as -> by lia. exists q, mem.
    rewrite stripes_app, drop_app_ge by lia. split_and!; [|done|rewrite length_app; lia].
    do 2 f_equal. rewrite Ld. by replace (w * q - (w * q + 0))%nat with O by lia.
Qed.

(** The whole stripes of the rest. *)
Lemma whole_stripes v_init D q : (w * q <= length D)%nat ->
  exists q2, (if decide (w <= length (drop (w * q) D))%nat
       then (stripes w stripe (length (drop (w * q) D) / w) (stripes w stripe q v_init D) (drop (w * q) D),
             drop (w * (length (drop (w * q) D) / w)) (drop (w * q) D))
       else (stripes w stripe q v_init D, drop (w * q) D)) = (stripes w stripe q2 v_init D, drop (w * q2) D) /\
    (w * q2 <= length D)%nat /\ (length D - w * q2 < w)%nat.
Proof.
  intros Lq. set (p := drop (w * q) D).
  assert (Lp : length p = (length D - w * q)%nat) by (unfold p; by rewrite length_drop). case_decide as Hp.
  - exists (q + length p / w)%nat. rewrite stripes_add. fold p.
    pose proof (Nat.div_mod_eq (length p) w). pose proof (Nat.mod_upper_bound (length p) w ltac:(lia)).
    split_and!; [|lia|lia]. f_equal. unfold p. rewrite drop_drop. f_equal. lia.
  - exists q. split_and!; [done|lia|lia].
Qed.

Lemma core_update_absorbed v_init d v mem memsize input :
  absorbed v_init d (v, mem, memsize) ->
  absorbed v_init (d ++ input) (core_update v mem memsize input).
Proof.
  intros (q & Ld & Hm & Lm & Et & ->). unfold core_update. case_decide as Hs.
  - exists q. rewrite length_app, memcpy_at_length, memcpy_at_take by lia.
    split_and!; try done; [lia| |].
    + rewrite Et, drop_app_le by lia. done.
    + by rewrite stripes_app by lia.
  - destruct (first_stripe v_init d q mem memsize input Ld Hm Lm Et ltac:(lia)) as (q' & mem' & -> & Lm' & Lq).
    set (D := d ++ input) in *. destruct (whole_stripes v_init D q' Lq) as (q2 & -> & L1 & L2).
    assert (Lr : length (drop (w * q2) D) = (length D - w * q2)%nat) by (by rewrite length_drop).
    case_decide as Hr; exists q2.
    + split_and!; [lia | lia | rewrite memcpy_at_length; lia | | done].
      rewrite <- (Nat.add_0_l (length (drop (w * q2) D))) at 1.
      rewrite memcpy_at_take by lia. by rewrite take_0.
    + split_and!; [lia | lia | done | | done].
      rewrite take_0. symmetry. apply nil_length_inv. lia.
Qed.

End Streaming.

(** ** The streaming functions and the one-shot ones *)

Lemma absorbed_init w stripe v : (0 < w)%nat -> absorbed w stripe v [] (v, replicate w 0, O).
Proof.
  intros Hw. exists O. rewrite Nat.mul_0_r, length_replicate. split_and!; done || lia.
Qed.

Lemma drop_all_but w q ms (d : list Z) : length d = (w * q + ms)%nat -> length (drop (w * q) d) = ms.
Proof. intros H. rewrite length_drop. lia. Qed.

Lemma quotient w q ms n : (0 < w)%nat -> n = (w * q + ms)%nat -> (ms < w)%nat ->
  (n / w = q /\ n mod w = ms)%nat.
Proof.
  intros Hw -> Hm. split.
  - symmetry. by apply Nat.div_unique with ms.
  - symmetry. by apply Nat.mod_unique with q.
Qed.

Lemma u32_of_nat n : u32 (Z.of_nat n) = Z.of_nat n mod 2 ^ 32.
Proof. done. Qed.

Section OneShot.
Variable cfg : config.

Abbreviation stripe32 := (XXH32_stripe cfg XXH_unaligned).
Abbreviation stripe64 := (XXH64_stripe cfg XXH_unaligned).

(** The state after absorbing [d]. *)
Definition absorbed32 (seed : Z) (d : list Z) (s : XXH32_state) : Prop :=
  absorbed 16 stripe32 (XXH32_init seed) d (v32 s, mem32 s, memsize32 s) /\
  total_len_32 s = u32 (Z.of_nat (length d)) /\
  large_len s = Z.b2z (bool_decide (16 <= length d)%nat).

Definition absorbed64 (seed : Z) (d : list Z) (s : XXH64_state) : Prop :=
  absorbed 32 stripe64 (XXH64_init seed) d (v64 s, mem64 s, memsize64 s) /\
  total_len s = u64 (Z.of_nat (length d)).

Lemma wrap_add w a b : wrap w (wrap w a + b) = wrap w (a + b).
Proof. apply Zplus_mod_idemp_l. Qed.

Lemma XXH32_update_core s input :
  let '(v, mem, ms) := core_update 16 stripe32 (v32 s) (mem32 s) (memsize32 s) input in
  let total := u32 (total_len_32 s + u32 (Z.of_nat (length input))) in
  XXH32_update cfg s input = State32 total
    (Z.lor (large_len s) (Z.lor (Z.b2z (bool_decide (16 <= length input)%nat))
       (Z.b2z (bool_decide (16 <= total))))) v mem ms.
Proof.
  unfold XXH32_update, core_update.
  destruct (decide (memsize32 s + length input < 16)%nat); [done|].
  destruct (decide (memsize32 s <> 0)%nat); cbv zeta beta iota.
  - match goal with |- context [stripe32 ?V ?P] => change (stripe32 V P) with
      (Acc (XXH32_round (v0 V) (XXH_readLE32 cfg P)) (XXH32_round (v1 V) (XXH_readLE32 cfg (drop 4 P)))
           (XXH32_round (v2 V) (XXH_readLE32 cfg (drop 8 P))) (XXH32_round (v3 V) (XXH_readLE32 cfg (drop 12 P)))) end.
    repeat case_decide; reflexivity.
  - repeat case_decide; reflexivity.
Qed.

Lemma XXH64_update_core s input :
  let '(v, mem, ms) := core_update 32 stripe64 (v64 s) (mem64 s) (memsize64 s) input in
  XXH64_update cfg s input = State64 (u64 (total_len s + Z.of_nat (length input))) v mem ms.
Proof.
  unfold XXH64_update, core_update.
  destruct (decide (memsize64 s + length input < 32)%nat); [done|].
  destruct (decide (memsize64 s <> 0)%nat); cbv zeta beta iota.
  - match goal with |- context [stripe64 ?V ?P] => change (stripe64 V P) with
      (Acc (XXH64_round (v0 V) (XXH_readLE64 cfg P)) (XXH64_round (v1 V) (XXH_readLE64 cfg (drop 8 P)))
           (XXH64_round (v2 V) (XXH_readLE64 cfg (drop 16 P))) (XXH64_round (v3 V) (XXH_readLE64 cfg (drop 24 P)))) end.
    repeat case_decide; reflexivity.
  - repeat case_decide; reflexivity.
Qed.

(** [large_len] is not fooled by the 32-bit count wrapping. *)
Lemma large_len_update (a b : nat) :
  Z.lor (Z.b2z (bool_decide (16 <= a)%nat))
    (Z.lor (Z.b2z (bool_decide (16 <= b)%nat))
       (Z.b2z (bool_decide (16 <= u32 (u32 (Z.of_nat a) + u32 (Z.of_nat b)))))) =
  Z.b2z (bool_decide (16 <= a + b)%nat).
Proof.
  destruct (decide (16 <= a)%nat).
  { rewrite bool_decide_true, (bool_decide_true (16 <= a + b)%nat) by lia.
    by repeat case_bool_decide. }
  destruct (decide (16 <= b)%nat).
  { rewrite (bool_decide_false (16 <= a)%nat), bool_decide_true, (bool_decide_true (16 <= a + b)%nat) by lia.
    by repeat case_bool_decide. }
  rewrite !(bool_decide_false (16 <= _)%nat) by lia. unfold wrap.
  rewrite !Z.mod_small by (rewrite ?Z.mod_small; lia). cbn [Z.b2z].
  rewrite !Z.lor_0_l. f_equal. apply bool_decide_ext. lia.
Qed.

Lemma XXH32_update_absorbed seed d s input :
  absorbed32 seed d s -> absorbed32 seed (d ++ input) (XXH32_update cfg s input).
Proof.
  intros (A & T & La). pose proof (XXH32_update_core s input) as E.
  pose proof (core_update_absorbed 16 ltac:(lia) stripe32 (XXH32_stripe_app cfg XXH_unaligned)
    _ _ _ _ _ input A) as A'.
  destruct (core_update _ _ _ _ _ input) as [[v mem] ms]. cbv zeta in E. rewrite E.
  split; [exact A'|]. cbn [total_len_32 large_len]. rewrite T, La, length_app. split.
  - unfold wrap. rewrite <- Zplus_mod. f_equal. lia.
  - apply large_len_update.
Qed.

Lemma XXH64_update_absorbed seed d s input :
  absorbed64 seed d s -> absorbed64 seed (d ++ input) (XXH64_update cfg s input).
Proof.
  intros (A & T). pose proof (XXH64_update_core s input) as E.
  pose proof (core_update_absorbed 32 ltac:(lia) stripe64 (XXH64_stripe_app cfg XXH_unaligned)
    _ _ _ _ _ input A) as A'.
  destruct (core_update _ _ _ _ _ input) as [[v mem] ms]. cbv zeta in E. rewrite E.
  split; [exact A'|]. cbn [total_len]. rewrite T, length_app, wrap_add. f_equal. lia.
Qed.

Lemma stripes_ext w (f g : acc4 -> list Z -> acc4) n v p :
  (forall v p, f v p = g v p) -> stripes w f n v p = stripes w g n v p.
Proof. intros H. revert v p. induction n as [|n IH]; intros v p; cbn [stripes]; [done|]. by rewrite H, IH. Qed.

Lemma XXH32_endian_align_eq input len seed a :
  XXH32_endian_align cfg input len seed a = XXH32_endian_align cfg input len seed XXH_unaligned.
Proof.
  unfold XXH32_endian_align. rewrite (stripes_ext _ _ stripe32) by apply XXH32_stripe_align.
  case_decide; by rewrite !XXH32_finalize_eq.
Qed.

Lemma XXH64_endian_align_eq input len seed a :
  XXH64_endian_align cfg input len seed a = XXH64_endian_align cfg input len seed XXH_unaligned.
Proof.
  unfold XXH64_endian_align. rewrite (stripes_ext _ _ stripe64) by apply XXH64_stripe_align.
  case_decide; by rewrite XXH64_finalize_align.
Qed.

Lemma XXH32_init_v2 seed : u32 (v2 (XXH32_init seed) + XXH_PRIME32_5) = u32 (seed + XXH_PRIME32_5).
Proof. cbn [v2 XXH32_init]. rewrite Z.add_0_r. apply wrap_add. Qed.

Lemma XXH64_init_v2 seed : u64 (v2 (XXH64_init seed) + XXH_PRIME64_5) = u64 (seed + XXH_PRIME64_5).
Proof. cbn [v2 XXH64_init]. rewrite Z.add_0_r. apply wrap_add. Qed.

(** The digest of a state is the one-shot hash of what it absorbed, and the
    one-shot hash does not read past the length it is given. *)
Lemma XXH32_digest_absorbed seed d s extra :
  absorbed32 seed d s ->
  XXH32_digest cfg s = XXH32_endian_align cfg (d ++ extra) (length d) seed XXH_unaligned.
Proof.
  intros ((q & Ld & Hm & Lm & Et & Ev) & T & La). unfold XXH32_digest, XXH32_endian_align.
  destruct (quotient 16 q (memsize32 s) (length d) ltac:(lia) Ld Hm) as [Eq Em].
  rewrite La, T, Ev, Eq, Em, XXH32_finalize_eq.
  assert (Ef : forall h, XXH32_finalize_compact cfg h (mem32 s) (memsize32 s) XXH_unaligned =
    XXH32_finalize cfg h (drop (16 * q) d) (memsize32 s) XXH_unaligned).
  { intros h. rewrite <- XXH32_finalize_eq with (a := XXH_unaligned), <- Et.
    rewrite <- (take_drop (memsize32 s) (mem32 s)) at 1. apply XXH32_finalize_app.
    rewrite length_take, Nat.mod_small by lia. lia. }
  rewrite Ef. rewrite stripes_app with (stripe := stripe32) (p := d) (r := extra);
    [|lia|apply XXH32_stripe_app|lia].
  destruct (decide (16 <= length d)%nat).
  - rewrite bool_decide_true by done. rewrite (decide_False (P := Z.b2z true = 0)) by done.
    rewrite drop_app_le by lia. rewrite (XXH32_finalize_app cfg _ (drop (16 * q) d) extra); [done|].
    rewrite length_drop, Nat.mod_small by lia. lia.
  - rewrite bool_decide_false by done. rewrite decide_True by done.
    assert (q = O) as -> by lia. cbn [stripes]. rewrite XXH32_init_v2, Nat.mul_0_r, drop_0.
    rewrite (XXH32_finalize_app cfg _ d extra); [done|]. rewrite Nat.mod_small by lia. lia.
Qed.

Lemma XXH64_digest_absorbed seed d s extra :
  absorbed64 seed d s -> Z.of_nat (length d) < 2 ^ 64 ->
  XXH64_digest cfg s = XXH64_endian_align cfg (d ++ extra) (length d) seed XXH_unaligned.
Proof.
  intros ((q & Ld & Hm & Lm & Et & Ev) & T) Hd. unfold XXH64_digest, XXH64_endian_align.
  destruct (quotient 32 q (memsize64 s) (length d) ltac:(lia) Ld Hm) as [Eq Em].
  assert (Ew : u64 (Z.of_nat (length d)) = Z.of_nat (length d)) by (apply Z.mod_small; lia).
  rewrite T, Ew, Ev, Eq, Nat2Z.id, XXH64_finalize_align.
  assert (Ef : forall h, XXH64_finalize cfg h (mem64 s) (length d) XXH_unaligned =
    XXH64_finalize cfg h (drop (32 * q) d) (length d) XXH_unaligned).
  { intros h. rewrite <- Et. rewrite <- (take_drop (memsize64 s) (mem64 s)) at 1.
    apply XXH64_finalize_app. rewrite Em, length_take. lia. }
  rewrite Ef. rewrite stripes_app with (stripe := stripe64) (p := d) (r := extra);
    [|lia|apply XXH64_stripe_app|lia].
  destruct (decide (32 <= length d)%nat).
  - rewrite (decide_True (P := 32 <= Z.of_nat (length d))) by lia.
    rewrite drop_app_le by lia. rewrite (XXH64_finalize_app cfg _ (drop (32 * q) d) extra); [done|].
    rewrite Em, length_drop. lia.
  - rewrite (decide_False (P := 32 <= Z.of_nat (length d))) by lia.
    assert (q = O) as -> by lia. cbn [stripes]. rewrite XXH64_init_v2, Nat.mul_0_r, drop_0.
    rewrite (XXH64_finalize_app cfg _ d extra); [done|]. lia.
Qed.

Lemma XXH32_feed seed chunks d s :
  absorbed32 seed d s -> absorbed32 seed (d ++ concat chunks) (foldl (XXH32_update cfg) s chunks).
Proof.
  revert d s. induction chunks as [|c chunks IH]; intros d s A; simpl; [by rewrite app_nil_r|].
  rewrite app_assoc. by apply IH, XXH32_update_absorbed.
Qed.

Lemma XXH64_feed seed chunks d s :
  absorbed64 seed d s -> absorbed64 seed (d ++ concat chunks) (foldl (XXH64_update cfg) s chunks).
Proof.
  revert d s. induction chunks as [|c chunks IH]; intros d s A; simpl; [by rewrite app_nil_r|].
  rewrite app_assoc. by apply IH, XXH64_update_absorbed.
Qed.

Lemma XXH32_reset_absorbed seed : absorbed32 seed [] (XXH32_reset seed).
Proof. split; [by apply absorbed_init; lia|]. done. Qed.

Lemma XXH64_reset_absorbed seed : absorbed64 seed [] (XXH64_reset seed).
Proof. split; [by apply absorbed_init; lia|]. done. Qed.

(** Every way to call the one-shot function is the plain loop. *)
Lemma XXH32_eq addr input seed :
  XXH32 cfg addr input seed = XXH32_endian_align cfg input (length input) seed XXH_unaligned.
Proof.
  unfold XXH32. destruct (SIZE_OPT_2 cfg).
  - rewrite <- (app_nil_r input) at 2. apply XXH32_digest_absorbed.
    apply (XXH32_update_absorbed seed [] _ input (XXH32_reset_absorbed seed)).
  - destruct (_ && _); [apply XXH32_endian_align_eq | done].
Qed.

Lemma XXH64_eq addr input seed : Z.of_nat (length input) < 2 ^ 64 ->
  XXH64 cfg addr input seed = XXH64_endian_align cfg input (length input) seed XXH_unaligned.
Proof.
  intros H. unfold XXH64. destruct (SIZE_OPT_2 cfg).
  - rewrite <- (app_nil_r input) at 2. apply XXH64_digest_absorbed; [|done].
    apply (XXH64_update_absorbed seed [] _ input (XXH64_reset_absorbed seed)).
  - destruct (_ && _); [apply XXH64_endian_align_eq | done].
Qed.

End OneShot.

(** ** Byte order *)

Lemma shift_byte_land b r : is_byte b -> Z.land (Z.lor b (Z.shiftl r 8)) 255 = b.
Proof.
  intros Hb. change 255 with (Z.ones 8). apply Z.bits_inj'. intros n Hn.
  rewrite Z.land_spec, Z.lor_spec, Z.testbit_ones_nonneg by lia.
  destruct (Z.lt_ge_cases n 8) as [Hn8|Hn8].
  - rewrite Z.shiftl_spec_low, orb_false_r by lia.
    by rewrite (proj2 (Z.ltb_lt n 8) Hn8), andb_true_r.
  - rewrite (proj2 (Z.ltb_ge n 8)), andb_false_r by lia. symmetry. by apply byte_bits.
Qed.

Lemma shift_byte_shiftr b r : is_byte b -> Z.shiftr (Z.lor b (Z.shiftl r 8)) 8 = r.
Proof.
  intros Hb. apply Z.bits_inj'. intros n Hn.
  rewrite Z.shiftr_spec, Z.lor_spec, Z.shiftl_spec by lia.
  rewrite byte_bits by (done || lia). simpl. f_equal. lia.
Qed.

Lemma le_bytes_value l : bytes l -> le_bytes (length l) (le_value (length l) l) = l.
Proof.
  induction 1 as [|b l Hb Hl IH]; [done|]. cbn [length le_value le_bytes].
  by rewrite shift_byte_land, shift_byte_shiftr, IH.
Qed.

Lemma le_value_bytes n x : fits (8 * Z.of_nat n) x -> le_value n (le_bytes n x) = x.
Proof.
  revert x. induction n as [|n IH]; intros x Hx.
  - change (0 <= x < 1) in Hx. simpl. lia.
  - unfold fits in Hx. cbn [le_bytes le_value].
    rewrite IH.
    + apply Z.bits_inj'. intros k Hk. rewrite Z.lor_spec, Z.land_spec.
      destruct (Z.lt_ge_cases k 8).
      * rewrite Z.shiftl_spec_low, orb_false_r by lia. change 255 with (Z.ones 8).
        by rewrite Z.ones_spec_low, andb_true_r by lia.
      * rewrite Z.shiftl_spec, Z.shiftr_spec by lia. change 255 with (Z.ones 8).
        rewrite Z.ones_spec_high, andb_false_r by lia. simpl. f_equal. lia.
    + unfold fits. rewrite Z.shiftr_div_pow2 by lia.
      replace (8 * Z.of_nat (S n)) with (8 + 8 * Z.of_nat n) in Hx by lia.
      rewrite Z.pow_add_r in Hx by lia. split; [apply Z.div_pos; lia|].
      apply Z.div_lt_upper_bound; lia.
Qed.

Lemma le_bytes_length n x : length (le_bytes n x) = n.
Proof. revert x. induction n as [|n IH]; intros x; [done|]. cbn. by rewrite IH. Qed.

Lemma byte_land_255 x : is_byte (Z.land x 255).
Proof. change 255 with (Z.ones 8). rewrite Z.land_ones by lia. by apply Z.mod_pos_bound. Qed.

Lemma le_bytes_bytes n x : bytes (le_bytes n x).
Proof.
  revert x. induction n as [|n IH]; intros x; constructor; [apply byte_land_255 | apply IH].
Qed.

Lemma le_value_bound l : bytes l -> fits (8 * Z.of_nat (length l)) (le_value (length l) l).
Proof.
  induction 1 as [|b l Hb Hl IH]; [done|]. cbn [length le_value]. unfold fits in *.
  replace (8 * Z.of_nat (S (length l))) with (8 + 8 * Z.of_nat (length l)) by lia.
  rewrite Z.pow_add_r by lia. set (r := le_value _ l) in *. set (m := 2 ^ (8 * Z.of_nat (length l))) in *.
  assert (E : Z.lor b (Z.shiftl r 8) = b + 256 * r).
  { assert (Ea : Z.land b (Z.shiftl r 8) = 0).
    { apply Z.bits_inj'. intros k Hk. rewrite Z.land_spec, Z.bits_0. destruct (Z.lt_ge_cases k 8).
      - rewrite Z.shiftl_spec_low by lia. apply andb_false_r.
      - by rewrite byte_bits. }
    rewrite <- Z.lxor_lor, <- Z.add_nocarry_lxor by done. rewrite Z.shiftl_mul_pow2 by lia. lia. }
  rewrite E. lia.
Qed.

(** The swaps are linear, and move each byte to its place. *)
Lemma XXH_swap32_lor x y : XXH_swap32 (Z.lor x y) = Z.lor (XXH_swap32 x) (XXH_swap32 y).
Proof.
  unfold XXH_swap32. rewrite !Z.shiftl_lor, !Z.shiftr_lor, !Z.land_lor_distr_l.
  apply Z.bits_inj. intros n. rewrite !Z.lor_spec. btauto.
Qed.

Lemma XXH_swap64_lor x y : XXH_swap64 (Z.lor x y) = Z.lor (XXH_swap64 x) (XXH_swap64 y).
Proof.
  unfold XXH_swap64. rewrite !Z.shiftl_lor, !Z.shiftr_lor, !Z.land_lor_distr_l.
  apply Z.bits_inj. intros n. rewrite !Z.lor_spec. btauto.
Qed.

Lemma swap32_byte b : is_byte b ->
  XXH_swap32 b = Z.shiftl b 24 /\ XXH_swap32 (Z.shiftl b 8) = Z.shiftl b 16 /\
  XXH_swap32 (Z.shiftl b 16) = Z.shiftl b 8 /\ XXH_swap32 (Z.shiftl b 24) = b.
Proof. intros H. split_and!; by_bytes b. Qed.

Lemma swap64_byte b : is_byte b ->
  XXH_swap64 b = Z.shiftl b 56 /\ XXH_swap64 (Z.shiftl b 8) = Z.shiftl b 48 /\
  XXH_swap64 (Z.shiftl b 16) = Z.shiftl b 40 /\ XXH_swap64 (Z.shiftl b 24) = Z.shiftl b 32 /\
  XXH_swap64 (Z.shiftl b 32) = Z.shiftl b 24 /\ XXH_swap64 (Z.shiftl b 40) = Z.shiftl b 16 /\
  XXH_swap64 (Z.shiftl b 48) = Z.shiftl b 8 /\ XXH_swap64 (Z.shiftl b 56) = b.
Proof. intros H. split_and!; by_bytes b. Qed.

(** A word of bytes as one [lor] of shifted bytes. *)
Ltac flatten_le :=
  unfold reverse; cbn [le_value app reverse rev_append];
  repeat progress (rewrite ?Z.shiftl_0_l, ?Z.lor_0_r, ?Z.shiftl_lor, ?Z.shiftl_shiftl by lia);
  repeat match goal with |- context [Z.shiftl ?x ?k] =>
    let r := eval vm_compute in k in progress change (Z.shiftl x k) with (Z.shiftl x r) end.

Lemma swap32_reverse l : bytes l -> length l = 4%nat ->
  XXH_swap32 (le_value 4 (reverse l)) = le_value 4 l.
Proof.
  intros B L. destruct l as [|a [|b [|c [|d []]]]]; try discriminate L.
  unfold bytes in B. rewrite !Forall_cons in B. destruct B as (Ha & Hb & Hc & Hd & _).
  flatten_le.
  rewrite !XXH_swap32_lor.
  destruct (swap32_byte a Ha) as (A1 & A2 & A3 & A4), (swap32_byte b Hb) as (B1 & B2 & B3 & B4),
    (swap32_byte c Hc) as (C1 & C2 & C3 & C4), (swap32_byte d Hd) as (D1 & D2 & D3 & D4).
  rewrite ?A4, ?B3, ?C2, ?D1. apply Z.bits_inj. intros n. rewrite !Z.lor_spec. btauto.
Qed.

Lemma swap64_reverse l : bytes l -> length l = 8%nat ->
  XXH_swap64 (le_value 8 (reverse l)) = le_value 8 l.
Proof.
  intros B L. destruct l as [|a [|b [|c [|d [|e [|f [|g [|h []]]]]]]]]; try discriminate L.
  unfold bytes in B. rewrite !Forall_cons in B. destruct B as (Ha & Hb & Hc & Hd & He & Hf & Hg & Hh & _).
  flatten_le.
  rewrite !XXH_swap64_lor.
  rewrite (proj1 (swap64_byte h Hh)), (proj1 (proj2 (swap64_byte g Hg))),
    (proj1 (proj2 (proj2 (swap64_byte f Hf)))), (proj1 (proj2 (proj2 (proj2 (swap64_byte e He))))),
    (proj1 (proj2 (proj2 (proj2 (proj2 (swap64_byte d Hd)))))),
    (proj1 (proj2 (proj2 (proj2 (proj2 (proj2 (swap64_byte c Hc))))))),
    (proj1 (proj2 (proj2 (proj2 (proj2 (proj2 (proj2 (swap64_byte b Hb)))))))),
    (proj2 (proj2 (proj2 (proj2 (proj2 (proj2 (proj2 (swap64_byte a Ha)))))))).
  apply Z.bits_inj. intros n. rewrite !Z.lor_spec. btauto.
Qed.

(** A swapped word is its bytes read backwards. *)
Lemma swap32_value x : fits 32 x -> XXH_swap32 x = le_value 4 (reverse (le_bytes 4 x)).
Proof.
  intros H. rewrite <- (swap32_reverse (reverse (le_bytes 4 x))); rewrite ?reverse_involutive.
  - by rewrite (le_value_bytes 4).
  - apply Forall_reverse, le_bytes_bytes.
  - by rewrite length_reverse, le_bytes_length.
Qed.

Lemma swap64_value x : fits 64 x -> XXH_swap64 x = le_value 8 (reverse (le_bytes 8 x)).
Proof.
  intros H. rewrite <- (swap64_reverse (reverse (le_bytes 8 x))); rewrite ?reverse_involutive.
  - by rewrite (le_value_bytes 8).
  - apply Forall_reverse, le_bytes_bytes.
  - by rewrite length_reverse, le_bytes_length.
Qed.

(** ** The build options do not change the hash *)

Lemma bytes_take n l : bytes l -> bytes (take n l).
Proof. apply Forall_take. Qed.
Lemma bytes_drop n l : bytes l -> bytes (drop n l).
Proof. apply Forall_drop. Qed.
Lemma bytes_reverse l : bytes l -> bytes (reverse l).
Proof. unfold bytes. by rewrite Forall_reverse. Qed.

#[export] Hint Resolve bytes_take bytes_drop bytes_reverse : bytes.

Lemma le_value_take n p : (n <= length p)%nat -> le_value n (take n p) = le_value n p.
Proof.
  intros H. rewrite <- (take_drop n p) at 2. rewrite le_value_app; [done|]. rewrite length_take. lia.
Qed.

Lemma XXH_readLE32_value cfg p : bytes p -> (4 <= length p)%nat -> XXH_readLE32 cfg p = le_value 4 p.
Proof.
  intros B L. unfold XXH_readLE32, XXH_read32. destruct (LITTLE_ENDIAN cfg); [done|].
  rewrite swap32_reverse; [by apply le_value_take | auto with bytes | rewrite length_take; lia].
Qed.

Lemma XXH_readLE64_value cfg p : bytes p -> (8 <= length p)%nat -> XXH_readLE64 cfg p = le_value 8 p.
Proof.
  intros B L. unfold XXH_readLE64, XXH_read64. destruct (LITTLE_ENDIAN cfg); [done|].
  rewrite swap64_reverse; [by apply le_value_take | auto with bytes | rewrite length_take; lia].
Qed.

Lemma stripes_bytes w f g n v p :
  (forall v p, bytes p -> (w <= length p)%nat -> f v p = g v p) ->
  bytes p -> (w * n <= length p)%nat -> stripes w f n v p = stripes w g n v p.
Proof.
  intros H. revert v p. induction n as [|n IH]; intros v p B L; cbn [stripes]; [done|].
  rewrite H by (done || lia). apply IH; [auto with bytes|]. rewrite length_drop. lia.
Qed.

Lemma iter_bytes k f g n (s : Z * list Z) :
  (forall s, bytes s.2 -> (k <= length s.2)%nat -> f s = g s /\ (f s).2 = drop k s.2) ->
  bytes s.2 -> (k * n <= length s.2)%nat ->
  Nat.iter n f s = Nat.iter n g s /\ (Nat.iter n f s).2 = drop (k * n) s.2.
Proof.
  intros H B. induction n as [|n IH]; intros L.
  - rewrite Nat.mul_0_r. done.
  - destruct IH as [E D]; [lia|]. rewrite !Nat.iter_succ, <- E.
    destruct (H (Nat.iter n f s)) as [E' D']; rewrite ?D; [auto with bytes | rewrite length_drop; lia|].
    split; [done|]. rewrite D', D, drop_drop. f_equal. lia.
Qed.

Lemma XXH32_align_config c1 c2 d seed :
  bytes d -> XXH32_endian_align c1 d (length d) seed XXH_unaligned =
             XXH32_endian_align c2 d (length d) seed XXH_unaligned.
Proof.
  intros B. unfold XXH32_endian_align. pose proof (Nat.div_mod_eq (length d) 16).
  assert (F : forall h p, bytes p -> (length p = length d mod 16)%nat ->
    XXH32_finalize c1 h p (length d mod 16) XXH_unaligned = XXH32_finalize c2 h p (length d mod 16) XXH_unaligned).
  { intros h p Bp Lp. rewrite !XXH32_finalize_eq. unfold XXH32_finalize_compact.
    rewrite Nat.Div0.mod_mod. set (n := (length d mod 16)%nat) in *. pose proof (Nat.div_mod_eq n 4).
    destruct (iter_bytes 4 (XXH_PROCESS4 c1 XXH_unaligned) (XXH_PROCESS4 c2 XXH_unaligned) (n / 4) (h, p))
      as [-> _]; [|done|cbn [snd]; lia|done].
    intros [h' q] Bq Lq. unfold XXH_PROCESS4. cbn [fst snd] in *.
    by rewrite !XXH_readLE32_align_eq, !XXH_readLE32_value. }
  pose proof (Nat.mod_upper_bound (length d) 16 ltac:(lia)). case_decide.
  - rewrite (stripes_bytes 16 (XXH32_stripe c1 XXH_unaligned) (XXH32_stripe c2 XXH_unaligned));
      [| |done|lia].
    + apply F; [auto with bytes|]. rewrite length_drop. lia.
    + intros v p Bp Lp. unfold XXH32_stripe.
      rewrite !XXH_readLE32_align_eq, !XXH_readLE32_value by (auto with bytes || rewrite ?length_drop; lia).
      done.
  - apply F; [done|]. rewrite Nat.mod_small by lia. done.
Qed.

Lemma XXH64_align_config c1 c2 d seed :
  bytes d -> XXH64_endian_align c1 d (length d) seed XXH_unaligned =
             XXH64_endian_align c2 d (length d) seed XXH_unaligned.
Proof.
  intros B. unfold XXH64_endian_align. pose proof (Nat.div_mod_eq (length d) 32).
  assert (F : forall h p, bytes p -> (length p = length d mod 32)%nat ->
    XXH64_finalize c1 h p (length d) XXH_unaligned = XXH64_finalize c2 h p (length d) XXH_unaligned).
  { intros h p Bp Lp. unfold XXH64_finalize.
    set (n := (length d mod 32)%nat) in *. pose proof (Nat.div_mod_eq n 8).
    destruct (iter_bytes 8 (XXH64_step8 c1 XXH_unaligned) (XXH64_step8 c2 XXH_unaligned) (n / 8) (h, p))
      as [E D]; [|done|cbn [snd]; lia|].
    { intros [h' q] Bq Lq. unfold XXH64_step8. cbn [fst snd] in *.
      by rewrite !XXH_readLE64_align_eq, !XXH_readLE64_value. }
    rewrite <- E. case_decide; [|done]. do 3 f_equal. unfold XXH64_step4.
    rewrite !XXH_readLE32_align_eq, !D. cbn [fst snd].
    by rewrite !XXH_readLE32_value by (auto with bytes || rewrite ?length_drop; lia). }
  pose proof (Nat.mod_upper_bound (length d) 32 ltac:(lia)). case_decide.
  - rewrite (stripes_bytes 32 (XXH64_stripe c1 XXH_unaligned) (XXH64_stripe c2 XXH_unaligned));
      [| |done|lia].
    + apply F; [auto with bytes|]. rewrite length_drop. lia.
    + intros v p Bp Lp. unfold XXH64_stripe.
      rewrite !XXH_readLE64_align_eq, !XXH_readLE64_value by (auto with bytes || rewrite ?length_drop; lia).
      done.
  - apply F; [done|]. rewrite Nat.mod_small by lia. done.
Qed.

Lemma XXH32_avalanche_fits h : fits 32 (XXH32_avalanche h).
Proof. unfold XXH32_avalanche. auto with fits. Qed.

Lemma XXH64_avalanche_fits h : fits 64 (XXH64_avalanche h).
Proof. unfold XXH64_avalanche. auto with fits. Qed.

(** ** Properties *)

(** C12: streaming is the one-shot hash: a reset state fed with any chunks
    (empty ones, ones that end inside a stripe, ones longer than the buffer)
    digests to the hash of their concatenation, for both widths, every seed
    and every build of the header; XXH32 even when the 32-bit length wraps,
    XXH64 below 2^64 bytes. *)
Theorem xxh_streaming (cfg : config) (addr seed : Z) (chunks : list (list Z)) :
  XXH32_digest cfg (foldl (XXH32_update cfg) (XXH32_reset seed) chunks) =
    XXH32 cfg addr (concat chunks) seed /\
  (Z.of_nat (length (concat chunks)) < 2 ^ 64 ->
   XXH64_digest cfg (foldl (XXH64_update cfg) (XXH64_reset seed) chunks) =
     XXH64 cfg addr (concat chunks) seed).
Proof.
  split.
  - rewrite XXH32_eq. rewrite <- (app_nil_r (concat chunks)) at 1.
    apply XXH32_digest_absorbed, (XXH32_feed cfg seed chunks [] _ (XXH32_reset_absorbed cfg seed)).
  - intros H. rewrite XXH64_eq by done. rewrite <- (app_nil_r (concat chunks)) at 1.
    apply XXH64_digest_absorbed; [|done].
    apply (XXH64_feed cfg seed chunks [] _ (XXH64_reset_absorbed cfg seed)).
Qed.

(** A big-endian build with every option on. *)
Definition big_config : config := Config false true true true.
Definition default_config : config := Config true false false false.

Definition nobody : list Z :=
  [78; 111; 98; 111; 100; 121; 32; 105; 110; 115; 112; 101; 99; 116; 115; 32; 116; 104; 101; 32;
   115; 112; 97; 109; 109; 105; 115; 104; 32; 114; 101; 112; 101; 116; 105; 116; 105; 111; 110].

Lemma xxh_streaming_witness :
  XXH64_digest default_config
    (foldl (XXH64_update default_config) (XXH64_reset 0) [take 5 nobody; []; drop 5 nobody]) =
  XXH64 default_config 0 nobody 0.
Proof.
  exact (proj2 (xxh_streaming default_config 0 0 [take 5 nobody; []; drop 5 nobody]) eq_refl).
Defined.

(** The hash of a buffer depends on its bytes and the seed only: not on the
    byte order of the CPU, the alignment check and the address, the unrolled
    tail, or the size-optimised build; it fits its width; and nothing past
    the buffer is read. *)
Theorem xxh_config_independent (c1 c2 : config) (a1 a2 seed : Z) (input extra : list Z) :
  bytes input -> Z.of_nat (length input) < 2 ^ 64 ->
  XXH32 c1 a1 input seed = XXH32 c2 a2 input seed /\ fits 32 (XXH32 c1 a1 input seed) /\
  XXH64 c1 a1 input seed = XXH64 c2 a2 input seed /\ fits 64 (XXH64 c1 a1 input seed) /\
  (forall a, XXH32_endian_align c1 (input ++ extra) (length input) seed a = XXH32 c1 a1 input seed) /\
  (forall a, XXH64_endian_align c1 (input ++ extra) (length input) seed a = XXH64 c1 a1 input seed).
Proof.
  intros B L. rewrite !XXH32_eq, !XXH64_eq by done.
  pose proof (XXH32_feed c1 seed [input] [] _ (XXH32_reset_absorbed c1 seed)) as A32.
  pose proof (XXH64_feed c1 seed [input] [] _ (XXH64_reset_absorbed c1 seed)) as A64.
  cbn [concat app] in A32, A64. rewrite app_nil_r in A32, A64.
  split_and!.
  - by apply XXH32_align_config.
  - unfold XXH32_endian_align. case_decide; rewrite XXH32_finalize_eq; apply XXH32_avalanche_fits.
  - by apply XXH64_align_config.
  - unfold XXH64_endian_align, XXH64_finalize. repeat case_decide; apply XXH64_avalanche_fits.
  - intros a. rewrite XXH32_endian_align_eq. rewrite <- (XXH32_digest_absorbed c1 seed input _ extra A32).
    rewrite (XXH32_digest_absorbed c1 seed input _ [] A32). by rewrite app_nil_r.
  - intros a. rewrite XXH64_endian_align_eq. rewrite <- (XXH64_digest_absorbed c1 seed input _ extra A64 L).
    rewrite (XXH64_digest_absorbed c1 seed input _ [] A64 L). by rewrite app_nil_r.
Qed.

Lemma xxh_config_independent_witness :
  XXH64 big_config 3 nobody 5 = XXH64 default_config 8 nobody 5.
Proof.
  assert (B : bytes nobody) by (apply (bool_decide_unpack _); vm_compute; exact I).
  exact (proj1 (proj2 (proj2 (xxh_config_independent big_config default_config 3 8 5 nobody [] B eq_refl)))).
Defined.

(** The canonical form is the big-endian bytes of the hash whatever the
    CPU, and reading it back gives the hash, also on another CPU. *)
Theorem xxh_canonical_roundtrip (c1 c2 : config) (h32 h64 : Z) :
  fits 32 h32 -> fits 64 h64 ->
  XXH32_canonicalFromHash c1 h32 = reverse (le_bytes 4 h32) /\
  XXH32_hashFromCanonical c2 (XXH32_canonicalFromHash c1 h32) = h32 /\
  XXH64_canonicalFromHash c1 h64 = reverse (le_bytes 8 h64) /\
  XXH64_hashFromCanonical c2 (XXH64_canonicalFromHash c1 h64) = h64.
Proof.
  intros H32 H64.
  assert (C32 : XXH32_canonicalFromHash c1 h32 = reverse (le_bytes 4 h32)).
  { unfold XXH32_canonicalFromHash, store32. destruct (LITTLE_ENDIAN c1); [|done].
    rewrite swap32_value by done. apply (le_bytes_value (reverse (le_bytes 4 h32))).
    apply bytes_reverse, le_bytes_bytes. }
  assert (C64 : XXH64_canonicalFromHash c1 h64 = reverse (le_bytes 8 h64)).
  { unfold XXH64_canonicalFromHash, store64. destruct (LITTLE_ENDIAN c1); [|done].
    rewrite swap64_value by done. apply (le_bytes_value (reverse (le_bytes 8 h64))).
    apply bytes_reverse, le_bytes_bytes. }
  split; [done|]. split.
  { rewrite C32. unfold XXH32_hashFromCanonical, XXH_readBE32, XXH_read32.
    destruct (LITTLE_ENDIAN c2).
    - rewrite swap32_reverse; [by apply (le_value_bytes 4)|apply le_bytes_bytes|apply le_bytes_length].
    - rewrite take_ge by (rewrite length_reverse, le_bytes_length; lia).
      rewrite reverse_involutive. by apply (le_value_bytes 4). }
  split; [done|].
  rewrite C64. unfold XXH64_hashFromCanonical, XXH_readBE64, XXH_read64.
  destruct (LITTLE_ENDIAN c2).
  - rewrite swap64_reverse; [by apply (le_value_bytes 8)|apply le_bytes_bytes|apply le_bytes_length].
  - rewrite take_ge by (rewrite length_reverse, le_bytes_length; lia).
    rewrite reverse_involutive. by apply (le_value_bytes 8).
Qed.

Lemma xxh_canonical_roundtrip_witness :
  XXH64_canonicalFromHash big_config 0xEF46DB3751D8E999 = [0xEF; 0x46; 0xDB; 0x37; 0x51; 0xD8; 0xE9; 0x99] /\
  XXH64_hashFromCanonical default_config (XXH64_canonicalFromHash big_config 0xEF46DB3751D8E999) =
    0xEF46DB3751D8E999.
Proof.
  assert (B1 : fits 32 0) by (apply (bool_decide_unpack _); vm_compute; exact I).
  assert (B2 : fits 64 0xEF46DB3751D8E999) by (apply (bool_decide_unpack _); vm_compute; exact I).
  destruct (xxh_canonical_roundtrip big_config default_config 0 0xEF46DB3751D8E999 B1 B2) as (_ & _ & E1 & E2).
  split; [exact E1 | exact E2].
Defined.

(** Known values: the hashes of the empty input, of "abc" and of "Nobody
    inspects the spammish repetition", with seed 0. *)
Theorem xxh_known_values (cfg := default_config) :
  XXH32 cfg 0 [] 0 = 0x02CC5D05 /\ XXH64 cfg 0 [] 0 = 0xEF46DB3751D8E999 /\
  XXH32 cfg 0 [97; 98; 99] 0 = 0x32D153FF /\ XXH64 cfg 0 [97; 98; 99] 0 = 0x44BC2CF5AD770999 /\
  XXH32 cfg 0 nobody 0 = 0xE2293B2F /\ XXH64 cfg 0 nobody 0 = 0xFBCEA83C8A378BF1.
Proof. vm_compute. done. Qed.
