(* ===== verification/Xxh3.v ===== *)
(** * XXH3 and XXH128: the one-shot functions (src/src/xxhash.h)

    The short, middle and long inputs of both widths, the seeded and secret
    variants and the scalar accumulator.  The build is a parameter: the byte order, XXH_SIZE_OPT, the
    128-bit multiply of the compiler or the portable one, the width of a
    pointer; and the class [Vector] is the choice of XXH_VECTOR, of which
    the scalar implementation is an instance here and others are in Xxh3Vec.v.
    The streaming functions are in Xxh3Stream.v, the canonical form and the
    generation of secrets in Xxh3Secret.v.  A pointer is the list of the
    bytes from it on, and [p +: n] is the pointer [n] bytes further. *)

From Stdlib Require Import ZArith Lia.
From stdpp Require Import prelude gmap.
From S2P Require Import Prelude Xxhash.

Notation "p +: n" := (drop n p) (at level 50, left associativity) : rkx_scope.

(** ** The build, and the results *)

Record build := Build {
  base : config;
  SIZE_OPT : nat;
  INT128 : bool;
  PTR32 : bool
}.

Record XXH128_hash_t := H128 { low64 : Z; high64 : Z }.

#[export] Instance XXH128_hash_eq_dec : EqDecision XXH128_hash_t.
Proof. solve_decision. Defined.

Inductive XXH_errorcode := XXH_OK | XXH_ERROR.

#[export] Instance XXH_errorcode_eq_dec : EqDecision XXH_errorcode.
Proof. solve_decision. Defined.

(** ** The constants *)

Definition XXH3_SECRET_SIZE_MIN : nat := 136.
Definition XXH_SECRET_DEFAULT_SIZE : nat := 192.
Definition XXH3_MIDSIZE_MAX : nat := 240.
Definition XXH3_MIDSIZE_STARTOFFSET : nat := 3.
Definition XXH3_MIDSIZE_LASTOFFSET : nat := 17.
Definition XXH_STRIPE_LEN : nat := 64.
Definition XXH_SECRET_CONSUME_RATE : nat := 8.
Definition XXH_ACC_NB : nat := XXH_STRIPE_LEN / 8.
Definition XXH_SECRET_LASTACC_START : nat := 7.
Definition XXH_SECRET_MERGEACCS_START : nat := 11.

Definition XXH3_kSecret : list Z := [
  0xb8; 0xfe; 0x6c; 0x39; 0x23; 0xa4; 0x4b; 0xbe; 0x7c; 0x01; 0x81; 0x2c; 0xf7; 0x21; 0xad; 0x1c;
  0xde; 0xd4; 0x6d; 0xe9; 0x83; 0x90; 0x97; 0xdb; 0x72; 0x40; 0xa4; 0xa4; 0xb7; 0xb3; 0x67; 0x1f;
  0xcb; 0x79; 0xe6; 0x4e; 0xcc; 0xc0; 0xe5; 0x78; 0x82; 0x5a; 0xd0; 0x7d; 0xcc; 0xff; 0x72; 0x21;
  0xb8; 0x08; 0x46; 0x74; 0xf7; 0x43; 0x24; 0x8e; 0xe0; 0x35; 0x90; 0xe6; 0x81; 0x3a; 0x26; 0x4c;
  0x3c; 0x28; 0x52; 0xbb; 0x91; 0xc3; 0x00; 0xcb; 0x88; 0xd0; 0x65; 0x8b; 0x1b; 0x53; 0x2e; 0xa3;
  0x71; 0x64; 0x48; 0x97; 0xa2; 0x0d; 0xf9; 0x4e; 0x38; 0x19; 0xef; 0x46; 0xa9; 0xde; 0xac; 0xd8;
  0xa8; 0xfa; 0x76; 0x3f; 0xe3; 0x9c; 0x34; 0x3f; 0xf9; 0xdc; 0xbb; 0xc7; 0xc7; 0x0b; 0x4f; 0x1d;
  0x8a; 0x51; 0xe0; 0x4b; 0xcd; 0xb4; 0x59; 0x31; 0xc8; 0x9f; 0x7e; 0xc9; 0xd9; 0x78; 0x73; 0x64;
  0xea; 0xc5; 0xac; 0x83; 0x34; 0xd3; 0xeb; 0xc3; 0xc5; 0x81; 0xa0; 0xff; 0xfa; 0x13; 0x63; 0xeb;
  0x17; 0x0d; 0xdd; 0x51; 0xb7; 0xf0; 0xda; 0x49; 0xd3; 0x16; 0x55; 0x26; 0x29; 0xd4; 0x68; 0x9e;
  0x2b; 0x16; 0xbe; 0x58; 0x7d; 0x47; 0xa1; 0xfc; 0x8f; 0xf8; 0xb8; 0xd1; 0x7a; 0xd0; 0x31; 0xce;
  0x45; 0xcb; 0x3a; 0x8f; 0x95; 0x16; 0x04; 0x28; 0xaf; 0xd7; 0xfb; 0xca; 0xbb; 0x4b; 0x40; 0x7e].

Definition PRIME_MX1 : Z := 0x165667919E3779F9.
Definition PRIME_MX2 : Z := 0x9FB21C651E98DF25.

(** ** Multiplication and mixing *)

Definition XXH_mult32to64 (x y : Z) : Z := u64 (u32 x * u32 y).

Definition XXH_xorshift64 (v64 : Z) (shift : Z) : Z := Z.lxor v64 (Z.shiftr v64 shift).

Definition XXH3_avalanche (h64 : Z) : Z :=
  let h64 := XXH_xorshift64 h64 37 in
  let h64 := u64 (h64 * PRIME_MX1) in
  XXH_xorshift64 h64 32.

Definition XXH3_rrmxmx (h64 : Z) (len : nat) : Z :=
  let h64 := Z.lxor h64 (Z.lxor (XXH_rotl64 h64 49) (XXH_rotl64 h64 24)) in
  let h64 := u64 (h64 * PRIME_MX2) in
  let h64 := Z.lxor h64 (u64 (Z.shiftr h64 35 + Z.of_nat len)) in
  let h64 := u64 (h64 * PRIME_MX2) in
  XXH_xorshift64 h64 28.

Section WithBuild.
Variable b : build.

Abbreviation XXH_readLE32 := (XXH_readLE32 (base b)).
Abbreviation XXH_readLE64 := (XXH_readLE64 (base b)).
Abbreviation XXH_CPU_LITTLE_ENDIAN := (LITTLE_ENDIAN (base b)).

(** With __uint128_t, or the grade school multiply. *)
Definition XXH_mult64to128 (lhs rhs : Z) : XXH128_hash_t :=
  if INT128 b then
    let product := wrap 128 (lhs * rhs) in
    H128 (u64 product) (u64 (Z.shiftr product 64))
  else
    let lo_lo := XXH_mult32to64 (Z.land lhs 0xFFFFFFFF) (Z.land rhs 0xFFFFFFFF) in
    let hi_lo := XXH_mult32to64 (Z.shiftr lhs 32) (Z.land rhs 0xFFFFFFFF) in
    let lo_hi := XXH_mult32to64 (Z.land lhs 0xFFFFFFFF) (Z.shiftr rhs 32) in
    let hi_hi := XXH_mult32to64 (Z.shiftr lhs 32) (Z.shiftr rhs 32) in
    let cross := u64 (Z.shiftr lo_lo 32 + Z.land hi_lo 0xFFFFFFFF + lo_hi) in
    let upper := u64 (Z.shiftr hi_lo 32 + Z.shiftr cross 32 + hi_hi) in
    let lower := Z.lor (u64 (Z.shiftl cross 32)) (Z.land lo_lo 0xFFFFFFFF) in
    H128 lower upper.

Definition XXH3_mul128_fold64 (lhs rhs : Z) : Z :=
  let product := XXH_mult64to128 lhs rhs in
  Z.lxor (low64 product) (high64 product).

(** ** 64 bits: short inputs *)

Definition XXH3_len_1to3_64b (input : list Z) (len : nat) (secret : list Z) (seed : Z) : Z :=
  let c1 := input !!! 0%nat in
  let c2 := input !!! (len / 2)%nat in
  let c3 := input !!! (len - 1)%nat in
  let combined := Z.lor (Z.lor (u32 (Z.shiftl c1 16)) (u32 (Z.shiftl c2 24)))
                    (Z.lor c3 (u32 (Z.shiftl (Z.of_nat len) 8))) in
  let bitflip := u64 (Z.lxor (XXH_readLE32 secret) (XXH_readLE32 (secret +: 4)) + seed) in
  let keyed := Z.lxor combined bitflip in
  XXH64_avalanche keyed.

Definition XXH3_len_4to8_64b (input : list Z) (len : nat) (secret : list Z) (seed : Z) : Z :=
  let seed := Z.lxor seed (u64 (Z.shiftl (XXH_swap32 (u32 seed)) 32)) in
  let input1 := XXH_readLE32 input in
  let input2 := XXH_readLE32 (input +: (len - 4)) in
  let bitflip := u64 (Z.lxor (XXH_readLE64 (secret +: 8)) (XXH_readLE64 (secret +: 16)) - seed) in
  let input64 := u64 (input2 + u64 (Z.shiftl input1 32)) in
  let keyed := Z.lxor input64 bitflip in
  XXH3_rrmxmx keyed len.

Definition XXH3_len_9to16_64b (input : list Z) (len : nat) (secret : list Z) (seed : Z) : Z :=
  let bitflip1 := u64 (Z.lxor (XXH_readLE64 (secret +: 24)) (XXH_readLE64 (secret +: 32)) + seed) in
  let bitflip2 := u64 (Z.lxor (XXH_readLE64 (secret +: 40)) (XXH_readLE64 (secret +: 48)) - seed) in
  let input_lo := Z.lxor (XXH_readLE64 input) bitflip1 in
  let input_hi := Z.lxor (XXH_readLE64 (input +: (len - 8))) bitflip2 in
  let acc := u64 (Z.of_nat len + XXH_swap64 input_lo + input_hi + XXH3_mul128_fold64 input_lo input_hi) in
  XXH3_avalanche acc.

Definition XXH3_len_0to16_64b (input : list Z) (len : nat) (secret : list Z) (seed : Z) : Z :=
  if decide (8 < len)%nat then XXH3_len_9to16_64b input len secret seed
  else if decide (4 <= len)%nat then XXH3_len_4to8_64b input len secret seed
  else if decide (len <> 0)%nat then XXH3_len_1to3_64b input len secret seed
  else XXH64_avalanche (Z.lxor seed (Z.lxor (XXH_readLE64 (secret +: 56)) (XXH_readLE64 (secret +: 64)))).

(** ** 64 bits: middle inputs *)

Definition XXH3_mix16B (input secret : list Z) (seed64 : Z) : Z :=
  let input_lo := XXH_readLE64 input in
  let input_hi := XXH_readLE64 (input +: 8) in
  XXH3_mul128_fold64
    (Z.lxor input_lo (u64 (XXH_readLE64 secret + seed64)))
    (Z.lxor input_hi (u64 (XXH_readLE64 (secret +: 8) - seed64))).

(** The loop of XXH_SIZE_OPT >= 1: [do { ... } while (i-- != 0)]. *)
Fixpoint mix16B_down (i : nat) (input : list Z) (len : nat) (secret : list Z) (seed acc : Z) : Z :=
  let acc := u64 (acc + XXH3_mix16B (input +: 16 * i) (secret +: 32 * i) seed) in
  let acc := u64 (acc + XXH3_mix16B (input +: (len - 16 * (i + 1))) (secret +: (32 * i + 16)) seed) in
  match i with
  | O => acc
  | S i' => mix16B_down i' input len secret seed acc
  end.

Definition XXH3_len_17to128_64b (input : list Z) (len : nat) (secret : list Z) (secretSize : nat)
    (seed : Z) : Z :=
  let acc := u64 (Z.of_nat len * XXH_PRIME64_1) in
  let mix i s acc := u64 (acc + XXH3_mix16B (input +: i) (secret +: s) seed) in
  let acc :=
    if decide (1 <= SIZE_OPT b)%nat then mix16B_down ((len - 1) / 32) input len secret seed acc
    else
      let acc :=
        if decide (32 < len)%nat then
          let acc :=
            if decide (64 < len)%nat then
              let acc :=
                if decide (96 < len)%nat then
                  let acc := mix 48%nat 96%nat acc in mix (len - 64)%nat 112%nat acc
                else acc in
              let acc := mix 32%nat 64%nat acc in mix (len - 48)%nat 80%nat acc
            else acc in
          let acc := mix 16%nat 32%nat acc in mix (len - 32)%nat 48%nat acc
        else acc in
      let acc := mix 0%nat 0%nat acc in mix (len - 16)%nat 16%nat acc in
  XXH3_avalanche acc.

Definition XXH3_len_129to240_64b (input : list Z) (len : nat) (secret : list Z) (secretSize : nat)
    (seed : Z) : Z :=
  let acc := u64 (Z.of_nat len * XXH_PRIME64_1) in
  let nbRounds := (len / 16)%nat in
  let acc := for_up 8 0 (fun i acc =>
    u64 (acc + XXH3_mix16B (input +: 16 * i) (secret +: 16 * i) seed)) acc in
  let acc_end := XXH3_mix16B (input +: (len - 16))
    (secret +: (XXH3_SECRET_SIZE_MIN - XXH3_MIDSIZE_LASTOFFSET)) seed in
  let acc := XXH3_avalanche acc in
  let acc_end := for_up (nbRounds - 8) 8 (fun i acc_end =>
    u64 (acc_end + XXH3_mix16B (input +: 16 * i)
      (secret +: (16 * (i - 8) + XXH3_MIDSIZE_STARTOFFSET)) seed)) acc_end in
  XXH3_avalanche (u64 (acc + acc_end)).

(** ** Long inputs: the scalar accumulator *)

Definition XXH_writeLE64 (v64 : Z) : list Z :=
  store64 (base b) (if XXH_CPU_LITTLE_ENDIAN then v64 else XXH_swap64 v64).

Definition XXH_mult32to64_add64 (lhs rhs acc : Z) : Z :=
  u64 (XXH_mult32to64 (u32 lhs) (u32 rhs) + acc).

Definition XXH3_scalarRound (acc input secret : list Z) (lane : nat) : list Z :=
  let data_val := XXH_readLE64 (input +: lane * 8) in
  let data_key := Z.lxor data_val (XXH_readLE64 (secret +: lane * 8)) in
  let acc := <[Nat.lxor lane 1 := u64 (acc !!! Nat.lxor lane 1 + data_val)]> acc in
  <[lane := XXH_mult32to64_add64 data_key (Z.shiftr data_key 32) (acc !!! lane)]> acc.

Definition XXH3_accumulate_512_scalar (acc input secret : list Z) : list Z :=
  for_up XXH_ACC_NB 0 (fun i acc => XXH3_scalarRound acc input secret i) acc.

(** XXH3_ACCUMULATE_TEMPLATE *)
Definition XXH3_accumulate_template (accumulate_512 : list Z -> list Z -> list Z -> list Z)
    (acc input secret : list Z) (nbStripes : nat) : list Z :=
  for_up nbStripes 0 (fun n acc =>
    accumulate_512 acc (input +: n * XXH_STRIPE_LEN) (secret +: n * XXH_SECRET_CONSUME_RATE)) acc.

Definition XXH3_accumulate_scalar : list Z -> list Z -> list Z -> nat -> list Z :=
  XXH3_accumulate_template XXH3_accumulate_512_scalar.

Definition XXH3_scalarScrambleRound (acc secret : list Z) (lane : nat) : list Z :=
  let key64 := XXH_readLE64 (secret +: lane * 8) in
  let acc64 := acc !!! lane in
  let acc64 := XXH_xorshift64 acc64 47 in
  let acc64 := Z.lxor acc64 key64 in
  let acc64 := u64 (acc64 * XXH_PRIME32_1) in
  <[lane := acc64]> acc.

Definition XXH3_scrambleAcc_scalar (acc secret : list Z) : list Z :=
  for_up XXH_ACC_NB 0 (fun i acc => XXH3_scalarScrambleRound acc secret i) acc.

(** What the function writes: the array from its front, sixteen bytes a round. *)
Definition XXH3_initCustomSecret_scalar (seed64 : Z) : list Z :=
  for_up (XXH_SECRET_DEFAULT_SIZE / 16) 0 (fun i customSecret =>
    let lo := u64 (XXH_readLE64 (XXH3_kSecret +: 16 * i) + seed64) in
    let hi := u64 (XXH_readLE64 (XXH3_kSecret +: (16 * i + 8)) - seed64) in
    customSecret ++ XXH_writeLE64 lo ++ XXH_writeLE64 hi) [].

End WithBuild.

(** ** The choice of XXH_VECTOR

    The four macros that name the implementation.  What the client counts
    on is [VectorLaws]: on eight words and on bytes, they do what the scalar
    functions do. *)

Class Vector := {
  XXH3_accumulate_512 : list Z -> list Z -> list Z -> list Z;
  XXH3_accumulate : list Z -> list Z -> list Z -> nat -> list Z;
  XXH3_scrambleAcc : list Z -> list Z -> list Z;
  XXH3_initCustomSecret : Z -> list Z
}.

(** The accumulators: eight 64-bit words. *)
Definition lanes (acc : list Z) : Prop := length acc = XXH_ACC_NB /\ Forall (fits 64) acc.

Class VectorLaws (b : build) (V : Vector) : Prop := {
  accumulate_512_scalar acc input secret :
    lanes acc -> bytes input -> bytes secret -> (64 <= length input)%nat -> (64 <= length secret)%nat ->
    XXH3_accumulate_512 acc input secret = XXH3_accumulate_512_scalar b acc input secret;
  accumulate_stripes acc input secret n :
    XXH3_accumulate acc input secret n = XXH3_accumulate_template XXH3_accumulate_512 acc input secret n;
  scrambleAcc_scalar acc secret :
    lanes acc -> bytes secret -> (64 <= length secret)%nat ->
    XXH3_scrambleAcc acc secret = XXH3_scrambleAcc_scalar b acc secret;
  initCustomSecret_scalar seed :
    fits 64 seed -> XXH3_initCustomSecret seed = XXH3_initCustomSecret_scalar b seed
}.

Definition scalar (b : build) : Vector := {|
  XXH3_accumulate_512 := XXH3_accumulate_512_scalar b;
  XXH3_accumulate := XXH3_accumulate_scalar b;
  XXH3_scrambleAcc := XXH3_scrambleAcc_scalar b;
  XXH3_initCustomSecret := XXH3_initCustomSecret_scalar b
|}.

#[export] Instance scalar_laws b : VectorLaws b (scalar b).
Proof. split; reflexivity || done. Qed.

(** ** Long inputs *)

Section WithVector.
Variable b : build.
Context {V : Vector}.

Abbreviation XXH_readLE64 := (XXH_readLE64 (base b)).
Abbreviation XXH3_f_accumulate := (list Z -> list Z -> list Z -> nat -> list Z).
Abbreviation XXH3_f_scrambleAcc := (list Z -> list Z -> list Z).
Abbreviation XXH3_f_initCustomSecret := (Z -> list Z).

(** XXH_SIZE_OPT >= 1 takes the scalar initialization. *)
Definition initCustomSecret : XXH3_f_initCustomSecret :=
  if decide (1 <= SIZE_OPT b)%nat then XXH3_initCustomSecret_scalar b else XXH3_initCustomSecret.

Definition XXH3_hashLong_internal_loop (acc input : list Z) (len : nat) (secret : list Z)
    (secretSize : nat) (f_acc : XXH3_f_accumulate) (f_scramble : XXH3_f_scrambleAcc) : list Z :=
  let nbStripesPerBlock := ((secretSize - XXH_STRIPE_LEN) / XXH_SECRET_CONSUME_RATE)%nat in
  let block_len := (XXH_STRIPE_LEN * nbStripesPerBlock)%nat in
  let nb_blocks := ((len - 1) / block_len)%nat in
  let acc := for_up nb_blocks 0 (fun n acc =>
    let acc := f_acc acc (input +: n * block_len) secret nbStripesPerBlock in
    f_scramble acc (secret +: (secretSize - XXH_STRIPE_LEN))) acc in
  (* last partial block *)
  let nbStripes := (((len - 1) - block_len * nb_blocks) / XXH_STRIPE_LEN)%nat in
  let acc := f_acc acc (input +: nb_blocks * block_len) secret nbStripes in
  (* last stripe *)
  let p := input +: (len - XXH_STRIPE_LEN) in
  XXH3_accumulate_512 acc p (secret +: (secretSize - XXH_STRIPE_LEN - XXH_SECRET_LASTACC_START)).

Definition XXH3_mix2Accs (acc secret : list Z) : Z :=
  XXH3_mul128_fold64 b (Z.lxor (acc !!! 0%nat) (XXH_readLE64 secret))
    (Z.lxor (acc !!! 1%nat) (XXH_readLE64 (secret +: 8))).

Definition XXH3_mergeAccs (acc secret : list Z) (start : Z) : Z :=
  let result64 := for_up 4 0 (fun i result64 =>
    u64 (result64 + XXH3_mix2Accs (acc +: 2 * i) (secret +: 16 * i))) start in
  XXH3_avalanche result64.

Definition XXH3_INIT_ACC : list Z :=
  [XXH_PRIME32_3; XXH_PRIME64_1; XXH_PRIME64_2; XXH_PRIME64_3;
   XXH_PRIME64_4; XXH_PRIME32_2; XXH_PRIME64_5; XXH_PRIME32_1].

Definition XXH3_hashLong_64b_internal (input : list Z) (len : nat) (secret : list Z) (secretSize : nat)
    (f_acc : XXH3_f_accumulate) (f_scramble : XXH3_f_scrambleAcc) : Z :=
  let acc := XXH3_INIT_ACC in
  let acc := XXH3_hashLong_internal_loop acc input len secret secretSize f_acc f_scramble in
  XXH3_mergeAccs acc (secret +: XXH_SECRET_MERGEACCS_START) (u64 (Z.of_nat len * XXH_PRIME64_1)).

Definition XXH3_hashLong_64b_withSecret (input : list Z) (len : nat) (seed64 : Z)
    (secret : list Z) (secretLen : nat) : Z :=
  XXH3_hashLong_64b_internal input len secret secretLen XXH3_accumulate XXH3_scrambleAcc.

Definition XXH3_hashLong_64b_default (input : list Z) (len : nat) (seed64 : Z)
    (secret : list Z) (secretLen : nat) : Z :=
  XXH3_hashLong_64b_internal input len XXH3_kSecret XXH_SECRET_DEFAULT_SIZE XXH3_accumulate XXH3_scrambleAcc.

Definition XXH3_hashLong_64b_withSeed_internal (input : list Z) (len : nat) (seed : Z)
    (f_acc : XXH3_f_accumulate) (f_scramble : XXH3_f_scrambleAcc)
    (f_initSec : XXH3_f_initCustomSecret) : Z :=
  if bool_decide (SIZE_OPT b <= 0)%nat && bool_decide (seed = 0) then
    XXH3_hashLong_64b_internal input len XXH3_kSecret XXH_SECRET_DEFAULT_SIZE f_acc f_scramble
  else
    let secret := f_initSec seed in
    XXH3_hashLong_64b_internal input len secret XXH_SECRET_DEFAULT_SIZE f_acc f_scramble.

Definition XXH3_hashLong_64b_withSeed (input : list Z) (len : nat) (seed : Z)
    (secret : list Z) (secretLen : nat) : Z :=
  XXH3_hashLong_64b_withSeed_internal input len seed XXH3_accumulate XXH3_scrambleAcc initCustomSecret.

(** ** 64 bits: the public functions

    Calling a NULL [f_hashLong] is undefined. *)

Definition XXH3_64bits_internal (input : list Z) (len : nat) (seed64 : Z) (secret : list Z) (secretLen : nat)
    (f_hashLong : option (list Z -> nat -> Z -> list Z -> nat -> Z)) : outcome Z :=
  if decide (len <= 16)%nat then Ret (XXH3_len_0to16_64b b input len secret seed64)
  else if decide (len <= 128)%nat then Ret (XXH3_len_17to128_64b b input len secret secretLen seed64)
  else if decide (len <= XXH3_MIDSIZE_MAX)%nat then
    Ret (XXH3_len_129to240_64b b input len secret secretLen seed64)
  else f_hashLong ← of_option f_hashLong; Ret (f_hashLong input len seed64 secret secretLen).

Definition XXH3_64bits (input : list Z) (length : nat) : outcome Z :=
  XXH3_64bits_internal input length 0 XXH3_kSecret XXH_SECRET_DEFAULT_SIZE (Some XXH3_hashLong_64b_default).

Definition XXH3_64bits_withSecret (input : list Z) (length : nat) (secret : list Z) (secretSize : nat) : outcome Z :=
  XXH3_64bits_internal input length 0 secret secretSize (Some XXH3_hashLong_64b_withSecret).

Definition XXH3_64bits_withSeed (input : list Z) (length : nat) (seed : Z) : outcome Z :=
  XXH3_64bits_internal input length seed XXH3_kSecret XXH_SECRET_DEFAULT_SIZE (Some XXH3_hashLong_64b_withSeed).

Definition XXH3_64bits_withSecretandSeed (input : list Z) (length : nat) (secret : list Z)
    (secretSize : nat) (seed : Z) : outcome Z :=
  if decide (length <= XXH3_MIDSIZE_MAX)%nat then
    XXH3_64bits_internal input length seed XXH3_kSecret XXH_SECRET_DEFAULT_SIZE None
  else Ret (XXH3_hashLong_64b_withSecret input length seed secret secretSize).

End WithVector.

(** ** 128 bits: short inputs *)

Section Short128.
Variable b : build.

Abbreviation XXH_readLE32 := (XXH_readLE32 (base b)).
Abbreviation XXH_readLE64 := (XXH_readLE64 (base b)).

Definition XXH3_len_1to3_128b (input : list Z) (len : nat) (secret : list Z) (seed : Z) : XXH128_hash_t :=
  let c1 := input !!! 0%nat in
  let c2 := input !!! (len / 2)%nat in
  let c3 := input !!! (len - 1)%nat in
  let combinedl := Z.lor (Z.lor (u32 (Z.shiftl c1 16)) (u32 (Z.shiftl c2 24)))
                     (Z.lor c3 (u32 (Z.shiftl (Z.of_nat len) 8))) in
  let combinedh := XXH_rotl32 (XXH_swap32 combinedl) 13 in
  let bitflipl := u64 (Z.lxor (XXH_readLE32 secret) (XXH_readLE32 (secret +: 4)) + seed) in
  let bitfliph := u64 (Z.lxor (XXH_readLE32 (secret +: 8)) (XXH_readLE32 (secret +: 12)) - seed) in
  let keyed_lo := Z.lxor combinedl bitflipl in
  let keyed_hi := Z.lxor combinedh bitfliph in
  H128 (XXH64_avalanche keyed_lo) (XXH64_avalanche keyed_hi).

Definition XXH3_len_4to8_128b (input : list Z) (len : nat) (secret : list Z) (seed : Z) : XXH128_hash_t :=
  let seed := Z.lxor seed (u64 (Z.shiftl (XXH_swap32 (u32 seed)) 32)) in
  let input_lo := XXH_readLE32 input in
  let input_hi := XXH_readLE32 (input +: (len - 4)) in
  let input_64 := u64 (input_lo + u64 (Z.shiftl input_hi 32)) in
  let bitflip := u64 (Z.lxor (XXH_readLE64 (secret +: 16)) (XXH_readLE64 (secret +: 24)) + seed) in
  let keyed := Z.lxor input_64 bitflip in
  let m128 := XXH_mult64to128 b keyed (u64 (XXH_PRIME64_1 + Z.shiftl (Z.of_nat len) 2)) in
  let high := u64 (high64 m128 + u64 (Z.shiftl (low64 m128) 1)) in
  let low := Z.lxor (low64 m128) (Z.shiftr high 3) in
  let low := XXH_xorshift64 low 35 in
  let low := u64 (low * PRIME_MX2) in
  let low := XXH_xorshift64 low 28 in
  let high := XXH3_avalanche high in
  H128 low high.

Definition XXH3_len_9to16_128b (input : list Z) (len : nat) (secret : list Z) (seed : Z) : XXH128_hash_t :=
  let bitflipl := u64 (Z.lxor (XXH_readLE64 (secret +: 32)) (XXH_readLE64 (secret +: 40)) - seed) in
  let bitfliph := u64 (Z.lxor (XXH_readLE64 (secret +: 48)) (XXH_readLE64 (secret +: 56)) + seed) in
  let input_lo := XXH_readLE64 input in
  let input_hi := XXH_readLE64 (input +: (len - 8)) in
  let m128 := XXH_mult64to128 b (Z.lxor (Z.lxor input_lo input_hi) bitflipl) XXH_PRIME64_1 in
  let low := u64 (low64 m128 + u64 (Z.shiftl (Z.of_nat (len - 1)) 54)) in
  let input_hi := Z.lxor input_hi bitfliph in
  let high :=
    if PTR32 b then
      u64 (high64 m128 + (Z.land input_hi 0xFFFFFFFF00000000 + XXH_mult32to64 (u32 input_hi) XXH_PRIME32_2))
    else u64 (high64 m128 + (input_hi + XXH_mult32to64 (u32 input_hi) (XXH_PRIME32_2 - 1))) in
  let low := Z.lxor low (XXH_swap64 high) in
  let h128 := XXH_mult64to128 b low XXH_PRIME64_2 in
  let high := u64 (high64 h128 + u64 (high * XXH_PRIME64_2)) in
  H128 (XXH3_avalanche (low64 h128)) (XXH3_avalanche high).

Definition XXH3_len_0to16_128b (input : list Z) (len : nat) (secret : list Z) (seed : Z) : XXH128_hash_t :=
  if decide (8 < len)%nat then XXH3_len_9to16_128b input len secret seed
  else if decide (4 <= len)%nat then XXH3_len_4to8_128b input len secret seed
  else if decide (len <> 0)%nat then XXH3_len_1to3_128b input len secret seed
  else
    let bitflipl := Z.lxor (XXH_readLE64 (secret +: 64)) (XXH_readLE64 (secret +: 72)) in
    let bitfliph := Z.lxor (XXH_readLE64 (secret +: 80)) (XXH_readLE64 (secret +: 88)) in
    H128 (XXH64_avalanche (Z.lxor seed bitflipl)) (XXH64_avalanche (Z.lxor seed bitfliph)).

(** ** 128 bits: middle inputs *)

Definition XXH128_mix32B (acc : XXH128_hash_t) (input_1 input_2 secret : list Z) (seed : Z) : XXH128_hash_t :=
  let low := u64 (low64 acc + XXH3_mix16B b input_1 secret seed) in
  let low := Z.lxor low (u64 (XXH_readLE64 input_2 + XXH_readLE64 (input_2 +: 8))) in
  let high := u64 (high64 acc + XXH3_mix16B b input_2 (secret +: 16) seed) in
  let high := Z.lxor high (u64 (XXH_readLE64 input_1 + XXH_readLE64 (input_1 +: 8))) in
  H128 low high.

(** The end of the middle inputs. *)
Definition finish_128b (acc : XXH128_hash_t) (len : nat) (seed : Z) : XXH128_hash_t :=
  let low := u64 (low64 acc + high64 acc) in
  let high := u64 (low64 acc * XXH_PRIME64_1 + high64 acc * XXH_PRIME64_4
                   + u64 (Z.of_nat len - seed) * XXH_PRIME64_2) in
  H128 (XXH3_avalanche low) (u64 (0 - XXH3_avalanche high)).

(** The loop of XXH_SIZE_OPT >= 1. *)
Fixpoint mix32B_down (i : nat) (input : list Z) (len : nat) (secret : list Z) (seed : Z)
    (acc : XXH128_hash_t) : XXH128_hash_t :=
  let acc := XXH128_mix32B acc (input +: 16 * i) (input +: (len - 16 * (i + 1))) (secret +: 32 * i) seed in
  match i with
  | O => acc
  | S i' => mix32B_down i' input len secret seed acc
  end.

Definition XXH3_len_17to128_128b (input : list Z) (len : nat) (secret : list Z) (secretSize : nat)
    (seed : Z) : XXH128_hash_t :=
  let acc := H128 (u64 (Z.of_nat len * XXH_PRIME64_1)) 0 in
  let acc :=
    if decide (1 <= SIZE_OPT b)%nat then mix32B_down ((len - 1) / 32) input len secret seed acc
    else
      let acc :=
        if decide (32 < len)%nat then
          let acc :=
            if decide (64 < len)%nat then
              let acc :=
                if decide (96 < len)%nat then
                  XXH128_mix32B acc (input +: 48) (input +: (len - 64)) (secret +: 96) seed
                else acc in
              XXH128_mix32B acc (input +: 32) (input +: (len - 48)) (secret +: 64) seed
            else acc in
          XXH128_mix32B acc (input +: 16) (input +: (len - 32)) (secret +: 32) seed
        else acc in
      XXH128_mix32B acc input (input +: (len - 16)) secret seed in
  finish_128b acc len seed.

(** [i] of the loops is [32 * k]. *)
Definition XXH3_len_129to240_128b (input : list Z) (len : nat) (secret : list Z) (secretSize : nat)
    (seed : Z) : XXH128_hash_t :=
  let acc := H128 (u64 (Z.of_nat len * XXH_PRIME64_1)) 0 in
  let acc := for_up 4 1 (fun k acc =>
    let i := (32 * k)%nat in
    XXH128_mix32B acc (input +: (i - 32)) (input +: (i - 16)) (secret +: (i - 32)) seed) acc in
  let acc := H128 (XXH3_avalanche (low64 acc)) (XXH3_avalanche (high64 acc)) in
  let acc := for_up (len / 32 - 4) 5 (fun k acc =>
    let i := (32 * k)%nat in
    XXH128_mix32B acc (input +: (i - 32)) (input +: (i - 16))
      (secret +: (XXH3_MIDSIZE_STARTOFFSET + i - 160)) seed) acc in
  let acc := XXH128_mix32B acc (input +: (len - 16)) (input +: (len - 32))
    (secret +: (XXH3_SECRET_SIZE_MIN - XXH3_MIDSIZE_LASTOFFSET - 16)) (u64 (0 - seed)) in
  finish_128b acc len seed.

End Short128.

(** ** 128 bits: long inputs and the public functions *)

Section Long128.
Variable b : build.
Context {V : Vector}.

Abbreviation XXH_readLE64 := (XXH_readLE64 (base b)).
Abbreviation XXH_CPU_LITTLE_ENDIAN := (LITTLE_ENDIAN (base b)).
Abbreviation XXH3_f_accumulate := (list Z -> list Z -> list Z -> nat -> list Z).
Abbreviation XXH3_f_scrambleAcc := (list Z -> list Z -> list Z).

(** The two halves from the accumulators. *)
Definition merge_128b (acc : list Z) (len : Z) (secret : list Z) (secretSize : nat) : XXH128_hash_t :=
  H128 (XXH3_mergeAccs b acc (secret +: XXH_SECRET_MERGEACCS_START) (u64 (len * XXH_PRIME64_1)))
       (XXH3_mergeAccs b acc (secret +: (secretSize - 64 - XXH_SECRET_MERGEACCS_START))
          (Z.lxor (u64 (len * XXH_PRIME64_2)) (2 ^ 64 - 1))).

Definition XXH3_hashLong_128b_internal (input : list Z) (len : nat) (secret : list Z) (secretSize : nat)
    (f_acc : XXH3_f_accumulate) (f_scramble : XXH3_f_scrambleAcc) : XXH128_hash_t :=
  let acc := XXH3_INIT_ACC in
  let acc := XXH3_hashLong_internal_loop acc input len secret secretSize f_acc f_scramble in
  merge_128b acc (Z.of_nat len) secret secretSize.

Definition XXH3_hashLong_128b_default (input : list Z) (len : nat) (seed64 : Z)
    (secret : list Z) (secretLen : nat) : XXH128_hash_t :=
  XXH3_hashLong_128b_internal input len XXH3_kSecret XXH_SECRET_DEFAULT_SIZE XXH3_accumulate XXH3_scrambleAcc.

Definition XXH3_hashLong_128b_withSecret (input : list Z) (len : nat) (seed64 : Z)
    (secret : list Z) (secretLen : nat) : XXH128_hash_t :=
  XXH3_hashLong_128b_internal input len secret secretLen XXH3_accumulate XXH3_scrambleAcc.

Definition XXH3_hashLong_128b_withSeed_internal (input : list Z) (len : nat) (seed64 : Z)
    (f_acc : XXH3_f_accumulate) (f_scramble : XXH3_f_scrambleAcc) (f_initSec : Z -> list Z) : XXH128_hash_t :=
  if decide (seed64 = 0) then
    XXH3_hashLong_128b_internal input len XXH3_kSecret XXH_SECRET_DEFAULT_SIZE f_acc f_scramble
  else
    let secret := f_initSec seed64 in
    XXH3_hashLong_128b_internal input len secret XXH_SECRET_DEFAULT_SIZE f_acc f_scramble.

Definition XXH3_hashLong_128b_withSeed (input : list Z) (len : nat) (seed64 : Z)
    (secret : list Z) (secretLen : nat) : XXH128_hash_t :=
  XXH3_hashLong_128b_withSeed_internal input len seed64 XXH3_accumulate XXH3_scrambleAcc (initCustomSecret b).

Definition XXH3_128bits_internal (input : list Z) (len : nat) (seed64 : Z) (secret : list Z) (secretLen : nat)
    (f_hl128 : option (list Z -> nat -> Z -> list Z -> nat -> XXH128_hash_t)) : outcome XXH128_hash_t :=
  if decide (len <= 16)%nat then Ret (XXH3_len_0to16_128b b input len secret seed64)
  else if decide (len <= 128)%nat then Ret (XXH3_len_17to128_128b b input len secret secretLen seed64)
  else if decide (len <= XXH3_MIDSIZE_MAX)%nat then
    Ret (XXH3_len_129to240_128b b input len secret secretLen seed64)
  else f_hl128 ← of_option f_hl128; Ret (f_hl128 input len seed64 secret secretLen).

Definition XXH3_128bits (input : list Z) (len : nat) : outcome XXH128_hash_t :=
  XXH3_128bits_internal input len 0 XXH3_kSecret XXH_SECRET_DEFAULT_SIZE (Some XXH3_hashLong_128b_default).

Definition XXH3_128bits_withSecret (input : list Z) (len : nat) (secret : list Z) (secretSize : nat) :
    outcome XXH128_hash_t :=
  XXH3_128bits_internal input len 0 secret secretSize (Some XXH3_hashLong_128b_withSecret).

Definition XXH3_128bits_withSeed (input : list Z) (len : nat) (seed : Z) : outcome XXH128_hash_t :=
  XXH3_128bits_internal input len seed XXH3_kSecret XXH_SECRET_DEFAULT_SIZE (Some XXH3_hashLong_128b_withSeed).

Definition XXH3_128bits_withSecretandSeed (input : list Z) (len : nat) (secret : list Z)
    (secretSize : nat) (seed : Z) : outcome XXH128_hash_t :=
  if decide (len <= XXH3_MIDSIZE_MAX)%nat then
    XXH3_128bits_internal input len seed XXH3_kSecret XXH_SECRET_DEFAULT_SIZE None
  else Ret (XXH3_hashLong_128b_withSecret input len seed secret secretSize).

Definition XXH128 (input : list Z) (len : nat) (seed : Z) : outcome XXH128_hash_t :=
  XXH3_128bits_withSeed input len seed.

End Long128.

Definition default_build : build := Build default_config 0 true false.

(** ** The long multiply *)

Lemma mul_split x y :
  let xl := x mod 2 ^ 32 in let xh := x / 2 ^ 32 in let yl := y mod 2 ^ 32 in let yh := y / 2 ^ 32 in
  x * y = (xh * yh) * 2 ^ 64 + (xh * yl + xl * yh) * 2 ^ 32 + xl * yl.
Proof.
  cbv zeta. rewrite (Z.div_mod x (2 ^ 32)) at 1 by lia. rewrite (Z.div_mod y (2 ^ 32)) at 1 by lia. ring.
Qed.

Lemma halves x : fits 64 x -> fits 32 (x mod 2 ^ 32) /\ fits 32 (x / 2 ^ 32).
Proof.
  unfold fits. intros H. split; [apply Z.mod_pos_bound; lia|].
  split; [apply Z.div_pos; lia|]. apply Z.div_lt_upper_bound; lia.
Qed.

Lemma mul_32 x y : fits 32 x -> fits 32 y -> 0 <= x * y <= (2 ^ 32 - 1) * (2 ^ 32 - 1).
Proof. unfold fits. nia. Qed.

Lemma XXH_mult32to64_eq x y : fits 32 x -> fits 32 y -> XXH_mult32to64 x y = x * y.
Proof.
  intros Hx Hy. unfold XXH_mult32to64. rewrite !(wrap_fits 32) by done.
  apply wrap_fits. pose proof (mul_32 x y Hx Hy). unfold fits. lia.
Qed.

(** A word over a half word. *)
Lemma lor_halves c l : 0 <= l < 2 ^ 32 -> Z.lor (c * 2 ^ 32) l = c * 2 ^ 32 + l.
Proof.
  intros Hl. rewrite <- Z.shiftl_mul_pow2 by lia.
  assert (E : Z.land (Z.shiftl c 32) l = 0).
  { apply Z.bits_inj'. intros k Hk. rewrite Z.land_spec, Z.bits_0.
    destruct (Z.lt_ge_cases k 32); [by rewrite Z.shiftl_spec_low by lia|].
    rewrite <- (Z.mod_small l (2 ^ 32)) by lia. rewrite Z.mod_pow2_bits_high by lia. apply andb_false_r. }
  by rewrite <- Z.lxor_lor, <- Z.add_nocarry_lxor.
Qed.

(** The sums of the grade school multiply do not overflow. *)
Lemma grade_school ll hl lh hh (m := (2 ^ 32 - 1) * (2 ^ 32 - 1)) :
  0 <= ll <= m -> 0 <= hl <= m -> 0 <= lh <= m -> 0 <= hh <= m ->
  let cross := u64 (ll / 2 ^ 32 + hl mod 2 ^ 32 + lh) in
  let p := hh * 2 ^ 64 + (hl + lh) * 2 ^ 32 + ll in
  Z.lor (u64 (cross * 2 ^ 32)) (ll mod 2 ^ 32) = p mod 2 ^ 64 /\
  u64 (hl / 2 ^ 32 + cross / 2 ^ 32 + hh) = p / 2 ^ 64.
Proof.
  subst m. intros Hll Hhl Hlh Hhh. cbv zeta.
  pose proof (Z.div_mod ll (2 ^ 32)). pose proof (Z.mod_pos_bound ll (2 ^ 32)).
  pose proof (Z.div_mod hl (2 ^ 32)). pose proof (Z.mod_pos_bound hl (2 ^ 32)).
  rewrite (wrap_fits 64 (ll / _ + _ + _)) by (unfold fits; lia).
  set (cross := ll / 2 ^ 32 + hl mod 2 ^ 32 + lh) in *.
  pose proof (Z.div_mod cross (2 ^ 32)). pose proof (Z.mod_pos_bound cross (2 ^ 32)).
  rewrite (wrap_fits 64 (hl / _ + _ + _)) by (unfold fits; lia).
  assert (Ew : u64 (cross * 2 ^ 32) = (cross mod 2 ^ 32) * 2 ^ 32).
  { unfold wrap. change (2 ^ 64) with (2 ^ 32 * 2 ^ 32). by rewrite Z.mul_mod_distr_r by lia. }
  rewrite Ew, lor_halves by lia.
  split; [apply Z.mod_unique with (hl / 2 ^ 32 + cross / 2 ^ 32 + hh)
         |apply Z.div_unique with (cross mod 2 ^ 32 * 2 ^ 32 + ll mod 2 ^ 32)]; lia.
Qed.

(** Both ways to multiply give the two halves of the product. *)
Lemma XXH_mult64to128_eq b x y : fits 64 x -> fits 64 y ->
  XXH_mult64to128 b x y = H128 ((x * y) mod 2 ^ 64) ((x * y) / 2 ^ 64).
Proof.
  intros Hx Hy. unfold XXH_mult64to128. destruct (INT128 b).
  - assert (Hp : 0 <= x * y < 2 ^ 128) by (unfold fits in *; nia).
    rewrite (wrap_fits 128) by done. rewrite Z.shiftr_div_pow2 by lia. cbv zeta. f_equal.
    apply wrap_fits. split; [apply Z.div_pos; lia|]. apply Z.div_lt_upper_bound; lia.
  - cbv zeta. change 0xFFFFFFFF with (Z.ones 32).
    rewrite !Z.land_ones, !Z.shiftr_div_pow2, !Z.shiftl_mul_pow2 by lia.
    destruct (halves x Hx) as [Lx Hx'], (halves y Hy) as [Ly Hy'].
    rewrite !XXH_mult32to64_eq by done. rewrite (mul_split x y).
    edestruct grade_school as [-> ->]; [by apply mul_32..|]. done.
Qed.

Lemma XXH_mult64to128_build b1 b2 x y : fits 64 x -> fits 64 y ->
  XXH_mult64to128 b1 x y = XXH_mult64to128 b2 x y.
Proof. intros Hx Hy. by rewrite !XXH_mult64to128_eq. Qed.

Lemma XXH_mult64to128_fits b x y : fits 64 x -> fits 64 y ->
  fits 64 (low64 (XXH_mult64to128 b x y)) /\ fits 64 (high64 (XXH_mult64to128 b x y)).
Proof.
  intros Hx Hy. rewrite XXH_mult64to128_eq by done. cbn [low64 high64].
  split; [apply Z.mod_pos_bound; lia|]. unfold fits in *.
  split; [apply Z.div_pos; nia|]. apply Z.div_lt_upper_bound; nia.
Qed.

(** ** Pointers that agree on their first bytes *)

Definition agree (n : nat) (p q : list Z) : Prop :=
  bytes p /\ bytes q /\ (n <= length p)%nat /\ (n <= length q)%nat /\ take n p = take n q.

Lemma agree_refl n p : bytes p -> (n <= length p)%nat -> agree n p p.
Proof. done. Qed.

Lemma agree_le m n p q : (m <= n)%nat -> agree n p q -> agree m p q.
Proof.
  intros Hm (Bp & Bq & Lp & Lq & E). split_and!; [done|done|lia|lia|].
  apply (f_equal (take m)) in E. rewrite !take_take in E. by rewrite Nat.min_l in E by lia.
Qed.

Lemma agree_drop i n p q : (i <= n)%nat -> agree n p q -> agree (n - i) (p +: i) (q +: i).
Proof.
  intros Hi (Bp & Bq & Lp & Lq & E).  split_and!; [auto with bytes|auto with bytes|rewrite length_drop; lia|rewrite length_drop; lia|].
  apply (f_equal (drop i)) in E. by rewrite !skipn_firstn_comm in E.
Qed.

(** The [m] bytes from [i] on. *)
Lemma agree_at m i n p q : (i + m <= n)%nat -> agree n p q -> agree m (p +: i) (q +: i).
Proof. intros Hi H. apply (agree_le m (n - i)); [lia|]. apply agree_drop; [lia|done]. Qed.

Lemma agree_lookup i n p q : (i < n)%nat -> agree n p q -> p !!! i = q !!! i.
Proof.
  intros Hi (_ & _ & Lp & Lq & E). rewrite !list_lookup_total_alt.
  by rewrite <- (lookup_take_lt p n i), <- (lookup_take_lt q n i), E by lia.
Qed.

Lemma le_value_agree k p q : agree k p q -> le_value k p = le_value k q.
Proof. intros (_ & _ & Lp & Lq & E). by rewrite <- (le_value_take k p), <- (le_value_take k q), E. Qed.

Lemma agree_read32 c1 c2 p q : agree 4 p q -> XXH_readLE32 c1 p = XXH_readLE32 c2 q.
Proof.
  intros H. pose proof H as (Bp & Bq & Lp & Lq & _).
  rewrite !XXH_readLE32_value by done. by apply le_value_agree.
Qed.

Lemma agree_read64 c1 c2 p q : agree 8 p q -> XXH_readLE64 c1 p = XXH_readLE64 c2 q.
Proof.
  intros H. pose proof H as (Bp & Bq & Lp & Lq & _).
  rewrite !XXH_readLE64_value by done. by apply le_value_agree.
Qed.

Lemma le_value_fits k p : bytes p -> (k <= length p)%nat -> fits (8 * Z.of_nat k) (le_value k p).
Proof.
  intros B L. rewrite <- le_value_take by done.
  assert (E : length (take k p) = k) by (rewrite length_take; lia).
  rewrite <- E at 1 2. apply le_value_bound. auto with bytes.
Qed.

Lemma readLE64_fits c p q : agree 8 p q -> fits 64 (XXH_readLE64 c p) /\ fits 64 (XXH_readLE64 c q).
Proof. intros (B & B' & L & L' & _). rewrite !XXH_readLE64_value by done. by split; apply (le_value_fits 8). Qed.

Lemma readLE32_fits c p q : agree 4 p q -> fits 32 (XXH_readLE32 c p) /\ fits 32 (XXH_readLE32 c q).
Proof. intros (B & B' & L & L' & _). rewrite !XXH_readLE32_value by done. by split; apply (le_value_fits 4). Qed.

Lemma swap64_fits x : fits 64 x -> fits 64 (XXH_swap64 x).
Proof.
  intros H. rewrite swap64_value by done.
  apply (le_value_fits 8); [apply Forall_reverse, le_bytes_bytes|].
  by rewrite length_reverse, le_bytes_length.
Qed.

Lemma xorshift_fits x k : 0 <= k -> fits 64 x -> fits 64 (XXH_xorshift64 x k).
Proof. intros Hk H. unfold XXH_xorshift64. auto with fits. Qed.

Lemma XXH3_avalanche_fits x : fits 64 (XXH3_avalanche x).
Proof. unfold XXH3_avalanche. cbv zeta. apply xorshift_fits; auto with fits. Qed.

Lemma prime1_fits : fits 64 XXH_PRIME64_1.
Proof. done. Qed.

Lemma prime2_fits : fits 64 XXH_PRIME64_2.
Proof. done. Qed.

#[export] Hint Resolve swap64_fits xorshift_fits XXH3_avalanche_fits prime1_fits prime2_fits : fits.

(** Proves that two pointers agree, from an agreement of the context. *)
Ltac agreeing :=
  match goal with
  | |- agree ?m (?p +: ?i) ?y =>
      match goal with H : agree ?n p ?q |- _ =>
        apply (agree_at m i n p q); [unfold XXH3_SECRET_SIZE_MIN in *; lia|exact H] end
  | |- agree ?m ?p ?y =>
      match goal with H : agree ?n p ?q |- _ =>
        apply (agree_le m n p q); [unfold XXH3_SECRET_SIZE_MIN in *; lia|exact H] end
  | |- agree ?m ?x (?q +: ?i) =>
      match goal with H : agree ?n ?p q |- _ =>
        apply (agree_at m i n p q); [unfold XXH3_SECRET_SIZE_MIN in *; lia|exact H] end
  | |- agree ?m ?x ?q =>
      match goal with H : agree ?n ?p q |- _ =>
        apply (agree_le m n p q); [unfold XXH3_SECRET_SIZE_MIN in *; lia|exact H] end
  end.

Section Agreement.
Variables b1 b2 : build.

(** Replaces the reads of the first build by those of the second. *)
Ltac agree_reads :=
  repeat match goal with
  | |- context [XXH_readLE64 (base b1) ?x] => erewrite (agree_read64 (base b1) (base b2) x) by agreeing
  | |- context [XXH_readLE32 (base b1) ?x] => erewrite (agree_read32 (base b1) (base b2) x) by agreeing
  end.

(** A read fits. *)
Ltac read_fits :=
  match goal with
  | |- fits 64 (XXH_readLE64 ?c ?x) =>
      first [refine (proj1 (readLE64_fits c x _ _)); agreeing | refine (proj2 (readLE64_fits c _ x _)); agreeing]
  | |- fits 32 (XXH_readLE32 ?c ?x) =>
      first [refine (proj1 (readLE32_fits c x _ _)); agreeing | refine (proj2 (readLE32_fits c _ x _)); agreeing]
  end.
#[local] Hint Extern 1 (fits _ (XXH_readLE64 _ _)) => read_fits : fits.
#[local] Hint Extern 1 (fits _ (XXH_readLE32 _ _)) => read_fits : fits.

Lemma fold64_build x y : fits 64 x -> fits 64 y -> XXH3_mul128_fold64 b1 x y = XXH3_mul128_fold64 b2 x y.
Proof. intros Hx Hy. unfold XXH3_mul128_fold64. by rewrite (XXH_mult64to128_build b1 b2). Qed.

Lemma mix16B_agree p q s t seed : agree 16 p q -> agree 16 s t ->
  XXH3_mix16B b1 p s seed = XXH3_mix16B b2 q t seed.
Proof.
  intros Hp Hs. unfold XXH3_mix16B. cbv zeta. rewrite fold64_build by auto with fits. by agree_reads.
Qed.

Section Short.
Variables (p q s t : list Z) (len : nat) (seed : Z).
Hypothesis Hp : agree len p q.
Hypothesis Hs : agree XXH3_SECRET_SIZE_MIN s t.

Lemma len_1to3_64b_agree : (1 <= len <= 3)%nat ->
  XXH3_len_1to3_64b b1 p len s seed = XXH3_len_1to3_64b b2 q len t seed.
Proof.
  intros Hl. unfold XXH3_len_1to3_64b. cbv zeta. agree_reads.
  rewrite (agree_lookup 0 len p q), (agree_lookup (len / 2) len p q), (agree_lookup (len - 1) len p q);
    [done|lia|done|apply Nat.div_lt; lia|done|lia|done].
Qed.

Lemma len_4to8_64b_agree : (4 <= len)%nat ->
  XXH3_len_4to8_64b b1 p len s seed = XXH3_len_4to8_64b b2 q len t seed.
Proof. intros Hl. unfold XXH3_len_4to8_64b. cbv zeta. by agree_reads. Qed.

Lemma len_9to16_64b_agree : (8 < len)%nat ->
  XXH3_len_9to16_64b b1 p len s seed = XXH3_len_9to16_64b b2 q len t seed.
Proof.
  intros Hl. unfold XXH3_len_9to16_64b. cbv zeta. rewrite fold64_build by auto with fits. by agree_reads.
Qed.

Lemma len_0to16_64b_agree : XXH3_len_0to16_64b b1 p len s seed = XXH3_len_0to16_64b b2 q len t seed.
Proof.
  unfold XXH3_len_0to16_64b. repeat case_decide.
  - by apply len_9to16_64b_agree.
  - by apply len_4to8_64b_agree.
  - apply len_1to3_64b_agree. lia.
  - by agree_reads.
Qed.

Lemma len_1to3_128b_agree : (1 <= len <= 3)%nat ->
  XXH3_len_1to3_128b b1 p len s seed = XXH3_len_1to3_128b b2 q len t seed.
Proof.
  intros Hl. unfold XXH3_len_1to3_128b. cbv zeta. agree_reads.
  rewrite (agree_lookup 0 len p q), (agree_lookup (len / 2) len p q), (agree_lookup (len - 1) len p q);
    [done|lia|done|apply Nat.div_lt; lia|done|lia|done].
Qed.

Lemma len_4to8_128b_agree : (4 <= len)%nat ->
  XXH3_len_4to8_128b b1 p len s seed = XXH3_len_4to8_128b b2 q len t seed.
Proof.
  intros Hl. unfold XXH3_len_4to8_128b. cbv zeta.
  rewrite (XXH_mult64to128_build b1 b2) by auto with fits. by agree_reads.
Qed.

(** The two ways to add the product of the low half of [input_hi]. *)
Lemma high_32_64 h x : fits 64 x ->
  u64 (h + (Z.land x 0xFFFFFFFF00000000 + XXH_mult32to64 (u32 x) XXH_PRIME32_2)) =
  u64 (h + (x + XXH_mult32to64 (u32 x) (XXH_PRIME32_2 - 1))).
Proof.
  intros Hx. destruct (halves x Hx) as [Hl Hh].
  rewrite !XXH_mult32to64_eq by (exact Hl || (apply (bool_decide_unpack _); vm_compute; exact I)).
  f_equal. change 0xFFFFFFFF00000000 with (Z.shiftl (Z.ones 32) 32).
  assert (E : Z.land x (Z.shiftl (Z.ones 32) 32) = x / 2 ^ 32 * 2 ^ 32).
  { rewrite <- Z.shiftl_mul_pow2, <- Z.shiftr_div_pow2 by lia. apply Z.bits_inj'. intros k Hk.
    rewrite Z.land_spec. destruct (Z.lt_ge_cases k 32).
    - rewrite !Z.shiftl_spec_low by lia. apply andb_false_r.
    - rewrite !Z.shiftl_spec, Z.shiftr_spec by lia. replace (k - 32 + 32) with k by lia.
      destruct (Z.lt_ge_cases k 64); [rewrite Z.ones_spec_low by lia; apply andb_true_r|].
      rewrite Z.ones_spec_high, andb_false_r by lia. rewrite <- (Z.mod_small x (2 ^ 64)) by exact Hx.
      by rewrite Z.mod_pow2_bits_high by lia. }
  rewrite E. unfold wrap. pose proof (Z.div_mod x (2 ^ 32)). lia.
Qed.

Lemma len_9to16_128b_agree : (8 < len)%nat ->
  XXH3_len_9to16_128b b1 p len s seed = XXH3_len_9to16_128b b2 q len t seed.
Proof.
  intros Hl. unfold XXH3_len_9to16_128b. cbv zeta.
  assert (E : forall b h x, fits 64 x ->
    (if PTR32 b then u64 (h + (Z.land x 0xFFFFFFFF00000000 + XXH_mult32to64 (u32 x) XXH_PRIME32_2))
     else u64 (h + (x + XXH_mult32to64 (u32 x) (XXH_PRIME32_2 - 1)))) =
    u64 (h + (x + XXH_mult32to64 (u32 x) (XXH_PRIME32_2 - 1)))).
  { intros b h x Hx. destruct (PTR32 b); [by apply high_32_64|done]. }
  rewrite !E by (agree_reads; auto with fits). clear E.
  rewrite (XXH_mult64to128_build b1 b2) by auto 10 with fits.
  rewrite (XXH_mult64to128_build b1 b2 (Z.lxor (Z.lxor _ _) _)) by auto 10 with fits. by agree_reads.
Qed.

Lemma len_0to16_128b_agree : XXH3_len_0to16_128b b1 p len s seed = XXH3_len_0to16_128b b2 q len t seed.
Proof.
  unfold XXH3_len_0to16_128b. repeat case_decide.
  - by apply len_9to16_128b_agree.
  - by apply len_4to8_128b_agree.
  - apply len_1to3_128b_agree. lia.
  - by agree_reads.
Qed.

End Short.

(** ** Middle inputs *)

Section Middle.
Variables (p q s t : list Z) (len : nat) (seed : Z).
Hypothesis Hp : agree len p q.
Hypothesis Hs : agree XXH3_SECRET_SIZE_MIN s t.

(** The step of the 64-bit sums, at an offset of the input and of the secret. *)
Lemma mix_at_agree i j : (i + 16 <= len)%nat -> (j + 16 <= XXH3_SECRET_SIZE_MIN)%nat ->
  XXH3_mix16B b1 (p +: i) (s +: j) seed = XXH3_mix16B b2 (q +: i) (t +: j) seed.
Proof. intros Hi Hj. apply mix16B_agree; [by apply (agree_at 16 i len)|by eapply agree_at]. Qed.

(** The unrolled steps are those of the loop. *)
Lemma len_17to128_64b_down b x y : (16 < len <= 128)%nat ->
  XXH3_len_17to128_64b b x len y 0 seed =
  XXH3_avalanche (mix16B_down b ((len - 1) / 32) x len y seed (u64 (Z.of_nat len * XXH_PRIME64_1))).
Proof.
  intros Hl. unfold XXH3_len_17to128_64b. cbv zeta. case_decide; [done|].
  pose proof (Nat.div_mod_eq (len - 1) 32). pose proof (Nat.mod_upper_bound (len - 1) 32).
  assert (E : forall k, (32 * k <= len - 1 < 32 * (k + 1))%nat -> ((len - 1) / 32 = k)%nat) by lia.
  repeat case_decide; [rewrite (E 3%nat) by lia|rewrite (E 2%nat) by lia|rewrite (E 1%nat) by lia|rewrite (E 0%nat) by lia];
    cbn [mix16B_down Nat.mul Nat.add]; reflexivity.
Qed.

Lemma mix16B_down_agree i acc : (16 * (i + 1) <= len)%nat -> (i < 4)%nat ->
  mix16B_down b1 i p len s seed acc = mix16B_down b2 i q len t seed acc.
Proof.
  revert acc. induction i as [|i IH]; intros acc Hi Hj; cbn [mix16B_down];
    rewrite !mix_at_agree by (unfold XXH3_SECRET_SIZE_MIN; lia); [done|]. apply IH; lia.
Qed.

Lemma len_17to128_64b_agree z1 z2 : (16 < len <= 128)%nat ->
  XXH3_len_17to128_64b b1 p len s z1 seed = XXH3_len_17to128_64b b2 q len t z2 seed.
Proof.
  intros Hl. change (XXH3_len_17to128_64b b1 p len s 0 seed = XXH3_len_17to128_64b b2 q len t 0 seed).
  rewrite !len_17to128_64b_down by done.
  pose proof (Nat.div_mod_eq (len - 1) 32). rewrite mix16B_down_agree; [done|lia|].
  apply Nat.div_lt_upper_bound; lia.
Qed.

Lemma len_129to240_64b_agree z1 z2 : (128 < len <= XXH3_MIDSIZE_MAX)%nat ->
  XXH3_len_129to240_64b b1 p len s z1 seed = XXH3_len_129to240_64b b2 q len t z2 seed.
Proof.
  unfold XXH3_len_129to240_64b, XXH3_MIDSIZE_MAX. intros Hl. cbv zeta.
  pose proof (Nat.div_mod_eq len 16). pose proof (Nat.mod_upper_bound len 16).
  rewrite (mix_at_agree (len - 16)) by (unfold XXH3_SECRET_SIZE_MIN, XXH3_MIDSIZE_LASTOFFSET; lia).
  do 3 f_equal; [f_equal|]; apply for_up_same; intros i x Hi; rewrite mix_at_agree; try done;
    unfold XXH3_SECRET_SIZE_MIN, XXH3_MIDSIZE_STARTOFFSET; lia.
Qed.

Lemma mix32B_agree acc i j k : (i + 16 <= len)%nat -> (j + 16 <= len)%nat -> (k + 32 <= XXH3_SECRET_SIZE_MIN)%nat ->
  XXH128_mix32B b1 acc (p +: i) (p +: j) (s +: k) seed = XXH128_mix32B b2 acc (q +: i) (q +: j) (t +: k) seed.
Proof.
  intros Hi Hj Hk. unfold XXH128_mix32B. cbv zeta. rewrite !drop_drop.
  rewrite !mix_at_agree by lia. by agree_reads.
Qed.

Lemma len_17to128_128b_down b x y : (16 < len <= 128)%nat ->
  XXH3_len_17to128_128b b x len y 0 seed =
  finish_128b (mix32B_down b ((len - 1) / 32) x len y seed (H128 (u64 (Z.of_nat len * XXH_PRIME64_1)) 0)) len seed.
Proof.
  intros Hl. unfold XXH3_len_17to128_128b. cbv zeta. case_decide; [done|].
  pose proof (Nat.div_mod_eq (len - 1) 32). pose proof (Nat.mod_upper_bound (len - 1) 32).
  assert (E : forall k, (32 * k <= len - 1 < 32 * (k + 1))%nat -> ((len - 1) / 32 = k)%nat) by lia.
  repeat case_decide; [rewrite (E 3%nat) by lia|rewrite (E 2%nat) by lia|rewrite (E 1%nat) by lia|rewrite (E 0%nat) by lia];
    cbn [mix32B_down Nat.mul Nat.add]; reflexivity.
Qed.

Lemma mix32B_down_agree i acc : (16 * (i + 1) <= len)%nat -> (i < 4)%nat ->
  mix32B_down b1 i p len s seed acc = mix32B_down b2 i q len t seed acc.
Proof.
  revert acc. induction i as [|i IH]; intros acc Hi Hj; cbn [mix32B_down];
    rewrite !mix32B_agree by (unfold XXH3_SECRET_SIZE_MIN; lia); [done|]. apply IH; lia.
Qed.

Lemma len_17to128_128b_agree z1 z2 : (16 < len <= 128)%nat ->
  XXH3_len_17to128_128b b1 p len s z1 seed = XXH3_len_17to128_128b b2 q len t z2 seed.
Proof.
  intros Hl. change (XXH3_len_17to128_128b b1 p len s 0 seed = XXH3_len_17to128_128b b2 q len t 0 seed).
  rewrite !len_17to128_128b_down by done.
  pose proof (Nat.div_mod_eq (len - 1) 32). rewrite mix32B_down_agree; [done|lia|].
  apply Nat.div_lt_upper_bound; lia.
Qed.

End Middle.

Lemma len_129to240_128b_agree p q s t len seed z1 z2 : agree len p q -> agree XXH3_SECRET_SIZE_MIN s t ->
  (128 < len <= XXH3_MIDSIZE_MAX)%nat ->
  XXH3_len_129to240_128b b1 p len s z1 seed = XXH3_len_129to240_128b b2 q len t z2 seed.
Proof.
  unfold XXH3_len_129to240_128b, XXH3_MIDSIZE_MAX. intros Hp Hs Hl. cbv zeta.
  pose proof (Nat.div_mod_eq len 32). pose proof (Nat.mod_upper_bound len 32).
  assert (E : forall n f j (c : nat) acc,
    (forall i, f <= i < f + n -> 32 * i <= len /\ 32 <= 32 * i /\ 32 + (c + 32 * i - j) <= XXH3_SECRET_SIZE_MIN)%nat ->
    for_up n f (fun k acc => XXH128_mix32B b1 acc (p +: (32 * k - 32)) (p +: (32 * k - 16)) (s +: (c + 32 * k - j)) seed) acc =
    for_up n f (fun k acc => XXH128_mix32B b2 acc (q +: (32 * k - 32)) (q +: (32 * k - 16)) (t +: (c + 32 * k - j)) seed) acc).
  { intros n f j c acc H1. apply for_up_same. intros i x Hi. specialize (H1 i Hi).
    apply (mix32B_agree p q s t len); [done|done|lia..]. }
  rewrite (mix32B_agree p q s t len (u64 (0 - seed)) Hp Hs) by
    (unfold XXH3_SECRET_SIZE_MIN, XXH3_MIDSIZE_LASTOFFSET; lia).
  rewrite (E (len / 32 - 4)%nat 5%nat 160%nat XXH3_MIDSIZE_STARTOFFSET) by
    (intros i Hi; unfold XXH3_SECRET_SIZE_MIN, XXH3_MIDSIZE_STARTOFFSET; lia).
  by rewrite (E 4%nat 1%nat 32%nat O) by (intros i Hi; unfold XXH3_SECRET_SIZE_MIN; lia).
Qed.

End Agreement.

(** ** Long inputs: the accumulators *)

Lemma lanes_insert acc i x : lanes acc -> fits 64 x -> lanes (<[i := x]> acc).
Proof. intros [L F] H. split; [by rewrite length_insert|]. by apply Forall_insert. Qed.

Lemma lanes_lookup acc i : lanes acc -> fits 64 (acc !!! i).
Proof.
  intros [L F]. destruct (decide (i < length acc)%nat) as [H|H].
  - rewrite Forall_lookup in F. apply (F i). by apply list_lookup_lookup_total_lt.
  - rewrite list_lookup_total_alt, lookup_ge_None_2 by lia. done.
Qed.

#[export] Hint Resolve lanes_insert lanes_lookup : fits.

Lemma lanes_init : lanes XXH3_INIT_ACC.
Proof. split; [done|]. apply (bool_decide_unpack _). vm_compute. exact I. Qed.

Section Long.
Variables b1 b2 : build.

Lemma scalarRound_agree acc p q s t i : lanes acc -> agree 64 p q -> agree 64 s t -> (i < 8)%nat ->
  XXH3_scalarRound b1 acc p s i = XXH3_scalarRound b2 acc q t i /\ lanes (XXH3_scalarRound b1 acc p s i).
Proof.
  intros L Hp Hs Hi. unfold XXH3_scalarRound. cbv zeta. split.
  - rewrite (agree_read64 (base b1) (base b2) (p +: i * 8) (q +: i * 8)) by agreeing.
    by rewrite (agree_read64 (base b1) (base b2) (s +: i * 8) (t +: i * 8)) by agreeing.
  - apply lanes_insert; [|unfold XXH_mult32to64_add64]; auto with fits.
Qed.

Lemma accumulate_512_agree acc p q s t : lanes acc -> agree 64 p q -> agree 64 s t ->
  XXH3_accumulate_512_scalar b1 acc p s = XXH3_accumulate_512_scalar b2 acc q t /\
  lanes (XXH3_accumulate_512_scalar b1 acc p s).
Proof.
  intros L Hp Hs. apply for_up_ext; [done|]. intros i x Hi Lx.
  unfold XXH_ACC_NB, XXH_STRIPE_LEN in Hi. apply scalarRound_agree; [done|done|done|]. cbn in Hi. lia.
Qed.

Lemma scrambleAcc_agree acc s t : lanes acc -> agree 64 s t ->
  XXH3_scrambleAcc_scalar b1 acc s = XXH3_scrambleAcc_scalar b2 acc t /\
  lanes (XXH3_scrambleAcc_scalar b1 acc s).
Proof.
  intros L Hs. apply for_up_ext; [done|]. intros i x Hi Lx.
  unfold XXH_ACC_NB, XXH_STRIPE_LEN in Hi. cbn in Hi.
  unfold XXH3_scalarScrambleRound. cbv zeta. split; [|auto with fits].
  by rewrite (agree_read64 (base b1) (base b2) (s +: i * 8) (t +: i * 8)) by agreeing.
Qed.

End Long.

(** ** The stripes of a long input

    One stripe: the accumulators mix it with the bytes of the secret
    that belong to its place [k] in the block, and are scrambled at the end of a
    block.  [run_stripes] does [n] stripes from the [k]-th one of the input. *)

Section Stripes.
Variable b : build.
Variables (secret : list Z) (secretSize : nat).

Definition per_block : nat := ((secretSize - XXH_STRIPE_LEN) / XXH_SECRET_CONSUME_RATE)%nat.

Definition one_stripe (k : nat) (acc p : list Z) : list Z :=
  let acc := XXH3_accumulate_512_scalar b acc p (secret +: (k mod per_block) * XXH_SECRET_CONSUME_RATE) in
  if decide (S k mod per_block = 0)%nat then XXH3_scrambleAcc_scalar b acc (secret +: (secretSize - XXH_STRIPE_LEN))
  else acc.

Fixpoint run_stripes (k n : nat) (acc p : list Z) : list Z :=
  match n with
  | O => acc
  | S n' => run_stripes (S k) n' (one_stripe k acc p) (p +: XXH_STRIPE_LEN)
  end.

(** The last stripe. *)
Definition last_stripe (acc p : list Z) : list Z :=
  XXH3_accumulate_512_scalar b acc p (secret +: (secretSize - XXH_STRIPE_LEN - XXH_SECRET_LASTACC_START)).

Lemma run_add k n m acc p : run_stripes k (n + m) acc p = run_stripes (k + n) m (run_stripes k n acc p) (p +: n * XXH_STRIPE_LEN).
Proof.
  revert k acc p. induction n as [|n IH]; intros k acc p; cbn [run_stripes Nat.add].
  - by rewrite Nat.add_0_r.
  - rewrite IH, drop_drop. by replace (k + S n)%nat with (S k + n)%nat by lia.
Qed.

End Stripes.

(** The bytes of the secret a stripe reads are inside it. *)
Lemma stripe_secret secretSize k : (XXH3_SECRET_SIZE_MIN <= secretSize)%nat ->
  (0 < per_block secretSize)%nat /\
  ((k mod per_block secretSize) * XXH_SECRET_CONSUME_RATE + 64 <= secretSize)%nat.
Proof.
  unfold XXH3_SECRET_SIZE_MIN, per_block, XXH_SECRET_CONSUME_RATE, XXH_STRIPE_LEN. intros H.
  pose proof (Nat.div_mod_eq (secretSize - 64) 8). pose proof (Nat.mod_upper_bound (secretSize - 64) 8).
  assert (P : (0 < (secretSize - 64) / 8)%nat) by lia. split; [done|].
  pose proof (Nat.mod_upper_bound k ((secretSize - 64) / 8)). lia.
Qed.

(** [n] stripes on pointers that agree. *)
Lemma run_agree b1 b2 s t secretSize k n acc p q :
  agree secretSize s t -> (XXH3_SECRET_SIZE_MIN <= secretSize)%nat -> agree (64 * n) p q -> lanes acc ->
  run_stripes b1 s secretSize k n acc p = run_stripes b2 t secretSize k n acc q /\ lanes (run_stripes b1 s secretSize k n acc p).
Proof.
  intros Hs Hz. revert k acc p q. induction n as [|n IH]; intros k acc p q Hp L; cbn [run_stripes]; [done|].
  destruct (stripe_secret secretSize k Hz) as [_ Hk].
  destruct (accumulate_512_agree b1 b2 acc p q (s +: (k mod per_block secretSize) * XXH_SECRET_CONSUME_RATE)
    (t +: (k mod per_block secretSize) * XXH_SECRET_CONSUME_RATE) L) as [E L'];
    [apply (agree_le 64 (64 * S n)); [lia|done] | by apply (agree_at 64 _ secretSize)|].
  assert (Hs' : agree 64 (s +: (secretSize - XXH_STRIPE_LEN)) (t +: (secretSize - XXH_STRIPE_LEN))).
  { apply (agree_at 64 _ secretSize); [|done]. unfold XXH3_SECRET_SIZE_MIN, XXH_STRIPE_LEN in *. lia. }
  destruct (scrambleAcc_agree b1 b2 _ _ _ L' Hs') as [E2 L2].
  assert (Es : one_stripe b1 s secretSize k acc p = one_stripe b2 t secretSize k acc q /\
               lanes (one_stripe b1 s secretSize k acc p)).
  { unfold one_stripe. cbv zeta. case_decide; [|done]. by rewrite <- E, <- E2. }
  destruct Es as [<- L3]. apply IH; [|done]. by apply (agree_at (64 * n) 64 (64 * S n)); [lia|].
Qed.

Lemma last_stripe_agree b1 b2 s t secretSize acc p q :
  agree secretSize s t -> (XXH3_SECRET_SIZE_MIN <= secretSize)%nat -> agree 64 p q -> lanes acc ->
  last_stripe b1 s secretSize acc p = last_stripe b2 t secretSize acc q /\
  lanes (last_stripe b1 s secretSize acc p).
Proof.
  intros Hs Hz Hp L. apply accumulate_512_agree; [done|done|].
  apply (agree_at 64 _ secretSize); [|done].
  unfold XXH3_SECRET_SIZE_MIN, XXH_STRIPE_LEN, XXH_SECRET_LASTACC_START in *. lia.
Qed.

(** A place inside its block. *)
Lemma mod_inside k n m : (k mod m + n < m)%nat -> ((k + n) mod m = k mod m + n)%nat.
Proof.
  intros H. symmetry. apply Nat.mod_unique with (k / m)%nat; [done|]. pose proof (Nat.div_mod_eq k m). lia.
Qed.

Lemma mod_end k n m : (0 < m)%nat -> (k mod m + n = m)%nat -> ((k + n) mod m = 0)%nat.
Proof.
  intros Hm H. symmetry. apply Nat.mod_unique with (k / m + 1)%nat; [done|]. pose proof (Nat.div_mod_eq k m). lia.
Qed.

Section Implementation.
Variable b : build.
Context {V : Vector} {L : VectorLaws b V}.
Variables (secret : list Z) (secretSize : nat).
Hypothesis Bs : bytes secret.
Hypothesis Ls : (secretSize <= length secret)%nat.
Hypothesis Hz : (XXH3_SECRET_SIZE_MIN <= secretSize)%nat.

Abbreviation spb := (per_block secretSize).
Abbreviation run := (run_stripes b secret secretSize).

Lemma own_secret : agree secretSize secret secret.
Proof. by apply agree_refl. Qed.

Lemma run_lanes k n acc p : bytes p -> (64 * n <= length p)%nat -> lanes acc -> lanes (run k n acc p).
Proof. intros Bp Lp La. by apply (run_agree b b secret secret secretSize k n acc p p own_secret Hz). Qed.

(** Up to the end of a block the stripes are those of [XXH3_accumulate]; the
    client scrambles at the end. *)
Lemma accumulate_run k n acc p :
  bytes p -> (64 * n <= length p)%nat -> lanes acc -> (k mod spb + n <= spb)%nat ->
  run k n acc p =
    let acc' := XXH3_accumulate acc p (secret +: (k mod spb) * XXH_SECRET_CONSUME_RATE) n in
    if decide (k mod spb + n = spb)%nat then XXH3_scrambleAcc acc' (secret +: (secretSize - XXH_STRIPE_LEN))
    else acc'.
Proof.
  intros Bp Lp La Hk. destruct (stripe_secret secretSize k Hz) as [Hm _].
  rewrite accumulate_stripes. unfold XXH3_accumulate_template. cbv zeta.
  pose proof (Nat.mod_upper_bound k spb ltac:(lia)) as Hu.
  induction n as [|n IH]; [rewrite decide_False by lia; done|].
  replace (S n) with (n + 1)%nat by lia. rewrite run_add, for_up_add.
  rewrite decide_False in IH by lia. pose proof (run_lanes k n acc p Bp ltac:(lia) La) as Ln.
  rewrite IH in Ln |- * by lia. clear IH. set (acc' := for_up n 0 _ acc) in *.
  cbn [for_up run_stripes Nat.add]. unfold one_stripe. cbv zeta.
  assert (Hs : (k mod spb + n < spb)%nat) by lia. rewrite mod_inside by done.
  destruct (stripe_secret secretSize (k + n) Hz) as [_ Hi]. rewrite mod_inside in Hi by done.
  rewrite drop_drop, <- Nat.mul_add_distr_r.
  assert (B : bytes (secret +: (k mod spb + n) * XXH_SECRET_CONSUME_RATE)) by auto with bytes.
  assert (E : forall j, (j + 64 <= secretSize)%nat -> (64 <= length (secret +: j))%nat)
    by (intros j Hj; rewrite length_drop; lia).
  rewrite accumulate_512_scalar; [|done|auto with bytes|done|rewrite length_drop; unfold XXH_STRIPE_LEN; lia|by apply E].
  destruct (accumulate_512_agree b b acc' (p +: n * XXH_STRIPE_LEN) (p +: n * XXH_STRIPE_LEN)
    (secret +: (k mod spb + n) * XXH_SECRET_CONSUME_RATE) (secret +: (k mod spb + n) * XXH_SECRET_CONSUME_RATE) Ln)
    as [_ L2]; [apply agree_refl; [auto with bytes|rewrite length_drop; unfold XXH_STRIPE_LEN; lia]
               |apply agree_refl; [done|by apply E]|].
  replace (S (k + n)) with (k + (n + 1))%nat by lia. destruct (decide (k mod spb + (n + 1) = spb)%nat) as [He|He].
  - rewrite decide_True by (by apply mod_end). rewrite scrambleAcc_scalar; [done|done|auto with bytes|].
    apply E. unfold XXH3_SECRET_SIZE_MIN, XXH_STRIPE_LEN in *. lia.
  - rewrite decide_False; [done|]. rewrite mod_inside by lia. lia.
Qed.

(** The stripes before the last byte, in blocks. *)
Lemma stripes_blocks n m : (0 < m)%nat ->
  let N := ((n - 1) / 64)%nat in let nb := ((n - 1) / (64 * m))%nat in
  N = (nb * m + (n - 1 - 64 * m * nb) / 64)%nat /\ ((n - 1 - 64 * m * nb) / 64 < m)%nat.
Proof.
  intros Hm. cbv zeta. rewrite <- Nat.Div0.div_div.
  set (N := ((n - 1) / 64)%nat). pose proof (Nat.div_mod_eq (n - 1) 64) as E. fold N in E.
  pose proof (Nat.mod_upper_bound (n - 1) 64). pose proof (Nat.div_mod_eq N m). pose proof (Nat.mod_upper_bound N m).
  assert (Er : ((n - 1 - 64 * m * (N / m)) / 64 = N mod m)%nat).
  { symmetry. apply Nat.div_unique with ((n - 1) mod 64)%nat; [lia|]. nia. }
  rewrite Er. lia.
Qed.

Lemma blocks_run nb acc input : bytes input -> (64 * (nb * spb) <= length input)%nat -> lanes acc ->
  for_up nb 0 (fun n acc =>
    XXH3_scrambleAcc (XXH3_accumulate acc (input +: n * (XXH_STRIPE_LEN * spb)) secret spb)
      (secret +: (secretSize - XXH_STRIPE_LEN))) acc = run 0 (nb * spb) acc input.
Proof.
  intros Bi Li La. destruct (stripe_secret secretSize 0 Hz) as [Hm _].
  induction nb as [|nb IH]; [done|].
  replace (S nb) with (nb + 1)%nat by lia. rewrite for_up_add, Nat.mul_add_distr_r, run_add, IH by lia.
  cbn [for_up Nat.add]. rewrite Nat.mul_1_l.
  rewrite (accumulate_run (nb * spb) spb); [|auto with bytes|rewrite length_drop; unfold XXH_STRIPE_LEN; lia
    |apply run_lanes; [done|lia|done]|rewrite Nat.Div0.mod_mul; lia].
  rewrite Nat.Div0.mod_mul, Nat.add_0_l. cbv zeta. rewrite decide_True by done.
  by replace (nb * (XXH_STRIPE_LEN * spb))%nat with (nb * spb * XXH_STRIPE_LEN)%nat by lia.
Qed.

Lemma hashLong_loop_run acc input len : bytes input -> (len <= length input)%nat -> (64 <= len)%nat -> lanes acc ->
  XXH3_hashLong_internal_loop acc input len secret secretSize XXH3_accumulate XXH3_scrambleAcc =
  last_stripe b secret secretSize (run 0 ((len - 1) / 64) acc input) (input +: (len - XXH_STRIPE_LEN)).
Proof.
  intros Bi Li Hl La. destruct (stripe_secret secretSize 0 Hz) as [Hm _].
  unfold XXH3_hashLong_internal_loop. fold spb. cbv zeta.
  destruct (stripes_blocks len spb Hm) as [E Hr]. change XXH_STRIPE_LEN with 64%nat in *.
  set (nb := ((len - 1) / (64 * spb))%nat) in *. set (r := ((len - 1 - 64 * spb * nb) / 64)%nat) in *.
  pose proof (Nat.div_mod_eq (len - 1) 64).
  change 64%nat with XXH_STRIPE_LEN at 2. rewrite blocks_run by (done || lia).
  assert (Lr : lanes (run 0 (nb * spb) acc input)) by (apply run_lanes; [done|lia|done]).
  assert (Er : run 0 ((len - 1) / 64) acc input =
    XXH3_accumulate (run 0 (nb * spb) acc input) (input +: nb * (64 * spb)) secret r).
  { rewrite E, run_add, Nat.add_0_l.
    rewrite (accumulate_run (nb * spb) r); [|auto with bytes|rewrite length_drop; unfold XXH_STRIPE_LEN; lia
      |done|rewrite Nat.Div0.mod_mul; lia].
    rewrite Nat.Div0.mod_mul, Nat.add_0_l. cbv zeta. rewrite decide_False by lia.
    by replace (nb * (64 * spb))%nat with (nb * spb * XXH_STRIPE_LEN)%nat by (unfold XXH_STRIPE_LEN; lia). }
  rewrite <- Er. unfold last_stripe. apply accumulate_512_scalar; [|auto with bytes|auto with bytes|..].
  - apply run_lanes; [done|lia|done].
  - rewrite length_drop. lia.
  - rewrite length_drop. unfold XXH3_SECRET_SIZE_MIN, XXH_SECRET_LASTACC_START, XXH_STRIPE_LEN in *. lia.
Qed.

End Implementation.

(** ** The secret made from a seed *)

Lemma writeLE64_bytes b v : fits 64 v -> XXH_writeLE64 b v = le_bytes 8 v.
Proof.
  intros H. unfold XXH_writeLE64, store64. destruct (LITTLE_ENDIAN (base b)); [done|].
  rewrite swap64_value by done. set (l := le_bytes 8 v).
  assert (Ll : length (reverse l) = 8%nat) by (rewrite length_reverse; apply le_bytes_length).
  rewrite <- Ll, le_bytes_value by (apply Forall_reverse, le_bytes_bytes). apply reverse_involutive.
Qed.

Lemma kSecret_bytes : bytes XXH3_kSecret /\ length XXH3_kSecret = XXH_SECRET_DEFAULT_SIZE.
Proof. split; [apply (bool_decide_unpack _); vm_compute; exact I|done]. Qed.

(** The builds write the same secret, and all of the array. *)
Lemma initCustomSecret_same b1 b2 seed : XXH3_initCustomSecret_scalar b1 seed = XXH3_initCustomSecret_scalar b2 seed.
Proof.
  apply for_up_same. intros i x Hi. cbv zeta. rewrite !writeLE64_bytes by auto with fits.
  assert (A : agree 192 XXH3_kSecret XXH3_kSecret) by (apply agree_refl; [apply kSecret_bytes|done]).
  change (XXH_SECRET_DEFAULT_SIZE / 16)%nat with 12%nat in Hi.
  by rewrite (agree_read64 (base b1) (base b2) (XXH3_kSecret +: 16 * i) (XXH3_kSecret +: 16 * i)),
    (agree_read64 (base b1) (base b2) (XXH3_kSecret +: (16 * i + 8)) (XXH3_kSecret +: (16 * i + 8)))
    by (apply (agree_at 8 _ 192); [lia|done]).
Qed.

Lemma initCustomSecret_length b seed :
  bytes (XXH3_initCustomSecret_scalar b seed) /\
  length (XXH3_initCustomSecret_scalar b seed) = XXH_SECRET_DEFAULT_SIZE.
Proof.
  change (XXH_SECRET_DEFAULT_SIZE) with (16 * (0 + XXH_SECRET_DEFAULT_SIZE / 16))%nat.
  apply (for_up_ind (fun i x => bytes x /\ length x = 16 * i)%nat); [by split; [constructor|]|].
  intros i x Hi [Bx Lx]. cbv zeta. rewrite !writeLE64_bytes by auto with fits.
  rewrite !length_app, !le_bytes_length. split; [|lia]. unfold bytes. rewrite !Forall_app.
  split_and!; [exact Bx|apply le_bytes_bytes..].
Qed.

Lemma initCustomSecret_0 b : XXH3_initCustomSecret_scalar b 0 = XXH3_kSecret.
Proof. rewrite (initCustomSecret_same b default_build). vm_compute. reflexivity. Qed.

Lemma initCustomSecret_vector b {V : Vector} {L : VectorLaws b V} seed : fits 64 seed ->
  initCustomSecret b seed = XXH3_initCustomSecret_scalar b seed.
Proof. intros H. unfold initCustomSecret. case_decide; [done|]. by apply initCustomSecret_scalar. Qed.

(** ** The ways to key a hash, and what they hash with *)

Inductive keying :=
  | Plain
  | Seeded (seed : Z)
  | Keyed (secret : list Z) (secretSize : nat)
  | KeyedSeeded (secret : list Z) (secretSize : nat) (seed : Z).

Definition one_shot64 (b : build) {V : Vector} (k : keying) (input : list Z) (len : nat) : outcome Z :=
  match k with
  | Plain => XXH3_64bits b input len
  | Seeded seed => XXH3_64bits_withSeed b input len seed
  | Keyed secret size => XXH3_64bits_withSecret b input len secret size
  | KeyedSeeded secret size seed => XXH3_64bits_withSecretandSeed b input len secret size seed
  end.

Definition one_shot128 (b : build) {V : Vector} (k : keying) (input : list Z) (len : nat) : outcome XXH128_hash_t :=
  match k with
  | Plain => XXH3_128bits b input len
  | Seeded seed => XXH3_128bits_withSeed b input len seed
  | Keyed secret size => XXH3_128bits_withSecret b input len secret size
  | KeyedSeeded secret size seed => XXH3_128bits_withSecretandSeed b input len secret size seed
  end.

(** The same seed, and secrets of at least XXH3_SECRET_SIZE_MIN bytes that
    agree on their size. *)
Definition secret_agree (s : list Z) (n : nat) (t : list Z) (m : nat) : Prop :=
  n = m /\ (XXH3_SECRET_SIZE_MIN <= n)%nat /\ agree n s t.

Definition key_agree (k1 k2 : keying) : Prop :=
  match k1, k2 with
  | Plain, Plain => True
  | Seeded x, Seeded y => x = y /\ fits 64 x
  | Keyed s n, Keyed t m => secret_agree s n t m
  | KeyedSeeded s n x, KeyedSeeded t m y => secret_agree s n t m /\ x = y /\ fits 64 x
  | _, _ => False
  end.

(** What a caller has to give. *)
Abbreviation key_ok k := (key_agree k k).

(** The secret and the seed of an input of at most XXH3_MIDSIZE_MAX bytes. *)
Definition short_key (k : keying) : list Z * Z :=
  match k with
  | Plain => (XXH3_kSecret, 0)
  | Seeded seed | KeyedSeeded _ _ seed => (XXH3_kSecret, seed)
  | Keyed secret _ => (secret, 0)
  end.

(** The secret of a longer input, and its size. *)
Definition long_key (k : keying) : list Z * nat :=
  match k with
  | Plain => (XXH3_kSecret, XXH_SECRET_DEFAULT_SIZE)
  | Seeded seed => (XXH3_initCustomSecret_scalar default_build seed, XXH_SECRET_DEFAULT_SIZE)
  | Keyed secret size | KeyedSeeded secret size _ => (secret, size)
  end.

Lemma default_size : (XXH3_SECRET_SIZE_MIN <= XXH_SECRET_DEFAULT_SIZE)%nat.
Proof. unfold XXH3_SECRET_SIZE_MIN, XXH_SECRET_DEFAULT_SIZE. lia. Qed.

Lemma kSecret_agree : agree XXH_SECRET_DEFAULT_SIZE XXH3_kSecret XXH3_kSecret.
Proof. by apply agree_refl; [apply kSecret_bytes|]. Qed.

Lemma short_key_agree k1 k2 : key_agree k1 k2 ->
  agree XXH3_SECRET_SIZE_MIN (short_key k1).1 (short_key k2).1 /\ (short_key k1).2 = (short_key k2).2.
Proof.
  pose proof (agree_le _ _ _ _ default_size kSecret_agree) as K.
  destruct k1, k2; cbn [key_agree short_key fst snd]; try done; intros H.
  - destruct H as [-> _]. done.
  - destruct H as (-> & Hn & A). split; [by eapply agree_le|done].
  - destruct H as (_ & -> & _). done.
Qed.

Lemma long_key_agree k1 k2 : key_agree k1 k2 ->
  secret_agree (long_key k1).1 (long_key k1).2 (long_key k2).1 (long_key k2).2.
Proof.
  destruct k1, k2; cbn [key_agree long_key fst snd]; try done; intros H.
  - split_and!; [done|apply default_size|apply kSecret_agree].
  - destruct H as [-> _]. destruct (initCustomSecret_length default_build seed0) as [B L].
    split_and!; [done|apply default_size|]. by apply agree_refl; [|rewrite L].
  - apply H.
Qed.

(** ** The hash, on the plain build

    The definitions the theorems compare every build and every way to feed
    the input with. *)

Definition accumulated (k : keying) (input : list Z) (len : nat) : list Z :=
  let '(secret, size) := long_key k in
  last_stripe default_build secret size
    (run_stripes default_build secret size 0 ((len - 1) / 64) XXH3_INIT_ACC input) (input +: (len - 64)).

Definition hash64 (k : keying) (input : list Z) (len : nat) : Z :=
  let '(secret, seed) := short_key k in
  if decide (len <= 16)%nat then XXH3_len_0to16_64b default_build input len secret seed
  else if decide (len <= 128)%nat then XXH3_len_17to128_64b default_build input len secret 0 seed
  else if decide (len <= XXH3_MIDSIZE_MAX)%nat then XXH3_len_129to240_64b default_build input len secret 0 seed
  else XXH3_mergeAccs default_build (accumulated k input len)
         ((long_key k).1 +: XXH_SECRET_MERGEACCS_START) (u64 (Z.of_nat len * XXH_PRIME64_1)).

Definition hash128 (k : keying) (input : list Z) (len : nat) : XXH128_hash_t :=
  let '(secret, seed) := short_key k in
  if decide (len <= 16)%nat then XXH3_len_0to16_128b default_build input len secret seed
  else if decide (len <= 128)%nat then XXH3_len_17to128_128b default_build input len secret 0 seed
  else if decide (len <= XXH3_MIDSIZE_MAX)%nat then XXH3_len_129to240_128b default_build input len secret 0 seed
  else merge_128b default_build (accumulated k input len) (Z.of_nat len) (long_key k).1 (long_key k).2.

Lemma lanes_drop acc n i : lanes acc -> fits 64 ((acc +: n) !!! i).
Proof.
  intros La. rewrite list_lookup_total_alt, lookup_drop, <- list_lookup_total_alt. by apply lanes_lookup.
Qed.

#[export] Hint Resolve lanes_drop : fits.

Lemma mergeAccs_agree b1 b2 acc s t start : lanes acc -> agree 64 s t ->
  XXH3_mergeAccs b1 acc s start = XXH3_mergeAccs b2 acc t start.
Proof.
  intros La Hs. unfold XXH3_mergeAccs. f_equal. apply for_up_same. intros i x Hi.
  unfold XXH3_mix2Accs. rewrite !drop_drop.
  assert (A : forall j, (j + 8 <= 64)%nat -> agree 8 (s +: j) (t +: j)) by (intros j Hj; by apply (agree_at 8 j 64)).
  assert (F : forall j, (j + 8 <= 64)%nat -> fits 64 (XXH_readLE64 (base b1) (s +: j)))
    by (intros j Hj; by apply (readLE64_fits (base b1) _ (t +: j)), A).
  rewrite (fold64_build b1 b2) by (apply fits_lxor; [lia|by apply lanes_drop|apply F; lia]).
  by rewrite (agree_read64 (base b1) (base b2) (s +: 16 * i) (t +: 16 * i)),
    (agree_read64 (base b1) (base b2) (s +: (16 * i + 8)) (t +: (16 * i + 8))) by (apply A; lia).
Qed.

Lemma merge_128b_agree b1 b2 acc len s t size : lanes acc -> agree size s t -> (XXH3_SECRET_SIZE_MIN <= size)%nat ->
  merge_128b b1 acc len s size = merge_128b b2 acc len t size.
Proof.
  intros La Hs Hz. unfold XXH3_SECRET_SIZE_MIN in Hz. unfold merge_128b, XXH_SECRET_MERGEACCS_START.
  rewrite (mergeAccs_agree b1 b2 acc (s +: 11) (t +: 11)) by (done || (apply (agree_at 64 _ size); [lia|done])).
  by rewrite (mergeAccs_agree b1 b2 acc (s +: (size - 64 - 11)) (t +: (size - 64 - 11)))
    by (done || (apply (agree_at 64 _ size); [lia|done])).
Qed.

Section Reference.
Variable b : build.
Context {V : Vector} {L : VectorLaws b V}.
Variables (k1 k2 : keying) (p q : list Z) (len : nat).
Hypothesis Hk : key_agree k1 k2.
Hypothesis Hp : agree len p q.

Lemma loop_accumulated : (XXH3_MIDSIZE_MAX < len)%nat ->
  XXH3_hashLong_internal_loop XXH3_INIT_ACC p len (long_key k1).1 (long_key k1).2 XXH3_accumulate XXH3_scrambleAcc =
    accumulated k2 q len /\
  lanes (accumulated k2 q len).
Proof.
  unfold XXH3_MIDSIZE_MAX. intros Hl. pose proof Hp as (Bp & _ & Lp & _).
  destruct (long_key_agree k1 k2 Hk) as (En & Hz & Hs). pose proof Hs as (Bs & _ & Ls & _).
  unfold accumulated. destruct (long_key k1) as [s n], (long_key k2) as [t m]. cbn [fst snd] in *. subst m.
  rewrite (hashLong_loop_run b s n) by (done || lia || apply lanes_init).
  pose proof (Nat.div_mod_eq (len - 1) 64). change XXH_STRIPE_LEN with 64%nat.
  destruct (run_agree b default_build s t n 0 ((len - 1) / 64) XXH3_INIT_ACC p q Hs Hz) as [E L1];
    [apply (agree_le _ len); [lia|done]|apply lanes_init|].
  pose proof (last_stripe_agree b default_build s t n _ _ _ Hs Hz
    (agree_at 64 (len - 64) len p q ltac:(lia) Hp) L1) as [E2 L2]. by rewrite <- E, <- E2.
Qed.

Lemma hashLong_64b : (XXH3_MIDSIZE_MAX < len)%nat ->
  XXH3_hashLong_64b_internal b p len (long_key k1).1 (long_key k1).2 XXH3_accumulate XXH3_scrambleAcc =
  XXH3_mergeAccs default_build (accumulated k2 q len)
    ((long_key k2).1 +: XXH_SECRET_MERGEACCS_START) (u64 (Z.of_nat len * XXH_PRIME64_1)).
Proof.
  intros Hl. destruct (loop_accumulated Hl) as [E La], (long_key_agree k1 k2 Hk) as (_ & Hz & Hs).
  unfold XXH3_hashLong_64b_internal. cbv zeta. rewrite E. apply mergeAccs_agree; [done|].
  apply (agree_at 64 _ (long_key k1).2); [|done]. unfold XXH3_SECRET_SIZE_MIN, XXH_SECRET_MERGEACCS_START in *. lia.
Qed.

Lemma hashLong_128b : (XXH3_MIDSIZE_MAX < len)%nat ->
  XXH3_hashLong_128b_internal b p len (long_key k1).1 (long_key k1).2 XXH3_accumulate XXH3_scrambleAcc =
  merge_128b default_build (accumulated k2 q len) (Z.of_nat len) (long_key k2).1 (long_key k2).2.
Proof.
  intros Hl. destruct (loop_accumulated Hl) as [E La], (long_key_agree k1 k2 Hk) as (En & Hz & Hs).
  unfold XXH3_hashLong_128b_internal. cbv zeta. rewrite E, <- En. by apply merge_128b_agree.
Qed.

End Reference.

(** The secret of the seed, or without a seed the default one. *)
Lemma seeded_64b b {V : Vector} {L : VectorLaws b V} p len seed sec n : fits 64 seed ->
  XXH3_hashLong_64b_withSeed b p len seed sec n =
  XXH3_hashLong_64b_internal b p len (long_key (Seeded seed)).1 XXH_SECRET_DEFAULT_SIZE XXH3_accumulate XXH3_scrambleAcc.
Proof.
  intros Hs. unfold XXH3_hashLong_64b_withSeed, XXH3_hashLong_64b_withSeed_internal. cbn [long_key fst].
  rewrite (initCustomSecret_vector b), (initCustomSecret_same b default_build) by done.
  destruct (bool_decide (SIZE_OPT b <= 0)%nat && bool_decide (seed = 0)) eqn:E; [|done].
  apply andb_prop in E as [_ ->%bool_decide_eq_true]. by rewrite initCustomSecret_0.
Qed.

Lemma seeded_128b b {V : Vector} {L : VectorLaws b V} p len seed sec n : fits 64 seed ->
  XXH3_hashLong_128b_withSeed b p len seed sec n =
  XXH3_hashLong_128b_internal b p len (long_key (Seeded seed)).1 XXH_SECRET_DEFAULT_SIZE XXH3_accumulate XXH3_scrambleAcc.
Proof.
  intros Hs. unfold XXH3_hashLong_128b_withSeed, XXH3_hashLong_128b_withSeed_internal. cbn [long_key fst].
  rewrite (initCustomSecret_vector b), (initCustomSecret_same b default_build) by done.
  case_decide as E; [|done]. by rewrite E, initCustomSecret_0.
Qed.

(** Every one-shot function is the reference hash. *)
Lemma one_shot64_hash b {V : Vector} {L : VectorLaws b V} k1 k2 p q len :
  key_agree k1 k2 -> agree len p q -> one_shot64 b k1 p len = Ret (hash64 k2 q len).
Proof.
  intros Hk Hp. destruct (short_key_agree k1 k2 Hk) as [Hs Es].
  assert (Hint : forall z f, (XXH3_MIDSIZE_MAX < len -> exists g, f = Some g /\
      g p len (short_key k1).2 (short_key k1).1 z =
      XXH3_mergeAccs default_build (accumulated k2 q len) ((long_key k2).1 +: XXH_SECRET_MERGEACCS_START)
        (u64 (Z.of_nat len * XXH_PRIME64_1)))%nat ->
    XXH3_64bits_internal b p len (short_key k1).2 (short_key k1).1 z f = Ret (hash64 k2 q len)).
  { intros z f Hf. unfold XXH3_64bits_internal, hash64.
    destruct (short_key k1) as [s x], (short_key k2) as [t y]. cbn [fst snd] in *. subst y.
    repeat case_decide.
    - by rewrite (len_0to16_64b_agree b default_build p q s t len x Hp Hs).
    - by rewrite (len_17to128_64b_agree b default_build p q s t len x Hp Hs z 0) by lia.
    - by rewrite (len_129to240_64b_agree b default_build p q s t len x Hp Hs z 0) by lia.
    - destruct (Hf ltac:(lia)) as (g & -> & <-). done. }
  pose proof (hashLong_64b b k1 k2 p q len Hk Hp) as HL.
  destruct k1 as [|x|s n|s n x], k2 as [|y|t m|t m y]; try done; cbn [one_shot64 short_key fst snd] in *.
  - apply Hint. intros Hl. eexists. split; [done|]. by apply HL.
  - apply Hint. intros Hl. eexists. split; [done|]. rewrite (seeded_64b b) by apply Hk. by apply HL.
  - apply Hint. intros Hl. eexists. split; [done|]. by apply HL.
  - unfold XXH3_64bits_withSecretandSeed. case_decide as Hl.
    + apply Hint. unfold XXH3_MIDSIZE_MAX in *. lia.
    + unfold hash64. cbn [short_key]. unfold XXH3_MIDSIZE_MAX in *. rewrite !decide_False by lia.
      f_equal. apply HL. lia.
Qed.

Lemma one_shot128_hash b {V : Vector} {L : VectorLaws b V} k1 k2 p q len :
  key_agree k1 k2 -> agree len p q -> one_shot128 b k1 p len = Ret (hash128 k2 q len).
Proof.
  intros Hk Hp. destruct (short_key_agree k1 k2 Hk) as [Hs Es].
  assert (Hint : forall z f, (XXH3_MIDSIZE_MAX < len -> exists g, f = Some g /\
      g p len (short_key k1).2 (short_key k1).1 z =
      merge_128b default_build (accumulated k2 q len) (Z.of_nat len) (long_key k2).1 (long_key k2).2)%nat ->
    XXH3_128bits_internal b p len (short_key k1).2 (short_key k1).1 z f = Ret (hash128 k2 q len)).
  { intros z f Hf. unfold XXH3_128bits_internal, hash128.
    destruct (short_key k1) as [s x], (short_key k2) as [t y]. cbn [fst snd] in *. subst y.
    repeat case_decide.
    - by rewrite (len_0to16_128b_agree b default_build p q s t len x Hp Hs).
    - by rewrite (len_17to128_128b_agree b default_build p q s t len x Hp Hs z 0) by lia.
    - by rewrite (len_129to240_128b_agree b default_build p q s t len x z 0 Hp Hs) by lia.
    - destruct (Hf ltac:(lia)) as (g & -> & <-). done. }
  pose proof (hashLong_128b b k1 k2 p q len Hk Hp) as HL.
  destruct k1 as [|x|s n|s n x], k2 as [|y|t m|t m y]; try done; cbn [one_shot128 short_key fst snd] in *.
  - apply Hint. intros Hl. eexists. split; [done|]. by apply HL.
  - apply Hint. intros Hl. eexists. split; [done|]. rewrite (seeded_128b b) by apply Hk. by apply HL.
  - apply Hint. intros Hl. eexists. split; [done|]. by apply HL.
  - unfold XXH3_128bits_withSecretandSeed. case_decide as Hl.
    + apply Hint. unfold XXH3_MIDSIZE_MAX in *. lia.
    + unfold hash128. cbn [short_key]. unfold XXH3_MIDSIZE_MAX in *. rewrite !decide_False by lia.
      f_equal. apply HL. lia.
Qed.

(** The hashes are words. *)
Lemma rrmxmx_fits h len : fits 64 (XXH3_rrmxmx h len).
Proof. unfold XXH3_rrmxmx. cbv zeta. auto with fits. Qed.

#[export] Hint Resolve rrmxmx_fits XXH64_avalanche_fits : fits.

Lemma hash64_fits k input len : fits 64 (hash64 k input len).
Proof.
  unfold hash64. destruct (short_key k). repeat case_decide; [|apply XXH3_avalanche_fits..].
  unfold XXH3_len_0to16_64b. repeat case_decide; unfold XXH3_len_9to16_64b, XXH3_len_4to8_64b, XXH3_len_1to3_64b;
    cbv zeta; auto with fits.
Qed.

Lemma finish_fits acc len seed :
  fits 64 (low64 (finish_128b acc len seed)) /\ fits 64 (high64 (finish_128b acc len seed)).
Proof. split; cbn [low64 high64 finish_128b]; auto with fits. Qed.

Lemma hash128_fits k input len : fits 64 (low64 (hash128 k input len)) /\ fits 64 (high64 (hash128 k input len)).
Proof.
  unfold hash128. destruct (short_key k).
  repeat case_decide; [|apply finish_fits|apply finish_fits|split; apply XXH3_avalanche_fits].
  unfold XXH3_len_0to16_128b. repeat case_decide; unfold XXH3_len_9to16_128b, XXH3_len_4to8_128b, XXH3_len_1to3_128b;
    cbv zeta; cbn [low64 high64]; split; auto with fits.
Qed.

(** ** Properties *)

(** XXH3 and XXH128 of an input, plain, seeded, with a secret or with both,
    return two words that depend on the first [len] bytes of the input,
    on the seed and on the [secretSize] bytes of the secret only:
    not on what lies behind them, nor on the build (the byte order, the
    size-optimised loops, the multiply of the compiler or the portable one, the
    width of a pointer) nor on the vector implementation; no NULL function is
    called on any branch. *)
Theorem xxh3_build_independent (b1 b2 : build) (V1 V2 : Vector) (k1 k2 : keying) (p q : list Z) (len : nat) :
  VectorLaws b1 V1 -> VectorLaws b2 V2 -> key_agree k1 k2 -> agree len p q ->
  exists h64 h128,
    one_shot64 b1 (V := V1) k1 p len = Ret h64 /\ one_shot64 b2 (V := V2) k2 q len = Ret h64 /\ fits 64 h64 /\
    one_shot128 b1 (V := V1) k1 p len = Ret h128 /\ one_shot128 b2 (V := V2) k2 q len = Ret h128 /\
    fits 64 (low64 h128) /\ fits 64 (high64 h128).
Proof.
  intros L1 L2 Hk Hp. exists (hash64 k2 q len), (hash128 k2 q len).
  assert (Hk2 : key_agree k2 k2).
  { assert (A : forall s t n, agree n s t -> agree n t t) by (intros s t n (_ & B & _ & L & _); done).
    destruct k1, k2; cbn [key_agree] in *; unfold secret_agree in *; try done.
    - by destruct Hk as [-> ?].
    - destruct Hk as (-> & ? & ?). split_and!; eauto.
    - destruct Hk as ((-> & ? & ?) & -> & ?). split_and!; eauto. }
  assert (Hq : agree len q q) by (by destruct Hp as (_ & B & _ & L & _)).
  rewrite (one_shot64_hash b1 k1 k2 p q), (one_shot64_hash b2 k2 k2 q q) by done.
  rewrite (one_shot128_hash b1 k1 k2 p q), (one_shot128_hash b2 k2 k2 q q) by done.
  split_and!; try done; [apply hash64_fits|apply hash128_fits..].
Qed.

(** A big-endian build of 32 bits, optimised for size. *)
Definition small_build : build := Build big_config 1 false true.

Lemma xxh3_build_independent_witness :
  exists h64 h128,
    one_shot64 default_build (V := scalar default_build) (Seeded 7) nobody 30 = Ret h64 /\
    one_shot64 small_build (V := scalar small_build) (Seeded 7) (take 30 nobody) 30 = Ret h64 /\ fits 64 h64 /\
    one_shot128 default_build (V := scalar default_build) (Seeded 7) nobody 30 = Ret h128 /\
    one_shot128 small_build (V := scalar small_build) (Seeded 7) (take 30 nobody) 30 = Ret h128 /\
    fits 64 (low64 h128) /\ fits 64 (high64 h128).
Proof.
  apply (xxh3_build_independent default_build small_build (scalar default_build) (scalar small_build)
    (Seeded 7) (Seeded 7) nobody (take 30 nobody) 30).
  - apply scalar_laws.
  - apply scalar_laws.
  - split; [reflexivity|]. apply (bool_decide_unpack _). vm_compute. exact I.
  - split_and!; try (apply (bool_decide_unpack _); vm_compute; exact I).
Defined.

(** Published values: the hashes of the first bytes of the test buffer of the
    xxHash project, on every branch of the length. *)
Fixpoint test_buffer (n : nat) (gen : Z) : list Z :=
  match n with
  | O => []
  | S n => Z.shiftr gen 56 :: test_buffer n (u64 (gen * 11400714785074694797))
  end.

Definition sanity_buffer : list Z := test_buffer 2240 2654435761.

Theorem xxh3_known_values :
  let h n := one_shot64 default_build (V := scalar default_build) Plain sanity_buffer n in
  let h' n := one_shot128 default_build (V := scalar default_build) Plain sanity_buffer n in
  h 0%nat = Ret 0x2D06800538D394C2 /\ h 1%nat = Ret 0xC44BDFF4074EECDB /\ h 6%nat = Ret 0x27B56A84CD2D7325 /\
  h 12%nat = Ret 0xA713DAF0DFBB77E7 /\ h 24%nat = Ret 0xA3FE70BF9D3510EB /\ h 48%nat = Ret 0x397DA259ECBA1F11 /\
  h 80%nat = Ret 0xBCDEFBBB2C47C90A /\ h 195%nat = Ret 0xCD94217EE362EC3A /\ h 403%nat = Ret 0xCDEB804D65C6DEA4 /\
  h 512%nat = Ret 0x617E49599013CB6B /\ h 2240%nat = Ret 0x6E73A90539CF2948 /\
  h' 0%nat = Ret (H128 0x6001C324468D497F 0x99AA06D3014798D8) /\
  h' 1%nat = Ret (H128 0xC44BDFF4074EECDB 0xA6CD5E9392000F6A) /\
  h' 6%nat = Ret (H128 0x3E7039BDDA43CFC6 0x082AFE0B8162D12A) /\
  h' 12%nat = Ret (H128 0x061A192713F69AD9 0x6E3EFD8FC7802B18) /\
  h' 24%nat = Ret (H128 0x1E7044D28B1B901D 0x0CE966E4678D3761) /\
  h' 81%nat = Ret (H128 0x5E8BAFB9F95FB803 0x4952F58181AB0042) /\
  h' 222%nat = Ret (H128 0xF1AEBD597CEC6B3A 0x337E09641B948717) /\
  h' 403%nat = Ret (H128 0xCDEB804D65C6DEA4 0x1B6DE21E332DD73D).
Proof. vm_compute. done. Qed.
