(* ===== verification/Xxh3Stream.v ===== *)
(** * XXH3 and XXH128: the streaming functions (src/src/xxhash.h)

    The state with its buffer of 256 bytes, the four resets, the update and
    the two digests, over any build and any vector implementation of Xxh3.v.
    A [size_t] of the state that may wrap is a [Z]; a pointer that may be
    NULL is an option. *)

From Stdlib Require Import ZArith Lia.
From stdpp Require Import prelude gmap.
From S2P Require Import Prelude Xxhash Xxh3.

Definition XXH3_INTERNALBUFFER_SIZE : nat := 256.
Definition XXH3_INTERNALBUFFER_STRIPES : nat := XXH3_INTERNALBUFFER_SIZE / XXH_STRIPE_LEN.

Record XXH3_state := State3 {
  acc : list Z;
  customSecret : list Z;
  buffer : list Z;
  bufferedSize : nat;
  useSeed : Z;
  nbStripesSoFar : nat;
  totalLen : Z;
  nbStripesPerBlock : Z;
  secretLimit : Z;
  seed : Z;
  extSecret : option (list Z)
}.

Section WithVector.
Variable b : build.
Context {V : Vector}.

Abbreviation XXH3_f_accumulate := (list Z -> list Z -> list Z -> nat -> list Z).
Abbreviation XXH3_f_scrambleAcc := (list Z -> list Z -> list Z).

(** ** The resets *)

(** Before the first reset of a state on the stack. *)
Definition XXH3_INITSTATE (s : XXH3_state) : XXH3_state :=
  State3 (acc s) (customSecret s) (buffer s) (bufferedSize s) (useSeed s) (nbStripesSoFar s) (totalLen s)
    (nbStripesPerBlock s) (secretLimit s) 0 None.

Definition XXH3_copyState (dst_state src_state : XXH3_state) : XXH3_state := src_state.

Definition XXH3_reset_internal (s : XXH3_state) (seed : Z) (secret : option (list Z)) (secretSize : nat) : XXH3_state :=
  let secretLimit := u64 (Z.of_nat secretSize - Z.of_nat XXH_STRIPE_LEN) in
  State3 XXH3_INIT_ACC (customSecret s) (buffer s) 0 (Z.b2z (bool_decide (seed <> 0))) 0 0
    (secretLimit / Z.of_nat XXH_SECRET_CONSUME_RATE) secretLimit seed secret.

Definition XXH3_64bits_reset (statePtr : option XXH3_state) : XXH_errorcode * option XXH3_state :=
  match statePtr with
  | None => (XXH_ERROR, None)
  | Some s => (XXH_OK, Some (XXH3_reset_internal s 0 (Some XXH3_kSecret) XXH_SECRET_DEFAULT_SIZE))
  end.

Definition XXH3_64bits_reset_withSecret (statePtr : option XXH3_state) (secret : option (list Z))
    (secretSize : nat) : XXH_errorcode * option XXH3_state :=
  match statePtr with
  | None => (XXH_ERROR, None)
  | Some s =>
    let s := XXH3_reset_internal s 0 secret secretSize in
    if decide (secret = None) then (XXH_ERROR, Some s)
    else if decide (secretSize < XXH3_SECRET_SIZE_MIN)%nat then (XXH_ERROR, Some s)
    else (XXH_OK, Some s)
  end.

Definition with_custom (s : XXH3_state) (secret : list Z) : XXH3_state :=
  State3 (acc s) secret (buffer s) (bufferedSize s) (useSeed s) (nbStripesSoFar s) (totalLen s)
    (nbStripesPerBlock s) (secretLimit s) (seed s) (extSecret s).

Definition XXH3_64bits_reset_withSeed (statePtr : option XXH3_state) (seed' : Z) : XXH_errorcode * option XXH3_state :=
  match statePtr with
  | None => (XXH_ERROR, None)
  | Some s =>
    if decide (seed' = 0) then XXH3_64bits_reset statePtr
    else
      let s := if bool_decide (seed' <> seed s) || bool_decide (extSecret s <> None)
               then with_custom s (initCustomSecret b seed') else s in
      (XXH_OK, Some (XXH3_reset_internal s seed' None XXH_SECRET_DEFAULT_SIZE))
  end.

Definition with_useSeed (s : XXH3_state) (useSeed : Z) : XXH3_state :=
  State3 (acc s) (customSecret s) (buffer s) (bufferedSize s) useSeed (nbStripesSoFar s) (totalLen s)
    (nbStripesPerBlock s) (secretLimit s) (seed s) (extSecret s).

Definition XXH3_64bits_reset_withSecretandSeed (statePtr : option XXH3_state) (secret : option (list Z))
    (secretSize : nat) (seed64 : Z) : XXH_errorcode * option XXH3_state :=
  match statePtr with
  | None => (XXH_ERROR, None)
  | Some s =>
    if decide (secret = None) then (XXH_ERROR, Some s)
    else if decide (secretSize < XXH3_SECRET_SIZE_MIN)%nat then (XXH_ERROR, Some s)
    else (XXH_OK, Some (with_useSeed (XXH3_reset_internal s seed64 secret secretSize) 1))
  end.

(** ** Consuming stripes *)

(** The [do ... while] over the blocks: the accumulators, the offset of
    [input] and the stripes left. *)
Fixpoint consume_blocks (fuel : nat) (acc : list Z) (off nbStripes nbStripesThisIter : nat)
    (initialSecret : list Z) (nbStripesPerBlock : nat) (input secret : list Z) (secretLimit : nat)
    (f_acc : XXH3_f_accumulate) (f_scramble : XXH3_f_scrambleAcc) : outcome (list Z * nat * nat) :=
  match fuel with
  | O => NoFuel
  | S fuel =>
    let acc := f_acc acc (input +: off) initialSecret nbStripesThisIter in
    let acc := f_scramble acc (secret +: secretLimit) in
    let off := (off + nbStripesThisIter * XXH_STRIPE_LEN)%nat in
    let nbStripes := (nbStripes - nbStripesThisIter)%nat in
    if decide (nbStripesPerBlock <= nbStripes)%nat then
      consume_blocks fuel acc off nbStripes nbStripesPerBlock secret nbStripesPerBlock input secret secretLimit
        f_acc f_scramble
    else Ret (acc, off, nbStripes)
  end.

(** The accumulators, [*nbStripesSoFarPtr] and the offset of the pointer returned. *)
Definition XXH3_consumeStripes (acc : list Z) (nbStripesSoFar nbStripesPerBlock : nat) (input : list Z)
    (nbStripes : nat) (secret : list Z) (secretLimit : nat)
    (f_acc : XXH3_f_accumulate) (f_scramble : XXH3_f_scrambleAcc) : outcome (list Z * nat * nat) :=
  let initialSecret := secret +: nbStripesSoFar * XXH_SECRET_CONSUME_RATE in
  '(acc, off, nbStripes, nbStripesSoFar, initialSecret) ←
    (if decide (nbStripesPerBlock - nbStripesSoFar <= nbStripes)%nat then
       '(acc, off, nbStripes) ← consume_blocks (S nbStripes) acc 0 nbStripes
         (nbStripesPerBlock - nbStripesSoFar) initialSecret nbStripesPerBlock input secret secretLimit f_acc f_scramble;
       Ret (acc, off, nbStripes, O, secret)
     else Ret (acc, O, nbStripes, nbStripesSoFar, initialSecret));
  if decide (0 < nbStripes)%nat then
    let acc := f_acc acc (input +: off) initialSecret nbStripes in
    Ret (acc, (nbStripesSoFar + nbStripes)%nat, (off + nbStripes * XXH_STRIPE_LEN)%nat)
  else Ret (acc, nbStripesSoFar, off).

(** ** The update *)

Definition secret_of (s : XXH3_state) : list Z :=
  match extSecret s with None => customSecret s | Some secret => secret end.

(** [input += ...] is the list of the bytes left up to [bEnd]. *)
Definition XXH3_update (s : XXH3_state) (input : option (list Z)) (f_acc : XXH3_f_accumulate)
    (f_scramble : XXH3_f_scrambleAcc) : outcome (XXH_errorcode * XXH3_state) :=
  match input with
  | None => Ret (XXH_OK, s)
  | Some input =>
    let len := length input in
    let secret := secret_of s in
    let total := u64 (totalLen s + Z.of_nat len) in
    let spb := Z.to_nat (nbStripesPerBlock s) in
    let limit := Z.to_nat (secretLimit s) in
    let result acc buffer bufferedSize soFar :=
      Ret (XXH_OK, State3 acc (customSecret s) buffer bufferedSize (useSeed s) soFar total
        (nbStripesPerBlock s) (secretLimit s) (seed s) (extSecret s)) in
    if decide (len <= XXH3_INTERNALBUFFER_SIZE - bufferedSize s)%nat then
      result (acc s) (memcpy_at (buffer s) (bufferedSize s) input) (bufferedSize s + len)%nat (nbStripesSoFar s)
    else
      '(acc, soFar, buffer, input) ←
        (if decide (bufferedSize s <> 0)%nat then
           let loadSize := (XXH3_INTERNALBUFFER_SIZE - bufferedSize s)%nat in
           let buffer := memcpy_at (buffer s) (bufferedSize s) (take loadSize input) in
           '(acc, soFar, _) ← XXH3_consumeStripes (acc s) (nbStripesSoFar s) spb buffer
             XXH3_INTERNALBUFFER_STRIPES secret limit f_acc f_scramble;
           Ret (acc, soFar, buffer, input +: loadSize)
         else Ret (acc s, nbStripesSoFar s, buffer s, input));
      '(acc, soFar, buffer, input) ←
        (if decide (XXH3_INTERNALBUFFER_SIZE < length input)%nat then
           let nbStripes := ((length input - 1) / XXH_STRIPE_LEN)%nat in
           '(acc, soFar, off) ← XXH3_consumeStripes acc soFar spb input nbStripes secret limit f_acc f_scramble;
           let buffer := memcpy_at buffer (XXH3_INTERNALBUFFER_SIZE - XXH_STRIPE_LEN)
             (take XXH_STRIPE_LEN (input +: (off - XXH_STRIPE_LEN))) in
           Ret (acc, soFar, buffer, input +: off)
         else Ret (acc, soFar, buffer, input));
      result acc (memcpy_at buffer 0 input) (length input) soFar
  end.

Definition XXH3_64bits_update (s : XXH3_state) (input : option (list Z)) : outcome (XXH_errorcode * XXH3_state) :=
  XXH3_update s input XXH3_accumulate XXH3_scrambleAcc.

(** ** The digests *)

Definition XXH3_digest_long (s : XXH3_state) (secret : list Z) : outcome (list Z) :=
  let limit := Z.to_nat (secretLimit s) in
  '(acc, lastStripePtr) ←
    (if decide (XXH_STRIPE_LEN <= bufferedSize s)%nat then
       let nbStripes := ((bufferedSize s - 1) / XXH_STRIPE_LEN)%nat in
       '(acc, _, _) ← XXH3_consumeStripes (acc s) (nbStripesSoFar s) (Z.to_nat (nbStripesPerBlock s)) (buffer s)
         nbStripes secret limit XXH3_accumulate XXH3_scrambleAcc;
       Ret (acc, buffer s +: (bufferedSize s - XXH_STRIPE_LEN))
     else
       let catchupSize := (XXH_STRIPE_LEN - bufferedSize s)%nat in
       let lastStripe := take catchupSize (buffer s +: (XXH3_INTERNALBUFFER_SIZE - catchupSize))
                         ++ take (bufferedSize s) (buffer s) in
       Ret (acc s, lastStripe));
  Ret (XXH3_accumulate_512 acc lastStripePtr (secret +: (limit - XXH_SECRET_LASTACC_START))).

Definition XXH3_64bits_digest (s : XXH3_state) : outcome Z :=
  let secret := secret_of s in
  if decide (Z.of_nat XXH3_MIDSIZE_MAX < totalLen s) then
    acc ← XXH3_digest_long s secret;
    Ret (XXH3_mergeAccs b acc (secret +: XXH_SECRET_MERGEACCS_START) (u64 (totalLen s * XXH_PRIME64_1)))
  else if decide (useSeed s <> 0) then
    XXH3_64bits_withSeed b (buffer s) (Z.to_nat (totalLen s)) (seed s)
  else
    XXH3_64bits_withSecret b (buffer s) (Z.to_nat (totalLen s)) secret (Z.to_nat (secretLimit s) + XXH_STRIPE_LEN).

Definition XXH3_128bits_reset := XXH3_64bits_reset.
Definition XXH3_128bits_reset_withSecret := XXH3_64bits_reset_withSecret.
Definition XXH3_128bits_reset_withSeed := XXH3_64bits_reset_withSeed.
Definition XXH3_128bits_reset_withSecretandSeed := XXH3_64bits_reset_withSecretandSeed.
Definition XXH3_128bits_update := XXH3_64bits_update.

Definition XXH3_128bits_digest (s : XXH3_state) : outcome XXH128_hash_t :=
  let secret := secret_of s in
  if decide (Z.of_nat XXH3_MIDSIZE_MAX < totalLen s) then
    acc ← XXH3_digest_long s secret;
    Ret (merge_128b b acc (totalLen s) secret (Z.to_nat (secretLimit s) + XXH_STRIPE_LEN))
  else if decide (seed s <> 0) then
    XXH3_128bits_withSeed b (buffer s) (Z.to_nat (totalLen s)) (seed s)
  else
    XXH3_128bits_withSecret b (buffer s) (Z.to_nat (totalLen s)) secret (Z.to_nat (secretLimit s) + XXH_STRIPE_LEN).

End WithVector.

(** ** Consuming stripes does them *)

Section Consume.
Variable b : build.
Context {V : Vector} {L : VectorLaws b V}.
Variables (secret : list Z) (secretSize : nat).
Hypothesis Bs : bytes secret.
Hypothesis Ls : (secretSize <= length secret)%nat.
Hypothesis Hz : (XXH3_SECRET_SIZE_MIN <= secretSize)%nat.

Abbreviation spb := (per_block secretSize).
Abbreviation run := (run_stripes b secret secretSize).
Abbreviation limit := (secretSize - XXH_STRIPE_LEN)%nat.

(** The loop ends at the last end of a block. *)
Lemma consume_blocks_run fuel k acc off n p :
  bytes p -> (off + 64 * n <= length p)%nat -> lanes acc -> (spb - k mod spb <= n)%nat -> (n <= fuel)%nat ->
  exists m, (m <= n)%nat /\ (n - m < spb)%nat /\ ((k + m) mod spb = 0)%nat /\
    consume_blocks fuel acc off n (spb - k mod spb) (secret +: (k mod spb) * XXH_SECRET_CONSUME_RATE) spb p
      secret limit XXH3_accumulate XXH3_scrambleAcc =
    Ret (run k m acc (p +: off), (off + 64 * m)%nat, (n - m)%nat).
Proof.
  intros Bp. destruct (stripe_secret secretSize 0 Hz) as [Hm _].
  revert k acc off n. induction fuel as [|fuel IH]; intros k acc off n Lp La Hn Hf.
  { pose proof (Nat.mod_upper_bound k spb). lia. }
  pose proof (Nat.mod_upper_bound k spb ltac:(lia)) as Hu. set (c := (spb - k mod spb)%nat) in *.
  assert (Ec : ((k + c) mod spb = 0)%nat) by (apply mod_end; lia).
  cbn [consume_blocks]. cbv zeta.
  assert (Er : run k c acc (p +: off) =
    XXH3_scrambleAcc (XXH3_accumulate acc (p +: off) (secret +: (k mod spb) * XXH_SECRET_CONSUME_RATE) c)
      (secret +: limit)).
  { rewrite (accumulate_run b secret secretSize Bs Ls Hz k c);
      [|auto with bytes|rewrite length_drop; lia|done|lia]. cbv zeta. by rewrite decide_True by lia. }
  rewrite <- Er. unfold XXH_STRIPE_LEN in *. case_decide as Hc.
  - destruct (IH (k + c)%nat (run k c acc (p +: off)) (off + c * 64)%nat (n - c)%nat) as (m & Hm1 & Hm2 & Hm3 & E);
      [lia|apply (run_lanes b secret secretSize Bs Ls Hz); [auto with bytes|rewrite length_drop; lia|done]|lia|lia|].
    exists (c + m)%nat. rewrite Nat.add_assoc. split_and!; [lia|lia|done|].
    rewrite Ec, Nat.sub_0_r, Nat.mul_0_l, drop_0 in E. rewrite E, run_add, drop_drop.
    unfold XXH_STRIPE_LEN. do 2 f_equal; [f_equal|]; lia.
  - exists c. split_and!; [lia|lia|done|]. do 2 f_equal. f_equal. lia.
Qed.

Lemma consumeStripes_run k acc p n :
  bytes p -> (64 * n <= length p)%nat -> lanes acc ->
  XXH3_consumeStripes acc (k mod spb) spb p n secret limit XXH3_accumulate XXH3_scrambleAcc =
  Ret (run k n acc p, ((k + n) mod spb)%nat, (64 * n)%nat).
Proof.
  intros Bp Lp La. destruct (stripe_secret secretSize 0 Hz) as [Hm _].
  pose proof (Nat.mod_upper_bound k spb ltac:(lia)) as Hu.
  unfold XXH3_consumeStripes. cbv zeta. case_decide as Hc.
  - destruct (consume_blocks_run (S n) k acc 0 n p Bp ltac:(lia) La Hc ltac:(lia)) as (m & H1 & H2 & H3 & E).
    rewrite E. cbn [mbind outcome_bind]. rewrite drop_0.
    assert (Lr : lanes (run k m acc p)) by (apply (run_lanes b secret secretSize Bs Ls Hz); [done|lia|done]).
    assert (En : n = (m + (n - m))%nat) by lia.
    assert (Er : run k n acc p = XXH3_accumulate (run k m acc p) (p +: 64 * m) secret (n - m)).
    { rewrite En, run_add. unfold XXH_STRIPE_LEN. replace (m * 64)%nat with (64 * m)%nat by lia.
      rewrite (accumulate_run b secret secretSize Bs Ls Hz (k + m) (n - m));
        [|auto with bytes|rewrite length_drop; lia|done|lia].
      cbv zeta. rewrite H3, Nat.mul_0_l, drop_0, decide_False by lia. f_equal. lia. }
    assert (Em : ((k + n) mod spb = n - m)%nat).
    { rewrite En, Nat.add_assoc, mod_inside by (rewrite H3; lia). lia. }
    rewrite Er, Em. unfold XXH_STRIPE_LEN. case_decide as H0; [do 2 f_equal; lia|].
    assert (n - m = 0)%nat as E0 by lia. rewrite E0. do 2 f_equal; [|lia]. f_equal.
    rewrite accumulate_stripes. done.
  - cbn [mbind outcome_bind]. rewrite (accumulate_run b secret secretSize Bs Ls Hz k n acc p Bp Lp La) by lia.
    cbv zeta. rewrite (decide_False (P := (k mod spb + n = spb)%nat)), mod_inside by lia. unfold XXH_STRIPE_LEN.
    case_decide; [do 2 f_equal; lia|]. assert (n = 0%nat) as -> by lia.
    rewrite accumulate_stripes, Nat.add_0_r. done.
Qed.

End Consume.

(** ** The buffer *)

Lemma memcpy_at_drop mem off bs :
  (off + length bs <= length mem)%nat -> drop (off + length bs) (memcpy_at mem off bs) = drop (off + length bs) mem.
Proof.
  intros H. unfold memcpy_at. rewrite app_assoc, drop_app_length'; [done|].
  rewrite length_app, length_take. lia.
Qed.

Lemma memcpy_at_bytes mem off bs : bytes mem -> bytes bs -> bytes (memcpy_at mem off bs).
Proof. intros Bm Bb. unfold memcpy_at, bytes in *. rewrite !Forall_app. auto using Forall_take, Forall_drop. Qed.

#[export] Hint Resolve memcpy_at_bytes : bytes.

(** After [q] stripes of [d] the last 64 bytes of the buffer, behind the
    [bs] waiting ones, are those before the stripe to come. *)
Definition tail_kept (d : list Z) (q bs : nat) (buffer : list Z) : Prop :=
  q <> O -> (bs < 64)%nat -> drop (192 + bs) buffer = take (64 - bs) (drop (64 * q - (64 - bs)) d).

Record waiting (d : list Z) (q bs : nat) (buffer : list Z) : Prop := {
  w_length : length d = (64 * q + bs)%nat;
  w_small : (bs <= 256)%nat;
  w_buffer : length buffer = 256%nat;
  w_bytes : bytes buffer;
  w_waiting : take bs buffer = drop (64 * q) d;
  w_tail : tail_kept d q bs buffer;
  w_long : q = O \/ (256 < length d)%nat;
  w_some : d = [] \/ (0 < bs)%nat
}.

Lemma waiting_small d q bs buffer input : waiting d q bs buffer -> bytes input -> (bs + length input <= 256)%nat ->
  waiting (d ++ input) q (bs + length input) (memcpy_at buffer bs input).
Proof.
  intros [Hl Hs Lb Bb Hw Ht Hq Hn] Bi Hf. split.
  - rewrite length_app. lia.
  - lia.
  - rewrite memcpy_at_length; lia.
  - auto with bytes.
  - rewrite memcpy_at_take by lia. rewrite drop_app_le by lia. by rewrite Hw.
  - intros H0 H64. replace (192 + (bs + length input))%nat with ((bs + length input) + 192)%nat by lia.
    rewrite <- drop_drop, memcpy_at_drop, drop_drop by lia.
    replace (bs + length input + 192)%nat with ((192 + bs) + length input)%nat by lia.
    rewrite <- drop_drop, Ht by lia. rewrite skipn_firstn_comm, drop_drop, drop_app_le by lia.
    rewrite take_app_le by (rewrite length_drop; lia). f_equal; [lia|]. f_equal. lia.
  - rewrite length_app. lia.
  - destruct Hn as [->|Hn]; [|lia]. destruct input; cbn; [by left|right; lia].
Qed.

(** Between the steps of the update: [q] stripes are consumed, the rest of
    the input is still to be read. *)
Record midway (d : list Z) (q : nat) (buffer : list Z) : Prop := {
  m_length : (64 * q < length d)%nat;
  m_buffer : length buffer = 256%nat;
  m_bytes : bytes buffer;
  m_tail : q <> O -> drop 192 buffer = take 64 (drop (64 * q - 64) d)
}.

Lemma midway_fill d q bs buffer input : waiting d q bs buffer -> bytes input -> bs <> O ->
  (256 < bs + length input)%nat ->
  let buffer' := memcpy_at buffer bs (take (256 - bs) input) in
  buffer' = take 256 (drop (64 * q) (d ++ input)) /\ midway (d ++ input) (q + 4) buffer' /\
  input +: (256 - bs) = drop (64 * (q + 4)) (d ++ input).
Proof.
  intros [Hl Hs Lb Bb Hw _ _ _] Bi H0 Hf buffer'.
  assert (Lt : length (take (256 - bs) input) = (256 - bs)%nat) by (rewrite length_take; lia).
  assert (L' : length buffer' = 256%nat) by (unfold buffer'; rewrite memcpy_at_length; lia).
  assert (E : buffer' = take 256 (drop (64 * q) (d ++ input))).
  { rewrite <- (take_ge buffer' 256) by lia. replace 256%nat with (bs + length (take (256 - bs) input))%nat at 1 by lia.
    unfold buffer'. rewrite memcpy_at_take by lia. rewrite drop_app_le, <- Hw, take_app by lia.
    rewrite length_take, Lb, Nat.min_l by lia. f_equal. rewrite take_take. f_equal. lia. }
  split_and!; [done| |].
  - split.
    + rewrite length_app. lia.
    + done.
    + unfold buffer'. auto with bytes.
    + intros _. rewrite E, skipn_firstn_comm, drop_drop. f_equal. f_equal. lia.
  - rewrite drop_app_ge by lia. f_equal. lia.
Qed.

Lemma midway_skip d q n buffer : midway d q buffer -> bytes d -> (0 < n)%nat -> (64 * (q + n) < length d)%nat ->
  midway d (q + n) (memcpy_at buffer 192 (take 64 (drop (64 * n - 64) (drop (64 * q) d)))).
Proof.
  intros [Hl Lb Bb _] Bd Hn Hf.
  assert (Lt : length (take 64 (drop (64 * n - 64) (drop (64 * q) d))) = 64%nat)
    by (rewrite length_take, !length_drop; lia).
  assert (Lm : length (memcpy_at buffer 192 (take 64 (drop (64 * n - 64) (drop (64 * q) d)))) = 256%nat)
    by (rewrite memcpy_at_length; lia).
  split; [done|done|auto with bytes|]. intros _.
  unfold memcpy_at. rewrite drop_app_length' by (rewrite length_take; lia).
  rewrite Lt, (drop_ge buffer), app_nil_r, drop_drop by lia. f_equal. f_equal. lia.
Qed.

Lemma midway_end d q buffer : midway d q buffer -> bytes d -> (256 < length d)%nat -> (length d - 64 * q <= 256)%nat ->
  waiting d q (length d - 64 * q) (memcpy_at buffer 0 (drop (64 * q) d)).
Proof.
  intros [Hl Lb Bb Ht] Bd Hd Hs.
  assert (Lr : length (drop (64 * q) d) = (length d - 64 * q)%nat) by (rewrite length_drop; lia).
  split; [lia|lia|rewrite memcpy_at_length; lia|auto with bytes| | |by right|right; lia].
  - replace (length d - 64 * q)%nat with (0 + length (drop (64 * q) d))%nat by lia.
    rewrite memcpy_at_take by lia. by rewrite take_0.
  - intros H0 H64. set (bs := (length d - 64 * q)%nat) in *.
    replace (192 + bs)%nat with ((0 + length (drop (64 * q) d)) + 192)%nat by lia.
    rewrite <- drop_drop, memcpy_at_drop, drop_drop by lia. rewrite Lr.
    replace (0 + bs + 192)%nat with (192 + bs)%nat by lia.
    rewrite <- drop_drop, Ht by done. rewrite skipn_firstn_comm, drop_drop. f_equal. f_equal. lia.
Qed.

(** ** What the state has absorbed *)

Section Absorb.
Variable b : build.
Context {V : Vector} {L : VectorLaws b V}.

(** What a reset sets up and an update keeps. *)
Definition same_setup (s s' : XXH3_state) : Prop :=
  customSecret s' = customSecret s /\ useSeed s' = useSeed s /\ nbStripesPerBlock s' = nbStripesPerBlock s /\
  secretLimit s' = secretLimit s /\ seed s' = seed s /\ extSecret s' = extSecret s.

(** The secret and its size, as the state keeps them. *)
Record uses (secret : list Z) (secretSize : nat) (s : XXH3_state) : Prop := {
  u_secret : secret_of s = secret;
  u_bytes : bytes secret;
  u_size : (XXH3_SECRET_SIZE_MIN <= secretSize <= length secret)%nat;
  u_limit : Z.to_nat (secretLimit s) = (secretSize - XXH_STRIPE_LEN)%nat;
  u_block : Z.to_nat (nbStripesPerBlock s) = per_block secretSize
}.

Lemma uses_same secret secretSize s s' : same_setup s s' -> uses secret secretSize s -> uses secret secretSize s'.
Proof.
  intros (E1 & E2 & E3 & E4 & E5 & E6) [H1 H2 H3 H4 H5].
  split; unfold secret_of in *; rewrite ?E1, ?E3, ?E4, ?E6; done.
Qed.

Section Secret.
Variables (secret : list Z) (secretSize : nat).

Abbreviation run := (run_stripes b secret secretSize).
Abbreviation spb := (per_block secretSize).

Definition absorbed (d : list Z) (s : XXH3_state) : Prop :=
  exists q, waiting d q (bufferedSize s) (buffer s) /\ acc s = run 0 q XXH3_INIT_ACC d /\
    nbStripesSoFar s = (q mod spb)%nat /\ totalLen s = Z.of_nat (length d).

Hypothesis Bs : bytes secret.
Hypothesis Hz : (XXH3_SECRET_SIZE_MIN <= secretSize <= length secret)%nat.

Lemma run_ext k n acc p q : lanes acc -> agree (64 * n) p q -> run k n acc p = run k n acc q.
Proof.
  intros La Hp. apply run_agree; [apply agree_refl; [done|apply Hz]|apply Hz|done|done].
Qed.

(** The stripes of [d] from the [q]-th on, wherever they lie. *)
Lemma consume_more d q n p : bytes d -> (64 * (q + n) <= length d)%nat -> agree (64 * n) p (drop (64 * q) d) ->
  XXH3_consumeStripes (run 0 q XXH3_INIT_ACC d) (q mod spb) spb p n secret (secretSize - XXH_STRIPE_LEN)
    XXH3_accumulate XXH3_scrambleAcc =
  Ret (run 0 (q + n) XXH3_INIT_ACC d, ((q + n) mod spb)%nat, (64 * n)%nat).
Proof.
  intros Bd Ld Hp. pose proof Hp as (Bp & _ & Lp & _).
  assert (La : lanes (run 0 q XXH3_INIT_ACC d))
    by (apply (run_lanes b secret secretSize Bs (proj2 Hz) (proj1 Hz)); [done|lia|apply lanes_init]).
  rewrite (consumeStripes_run b secret secretSize Bs (proj2 Hz) (proj1 Hz) q _ p n Bp Lp La).
  do 2 f_equal. f_equal. rewrite run_add, Nat.add_0_l. unfold XXH_STRIPE_LEN.
  replace (q * 64)%nat with (64 * q)%nat by lia. by apply run_ext.
Qed.

Lemma run_app q d input : bytes d -> bytes input -> (64 * q <= length d)%nat ->
  run 0 q XXH3_INIT_ACC (d ++ input) = run 0 q XXH3_INIT_ACC d.
Proof.
  intros Bd Bi Hq. apply run_ext; [apply lanes_init|].
  split_and!; [by apply Forall_app|done|rewrite length_app; lia|done|by rewrite take_app_le].
Qed.

Abbreviation limit := (secretSize - XXH_STRIPE_LEN)%nat.

(** The first part of the update: the buffer is filled up and consumed. *)
Lemma update_fill d q bs buffer input :
  waiting d q bs buffer -> bytes d -> bytes input -> (256 < bs + length input)%nat ->
  exists q' buffer',
    (if decide (bs <> 0)%nat then
       '(acc, soFar, _) ← XXH3_consumeStripes (run 0 q XXH3_INIT_ACC d) (q mod spb) spb
         (memcpy_at buffer bs (take (256 - bs) input)) XXH3_INTERNALBUFFER_STRIPES secret limit
         XXH3_accumulate XXH3_scrambleAcc;
       Ret (acc, soFar, memcpy_at buffer bs (take (256 - bs) input), input +: (256 - bs))
     else Ret (run 0 q XXH3_INIT_ACC d, (q mod spb)%nat, buffer, input)) =
    Ret (run 0 q' XXH3_INIT_ACC (d ++ input), (q' mod spb)%nat, buffer', drop (64 * q') (d ++ input)) /\
    midway (d ++ input) q' buffer'.
Proof.
  intros W Bd Bi Hf. pose proof (w_length _ _ _ _ W) as Ld. pose proof (w_small _ _ _ _ W) as Hs.
  assert (BD : bytes (d ++ input)) by (by apply Forall_app).
  case_decide as H0.
  - destruct (midway_fill d q bs buffer input W Bi H0 Hf) as (E & M & Er).
    set (buffer' := memcpy_at buffer bs (take (256 - bs) input)) in *.
    exists (q + 4)%nat, buffer'. split; [|done]. change XXH3_INTERNALBUFFER_STRIPES with 4%nat. rewrite <- (run_app q d input Bd Bi) by lia.
    rewrite (consume_more (d ++ input) q 4 buffer' BD);
      [cbn [mbind outcome_bind]; by rewrite Er|rewrite length_app; lia|].
    split_and!; [apply M|auto with bytes|rewrite (m_buffer _ _ _ M); lia|rewrite length_drop, length_app; lia|].
    change (64 * 4)%nat with 256%nat. rewrite E, take_take. f_equal.
  - assert (bs = O) as -> by lia. destruct (w_some _ _ _ _ W) as [->|?]; [|lia].
    assert (q = O) as -> by (cbn [length] in Ld; lia). exists O, buffer. split; [done|].
    split; [cbn [app]; lia|apply W|apply W|done].
Qed.

(** The second part: the stripes of the input itself. *)
Lemma update_skip d q buffer : bytes d -> midway d q buffer ->
  exists q' buffer',
    (if decide (256 < length (drop (64 * q) d))%nat then
       '(acc, soFar, off) ← XXH3_consumeStripes (run 0 q XXH3_INIT_ACC d) (q mod spb) spb (drop (64 * q) d)
         ((length (drop (64 * q) d) - 1) / XXH_STRIPE_LEN) secret limit XXH3_accumulate XXH3_scrambleAcc;
       Ret (acc, soFar, memcpy_at buffer (256 - XXH_STRIPE_LEN)
              (take XXH_STRIPE_LEN (drop (64 * q) d +: (off - XXH_STRIPE_LEN))), drop (64 * q) d +: off)
     else Ret (run 0 q XXH3_INIT_ACC d, (q mod spb)%nat, buffer, drop (64 * q) d)) =
    Ret (run 0 q' XXH3_INIT_ACC d, (q' mod spb)%nat, buffer', drop (64 * q') d) /\
    midway d q' buffer' /\ (length d - 64 * q' <= 256)%nat.
Proof.
  intros Bd M. pose proof (m_length _ _ _ M) as Ld. unfold XXH_STRIPE_LEN in *.
  assert (Lr : length (drop (64 * q) d) = (length d - 64 * q)%nat) by (rewrite length_drop; lia).
  case_decide as H0; [|exists q, buffer; split_and!; [done|done|lia]].
  set (n := ((length (drop (64 * q) d) - 1) / 64)%nat).
  pose proof (Nat.div_mod_eq (length (drop (64 * q) d) - 1) 64) as Hn. fold n in Hn.
  pose proof (Nat.mod_upper_bound (length (drop (64 * q) d) - 1) 64).
  exists (q + n)%nat, (memcpy_at buffer 192 (take 64 (drop (64 * n - 64) (drop (64 * q) d)))).
  rewrite consume_more; [|done|lia|apply agree_refl; [auto with bytes|lia]].
  cbn [mbind outcome_bind]. split_and!; [|apply midway_skip; [done|done|lia|lia]|lia].
  assert (E : d +: 64 * q +: 64 * n = d +: 64 * (q + n)) by (rewrite drop_drop; f_equal; lia). by rewrite E.
Qed.

Lemma update_absorbed d s input :
  uses secret secretSize s -> absorbed d s -> bytes d -> bytes input -> Z.of_nat (length (d ++ input)) < 2 ^ 64 ->
  exists s', XXH3_update s (Some input) XXH3_accumulate XXH3_scrambleAcc = Ret (XXH_OK, s') /\
    absorbed (d ++ input) s' /\ same_setup s s'.
Proof.
  intros [Es _ _ El Eb] (q & W & Ea & En & Et) Bd Bi Hl.
  assert (BD : bytes (d ++ input)) by (by apply Forall_app).
  assert (Etot : u64 (totalLen s + Z.of_nat (length input)) = Z.of_nat (length (d ++ input))).
  { rewrite Et. rewrite length_app in *. rewrite wrap_fits by (unfold fits; lia). lia. }
  unfold XXH3_update. cbv zeta. rewrite Etot, El, Eb, Ea, En, Es. pose proof (w_length _ _ _ _ W) as Ld.
  pose proof (w_small _ _ _ _ W) as Hs. unfold XXH3_INTERNALBUFFER_SIZE. case_decide as Hc.
  { eexists. split; [done|]. split; [|done]. exists q. cbn [bufferedSize buffer acc nbStripesSoFar totalLen].
    split_and!; [apply waiting_small; [done|done|lia]|by rewrite run_app by (done || lia)|done|done]. }
  destruct (update_fill d q (bufferedSize s) (buffer s) input W Bd Bi ltac:(lia)) as (q1 & buf1 & -> & M1).
  cbn [mbind outcome_bind]. destruct (update_skip (d ++ input) q1 buf1 BD M1) as (q2 & buf2 & -> & M2 & L2).
  cbn [mbind outcome_bind]. eexists. split; [done|]. split; [|done].
  exists q2. cbn [bufferedSize buffer acc nbStripesSoFar totalLen]. split_and!; [|done..].
  rewrite length_drop. apply midway_end; [done|done|rewrite length_app; lia|done].
Qed.

(** ** The digest of a long input *)

Lemma digest_long d s : uses secret secretSize s -> absorbed d s -> bytes d -> (240 < length d)%nat ->
  XXH3_digest_long s secret =
  Ret (last_stripe b secret secretSize (run 0 ((length d - 1) / 64) XXH3_INIT_ACC d) (d +: (length d - 64))).
Proof.
  intros [Es _ _ El Eb] (q & [Hl Hs Lb Bb Hw Ht Hq Hn] & Ea & En & _) Bd Hd.
  unfold XXH3_digest_long. cbv zeta. rewrite El, Eb, Ea, En.
  assert (Hn' : (0 < bufferedSize s)%nat) by (destruct Hn as [->|]; [cbn in Hd; lia|done]).
  pose proof (Nat.div_mod_eq (bufferedSize s - 1) 64). pose proof (Nat.mod_upper_bound (bufferedSize s - 1) 64).
  assert (Eq : ((length d - 1) / 64 = q + (bufferedSize s - 1) / 64)%nat).
  { symmetry. apply Nat.div_unique with ((bufferedSize s - 1) mod 64)%nat; lia. }
  assert (Last : forall p, bytes p -> (64 <= length p)%nat -> take 64 p = take 64 (d +: (length d - 64)) ->
    XXH3_accumulate_512 (run 0 ((length d - 1) / 64) XXH3_INIT_ACC d) p (secret +: (limit - XXH_SECRET_LASTACC_START)) =
    last_stripe b secret secretSize (run 0 ((length d - 1) / 64) XXH3_INIT_ACC d) (d +: (length d - 64))).
  { intros p Bp Lp E. assert (La : lanes (run 0 ((length d - 1) / 64) XXH3_INIT_ACC d)).
    { apply (run_lanes b secret secretSize Bs (proj2 Hz) (proj1 Hz)); [done|lia|apply lanes_init]. }
    rewrite accumulate_512_scalar; [|done|done|auto with bytes|done|].
    - apply (last_stripe_agree b b secret secret secretSize); [apply agree_refl; [done|apply Hz]|apply Hz| |done].
      split_and!; [done|auto with bytes|done|rewrite length_drop; lia|done].
    - rewrite length_drop. unfold XXH_STRIPE_LEN, XXH_SECRET_LASTACC_START, XXH3_SECRET_SIZE_MIN in *. lia. }
  change (decide (XXH_STRIPE_LEN <= _)%nat) with (decide (64 <= bufferedSize s)%nat). case_decide as Hc.
  - assert (Ew : take 64 (buffer s +: (bufferedSize s - 64)) = d +: (length d - 64)).
    { apply (f_equal (drop (bufferedSize s - 64))) in Hw. rewrite skipn_firstn_comm, drop_drop in Hw.
      replace (bufferedSize s - (bufferedSize s - 64))%nat with 64%nat in Hw by lia. rewrite Hw. f_equal. lia. }
    change ((bufferedSize s - 1) / XXH_STRIPE_LEN)%nat with ((bufferedSize s - 1) / 64)%nat.
    change (bufferedSize s - XXH_STRIPE_LEN)%nat with (bufferedSize s - 64)%nat.
    rewrite (consume_more d q _ (buffer s) Bd); cbn [mbind outcome_bind].
    + rewrite <- Eq, Last; [done|auto with bytes|rewrite length_drop; lia|].
      rewrite <- Ew, take_take. f_equal.
    + lia.
    + split_and!; [done|auto with bytes|lia|rewrite length_drop; lia|].
      rewrite <- Hw, take_take. f_equal. lia.
  - assert (Hz0 : ((bufferedSize s - 1) / 64 = 0)%nat) by (apply Nat.div_small; lia).
    rewrite Hz0, Nat.add_0_r in Eq. cbn [mbind outcome_bind]. rewrite <- Eq.
    assert (Ep : take (XXH_STRIPE_LEN - bufferedSize s)
        (buffer s +: (XXH3_INTERNALBUFFER_SIZE - (XXH_STRIPE_LEN - bufferedSize s))) ++ take (bufferedSize s) (buffer s)
        = d +: (length d - 64)).
    { unfold XXH_STRIPE_LEN, XXH3_INTERNALBUFFER_SIZE.
      replace (256 - (64 - bufferedSize s))%nat with (192 + bufferedSize s)%nat by lia.
      rewrite (Ht ltac:(lia) ltac:(lia)), Hw, take_take, Nat.min_id.
      replace (64 * q - (64 - bufferedSize s))%nat with (length d - 64)%nat by lia.
      replace (64 * q)%nat with ((length d - 64) + (64 - bufferedSize s))%nat by lia.
      rewrite <- drop_drop. apply take_drop. }
    rewrite Ep, Last; [done|auto with bytes|rewrite length_drop; lia|done].
Qed.

End Secret.
End Absorb.

(** ** Resets, chunks and digests *)

(** A state that may be reset: its buffer, and, when it was last reset with a
    seed, the secret of that seed, which a reset with the same seed keeps. *)
Definition state_ok (s : XXH3_state) : Prop :=
  length (buffer s) = 256%nat /\ bytes (buffer s) /\
  (seed s <> 0 -> extSecret s = None -> customSecret s = XXH3_initCustomSecret_scalar default_build (seed s)).

Definition reset (b : build) {V : Vector} (k : keying) (statePtr : option XXH3_state) :
    XXH_errorcode * option XXH3_state :=
  match k with
  | Plain => XXH3_64bits_reset statePtr
  | Seeded x => XXH3_64bits_reset_withSeed b statePtr x
  | Keyed secret n => XXH3_64bits_reset_withSecret statePtr (Some secret) n
  | KeyedSeeded secret n x => XXH3_64bits_reset_withSecretandSeed statePtr (Some secret) n x
  end.

(** Updates with some chunks, NULL among them; the codes and the state. *)
Fixpoint feed {V : Vector} (s : XXH3_state) (chunks : list (option (list Z))) :
    outcome (list XXH_errorcode * XXH3_state) :=
  match chunks with
  | [] => Ret ([], s)
  | c :: chunks =>
    '(e, s) ← XXH3_64bits_update s c;
    '(es, s) ← feed s chunks;
    Ret (e :: es, s)
  end.

Definition contents (chunks : list (option (list Z))) : list Z := concat (default [] <$> chunks).

(** The key a short input is hashed with by the digest of 64 bits, and by
    that of 128 bits, which tests the seed. *)
Definition digest_key64 (secretSize : nat) (s : XXH3_state) : keying :=
  if decide (useSeed s <> 0) then Seeded (seed s) else Keyed (secret_of s) secretSize.

Definition digest_key128 (secretSize : nat) (s : XXH3_state) : keying :=
  if decide (seed s <> 0) then Seeded (seed s) else Keyed (secret_of s) secretSize.

(** With a secret and the seed 0, the digest of 128 bits of a short input
    uses the secret, and not, as the one-shot function, the default one. *)
Definition effective128 (k : keying) (len : nat) : keying :=
  match k with
  | KeyedSeeded secret n x => if decide (x = 0 /\ (len <= XXH3_MIDSIZE_MAX)%nat) then Keyed secret n else k
  | _ => k
  end.

(** The fields a reset writes for the secret. *)
Lemma size_fields n : (XXH3_SECRET_SIZE_MIN <= n)%nat -> Z.of_nat n < 2 ^ 64 ->
  Z.to_nat (u64 (Z.of_nat n - Z.of_nat XXH_STRIPE_LEN)) = (n - XXH_STRIPE_LEN)%nat /\
  Z.to_nat (u64 (Z.of_nat n - Z.of_nat XXH_STRIPE_LEN) / Z.of_nat XXH_SECRET_CONSUME_RATE) = per_block n.
Proof.
  unfold XXH3_SECRET_SIZE_MIN, XXH_STRIPE_LEN, per_block, XXH_SECRET_CONSUME_RATE. intros Hn Hb.
  rewrite wrap_fits by (unfold fits; lia). change XXH_STRIPE_LEN with 64%nat. split; [lia|].
  replace (Z.of_nat n - Z.of_nat 64) with (Z.of_nat (n - 64)) by lia.
  by rewrite <- Nat2Z.inj_div, Nat2Z.id.
Qed.

Lemma reset_uses s x extra n secret :
  secret_agree secret n secret n -> Z.of_nat n < 2 ^ 64 -> secret_of (XXH3_reset_internal s x extra n) = secret ->
  uses secret n (XXH3_reset_internal s x extra n).
Proof.
  intros (_ & Hz & B & _ & Hl & _) Hn E. destruct (size_fields n Hz Hn) as [E1 E2]. by split.
Qed.

(** A reset leaves an empty state for the key. *)
Record ready (k : keying) (buf : list Z) (s : XXH3_state) : Prop := {
  r_uses : uses (long_key k).1 (long_key k).2 s;
  r_empty : bufferedSize s = O /\ acc s = XXH3_INIT_ACC /\ nbStripesSoFar s = O /\ totalLen s = 0;
  r_buffer : buffer s = buf;
  r_seed : seed s <> 0 -> extSecret s = None -> customSecret s = XXH3_initCustomSecret_scalar default_build (seed s);
  r_key64 : short_key (digest_key64 (long_key k).2 s) = short_key k /\ key_ok (digest_key64 (long_key k).2 s);
  r_key128 : short_key (digest_key128 (long_key k).2 s) = short_key (effective128 k 0) /\
             key_ok (digest_key128 (long_key k).2 s)
}.

Lemma reset_plain k s x : (k = Plain \/ k = Seeded 0) -> x = 0 ->
  ready k (buffer s) (XXH3_reset_internal s x (Some XXH3_kSecret) XXH_SECRET_DEFAULT_SIZE).
Proof.
  intros Hk ->. assert (El : long_key k = (XXH3_kSecret, XXH_SECRET_DEFAULT_SIZE)).
  { destruct Hk as [-> | ->]; [done|]. cbn [long_key]. by rewrite initCustomSecret_0. }
  assert (A : secret_agree XXH3_kSecret XXH_SECRET_DEFAULT_SIZE XXH3_kSecret XXH_SECRET_DEFAULT_SIZE)
    by (split_and!; [done|apply default_size|apply kSecret_agree]).
  split; rewrite ?El; cbn [fst snd]; [by apply reset_uses|done|done|done| |];
    (destruct Hk as [-> | ->]; split; [done|exact A|done|exact A]).
Qed.

Lemma reset_ready b {V : Vector} {L : VectorLaws b V} k s :
  state_ok s -> key_ok k -> Z.of_nat (long_key k).2 < 2 ^ 64 ->
  exists s0, reset b k (Some s) = (XXH_OK, Some s0) /\ ready k (buffer s) s0.
Proof.
  intros (_ & _ & Hseed) Hk Hn. pose proof (long_key_agree k k Hk) as A.
  destruct k as [|x|secret n|secret n x]; cbn [reset].
  - eexists. split; [done|]. apply reset_plain; [by left|done].
  - destruct Hk as [_ Hx]. unfold XXH3_64bits_reset_withSeed. case_decide as E.
    + subst x. eexists. split; [done|]. apply reset_plain; [by right|done].
    + eexists. split; [done|]. cbv zeta.
      assert (Ec : forall s', s' = (if bool_decide (x <> seed s) || bool_decide (extSecret s <> None)
          then with_custom s (initCustomSecret b x) else s) ->
        customSecret s' = XXH3_initCustomSecret_scalar default_build x /\ buffer s' = buffer s).
      { intros s' ->. destruct (_ || _) eqn:Eb.
        - cbn [customSecret with_custom buffer]. split; [|done].
          by rewrite (initCustomSecret_vector b), (initCustomSecret_same b default_build).
        - apply orb_false_elim in Eb as [E1%bool_decide_eq_false E2%bool_decide_eq_false].
          apply dec_stable in E1. apply dec_stable in E2. subst x. split; [by apply Hseed|done]. }
      destruct (Ec _ eq_refl) as [Ecs Ebf]. clear Ec. set (s' := if _ || _ then _ else _) in *.
      split; [by apply reset_uses|done|done|done| |]; unfold digest_key64, digest_key128; cbn [useSeed seed XXH3_reset_internal].
      * rewrite (bool_decide_true (x <> 0)) by done. done.
      * rewrite decide_True by done. done.
  - eexists. unfold XXH3_64bits_reset_withSecret. rewrite decide_False by done.
    destruct Hk as (_ & Hz & Ha). rewrite decide_False by lia. split; [done|].
    split; [by apply reset_uses|done|done|done|split; [done|by split_and!]|split; [done|by split_and!]].
  - eexists. unfold XXH3_64bits_reset_withSecretandSeed. rewrite decide_False by done.
    destruct Hk as ((_ & Hz & Ha) & _ & Hx). rewrite decide_False by lia. split; [done|].
    pose proof (reset_uses s x (Some secret) n secret A Hn eq_refl) as [U1 U2 U3 U4 U5].
    split; [by split|done|done|done|done|].
    unfold digest_key128, effective128. cbn [seed with_useSeed XXH3_reset_internal long_key snd].
    repeat case_decide; try (exfalso; tauto || lia); (split; [done|]); [done|by split_and!].
Qed.

Lemma same_setup_trans s1 s2 s3 : same_setup s1 s2 -> same_setup s2 s3 -> same_setup s1 s3.
Proof. unfold same_setup. intuition congruence. Qed.

Lemma contents_cons c chunks : contents (c :: chunks) = default [] c ++ contents chunks.
Proof. done. Qed.

Lemma feed_absorbed b {V : Vector} {L : VectorLaws b V} secret n chunks d s :
  uses secret n s -> absorbed b secret n d s -> bytes d -> bytes (contents chunks) ->
  Z.of_nat (length (d ++ contents chunks)) < 2 ^ 64 ->
  exists s', feed s chunks = Ret (replicate (length chunks) XXH_OK, s') /\
    absorbed b secret n (d ++ contents chunks) s' /\ same_setup s s'.
Proof.
  revert d s. induction chunks as [|c chunks IH]; intros d s U A Bd Bc Hl.
  { exists s. rewrite app_nil_r. done. }
  rewrite contents_cons in *. apply Forall_app in Bc as [Bc Bcs]. rewrite app_assoc in *.
  assert (Hc : exists s1, XXH3_64bits_update s c = Ret (XXH_OK, s1) /\
    absorbed b secret n (d ++ default [] c) s1 /\ same_setup s s1).
  { destruct c as [input|]; cbn [default from_option id] in *.
    - apply (update_absorbed b secret n); [apply U|apply U|done|done|done|done|]. rewrite length_app in Hl. lia.
    - exists s. rewrite app_nil_r. done. }
  destruct Hc as (s1 & E1 & A1 & S1).
  destruct (IH (d ++ default [] c) s1) as (s' & E & A' & S');
    [by apply (uses_same _ _ s)|done|by apply Forall_app|done|done|].
  exists s'. cbn [feed length replicate]. rewrite E1. cbn [mbind outcome_bind]. rewrite E. cbn [mbind outcome_bind].
  split_and!; [done|done|by eapply same_setup_trans].
Qed.

(** The hash of a short input needs the short key only. *)
Lemma hash64_short k1 k2 d len : short_key k1 = short_key k2 -> (len <= XXH3_MIDSIZE_MAX)%nat ->
  hash64 k1 d len = hash64 k2 d len.
Proof. intros E Hl. unfold hash64. rewrite E. destruct (short_key k2). by repeat case_decide. Qed.

Lemma hash128_short k1 k2 d len : short_key k1 = short_key k2 -> (len <= XXH3_MIDSIZE_MAX)%nat ->
  hash128 k1 d len = hash128 k2 d len.
Proof. intros E Hl. unfold hash128. rewrite E. destruct (short_key k2). by repeat case_decide. Qed.

Lemma effective_long k len : (XXH3_MIDSIZE_MAX < len)%nat -> effective128 k len = k.
Proof. intros Hl. destruct k; cbn; [done..|]. case_decide; [lia|done]. Qed.

Lemma effective_short k len : (len <= XXH3_MIDSIZE_MAX)%nat -> effective128 k len = effective128 k 0.
Proof. intros Hl. destruct k; cbn; [done..|]. unfold XXH3_MIDSIZE_MAX in *. repeat case_decide; try done; lia. Qed.

Lemma effective_ok k len : key_ok k -> key_ok (effective128 k len).
Proof. destruct k; cbn; try done. case_decide; [|done]. by intros [Ha _]. Qed.

Section Digest.
Variable b : build.
Context {V : Vector} {L : VectorLaws b V}.
Variables (k : keying) (buf : list Z) (s0 s : XXH3_state) (d : list Z).
Hypothesis Hk : key_ok k.
Hypothesis R : ready k buf s0.
Hypothesis A : absorbed b (long_key k).1 (long_key k).2 d s.
Hypothesis HS : same_setup s0 s.
Hypothesis Bd : bytes d.

Lemma uses_now : uses (long_key k).1 (long_key k).2 s.
Proof. eapply uses_same; [exact HS|apply R]. Qed.

Lemma same_keys size : digest_key64 size s = digest_key64 size s0 /\ digest_key128 size s = digest_key128 size s0.
Proof.
  destruct HS as (E1 & E2 & _ & _ & E5 & E6). unfold digest_key64, digest_key128, secret_of. by rewrite E1, E2, E5, E6.
Qed.

Lemma agree_self : agree (length d) d d.
Proof. by apply agree_refl. Qed.

(** A short input lies whole in the buffer. *)
Lemma short_buffer : (length d <= XXH3_MIDSIZE_MAX)%nat -> agree (length d) (buffer s) d.
Proof.
  unfold XXH3_MIDSIZE_MAX. intros Hd. destruct A as (q & [Hl Hs Lb Bb Hw _ Hq _] & _).
  assert (q = O) as -> by lia. rewrite Nat.mul_0_r, Nat.add_0_l in Hl. rewrite Nat.mul_0_r, drop_0 in Hw.
  split_and!; [done|done|lia|done|]. by rewrite Hl, Hw, take_ge by lia.
Qed.

Lemma digest_accumulated : (XXH3_MIDSIZE_MAX < length d)%nat ->
  XXH3_digest_long s (secret_of s) = Ret (accumulated k d (length d)) /\ lanes (accumulated k d (length d)).
Proof.
  unfold XXH3_MIDSIZE_MAX. intros Hd. destruct (long_key_agree k k Hk) as (_ & Hz & Hs). destruct uses_now as [U1 U2 U3 U4 U5].
  rewrite U1. rewrite (digest_long b (long_key k).1 (long_key k).2 U2 U3 d s); [|by split|done|done|done].
  pose proof (hashLong_loop_run b (long_key k).1 (long_key k).2 U2 (proj2 U3) Hz XXH3_INIT_ACC d (length d)
    Bd (le_n _) ltac:(lia) lanes_init) as E. change XXH_STRIPE_LEN with 64%nat in E. rewrite <- E.
  destruct (loop_accumulated b k k d d (length d) Hk agree_self Hd) as [-> La]. done.
Qed.

Lemma digest64_run : XXH3_64bits_digest b s = Ret (hash64 k d (length d)).
Proof.
  pose proof uses_now as [U1 U2 U3 U4 U5]. destruct A as (_ & _ & _ & _ & Et). unfold XXH3_64bits_digest. cbv zeta.
  rewrite Et, Nat2Z.id. destruct (decide (XXH3_MIDSIZE_MAX < length d)%nat) as [Hd|Hd].
  - rewrite decide_True by lia. destruct (digest_accumulated Hd) as [-> La]. cbn [mbind outcome_bind]. rewrite U1.
    unfold hash64. destruct (short_key k). unfold XXH3_MIDSIZE_MAX in *. rewrite !decide_False by lia. f_equal.
    apply mergeAccs_agree; [done|]. apply (agree_at 64 _ (long_key k).2); [|apply agree_refl; [done|apply U3]].
    unfold XXH3_SECRET_SIZE_MIN, XXH_SECRET_MERGEACCS_START in *. lia.
  - rewrite decide_False by lia. destruct (same_keys (long_key k).2) as [Ek _].
    destruct (r_key64 _ _ _ R) as [Es Ho]. rewrite <- Ek in Es, Ho.
    rewrite <- (hash64_short _ _ d (length d) Es) by lia. rewrite U4. unfold digest_key64 in *.
    replace ((long_key k).2 - XXH_STRIPE_LEN + XXH_STRIPE_LEN)%nat with (long_key k).2
      by (unfold XXH3_SECRET_SIZE_MIN, XXH_STRIPE_LEN in *; lia).
    case_decide; [apply (one_shot64_hash b (Seeded (seed s)) (Seeded (seed s)) (buffer s) d)
      |apply (one_shot64_hash b (Keyed (secret_of s) (long_key k).2) (Keyed (secret_of s) (long_key k).2) (buffer s) d)];
      done || (apply short_buffer; lia).
Qed.

Lemma digest128_run : XXH3_128bits_digest b s = Ret (hash128 (effective128 k (length d)) d (length d)).
Proof.
  pose proof uses_now as [U1 U2 U3 U4 U5]. destruct A as (_ & _ & _ & _ & Et). unfold XXH3_128bits_digest. cbv zeta.
  assert (Ez : ((long_key k).2 - XXH_STRIPE_LEN + XXH_STRIPE_LEN)%nat = (long_key k).2)
    by (unfold XXH3_SECRET_SIZE_MIN, XXH_STRIPE_LEN in *; lia).
  rewrite Et, Nat2Z.id, U4, Ez. destruct (decide (XXH3_MIDSIZE_MAX < length d)%nat) as [Hd|Hd].
  - rewrite decide_True by lia. destruct (digest_accumulated Hd) as [-> La]. cbn [mbind outcome_bind]. rewrite U1.
    rewrite effective_long by done.
    unfold hash128. destruct (short_key k). unfold XXH3_MIDSIZE_MAX in *. rewrite !decide_False by lia. f_equal.
    apply merge_128b_agree; [done|apply agree_refl; [done|apply U3]|apply U3].
  - rewrite decide_False by lia. destruct (same_keys (long_key k).2) as [_ Ek].
    destruct (r_key128 _ _ _ R) as [Es Ho]. rewrite <- Ek in Es, Ho. rewrite effective_short by lia.
    rewrite <- (hash128_short _ _ d (length d) Es) by lia. unfold digest_key128 in *.
    case_decide; [apply (one_shot128_hash b (Seeded (seed s)) (Seeded (seed s)) (buffer s) d)
      |apply (one_shot128_hash b (Keyed (secret_of s) (long_key k).2) (Keyed (secret_of s) (long_key k).2) (buffer s) d)];
      done || (apply short_buffer; lia).
Qed.

Lemma digest_state_ok : state_ok s.
Proof.
  destruct A as (q & W & _), HS as (E1 & _ & _ & _ & E5 & E6). split_and!; [apply W|apply W|].
  rewrite E1, E5, E6. apply R.
Qed.

End Digest.

(** ** Properties *)

(** C13: XXH3 streaming is the one-shot hash: a state reset in any of the four
    ways, whatever it was used for before, and fed with any chunks (NULL,
    empty, inside the buffer, over several blocks) takes every update and can be used further, for every build and
    vector implementation, below 2^64 bytes.  Its digest of 64 bits is the one-shot hash of their concatenation under
    the keying of the reset; its digest of 128 bits is the one-shot hash under [effective128] of that keying, which is
    the same keying but in one case: after a reset with a secret and the seed 0, an input of at most 240 bytes is hashed with
    the secret only, which is not what XXH3_128bits_withSecretandSeed gives (digest128_differs). *)
Theorem xxh3_streaming (b : build) (V : Vector) (s : XXH3_state) (k : keying) (chunks : list (option (list Z)))
    (d := contents chunks) :
  VectorLaws b V -> state_ok s -> key_ok k -> Z.of_nat (long_key k).2 < 2 ^ 64 ->
  bytes d -> Z.of_nat (length d) < 2 ^ 64 ->
  exists s0 s', reset b k (Some s) = (XXH_OK, Some s0) /\
    feed s0 chunks = Ret (replicate (length chunks) XXH_OK, s') /\
    XXH3_64bits_digest b s' = one_shot64 b k d (length d) /\
    XXH3_128bits_digest b s' = one_shot128 b (effective128 k (length d)) d (length d) /\
    state_ok s'.
Proof.
  intros L Hs Hk Hn Bd Hd. destruct (reset_ready b k s Hs Hk Hn) as (s0 & E0 & R). pose proof Hs as (Lb & Bb & _).
  assert (A0 : absorbed b (long_key k).1 (long_key k).2 [] s0).
  { destruct (r_empty _ _ _ R) as (E1 & E2 & E3 & E4). exists O. rewrite E1, E2, E3, E4, (r_buffer _ _ _ R).
    split_and!; [split; [done|lia|done|done|by rewrite take_0|intros ?; done|by left|by left]|done| |done]. by rewrite Nat.Div0.mod_0_l. }
  destruct (feed_absorbed b (long_key k).1 (long_key k).2 chunks [] s0 (r_uses _ _ _ R) A0)
    as (s' & E & A & S); [by constructor|done|done|].
  cbn [app] in A. fold d in A. assert (Ad : agree (length d) d d) by (by apply agree_refl).
  exists s0, s'. split_and!; [done|done| | |by eapply digest_state_ok].
  - rewrite (digest64_run b k (buffer s) s0 s' d Hk R A S Bd). symmetry. by apply (one_shot64_hash b k k d d).
  - rewrite (digest128_run b k (buffer s) s0 s' d Hk R A S Bd). symmetry.
    apply (one_shot128_hash b (effective128 k (length d)) _ d d); [by apply effective_ok|done].
Qed.

(** Memory of a new state: a buffer of any bytes. *)
Definition fresh_state : XXH3_state :=
  XXH3_INITSTATE (State3 [] [] (replicate 256 0xAA) 3 1 0 17 0 0 99 (Some [])).

Definition demo_chunks : list (option (list Z)) :=
  [Some (take 100 sanity_buffer); None; Some (drop 100 sanity_buffer)].

Lemma xxh3_streaming_witness :
  exists s0 s', reset default_build (V := scalar default_build) (Seeded 5) (Some fresh_state) = (XXH_OK, Some s0) /\
    feed (V := scalar default_build) s0 demo_chunks = Ret (replicate 3 XXH_OK, s') /\
    XXH3_64bits_digest default_build (V := scalar default_build) s' =
      one_shot64 default_build (V := scalar default_build) (Seeded 5) (contents demo_chunks) (length (contents demo_chunks)) /\
    XXH3_128bits_digest default_build (V := scalar default_build) s' =
      one_shot128 default_build (V := scalar default_build) (Seeded 5) (contents demo_chunks) (length (contents demo_chunks)) /\
    state_ok s'.
Proof.
  apply (xxh3_streaming default_build (scalar default_build) fresh_state (Seeded 5) demo_chunks
    (scalar_laws default_build)).
  - split_and!; [reflexivity|apply (bool_decide_unpack _); vm_compute; exact I|intros H; by destruct H].
  - split; [reflexivity|]. apply (bool_decide_unpack _). vm_compute. exact I.
  - reflexivity.
  - apply (bool_decide_unpack _). vm_compute. exact I.
  - vm_compute. reflexivity.
Defined.

(** The exception is real: with the secret [XXH3_kSecret] backwards and the
    seed 0, the two functions give different hashes of three bytes. *)
Example digest128_differs :
  let secret := reverse XXH3_kSecret in
  effective128 (KeyedSeeded secret 192 0) 3 = Keyed secret 192 /\
  one_shot128 default_build (V := scalar default_build) (Keyed secret 192) [1; 2; 3] 3 <>
  one_shot128 default_build (V := scalar default_build) (KeyedSeeded secret 192 0) [1; 2; 3] 3.
Proof. split; [reflexivity|]. vm_compute. discriminate. Qed.
