(* ===== verification/Xxh3Secret.v ===== *)
(** * XXH128 in memory, and the generation of secrets (src/src/xxhash.h)

    Comparing 128-bit hashes, their canonical form, XXH3_generateSecret and
    XXH3_generateSecret_fromSeed, over the builds and vector
    implementations of Xxh3.v.  A write past a buffer is undefined. *)

From Stdlib Require Import ZArith Lia.
From stdpp Require Import prelude gmap.
From S2P Require Import Prelude Xxhash Xxh3.

Section WithVector.
Variable b : build.
Context {V : Vector}.

Abbreviation XXH_readLE64 := (XXH_readLE64 (base b)).
Abbreviation XXH_CPU_LITTLE_ENDIAN := (LITTLE_ENDIAN (base b)).

(** ** Comparing and storing a 128-bit hash *)

(** [memcmp] of the two structures in memory. *)
Definition XXH128_isEqual (h1 h2 : XXH128_hash_t) : Z :=
  let memory h := store64 (base b) (low64 h) ++ store64 (base b) (high64 h) in
  if decide (memory h1 = memory h2) then 1 else 0.

Definition XXH128_cmp (h1 h2 : XXH128_hash_t) : Z :=
  let gt x y := Z.b2z (bool_decide (x > y)) in
  let hcmp := gt (high64 h1) (high64 h2) - gt (high64 h2) (high64 h1) in
  if decide (hcmp <> 0) then hcmp
  else gt (low64 h1) (low64 h2) - gt (low64 h2) (low64 h1).

Definition XXH128_canonicalFromHash (hash : XXH128_hash_t) : list Z :=
  let hash := if XXH_CPU_LITTLE_ENDIAN
              then H128 (XXH_swap64 (low64 hash)) (XXH_swap64 (high64 hash)) else hash in
  store64 (base b) (high64 hash) ++ store64 (base b) (low64 hash).

Definition XXH128_hashFromCanonical (src : list Z) : XXH128_hash_t :=
  H128 (XXH_readBE64 (base b) (src +: 8)) (XXH_readBE64 (base b) src).

(** ** The generation of secrets *)

Definition XXH3_combine16 (dst : list Z) (off : nat) (h128 : XXH128_hash_t) : outcome (list Z) :=
  dst ← of_option (poke dst off
    (XXH_writeLE64 b (Z.lxor (XXH_readLE64 (dst +: off)) (low64 h128))));
  of_option (poke dst (off + 8)
    (XXH_writeLE64 b (Z.lxor (XXH_readLE64 (dst +: (off + 8))) (high64 h128)))).

(** [while (pos < secretSize)] *)
Fixpoint fill_secret (fuel : nat) (secretBuffer : list Z) (pos secretSize : nat)
    (customSeed : list Z) (customSeedSize : nat) : outcome (list Z) :=
  match fuel with
  | O => NoFuel
  | S fuel =>
    if decide (pos < secretSize)%nat then
      let toCopy := Nat.min (secretSize - pos) customSeedSize in
      bs ← of_option (peek customSeed 0 toCopy);
      secretBuffer ← of_option (poke secretBuffer pos bs);
      fill_secret fuel secretBuffer (pos + toCopy) secretSize customSeed customSeedSize
    else Ret secretBuffer
  end.

(** [for (n=0; n<nbSeg16; n++)]: [k] rounds from [n]. *)
Fixpoint combine_segments (k n : nat) (secretBuffer scrambler : list Z) : outcome (list Z) :=
  match k with
  | O => Ret secretBuffer
  | S k =>
    h128 ← XXH128 b scrambler 16 (Z.of_nat n);
    secretBuffer ← XXH3_combine16 secretBuffer (n * 16) h128;
    combine_segments k (S n) secretBuffer scrambler
  end.

(** Without XXH_DEBUGLEVEL. *)
Definition XXH3_generateSecret (secretBuffer : option (list Z)) (secretSize : nat)
    (customSeed : option (list Z)) (customSeedSize : nat) : outcome (XXH_errorcode * option (list Z)) :=
  match secretBuffer with
  | None => Ret (XXH_ERROR, None)
  | Some buffer =>
    if decide (secretSize < XXH3_SECRET_SIZE_MIN)%nat then Ret (XXH_ERROR, secretBuffer) else
    let '(customSeed, customSeedSize) :=
      if decide (customSeedSize = 0)%nat then (Some XXH3_kSecret, XXH_SECRET_DEFAULT_SIZE)
      else (customSeed, customSeedSize) in
    match customSeed with
    | None => Ret (XXH_ERROR, secretBuffer)
    | Some customSeed =>
      buffer ← fill_secret (S secretSize) buffer 0 secretSize customSeed customSeedSize;
      h ← XXH128 b customSeed customSeedSize 0;
      let scrambler := XXH128_canonicalFromHash h in
      buffer ← combine_segments (secretSize / 16) 0 buffer scrambler;
      buffer ← XXH3_combine16 buffer (secretSize - 16) (XXH128_hashFromCanonical scrambler);
      Ret (XXH_OK, Some buffer)
    end
  end.

Definition XXH3_generateSecret_fromSeed (secretBuffer : list Z) (seed : Z) : outcome (list Z) :=
  let secret := initCustomSecret b seed in
  of_option (poke secretBuffer 0 secret).

End WithVector.

(** ** The canonical form *)

Lemma canonical64 c h : fits 64 h ->
  store64 c (if LITTLE_ENDIAN c then XXH_swap64 h else h) = reverse (le_bytes 8 h) /\
  forall rest, XXH_readBE64 c (reverse (le_bytes 8 h) ++ rest) = h.
Proof.
  intros H. split.
  - unfold store64. destruct (LITTLE_ENDIAN c); [|done]. rewrite swap64_value by done.
    apply (le_bytes_value (reverse (le_bytes 8 h))). apply Forall_reverse, le_bytes_bytes.
  - intros rest. assert (Lr : length (reverse (le_bytes 8 h)) = 8%nat) by (by rewrite length_reverse, le_bytes_length).
    unfold XXH_readBE64, XXH_read64. rewrite le_value_app, take_app_length' by (done || lia).
    destruct (LITTLE_ENDIAN c).
    + rewrite swap64_reverse; [by apply (le_value_bytes 8)|apply le_bytes_bytes|apply le_bytes_length].
    + rewrite reverse_involutive. by apply (le_value_bytes 8).
Qed.

Definition is_hash (h : XXH128_hash_t) : Prop := fits 64 (low64 h) /\ fits 64 (high64 h).

(** The canonical form: the sixteen bytes of the hash, the highest first. *)
Definition canonical (h : XXH128_hash_t) : list Z := reverse (le_bytes 8 (high64 h)) ++ reverse (le_bytes 8 (low64 h)).

Lemma canonicalFromHash_eq b h : is_hash h -> XXH128_canonicalFromHash b h = canonical h.
Proof.
  intros [Hl Hh]. unfold XXH128_canonicalFromHash, canonical.
  destruct (canonical64 (base b) _ Hl) as [<- _], (canonical64 (base b) _ Hh) as [<- _].
  by destruct (LITTLE_ENDIAN (base b)).
Qed.

Lemma hashFromCanonical_eq b h : is_hash h -> XXH128_hashFromCanonical b (canonical h) = h.
Proof.
  intros [Hl Hh]. unfold XXH128_hashFromCanonical, canonical.
  rewrite drop_app_length' by (by rewrite length_reverse, le_bytes_length).
  rewrite (proj2 (canonical64 (base b) _ Hh)). rewrite <- (app_nil_r (reverse (le_bytes 8 (low64 h)))).
  rewrite (proj2 (canonical64 (base b) _ Hl)). by destruct h.
Qed.

Lemma canonical_block h : bytes (canonical h) /\ length (canonical h) = 16%nat.
Proof.
  unfold canonical. split.
  - apply Forall_app. split; apply Forall_reverse, le_bytes_bytes.
  - by rewrite length_app, !length_reverse, !le_bytes_length.
Qed.

(** ** Words combined with memory *)

Lemma le_bytes_lxor n x y : le_bytes n (Z.lxor x y) = zip_with Z.lxor (le_bytes n x) (le_bytes n y).
Proof.
  revert x y. induction n as [|n IH]; intros x y; [done|]. cbn [le_bytes zip_with].
  rewrite Z.shiftr_lxor, IH. f_equal. apply Z.bits_inj'. intros k Hk.
  rewrite Z.land_spec, !Z.lxor_spec, !Z.land_spec. by destruct (Z.testbit x k), (Z.testbit y k), (Z.testbit 255 k).
Qed.

(** [bs] exclusive-ored into the memory at [off]. *)
Definition xor_at (mem : list Z) (off : nat) (bs : list Z) : list Z :=
  take off mem ++ zip_with Z.lxor (drop off mem) bs ++ drop (off + length bs) mem.

Definition hash_bytes (h : XXH128_hash_t) : list Z := le_bytes 8 (low64 h) ++ le_bytes 8 (high64 h).

Lemma xor_word b p x : bytes p -> (8 <= length p)%nat -> fits 64 x ->
  XXH_writeLE64 b (Z.lxor (Xxhash.XXH_readLE64 (base b) p) x) = zip_with Z.lxor (take 8 p) (le_bytes 8 x).
Proof.
  intros Bp Lp Hx. rewrite XXH_readLE64_value by done.
  assert (Hv : fits 64 (le_value 8 p)) by (by apply (le_value_fits 8)).
  rewrite writeLE64_bytes by auto with fits. rewrite le_bytes_lxor. f_equal.
  rewrite <- le_value_take by done. assert (E : length (take 8 p) = 8%nat) by (rewrite length_take; lia).
  rewrite <- E at 1 2. apply le_bytes_value. auto with bytes.
Qed.

Lemma xor_at_length mem off bs : (off + length bs <= length mem)%nat -> length (xor_at mem off bs) = length mem.
Proof. intros H. unfold xor_at. rewrite !length_app, length_zip_with, length_take, !length_drop. lia. Qed.

(** Memory around two words. *)
Lemma split_words (mem : list Z) off : (off + 16 <= length mem)%nat ->
  exists a w1 w2 c, mem = a ++ w1 ++ w2 ++ c /\ length a = off /\ length w1 = 8%nat /\ length w2 = 8%nat.
Proof.
  intros H. exists (take off mem), (take 8 (drop off mem)), (take 8 (drop (off + 8) mem)), (drop (off + 16) mem).
  rewrite !length_take, !length_drop. split_and!; [|lia..].
  replace (off + 16)%nat with (off + 8 + 8)%nat by lia. by rewrite <- !drop_drop, !take_drop.
Qed.

Lemma xor_at_words a w1 w2 c off h : length a = off -> length w1 = 8%nat -> length w2 = 8%nat ->
  xor_at (a ++ w1 ++ w2 ++ c) off (hash_bytes h) =
  a ++ zip_with Z.lxor w1 (le_bytes 8 (low64 h)) ++ zip_with Z.lxor w2 (le_bytes 8 (high64 h)) ++ c.
Proof.
  intros <- L1 L2. unfold xor_at, hash_bytes. rewrite take_app_length, drop_app_length.
  rewrite length_app, !le_bytes_length. f_equal.
  rewrite (app_assoc (zip_with Z.lxor w1 _) (zip_with Z.lxor w2 _) c). f_equal.
  - rewrite !zip_with_app by (by rewrite le_bytes_length).
    rewrite <- (app_nil_r (le_bytes 8 (high64 h))) at 1.
    rewrite zip_with_app by (by rewrite le_bytes_length). rewrite zip_with_nil_r, app_nil_r. done.
  - rewrite !app_assoc. apply drop_app_length'. rewrite !length_app. lia.
Qed.

Lemma combine16_run b mem off h : bytes mem -> (off + 16 <= length mem)%nat -> is_hash h ->
  XXH3_combine16 b mem off h = Ret (xor_at mem off (hash_bytes h)).
Proof.
  intros Bm Lm [Hl Hh]. destruct (split_words mem off Lm) as (a & w1 & w2 & c & -> & La & L1 & L2).
  rewrite xor_at_words by done. apply Forall_app in Bm as [_ B1].
  pose proof B1 as B2. apply Forall_app in B2 as [_ B2].
  unfold XXH3_combine16. rewrite drop_app_length' by done.
  rewrite (xor_word b (w1 ++ w2 ++ c)) by (done || (rewrite !length_app; lia)).
  rewrite take_app_length' by done. set (x1 := zip_with Z.lxor w1 _).
  assert (Lx : length x1 = 8%nat) by (unfold x1; rewrite length_zip_with, le_bytes_length; lia).
  rewrite (poke_at a w1 x1 (w2 ++ c)) by (done || lia). cbn [of_option mbind outcome_bind].
  replace (a ++ x1 ++ w2 ++ c) with ((a ++ x1) ++ w2 ++ c) by (by rewrite <- app_assoc).
  rewrite drop_app_length' by (rewrite length_app; lia).
  rewrite (xor_word b (w2 ++ c)) by (done || (rewrite !length_app; lia)).
  rewrite take_app_length' by done.
  rewrite (poke_at (a ++ x1) w2 _ c) by (rewrite ?length_app, ?length_zip_with, ?le_bytes_length; lia).
  cbn [of_option]. by rewrite <- app_assoc.
Qed.

(** ** Filling the buffer *)

(** The first [n] bytes of the seed repeated. *)
Definition repeated (seed : list Z) (n : nat) : list Z := (fun i => seed !!! (i mod length seed)%nat) <$> seq 0 n.

Lemma repeated_more seed n m : (n mod length seed = 0)%nat -> (m <= length seed)%nat -> seed <> [] ->
  repeated seed (n + m) = repeated seed n ++ take m seed.
Proof.
  intros Hn Hm H0. unfold repeated. rewrite seq_app, fmap_app. f_equal.
  assert (Ls : (0 < length seed)%nat) by (destruct seed; [done|cbn; lia]).
  apply list_eq. intros i. rewrite list_lookup_fmap, Nat.add_0_l. destruct (decide (i < m)%nat) as [Hi|Hi].
  - rewrite lookup_seq_lt, lookup_take_lt by done. cbn [fmap option_fmap option_map].
    rewrite Nat.Div0.add_mod, Hn, Nat.add_0_l, Nat.Div0.mod_mod, Nat.mod_small by lia.
    symmetry. apply list_lookup_lookup_total_lt. lia.
  - rewrite lookup_seq_ge, lookup_take_ge by lia. done.
Qed.

Lemma fill_secret_run fuel buf pos n seed : seed <> [] -> (n <= length buf)%nat ->
  (n <= pos + (fuel - 1) * length seed)%nat -> (0 < fuel)%nat ->
  (pos <= n)%nat -> (pos = n \/ pos mod length seed = 0)%nat -> take pos buf = repeated seed pos ->
  fill_secret fuel buf pos n seed (length seed) = Ret (repeated seed n ++ drop n buf).
Proof.
  intros H0. assert (Ls : (0 < length seed)%nat) by (destruct seed; [done|cbn; lia]).
  revert buf pos. induction fuel as [|fuel IH]; intros buf pos Hn Hf H1 Hp Hd Ht; [lia|].
  cbn [fill_secret]. case_decide as Hc; [|assert (pos = n) as -> by lia; by rewrite <- Ht, take_drop].
  destruct Hd as [?|Hd]; [lia|]. set (m := Nat.min (n - pos) (length seed)).
  unfold peek. rewrite decide_True by lia. rewrite drop_0. cbn [of_option mbind outcome_bind].
  assert (Lm : length (take m seed) = m) by (rewrite length_take; lia).
  unfold poke. rewrite decide_True by lia. rewrite Lm. cbn [of_option mbind outcome_bind].
  rewrite IH.
  - f_equal. f_equal. replace n with ((pos + m) + (n - (pos + m)))%nat at 1 by lia.
    rewrite <- drop_drop, app_assoc, drop_app_length' by (rewrite length_app, length_take; lia).
    rewrite drop_drop. f_equal. lia.
  - rewrite !length_app, length_take, Lm, length_drop. lia.
  - destruct fuel as [|fuel]; [lia|]. unfold m. nia.
  - nia.
  - lia.
  - destruct (decide (length seed <= n - pos)%nat); [right|left; lia].
    assert (m = length seed) as -> by lia. rewrite <- Nat.Div0.add_mod_idemp_r, Nat.Div0.mod_same, Nat.add_0_r. done.
  - rewrite app_assoc, take_app_length' by (rewrite length_app, length_take; lia).
    rewrite repeated_more by (done || lia). by rewrite Ht.
Qed.

(** ** The secret generated from bytes *)

(** The seed repeated, each segment of sixteen bytes combined with the hash of
    the scrambler under the number of the segment, the last sixteen bytes
    with the scrambler. *)
Definition scrambled (h : XXH128_hash_t) (i : nat) (secret : list Z) : list Z :=
  xor_at secret (i * 16) (hash_bytes (hash128 (Seeded (Z.of_nat i)) (canonical h) 16)).

Definition generated (seed : list Z) (n : nat) : list Z :=
  let h := hash128 (Seeded 0) seed (length seed) in
  xor_at (for_up (n / 16) 0 (scrambled h) (repeated seed n)) (n - 16) (hash_bytes h).

Lemma hash_bytes_length h : length (hash_bytes h) = 16%nat.
Proof. unfold hash_bytes. by rewrite length_app, !le_bytes_length. Qed.

Lemma zip_with_prefix (f : Z -> Z -> Z) l r k : (length k <= length l)%nat ->
  zip_with f (l ++ r) k = zip_with f l k.
Proof.
  revert l. induction k as [|x k IH]; intros l H; [by rewrite !zip_with_nil_r|].
  destruct l as [|y l]; cbn [length] in H; [lia|]. cbn [zip_with app]. by rewrite IH by lia.
Qed.

Lemma xor_at_app mem rest off bs : (off + length bs <= length mem)%nat ->
  xor_at (mem ++ rest) off bs = xor_at mem off bs ++ rest.
Proof.
  intros H. unfold xor_at. rewrite take_app_le, !drop_app_le by lia. rewrite <- !app_assoc. f_equal. f_equal.
  apply zip_with_prefix. rewrite length_drop. lia.
Qed.

Lemma xor_at_bytes mem off bs : bytes mem -> bytes bs -> bytes (xor_at mem off bs).
Proof.
  intros Bm Bb. unfold xor_at, bytes in *. rewrite !Forall_app. split_and!; [by apply Forall_take| |by apply Forall_drop].
  apply Forall_lookup. intros i x. rewrite lookup_zip_with. intros Hx.
  destruct (drop off mem !! i) as [u|] eqn:E1; [|done]. destruct (bs !! i) as [v|] eqn:E2; [|done].
  cbn in Hx. injection Hx as <-. rewrite lookup_drop in E1. rewrite Forall_lookup in Bm, Bb.
  apply byte_lxor; [by eapply Bm|by eapply Bb].
Qed.

Lemma hash_bytes_bytes h : bytes (hash_bytes h).
Proof. apply Forall_app. split; apply le_bytes_bytes. Qed.

#[export] Hint Resolve xor_at_bytes hash_bytes_bytes : bytes.

(** Memory of a length stays that long under the segments. *)
Lemma scrambled_for h k first s n : length s = n -> bytes s -> (16 * (first + k) <= n)%nat ->
  length (for_up k first (scrambled h) s) = n /\ bytes (for_up k first (scrambled h) s).
Proof.
  intros Ls Bs Hn. apply (for_up_ind (fun _ s => length s = n /\ bytes s)); [done|].
  intros i x Hi [Lx Bx]. unfold scrambled. rewrite xor_at_length by (rewrite hash_bytes_length; lia).
  split; [done|auto with bytes].
Qed.

Lemma seg_key n : Z.of_nat n < 2 ^ 64 -> key_ok (Seeded (Z.of_nat n)).
Proof. intros H. split; [done|]. unfold fits. lia. Qed.

Lemma combine_segments_run b {V : Vector} {L : VectorLaws b V} k n buf h : is_hash h -> bytes buf ->
  (16 * (n + k) <= length buf)%nat -> Z.of_nat (n + k) < 2 ^ 64 ->
  combine_segments b k n buf (canonical h) = Ret (for_up k n (scrambled h) buf).
Proof.
  intros Hh. revert n buf. induction k as [|k IH]; intros n buf Bb Lb Hn; [done|]. cbn [combine_segments for_up].
  destruct (canonical_block h) as [Bc Lc]. assert (Hk : key_ok (Seeded (Z.of_nat n))) by (apply seg_key; lia).
  assert (A : agree 16 (canonical h) (canonical h)) by (apply agree_refl; [done|lia]).
  unfold XXH128. change (XXH3_128bits_withSeed b ?p ?l ?x) with (one_shot128 b (Seeded x) p l).
  rewrite (one_shot128_hash b (Seeded (Z.of_nat n)) (Seeded (Z.of_nat n)) _ _ 16 Hk A). cbn [mbind outcome_bind].
  rewrite combine16_run by (done || lia || apply hash128_fits). cbn [mbind outcome_bind].
  apply IH; [unfold scrambled; auto with bytes|unfold scrambled; rewrite xor_at_length; rewrite ?hash_bytes_length; lia|lia].
Qed.

Lemma scrambled_app h k first s rest : (16 * (first + k) <= length s)%nat ->
  for_up k first (scrambled h) (s ++ rest) = for_up k first (scrambled h) s ++ rest.
Proof.
  revert first s. induction k as [|k IH]; intros first s Hs; [done|]. cbn [for_up]. unfold scrambled at 2 4.
  rewrite xor_at_app by (rewrite hash_bytes_length; lia).
  apply IH. rewrite xor_at_length; rewrite ?hash_bytes_length; lia.
Qed.

Lemma repeated_facts seed n : bytes seed -> seed <> [] -> length (repeated seed n) = n /\ bytes (repeated seed n).
Proof.
  intros Bs H0. unfold repeated. rewrite length_fmap, length_seq. split; [done|].
  apply Forall_fmap, Forall_forall. intros i _. cbn. unfold bytes in Bs. rewrite Forall_lookup in Bs.
  apply (Bs (i mod length seed)%nat). apply list_lookup_lookup_total_lt.
  apply Nat.mod_upper_bound. by destruct seed.
Qed.

Lemma generate_run b {V : Vector} {L : VectorLaws b V} buf n seed : bytes buf -> bytes seed -> seed <> [] ->
  (XXH3_SECRET_SIZE_MIN <= n <= length buf)%nat -> Z.of_nat n < 2 ^ 64 ->
  XXH3_generateSecret b (Some buf) n (Some seed) (length seed) =
    Ret (XXH_OK, Some (generated seed n ++ drop n buf)) /\
  length (generated seed n) = n /\ bytes (generated seed n).
Proof.
  unfold XXH3_SECRET_SIZE_MIN. intros Bb Bs H0 Hn Hz. destruct (repeated_facts seed n Bs H0) as [Lr Br].
  assert (Ls : (0 < length seed)%nat) by (destruct seed; [done|cbn; lia]).
  pose proof (Nat.div_mod_eq n 16). assert (Bd : bytes (drop n buf)) by auto with bytes. set (h := hash128 (Seeded 0) seed (length seed)).
  assert (Hh : is_hash h) by apply hash128_fits.
  destruct (scrambled_for h (n / 16) 0 (repeated seed n) n Lr Br ltac:(lia)) as [Lf Bf].
  split.
  - unfold XXH3_generateSecret. rewrite decide_False by (unfold XXH3_SECRET_SIZE_MIN; lia).
    rewrite decide_False by lia. cbv beta iota.
    rewrite fill_secret_run by (try done; try (by right; apply Nat.Div0.mod_0_l); nia). cbn [mbind outcome_bind].
    assert (A : agree (length seed) seed seed) by (by apply agree_refl).
    unfold XXH128 at 1. change (XXH3_128bits_withSeed b ?p ?l ?x) with (one_shot128 b (Seeded x) p l).
    rewrite (one_shot128_hash b (Seeded 0) (Seeded 0) _ _ _ (conj eq_refl (fits_wrap 64 0 ltac:(lia))) A).
    cbn [mbind outcome_bind]. cbv zeta. fold h. rewrite canonicalFromHash_eq, hashFromCanonical_eq by done.
    rewrite (combine_segments_run b); [|done|by apply Forall_app|rewrite length_app; lia|lia].
    cbn [mbind outcome_bind]. rewrite scrambled_app by lia.
    rewrite combine16_run; [|by apply Forall_app|rewrite length_app; lia|done].
    cbn [mbind outcome_bind]. by rewrite xor_at_app by (rewrite hash_bytes_length; lia).
  - unfold generated. fold h. rewrite xor_at_length by (rewrite hash_bytes_length; lia). split; [done|auto with bytes].
Qed.

(** ** Properties *)

(** The canonical form of a 128-bit hash is its sixteen bytes, the highest
    first, on every build, and reads back on any other; two hashes have the
    same memory when they are equal, and compare as the 128-bit numbers. *)
Theorem xxh128_canonical (b1 b2 : build) (h h' : XXH128_hash_t) (value := fun h => high64 h * 2 ^ 64 + low64 h) :
  is_hash h -> is_hash h' ->
  XXH128_canonicalFromHash b1 h = canonical h /\ XXH128_hashFromCanonical b2 (canonical h) = h /\
  (XXH128_isEqual b1 h h' = 1 <-> h = h') /\ XXH128_cmp h h' = Z.sgn (value h - value h').
Proof.
  intros Hh Hh'. split; [by apply canonicalFromHash_eq|]. split; [by apply hashFromCanonical_eq|]. split.
  - unfold XXH128_isEqual, store64. case_decide as E; [|split; [done|by intros ->]]. split; [|done]. intros _.
    assert (F : forall x, fits 64 x -> le_value 8 (le_bytes 8 x) = x) by (intros x Hx; by apply (le_value_bytes 8)).
    destruct Hh as [Hl Hu], Hh' as [Hl' Hu'], h as [l u], h' as [l' u']. cbn [low64 high64] in *.
    assert (E2 : le_bytes 8 l = le_bytes 8 l' /\ le_bytes 8 u = le_bytes 8 u').
    { destruct (LITTLE_ENDIAN (base b1)); apply app_inj_1 in E as [E1 E2];
        rewrite ?length_reverse, ?le_bytes_length; try done. by apply (inj reverse) in E1, E2. }
    destruct E2 as [E2 E3]. by rewrite <- (F l), <- (F u), E2, E3, !F.
  - unfold XXH128_cmp, value. destruct Hh as [Hl Hu], Hh' as [Hl' Hu'], h as [l u], h' as [l' u'].
    cbn [low64 high64] in *. unfold fits in *. cbv zeta.
    repeat case_bool_decide; cbn [Z.b2z]; try lia; case_decide; try lia; symmetry;
      (apply Z.sgn_pos || apply Z.sgn_neg || (replace (_ - _) with 0 by lia; done)); lia.
Qed.

Lemma same_hash seed d len :
  hash64 (KeyedSeeded (XXH3_initCustomSecret_scalar default_build seed) XXH_SECRET_DEFAULT_SIZE seed) d len =
    hash64 (Seeded seed) d len /\
  hash128 (KeyedSeeded (XXH3_initCustomSecret_scalar default_build seed) XXH_SECRET_DEFAULT_SIZE seed) d len =
    hash128 (Seeded seed) d len.
Proof. unfold hash64, hash128, accumulated. cbn [short_key long_key fst snd]. by split. Qed.

(** XXH3_generateSecret refuses a NULL buffer, a size below
    XXH3_SECRET_SIZE_MIN and a NULL seed of some size, and leaves the buffer alone; otherwise
    it ends and writes [secretSize] bytes and no more: the seed (or the
    default secret for an empty one) repeated and combined with the
    hashes of its scrambler, the same on every build, whatever the buffer held;
    a secret the hash functions take.  The secret that
    XXH3_generateSecret_fromSeed writes makes withSecretandSeed the hash
    of withSeed, on every input and in both widths. *)
Theorem xxh3_generateSecret_spec (b : build) (V : Vector) (buf seed : list Z) (n : nat) (x : Z)
    (source := if decide (seed = []) then XXH3_kSecret else seed) :
  VectorLaws b V -> bytes buf -> bytes seed -> (XXH3_SECRET_SIZE_MIN <= n <= length buf)%nat ->
  Z.of_nat n < 2 ^ 64 -> (XXH_SECRET_DEFAULT_SIZE <= length buf)%nat -> fits 64 x ->
  (exists secret, XXH3_generateSecret b (Some buf) n (Some seed) (length seed) = Ret (XXH_OK, Some secret) /\
    secret = generated source n ++ drop n buf /\ length (generated source n) = n /\ key_ok (Keyed secret n)) /\
  (forall m cs size, XXH3_generateSecret b None m cs size = Ret (XXH_ERROR, None)) /\
  (forall m cs size, (m < XXH3_SECRET_SIZE_MIN)%nat ->
    XXH3_generateSecret b (Some buf) m cs size = Ret (XXH_ERROR, Some buf)) /\
  (forall size, size <> O -> XXH3_generateSecret b (Some buf) n None size = Ret (XXH_ERROR, Some buf)) /\
  (exists secret, XXH3_generateSecret_fromSeed b buf x = Ret secret /\ length secret = length buf /\
    forall p len, bytes p -> (len <= length p)%nat ->
    one_shot64 b (KeyedSeeded secret XXH_SECRET_DEFAULT_SIZE x) p len = one_shot64 b (Seeded x) p len /\
    one_shot128 b (KeyedSeeded secret XXH_SECRET_DEFAULT_SIZE x) p len = one_shot128 b (Seeded x) p len).
Proof.
  intros L Bb Bs Hn Hz Hd Hx. assert (Bd : forall i, bytes (drop i buf)) by auto with bytes.
  split_and!.
  - assert (S : bytes source /\ source <> []).
    { unfold source. case_decide; [split; [apply kSecret_bytes|done]|done]. }
    destruct S as [Bsrc H0]. destruct (generate_run b buf n source Bb Bsrc H0 Hn Hz) as (E & Lg & Bg).
    exists (generated source n ++ drop n buf). split; [|split; [reflexivity|split; [exact Lg|]]].
    + rewrite <- E. unfold source. destruct (decide (seed = [])) as [-> |]; [|done].
      unfold XXH3_generateSecret. rewrite (decide_True (P := length [] = 0%nat)) by done.
      by rewrite (decide_False (P := length XXH3_kSecret = 0%nat)) by done.
    + split; [reflexivity|]. split; [apply Hn|]. apply agree_refl; [apply Forall_app; split; [exact Bg|apply Bd]|].
      rewrite length_app, Lg. lia.
  - done.
  - intros m cs size Hm. unfold XXH3_generateSecret. by rewrite decide_True.
  - intros size H0. unfold XXH3_generateSecret. rewrite decide_False by lia. by rewrite decide_False.
  - destruct (initCustomSecret_length default_build x) as [Bi Li]. unfold XXH3_generateSecret_fromSeed. cbv zeta.
    rewrite (initCustomSecret_vector b), (initCustomSecret_same b default_build) by done.
    set (init := XXH3_initCustomSecret_scalar default_build x) in *. unfold poke. rewrite Nat.add_0_l, Li.
    rewrite decide_True by done. rewrite take_0. cbn [of_option app].
    eexists. split; [done|].
    split; [rewrite length_app, Li, length_drop; lia|]. intros p len Bp Lp.
    assert (A : agree len p p) by (by apply agree_refl).
    assert (K : key_agree (KeyedSeeded (init ++ drop XXH_SECRET_DEFAULT_SIZE buf) XXH_SECRET_DEFAULT_SIZE x)
                          (KeyedSeeded init XXH_SECRET_DEFAULT_SIZE x)).
    { split; [|by split]. split; [done|]. split; [apply default_size|].
      split_and!; [apply Forall_app; split; [exact Bi|apply Bd]|done|rewrite length_app; lia|lia|by rewrite take_app_le by lia]. }
    assert (Ks : key_ok (Seeded x)) by done.
    rewrite (one_shot64_hash b _ _ p p len K A), (one_shot64_hash b _ _ p p len Ks A).
    rewrite (one_shot128_hash b _ _ p p len K A), (one_shot128_hash b _ _ p p len Ks A).
    destruct (same_hash x p len) as [E1 E2]. unfold init. by rewrite E1, E2.
Qed.

Lemma xxh3_generateSecret_spec_witness :
  exists secret, XXH3_generateSecret_fromSeed small_build (V := scalar small_build) (replicate 200 7) 42 = Ret secret /\
    length secret = 200%nat /\
    forall p len, bytes p -> (len <= length p)%nat ->
    one_shot64 small_build (V := scalar small_build) (KeyedSeeded secret XXH_SECRET_DEFAULT_SIZE 42) p len =
      one_shot64 small_build (V := scalar small_build) (Seeded 42) p len /\
    one_shot128 small_build (V := scalar small_build) (KeyedSeeded secret XXH_SECRET_DEFAULT_SIZE 42) p len =
      one_shot128 small_build (V := scalar small_build) (Seeded 42) p len.
Proof.
  refine (proj2 (proj2 (proj2 (proj2 (xxh3_generateSecret_spec small_build (scalar small_build) (replicate 200 7)
    [1; 2; 3] 150 42 (scalar_laws small_build) _ _ _ _ _ _))))).
  - apply (bool_decide_unpack _). vm_compute. exact I.
  - apply (bool_decide_unpack _). vm_compute. exact I.
  - apply (bool_decide_unpack _). vm_compute. exact I.
  - reflexivity.
  - apply (bool_decide_unpack _). vm_compute. exact I.
  - apply (bool_decide_unpack _). vm_compute. exact I.
Defined.
