(* ===== verification/Xxh3Vec.v ===== *)
(** * XXH3: the SSE2, AVX2 and AVX512 implementations (src/src/xxhash.h)

    The vectors of the intrinsics are an argument: the class [Simd k] has
    the operations the code uses on vectors of [k] words of 64 bits ([k] = 2 for
    _mm_, 4 for _mm256_ and 8 for _mm512_), and [SimdLaws] what their manual
    says of them, word by word.  The three implementations are instances of the
    interface of Xxh3.v.  These processors store words least significant
    byte first. *)

From Stdlib Require Import ZArith Lia.
From stdpp Require Import prelude gmap.
From S2P Require Import Prelude Xxhash Xxh3.

(** ** The intrinsics *)

Class Simd (k : nat) := {
  vec : Type;
  loadu : list Z -> vec;
  store : vec -> list Z;
  xor_si : vec -> vec -> vec;
  add_epi64 : vec -> vec -> vec;
  mul_epu32 : vec -> vec -> vec;
  srli_epi64 : vec -> Z -> vec;
  slli_epi64 : vec -> Z -> vec;
  shuffle_epi32 : vec -> Z -> vec;
  set1_epi32 : Z -> vec;
  set_epi64x : list Z -> vec;
  set1_epi64 : Z -> vec;
  set1_epi8 : Z -> vec;
  mask_sub_epi64 : vec -> Z -> vec -> vec -> vec;
  ternarylogic_epi32 : vec -> vec -> vec -> Z -> vec
}.

(** _MM_SHUFFLE *)
Definition MM_SHUFFLE (z y x w : Z) : Z :=
  Z.lor (Z.lor (Z.lor (Z.shiftl z 6) (Z.shiftl y 4)) (Z.shiftl x 2)) w.

(** A half of a word; the selector [n] of an immediate. *)
Definition half (w : Z) (high : bool) : Z := if high then w / 2 ^ 32 else w mod 2 ^ 32.
Definition selector (imm n : Z) : Z := Z.land (Z.shiftr imm (2 * n)) 3.

(** The word [j] of a shuffle of the four halves of its lane of 128 bits. *)
Definition shuffled (word : nat -> Z) (imm : Z) (j : nat) : Z :=
  let lane := (2 * (j / 2))%nat in
  let element n := half (word (lane + Z.to_nat (n / 2))%nat) (Z.odd n) in
  let first := 2 * Z.of_nat (j mod 2) in
  element (selector imm first) + 2 ^ 32 * element (selector imm (first + 1)).

(** What the manual says. *)
Class SimdLaws (k : nat) (S : Simd k) := {
  word : vec -> nat -> Z;
  word_fits v j : fits 64 (word v j);
  word_loadu p j : bytes p -> (8 * k <= length p)%nat -> (j < k)%nat -> word (loadu p) j = le_value 8 (p +: 8 * j);
  store_words v : store v = concat ((fun j => le_bytes 8 (word v j)) <$> seq 0 k);
  word_xor v w j : (j < k)%nat -> word (xor_si v w) j = Z.lxor (word v j) (word w j);
  word_add v w j : (j < k)%nat -> word (add_epi64 v w) j = u64 (word v j + word w j);
  word_mul v w j : (j < k)%nat -> word (mul_epu32 v w) j = half (word v j) false * half (word w j) false;
  word_srli v n j : (j < k)%nat -> 0 <= n < 64 -> word (srli_epi64 v n) j = Z.shiftr (word v j) n;
  word_slli v n j : (j < k)%nat -> 0 <= n < 64 -> word (slli_epi64 v n) j = u64 (Z.shiftl (word v j) n);
  word_shuffle v imm j : (j < k)%nat -> 0 <= imm < 256 -> word (shuffle_epi32 v imm) j = shuffled (word v) imm j;
  word_set1_32 x j : (j < k)%nat -> word (set1_epi32 x) j = u32 x + 2 ^ 32 * u32 x;
  word_set l j : length l = k -> (j < k)%nat -> word (set_epi64x l) j = u64 (reverse l !!! j);
  word_set1_64 x j : (j < k)%nat -> word (set1_epi64 x) j = u64 x;
  word_set1_8 x j : (j < k)%nat -> word (set1_epi8 x) j = u8 x * 0x0101010101010101;
  word_mask_sub v m w1 w2 j : (j < k)%nat ->
    word (mask_sub_epi64 v m w1 w2) j = if Z.testbit m (Z.of_nat j) then u64 (word w1 j - word w2 j) else word v j;
  word_ternary v w x imm j n : (j < k)%nat -> 0 <= n < 64 ->
    Z.testbit (word (ternarylogic_epi32 v w x imm) j) n =
    Z.testbit imm (4 * Z.b2z (Z.testbit (word v j) n) + 2 * Z.b2z (Z.testbit (word w j) n)
                   + Z.b2z (Z.testbit (word x j) n))
}.

(** ** The accumulators as an array of vectors *)

Definition memory (acc : list Z) : list Z := concat (le_bytes 8 <$> acc).

Definition words_of (m : list Z) : list Z := (fun j => le_value 8 (m +: 8 * j)) <$> seq 0 XXH_ACC_NB.

Section Accumulators.
Context {k : nat} {S : Simd k}.

(** [xacc[i]] *)
Definition get_xacc (acc : list Z) (i : nat) : vec := loadu (memory acc +: 8 * k * i).

(** [xacc[i] = v] *)
Definition set_xacc (acc : list Z) (i : nat) (v : vec) : list Z :=
  words_of (memcpy_at (memory acc) (8 * k * i) (store v)).

End Accumulators.

(** ** SSE2 *)

Section Sse2.
Context {S : Simd 2}.

Definition XXH3_accumulate_512_sse2 (acc input secret : list Z) : list Z :=
  for_up (XXH_STRIPE_LEN / 16) 0 (fun i acc =>
    let data_vec := loadu (input +: 16 * i) in
    let key_vec := loadu (secret +: 16 * i) in
    let data_key := xor_si data_vec key_vec in
    let data_key_lo := shuffle_epi32 data_key (MM_SHUFFLE 0 3 0 1) in
    let product := mul_epu32 data_key data_key_lo in
    let data_swap := shuffle_epi32 data_vec (MM_SHUFFLE 1 0 3 2) in
    let sum := add_epi64 (get_xacc acc i) data_swap in
    set_xacc acc i (add_epi64 product sum)) acc.

Definition XXH3_scrambleAcc_sse2 (acc secret : list Z) : list Z :=
  let prime32 := set1_epi32 (i32 XXH_PRIME32_1) in
  for_up (XXH_STRIPE_LEN / 16) 0 (fun i acc =>
    let acc_vec := get_xacc acc i in
    let shifted := srli_epi64 acc_vec 47 in
    let data_vec := xor_si acc_vec shifted in
    let key_vec := loadu (secret +: 16 * i) in
    let data_key := xor_si data_vec key_vec in
    let data_key_hi := shuffle_epi32 data_key (MM_SHUFFLE 0 3 0 1) in
    let prod_lo := mul_epu32 data_key prime32 in
    let prod_hi := mul_epu32 data_key_hi prime32 in
    set_xacc acc i (add_epi64 prod_lo (slli_epi64 prod_hi 32))) acc.

(** [dst16[i] = ...] writes the array from its front. *)
Definition XXH3_initCustomSecret_sse2 (seed64 : Z) : list Z :=
  let nbRounds := (XXH_SECRET_DEFAULT_SIZE / 16)%nat in
  let seed := set_epi64x [u64 (0 - seed64); seed64] in
  for_up nbRounds 0 (fun i dst16 =>
    dst16 ++ store (add_epi64 (loadu (XXH3_kSecret +: 16 * i)) seed)) [].

Definition sse2 : Vector := {|
  XXH3_accumulate_512 := XXH3_accumulate_512_sse2;
  XXH3_accumulate := XXH3_accumulate_template XXH3_accumulate_512_sse2;
  XXH3_scrambleAcc := XXH3_scrambleAcc_sse2;
  XXH3_initCustomSecret := XXH3_initCustomSecret_sse2
|}.

End Sse2.

(** ** AVX2 *)

Section Avx2.
Context {S : Simd 4}.

Definition XXH3_accumulate_512_avx2 (acc input secret : list Z) : list Z :=
  for_up (XXH_STRIPE_LEN / 32) 0 (fun i acc =>
    let data_vec := loadu (input +: 32 * i) in
    let key_vec := loadu (secret +: 32 * i) in
    let data_key := xor_si data_vec key_vec in
    let data_key_lo := srli_epi64 data_key 32 in
    let product := mul_epu32 data_key data_key_lo in
    let data_swap := shuffle_epi32 data_vec (MM_SHUFFLE 1 0 3 2) in
    let sum := add_epi64 (get_xacc acc i) data_swap in
    set_xacc acc i (add_epi64 product sum)) acc.

Definition XXH3_scrambleAcc_avx2 (acc secret : list Z) : list Z :=
  let prime32 := set1_epi32 (i32 XXH_PRIME32_1) in
  for_up (XXH_STRIPE_LEN / 32) 0 (fun i acc =>
    let acc_vec := get_xacc acc i in
    let shifted := srli_epi64 acc_vec 47 in
    let data_vec := xor_si acc_vec shifted in
    let key_vec := loadu (secret +: 32 * i) in
    let data_key := xor_si data_vec key_vec in
    let data_key_hi := srli_epi64 data_key 32 in
    let prod_lo := mul_epu32 data_key prime32 in
    let prod_hi := mul_epu32 data_key_hi prime32 in
    set_xacc acc i (add_epi64 prod_lo (slli_epi64 prod_hi 32))) acc.

Definition XXH3_initCustomSecret_avx2 (seed64 : Z) : list Z :=
  let seed := set_epi64x [u64 (0 - seed64); seed64; u64 (0 - seed64); seed64] in
  let dest i := store (add_epi64 (loadu (XXH3_kSecret +: 32 * i)) seed) in
  dest 0%nat ++ dest 1%nat ++ dest 2%nat ++ dest 3%nat ++ dest 4%nat ++ dest 5%nat.

Definition avx2 : Vector := {|
  XXH3_accumulate_512 := XXH3_accumulate_512_avx2;
  XXH3_accumulate := XXH3_accumulate_template XXH3_accumulate_512_avx2;
  XXH3_scrambleAcc := XXH3_scrambleAcc_avx2;
  XXH3_initCustomSecret := XXH3_initCustomSecret_avx2
|}.

End Avx2.

(** ** AVX512 *)

Section Avx512.
Context {S : Simd 8}.

Definition XXH3_accumulate_512_avx512 (acc input secret : list Z) : list Z :=
  let data_vec := loadu input in
  let key_vec := loadu secret in
  let data_key := xor_si data_vec key_vec in
  let data_key_lo := srli_epi64 data_key 32 in
  let product := mul_epu32 data_key data_key_lo in
  let data_swap := shuffle_epi32 data_vec (MM_SHUFFLE 1 0 3 2) in
  let sum := add_epi64 (get_xacc acc 0) data_swap in
  set_xacc acc 0 (add_epi64 product sum).

Definition XXH3_scrambleAcc_avx512 (acc secret : list Z) : list Z :=
  let prime32 := set1_epi32 (i32 XXH_PRIME32_1) in
  let acc_vec := get_xacc acc 0 in
  let shifted := srli_epi64 acc_vec 47 in
  let key_vec := loadu secret in
  let data_key := ternarylogic_epi32 key_vec acc_vec shifted 0x96 in
  let data_key_hi := srli_epi64 data_key 32 in
  let prod_lo := mul_epu32 data_key prime32 in
  let prod_hi := mul_epu32 data_key_hi prime32 in
  set_xacc acc 0 (add_epi64 prod_lo (slli_epi64 prod_hi 32)).

Definition XXH3_initCustomSecret_avx512 (seed64 : Z) : list Z :=
  let nbRounds := (XXH_SECRET_DEFAULT_SIZE / 64)%nat in
  let seed_pos := set1_epi64 seed64 in
  let seed := mask_sub_epi64 seed_pos 0xAA (set1_epi8 0) seed_pos in
  for_up nbRounds 0 (fun i dest =>
    dest ++ store (add_epi64 (loadu (XXH3_kSecret +: 64 * i)) seed)) [].

Definition avx512 : Vector := {|
  XXH3_accumulate_512 := XXH3_accumulate_512_avx512;
  XXH3_accumulate := XXH3_accumulate_template XXH3_accumulate_512_avx512;
  XXH3_scrambleAcc := XXH3_scrambleAcc_avx512;
  XXH3_initCustomSecret := XXH3_initCustomSecret_avx512
|}.

End Avx512.

(** ** The memory of the words *)

Lemma memory_app l r : memory (l ++ r) = memory l ++ memory r.
Proof. unfold memory. by rewrite fmap_app, concat_app. Qed.

Lemma memory_length l : length (memory l) = (8 * length l)%nat.
Proof. induction l as [|x l IH]; [done|]. change (memory (x :: l)) with (le_bytes 8 x ++ memory l).
  rewrite length_app, le_bytes_length, IH. cbn [length]. lia.
Qed.

Lemma memory_bytes l : bytes (memory l).
Proof. induction l as [|x l IH]; [constructor|]. apply Forall_app_2; [apply le_bytes_bytes|done]. Qed.

Lemma memory_take n l : take (8 * n) (memory l) = memory (take n l).
Proof.
  revert l. induction n as [|n IH]; intros [|x l]; [done..|]. cbn [take].
  change (memory (x :: ?r)) with (le_bytes 8 x ++ memory r). replace (8 * S n)%nat with (8 + 8 * n)%nat by lia.
  by rewrite take_app_add' by (by rewrite le_bytes_length); rewrite IH.
Qed.

Lemma memory_drop n l : memory l +: 8 * n = memory (l +: n).
Proof.
  revert l. induction n as [|n IH]; intros [|x l]; [done..|]. cbn [drop].
  change (memory (x :: ?r)) with (le_bytes 8 x ++ memory r). replace (8 * S n)%nat with (8 + 8 * n)%nat by lia.
  by rewrite drop_app_add' by (by rewrite le_bytes_length); rewrite IH.
Qed.

Lemma memory_at l j : Forall (fits 64) l -> (j < length l)%nat -> le_value 8 (memory l +: 8 * j) = l !!! j.
Proof.
  intros F H. rewrite memory_drop. destruct (lookup_lt_is_Some_2 l j H) as [x E].
  rewrite (drop_S l x j E), (list_lookup_total_correct _ _ _ E).
  change (memory (x :: ?r)) with (le_bytes 8 x ++ memory r).
  rewrite le_value_app by (by rewrite le_bytes_length). apply (le_value_bytes 8).
  by apply (Forall_lookup_1 _ _ _ _ F E).
Qed.

Lemma words_of_memory l : lanes l -> words_of (memory l) = l.
Proof.
  intros [L F]. apply list_eq_same_length with XXH_ACC_NB; [done|unfold words_of; by rewrite length_fmap, length_seq|].
  intros j x y Hj Hx Hy. unfold words_of in Hx. rewrite list_lookup_fmap, lookup_seq_lt in Hx by done.
  cbn [fmap option_fmap option_map] in Hx. rewrite memory_at in Hx by (done || by rewrite L).
  rewrite (list_lookup_total_correct _ _ _ Hy) in Hx. cbn in Hx. congruence.
Qed.

Lemma memcpy_memory l n r : memcpy_at (memory l) (8 * n) (memory r) = memory (memcpy_at l n r).
Proof.
  unfold memcpy_at. rewrite memory_length, memory_take, <- Nat.mul_add_distr_l, memory_drop.
  by rewrite !memory_app.
Qed.

(** A loop over the array of vectors that gives the word [j] the value [F j]. *)
Section Loop.
Context {k : nat} {SIMD : Simd k} {L : SimdLaws k SIMD}.
Variables (acc : list Z) (F : nat -> Z) (n : nat).
Hypothesis La : lanes acc.
Hypothesis Hn : (k * n = XXH_ACC_NB)%nat.
Hypothesis HF : forall j, fits 64 (F j).

(** The array when the first [m] words are done. *)
Definition done_to (m : nat) : list Z := (F <$> seq 0 m) ++ acc +: m.

Lemma done_to_lanes m : (m <= XXH_ACC_NB)%nat -> lanes (done_to m).
Proof.
  destruct La as [E Fa]. intros H. split.
  - unfold done_to. rewrite length_app, length_fmap, length_seq, length_drop, E. lia.
  - apply Forall_app_2; [|by apply Forall_drop]. apply Forall_fmap, Forall_forall. intros j _. apply HF.
Qed.

Lemma done_to_later m j : (m <= j < XXH_ACC_NB)%nat -> done_to m !!! j = acc !!! j.
Proof.
  intros H. unfold done_to. rewrite lookup_total_app_r by (rewrite length_fmap, length_seq; lia).
  rewrite length_fmap, length_seq, !list_lookup_total_alt, lookup_drop. do 2 f_equal. lia.
Qed.

Lemma chunk_inside i : (i < n)%nat -> (k * i + k <= XXH_ACC_NB)%nat.
Proof. rewrite <- Hn. nia. Qed.

Lemma get_xacc_word i j : (i < n)%nat -> (j < k)%nat ->
  word (get_xacc (done_to (k * i)) i) j = acc !!! (k * i + j)%nat.
Proof.
  intros Hi Hj. pose proof (chunk_inside i Hi). destruct (done_to_lanes (k * i)) as [E Fd]; [lia|].
  unfold get_xacc. rewrite word_loadu; [|apply Forall_drop, memory_bytes| |done].
  - rewrite drop_drop. replace (8 * k * i + 8 * j)%nat with (8 * (k * i + j))%nat by lia.
    rewrite memory_at by (done || lia). apply done_to_later. lia.
  - rewrite length_drop, memory_length, E. lia.
Qed.

Lemma set_xacc_done i v : (i < n)%nat -> (forall j, (j < k)%nat -> word v j = F (k * i + j)) ->
  set_xacc (done_to (k * i)) i v = done_to (k * S i).
Proof.
  intros Hi Hv. pose proof (chunk_inside i Hi) as Hk. unfold set_xacc. rewrite store_words.
  replace (concat _) with (memory (F <$> seq (k * i) k)).
  2: { unfold memory. f_equal. rewrite <- list_fmap_compose. rewrite <- (Nat.add_0_r (k * i)), <- fmap_add_seq, <- list_fmap_compose.
       apply list_fmap_ext. intros j x Hx. apply lookup_seq in Hx as [-> Hx]. cbn. by rewrite Hv. }
  rewrite <- Nat.mul_assoc, memcpy_memory.
  replace (memcpy_at _ _ _) with (done_to (k * S i)).
  - apply words_of_memory, done_to_lanes. lia.
  - unfold memcpy_at, done_to. rewrite length_fmap, length_seq.
    rewrite take_app_length' by (by rewrite length_fmap, length_seq).
    rewrite drop_app_ge by (rewrite length_fmap, length_seq; lia).
    rewrite length_fmap, length_seq, drop_drop, Nat.mul_succ_r, seq_app, fmap_app, <- app_assoc. do 3 f_equal. lia.
Qed.

Lemma xacc_loop (f : nat -> list Z -> vec) :
  (forall i, (i < n)%nat -> forall j, (j < k)%nat -> word (f i (done_to (k * i))) j = F (k * i + j)) ->
  for_up n 0 (fun i acc => set_xacc acc i (f i acc)) acc = F <$> seq 0 XXH_ACC_NB.
Proof.
  intros Hf. replace (F <$> seq 0 XXH_ACC_NB) with (done_to (k * (0 + n))).
  - apply (for_up_ind (fun i x => x = done_to (k * i))).
    + by rewrite Nat.mul_0_r.
    + intros i x Hi ->. apply set_xacc_done; [lia|]. apply Hf. lia.
  - cbn [Nat.add]. rewrite Hn. unfold done_to. rewrite drop_ge, app_nil_r by (by destruct La as [-> _]). done.
Qed.

End Loop.

(** ** What a stripe does to each word *)

(** The word beside the word [j]. *)
Definition beside (j : nat) : nat := Nat.lxor j 1.

Definition accumulated_word (acc input secret : list Z) (j : nat) : Z :=
  let data i := le_value 8 (input +: 8 * i) in
  let key := Z.lxor (data j) (le_value 8 (secret +: 8 * j)) in
  u64 (acc !!! j + data (beside j) + half key false * half key true).

Definition scrambled_word (acc secret : list Z) (j : nat) : Z :=
  let a := acc !!! j in
  u64 (Z.lxor (Z.lxor a (Z.shiftr a 47)) (le_value 8 (secret +: 8 * j)) * XXH_PRIME32_1).

Lemma half_fits w h : fits 64 w -> fits 32 (half w h).
Proof. intros H. destruct (halves w H). by destruct h. Qed.

Lemma half_low_shiftr w : fits 64 w -> half (Z.shiftr w 32) false = half w true.
Proof.
  intros H. unfold half. rewrite Z.shiftr_div_pow2 by lia. apply Z.mod_small. by destruct (halves w H) as [_ ?].
Qed.

Lemma half_join w : half w false + 2 ^ 32 * half w true = w.
Proof. unfold half. pose proof (Z.div_mod w (2 ^ 32)). lia. Qed.

Lemma half_low_add x y : fits 32 x -> half (x + 2 ^ 32 * y) false = x.
Proof. intros H. unfold half. rewrite Z.mul_comm, Z_mod_plus_full. by apply Z.mod_small. Qed.

Lemma lxor_even q : Nat.lxor (2 * q) 1 = S (2 * q).
Proof.
  rewrite <- Nat.add_nocarry_lxor; [lia|]. apply Nat.bits_inj. intros [|n]; rewrite Nat.land_spec, Nat.bits_0.
  - by rewrite Nat.testbit_even_0.
  - change (Nat.testbit 1 (S n)) with (Nat.testbit 0 n). by rewrite Nat.bits_0, andb_false_r.
Qed.

(** A word is the first or the second of its lane. *)
Lemma beside_cases j (q := (j / 2)%nat) :
  (j = 2 * q /\ j mod 2 = 0 /\ beside j = S (2 * q) \/ j = S (2 * q) /\ j mod 2 = 1 /\ beside j = 2 * q)%nat.
Proof.
  unfold beside. pose proof (Nat.div_mod_eq j 2) as H. fold q in H. pose proof (Nat.mod_upper_bound j 2 ltac:(lia)).
  destruct (Nat.eq_dec (j mod 2)%nat 0%nat) as [D|D]; [left|right].
  - assert (E : j = (2 * q)%nat) by lia. split; [done|]. split; [done|]. rewrite E at 1. by rewrite lxor_even.
  - assert (D' : (j mod 2 = 1)%nat) by lia. assert (E : j = S (2 * q)) by lia.
    split; [done|]. split; [done|]. rewrite E at 1. by rewrite <- lxor_even, Nat.lxor_assoc, Nat.lxor_nilpotent, Nat.lxor_0_r.
Qed.

(** Computes the selector of a shuffle. *)
Ltac selects := repeat match goal with
  | |- context [selector ?imm ?n] =>
      let r := eval vm_compute in (selector imm n) in
      let q := eval vm_compute in (Z.to_nat (r / 2)) in
      change (selector imm n) with r; change (Z.to_nat (r / 2)) with q
  end.

Lemma shuffle_swap w j : shuffled w (MM_SHUFFLE 1 0 3 2) j = w (beside j).
Proof.
  unfold shuffled. cbv zeta. destruct (beside_cases j) as [(E & D & ->)|(E & D & ->)]; rewrite D; selects;
    etransitivity; [apply half_join| |apply half_join|]; f_equal; lia.
Qed.

Lemma shuffle_high w j : (forall i, fits 64 (w i)) ->
  half (shuffled w (MM_SHUFFLE 0 3 0 1) j) false = half (w j) true.
Proof.
  intros Hw. unfold shuffled. cbv zeta. destruct (beside_cases j) as [(E & D & _)|(E & D & _)]; rewrite D; selects;
    rewrite half_low_add by auto using half_fits; cbn [Z.odd];
    f_equal; f_equal; lia.
Qed.

Lemma beside_even m j : beside (2 * m + j) = (2 * m + beside j)%nat.
Proof.
  assert (M : ((2 * m + j) / 2 = m + j / 2)%nat) by (rewrite Nat.mul_comm; by apply Nat.div_add_l).
  assert (R : ((2 * m + j) mod 2 = j mod 2)%nat) by (rewrite Nat.mul_comm, Nat.add_comm; apply Nat.Div0.mod_add).
  destruct (beside_cases (2 * m + j)) as [(_ & D & ->)|(_ & D & ->)], (beside_cases j) as [(_ & D' & ->)|(_ & D' & ->)];
    rewrite ?M; lia.
Qed.

Lemma beside_lt m j : (j < 2 * m)%nat -> (beside j < 2 * m)%nat.
Proof. intros H. destruct (beside_cases j) as [(E & _ & ->)|(E & _ & ->)]; lia. Qed.

Lemma scrambled_word_fits acc secret j : fits 64 (scrambled_word acc secret j).
Proof. apply fits_wrap. lia. Qed.

Lemma accumulated_word_fits acc input secret j : fits 64 (accumulated_word acc input secret j).
Proof. apply fits_wrap. lia. Qed.

(** ** What the intrinsics do on a chunk of a stripe *)

Section Chunk.
Context {m : nat} {SIMD : Simd (2 * m)} {L : SimdLaws (2 * m) SIMD}.
Variables (n i j : nat).
Hypothesis Hn : (2 * m * n = XXH_ACC_NB)%nat.
Hypothesis Hi : (i < n)%nat.
Hypothesis Hj : (j < 2 * m)%nat.

Lemma load_word p j' : bytes p -> (64 <= length p)%nat -> (j' < 2 * m)%nat ->
  word (loadu (p +: 8 * (2 * m) * i)) j' = le_value 8 (p +: 8 * (2 * m * i + j')).
Proof.
  intros Bp Lp H. pose proof (chunk_inside n Hn i Hi) as Hc. change XXH_ACC_NB with 8%nat in Hc.
  rewrite word_loadu; [|by apply Forall_drop|rewrite length_drop; lia|done].
  rewrite drop_drop. do 2 f_equal. lia.
Qed.

Lemma accumulate_chunk acc input secret x h :
  bytes input -> bytes secret -> (64 <= length input)%nat -> (64 <= length secret)%nat ->
  let data := loadu (input +: 8 * (2 * m) * i) in
  let key := xor_si data (loadu (secret +: 8 * (2 * m) * i)) in
  word x j = acc !!! (2 * m * i + j)%nat -> half (word h j) false = half (word key j) true ->
  word (add_epi64 (mul_epu32 key h) (add_epi64 x (shuffle_epi32 data (MM_SHUFFLE 1 0 3 2)))) j =
  accumulated_word acc input secret (2 * m * i + j).
Proof.
  intros Bp Bs Lp Ls data key Hx Hh. unfold accumulated_word. cbv zeta.
  rewrite word_add, word_mul, word_add, word_shuffle, shuffle_swap, Hx, Hh, u64_add_r by done.
  subst key data. rewrite word_xor, !load_word by auto using beside_lt.
  rewrite <- Nat.mul_assoc, beside_even. f_equal. lia.
Qed.

Lemma scramble_chunk acc secret key high :
  bytes secret -> (64 <= length secret)%nat ->
  let a := acc !!! (2 * m * i + j)%nat in
  word key j = Z.lxor (Z.lxor a (Z.shiftr a 47)) (le_value 8 (secret +: 8 * (2 * m * i + j))) ->
  half (word high j) false = half (word key j) true ->
  let prime32 := set1_epi32 (i32 XXH_PRIME32_1) in
  word (add_epi64 (mul_epu32 key prime32) (slli_epi64 (mul_epu32 high prime32) 32)) j =
  scrambled_word acc secret (2 * m * i + j).
Proof.
  intros Bs Ls a Hk Hh prime32. unfold scrambled_word. cbv zeta. fold a. rewrite <- Hk.
  assert (P : half (word prime32 j) false = XXH_PRIME32_1).
  { subst prime32. rewrite word_set1_32 by done. by rewrite half_low_add by done. }
  rewrite word_add, word_slli, !word_mul, P, Hh by (done || lia). rewrite u64_add_r, Z.shiftl_mul_pow2 by lia.
  f_equal. rewrite <- (half_join (word key j)) at 3. lia.
Qed.

End Chunk.

(** ** The scalar functions, word by word *)

Section Scalar.
Variable b : build.

Lemma readLE64_value p : bytes p -> (8 <= length p)%nat -> XXH_readLE64 (base b) p = le_value 8 p.
Proof. intros Bp Lp. by rewrite (agree_read64 (base b) default_config p p) by (by apply agree_refl). Qed.

Lemma readLE64_at p i : bytes p -> (64 <= length p)%nat -> (i < 8)%nat ->
  XXH_readLE64 (base b) (p +: i * 8) = le_value 8 (p +: 8 * i).
Proof.
  intros Bp Lp H. rewrite Nat.mul_comm. apply readLE64_value; [by apply Forall_drop|]. rewrite length_drop. lia.
Qed.

Lemma lanes_eight acc : lanes acc ->
  exists a0 a1 a2 a3 a4 a5 a6 a7, acc = [a0; a1; a2; a3; a4; a5; a6; a7].
Proof.
  intros [L _]. do 8 (destruct acc as [|? acc]; [done|]). destruct acc; [|done]. by repeat eexists.
Qed.

(** The eight rounds, each of which adds to two words. *)
Lemma rounds_words (d q : nat -> Z) acc : lanes acc ->
  for_up XXH_ACC_NB 0 (fun i acc =>
    let acc := <[Nat.lxor i 1 := u64 (acc !!! Nat.lxor i 1 + d i)]> acc in
    <[i := u64 (q i + acc !!! i)]> acc) acc =
  (fun j => u64 (acc !!! j + d (beside j) + q j)) <$> seq 0 XXH_ACC_NB.
Proof.
  intros La. destruct (lanes_eight acc La) as (a0 & a1 & a2 & a3 & a4 & a5 & a6 & a7 & ->).
  cbn -[Z.mul Z.add wrap]. rewrite !u64_add_l, !u64_add_r. repeat (apply (f_equal2 cons); [f_equal; lia|]). done.
Qed.

Lemma accumulate_scalar_words acc input secret : lanes acc -> bytes input -> bytes secret ->
  (64 <= length input)%nat -> (64 <= length secret)%nat ->
  XXH3_accumulate_512_scalar b acc input secret = accumulated_word acc input secret <$> seq 0 XXH_ACC_NB.
Proof.
  intros La Bp Bs Lp Ls. unfold accumulated_word. cbv zeta.
  pose (d i := le_value 8 (input +: 8 * i)). pose (k i := Z.lxor (d i) (le_value 8 (secret +: 8 * i))).
  etransitivity; [|exact (rounds_words d (fun i => half (k i) false * half (k i) true) acc La)].
  apply for_up_same. intros i x Hi. change XXH_ACC_NB with 8%nat in Hi. unfold XXH3_scalarRound.
  rewrite !readLE64_at by (done || lia). cbv zeta. fold (d i). fold (k i). f_equal. unfold XXH_mult32to64_add64.
  assert (Fk : fits 64 (k i)).
  { apply fits_lxor; [lia|..]; apply (le_value_fits 8); try apply Forall_drop; rewrite ?length_drop; auto; lia. }
  destruct (halves (k i) Fk). rewrite Z.shiftr_div_pow2 by lia. rewrite XXH_mult32to64_eq by auto with fits.
  unfold half. by rewrite (wrap_fits 32 (k i / 2 ^ 32)) by done.
Qed.

Lemma scramble_scalar_words acc secret : lanes acc -> bytes secret -> (64 <= length secret)%nat ->
  XXH3_scrambleAcc_scalar b acc secret = scrambled_word acc secret <$> seq 0 XXH_ACC_NB.
Proof.
  intros La Bs Ls. unfold scrambled_word, XXH3_scrambleAcc_scalar.
  pose (k i := le_value 8 (secret +: 8 * i)).
  transitivity (for_up XXH_ACC_NB 0 (fun i acc =>
    <[i := u64 (Z.lxor (Z.lxor (acc !!! i) (Z.shiftr (acc !!! i) 47)) (k i) * XXH_PRIME32_1)]> acc) acc).
  - apply for_up_same. intros i x Hi. change XXH_ACC_NB with 8%nat in Hi. unfold XXH3_scalarScrambleRound.
    by rewrite readLE64_at by (done || lia).
  - fold k. destruct (lanes_eight acc La) as (a0 & a1 & a2 & a3 & a4 & a5 & a6 & a7 & ->).
    cbn -[Z.mul Z.lxor Z.shiftr wrap k]. done.
Qed.

End Scalar.

(** ** The seeded secret, word by word *)

Section Seeded.
Variable seed : Z.
Hypothesis Fs : fits 64 seed.

Definition seed_word (j : nat) : Z := if Nat.even j then seed else u64 (0 - seed).

Definition secret_word (j : nat) : Z := u64 (le_value 8 (XXH3_kSecret +: 8 * j) + seed_word j).

Lemma secret_loop k n (chunk : nat -> list Z) :
  (forall i, (i < n)%nat -> chunk i = memory (secret_word <$> seq (k * i) k)) ->
  for_up n 0 (fun i d => d ++ chunk i) [] = memory (secret_word <$> seq 0 (k * n)).
Proof.
  intros H. apply (for_up_ind (fun i d => d = memory (secret_word <$> seq 0 (k * i)))).
  - by rewrite Nat.mul_0_r.
  - intros i d Hi ->. by rewrite H, <- memory_app, <- fmap_app, <- seq_app, Nat.mul_succ_r by lia.
Qed.

Lemma initCustomSecret_scalar_words b :
  XXH3_initCustomSecret_scalar b seed = memory (secret_word <$> seq 0 24).
Proof.
  destruct kSecret_bytes as [Bk Lk]. apply (secret_loop 2 12). intros i Hi.
  rewrite !writeLE64_bytes by auto with fits.
  rewrite !readLE64_value by (try apply Forall_drop; rewrite ?length_drop, ?Lk; unfold XXH_SECRET_DEFAULT_SIZE; done || lia).
  cbn [seq]. unfold memory. cbn [fmap list_fmap concat]. rewrite app_nil_r. unfold secret_word, seed_word.
  rewrite Nat.even_succ, Nat.odd_mul, Nat.even_mul. cbn [Nat.even Nat.odd orb andb negb]. rewrite u64_add_r.
  replace (8 * (2 * i))%nat with (16 * i)%nat by lia. replace (8 * S (2 * i))%nat with (16 * i + 8)%nat by lia.
  by rewrite Z.sub_0_l, Z.add_opp_r.
Qed.

Lemma secret_chunk m n {SIMD : Simd (2 * m)} {L : SimdLaws (2 * m) SIMD} i v :
  (2 * m * n = 24)%nat -> (i < n)%nat -> (forall j, (j < 2 * m)%nat -> word v j = seed_word j) ->
  store (add_epi64 (loadu (XXH3_kSecret +: 8 * (2 * m) * i)) v) = memory (secret_word <$> seq (2 * m * i) (2 * m)).
Proof.
  intros Hn Hi Hv. destruct kSecret_bytes as [Bk Lk]. change XXH_SECRET_DEFAULT_SIZE with 192%nat in Lk.
  assert (Hc : (2 * m * i + 2 * m <= 24)%nat) by (rewrite <- Hn; nia).
  rewrite store_words. unfold memory. f_equal. rewrite <- (Nat.add_0_r (2 * m * i)), <- fmap_add_seq, <- !list_fmap_compose.
  apply list_fmap_ext. intros j x Hx. apply lookup_seq in Hx as [-> Hx]. cbn -[Nat.mul le_bytes]. f_equal.
  rewrite word_add, Hv, word_loadu by (try apply Forall_drop; rewrite ?length_drop, ?Lk; done || lia).
  unfold secret_word, seed_word. rewrite drop_drop, Nat.even_add, !Nat.even_mul.
  replace (8 * (2 * m) * i + 8 * j)%nat with (8 * (2 * m * i + j))%nat by lia. by destruct (Nat.even j).
Qed.

End Seeded.

(** ** The three implementations

    They differ in the number of chunks, in how they bring down the high half
    of a word and in how they mix the accumulator with the key. *)

Section Loops.
Variable b : build.
Context {m : nat} {SIMD : Simd (2 * m)} {L : SimdLaws (2 * m) SIMD}.
Variables (n : nat) (high : vec -> vec) (mix : vec -> vec -> vec).
Hypothesis Hn : (2 * m * n = XXH_ACC_NB)%nat.
Hypothesis high_half : forall v j, (j < 2 * m)%nat -> half (word (high v) j) false = half (word v j) true.
Hypothesis mix_word : forall x key j, (j < 2 * m)%nat ->
  word (mix x key) j = Z.lxor (Z.lxor (word x j) (Z.shiftr (word x j) 47)) (word key j).

Lemma accumulate_loop acc input secret : lanes acc -> bytes input -> bytes secret ->
  (64 <= length input)%nat -> (64 <= length secret)%nat ->
  for_up n 0 (fun i acc =>
    let data := loadu (input +: 8 * (2 * m) * i) in
    let key := xor_si data (loadu (secret +: 8 * (2 * m) * i)) in
    set_xacc acc i (add_epi64 (mul_epu32 key (high key))
      (add_epi64 (get_xacc acc i) (shuffle_epi32 data (MM_SHUFFLE 1 0 3 2))))) acc =
  XXH3_accumulate_512_scalar b acc input secret.
Proof.
  intros La Bp Bs Lp Ls. pose proof (accumulated_word_fits acc input secret) as F.
  rewrite accumulate_scalar_words by done.
  apply (xacc_loop acc _ n La Hn F). intros i Hi j Hj.
  apply (accumulate_chunk n); auto. by apply (get_xacc_word acc _ n La Hn F).
Qed.

Lemma scramble_loop acc secret : lanes acc -> bytes secret -> (64 <= length secret)%nat ->
  let prime32 := set1_epi32 (i32 XXH_PRIME32_1) in
  for_up n 0 (fun i acc =>
    let key := mix (get_xacc acc i) (loadu (secret +: 8 * (2 * m) * i)) in
    set_xacc acc i (add_epi64 (mul_epu32 key prime32) (slli_epi64 (mul_epu32 (high key) prime32) 32))) acc =
  XXH3_scrambleAcc_scalar b acc secret.
Proof.
  intros La Bs Ls prime32. pose proof (scrambled_word_fits acc secret) as F.
  rewrite scramble_scalar_words by done.
  apply (xacc_loop acc _ n La Hn F). intros i Hi j Hj.
  apply (scramble_chunk n); auto.
  by rewrite mix_word, (load_word n i j), (get_xacc_word acc _ n La Hn F) by done.
Qed.

(** [r] rounds make the secret. *)
Lemma secret_rounds r seed v : fits 64 seed -> (2 * m * r = 24)%nat ->
  (forall j, (j < 2 * m)%nat -> word v j = seed_word seed j) ->
  for_up r 0 (fun i d => d ++ store (add_epi64 (loadu (XXH3_kSecret +: 8 * (2 * m) * i)) v)) [] =
  XXH3_initCustomSecret_scalar b seed.
Proof.
  intros Fs Hr Hv. rewrite initCustomSecret_scalar_words, <- Hr.
  apply (secret_loop seed (2 * m) r). intros i Hi. by apply (secret_chunk seed m r).
Qed.

End Loops.

Lemma srli_high k {SIMD : Simd k} {L : SimdLaws k SIMD} v j : (j < k)%nat ->
  half (word (srli_epi64 v 32) j) false = half (word v j) true.
Proof. intros H. rewrite word_srli by (done || lia). apply half_low_shiftr, word_fits. Qed.

Lemma shuffle_vec_high k {SIMD : Simd k} {L : SimdLaws k SIMD} v j : (j < k)%nat ->
  half (word (shuffle_epi32 v (MM_SHUFFLE 0 3 0 1)) j) false = half (word v j) true.
Proof. intros H. rewrite word_shuffle by done. apply shuffle_high, word_fits. Qed.

Lemma xor_mix k {SIMD : Simd k} {L : SimdLaws k SIMD} x key j : (j < k)%nat ->
  word (xor_si (xor_si x (srli_epi64 x 47)) key) j =
  Z.lxor (Z.lxor (word x j) (Z.shiftr (word x j) 47)) (word key j).
Proof. intros H. by rewrite !word_xor, word_srli by (done || lia). Qed.

(** The immediate 0x96 is the table of the exclusive or of three bits. *)
Lemma ternary_mix k {SIMD : Simd k} {L : SimdLaws k SIMD} x key j : (j < k)%nat ->
  word (ternarylogic_epi32 key x (srli_epi64 x 47) 0x96) j =
  Z.lxor (Z.lxor (word x j) (Z.shiftr (word x j) 47)) (word key j).
Proof.
  intros H. apply Z.bits_inj. intros n. destruct (decide (0 <= n < 64)) as [Hn|Hn].
  - rewrite word_ternary, word_srli, !Z.lxor_spec by (done || lia).
    by destruct (Z.testbit (word key j) n), (Z.testbit (word x j) n), (Z.testbit (Z.shiftr (word x j) 47) n).
  - assert (Q : forall y, fits 64 y -> Z.testbit y n = false).
    { intros y Fy. destruct (decide (n < 0)); [by apply Z.testbit_neg_r|]. unfold fits in Fy.
      rewrite <- (Z.mod_small y (2 ^ 64)) by done. apply Z.mod_pow2_bits_high. lia. }
    rewrite !Q; pose proof (word_fits x j); pose proof (word_fits key j); auto with fits. apply word_fits.
Qed.

(** The vector of the seed. *)
Lemma seed_cases seed j k (l : list Z) : fits 64 seed -> (j < k)%nat -> length l = k ->
  (forall i, (i < k)%nat -> l !!! i = seed_word seed i) -> u64 (l !!! j) = seed_word seed j.
Proof.
  intros Fs Hj Hl H. rewrite H by done. apply wrap_fits. unfold seed_word. destruct (Nat.even j); auto with fits.
Qed.

Section Laws.
Variable b : build.

Lemma sse2_laws {S : Simd 2} {L : SimdLaws 2 S} : VectorLaws b sse2.
Proof.
  split; cbn [XXH3_accumulate_512 XXH3_accumulate XXH3_scrambleAcc XXH3_initCustomSecret sse2].
  - intros. by apply (accumulate_loop b (m := 1) 4 (fun v => shuffle_epi32 v (MM_SHUFFLE 0 3 0 1)) eq_refl (shuffle_vec_high 2)).
  - done.
  - intros. by apply (scramble_loop b (m := 1) 4 (fun v => shuffle_epi32 v (MM_SHUFFLE 0 3 0 1))
      (fun x key => xor_si (xor_si x (srli_epi64 x 47)) key) eq_refl (shuffle_vec_high 2) (xor_mix 2)).
  - intros seed Fs. apply (secret_rounds b (m := 1) 12); [done|done|]. intros j Hj. rewrite word_set by done.
    apply (seed_cases _ _ 2); try done. by intros [|[|[|]]] H; try lia.
Qed.

Lemma avx2_laws {S : Simd 4} {L : SimdLaws 4 S} : VectorLaws b avx2.
Proof.
  split; cbn [XXH3_accumulate_512 XXH3_accumulate XXH3_scrambleAcc XXH3_initCustomSecret avx2].
  - intros. by apply (accumulate_loop b (m := 2) 2 (fun v => srli_epi64 v 32) eq_refl (srli_high 4)).
  - done.
  - intros. by apply (scramble_loop b (m := 2) 2 (fun v => srli_epi64 v 32)
      (fun x key => xor_si (xor_si x (srli_epi64 x 47)) key) eq_refl (srli_high 4) (xor_mix 4)).
  - intros seed Fs. rewrite <- (secret_rounds b (m := 2) 6 seed (set_epi64x [u64 (0 - seed); seed; u64 (0 - seed); seed])).
    + cbn [for_up]. by rewrite app_nil_l, <- !app_assoc.
    + done.
    + done.
    + intros j Hj. rewrite word_set by done. apply (seed_cases _ _ 4); try done. by intros [|[|[|[|[|]]]]] H; try lia.
Qed.

Lemma avx512_laws {S : Simd 8} {L : SimdLaws 8 S} : VectorLaws b avx512.
Proof.
  split; cbn [XXH3_accumulate_512 XXH3_accumulate XXH3_scrambleAcc XXH3_initCustomSecret avx512].
  - intros. rewrite <- (accumulate_loop b (m := 4) 1 (fun v => srli_epi64 v 32) eq_refl (srli_high 8)) by done.
    cbn [for_up]. by rewrite Nat.mul_0_r, !drop_0.
  - done.
  - intros. rewrite <- (scramble_loop b (m := 4) 1 (fun v => srli_epi64 v 32)
      (fun x key => ternarylogic_epi32 key x (srli_epi64 x 47) 0x96) eq_refl (srli_high 8) (ternary_mix 8)) by done.
    cbn [for_up]. by rewrite Nat.mul_0_r, drop_0.
  - intros seed Fs. apply (secret_rounds b (m := 4) 3); [done|done|]. intros j Hj. cbv zeta.
    rewrite word_mask_sub, !word_set1_64, word_set1_8, (wrap_fits 64 seed) by done. unfold seed_word.
    by destruct j as [|[|[|[|[|[|[|[|j]]]]]]]]; [..|lia].
Qed.

End Laws.

(** ** Properties *)

(** C14: On any processor whose intrinsics do what their manual says, the SSE2,
    AVX2 and AVX512 implementations meet the contract of the vector interface:
    accumulating a stripe, scrambling the accumulators and deriving a secret
    from a seed give the bytes of the scalar functions.  So XXH3 and XXH128 of
    an input are the same with each of them as without vectors. *)
Theorem xxh3_simd (b : build) (S2 : Simd 2) (S4 : Simd 4) (S8 : Simd 8)
    (L2 : SimdLaws 2 S2) (L4 : SimdLaws 4 S4) (L8 : SimdLaws 8 S8) :
  Forall (fun V : Vector =>
    VectorLaws b V /\
    forall k input len, key_ok k -> bytes input -> (len <= length input)%nat ->
      one_shot64 b (V := V) k input len = one_shot64 b (V := scalar b) k input len /\
      one_shot128 b (V := V) k input len = one_shot128 b (V := scalar b) k input len)
    [sse2; avx2; avx512].
Proof.
  assert (H : forall V, VectorLaws b V -> VectorLaws b V /\
    forall k input len, key_ok k -> bytes input -> (len <= length input)%nat ->
      one_shot64 b (V := V) k input len = one_shot64 b (V := scalar b) k input len /\
      one_shot128 b (V := V) k input len = one_shot128 b (V := scalar b) k input len).
  { intros V LV. split; [done|]. intros k input len Hk Bi Li. assert (A := agree_refl len input Bi Li).
    by rewrite !(one_shot64_hash b k k input input len Hk A), !(one_shot128_hash b k k input input len Hk A). }
  apply Forall_cons_2; [exact (H _ (sse2_laws b (L := L2)))|]. apply Forall_cons_2; [exact (H _ (avx2_laws b (L := L4)))|].
  apply Forall_cons_2; [exact (H _ (avx512_laws b (L := L8)))|]. apply Forall_nil_2.
Qed.

(** *** A concrete processor: vectors as functions from the index to the word *)

(** One of the eight cases of a ternary table, on all the bits at once. *)
Definition minterm (imm x y z : Z) (c : Z) : Z :=
  let pick n v := if Z.testbit c n then v else Z.lnot v in
  if Z.testbit imm c then Z.land (pick 2 x) (Z.land (pick 1 y) (pick 0 z)) else 0.

Definition table (imm x y z : Z) : Z :=
  foldr (fun c r => Z.lor (minterm imm x y z c) r) 0 [0; 1; 2; 3; 4; 5; 6; 7].

Definition processor (k : nat) : Simd k := {|
  vec := nat -> Z;
  loadu p := fun j => le_value 8 (p +: 8 * j);
  store v := concat ((fun j => le_bytes 8 (u64 (v j))) <$> seq 0 k);
  xor_si v w := fun j => Z.lxor (u64 (v j)) (u64 (w j));
  add_epi64 v w := fun j => v j + w j;
  mul_epu32 v w := fun j => half (u64 (v j)) false * half (u64 (w j)) false;
  srli_epi64 v n := fun j => Z.shiftr (u64 (v j)) n;
  slli_epi64 v n := fun j => Z.shiftl (u64 (v j)) n;
  shuffle_epi32 v imm := shuffled (fun j => u64 (v j)) imm;
  set1_epi32 x := fun _ => u32 x + 2 ^ 32 * u32 x;
  set_epi64x l := fun j => reverse l !!! j;
  set1_epi64 x := fun _ => x;
  set1_epi8 x := fun _ => u8 x * 0x0101010101010101;
  mask_sub_epi64 v m w1 w2 := fun j => if Z.testbit m (Z.of_nat j) then w1 j - w2 j else v j;
  ternarylogic_epi32 v w x imm := fun j => table imm (u64 (v j)) (u64 (w j)) (u64 (x j))
|}.

Lemma table_bit imm x y z n : 0 <= n ->
  Z.testbit (table imm x y z) n =
  Z.testbit imm (4 * Z.b2z (Z.testbit x n) + 2 * Z.b2z (Z.testbit y n) + Z.b2z (Z.testbit z n)).
Proof.
  intros Hn. unfold table. cbn [foldr]. rewrite !Z.lor_spec, Z.bits_0.
  assert (M : forall c, Z.testbit (minterm imm x y z c) n =
    Z.testbit imm c && eqb (Z.testbit c 2) (Z.testbit x n) && eqb (Z.testbit c 1) (Z.testbit y n) &&
    eqb (Z.testbit c 0) (Z.testbit z n)).
  { intros c. unfold minterm. cbv zeta. destruct (Z.testbit imm c); [|by rewrite Z.bits_0]. rewrite !Z.land_spec.
    destruct (Z.testbit c 2), (Z.testbit c 1), (Z.testbit c 0); rewrite ?Z.lnot_spec by done;
      by destruct (Z.testbit x n), (Z.testbit y n), (Z.testbit z n). }
  rewrite !M. destruct (Z.testbit x n), (Z.testbit y n), (Z.testbit z n); cbn -[Z.testbit];
    rewrite ?andb_false_r, ?andb_true_r, ?orb_false_r; done.
Qed.

Lemma shuffled_fits w imm j : (forall i, fits 64 (w i)) -> fits 64 (shuffled w imm j).
Proof.
  intros Hw. unfold shuffled. cbv zeta.
  assert (H : forall i h, fits 32 (half (w i) h)) by auto using half_fits.
  set (x := half _ _). set (y := half _ _). assert (fits 32 x) by apply H. assert (fits 32 y) by apply H.
  unfold fits in *. lia.
Qed.

#[export] Instance processor_laws k : SimdLaws k (processor k).
Proof.
  refine (Build_SimdLaws k (processor k) (fun v j => u64 (v j)) _ _ _ _ _ _ _ _ _ _ _ _ _ _ _);
    cbn [vec loadu store xor_si add_epi64 mul_epu32 srli_epi64 slli_epi64 shuffle_epi32 set1_epi32 set_epi64x
      set1_epi64 set1_epi8 mask_sub_epi64 ternarylogic_epi32 processor].
  - intros v j. apply fits_wrap. lia.
  - intros p j Bp Lp Hj. apply wrap_fits, (le_value_fits 8); [by apply Forall_drop|]. rewrite length_drop. lia.
  - done.
  - intros v w j _. apply wrap_fits. auto with fits.
  - intros v w j _. by rewrite u64_add_l, u64_add_r.
  - intros v w j _. apply wrap_fits. pose proof (half_fits (u64 (v j)) false ltac:(auto with fits)).
    pose proof (half_fits (u64 (w j)) false ltac:(auto with fits)). unfold fits in *. nia.
  - intros v n j _ Hn. apply wrap_fits. auto with fits.
  - intros v n j _ Hn. rewrite !Z.shiftl_mul_pow2 by lia. unfold wrap. by rewrite Zmult_mod_idemp_l.
  - intros v imm j _ _. apply wrap_fits, shuffled_fits. auto with fits.
  - intros x j _. apply wrap_fits. pose proof (fits_wrap 32 x ltac:(lia)). unfold fits in *. lia.
  - done.
  - done.
  - intros x j _. apply wrap_fits. pose proof (fits_wrap 8 x ltac:(lia)). unfold fits in *. lia.
  - intros v m w1 w2 j _. destruct (Z.testbit m (Z.of_nat j)); [|done]. unfold wrap. by rewrite Zminus_mod.
  - intros v w x imm j n _ Hn. unfold wrap at 1. rewrite Z.mod_pow2_bits_low by lia. apply table_bit. lia.
Defined.

Lemma xxh3_simd_witness :
  Forall (fun V : Vector =>
    VectorLaws default_build V /\
    forall k input len, key_ok k -> bytes input -> (len <= length input)%nat ->
      one_shot64 default_build (V := V) k input len =
      one_shot64 default_build (V := scalar default_build) k input len /\
      one_shot128 default_build (V := V) k input len =
      one_shot128 default_build (V := scalar default_build) k input len)
    [sse2 (S := processor 2); avx2 (S := processor 4); avx512 (S := processor 8)].
Proof.
  exact (xxh3_simd default_build (processor 2) (processor 4) (processor 8)
    (processor_laws 2) (processor_laws 4) (processor_laws 8)).
Defined.

(** The processor runs: the published hash of 2240 bytes, with each of them. *)
Example simd_runs :
  Forall (fun V : Vector => one_shot64 default_build (V := V) Plain sanity_buffer 2240 = Ret 0x6E73A90539CF2948)
    [sse2 (S := processor 2); avx2 (S := processor 4); avx512 (S := processor 8)].
Proof. repeat apply Forall_cons_2; [vm_compute; reflexivity..|constructor]. Qed.
