(* ===== verification/XxhState.v ===== *)
(** * The memory of the hash states (src/src/xxhash.h)

    XXH32_createState, XXH64_createState, XXH3_createState and their free
    functions, with the aligned allocation of XXH3: a larger block, whose
    byte before the aligned pointer keeps the way back to its start.  The heap has the
    blocks of malloc at their addresses; where malloc puts a block is an
    argument. *)

From Stdlib Require Import ZArith Lia.
From stdpp Require Import prelude gmap.
From S2P Require Import Prelude Xxhash Xxh3.

(** ** The heap of the C library *)

(** The blocks: the bytes of each at its address. *)
Abbreviation cheap := (gmap Z (list Z)).

Definition inside (p : Z) (bs : list Z) (a : Z) : Prop := p <= a < p + Z.of_nat (length bs).

#[export] Instance inside_dec p bs a : Decision (inside p bs a).
Proof. unfold inside. apply _. Defined.

Class CMalloc := {
  place : cheap -> Z -> option Z;
  fresh_bytes : Z -> list Z;
  fresh_bytes_length : forall n, length (fresh_bytes n) = Z.to_nat n;
  (** A new block is in the address space and apart from the live ones. *)
  place_ok : forall h n p, place h n = Some p -> 0 < p /\ p + n <= 2 ^ 64 /\ h !! p = None /\
    forall q bs a, h !! q = Some bs -> inside q bs a -> ~ p <= a < p + n
}.

Section Heap.
Context `{!CMalloc}.

Definition XXH_malloc (s : Z) : ST cheap Z := fun h =>
  match place h s with None => Ret (0, h) | Some p => Ret (p, <[p := fresh_bytes s]> h) end.

Definition XXH_free (p : Z) : ST cheap unit := fun h =>
  if decide (p = 0) then Ret (tt, h)
  else match h !! p with None => Undef | Some _ => Ret (tt, delete p h) end.

(** The block an address is in. *)
Definition block_of (h : cheap) (a : Z) : option (Z * list Z) :=
  snd <$> list_find (fun pb => inside pb.1 pb.2 a) (map_to_list h).

(** [*(unsigned char* )a], and the store of some bytes at [a]. *)
Definition load_byte (a : Z) : ST cheap Z := fun h =>
  match block_of h a with
  | Some (p, bs) => Ret (bs !!! Z.to_nat (a - p), h)
  | None => Undef
  end.

Definition store_at (a : Z) (vs : list Z) : ST cheap unit := fun h =>
  match block_of h a with
  | Some (p, bs) =>
      match poke bs (Z.to_nat (a - p)) vs with
      | Some bs' => Ret (tt, <[p := bs']> h)
      | None => Undef
      end
  | None => Undef
  end.

(** ** The aligned allocation *)

Definition XXH_alignedMalloc (s align : Z) : ST cheap Z :=
  base ← XXH_malloc (u64 (s + align));
  if decide (base <> 0) then
    let offset := align - Z.land base (align - 1) in
    let ptr := base + offset in
    store_at (ptr - 1) [u8 offset];;
    mret ptr
  else mret 0.

Definition XXH_alignedFree (p : Z) : ST cheap unit :=
  if decide (p <> 0) then
    offset ← load_byte (p - 1);
    let base := p - offset in
    XXH_free base
  else mret tt.

(** ** The states *)

(** [sizeof(XXH3_state_t)] and the offsets of [seed] and [extSecret], on 64 bits. *)
Definition sizeof_XXH3_state : Z := 576.
Definition offset_seed : Z := 552.
Definition offset_extSecret : Z := 568.

Definition XXH3_createState : ST cheap Z :=
  state ← XXH_alignedMalloc sizeof_XXH3_state 64;
  if decide (state = 0) then mret 0
  else
    store_at (state + offset_seed) (le_bytes 8 0);;
    store_at (state + offset_extSecret) (le_bytes 8 0);;
    mret state.

Definition XXH3_freeState (statePtr : Z) : ST cheap XXH_errorcode :=
  XXH_alignedFree statePtr;; mret XXH_OK.

Definition sizeof_XXH32_state : Z := 48.
Definition sizeof_XXH64_state : Z := 88.

Definition XXH32_createState : ST cheap Z := XXH_malloc sizeof_XXH32_state.
Definition XXH32_freeState (statePtr : Z) : ST cheap XXH_errorcode := XXH_free statePtr;; mret XXH_OK.
Definition XXH64_createState : ST cheap Z := XXH_malloc sizeof_XXH64_state.
Definition XXH64_freeState (statePtr : Z) : ST cheap XXH_errorcode := XXH_free statePtr;; mret XXH_OK.

End Heap.

(** ** The heap is made of blocks apart from each other *)

Definition heap_ok (h : cheap) : Prop :=
  forall p q bs cs a, h !! p = Some bs -> h !! q = Some cs -> inside p bs a -> inside q cs a -> p = q.

Lemma block_of_spec h p bs a : heap_ok h -> h !! p = Some bs -> inside p bs a -> block_of h a = Some (p, bs).
Proof.
  intros Hh E Ha. unfold block_of. destruct (list_find _ _) as [[i [q cs]]|] eqn:F.
  - apply list_find_Some in F as (Fi & Fa & _). apply list_elem_of_lookup_2, elem_of_map_to_list in Fi. cbn in *.
    assert (q = p) as -> by (by apply (Hh q p cs bs a)). rewrite E in Fi. by injection Fi as ->.
  - apply list_find_None in F. rewrite Forall_forall in F. exfalso.
    apply (F (p, bs)); [by apply elem_of_map_to_list|done].
Qed.

Section Use.
Context `{!CMalloc}.

Lemma place_heap_ok h n p bs : heap_ok h -> place h n = Some p -> length bs = Z.to_nat n -> 0 <= n -> heap_ok (<[p := bs]> h).
Proof.
  intros Hh E L Hn. destruct (place_ok h n p E) as (_ & _ & Ep & D). intros q r cs ds a Eq Er Hq Hr.
  destruct (decide (q = p)) as [-> |Nq], (decide (r = p)) as [-> |Nr]; [done|..].
  - rewrite lookup_insert_eq in Eq. injection Eq as <-. rewrite lookup_insert_ne in Er by done.
    exfalso. apply (D r ds a Er Hr). unfold inside in Hq. lia.
  - rewrite lookup_insert_eq in Er. injection Er as <-. rewrite lookup_insert_ne in Eq by done.
    exfalso. apply (D q cs a Eq Hq). unfold inside in Hr. lia.
  - rewrite lookup_insert_ne in Eq, Er by done. by apply (Hh q r cs ds a).
Qed.

(** The client writes [bs] at [off] bytes behind the pointer. *)
Fixpoint use (ptr : Z) (ws : list (Z * list Z)) : ST cheap unit :=
  match ws with
  | [] => mret tt
  | (off, bs) :: ws => store_at (ptr + off) bs;; use ptr ws
  end.

Definition writes_in (s : Z) (ws : list (Z * list Z)) : Prop :=
  Forall (fun w => w.2 <> [] /\ 0 <= w.1 /\ w.1 + Z.of_nat (length w.2) <= s) ws.

(** [h'] is [h] with a block [bs] of [n] bytes at [base]. *)
Definition with_block (h : cheap) (base n : Z) (bs : list Z) (h' : cheap) : Prop :=
  h' = <[base := bs]> h /\ Z.of_nat (length bs) = n /\ heap_ok h'.

Lemma store_at_run h base n bs h' a vs : with_block h base n bs h' -> base <= a -> a + Z.of_nat (length vs) <= base + n ->
  vs <> [] -> exists bs' h'', store_at a vs h' = Ret (tt, h'') /\ poke bs (Z.to_nat (a - base)) vs = Some bs' /\
    with_block h base n bs' h''.
Proof.
  intros (-> & L & Hh) Ha Hv Hn. assert (Lv : (0 < length vs)%nat) by (destruct vs; [done|cbn; lia]).
  unfold store_at. rewrite (block_of_spec _ base bs) by (done || apply lookup_insert_eq || unfold inside; lia).
  destruct (poke bs (Z.to_nat (a - base)) vs) as [bs'|] eqn:Eb; [|by rewrite poke_Some in Eb by lia].
  pose proof (poke_length _ _ _ _ Eb) as L'. exists bs'. eexists. split; [done|]. split; [done|].
  rewrite insert_insert_eq. split; [done|]. split; [lia|]. intros q r cs ds x Eq Er Hq Hr.
  apply (Hh q r (if decide (q = base) then bs else cs) (if decide (r = base) then bs else ds) x).
  - case_decide as D; [subst; apply lookup_insert_eq|]. by rewrite lookup_insert_ne in Eq |- *.
  - case_decide as D; [subst; apply lookup_insert_eq|]. by rewrite lookup_insert_ne in Er |- *.
  - case_decide as D; [|done]. subst. rewrite lookup_insert_eq in Eq. injection Eq as <-. unfold inside in *. by rewrite <- L'.
  - case_decide as D; [|done]. subst. rewrite lookup_insert_eq in Er. injection Er as <-. unfold inside in *. by rewrite <- L'.
Qed.

(** What the client writes behind the pointer leaves the bytes before it. *)
Lemma use_run h base n ptr s ws bs h' : base <= ptr -> ptr + s <= base + n -> writes_in s ws ->
  with_block h base n bs h' -> exists bs' h'', use ptr ws h' = Ret (tt, h'') /\ with_block h base n bs' h'' /\
    forall i, (i < Z.to_nat (ptr - base))%nat -> bs' !!! i = bs !!! i.
Proof.
  intros Hp Hs F. revert bs h'. induction F as [|[off vs] ws (Hn & H0 & Hl) _ IH]; intros bs h' B; [by exists bs, h'|].
  cbn [fst snd] in *. cbn [use].
  destruct (store_at_run h base n bs h' (ptr + off) vs B) as (bs1 & h1 & E & P & B1); try lia; [done|].
  destruct (IH bs1 h1 B1) as (bs2 & h2 & E2 & B2 & K). exists bs2, h2. rewrite (bind_ret _ _ _ _ _ E).
  split_and!; [done..|]. intros i Hi. rewrite K by done.
  rewrite !list_lookup_total_alt, (lookup_poke _ _ _ _ _ P), decide_False by lia. done.
Qed.

(** The byte before the pointer [ptr] has its distance to the start of the block. *)
Definition marked (h : cheap) (base n ptr : Z) (h' : cheap) : Prop :=
  exists bs, with_block h base n bs h' /\ bs !!! Z.to_nat (ptr - 1 - base) = ptr - base.

Lemma use_marked h base n ptr s ws h' : base < ptr -> ptr + s <= base + n -> writes_in s ws ->
  marked h base n ptr h' -> exists h'', use ptr ws h' = Ret (tt, h'') /\ marked h base n ptr h''.
Proof.
  intros Hp Hs F (bs & B & M). destruct (use_run h base n ptr s ws bs h' ltac:(lia) Hs F B) as (bs' & h'' & E & B' & K).
  exists h''. split; [done|]. exists bs'. split; [done|]. rewrite K by lia. done.
Qed.

Lemma alignedMalloc_run h s k (align := 2 ^ k) : heap_ok h -> 3 <= k <= 7 -> 0 < s -> s + align < 2 ^ 64 ->
  match place h (s + align) with
  | None => XXH_alignedMalloc s align h = Ret (0, h)
  | Some base => exists ptr h', XXH_alignedMalloc s align h = Ret (ptr, h') /\ ptr mod align = 0 /\
      base < ptr <= base + align /\ marked h base (s + align) ptr h'
  end.
Proof.
  intros Hh Hk Hs Hb. assert (A : 8 <= align <= 128).
  { split; [apply (Z.pow_le_mono_r 2 3 k)|apply (Z.pow_le_mono_r 2 k 7)]; lia. }
  unfold XXH_alignedMalloc. rewrite (wrap_fits 64 (s + align)) by (unfold fits; lia).
  destruct (place h (s + align)) as [base|] eqn:E.
  2: { unfold XXH_malloc, mbind, ST_bind. by rewrite E. }
  destruct (place_ok h _ base E) as (H0 & Hm & Ef & _).
  rewrite (bind_ret _ _ _ base (<[base := fresh_bytes (s + align)]> h)) by (unfold XXH_malloc; by rewrite E).
  rewrite decide_True by lia.
  replace (align - 1) with (Z.ones k) by (rewrite Z.ones_equiv; lia). rewrite Z.land_ones by lia. fold align.
  pose proof (Z.mod_pos_bound base align ltac:(lia)) as Hr. set (offset := align - base mod align).
  assert (Ho : 0 < offset <= align) by (unfold offset; lia).
  assert (B : with_block h base (s + align) (fresh_bytes (s + align)) (<[base := fresh_bytes (s + align)]> h)).
  { split; [done|]. rewrite fresh_bytes_length. split; [lia|].
    eapply place_heap_ok; [done|exact E|apply fresh_bytes_length|lia]. }
  destruct (store_at_run h base _ _ _ (base + offset - 1) [u8 offset] B) as (bs' & h1 & E1 & P & B1); try (cbn; lia); [done|].
  exists (base + offset), h1. rewrite (bind_ret _ _ _ _ _ E1). split; [done|]. split; [|split; [lia|]].
  - unfold offset. rewrite (Z.div_mod base align) at 1 by lia.
    replace (align * (base / align) + base mod align + (align - base mod align)) with ((base / align + 1) * align) by lia.
    apply Z.mod_mul. lia.
  - exists bs'. split; [done|]. rewrite list_lookup_total_alt, (lookup_poke _ _ _ _ _ P), decide_True by (cbn; lia).
    rewrite Nat.sub_diag. cbn. rewrite (wrap_fits 8 offset) by (unfold fits; lia). lia.
Qed.

Lemma alignedFree_run h base n ptr h' : h !! base = None -> 0 < base < ptr -> ptr <= base + n -> marked h base n ptr h' ->
  XXH_alignedFree ptr h' = Ret (tt, h).
Proof.
  intros Ef H0 Hp (bs & (-> & L & Hh) & M). unfold XXH_alignedFree. rewrite decide_True by lia.
  rewrite (bind_ret _ _ _ (ptr - base) (<[base := bs]> h)).
  - unfold XXH_free. rewrite decide_False by lia. replace (ptr - (ptr - base)) with base by lia.
    by rewrite lookup_insert_eq, delete_insert_id.
  - unfold load_byte. rewrite (block_of_spec _ base bs) by (done || apply lookup_insert_eq || unfold inside; lia). by rewrite M.
Qed.

(** ** A state from its creation to its end *)

Definition lifetime (create : ST cheap Z) (ws : list (Z * list Z)) (free : Z -> ST cheap XXH_errorcode) :
    ST cheap (Z * XXH_errorcode) :=
  p ← create;
  if decide (p = 0) then e ← free p; mret (0, e)
  else use p ws;; e ← free p; mret (p, e).

Lemma aligned_lifetime create h s k ws (align := 2 ^ k) : heap_ok h -> 3 <= k <= 7 -> 0 < s -> s + align < 2 ^ 64 ->
  writes_in s ws ->
  (forall base ptr h', XXH_alignedMalloc s align h = Ret (ptr, h') -> base < ptr <= base + align ->
    0 < base -> marked h base (s + align) ptr h' ->
    exists h'', create h = Ret (ptr, h'') /\ marked h base (s + align) ptr h'') ->
  (XXH_alignedMalloc s align h = Ret (0, h) -> create h = Ret (0, h)) ->
  runs (lifetime create ws XXH3_freeState) h (fun r h' => h' = h /\ r.1 mod align = 0 /\ r.2 = XXH_OK).
Proof.
  intros Hh Hk Hs Hb Hw Hc Hn. assert (A : 0 < align) by (apply Z.pow_pos_nonneg; lia).
  pose proof (alignedMalloc_run h s k Hh Hk Hs Hb) as R. fold align in R. unfold lifetime, XXH3_freeState.
  destruct (place h (s + align)) as [base|] eqn:E.
  - destruct R as (ptr & h1 & E1 & Ha & Hr & M). destruct (place_ok h _ base E) as (H0 & _ & Ef & _).
    destruct (Hc base ptr h1 E1 Hr H0 M) as (h2 & E2 & M2).
    destruct (use_marked h base (s + align) ptr s ws h2 ltac:(lia) ltac:(lia) Hw M2) as (h3 & E3 & M3).
    apply (runs_intro _ _ (ptr, XXH_OK) h); [|done].
    rewrite (bind_ret _ _ _ _ _ E2), decide_False, (bind_ret _ _ _ _ _ E3) by lia.
    erewrite bind_ret; [done|]. erewrite bind_ret; [done|].
    apply (alignedFree_run h base (s + align)); [done|lia|lia|done].
  - apply (runs_intro _ _ (0, XXH_OK) h); [|by rewrite Z.mod_0_l by lia].
    by rewrite (bind_ret _ _ _ _ _ (Hn R)), decide_True by done.
Qed.

Lemma plain_lifetime h s ws : heap_ok h -> 0 < s -> writes_in s ws ->
  runs (lifetime (XXH_malloc s) ws (fun p => XXH_free p;; mret XXH_OK)) h (fun r h' => h' = h /\ r.2 = XXH_OK).
Proof.
  intros Hh Hs Hw. unfold lifetime. destruct (place h s) as [base|] eqn:E.
  - destruct (place_ok h _ base E) as (H0 & _ & Ef & _).
    assert (B : with_block h base s (fresh_bytes s) (<[base := fresh_bytes s]> h)).
    { split; [done|]. rewrite fresh_bytes_length. split; [lia|]. eapply place_heap_ok; [done|exact E|apply fresh_bytes_length|lia]. }
    destruct (use_run h base s base s ws _ _ ltac:(lia) ltac:(lia) Hw B) as (bs & h1 & E1 & (-> & _) & _).
    apply (runs_intro _ _ (base, XXH_OK) h); [|done].
    erewrite bind_ret; [|unfold XXH_malloc; by rewrite E]. rewrite decide_False by lia. erewrite bind_ret; [|exact E1].
    erewrite bind_ret; [done|]. erewrite bind_ret; [done|]. unfold XXH_free. rewrite decide_False by lia.
    by rewrite lookup_insert_eq, delete_insert_id.
  - apply (runs_intro _ _ (0, XXH_OK) h); [|done]. erewrite bind_ret; [|unfold XXH_malloc; by rewrite E].
    by rewrite decide_True by done.
Qed.

Lemma createState_marked h base ptr h' : base < ptr <= base + 64 -> 0 < base ->
  XXH_alignedMalloc sizeof_XXH3_state 64 h = Ret (ptr, h') -> marked h base (sizeof_XXH3_state + 64) ptr h' ->
  exists h'', XXH3_createState h = Ret (ptr, h'') /\ marked h base (sizeof_XXH3_state + 64) ptr h''.
Proof.
  intros Hp H0 E M. unfold XXH3_createState. rewrite (bind_ret _ _ _ _ _ E), decide_False by lia.
  destruct (use_marked h base (sizeof_XXH3_state + 64) ptr sizeof_XXH3_state [(offset_seed, le_bytes 8 0); (offset_extSecret, le_bytes 8 0)] h'
    ltac:(lia) ltac:(lia)) as (h'' & E'' & M''); [|done|].
  { repeat constructor; cbn; done || lia. }
  exists h''. split; [|done]. cbn [use] in E''. unfold mbind, ST_bind in E'' |- *.
  destruct (store_at (ptr + offset_seed) _ h') as [[[] h1]| | |]; try done.
  destruct (store_at (ptr + offset_extSecret) _ h1) as [[[] h2]| | |]; try done. unfold mret, ST_ret in E'' |- *. by injection E'' as ->.
Qed.

(** ** Properties *)

(** A state from its creation to its end: the aligned allocation gives NULL
    or a pointer with the alignment asked for, whatever the client then
    writes into its bytes is inside the block and does not touch the mark before
    them, and the free function finds the start of the block again and leaves
    the heap as it was; so for the states of XXH3, XXH32 and XXH64, and when
    malloc fails. *)
Theorem xxh_state_memory (h : cheap) (s k : Z) (ws ws3 ws32 ws64 : list (Z * list Z)) :
  heap_ok h -> 3 <= k <= 7 -> 0 < s -> s + 2 ^ k < 2 ^ 64 -> writes_in s ws ->
  writes_in sizeof_XXH3_state ws3 -> writes_in sizeof_XXH32_state ws32 -> writes_in sizeof_XXH64_state ws64 ->
  runs (lifetime (XXH_alignedMalloc s (2 ^ k)) ws XXH3_freeState) h
    (fun r h' => h' = h /\ r.1 mod 2 ^ k = 0 /\ r.2 = XXH_OK) /\
  runs (lifetime XXH3_createState ws3 XXH3_freeState) h (fun r h' => h' = h /\ r.1 mod 64 = 0 /\ r.2 = XXH_OK) /\
  runs (lifetime XXH32_createState ws32 XXH32_freeState) h (fun r h' => h' = h /\ r.2 = XXH_OK) /\
  runs (lifetime XXH64_createState ws64 XXH64_freeState) h (fun r h' => h' = h /\ r.2 = XXH_OK).
Proof.
  intros Hh Hk Hs Hb Hw Hw3 Hw32 Hw64. split_and!.
  - apply (aligned_lifetime _ h s k); try done. intros base ptr h' E Hr H0 M. by exists h'.
  - apply (aligned_lifetime _ h sizeof_XXH3_state 6); try done.
    + intros base ptr h' E Hr H0 M. by apply (createState_marked h base ptr h').
    + intros E. unfold XXH3_createState. change (2 ^ 6) with 64 in E. by rewrite (bind_ret _ _ _ _ _ E).
  - by apply plain_lifetime.
  - by apply plain_lifetime.
Qed.

End Use.

(** A C library that puts blocks above all others, at odd addresses. *)
Definition end_of (h : cheap) : Z := map_fold (fun p bs e => Z.max (p + Z.of_nat (length bs)) e) 0 h.

Lemma end_of_above h p bs : h !! p = Some bs -> p + Z.of_nat (length bs) <= end_of h.
Proof.
  revert p bs. unfold end_of.
  refine (map_fold_weak_ind (fun e h => forall p bs, h !! p = Some bs -> p + Z.of_nat (length bs) <= e) _ _ _ _ h).
  - intros p bs. by rewrite lookup_empty.
  - intros q cs h' e Hq IH p bs. rewrite lookup_insert. case_decide as D.
    + intros [= <-]. subst. lia.
    + intros E. specialize (IH _ _ E). lia.
Qed.

Lemma end_of_nonneg h : 0 <= end_of h.
Proof.
  unfold end_of. refine (map_fold_weak_ind (fun e _ => 0 <= e) _ _ _ _ h); [done|]. intros. lia.
Qed.

#[refine, local] Instance bump : CMalloc := {|
  place := fun h n => if decide (end_of h + 5 + n <= 2 ^ 64) then Some (end_of h + 5) else None;
  fresh_bytes := fun n => replicate (Z.to_nat n) 0xA5
|}.
Proof.
  - intros n. apply length_replicate.
  - intros h n p. case_decide as D; [|done]. intros [= <-]. pose proof (end_of_nonneg h). split; [lia|]. split; [lia|]. split.
    + destruct (h !! (end_of h + 5)) as [bs|] eqn:E; [|done]. pose proof (end_of_above h _ _ E). lia.
    + intros q bs a E Ha. pose proof (end_of_above h q bs E). unfold inside in Ha. lia.
Defined.

Lemma xxh_state_memory_witness :
  runs (lifetime XXH3_createState [(0, [1; 2; 3]); (575, [9])] XXH3_freeState) {[ 5 := [7; 7] ]}
    (fun r h' => h' = {[ 5 := [7; 7] ]} /\ r.1 mod 64 = 0 /\ r.2 = XXH_OK).
Proof.
  refine (proj1 (proj2 (xxh_state_memory {[ 5 := [7; 7] ]} 100 5 [(0, replicate 100 1)] [(0, [1; 2; 3]); (575, [9])]
    [] [] _ _ _ _ _ _ _ _))).
  - intros p q bs cs a E1 E2. apply lookup_singleton_Some in E1 as [<- _], E2 as [<- _]. reflexivity.
  - lia.
  - lia.
  - lia.
  - repeat constructor; cbn; done || lia.
  - repeat constructor; cbn; done || lia.
  - constructor.
  - constructor.
Defined.
