(* ===== verification/FileCrypt.v ===== *)
(** * File encryption (src/src/file.c, src/src/file.h)

    The files are a finite map from path names to contents; a [FILE] opened
    is the contents and a position.  [encrypt_file] and
    [decrypt_file] work through the open stream block by block, as the code
    does; a path that is not in the map cannot be opened.  That a file which is
    there cannot be examined, opened or read whole is an argument ([faults]).  The key is the
    caller's buffer, an object that may be too short.  Read and write errors
    in the loops, which the code does not look at, are not modelled. *)

From Stdlib Require Import ZArith Lia.
From stdpp Require Import prelude gmap.
From S2P Require Import Prelude.
From S2P Require Import Aes.
From S2P Require Import Xxhash.

Definition AES_BLOCK_SIZE : nat := 16.
Definition MAXFILESIZE : Z := 100 * 1024 * 1024.

(** ** Streams *)

Record FILE := Stream { f_data : list Z; f_pos : nat }.

Definition fread (n : nat) (fp : FILE) : list Z * FILE :=
  let bs := take n (drop (f_pos fp) (f_data fp)) in
  (bs, Stream (f_data fp) (f_pos fp + length bs)).

(** The position is at most the size when the code writes. *)
Definition fwrite (bs : list Z) (fp : FILE) : FILE :=
  Stream (take (f_pos fp) (f_data fp) ++ bs ++ drop (f_pos fp + length bs) (f_data fp))
    (f_pos fp + length bs).

Definition fseek (off : nat) (fp : FILE) : FILE := Stream (f_data fp) off.

(** ** What the system refuses *)

(** "rb" and "rb+" *)
Inductive fmode := RB | RBplus.

(** For a file that is there: [stat] fails, [fopen] fails, the [fread] of all of it gives fewer bytes. *)
Record faults := Faults {
  no_stat : list Z -> bool;
  no_open : list Z -> fmode -> bool;
  short_read : list Z -> option nat
}.
Definition no_faults : faults := Faults (fun _ => false) (fun _ _ => false) (fun _ => None).

(** ** Data *)

Inductive kxfiletype := KXCIPHER | KXPLAIN.

(** [fname] and [fullname] are the arrays of [NAME_MAX] and [PATH_MAX] bytes. *)
Record kxfile := KxFile {
  fname : list Z;
  fullname : list Z;
  uuid : Z;
  ftype : kxfiletype
}.

Definition NAME_MAX : nat := 255.
Definition PATH_MAX : nat := 4096.
Definition sizeof_kxfile : Z := 4368.

Section FileCrypt.
Context {HP : Type} `{!Allocator HP}.

(** The configuration xxhash.h is built with, what the system refuses, the old contents of the
    uninitialised locals, and [basename] of libgen.h. *)
Variable cfg : config.
Variable io : faults.
Variable junk_ctx : AES_ctx.
Variable junk_buffer : list Z.
Variable basename : list Z -> list Z.

Record fstate := FState { fheap : HP; files : gmap (list Z) (list Z) }.

Definition on_fheap {A} (m : ST HP A) : ST fstate A := fun s =>
  match m (fheap s) with
  | Ret (a, h) => Ret (a, FState h (files s))
  | Abort => Abort
  | Undef => Undef
  | NoFuel => NoFuel
  end.

(** ** The loops *)

(** [memset(buffer + bytesRead, AES_BLOCK_SIZE - bytesRead, ...)]. *)
Definition fill_last (bs buffer : list Z) : list Z :=
  if decide (length bs < AES_BLOCK_SIZE)%nat
  then bs ++ replicate (AES_BLOCK_SIZE - length bs) (Z.of_nat (AES_BLOCK_SIZE - length bs))
  else bs ++ drop (length bs) buffer.

Fixpoint encrypt_loop (n block : nat) (ctx : AES_ctx) (buffer : list Z) (fp : FILE) : outcome FILE :=
  match n with
  | O => mret fp
  | S n' =>
      let '(bs, fp) := fread AES_BLOCK_SIZE fp in
      buffer ← AES_ECB_encrypt AES128 ctx (fill_last bs buffer);
      let fp := fseek (block * AES_BLOCK_SIZE) fp in
      let fp := fwrite (take AES_BLOCK_SIZE buffer) fp in
      encrypt_loop n' (S block) ctx buffer fp
  end.

Fixpoint decrypt_loop (n block : nat) (ctx : AES_ctx) (buffer : list Z) (fp : FILE) : outcome FILE :=
  match n with
  | O => mret fp
  | S n' =>
      let '(bs, fp) := fread AES_BLOCK_SIZE fp in
      buffer ← AES_ECB_decrypt AES128 ctx (fill_last bs buffer);
      let fp := fseek (block * AES_BLOCK_SIZE) fp in
      let fp := fwrite (take AES_BLOCK_SIZE buffer) fp in
      decrypt_loop n' (S block) ctx buffer fp
  end.

Definition numBlocks (fileSize : nat) : nat := ((fileSize + AES_BLOCK_SIZE - 1) / AES_BLOCK_SIZE)%nat.

Definition lift {S A} (m : outcome A) : ST S A := fun s => a ← m; Ret (a, s).

(** [st.st_size], or a failure. *)
Definition stat (path : list Z) : ST fstate (option Z) :=
  gets (fun s => if no_stat io path then None else (fun d => Z.of_nat (length d)) <$> files s !! path).

Definition fopen (path : list Z) (m : fmode) : ST fstate (option FILE) :=
  gets (fun s => if no_open io path m then None else (fun d => Stream d 0) <$> files s !! path).

Definition encrypt_file (filename key : list Z) : ST fstate Z :=
  fp ← fopen filename RBplus;
  match fp with
  | None => mret (-1)
  | Some fp =>
      let fileSize := length (f_data fp) in
      ctx ← lift (AES_init_ctx AES128 junk_ctx key);
      fp ← lift (encrypt_loop (numBlocks fileSize) 0 ctx junk_buffer fp);
      modify (fun s => FState (fheap s) (<[filename := f_data fp]> (files s)));;
      mret 0
  end.

Definition decrypt_file (filename key : list Z) : ST fstate Z :=
  fp ← fopen filename RBplus;
  match fp with
  | None => mret (-1)
  | Some fp =>
      let fileSize := length (f_data fp) in
      ctx ← lift (AES_init_ctx AES128 junk_ctx key);
      fp ← lift (decrypt_loop (numBlocks fileSize) 0 ctx junk_buffer fp);
      modify (fun s => FState (fheap s) (<[filename := f_data fp]> (files s)));;
      mret 0
  end.

(** The address of the buffer only matters for the alignment check of XXH64; when fewer bytes come the
    buffer stays allocated. *)
Definition calculate_xxhash (file_path : list Z) : ST fstate Z :=
  fp ← fopen file_path RB;
  match fp with
  | None => mret 0
  | Some fp =>
      let file_size := length (f_data fp) in
      buffer ← on_fheap (a_alloc (Z.of_nat file_size));
      if decide (buffer = 0) then mret 0 else
      let '(bs, _) := fread (Nat.min file_size (default file_size (short_read io file_path))) fp in
      if decide (length bs <> file_size) then mret 0 else
      let hash := XXH64 cfg buffer bs 0 in
      on_fheap (a_free buffer);;
      mret hash
  end.

(** [user_key] is [client.user->key]: [None] when no user is logged in. *)
Definition kx_crypt_file (user_key : option (list Z)) (path : list Z) : ST fstate (option (Z * kxfile)) :=
  st ← stat path;
  match st with
  | None => mret None
  | Some st_size =>
      if decide (MAXFILESIZE < st_size) then mret None else
      kf ← on_fheap (a_alloc sizeof_kxfile);
      if decide (kf = 0) then mret None else
      key ← lift (of_option user_key);
      r ← encrypt_file path key;
      if decide (r = -1) then on_fheap (a_free kf);; mret None else
      id ← calculate_xxhash path;
      if decide (id = 0) then on_fheap (a_free kf);; mret None else
      mret (Some (kf, KxFile (strncpy (basename path) NAME_MAX) (strncpy path PATH_MAX) id KXCIPHER))
  end.

Definition kx_decrypt_file (path key : list Z) : ST fstate Z := decrypt_file path key.

Definition kx_free_file (kf : Z) : ST fstate unit := on_fheap (a_free kf).

Definition kx_get_file_uuid (path : list Z) : ST fstate Z := calculate_xxhash path.

End FileCrypt.

(** ** What the loops compute *)

(** The padding the code applies: none when the length is a multiple of 16. *)
Definition pad (d : list Z) : list Z :=
  let r := (length d mod 16)%nat in
  if decide (r = 0)%nat then d else d ++ replicate (16 - r) (Z.of_nat (16 - r)).

(** A block function on the first [n] blocks. *)
Fixpoint ecb (E : list Z -> list Z) (n : nat) (d : list Z) : list Z :=
  match n with
  | O => []
  | S n' => E (take 16 d) ++ ecb E n' (drop 16 d)
  end.

Lemma numBlocks_le n : (0 < n <= 16)%nat -> numBlocks n = 1%nat.
Proof.
  intros H. unfold numBlocks, AES_BLOCK_SIZE. symmetry. apply (Nat.div_unique _ 16 1 (n - 1)); lia.
Qed.

Lemma numBlocks_add n : numBlocks (16 + n) = S (numBlocks n).
Proof.
  unfold numBlocks, AES_BLOCK_SIZE. replace (16 + n + 16 - 1)%nat with (1 * 16 + (n + 16 - 1))%nat by lia.
  rewrite Nat.div_add_l by lia. lia.
Qed.

Lemma pad_length d : length (pad d) = (16 * numBlocks (length d))%nat.
Proof.
  unfold pad, numBlocks, AES_BLOCK_SIZE. pose proof (Nat.div_mod_eq (length d) 16) as E.
  pose proof (Nat.mod_upper_bound (length d) 16 ltac:(lia)).
  set (q := (length d / 16)%nat) in *. set (r := (length d mod 16)%nat) in *. case_decide as Hr.
  - rewrite <- (Nat.div_unique (length d + 16 - 1) 16 q 15) by lia. lia.
  - rewrite length_app, length_replicate.
    rewrite <- (Nat.div_unique (length d + 16 - 1) 16 (S q) (r - 1)) by lia. lia.
Qed.

Lemma pad_app b d : length b = 16%nat -> pad (b ++ d) = b ++ pad d.
Proof.
  intros L. unfold pad. rewrite length_app, L.
  replace (16 + length d)%nat with (length d + 1 * 16)%nat by lia. rewrite Nat.Div0.mod_add.
  case_decide; [done|]. by rewrite app_assoc.
Qed.

Lemma pad_short d : (0 < length d < 16)%nat ->
  pad d = d ++ replicate (16 - length d) (Z.of_nat (16 - length d)).
Proof. intros H. unfold pad. rewrite Nat.mod_small by lia. rewrite decide_False by lia. done. Qed.

Lemma pad_bytes d : bytes d -> bytes (pad d).
Proof.
  intros H. unfold pad. case_decide; [done|]. apply Forall_app. split; [done|].
  apply Forall_replicate. pose proof (Nat.mod_upper_bound (length d) 16 ltac:(lia)).
  unfold fits. lia.
Qed.

Lemma pad_id d : pad d = d <-> (length d mod 16 = 0)%nat.
Proof.
  unfold pad. case_decide as H; [done|]. split; [|done]. intros E.
  apply (f_equal length) in E. rewrite length_app, length_replicate in E.
  pose proof (Nat.mod_upper_bound (length d) 16 ltac:(lia)). lia.
Qed.

Lemma ecb_length E n d : (forall b, length b = 16%nat -> length (E b) = 16%nat) ->
  (16 * n <= length d)%nat -> length (ecb E n d) = (16 * n)%nat.
Proof.
  intros H. revert d. induction n as [|n IH]; intros d L; [done|]. cbn [ecb].
  rewrite length_app, H, IH by (rewrite ?length_take, ?length_drop; lia). lia.
Qed.

(** The two loops differ in the block function only. *)
Fixpoint crypt_loop (op : list Z -> outcome (list Z)) (n block : nat) (buffer : list Z) (fp : FILE) :
    outcome FILE :=
  match n with
  | O => mret fp
  | S n' =>
      let '(bs, fp) := fread AES_BLOCK_SIZE fp in
      buffer ← op (fill_last bs buffer);
      let fp := fwrite (take AES_BLOCK_SIZE buffer) (fseek (block * AES_BLOCK_SIZE) fp) in
      crypt_loop op n' (S block) buffer fp
  end.

Lemma encrypt_loop_eq n block ctx buffer fp :
  encrypt_loop n block ctx buffer fp = crypt_loop (AES_ECB_encrypt AES128 ctx) n block buffer fp.
Proof.
  revert block buffer fp. induction n as [|n IH]; intros block buffer fp; [done|].
  cbn [encrypt_loop crypt_loop]. destruct (fread _ fp) as [bs fp'].
  destruct (AES_ECB_encrypt _ _ _); simpl; [apply IH|done..].
Qed.

Lemma decrypt_loop_eq n block ctx buffer fp :
  decrypt_loop n block ctx buffer fp = crypt_loop (AES_ECB_decrypt AES128 ctx) n block buffer fp.
Proof.
  revert block buffer fp. induction n as [|n IH]; intros block buffer fp; [done|].
  cbn [decrypt_loop crypt_loop]. destruct (fread _ fp) as [bs fp'].
  destruct (AES_ECB_decrypt _ _ _); simpl; [apply IH|done..].
Qed.

Section Loop.
Variable op : list Z -> outcome (list Z).
Variable E : list Z -> list Z.
Hypothesis op_spec : forall b r, is_block b -> op (b ++ r) = Ret (E b ++ r).
Hypothesis E_length : forall b, is_block b -> length (E b) = 16%nat.

Lemma take_block d : (16 <= length d)%nat -> bytes d -> is_block (take 16 d).
Proof. intros L B. split; [rewrite length_take; unfold AES_BLOCKLEN; lia | by apply Forall_take]. Qed.

(** The last block, filled up with zeros. *)
Lemma last_block_run pre rest block buffer :
  length pre = (16 * block)%nat -> bytes rest -> (0 < length rest < 16)%nat ->
  exists pos, crypt_loop op 1 block buffer (Stream (pre ++ rest) (16 * block)) = Ret (Stream (pre ++ ecb E 1 (pad rest)) pos).
Proof.
  intros Lp B Hp. cbn [crypt_loop fread f_data f_pos]. rewrite drop_app_length' by done.
  unfold AES_BLOCK_SIZE, fill_last. rewrite take_ge by lia.
  rewrite decide_True by (unfold AES_BLOCK_SIZE; lia). unfold AES_BLOCK_SIZE.
  rewrite <- pad_short by lia.
  assert (Lpad : length (pad rest) = 16%nat) by (rewrite pad_length, numBlocks_le; lia).
  assert (Hb : is_block (pad rest)) by (split; [done | by apply pad_bytes]).
  assert (Eop : op (pad rest) = Ret (E (pad rest)))
    by (pose proof (op_spec (pad rest) [] Hb) as Q; by rewrite !app_nil_r in Q).
  rewrite Eop. cbn [mbind outcome_bind].
  rewrite take_ge by (rewrite E_length by done; lia).
  unfold fwrite, fseek. cbn [f_data f_pos crypt_loop ecb]. rewrite E_length by done.
  rewrite (Nat.mul_comm block 16), take_app_length' by done.
  rewrite (drop_ge (pre ++ rest)) by (rewrite length_app; lia).
  rewrite app_nil_r, (take_ge (pad rest)) by lia. rewrite app_nil_r. by eexists.
Qed.

(** After [block] blocks the stream holds them encrypted, then the rest. *)
Lemma crypt_loop_spec pre rest block buffer :
  length pre = (16 * block)%nat -> bytes rest ->
  exists pos, crypt_loop op (numBlocks (length rest)) block buffer (Stream (pre ++ rest) (16 * block)) =
    Ret (Stream (pre ++ ecb E (numBlocks (length rest)) (pad rest)) pos).
Proof.
  remember (numBlocks (length rest)) as n eqn:En. revert pre rest block buffer En.
  induction n as [|n IH]; intros pre rest block buffer En Lp B.
  - assert (rest = []) as ->.
    { destruct rest as [|x rest]; [done|]. exfalso. simpl in En.
      destruct (decide (length rest < 16)%nat).
      - rewrite numBlocks_le in En by lia. done.
      - replace (S (length rest)) with (16 + (S (length rest) - 16))%nat in En by lia.
        rewrite numBlocks_add in En. done. }
    exists (16 * block)%nat. done.
  - destruct (decide (16 <= length rest)%nat) as [Hl | Hl].
    + cbn [crypt_loop fread f_data f_pos]. rewrite drop_app_length' by done.
      assert (Hb : is_block (take 16 rest)) by by apply take_block.
      assert (Lt : length (take 16 rest) = 16%nat) by apply Hb.
      unfold AES_BLOCK_SIZE, fill_last. rewrite Lt, decide_False by (unfold AES_BLOCK_SIZE; lia).
      rewrite op_spec by done. cbn [mbind outcome_bind].
      rewrite take_app_length' by (symmetry; by apply E_length).
      unfold fwrite, fseek. cbn [f_data f_pos]. rewrite E_length by done.
      rewrite (Nat.mul_comm block 16), take_app_length' by done.
      rewrite drop_app_ge, Lp by lia. replace (16 * block + 16 - 16 * block)%nat with 16%nat by lia.
      assert (Er : pad rest = take 16 rest ++ pad (drop 16 rest))
        by (rewrite <- pad_app, take_drop; done).
      assert (Em : n = numBlocks (length (drop 16 rest))).
      { rewrite length_drop. replace (length rest) with (16 + (length rest - 16))%nat in En by lia.
        rewrite numBlocks_add in En. lia. }
      destruct (IH (pre ++ E (take 16 rest)) (drop 16 rest) (S block) (E (take 16 rest) ++ drop 16 buffer) Em)
        as (pos & Ep); [rewrite length_app, Lp, E_length by done; lia | by apply Forall_drop|].
      exists pos. replace (16 * block + 16)%nat with (16 * S block)%nat by lia.
      rewrite !app_assoc in *. rewrite Ep. cbn [ecb]. rewrite Er.
      rewrite take_app_length', drop_app_length' by done. by rewrite app_assoc.
    + assert (Hp : (0 < length rest)%nat) by (destruct rest; [done|simpl; lia]).
      rewrite numBlocks_le in En by lia. injection En as ->. apply last_block_run; [done|done|lia].
Qed.

End Loop.

Lemma ecb_cancel E D n d :
  (forall b, is_block b -> is_block (E b) /\ D (E b) = b) -> bytes d -> length d = (16 * n)%nat ->
  ecb D n (ecb E n d) = d /\ bytes (ecb E n d).
Proof.
  intros H. revert d. induction n as [|n IH]; intros d B L.
  - split; [|constructor]. destruct d; done.
  - cbn [ecb]. destruct (H (take 16 d)) as [[Lb Bb] Ed]; [apply take_block; [lia|done]|].
    rewrite take_app_length', drop_app_length' by done. rewrite Ed.
    destruct (IH (drop 16 d)) as [-> Be]; [by apply Forall_drop | rewrite length_drop; lia|].
    split; [apply take_drop | by apply Forall_app].
Qed.

(** ** The operations *)

(** The XXH64 of contents: the same for every build and address. *)
Definition file_hash (d : list Z) : Z := XXH64 default_config 0 d 0.

Lemma file_hash_eq cfg a d : bytes d -> Z.of_nat (length d) < 2 ^ 64 -> XXH64 cfg a d 0 = file_hash d.
Proof. intros B L. by destruct (xxh_config_independent cfg default_config a 0 0 d [] B L) as (_ & _ & -> & _). Qed.

(** Fewer bytes than the file has. *)
Definition reads_short (io : faults) (f d : list Z) : Prop := exists n, short_read io f = Some n /\ (n < length d)%nat.
#[export] Instance reads_short_dec io f d : Decision (reads_short io f d).
Proof.
  unfold reads_short. destruct (short_read io f) as [n|]; [|right; by intros (n & ? & _)].
  destruct (decide (n < length d)%nat) as [H|H]; [left; by exists n|right; by intros (m & [= <-] & ?)].
Defined.

Lemma read_length io f d : length (take (Nat.min (length d) (default (length d) (short_read io f))) d) <> length d <-> reads_short io f d.
Proof.
  rewrite length_take. unfold reads_short. destruct (short_read io f) as [n|]; cbn; split; try lia.
  - intros H. exists n. split; [done|lia].
  - intros (m & [= <-] & H). lia.
  - by intros (m & ? & _).
Qed.

(** [calculate_xxhash] of a file that opens, in every case. *)
Lemma calculate_xxhash_run `{!Allocator HP} cfg io f d (s : fstate (HP := HP)) p h :
  no_open io f RB = false -> files s !! f = Some d -> bytes d -> Z.of_nat (length d) < 2 ^ 64 ->
  a_alloc (Z.of_nat (length d)) (fheap s) = Ret (p, h) ->
  exists h', let short := reads_short io f d in
    calculate_xxhash cfg io f s = Ret (if decide (p = 0 \/ short) then 0 else file_hash d, FState h' (files s)) /\
    a_live h' = if decide (p <> 0 /\ short) then {[p]} ∪ a_live (fheap s) else a_live (fheap s).
Proof.
  intros Op F B L AL. unfold calculate_xxhash, fopen, mbind, ST_bind, gets. rewrite Op, F. cbn [fmap option_fmap option_map f_data].
  unfold on_fheap at 1. rewrite AL. destruct (decide (p = 0)) as [-> |Hp].
  - exists h. rewrite (decide_True (P := 0 = 0 \/ _)) by tauto. rewrite decide_False by tauto. split; [done|]. by eapply a_alloc_null.
  - cbn [fread f_data f_pos]. rewrite drop_0. destruct (a_alloc_fresh _ _ _ _ AL Hp) as [Fr Lv].
    destruct (decide (reads_short io f d)) as [Hs|Hs].
    + exists h. rewrite decide_True by (by apply read_length). rewrite decide_True by tauto. by rewrite decide_True by tauto.
    + rewrite decide_False by (by rewrite read_length). rewrite decide_False by tauto. rewrite decide_False by tauto.
      assert (E : take (Nat.min (length d) (default (length d) (short_read io f))) d = d).
      { apply take_ge. assert (N : ~ length (take (Nat.min (length d) (default (length d) (short_read io f))) d) <> length d) by (by rewrite read_length).
        rewrite length_take in N. lia. }
      rewrite E. destruct (a_free_live p h) as (h' & Fe & Lv'); [set_solver | done|].
      exists h'. unfold on_fheap. cbn [fheap]. rewrite Fe. rewrite (file_hash_eq cfg p d B L). split; [done|]. rewrite Lv', Lv. set_solver.
Qed.

Section Operations.
Context {HP : Type} `{!Allocator HP}.
Variable cfg : config.
Variable io : faults.
Variable junk_ctx : AES_ctx.
Variable junk_buffer : list Z.
Variable basename : list Z -> list Z.
Hypothesis junk_ctx_size : length (RoundKey junk_ctx) = AES_keyExpSize AES128.

Abbreviation fstate := (fstate (HP := HP)).

Variable key : list Z.
Hypothesis key_bytes : bytes key.
Hypothesis key_long : (16 <= length key)%nat.

Abbreviation E := (fips_cipher AES128 key).

Lemma init_ctx_facts : exists ctx, AES_init_ctx AES128 junk_ctx key = Ret ctx /\
  bytes (RoundKey ctx) /\ forall b, is_block b -> Cipher AES128 b (RoundKey ctx) = E b.
Proof.
  unfold AES_init_ctx. rewrite decide_True by done. eexists. split; [reflexivity|]. cbn [RoundKey].
  split; [exact (KeyExpansion_bytes AES128 key key_long key_bytes _ junk_ctx_size)|].
  intros b Hb. exact (Cipher_fips AES128 key key_long key_bytes _ b junk_ctx_size Hb).
Qed.

Variable the_ctx : AES_ctx.
Hypothesis init_ctx : AES_init_ctx AES128 junk_ctx key = Ret the_ctx.
Hypothesis the_ctx_bytes : bytes (RoundKey the_ctx).
Hypothesis E_cipher : forall b, is_block b -> Cipher AES128 b (RoundKey the_ctx) = E b.

Abbreviation D := (fun b => InvCipher AES128 b (RoundKey the_ctx)).

Lemma E_block b : is_block b -> is_block (E b).
Proof. intros Hb. rewrite <- E_cipher by done. apply Cipher_block; done. Qed.

Lemma D_block b : is_block b -> is_block (D b).
Proof. intros Hb. apply InvCipher_block; done. Qed.

Lemma op_encrypt b r : is_block b -> AES_ECB_encrypt AES128 the_ctx (b ++ r) = Ret (E b ++ r).
Proof.
  intros Hb. rewrite <- E_cipher by done.
  exact (on_block_head (fun b => Cipher AES128 b (RoundKey the_ctx)) b r
    (block_length _ Hb) (block_length _ (Cipher_block _ the_ctx_bytes AES128 b Hb))).
Qed.

Lemma op_decrypt b r : is_block b -> AES_ECB_decrypt AES128 the_ctx (b ++ r) = Ret (D b ++ r).
Proof.
  intros Hb.
  exact (on_block_head (fun b => InvCipher AES128 b (RoundKey the_ctx)) b r
    (block_length _ Hb) (block_length _ (InvCipher_block _ the_ctx_bytes AES128 b Hb))).
Qed.

(** The contents after encryption and after decryption. *)
Definition encrypted (d : list Z) : list Z := ecb E (numBlocks (length d)) (pad d).
Definition decrypted (d : list Z) : list Z := ecb D (numBlocks (length d)) (pad d).

Lemma encrypt_file_run f d (s : fstate) :
  no_open io f RBplus = false -> files s !! f = Some d -> bytes d ->
  encrypt_file io junk_ctx junk_buffer f key s =
    Ret (0, FState (fheap s) (<[f := encrypted d]> (files s))).
Proof.
  intros Op F B. unfold encrypt_file, fopen, mbind, ST_bind, gets. rewrite Op, F. cbn [fmap option_fmap option_map f_data]. unfold lift. rewrite init_ctx.
  cbn [mbind outcome_bind]. rewrite encrypt_loop_eq.
  destruct (crypt_loop_spec _ E op_encrypt (fun b H => block_length _ (E_block b H)) [] d 0 junk_buffer
    eq_refl B) as (pos & Ep).
  change (16 * 0)%nat with O in Ep. cbn [app] in Ep. rewrite Ep. done.
Qed.

Lemma decrypt_file_run f d (s : fstate) :
  no_open io f RBplus = false -> files s !! f = Some d -> bytes d ->
  decrypt_file io junk_ctx junk_buffer f key s =
    Ret (0, FState (fheap s) (<[f := decrypted d]> (files s))).
Proof.
  intros Op F B. unfold decrypt_file, fopen, mbind, ST_bind, gets. rewrite Op, F. cbn [fmap option_fmap option_map f_data]. unfold lift. rewrite init_ctx.
  cbn [mbind outcome_bind]. rewrite decrypt_loop_eq.
  destruct (crypt_loop_spec _ D op_decrypt (fun b H => block_length _ (D_block b H)) [] d 0 junk_buffer
    eq_refl B) as (pos & Ep).
  change (16 * 0)%nat with O in Ep. cbn [app] in Ep. rewrite Ep. done.
Qed.

Lemma encrypted_facts d : bytes d ->
  bytes (encrypted d) /\ length (encrypted d) = (16 * numBlocks (length d))%nat /\
  decrypted (encrypted d) = pad d.
Proof using the_ctx_bytes E_cipher.
  clear init_ctx key_long junk_ctx_size.
  intros B. destruct (ecb_cancel E D (numBlocks (length d)) (pad d)) as [C Be].
  - intros b Hb. split; [by apply E_block|]. rewrite <- E_cipher by done.
    by apply InvCipher_Cipher.
  - by apply pad_bytes.
  - apply pad_length.
  - assert (L : length (encrypted d) = (16 * numBlocks (length d))%nat).
    { assert (G : forall n x, bytes x -> length x = (16 * n)%nat -> length (ecb E n x) = (16 * n)%nat).
      { induction n as [|n IH]; intros x Bx Lx; [done|]. cbn [ecb].
        rewrite length_app, IH by (try apply Forall_drop; rewrite ?length_drop; done || lia).
        rewrite (block_length _ (E_block _ (take_block x ltac:(lia) Bx))). unfold AES_BLOCKLEN. lia. }
      apply G; [by apply pad_bytes | apply pad_length]. }
    split; [done|]. split; [done|]. unfold decrypted.
    assert (M : (length (encrypted d) mod 16 = 0)%nat).
    { rewrite L, Nat.mul_comm. apply Nat.Div0.mod_mul. }
    apply pad_id in M. rewrite M. pose proof (pad_length (encrypted d)) as P. rewrite M, L in P.
    rewrite L. replace (numBlocks (16 * numBlocks (length d))) with (numBlocks (length d)) by lia.
    exact C.
Qed.

End Operations.

(** ** Properties *)

(** C15: encryption and decryption of a file: [encrypt_file] replaces the
    contents by the AES-128 ECB encryption of the padded contents, whatever
    the uninitialised locals hold, and [decrypt_file] with the same key then
    gives the padded contents, that is the original exactly when its length
    is a multiple of 16; otherwise the 1 to 15 padding bytes stay in the file.
    Decryption is the inverse on every padded length.  A file that is missing or
    cannot be opened gives -1 and changes nothing; a key of less than 16 bytes is read past its
    end. *)
Theorem file_crypt_roundtrip {HP : Type} (io : faults) (ctx0 : AES_ctx) (buffer0 : list Z)
    (key f : list Z) (s : fstate (HP := HP)) :
  length (RoundKey ctx0) = AES_keyExpSize AES128 -> bytes key ->
  match (if no_open io f RBplus then None else files s !! f) with
  | None => encrypt_file io ctx0 buffer0 f key s = Ret (-1, s) /\
            decrypt_file io ctx0 buffer0 f key s = Ret (-1, s)
  | Some d => bytes d ->
      if decide (length key < 16)%nat
      then encrypt_file io ctx0 buffer0 f key s = Undef /\ decrypt_file io ctx0 buffer0 f key s = Undef
      else exists e s1 s2,
        e = ecb (fips_cipher AES128 key) (numBlocks (length d)) (pad d) /\
        encrypt_file io ctx0 buffer0 f key s = Ret (0, s1) /\ s1 = FState (fheap s) (<[f := e]> (files s)) /\
        decrypt_file io ctx0 buffer0 f key s1 = Ret (0, s2) /\
        s2 = FState (fheap s) (<[f := pad d]> (files s)) /\
        (pad d = d <-> (length d mod 16 = 0)%nat)
  end.
Proof.
  intros Hc Hk. destruct (no_open io f RBplus) eqn:Op.
  { unfold encrypt_file, decrypt_file, fopen, mbind, ST_bind, gets. rewrite Op. done. }
  destruct (files s !! f) as [d|] eqn:F.
  - intros B. case_decide as L.
    + unfold encrypt_file, decrypt_file, fopen, mbind, ST_bind, gets. rewrite Op, F. cbn [fmap option_fmap option_map f_data].
      unfold lift, AES_init_ctx. rewrite decide_False by (simpl; lia). done.
    + assert (L' : (16 <= length key)%nat) by lia.
      destruct (init_ctx_facts ctx0 Hc key Hk L') as (c & Ic & Bc & Ecc).
      destruct (encrypted_facts key c Bc Ecc d B) as (Be & Le & Ed).
      eexists _, _, _. split; [reflexivity|].
      split; [by apply (encrypt_file_run io ctx0 buffer0 key c Ic Bc Ecc f d s)|]. split; [reflexivity|].
      split.
      { apply (decrypt_file_run io ctx0 buffer0 key c Ic Bc f (encrypted key d)); [done| |done].
        simpl. by rewrite lookup_insert_eq. }
      split; [|apply pad_id]. simpl. rewrite insert_insert_eq. by rewrite Ed.
  - unfold encrypt_file, decrypt_file, fopen, mbind, ST_bind, gets. rewrite Op, F. done.
Qed.

(** Decrypting what encryption wrote. *)
Lemma decrypt_back {HP : Type} (io : faults) (ctx0 : AES_ctx) (buffer0 key f d : list Z) (s : fstate (HP := HP)) :
  length (RoundKey ctx0) = AES_keyExpSize AES128 -> bytes key -> (16 <= length key)%nat -> bytes d -> no_open io f RBplus = false ->
  files s !! f = Some (ecb (fips_cipher AES128 key) (numBlocks (length d)) (pad d)) ->
  decrypt_file io ctx0 buffer0 f key s = Ret (0, FState (fheap s) (<[f := pad d]> (files s))).
Proof.
  intros Hc Hk L B Op F. destruct (init_ctx_facts ctx0 Hc key Hk L) as (c & Ic & Bc & Ecc).
  destruct (encrypted_facts key c Bc Ecc d B) as (Be & _ & Ed).
  rewrite (decrypt_file_run io ctx0 buffer0 key c Ic Bc f (encrypted key d)) by done. by rewrite Ed.
Qed.

(** A store with one file of 20 bytes, and an allocator that never fails. *)
Definition fsample : fstate (HP := gset Z) := FState ∅ {[ [97] := replicate 20 65 ]}.

Lemma file_crypt_roundtrip_witness :
  exists s1 s2, encrypt_file no_faults Aes.ctx0 [] [97] key128 fsample = Ret (0, s1) /\
    decrypt_file no_faults Aes.ctx0 [] [97] key128 s1 = Ret (0, s2) /\
    files s2 !! [97] = Some (replicate 20 65 ++ replicate 12 12).
Proof.
  assert (B1 : bytes key128) by (apply (bool_decide_unpack _); vm_compute; exact I).
  assert (B2 : bytes (replicate 20 65)) by (apply (bool_decide_unpack _); vm_compute; exact I).
  destruct (file_crypt_roundtrip no_faults Aes.ctx0 [] key128 [97] fsample eq_refl B1 B2)
    as (e & s1 & s2 & _ & E1 & _ & E2 & E3 & _).
  exists s1, s2. split; [exact E1|]. split; [exact E2|]. rewrite E3. vm_compute. reflexivity.
Defined.

(** The record of the encrypted contents [e]. *)
Definition crypt_record (basename : list Z -> list Z) (path e : list Z) : kxfile :=
  KxFile (strncpy (basename path) NAME_MAX) (strncpy path PATH_MAX) (file_hash e) KXCIPHER.

(** What becomes of a file [d] that can be examined, in the order of the code: the result, the
    contents, and the blocks that are live. *)
Inductive crypted `{!Allocator HP} (io : faults) (basename : list Z -> list Z) (path d e : list Z) (s : fstate (HP := HP)) :
    option (Z * kxfile) -> fstate (HP := HP) -> Prop :=
  | Too_large s' : MAXFILESIZE < Z.of_nat (length d) -> s' = s -> crypted io basename path d e s None s'
  | No_block h s' : Z.of_nat (length d) <= MAXFILESIZE -> a_alloc sizeof_kxfile (fheap s) = Ret (0, h) ->
      a_live (fheap s') = a_live (fheap s) -> files s' = files s -> crypted io basename path d e s None s'
  | Not_opened kf h s' : Z.of_nat (length d) <= MAXFILESIZE -> a_alloc sizeof_kxfile (fheap s) = Ret (kf, h) -> kf <> 0 ->
      no_open io path RBplus = true ->
      a_live (fheap s') = a_live (fheap s) -> files s' = files s -> crypted io basename path d e s None s'
  | Not_reopened kf h s' : Z.of_nat (length d) <= MAXFILESIZE -> a_alloc sizeof_kxfile (fheap s) = Ret (kf, h) -> kf <> 0 ->
      no_open io path RBplus = false -> no_open io path RB = true ->
      a_live (fheap s') = a_live (fheap s) -> files s' = <[path := e]> (files s) -> crypted io basename path d e s None s'
  | Hashed kf h p h' r s' : Z.of_nat (length d) <= MAXFILESIZE -> a_alloc sizeof_kxfile (fheap s) = Ret (kf, h) -> kf <> 0 ->
      no_open io path RBplus = false -> no_open io path RB = false -> a_alloc (Z.of_nat (length e)) h = Ret (p, h') ->
      files s' = <[path := e]> (files s) ->
      (if decide (p = 0 \/ file_hash e = 0 /\ ~ reads_short io path e) then r = None /\ a_live (fheap s') = a_live (fheap s)
       else if decide (reads_short io path e) then r = None /\ a_live (fheap s') = {[p]} ∪ a_live (fheap s) /\ (p ∉ a_live (fheap s))
       else r = Some (kf, crypt_record basename path e) /\ a_live (fheap s') = {[kf]} ∪ a_live (fheap s) /\ (kf ∉ a_live (fheap s))) ->
      crypted io basename path d e s r s'.

Lemma free_run `{!Allocator HP} (p : Z) (h : HP) (X : gset Z) fs : p <> 0 -> (p ∉ X) -> a_live h = {[p]} ∪ X ->
  exists h', on_fheap (a_free p) (FState h fs) = Ret (tt, FState h' fs) /\ a_live h' = X.
Proof.
  intros Hp N L. destruct (a_free_live p h) as (h' & F & L'); [set_solver|done|]. exists h'. unfold on_fheap. cbn [fheap]. rewrite F.
  split; [done|]. rewrite L', L. set_solver.
Qed.

Lemma encrypt_not_opened {HP : Type} io ctx0 buffer0 f key (s : fstate (HP := HP)) :
  no_open io f RBplus = true -> encrypt_file io ctx0 buffer0 f key s = Ret (-1, s).
Proof. intros O1. unfold encrypt_file, fopen, mbind, ST_bind, gets. by rewrite O1. Qed.

Lemma hash_not_opened `{!Allocator HP} cfg io f (s : fstate (HP := HP)) :
  no_open io f RB = true -> calculate_xxhash cfg io f s = Ret (0, s).
Proof. intros O1. unfold calculate_xxhash, fopen, mbind, ST_bind, gets. by rewrite O1. Qed.

Section Crypt.
Context {HP : Type} `{!Allocator HP}.
Variable cfg : config.
Variable io : faults.
Variable ctx0 : AES_ctx.
Variable buffer0 : list Z.
Variable basename : list Z -> list Z.
Hypothesis alloc_returns : forall n (h : HP), exists p h', a_alloc n h = Ret (p, h').
Hypothesis ctx0_size : length (RoundKey ctx0) = AES_keyExpSize AES128.

Lemma crypt_file_runs key path (s : fstate (HP := HP)) :
  bytes key -> (16 <= length key)%nat -> map_Forall (fun _ d => bytes d) (files s) ->
  match (if no_stat io path then None else files s !! path) with
  | None => kx_crypt_file cfg io ctx0 buffer0 basename (Some key) path s = Ret (None, s)
  | Some d => exists r s', kx_crypt_file cfg io ctx0 buffer0 basename (Some key) path s = Ret (r, s') /\
      crypted io basename path d (ecb (fips_cipher AES128 key) (numBlocks (length d)) (pad d)) s r s'
  end.
Proof using alloc_returns ctx0_size.
  intros Hk L B. unfold kx_crypt_file, stat, mbind, ST_bind, gets.
  destruct (no_stat io path); [done|]. destruct (files s !! path) as [d|] eqn:F; [|done]. cbn [fmap option_fmap option_map].
  case_decide as Hm; [eexists _, _; split; [done|by apply Too_large]|]. assert (Hd : Z.of_nat (length d) <= MAXFILESIZE) by lia.
  destruct (alloc_returns sizeof_kxfile (fheap s)) as (kf & h & AL). unfold on_fheap at 1. rewrite AL.
  case_decide as Hkf.
  { subst kf. eexists _, _. split; [reflexivity|]. eapply No_block; [done|exact AL|by eapply a_alloc_null|done]. }
  destruct (a_alloc_fresh _ _ _ _ AL Hkf) as [Fr Lv]. unfold lift at 1. cbn [of_option mbind outcome_bind].
  assert (Bd : bytes d) by exact (B path d F). set (e := ecb _ _ _).
  destruct (no_open io path RBplus) eqn:O1.
  { rewrite (encrypt_not_opened io ctx0 buffer0 path key _ O1), decide_True by done.
    destruct (free_run kf h (a_live (fheap s)) (files s) Hkf Fr Lv) as (h' & E & L'). rewrite E.
    eexists _, _. split; [reflexivity|]. by eapply Not_opened. }
  destruct (init_ctx_facts ctx0 ctx0_size key Hk L) as (c & Ic & Bc & Ecc).
  destruct (encrypted_facts key c Bc Ecc d Bd) as (Be & Le & _).
  rewrite (encrypt_file_run io ctx0 buffer0 key c Ic Bc Ecc path d) by done. cbn [fheap files].
  rewrite decide_False by done. fold (encrypted key d). fold (encrypted key d) in e. fold e in Be. set (s1 := FState h (<[path := encrypted key d]> (files s))).
  assert (F1 : files s1 !! path = Some e) by apply lookup_insert_eq.
  destruct (no_open io path RB) eqn:O2.
  { rewrite (hash_not_opened cfg io path s1 O2), decide_True by done. unfold s1.
    destruct (free_run kf h (a_live (fheap s)) (<[path := encrypted key d]> (files s)) Hkf Fr Lv) as (h' & E & L'). rewrite E.
    eexists _, _. split; [reflexivity|]. by eapply Not_reopened. }
  destruct (alloc_returns (Z.of_nat (length e)) h) as (p & h' & AL').
  assert (Ln : Z.of_nat (length e) < 2 ^ 64).
  { unfold e. rewrite Le. unfold numBlocks, AES_BLOCK_SIZE, MAXFILESIZE in *.
    pose proof (Nat.Div0.div_le_upper_bound (length d + 16 - 1) 16 (length d + 1)). lia. }
  destruct (calculate_xxhash_run cfg io path e s1 p h' O2 F1 Be Ln AL') as (h2 & Ec & Lv2). rewrite Ec. cbn [fheap s1] in Lv2.
  assert (Np : p <> 0 -> p ∉ a_live h) by (intros Hp; by destruct (a_alloc_fresh _ _ _ _ AL' Hp)).
  destruct (decide (p <> 0 /\ reads_short io path e)) as [[Hp Hs]|Hs].
  - rewrite (decide_True (P := p = 0 \/ _)) by tauto. rewrite decide_True by done. specialize (Np Hp).
    destruct (free_run kf h2 ({[p]} ∪ a_live (fheap s)) (files s1)) as (h3 & E3 & L3); [done|set_solver|rewrite Lv2, Lv; set_solver|].
    cbn [files s1] in *. rewrite E3. eexists _, _. split; [reflexivity|]. eapply Hashed; try done.
    rewrite decide_False by tauto. rewrite decide_True by done. split; [done|]. split; [exact L3|set_solver].
  - destruct (decide (p = 0 \/ reads_short io path e \/ file_hash e = 0)) as [Hz|Hz].
    + assert (Er : (if decide (p = 0 \/ reads_short io path e) then 0 else file_hash e) = 0) by (case_decide; [done|tauto]).
      assert (Hz' : p = 0 \/ file_hash e = 0 /\ ~ reads_short io path e) by (destruct (decide (p = 0)); tauto).
      rewrite Er, decide_True by done.
      destruct (free_run kf h2 (a_live (fheap s)) (files s1)) as (h3 & E3 & L3); [done..|by rewrite Lv2, Lv|].
      cbn [files s1] in *. rewrite E3. eexists _, _. split; [reflexivity|]. eapply Hashed; try done.
      rewrite decide_True by exact Hz'. split; [done|exact L3].
    + rewrite (decide_False (P := p = 0 \/ _)) by tauto. rewrite decide_False by tauto.
      eexists _, _. split; [reflexivity|]. eapply Hashed; try done.
      rewrite decide_False by tauto. rewrite decide_False by tauto. split; [done|]. split; [by rewrite <- Lv|done].
Qed.
End Crypt.


