(* ===== verification/Chex.v ===== *)
(** * Hexadecimal text (src/src/chex.h)

    Buffers are lists of bytes; the functions write a prefix of the output
    buffer and return the number of characters or bytes written. *)

From Stdlib Require Import ZArith Lia.
From stdpp Require Import prelude gmap.
From S2P Require Import Prelude.

(** [unsigned char] results of 32-bit unsigned arithmetic. *)
Definition chex_isxdigit (h : Z) : bool :=
  let n09 := u8 (u32 (h - 48)) in
  let nAF := u8 (u32 (Z.lor h 0x20 - 97)) in
  bool_decide (n09 <= 9) || bool_decide (nAF <= 0xf - 0xa).

(** The characters of the table "0123456789abcdef". *)
Definition lut : list Z := [48; 49; 50; 51; 52; 53; 54; 55; 56; 57; 97; 98; 99; 100; 101; 102].

Definition chex_toxdigit (nibble : Z) : Z := lut !!! Z.to_nat (Z.land nibble 0xf).

Definition chex_fromxdigit (h : Z) : Z :=
  u8 (u32 (Z.land h 0xf + u32 (Z.shiftr h 6 * 9))).

(** The loop [for (i = 0, j = 0; (i < blen) && (j + 1 < hlen); ++i, j += 2)];
    the fuel [n] bounds [blen - i]. *)
Fixpoint chex_encode_loop (n i j blen hlen : nat) (hex bin : list Z) : outcome (list Z * nat) :=
  match n with
  | O => mret (hex, j)
  | S n' =>
      if decide (i < blen /\ j + 1 < hlen)%nat then
        b ← of_option (bin !! i);
        hex ← of_option (poke hex j [chex_toxdigit (Z.shiftr b 4)]);
        hex ← of_option (poke hex (j + 1) [chex_toxdigit (Z.shiftr b 0)]);
        chex_encode_loop n' (S i) (j + 2) blen hlen hex bin
      else mret (hex, j)
  end.

Definition chex_encode (hex : list Z) (hlen : nat) (bin : list Z) (blen : nat) : outcome (list Z * nat) :=
  chex_encode_loop blen 0 0 blen hlen hex bin.

Fixpoint chex_decode_loop (n i j blen hlen : nat) (bin hex : list Z) : outcome (list Z * nat) :=
  match n with
  | O => mret (bin, i)
  | S n' =>
      if decide (i < blen /\ j + 1 < hlen)%nat then
        h0 ← of_option (hex !! j);
        h1 ← of_option (hex !! (j + 1)%nat);
        let hi := chex_fromxdigit h0 in
        let lo := chex_fromxdigit h1 in
        bin ← of_option (poke bin i [u8 (Z.lor (Z.shiftl hi 4) lo)]);
        chex_decode_loop n' (S i) (j + 2) blen hlen bin hex
      else mret (bin, i)
  end.

Definition chex_decode (bin : list Z) (blen : nat) (hex : list Z) (hlen : nat) : outcome (list Z * nat) :=
  chex_decode_loop blen 0 0 blen hlen bin hex.

(** ** What they compute *)

Definition hex_of (b : Z) : list Z := [chex_toxdigit (Z.shiftr b 4); chex_toxdigit (Z.shiftr b 0)].

Lemma hex_digits b : is_byte b ->
  Z.lor (Z.shiftl (chex_fromxdigit (chex_toxdigit (Z.shiftr b 4))) 4)
        (chex_fromxdigit (chex_toxdigit (Z.shiftr b 0))) = b.
Proof. intros H. by_bytes b. Qed.

Lemma hex_of_xdigit b : is_byte b -> Forall (fun c => chex_isxdigit c = true /\ is_byte c /\ c <> 0) (hex_of b).
Proof.
  intros H. unfold hex_of.
  pose proof (all_bytes_spec (fun x => chex_isxdigit (chex_toxdigit (Z.shiftr x 4)) &&
    chex_isxdigit (chex_toxdigit (Z.shiftr x 0)) &&
    bool_decide (is_byte (chex_toxdigit (Z.shiftr x 4)) /\ chex_toxdigit (Z.shiftr x 4) <> 0) &&
    bool_decide (is_byte (chex_toxdigit (Z.shiftr x 0)) /\ chex_toxdigit (Z.shiftr x 0) <> 0)) b
    eq_refl H) as A. cbv beta in A.
  apply andb_prop in A as [A A4]. apply andb_prop in A as [A A3].
  apply andb_prop in A as [A1 A2]. apply bool_decide_eq_true_1 in A3, A4.
  rewrite !Forall_cons, Forall_nil. tauto.
Qed.

Lemma hex_length l : length (concat (hex_of <$> l)) = (2 * length l)%nat.
Proof. induction l as [|b l IH]; [done|]. csimpl. lia. Qed.

Lemma poke_app pre x y post : length x = length y ->
  poke (pre ++ x ++ post) (length pre) y = Some (pre ++ y ++ post).
Proof.
  intros L. unfold poke. rewrite !length_app, decide_True by lia. f_equal.
  rewrite take_app_length. do 2 f_equal. rewrite app_assoc, drop_app_length'; [done|].
  rewrite length_app. lia.
Qed.

(** The pairs written are limited by the input and by half the output. *)
Lemma chex_encode_loop_run n i j blen hlen done out bin rest :
  drop i bin = rest -> (i + n = blen)%nat -> length done = j -> j = (2 * i)%nat ->
  (blen <= length bin)%nat -> (hlen <= length done + length out)%nat ->
  let k := (n `min` (hlen / 2 - i))%nat in
  chex_encode_loop n i j blen hlen (done ++ out) bin =
    Ret (done ++ concat (hex_of <$> take k rest) ++ drop (2 * k) out, (2 * (i + k))%nat).
Proof.
  pose proof (Nat.div_mod_eq hlen 2) as Hm. pose proof (Nat.mod_upper_bound hlen 2 ltac:(lia)).
  set (q := (hlen / 2)%nat) in *. clearbody q.
  revert i j done out rest. induction n as [|n IH]; intros i j done out rest Hr Hb Hd Hj Hl Hh.
  { cbv zeta. rewrite Nat.min_0_l, Nat.add_0_r, <- Hj. done. }
  cbv zeta. cbn [chex_encode_loop].
  case_decide as C.
  - destruct (lookup_lt_is_Some_2 bin i ltac:(lia)) as [b Eb]. rewrite Eb. cbn [of_option mbind outcome_bind].
    destruct out as [|x [|y out]]; simpl in Hh; [lia|lia|].
    subst j. change (x :: y :: out) with ([x] ++ y :: out). rewrite (poke_app done [x] [chex_toxdigit (Z.shiftr b 4)] (y :: out) eq_refl).
    cbn [of_option mbind outcome_bind app]. 
    assert (E2 : poke (done ++ chex_toxdigit (Z.shiftr b 4) :: y :: out) (length done + 1)
                   [chex_toxdigit (Z.shiftr b 0)] = Some ((done ++ hex_of b) ++ out)).
    { replace (length done + 1)%nat with (length (done ++ [chex_toxdigit (Z.shiftr b 4)]))
        by (rewrite length_app; simpl; lia).
      pose proof (poke_app (done ++ [chex_toxdigit (Z.shiftr b 4)]) [y] [chex_toxdigit (Z.shiftr b 0)] out eq_refl) as P.
      rewrite <- !app_assoc in P. cbn [app] in P. rewrite P. unfold hex_of. by rewrite <- app_assoc. }
    rewrite E2. cbn [of_option mbind outcome_bind].
    assert (Er : rest = b :: drop (S i) bin) by (subst rest; by apply drop_S).
    rewrite (IH (S i) (length done + 2)%nat (done ++ hex_of b) out (drop (S i) bin));
      [|done|lia|rewrite length_app; simpl; lia|lia|lia|rewrite length_app; simpl; lia].
    replace (S n `min` (q - i))%nat with (S (n `min` (q - S i))) by lia.
    rewrite Er. csimpl. rewrite <- app_assoc. cbn [hex_of app].
    replace (n `min` (q - S i) + S (n `min` (q - S i) + 0))%nat
      with (S (2 * (n `min` (q - S i)))) by lia.
    cbn [drop]. do 2 f_equal. lia.
  - replace (S n `min` (q - i))%nat with O by lia.
    rewrite Nat.add_0_r, <- Hj. done.
Qed.

Lemma chex_encode_run hex hlen bin blen :
  (blen <= length bin)%nat -> (hlen <= length hex)%nat ->
  let k := (blen `min` (hlen / 2))%nat in
  chex_encode hex hlen bin blen =
    Ret (concat (hex_of <$> take k bin) ++ drop (2 * k) hex, (2 * k)%nat).
Proof.
  intros Hb Hh. unfold chex_encode.
  pose proof (chex_encode_loop_run blen 0 0 blen hlen [] hex bin bin eq_refl eq_refl eq_refl eq_refl
    Hb Hh) as E.
  rewrite Nat.sub_0_r in E. exact E.
Qed.

Lemma chex_decode_loop_run n i j blen hlen done out l hex :
  drop j hex = concat (hex_of <$> l) ++ drop (j + 2 * length l) hex ->
  bytes l -> (length l = n `min` (hlen / 2 - i))%nat ->
  (i + n = blen)%nat -> length done = i -> j = (2 * i)%nat -> (n <= length out)%nat ->
  chex_decode_loop n i j blen hlen (done ++ out) hex =
    Ret (done ++ l ++ drop (length l) out, (i + length l)%nat).
Proof.
  pose proof (Nat.div_mod_eq hlen 2) as Hm. pose proof (Nat.mod_upper_bound hlen 2 ltac:(lia)).
  set (q := (hlen / 2)%nat) in *. clearbody q.
  revert i j done out l. induction n as [|n IH]; intros i j done out l Hd B Hl Hb Hi Hj Ho.
  { simpl in Hl. destruct l; [|done]. by rewrite Nat.add_0_r. }
  cbn [chex_decode_loop]. case_decide as C.
  - destruct l as [|b l]; cbn [length] in Hl; [lia|]. apply Forall_cons in B as [Hbb B]. csimpl in Hd.
    assert (E0 : hex !! j = Some (chex_toxdigit (Z.shiftr b 4))).
    { rewrite <- (Nat.add_0_r j), <- lookup_drop, Hd. done. }
    assert (E1 : hex !! (j + 1)%nat = Some (chex_toxdigit (Z.shiftr b 0))).
    { rewrite <- lookup_drop, Hd. done. }
    rewrite E0, E1. cbn [of_option mbind outcome_bind]. rewrite hex_digits by done.
    destruct out as [|x out]; simpl in Ho; [lia|].
    assert (Eb : u8 b = b) by (apply Z.mod_small; done). rewrite Eb.
    rewrite <- Hi. change (x :: out) with ([x] ++ out). rewrite (poke_app done [x] [b] out eq_refl). cbn [of_option mbind outcome_bind].
    rewrite (app_assoc done [b] out).
    rewrite (IH (S (length done)) (j + 2)%nat (done ++ [b]) out l);
      [|..|lia|rewrite length_app; simpl; lia|lia|lia]; try done; try lia.
    + rewrite <- app_assoc. cbn [app length drop]. do 2 f_equal. lia.
    + rewrite <- drop_drop. rewrite Hd. cbn [hex_of app drop].
      replace (j + 2 + 2 * length l)%nat with (j + 2 * S (length l))%nat by lia. done.
  - assert (l = []) as -> by (destruct l; [done|cbn [length] in Hl; lia]).
    simpl. by rewrite drop_0, Nat.add_0_r.
Qed.

(** ** Properties *)

(** Hexadecimal round trip: [chex_encode] writes two lower-case digits for
    each of the first [k] bytes, [k] limited by the input and by half the
    output size, touches nothing after them and returns [2 * k]; every
    character written is one [chex_isxdigit] accepts; and [chex_decode] of
    what was written gives those [k] bytes back. *)
Theorem chex_roundtrip (hex0 bin out : list Z) (hlen : nat) :
  bytes bin -> (hlen <= length hex0)%nat -> (length bin <= length out)%nat ->
  let k := (length bin `min` (hlen / 2))%nat in
  exists hex, chex_encode hex0 hlen bin (length bin) = Ret (hex, (2 * k)%nat) /\
    length hex = length hex0 /\ drop (2 * k) hex = drop (2 * k) hex0 /\
    Forall (fun c => chex_isxdigit c = true) (take (2 * k) hex) /\
    chex_decode out (length bin) hex (2 * k) = Ret (take k bin ++ drop k out, k).
Proof.
  intros B Hh Ho. cbv zeta. set (k := (length bin `min` (hlen / 2))%nat).
  pose proof (Nat.div_mod_eq hlen 2) as Hm. pose proof (Nat.mod_upper_bound hlen 2 ltac:(lia)).
  assert (Lk : length (take k bin) = k) by (rewrite length_take; lia).
  assert (Lc : length (concat (hex_of <$> take k bin)) = (2 * k)%nat) by (by rewrite hex_length, Lk).
  eexists. split; [by apply chex_encode_run|]. fold k.
  split; [rewrite length_app, length_drop; lia|].
  split; [by rewrite drop_app_length'|]. split.
  - rewrite take_app_length' by done. clear Lc Lk.
    assert (Bk : bytes (take k bin)) by by apply Forall_take.
    induction Bk as [|b l Hb Bl IH]; [constructor|]. csimpl.
    pose proof (hex_of_xdigit b Hb) as X. unfold hex_of in X. rewrite !Forall_cons in X.
    constructor; [tauto|]. constructor; [tauto|]. exact IH.
  - unfold chex_decode.
    pose proof (chex_decode_loop_run (length bin) 0 0 (length bin) (2 * k) [] out (take k bin)
      (concat (hex_of <$> take k bin) ++ drop (2 * k) hex0)) as R.
    rewrite Nat.mul_comm, Nat.div_mul, Nat.sub_0_r, Lk in R by lia. cbn [app Nat.add] in R.
    rewrite Nat.mul_comm. apply R; try done; try lia; [|by apply Forall_take].
    by rewrite (Nat.mul_comm k 2), drop_0, drop_app_length'.
Qed.

Lemma chex_roundtrip_witness :
  exists hex, chex_encode (replicate 8 0) 7 [0xab; 0x01; 0x7f; 0xff] 4 = Ret (hex, 6%nat) /\
    chex_decode (replicate 4 0) 4 hex 6 = Ret ([0xab; 0x01; 0x7f; 0], 3%nat).
Proof.
  assert (B : bytes [0xab; 0x01; 0x7f; 0xff]) by (apply (bool_decide_unpack _); vm_compute; exact I).
  destruct (chex_roundtrip (replicate 8 0) [0xab; 0x01; 0x7f; 0xff] (replicate 4 0) 7 B
    ltac:(simpl; lia) ltac:(simpl; lia)) as (hex & E1 & _ & _ & _ & E2).
  exists hex. split; [exact E1 | exact E2].
Defined.
