(* ===== verification/User.v ===== *)
(** * Machine node and user (src/src/node.c, node.h, user.c, user.h)

    The two structures are blocks of bytes with the layout the compiler gives
    them (x86-64), because the code writes one past several of its arrays and
    the bytes there belong to the next field, or to nothing: a write past the
    block is [Undef].  A fresh block holds arbitrary bytes.  What the system
    answers (interfaces, MAC address, machine id) is an argument. *)

From Stdlib Require Import ZArith Lia.
From stdpp Require Import prelude gmap.
From S2P Require Import Prelude.
From S2P Require Import Chex.

(** ** Layout *)

Definition MAX_IP_LENGTH : nat := 16.
Definition MAX_MAC_LENGTH : nat := 18.
Definition MAX_UUID_LENGTH : nat := 33.

(** [kxnode]: [ip] at 0, [mac] at 16, [uuid] at 34, 67 bytes. *)
Definition off_ip : nat := 0.
Definition off_mac : nat := 16.
Definition off_uuid : nat := 34.
Definition sizeof_kxnode : nat := 67.

(** [kxuser]: [username] at 0, [pwd] at 32, [trustid] at 64, then the integer
    and the two pointers; 128 bytes. *)
Definition off_username : nat := 0.
Definition off_pwd : nat := 32.
Definition off_trustid : nat := 64.
Definition sizeof_kxuser : nat := 128.
Definition sizeof_chars : nat := 101.

Record kxuser := KxUser {
  chars : list Z;
  isonline : Z;
  unode : Z;
  ukey : Z
}.

(** What the system answers.  An interface has no address, an address of
    another family, or an IPv4 address with the name [getnameinfo] gives it
    ([None] on failure). *)
Inductive ifaddr := NoAddr | OtherFamily | Inet (host : option (list Z)).

Record system := System {
  getifaddrs : option (list ifaddr);
  socket_ok : bool;
  hwaddr : option (list Z);
  machine_id : option (list Z)
}.

Definition unknow : list Z := [117; 110; 107; 110; 111; 119].
Definition unkown : list Z := [117; 110; 107; 111; 119; 110].

(** [strncpy(p, s, size - 1); p[size] = NUL] at [off] of a block. *)
Definition copy_end (m : list Z) (off size : nat) (s : list Z) : outcome (list Z) :=
  m ← of_option (poke m off (strncpy s (size - 1)));
  of_option (poke m (off + size) [0]).

(** "127." *)
Definition loopback (host : list Z) : bool := bool_decide (take 4 host = [49; 50; 55; 46]).

Fixpoint kx_get_ipaddr_loop (ifa : list ifaddr) (m : list Z) (off size : nat) : outcome (list Z) :=
  match ifa with
  | [] => copy_end m off size unknow
  | Inet None :: _ => copy_end m off size unknow
  | Inet (Some host) :: ifa' =>
      if loopback host then kx_get_ipaddr_loop ifa' m off size else copy_end m off size host
  | _ :: ifa' => kx_get_ipaddr_loop ifa' m off size
  end.

Definition kx_get_ipaddr (sys : system) (m : list Z) (off size : nat) : outcome (list Z) :=
  match getifaddrs sys with
  | None => copy_end m off size unknow
  | Some ifa => kx_get_ipaddr_loop ifa m off size
  end.

(** Upper-case digits of "%02X". *)
Definition upper (c : Z) : Z := if decide (97 <= c) then c - 32 else c.

Definition mac_text (a : list Z) : list Z :=
  match a with
  | [] => []
  | b :: a' => (upper <$> hex_of b) ++ concat ((fun x => 58 :: (upper <$> hex_of x)) <$> a')
  end.

Definition kx_get_mac (sys : system) (m : list Z) (off size : nat) : outcome (list Z) :=
  if socket_ok sys then
    match hwaddr sys with
    | None => of_option (poke m off (snprintf unkown size))
    | Some a => of_option (poke m off (snprintf (mac_text a) size))
    end
  else of_option (poke m off (snprintf unkown size)).

(** The return value is -1 on both failures. *)
Definition kx_get_sysuuid (sys : system) (m : list Z) (off size : nat) : outcome (list Z * Z) :=
  match machine_id sys with
  | None => m ← copy_end m off size unknow; mret (m, -1)
  | Some text =>
      let bytes := take (size - 1) text in
      m ← of_option (poke m off bytes);
      if decide (0 < length bytes)%nat then
        m ← of_option (poke m (off + length bytes) [0]); mret (m, 0)
      else m ← copy_end m off size unknow; mret (m, -1)
  end.

Section User.
Context {HP : Type} `{!Allocator HP}.

(** The bytes of a fresh block of a given size. *)
Variable junk : nat -> list Z.
Hypothesis junk_length : forall n, length (junk n) = n.

(** [gnode] is the global of node.c; [keys] holds the key blocks. *)
Record ustate := UState {
  uheap : HP;
  nodes : gmap Z (list Z);
  users : gmap Z kxuser;
  keys : gmap Z (list Z);
  gnode : Z
}.

Definition on_uheap {A} (m : ST HP A) : ST ustate A := fun s =>
  match m (uheap s) with
  | Ret (a, h) => Ret (a, UState h (nodes s) (users s) (keys s) (gnode s))
  | Abort => Abort
  | Undef => Undef
  | NoFuel => NoFuel
  end.

Definition lift {S A} (m : outcome A) : ST S A := fun s => a ← m; Ret (a, s).

Definition put_node (p : Z) (m : list Z) : ST ustate unit :=
  modify (fun s => UState (uheap s) (<[p := m]> (nodes s)) (users s) (keys s) (gnode s)).
Definition put_user (p : Z) (u : kxuser) : ST ustate unit :=
  modify (fun s => UState (uheap s) (nodes s) (<[p := u]> (users s)) (keys s) (gnode s)).
Definition put_key (p : Z) (m : list Z) : ST ustate unit :=
  modify (fun s => UState (uheap s) (nodes s) (users s) (<[p := m]> (keys s)) (gnode s)).
Definition set_gnode (p : Z) : ST ustate unit :=
  modify (fun s => UState (uheap s) (nodes s) (users s) (keys s) p).

(** ** node.c *)

Definition kx_creat_node (sys : system) : ST ustate Z :=
  p ← on_uheap (a_alloc (Z.of_nat sizeof_kxnode));
  set_gnode p;;
  if decide (p = 0) then mret 0 else
  m ← lift (kx_get_ipaddr sys (junk sizeof_kxnode) off_ip MAX_IP_LENGTH);
  m ← lift (kx_get_mac sys m off_mac MAX_MAC_LENGTH);
  m ← lift (kx_get_sysuuid sys m off_uuid MAX_UUID_LENGTH);
  put_node p m.1;;
  mret p.

Definition kx_get_node : ST ustate Z := gets gnode.

Definition kx_free_node (p : Z) : ST ustate unit :=
  on_uheap (a_free p);;
  modify (fun s => UState (uheap s) (delete p (nodes s)) (users s) (keys s) (gnode s)).

(** ** user.c *)

Definition unhex (c : Z) : option Z :=
  if decide (48 <= c <= 57) then Some (c - 48)
  else if decide (97 <= c <= 102) then Some (c - 87)
  else if decide (65 <= c <= 70) then Some (c - 55) else None.

(** [sscanf(p, "%02hhx", &b)] on two digits. *)
Definition scan_hhx (p : list Z) : outcome Z :=
  match p with
  | a :: b :: _ => x ← of_option (unhex a); y ← of_option (unhex b); mret (16 * x + y)
  | _ => Undef
  end.

(** [for (i = 0; i < len; i++) sscanf(hex + 2 * i, "%02hhx", &key[i])]. *)
Fixpoint scan_key (n : nat) (hex : list Z) : outcome (list Z) :=
  match n with
  | O => mret []
  | S n' => x ← scan_hhx hex; l ← scan_key n' (drop 2 hex); mret (x :: l)
  end.

Definition deref_user (p : Z) : ST ustate kxuser := fun s =>
  match users s !! p with Some u => Ret (u, s) | None => Undef end.
Definition deref_node (p : Z) : ST ustate (list Z) := fun s =>
  match nodes s !! p with Some m => Ret (m, s) | None => Undef end.

Definition kx_user_creat_key (user : Z) : ST ustate unit :=
  u ← deref_user user;
  nd ← deref_node (unode u);
  uuid ← lift (of_option (cstr (drop off_uuid nd)));
  name ← lift (of_option (cstr (drop off_username (chars u))));
  str ← lift (of_option (poke (replicate 64 0) 0 (snprintf (uuid ++ name) 64)));
  text ← lift (of_option (cstr str));
  h ← lift (chex_encode (replicate 128 0) 128 str (length text));
  hs ← lift (of_option (cstr h.1));
  let len := (length hs / 2)%nat in
  key ← on_uheap (a_alloc (Z.of_nat len));
  put_user user (KxUser (chars u) (isonline u) (unode u) key);;
  bs ← lift (scan_key len h.1);
  if decide (key = 0 /\ bs <> []) then undef else put_key key bs.

Definition kx_creat_user (name pwd : list Z) : ST ustate Z :=
  p ← on_uheap (a_alloc (Z.of_nat sizeof_kxuser));
  if decide (p = 0) then mret 0 else
  m ← lift (copy_end (junk sizeof_chars) off_username 32 name);
  m ← lift (copy_end m off_pwd 32 pwd);
  m ← lift (of_option (poke m off_trustid (replicate 37 0)));
  nd ← kx_get_node;
  put_user p (KxUser m 0 nd 0);;
  kx_user_creat_key p;;
  mret p.

Definition kx_free_user (user : Z) : ST ustate unit :=
  u ← deref_user user;
  (if decide (ukey u <> 0)
   then on_uheap (a_free (ukey u));;
        modify (fun s => UState (uheap s) (nodes s) (users s) (delete (ukey u) (keys s)) (gnode s))
   else mret tt);;
  on_uheap (a_free user);;
  modify (fun s => UState (uheap s) (nodes s) (delete user (users s)) (keys s) (gnode s)).

End User.

(** ** Facts *)

(** [copy_end] writes inside the block exactly when the byte after the array
    is in it. *)
Lemma copy_end_run m off size s : (0 < size)%nat ->
  copy_end m off size s =
    if decide (off + size < length m)%nat
    then Ret (take off m ++ strncpy s (size - 1) ++
              take 1 (drop (off + size - 1) m) ++ [0] ++ drop (off + size + 1) m)
    else Undef.
Proof.
  intros Hs. unfold copy_end. case_decide as H.
  - rewrite poke_Some by (rewrite strncpy_length; lia). cbn [of_option mbind outcome_bind].
    rewrite strncpy_length. rewrite poke_Some.
    + cbn [of_option length]. f_equal.
      assert (L1 : length (take off m) = off) by (rewrite length_take; lia).
      rewrite (app_assoc (take off m)).
      assert (L2 : length (take off m ++ strncpy s (size - 1)) = (off + size - 1)%nat)
        by (rewrite length_app, strncpy_length; lia).
      rewrite take_app_ge, drop_app_ge, L2 by lia.
      replace (off + size - (off + size - 1))%nat with 1%nat by lia.
      replace (off + size + 1 - (off + size - 1))%nat with 2%nat by lia.
      rewrite drop_drop, <- app_assoc.
      replace (off + (size - 1))%nat with (off + size - 1)%nat by lia.
      replace (off + size - 1 + 2)%nat with (off + size + 1)%nat by lia.
      by rewrite <- !app_assoc.
    + rewrite !length_app, length_take, strncpy_length, length_drop. simpl. lia.
  - destruct (poke m off (strncpy s (size - 1))) as [m'|] eqn:E; [|done].
    cbn [of_option mbind outcome_bind]. apply poke_length in E. unfold poke.
    rewrite decide_False; [done|]. simpl. lia.
Qed.

Lemma unhex_digits b : is_byte b ->
  unhex (chex_toxdigit (Z.shiftr b 4)) = Some (b / 16) /\ unhex (chex_toxdigit (Z.shiftr b 0)) = Some (b mod 16).
Proof.
  intros H.
  pose proof (all_bytes_spec (fun x => bool_decide (unhex (chex_toxdigit (Z.shiftr x 4)) = Some (x / 16)) &&
    bool_decide (unhex (chex_toxdigit (Z.shiftr x 0)) = Some (x mod 16))) b eq_refl H) as A.
  apply andb_prop in A as [A1 A2]. apply bool_decide_eq_true_1 in A1, A2. done.
Qed.

(** The loop of [sscanf] undoes [chex_encode]. *)
Lemma scan_key_hex l r : bytes l -> scan_key (length l) (concat (hex_of <$> l) ++ r) = Ret l.
Proof.
  induction 1 as [|b l Hb Hl IH]; [done|]. cbn [length fmap list_fmap concat]. rewrite <- app_assoc.
  unfold hex_of at 1. cbn [scan_key app scan_hhx drop].
  destruct (unhex_digits b Hb) as [-> ->]. cbn [of_option mbind outcome_bind mret outcome_ret].
  rewrite drop_0, IH. cbn [mbind outcome_bind]. do 2 f_equal. pose proof (Z.div_mod b 16 ltac:(lia)). lia.
Qed.

Lemma hex_nonul l : bytes l -> nonul (concat (hex_of <$> l)).
Proof.
  induction 1 as [|b l Hb Hl IH]; [constructor|]. csimpl. pose proof (hex_of_xdigit b Hb) as X.
  unfold hex_of in X. rewrite !Forall_cons in X. constructor; [tauto|]. constructor; [tauto|]. exact IH.
Qed.

Lemma nonul_take n s : nonul s -> nonul (take n s).
Proof. apply Forall_take. Qed.

Section UserFacts.
Context {HP : Type} `{!Allocator HP}.
Variable junk : nat -> list Z.
Hypothesis junk_length : forall n, length (junk n) = n.
Abbreviation ustate := (ustate (HP := HP)).

(** The key is the text itself: it is written as hexadecimal and read back. *)
Lemma creat_key_eq p u nd uuid name (s : ustate) :
  users s !! p = Some u -> nodes s !! unode u = Some nd ->
  cstr (drop off_uuid nd) = Some uuid -> cstr (chars u) = Some name ->
  bytes uuid -> bytes name ->
  kx_user_creat_key p s =
    match a_alloc (Z.of_nat (length (take 63 (uuid ++ name)))) (uheap s) with
    | Ret (key, h) =>
        if decide (key = 0 /\ take 63 (uuid ++ name) <> []) then Undef else
        Ret (tt, UState h (nodes s) (<[p := KxUser (chars u) (isonline u) (unode u) key]> (users s))
               (<[key := take 63 (uuid ++ name)]> (keys s)) (gnode s))
    | Abort => Abort
    | Undef => Undef
    | NoFuel => NoFuel
    end.
Proof.
  intros U N C1 C2 B1 B2. set (text := take 63 (uuid ++ name)).
  assert (Bt : bytes text) by (apply Forall_take, Forall_app; done).
  assert (Nt : nonul text).
  { apply cstr_Some in C1 as (_ & _ & N1). apply cstr_Some in C2 as (_ & _ & N2).
    apply Forall_take, Forall_app; done. }
  assert (Lt : (length text <= 63)%nat) by (unfold text; rewrite length_take; lia).
  unfold kx_user_creat_key, mbind, ST_bind, deref_user, deref_node, lift. rewrite U, N, C1. cbn [of_option mbind outcome_bind].
  change (drop off_username (chars u)) with (chars u). rewrite C2. cbn [of_option mbind outcome_bind].
  change (snprintf (uuid ++ name) 64) with (text ++ [0]).
  rewrite poke_Some by (rewrite length_app, length_replicate; simpl; lia).
  cbn [of_option mbind outcome_bind]. rewrite take_0, <- app_assoc. cbn [app].
  rewrite cstr_app by done. cbn [of_option mbind outcome_bind].
  set (z := drop _ (replicate 64 0)).
  rewrite chex_encode_run by (rewrite ?length_app, ?length_replicate; lia).
  assert (Ek : (length text `min` (128 / 2))%nat = length text) by (change (128 / 2)%nat with 64%nat; lia).
  rewrite Ek, take_app_length. cbn [mbind outcome_bind fst].
  assert (Ez : exists r, drop (2 * length text) (replicate 128 0) = 0 :: r).
  { rewrite drop_replicate. destruct (128 - 2 * length text)%nat eqn:E; [lia|]. by eexists. }
  destruct Ez as [r Ez]. rewrite Ez. rewrite cstr_app by (by apply hex_nonul). cbn [of_option mbind outcome_bind].
  rewrite hex_length, Nat.mul_comm, Nat.div_mul by lia. unfold on_uheap.
  destruct (a_alloc _ _) as [[key h]| | |]; try done.
  rewrite scan_key_hex by done. cbn [mbind outcome_bind put_user modify uheap nodes users keys gnode].
  by case_decide.
Qed.

Lemma creat_key_run p u nd uuid name key h (s : ustate) :
  users s !! p = Some u -> nodes s !! unode u = Some nd ->
  cstr (drop off_uuid nd) = Some uuid -> cstr (chars u) = Some name ->
  bytes uuid -> bytes name ->
  a_alloc (Z.of_nat (length (take 63 (uuid ++ name)))) (uheap s) = Ret (key, h) -> key <> 0 ->
  kx_user_creat_key p s =
    Ret (tt, UState h (nodes s) (<[p := KxUser (chars u) (isonline u) (unode u) key]> (users s))
               (<[key := take 63 (uuid ++ name)]> (keys s)) (gnode s)).
Proof.
  intros U N C1 C2 B1 B2 AL Hk. rewrite (creat_key_eq p u nd uuid name s) by done.
  rewrite AL. by rewrite decide_False by tauto.
Qed.

(** A NULL key block is written to, unless the key is empty. *)
Lemma creat_key_null p u nd uuid name h (s : ustate) :
  users s !! p = Some u -> nodes s !! unode u = Some nd ->
  cstr (drop off_uuid nd) = Some uuid -> cstr (chars u) = Some name ->
  bytes uuid -> bytes name -> uuid ++ name <> [] ->
  a_alloc (Z.of_nat (length (take 63 (uuid ++ name)))) (uheap s) = Ret (0, h) ->
  kx_user_creat_key p s = Undef.
Proof.
  intros U N C1 C2 B1 B2 Ne AL. rewrite (creat_key_eq p u nd uuid name s) by done.
  rewrite AL. rewrite decide_True; [done|]. split; [done|].
  destruct (uuid ++ name); [done|]. discriminate.
Qed.

End UserFacts.

(** ** Lookups in the flat blocks *)

(** [copy_end] as lookups. *)
Lemma copy_end_lookup m off size s : (0 < size)%nat -> (off + size < length m)%nat ->
  exists m', copy_end m off size s = Ret m' /\ length m' = length m /\
    forall i, m' !! i = if decide (i = off + size)%nat then Some 0
                        else if decide (off <= i < off + (size - 1))%nat
                             then strncpy s (size - 1) !! (i - off)%nat else m !! i.
Proof.
  intros Hs H. unfold copy_end.
  destruct (poke m off (strncpy s (size - 1))) as [m1|] eqn:E1.
  2:{ unfold poke in E1. rewrite decide_True in E1; [done|]. rewrite strncpy_length. lia. }
  cbn [of_option mbind outcome_bind]. pose proof (poke_length _ _ _ _ E1) as L1.
  destruct (poke m1 (off + size) [0]) as [m2|] eqn:E2.
  2:{ unfold poke in E2. rewrite decide_True in E2; [done|]. simpl. lia. }
  exists m2. split; [done|]. split; [by rewrite (poke_length _ _ _ _ E2)|]. intros i.
  rewrite (lookup_poke _ _ _ _ i E2), (lookup_poke _ _ _ _ i E1), strncpy_length. simpl length.
  destruct (decide (i = off + size)%nat) as [-> |].
  - rewrite decide_True by lia. by rewrite Nat.sub_diag.
  - rewrite decide_False by lia. done.
Qed.

(** The address that is copied: the first IPv4 interface that is not the
    loopback. *)
Fixpoint ip_of (ifa : list ifaddr) : list Z :=
  match ifa with
  | [] => unknow
  | Inet None :: _ => unknow
  | Inet (Some host) :: ifa' => if loopback host then ip_of ifa' else host
  | _ :: ifa' => ip_of ifa'
  end.

Definition ip_text (sys : system) : list Z :=
  match getifaddrs sys with None => unknow | Some ifa => ip_of ifa end.

Lemma kx_get_ipaddr_eq sys m off size : kx_get_ipaddr sys m off size = copy_end m off size (ip_text sys).
Proof.
  unfold kx_get_ipaddr, ip_text. destruct (getifaddrs sys) as [ifa|]; [|done].
  induction ifa as [|[| |[host|]] ifa IH]; simpl; try done. by destruct (loopback host).
Qed.

Definition mac_of (sys : system) : list Z :=
  if socket_ok sys then match hwaddr sys with None => unkown | Some a => mac_text a end else unkown.

Lemma kx_get_mac_eq sys m off size :
  kx_get_mac sys m off size = of_option (poke m off (snprintf (mac_of sys) size)).
Proof. unfold kx_get_mac, mac_of. destruct (socket_ok sys); [|done]. by destruct (hwaddr sys). Qed.

Lemma upper_nonul b : is_byte b -> nonul (upper <$> hex_of b).
Proof.
  intros H. pose proof (all_bytes_spec (fun x => bool_decide (nonul (upper <$> hex_of x))) b eq_refl H) as A.
  by apply bool_decide_eq_true_1 in A.
Qed.

Lemma mac_text_facts a : bytes a -> length a = 6%nat -> length (mac_text a) = 17%nat /\ nonul (mac_text a).
Proof.
  intros B L. destruct a as [|b [|c [|d [|e [|f [|g []]]]]]]; try discriminate L. split; [done|].
  unfold bytes in B. rewrite !Forall_cons in B. destruct B as (Hb & Hc & Hd & He & Hf & Hg & _).
  unfold mac_text, hex_of, nonul. cbn [fmap list_fmap app concat]. rewrite !Forall_cons.
  assert (N : forall x, is_byte x -> upper (chex_toxdigit (Z.shiftr x 4)) <> 0 /\
                                     upper (chex_toxdigit (Z.shiftr x 0)) <> 0).
  { intros x Hx. pose proof (upper_nonul x Hx) as U. unfold nonul, hex_of in U. cbn [fmap list_fmap] in U.
    rewrite !Forall_cons in U. tauto. }
  destruct (N b Hb), (N c Hc), (N d Hd), (N e He), (N f Hf), (N g Hg). split_and!; done.
Qed.

Lemma mac_of_facts sys : (forall a, hwaddr sys = Some a -> bytes a /\ length a = 6%nat) ->
  (length (mac_of sys) <= 17)%nat /\ nonul (mac_of sys).
Proof.
  intros H. unfold mac_of. destruct (socket_ok sys); [destruct (hwaddr sys) as [a|]|].
  - destruct (H a eq_refl) as [B L]. destruct (mac_text_facts a B L) as [-> N]. split; [lia|done].
  - split; [simpl; lia|]. by apply (bool_decide_unpack _).
  - split; [simpl; lia|]. by apply (bool_decide_unpack _).
Qed.

(** ** Properties *)

Section Properties.
Context {HP : Type} `{!Allocator HP}.
Variable junk : nat -> list Z.
Hypothesis junk_length : forall n, length (junk n) = n.
Abbreviation ustate := (ustate (HP := HP)).

(** [kx_creat_node] once the block is allocated. *)
Lemma creat_node_block sys :
  (forall a, hwaddr sys = Some a -> bytes a /\ length a = 6%nat) ->
  match (m ← kx_get_ipaddr sys (junk sizeof_kxnode) off_ip MAX_IP_LENGTH;
         kx_get_mac sys m off_mac MAX_MAC_LENGTH) with
  | Ret m => length m = sizeof_kxnode /\
      (forall i, (i < 15)%nat -> m !! i = strncpy (ip_text sys) 15 !! i) /\
      m !! 15%nat = junk sizeof_kxnode !! 15%nat /\
      (forall i, (i <= length (mac_of sys))%nat ->
         m !! (16 + i)%nat = (mac_of sys ++ [0]) !! i)
  | _ => False
  end.
Proof using junk_length.
  intros Hm. destruct (mac_of_facts sys Hm) as [Lm _]. rewrite kx_get_ipaddr_eq.
  destruct (copy_end_lookup (junk sizeof_kxnode) off_ip MAX_IP_LENGTH (ip_text sys)) as (m1 & -> & L1 & H1);
    [unfold MAX_IP_LENGTH; lia | rewrite junk_length; unfold off_ip, MAX_IP_LENGTH, sizeof_kxnode; lia|].
  cbn [mbind outcome_bind]. rewrite kx_get_mac_eq. rewrite junk_length in L1.
  unfold off_ip, MAX_IP_LENGTH, off_mac, MAX_MAC_LENGTH in *.
  assert (Es : snprintf (mac_of sys) 18 = mac_of sys ++ [0]).
  { unfold snprintf. by rewrite take_ge by lia. }
  rewrite Es. destruct (poke m1 16 (mac_of sys ++ [0])) as [m2|] eqn:E2.
  2:{ unfold poke in E2. rewrite decide_True in E2; [done|]. rewrite L1, length_app. simpl. unfold sizeof_kxnode. lia. }
  cbn [of_option]. pose proof (fun i => lookup_poke _ _ _ _ i E2) as H2.
  rewrite length_app in H2. simpl length in H2. split; [by rewrite (poke_length _ _ _ _ E2)|].
  split; [|split].
  - intros i Hi. rewrite H2, decide_False, H1, decide_False, decide_True by lia. f_equal. lia.
  - rewrite H2, decide_False, H1, decide_False, decide_False by lia. done.
  - intros i Hi. rewrite H2, decide_True by lia. f_equal. lia.
Qed.

Lemma creat_node_unfold sys p h (s : ustate) :
  a_alloc (Z.of_nat sizeof_kxnode) (uheap s) = Ret (p, h) -> p <> 0 ->
  kx_creat_node junk sys s =
  match (m ← (m ← kx_get_ipaddr sys (junk sizeof_kxnode) off_ip MAX_IP_LENGTH;
              kx_get_mac sys m off_mac MAX_MAC_LENGTH);
         kx_get_sysuuid sys m off_uuid MAX_UUID_LENGTH) with
  | Ret m => Ret (p, UState h (<[p := m.1]> (nodes s)) (users s) (keys s) p)
  | Abort => Abort
  | Undef => Undef
  | NoFuel => NoFuel
  end.
Proof.
  intros AL Hp. unfold kx_creat_node, mbind, ST_bind, on_uheap. rewrite AL.
  unfold set_gnode, modify. cbn [uheap nodes users keys gnode]. rewrite decide_False by done.
  unfold lift, mbind, outcome_bind. destruct (kx_get_ipaddr _ _ _ _) as [m| | |]; try done.
  destruct (kx_get_mac _ _ _ _) as [m'| | |]; try done.
  by destruct (kx_get_sysuuid _ _ _ _) as [m''| | |].
Qed.

(** A machine id is written behind the two addresses. *)
Lemma sysuuid_run sys m text : length m = sizeof_kxnode -> machine_id sys = Some text -> text <> [] -> nonul text ->
  exists m2 r, kx_get_sysuuid sys m off_uuid MAX_UUID_LENGTH = Ret (m2, r) /\ length m2 = sizeof_kxnode /\
    cstr (drop off_uuid m2) = Some (take 32 text) /\ (forall i, (i < 34)%nat -> m2 !! i = m !! i).
Proof.
  intros L Em Ne Nt. unfold kx_get_sysuuid. rewrite Em. change (MAX_UUID_LENGTH - 1)%nat with 32%nat.
  set (bs := take 32 text).
  assert (Lb : (0 < length bs <= 32)%nat) by (unfold bs; rewrite length_take; destruct text; cbn [length]; [done|lia]).
  destruct (poke m off_uuid bs) as [m1|] eqn:E1.
  2:{ unfold poke in E1. rewrite decide_True in E1; [done|]. rewrite L. unfold off_uuid, sizeof_kxnode. lia. }
  cbn [of_option mbind outcome_bind]. rewrite decide_True by lia. pose proof (poke_length _ _ _ _ E1) as L1.
  destruct (poke m1 (off_uuid + length bs) [0]) as [m2|] eqn:E2.
  2:{ unfold poke in E2. rewrite decide_True in E2; [done|]. cbn [length]. rewrite L1, L. unfold off_uuid, sizeof_kxnode. clearbody bs. lia. }
  eexists m2, _. split; [reflexivity|]. pose proof (poke_length _ _ _ _ E2) as L2. split; [congruence|].
  assert (Lk : forall i, m2 !! i = if decide (i = off_uuid + length bs)%nat then Some 0
                  else if decide (off_uuid <= i < off_uuid + length bs)%nat then bs !! (i - off_uuid)%nat
                  else m !! i).
  { intros i. rewrite (lookup_poke _ _ _ _ i E2), (lookup_poke _ _ _ _ i E1). cbn [length].
    destruct (decide (i = off_uuid + length bs)%nat) as [-> |].
    - rewrite decide_True by (clearbody bs; lia). by rewrite Nat.sub_diag.
    - by rewrite decide_False by (clearbody bs; lia). }
  split; [|intros i Hi; rewrite Lk, !decide_False by (unfold off_uuid; clearbody bs; lia); done].
  apply cstr_at; [by apply Forall_take| |].
  - intros i Hi. rewrite Lk, decide_False, decide_True by (clearbody bs; lia). f_equal. lia.
  - by rewrite Lk, decide_True by (clearbody bs; lia).
Qed.

(** Without one, or with an empty one, the fallback does not fit. *)
Lemma sysuuid_undef sys m : length m = sizeof_kxnode -> machine_id sys = None \/ machine_id sys = Some [] ->
  kx_get_sysuuid sys m off_uuid MAX_UUID_LENGTH = Undef.
Proof.
  intros L Em. unfold kx_get_sysuuid.
  assert (Bad : copy_end m off_uuid MAX_UUID_LENGTH unknow = Undef).
  { rewrite copy_end_run by (unfold MAX_UUID_LENGTH; lia).
    rewrite decide_False; [done|]. rewrite L. unfold off_uuid, MAX_UUID_LENGTH, sizeof_kxnode. lia. }
  destruct Em as [-> | ->]; [by rewrite Bad|]. simpl.
  rewrite poke_Some by (rewrite L; unfold off_uuid, sizeof_kxnode; simpl; lia).
  cbn [of_option mbind outcome_bind length]. rewrite Nat.add_0_r. cbn [app]. by rewrite take_drop, Bad.
Qed.

(** The block of a node. *)
Definition node_of (sys : system) (text : list Z) (m : list Z) : Prop :=
  length m = sizeof_kxnode /\
  cstr (drop off_uuid m) = Some (take 32 text) /\
  cstr (drop off_mac m) = Some (mac_of sys) /\
  (forall i, (i < 15)%nat -> m !! i = strncpy (ip_text sys) 15 !! i) /\
  m !! 15%nat = junk sizeof_kxnode !! 15%nat /\
  (nonul (ip_text sys) -> (length (ip_text sys) < 15)%nat -> cstr (drop off_ip m) = Some (ip_text sys)).

Lemma creat_node_run sys text p h (s : ustate) :
  (forall a, hwaddr sys = Some a -> bytes a /\ length a = 6%nat) ->
  a_alloc (Z.of_nat sizeof_kxnode) (uheap s) = Ret (p, h) -> p <> 0 ->
  machine_id sys = Some text -> text <> [] -> nonul text ->
  exists m, kx_creat_node junk sys s = Ret (p, UState h (<[p := m]> (nodes s)) (users s) (keys s) p) /\ node_of sys text m.
Proof using junk_length.
  intros Hm AL Hp Em Ne Nt. pose proof (creat_node_block sys Hm) as B.
  destruct (mac_of_facts sys Hm) as [Lm Nm]. rewrite (creat_node_unfold sys p h s AL Hp).
  destruct (m ← kx_get_ipaddr sys (junk sizeof_kxnode) off_ip MAX_IP_LENGTH;
            kx_get_mac sys m off_mac MAX_MAC_LENGTH) as [m| | |]; try done.
  destruct B as (L & Hip & H15 & Hmac). destruct (sysuuid_run sys m text L Em Ne Nt) as (m2 & r & E & L2 & C & Lo).
  cbn [mbind outcome_bind]. rewrite E. exists m2. split; [done|]. split; [done|]. split; [done|]. split.
  { apply cstr_at; [done| |].
    - intros i Hi. unfold off_mac. rewrite Lo, Hmac by lia. by apply lookup_app_l.
    - unfold off_mac. rewrite Lo, Hmac by lia. rewrite lookup_app_r, Nat.sub_diag by lia. done. }
  split; [intros i Hi; rewrite Lo by lia; by apply Hip|]. split; [rewrite Lo by lia; done|].
  intros Ni Li. apply (cstr_strncpy m2 off_ip 15); [done|done|].
  intros i Hi. unfold off_ip. rewrite Lo by lia. by apply Hip.
Qed.

End Properties.

(** C34: [kx_creat_node], once its block is allocated: with a readable machine
    id the block holds the id (its first 32 bytes, as a terminated string),
    the MAC address (or "unkown") as a terminated string, and the first 15
    bytes of the address of the first IPv4 interface that is not the
    loopback (or "unknow"); an address of 15 characters is left unterminated,
    the 16th byte keeping its old contents.  Without a machine id, or with an
    empty one, the terminator of the fallback is written one byte past the
    67-byte block. *)
Theorem kx_creat_node_spec `{!Allocator HP} (junk : nat -> list Z) (sys : system)
    (s : ustate (HP := HP)) p h :
  (forall n, length (junk n) = n) ->
  (forall a, hwaddr sys = Some a -> bytes a /\ length a = 6%nat) ->
  a_alloc (Z.of_nat sizeof_kxnode) (uheap s) = Ret (p, h) -> p <> 0 ->
  match machine_id sys with
  | None | Some [] => kx_creat_node junk sys s = Undef
  | Some text => nonul text ->
      exists m, kx_creat_node junk sys s = Ret (p, UState h (<[p := m]> (nodes s)) (users s) (keys s) p) /\
        node_of junk sys text m
  end.
Proof.
  intros HJ Hm AL Hp. pose proof (creat_node_block junk HJ sys Hm) as B.
  assert (Bad : machine_id sys = None \/ machine_id sys = Some [] -> kx_creat_node junk sys s = Undef).
  { intros Em. rewrite (creat_node_unfold junk sys p h s AL Hp).
    destruct (m ← kx_get_ipaddr sys (junk sizeof_kxnode) off_ip MAX_IP_LENGTH;
              kx_get_mac sys m off_mac MAX_MAC_LENGTH) as [m| | |]; try done.
    destruct B as (L & _). cbn [mbind outcome_bind]. by rewrite (sysuuid_undef sys m L Em). }
  destruct (machine_id sys) as [[|c text]|] eqn:Em; [by apply Bad; right| |by apply Bad; left].
  intros Nt. exact (creat_node_run junk HJ sys (c :: text) p h s Hm AL Hp Em ltac:(done) Nt).
Qed.

Definition junk_zero (n : nat) : list Z := replicate n 7.
Definition sample_system : system :=
  System (Some [NoAddr; Inet (Some [49; 50; 55; 46; 48; 46; 48; 46; 49]);
                Inet (Some [49; 48; 46; 48; 46; 48; 46; 50])])
    true (Some [0; 0x1a; 0x2b; 0x3c; 0x4d; 0x5e]) (Some (replicate 32 97 ++ [10])).
Definition ustate0 : ustate (HP := gset Z) := UState ∅ ∅ ∅ ∅ 0.

Lemma kx_creat_node_spec_witness :
  exists m, kx_creat_node junk_zero sample_system ustate0 = Ret (1, UState {[1]} {[1 := m]} ∅ ∅ 1) /\
    cstr (drop off_uuid m) = Some (replicate 32 97) /\
    cstr (drop off_ip m) = Some [49; 48; 46; 48; 46; 48; 46; 50].
Proof.
  destruct (kx_creat_node_spec junk_zero sample_system ustate0 1 {[1]}
    (fun n => length_replicate n 7)
    ltac:(intros a [= <-]; split; [apply (bool_decide_unpack _); vm_compute; exact I|reflexivity])
    ltac:(vm_compute; reflexivity) ltac:(lia)
    ltac:(apply (bool_decide_unpack _); vm_compute; exact I))
    as (m & E & _ & C1 & _ & _ & _ & C2).
  exists m. split; [exact E|]. split; [exact C1|]. apply C2.
  - apply (bool_decide_unpack _); vm_compute; exact I.
  - vm_compute. lia.
Defined.

Section Release.
Context {HP : Type} `{!Allocator HP}.
Abbreviation ustate := (ustate (HP := HP)).

(** A created user is freed with its key. *)
Lemma free_user_run p key u h0 h1 h2 n k (s : ustate) :
  a_alloc n h0 = Ret (p, h1) -> p <> 0 -> a_alloc k h1 = Ret (key, h2) -> key <> 0 ->
  uheap s = h2 -> users s !! p = Some u -> ukey u = key ->
  exists h3, kx_free_user p s =
    Ret (tt, UState h3 (nodes s) (delete p (users s)) (delete key (keys s)) (gnode s)) /\
    a_live h3 = a_live h0.
Proof.
  intros A1 Hp A2 Hk Eh U Ek. destruct (a_alloc_fresh _ _ _ _ A1 Hp) as [F1 V1].
  destruct (a_alloc_fresh _ _ _ _ A2 Hk) as [F2 V2].
  destruct (a_free_live key h2) as (h' & E1 & W1); [set_solver|done|].
  destruct (a_free_live p h') as (h'' & E2 & W2); [rewrite W1, V2; set_solver|done|].
  exists h''. unfold kx_free_user, mbind, ST_bind, deref_user. rewrite U, Ek.
  rewrite decide_True by done. unfold on_uheap. rewrite Eh, E1.
  cbn [uheap nodes users keys gnode modify]. rewrite E2. cbn [uheap nodes users keys gnode].
  split; [done|]. rewrite W2, W1, V2, V1. apply set_eq. intros x.
  rewrite V1 in F2. set_solver.
Qed.

End Release.

Section Owner.
Context {HP : Type} `{!Allocator HP}.
Variable junk : nat -> list Z.
Hypothesis junk_length : forall n, length (junk n) = n.
Abbreviation ustate := (ustate (HP := HP)).

(** The bytes [kx_creat_user] gives the two names and the trust id. *)
Lemma user_block name pwd :
  exists m1 m2 m3, copy_end (junk sizeof_chars) off_username 32 name = Ret m1 /\
    copy_end m1 off_pwd 32 pwd = Ret m2 /\ poke m2 off_trustid (replicate 37 0) = Some m3 /\
    length m3 = sizeof_chars /\
    (forall i, (i < 31)%nat -> m3 !! i = strncpy name 31 !! i) /\
    (forall i, (i < 31)%nat -> m3 !! (32 + i)%nat = strncpy pwd 31 !! i) /\
    m3 !! 31%nat = junk sizeof_chars !! 31%nat /\ m3 !! 63%nat = junk sizeof_chars !! 63%nat /\
    (forall i, (64 <= i < 101)%nat -> m3 !! i = Some 0).
Proof using junk_length.
  unfold off_username, off_pwd, off_trustid, sizeof_chars.
  destruct (copy_end_lookup (junk 101) 0 32 name) as (m1 & E1 & L1 & H1);
    [lia | rewrite junk_length; lia|]. rewrite junk_length in L1.
  destruct (copy_end_lookup m1 32 32 pwd) as (m2 & E2 & L2 & H2); [lia | lia|].
  destruct (poke m2 64 (replicate 37 0)) as [m3|] eqn:E3.
  2:{ unfold poke in E3. rewrite decide_True in E3; [done|]. rewrite length_replicate. lia. }
  pose proof (fun i => lookup_poke _ _ _ _ i E3) as H3. rewrite length_replicate in H3.
  exists m1, m2, m3. split; [done|]. split; [done|]. split; [done|].
  split; [rewrite (poke_length _ _ _ _ E3); lia|]. change (32 - 1)%nat with 31%nat in *.
  split; [|split; [|split; [|split]]].
  - intros i Hi. rewrite H3, decide_False, H2, !decide_False, H1, decide_False, decide_True by lia. f_equal. lia.
  - intros i Hi. rewrite H3, decide_False, H2, decide_False, decide_True by lia. f_equal. lia.
  - rewrite H3, decide_False, H2, !decide_False, H1, !decide_False by lia. done.
  - rewrite H3, decide_False, H2, !decide_False, H1, !decide_False by lia. done.
  - intros i Hi. rewrite H3, decide_True by lia. apply lookup_replicate. lia.
Qed.

(** A user with its key, once both blocks are there. *)
Definition user_of (name pwd : list Z) (u : kxuser) : Prop :=
  cstr (drop off_username (chars u)) = Some name /\ cstr (drop off_pwd (chars u)) = Some pwd /\
  cstr (drop off_trustid (chars u)) = Some [].

Lemma creat_user_unfold name pwd (s : ustate) p h1 :
  nonul name -> (length name < 31)%nat -> nonul pwd -> (length pwd < 31)%nat ->
  a_alloc (Z.of_nat sizeof_kxuser) (uheap s) = Ret (p, h1) -> p <> 0 ->
  exists m, cstr m = Some name /\ user_of name pwd (KxUser m 0 (gnode s) 0) /\
    kx_creat_user junk name pwd s =
    match kx_user_creat_key p (UState h1 (nodes s) (<[p := KxUser m 0 (gnode s) 0]> (users s)) (keys s) (gnode s)) with
    | Ret (_, s2) => Ret (p, s2) | Abort => Abort | Undef => Undef | NoFuel => NoFuel end.
Proof using junk_length.
  intros Nn Ln Np Lp A1 Hp.
  destruct (user_block name pwd) as (m1 & m2 & m & E1 & E2 & E3 & L & Hn & Hw & _ & _ & Ht).
  assert (Cn : cstr m = Some name) by (apply (cstr_strncpy m 0 31); done).
  exists m. split; [done|]. split.
  - split; [exact Cn|]. split; [apply (cstr_strncpy m 32 31); done|].
    apply cstr_at; [constructor|simpl; lia|]. apply Ht. simpl. unfold off_trustid. lia.
  - unfold kx_creat_user, mbind, ST_bind, on_uheap. rewrite A1. rewrite decide_False by done.
    unfold lift. rewrite E1. cbn [mbind outcome_bind]. rewrite E2. cbn [mbind outcome_bind].
    rewrite E3. cbn [of_option mbind outcome_bind]. done.
Qed.

Lemma creat_user_run name pwd (s : ustate) p h1 key h2 nd uuid :
  bytes name -> nonul name -> (length name < 31)%nat -> nonul pwd -> (length pwd < 31)%nat ->
  nodes s !! gnode s = Some nd -> cstr (drop off_uuid nd) = Some uuid -> bytes uuid ->
  a_alloc (Z.of_nat sizeof_kxuser) (uheap s) = Ret (p, h1) -> p <> 0 ->
  a_alloc (Z.of_nat (length (take 63 (uuid ++ name)))) h1 = Ret (key, h2) -> key <> 0 ->
  exists m, let u := KxUser m 0 (gnode s) key in user_of name pwd u /\
    kx_creat_user junk name pwd s = Ret (p, UState h2 (nodes s) (<[p := u]> (users s))
                             (<[key := take 63 (uuid ++ name)]> (keys s)) (gnode s)).
Proof using junk_length.
  intros Bn Nn Ln Np Lp Hnd Hu Bu A1 Hp A2 Hk.
  destruct (creat_user_unfold name pwd s p h1 Nn Ln Np Lp A1 Hp) as (m & Cn & Hm & U).
  exists m. split; [exact Hm|]. rewrite U. set (s1 := UState h1 _ _ _ _).
  rewrite (creat_key_run p _ nd uuid name key h2 s1 (lookup_insert_eq _ _ _) Hnd Hu Cn Bu Bn A2 Hk).
  cbn [chars isonline unode users nodes keys gnode s1]. by rewrite insert_insert_eq.
Qed.

End Owner.

(** C33: [kx_creat_user] and [kx_free_user].  With an allocated block [p] of a
    non-NULL address, a name and a password shorter than 31 characters and a
    node with a uuid, the user holds the name and the password as terminated
    strings, no trust id, is offline and bound to the node of the process; its
    key is the first 63 characters of the uuid followed by the name, so the
    16 bytes the cipher reads are the uuid's alone as soon as the uuid has 16
    characters, whatever the name.  Freeing the user gives every block back.
    A key block that is NULL is written to all the same. *)
Theorem kx_creat_user_spec {HP : Type} `{!Allocator HP} (junk : nat -> list Z) name pwd
    (s : ustate (HP := HP)) p h1 key h2 nd uuid :
  (forall n, length (junk n) = n) ->
  bytes name -> nonul name -> (length name < 31)%nat -> nonul pwd -> (length pwd < 31)%nat ->
  nodes s !! gnode s = Some nd -> cstr (drop off_uuid nd) = Some uuid -> bytes uuid ->
  a_alloc (Z.of_nat sizeof_kxuser) (uheap s) = Ret (p, h1) -> p <> 0 ->
  a_alloc (Z.of_nat (length (take 63 (uuid ++ name)))) h1 = Ret (key, h2) ->
  if decide (key = 0)
  then uuid ++ name <> [] -> kx_creat_user junk name pwd s = Undef
  else exists u, let s' := UState h2 (nodes s) (<[p := u]> (users s))
                             (<[key := take 63 (uuid ++ name)]> (keys s)) (gnode s) in
    kx_creat_user junk name pwd s = Ret (p, s') /\
    user_of name pwd u /\ isonline u = 0 /\ unode u = gnode s /\ ukey u = key /\
    ((16 <= length uuid)%nat -> take 16 (take 63 (uuid ++ name)) = take 16 uuid) /\
    exists h3, kx_free_user p s' =
      Ret (tt, UState h3 (nodes s) (delete p (users s)) (delete key (<[key := take 63 (uuid ++ name)]> (keys s)))
             (gnode s)) /\
      a_live h3 = a_live (uheap s).
Proof.
  intros HJ Bn Nn Ln Np Lp Hnd Hu Bu A1 Hp A2. destruct (decide (key = 0)) as [-> | Hk].
  - intros Ne. destruct (creat_user_unfold junk HJ name pwd s p h1 Nn Ln Np Lp A1 Hp) as (m & Cn & _ & U). rewrite U.
    set (s1 := UState h1 _ _ _ _). by rewrite (creat_key_null p _ nd uuid name h2 s1 (lookup_insert_eq _ _ _) Hnd Hu Cn Bu Bn Ne A2).
  - destruct (creat_user_run junk HJ name pwd s p h1 key h2 nd uuid Bn Nn Ln Np Lp Hnd Hu Bu A1 Hp A2 Hk) as (m & Hm & U).
    exists (KxUser m 0 (gnode s) key). split; [exact U|]. split; [exact Hm|]. split; [done|]. split; [done|]. split; [done|].
    split. { intros H16. rewrite take_take, take_app_le by lia. done. }
    destruct (free_user_run p key (KxUser m 0 (gnode s) key) (uheap s) h1 h2 _ _
       (UState h2 (nodes s) (<[p := KxUser m 0 (gnode s) key]> (users s))
          (<[key := take 63 (uuid ++ name)]> (keys s)) (gnode s)) A1 Hp A2 Hk eq_refl
       (lookup_insert_eq _ _ _) eq_refl) as (h3 & F & V).
    exists h3. rewrite F. cbn [users nodes keys gnode]. by rewrite delete_insert_eq.
Qed.

Definition node_state : ustate (HP := gset Z) :=
  UState {[1]} {[1 := replicate 34 0 ++ replicate 32 97 ++ [0]]} ∅ ∅ 1.

Lemma kx_creat_user_spec_witness :
  exists u, kx_creat_user junk_zero [98; 111; 98] [49] node_state =
    Ret (2, UState ({[3]} ∪ ({[2]} ∪ {[1]})) (nodes node_state) (<[2 := u]> ∅)
             (<[3 := take 63 (replicate 32 97 ++ [98; 111; 98])]> ∅) 1).
Proof.
  pose proof (kx_creat_user_spec junk_zero [98; 111; 98] [49] node_state 2 ({[2]} ∪ {[1]}) 3
    ({[3]} ∪ ({[2]} ∪ {[1]})) (replicate 34 0 ++ replicate 32 97 ++ [0]) (replicate 32 97)
    (fun n => length_replicate n 7)
    ltac:(apply (bool_decide_unpack _); vm_compute; exact I)
    ltac:(apply (bool_decide_unpack _); vm_compute; exact I) ltac:(simpl; lia)
    ltac:(apply (bool_decide_unpack _); vm_compute; exact I) ltac:(simpl; lia)
    ltac:(vm_compute; reflexivity) ltac:(vm_compute; reflexivity)
    ltac:(apply (bool_decide_unpack _); vm_compute; exact I)
    ltac:(vm_compute; reflexivity) ltac:(lia) ltac:(vm_compute; reflexivity)) as H.
  rewrite decide_False in H by lia. destruct H as (u & E & _). exists u. exact E.
Defined.
