(* ===== verification/Util.v ===== *)
(** * Paths (src/src/util.c, util.h)

    [path_normalize] works in place on a copy of the path; [kx_mkdirp] makes
    the parents first, by recursion on the path.  [mkdir] is the system's: it
    changes a file system and gives its result and whether [errno] is
    [EEXIST]; nothing is assumed of it.  Strings are blocks of the allocator,
    so that a leak or a double free would be seen. *)

From Stdlib Require Import ZArith Lia.
From stdpp Require Import prelude gmap.
From S2P Require Import Prelude.

(** '/' *)
Definition PATH_SEPARATOR : Z := 47.

(** ** path_normalize *)

Definition load (b : list Z) (i : nat) : outcome Z := of_option (b !! i).
Definition store (b : list Z) (i : nat) (c : Z) : outcome (list Z) := of_option (poke b i [c]).

(** [while ('/' == path[i]) i++] *)
Fixpoint skip_slashes (fuel : nat) (path : list Z) (i : nat) : outcome nat :=
  match fuel with
  | O => NoFuel
  | S f => c ← load path i; if decide (c = PATH_SEPARATOR) then skip_slashes f path (S i) else Ret i
  end.

(** The [for] loop on the copy, then the NUL.  [path] includes its NUL. *)
Fixpoint normalize_loop (fuel : nat) (path copy : list Z) (i ptr : nat) : outcome (list Z) :=
  match fuel with
  | O => NoFuel
  | S f =>
      c ← load copy i;
      if decide (c = 0) then store copy ptr 0 else
      p ← load path i;
      copy ← store copy ptr p;
      i ← (if decide (p = PATH_SEPARATOR) then skip_slashes (length path) path (S i) else Ret (S i));
      normalize_loop f path copy i (S ptr)
  end.

Section Util.
Context {HP FS : Type} `{!Allocator HP}.

(** [mkdir(path, mode)]: the new file system, the result, [errno == EEXIST]. *)
Variable mkdir : list Z -> Z -> FS -> FS * Z * bool.

Record upath := UPath { pheap : HP; pfs : FS }.

Definition on_pheap {A} (m : ST HP A) : ST upath A := fun s =>
  match m (pheap s) with
  | Ret (a, h) => Ret (a, UPath h (pfs s))
  | Abort => Abort
  | Undef => Undef
  | NoFuel => NoFuel
  end.

Definition lift {A} (m : outcome A) : ST upath A := fun s => a ← m; Ret (a, s).

(** A string pointer: NULL is the address 0 and has no contents. *)
Definition cptr : Type := Z * list Z.

(** [zstrdup]: the address of the copy and the block. *)
Definition zstrdup (s : list Z) : ST upath cptr :=
  p ← on_pheap (a_alloc (Z.of_nat (length s) + 1));
  mret (p, if decide (p = 0) then [] else s ++ [0]).

Definition path_normalize (path : list Z) : ST upath cptr :=
  c ← zstrdup path;
  if decide (c.1 = 0) then mret (0, []) else
  copy ← lift (normalize_loop (S (length path)) (path ++ [0]) c.2 0 0);
  mret (c.1, copy).

(** [while (PATH_SEPARATOR != *p && p != parent) p--] *)
Fixpoint last_separator (m : list Z) (p : nat) : outcome nat :=
  c ← load m p;
  match p with
  | O => Ret O
  | S p' => if decide (c <> PATH_SEPARATOR) then last_separator m p' else Ret p
  end.

Definition free_both (pathname parent : Z) : ST upath Z :=
  on_pheap (a_free pathname);; on_pheap (a_free parent);; mret (-1).

Fixpoint kx_mkdirp (fuel : nat) (path : list Z) (mode : Z) : ST upath Z :=
  match fuel with
  | O => no_fuel
  | S f =>
      pathname ← path_normalize path;
      if decide (pathname.1 = 0) then free_both 0 0 else
      name ← lift (of_option (cstr pathname.2));
      parent ← zstrdup name;
      if decide (parent.1 = 0) then free_both pathname.1 0 else
      p ← lift (last_separator parent.2 (length name));
      m ← lift (store parent.2 p 0);
      up ← lift (of_option (cstr m));
      made ← (if decide (p <> O) then r ← kx_mkdirp f up mode; mret (bool_decide (r = 0)) else mret true);
      if negb made then free_both pathname.1 parent.1 else
      on_pheap (a_free parent.1);;
      s ← gets (fun s => s);
      let '(fs, rc, eexists) := mkdir name mode (pfs s) in
      modify (fun s => UPath (pheap s) fs);;
      on_pheap (a_free pathname.1);;
      mret (if decide (rc = 0 \/ eexists = true) then 0 else -1)
  end.

End Util.

(** ** path_normalize removes repeated separators *)

(** The specification: of a run of separators one is kept. *)
Fixpoint collapse (l : list Z) : list Z :=
  match l with
  | [] => []
  | c :: l' => if decide (c = PATH_SEPARATOR /\ head l' = Some PATH_SEPARATOR) then collapse l' else c :: collapse l'
  end.

Fixpoint drop_slashes (l : list Z) : list Z :=
  match l with
  | c :: l' => if decide (c = PATH_SEPARATOR) then drop_slashes l' else l
  | [] => []
  end.

Lemma drop_slashes_length l : (length (drop_slashes l) <= length l)%nat.
Proof. induction l as [|c l IH]; cbn; [lia|]. case_decide; cbn; lia. Qed.

Lemma drop_slashes_nonul l : nonul l -> nonul (drop_slashes l).
Proof. induction 1 as [|c l Hc F IH]; cbn; [constructor|]. case_decide; [done|]. by constructor. Qed.

(** After a separator the others are skipped. *)
Lemma collapse_cons c l :
  collapse (c :: l) = if decide (c = PATH_SEPARATOR) then c :: collapse (drop_slashes l) else c :: collapse l.
Proof.
  cbn [collapse]. destruct (decide (c = PATH_SEPARATOR)) as [-> |Hc]; [|by rewrite decide_False by tauto].
  induction l as [|d l IH]; [done|]. cbn [head drop_slashes]. destruct (decide (d = PATH_SEPARATOR)) as [-> |Hd].
  - rewrite decide_True by done. cbn [collapse]. exact IH.
  - rewrite decide_False by naive_solver. done.
Qed.

Lemma collapse_length l : (length (collapse l) <= length l)%nat.
Proof. induction l as [|c l IH]; cbn; [lia|]. case_decide; cbn; lia. Qed.

Lemma collapse_nonul l : nonul l -> nonul (collapse l).
Proof. induction 1 as [|c l Hc F IH]; cbn; [constructor|]. case_decide; [done|]. by constructor. Qed.

Lemma skip_run l : forall fuel pre, nonul l -> (length l < fuel)%nat ->
  skip_slashes fuel (pre ++ l ++ [0]) (length pre) = Ret (length pre + (length l - length (drop_slashes l)))%nat.
Proof.
  induction l as [|c l IH]; intros fuel pre N H; destruct fuel as [|f]; try (simpl in H; lia); cbn [skip_slashes].
  - unfold load. cbn [app]. rewrite list_lookup_middle by done. cbn. by rewrite Nat.add_0_r.
  - unfold load. cbn [app]. rewrite list_lookup_middle by done. cbn [of_option mbind outcome_bind drop_slashes].
    apply Forall_cons in N as [Nc N]. destruct (decide (c = PATH_SEPARATOR)).
    + replace (pre ++ c :: l ++ [0]) with ((pre ++ [c]) ++ l ++ [0]) by (by rewrite <- app_assoc).
      replace (S (length pre)) with (length (pre ++ [c])) by (rewrite length_app; simpl; lia).
      rewrite IH; [|done|simpl in H; lia]. f_equal. rewrite length_app. cbn [length].
      pose proof (drop_slashes_length l). lia.
    + f_equal. lia.
Qed.

Lemma drop_slashes_suffix l : exists pre, l = pre ++ drop_slashes l /\ length pre = (length l - length (drop_slashes l))%nat.
Proof.
  induction l as [|c l (pre & E & L)]; [by exists []|]. cbn. case_decide.
  - exists (c :: pre). cbn. rewrite <- E. split; [done|]. pose proof (drop_slashes_length l). lia.
  - exists []. cbn. split; [done|]. lia.
Qed.

(** The loop: the copy has been overwritten below [ptr], and its bytes from
    [i] on are still the path's. *)
Lemma normalize_run fuel : forall l done pre gap, nonul l -> (length l < fuel)%nat ->
  length pre = (length done + length gap)%nat ->
  exists r, normalize_loop fuel (pre ++ l ++ [0]) (done ++ gap ++ l ++ [0]) (length pre) (length done) =
    Ret (done ++ collapse l ++ 0 :: r).
Proof.
  induction fuel as [|f IH]; intros l done pre gap N H L; [lia|]. cbn [normalize_loop].
  assert (Lk : forall x t, load (done ++ gap ++ x :: t) (length pre) = Ret x).
  { intros x t. unfold load. rewrite app_assoc, list_lookup_middle by (rewrite length_app; lia). done. }
  assert (St : forall x y t, exists gap' t', store (done ++ gap ++ x :: t) (length done) y =
     Ret ((done ++ [y]) ++ gap' ++ t) /\ length gap' = length gap /\ t' = t).
  { intros x y t. destruct gap as [|g gap].
    - exists [], t. unfold store. rewrite (poke_at done [x] [y] t) by done. cbn. by rewrite <- app_assoc.
    - exists (gap ++ [x]), t. unfold store. cbn [app]. rewrite (poke_at done [g] [y] (gap ++ x :: t)) by done.
      cbn [of_option]. rewrite <- !app_assoc. cbn. split; [done|]. rewrite length_app. simpl. split; [lia|done]. }
  destruct l as [|c l].
  - cbn [app]. rewrite Lk. cbn [mbind outcome_bind]. rewrite decide_True by done.
    destruct (St 0 0 []) as (gap' & _ & E & _ & _). rewrite E. exists (gap' ++ []). by rewrite <- app_assoc.
  - apply Forall_cons in N as [Nc N]. cbn [length] in H. cbn [app]. rewrite Lk. cbn [mbind outcome_bind].
    rewrite decide_False by done.
    assert (Lp : load (pre ++ c :: l ++ [0]) (length pre) = Ret c).
    { unfold load. by rewrite list_lookup_middle by done. }
    rewrite Lp. cbn [mbind outcome_bind].
    destruct (St c c (l ++ [0])) as (gap' & _ & E & Lg & _). rewrite E. cbn [mbind outcome_bind].
    rewrite collapse_cons. destruct (decide (c = PATH_SEPARATOR)) as [-> |Hc].
    + pose proof (skip_run l (length (pre ++ PATH_SEPARATOR :: l ++ [0])) (pre ++ [PATH_SEPARATOR]) N) as Sk.
      assert (Lps : length (pre ++ [PATH_SEPARATOR]) = S (length pre)) by (rewrite length_app; simpl; lia).
      rewrite <- app_assoc, Lps in Sk. cbn [app] in Sk.
      rewrite Sk by (rewrite length_app; simpl; rewrite length_app; lia).
      cbn [mbind outcome_bind]. destruct (drop_slashes_suffix l) as (w & Ew & Lw). rewrite <- Lw.
      destruct (IH (drop_slashes l) (done ++ [PATH_SEPARATOR]) (pre ++ PATH_SEPARATOR :: w) (gap' ++ w)) as (r & Er).
      { by apply drop_slashes_nonul. }
      { pose proof (drop_slashes_length l). lia. }
      { rewrite !length_app. cbn [length]. lia. }
      exists r. rewrite <- !app_assoc in Er. cbn [app] in Er. rewrite (app_assoc w) in Er. rewrite <- Ew in Er.
      rewrite (length_app done), (length_app pre) in Er. cbn [length] in Er.
      replace (length done + 1)%nat with (S (length done)) in Er by lia.
      replace (length pre + S (length w))%nat with (S (length pre) + length w)%nat in Er by lia.
      rewrite <- app_assoc. exact Er.
    + cbn [mret outcome_ret mbind outcome_bind].
      destruct (IH l (done ++ [c]) (pre ++ [c]) gap' N ltac:(lia)) as (r & Er).
      { rewrite !length_app. cbn [length]. lia. }
      exists r. rewrite <- !app_assoc in Er. cbn [app] in Er. rewrite (length_app done), (length_app pre) in Er.
      cbn [length] in Er. rewrite !Nat.add_1_r in Er. rewrite <- app_assoc. exact Er.
Qed.

Lemma normalize_path l : nonul l -> exists r,
  normalize_loop (S (length l)) (l ++ [0]) (l ++ [0]) 0 0 = Ret (collapse l ++ 0 :: r).
Proof. intros N. exact (normalize_run (S (length l)) l [] [] [] N (Nat.lt_succ_diag_r _) eq_refl). Qed.

(** ** The directories above a path *)

(** The directories [kx_mkdirp] makes, outermost first: the prefixes that end
    before a separator, and the path. *)
Definition chain (q : list Z) : list (list Z) :=
  ((fun i => take i q) <$> filter (fun i => q !! i = Some PATH_SEPARATOR) (seq 1 (length q - 1))) ++ [q].

(** No two separators in a row. *)
Definition single (q : list Z) : Prop :=
  forall i, q !! i = Some PATH_SEPARATOR -> q !! S i <> Some PATH_SEPARATOR.

Lemma collapse_single l : single (collapse l).
Proof.
  induction l as [|c l IH]; [by intros i|]. cbn [collapse]. case_decide as H; [done|].
  intros [|i]; [|by apply IH]. cbn. intros [= ->] E. apply H. split; [done|].
  destruct l as [|d l]; [done|]. rewrite collapse_cons in E. cbn. destruct (decide (d = PATH_SEPARATOR)); cbn in E; congruence.
Qed.

Lemma collapse_id q : single q -> collapse q = q.
Proof.
  induction q as [|c q IH]; intros S; [done|]. cbn [collapse]. rewrite decide_False.
  - rewrite IH; [done|]. intros i. apply (S (Datatypes.S i)).
  - intros [-> H]. apply (S O); [done|]. by destruct q.
Qed.

Lemma single_take q n : single q -> single (take n q).
Proof.
  intros H i E E'. rewrite lookup_take_Some in E, E'. destruct E as [E _], E' as [E' _]. by apply (H i).
Qed.

Lemma last_separator_run name : forall k, (k <= length name)%nat ->
  (forall j, (k < j)%nat -> name !! j <> Some PATH_SEPARATOR) ->
  exists p, last_separator (name ++ [0]) k = Ret p /\ (p <= k)%nat /\
    (p <> O -> name !! p = Some PATH_SEPARATOR) /\
    (forall j, (p < j)%nat -> name !! j <> Some PATH_SEPARATOR).
Proof.
  induction k as [|k IH]; intros Hk Hj.
  - exists O. cbn [last_separator]. destruct (lookup_lt_is_Some_2 (name ++ [0]) 0) as [c Ec];
      [rewrite length_app; simpl; lia|]. unfold load. rewrite Ec. done.
  - destruct (lookup_lt_is_Some_2 (name ++ [0]) (S k)) as [c Ec]; [rewrite length_app; simpl; lia|].
    cbn [last_separator]. unfold load. rewrite Ec. cbn [of_option mbind outcome_bind].
    destruct (decide (S k = length name)) as [El|El].
    + assert (c = 0) as ->. { rewrite list_lookup_middle in Ec by done. congruence. }
      rewrite decide_True by done. destruct IH as (p & E & L & A & B); [lia| |].
      * intros j Hlt. destruct (decide (j = S k)) as [-> |]; [|apply Hj; lia].
        rewrite (proj2 (lookup_ge_None name (S k))) by lia. done.
      * exists p. split; [exact E|]. split; [lia|done].
    + rewrite lookup_app_l in Ec by lia. destruct (decide (c <> PATH_SEPARATOR)) as [Hc|Hc].
      * destruct IH as (p & E & L & A & B); [lia| |].
        -- intros j Hlt. destruct (decide (j = S k)) as [-> |]; [congruence|apply Hj; lia].
        -- exists p. split; [exact E|]. split; [lia|done].
      * exists (S k). split; [done|]. split; [lia|]. split; [|done]. intros _.
        apply dec_stable in Hc. congruence.
Qed.

Lemma chain_prefix q p n : forall a, (a + n <= p)%nat ->
  (fun i => take i q) <$> filter (fun i => q !! i = Some PATH_SEPARATOR) (seq a n) =
  (fun i => take i (take p q)) <$> filter (fun i => take p q !! i = Some PATH_SEPARATOR) (seq a n).
Proof.
  induction n as [|n IH]; intros a H; [done|]. cbn [seq]. specialize (IH (S a) ltac:(lia)).
  assert (E : take p q !! a = q !! a) by (by apply lookup_take_lt; lia).
  destruct (decide (q !! a = Some PATH_SEPARATOR)) as [Ha|Ha].
  - rewrite !filter_cons_True by congruence. cbn [fmap list_fmap]. f_equal; [|exact IH].
    rewrite take_take. by rewrite Nat.min_l by lia.
  - rewrite !filter_cons_False by congruence. exact IH.
Qed.

(** The last separator splits the chain. *)
Lemma chain_split q p : (p <= length q)%nat -> (p <> O -> q !! p = Some PATH_SEPARATOR) ->
  (forall j, (p < j)%nat -> q !! j <> Some PATH_SEPARATOR) ->
  chain q = if decide (p = O) then [q] else chain (take p q) ++ [q].
Proof.
  intros Hp HS HL. unfold chain.
  assert (Tail : forall a n, (p < a)%nat -> filter (fun i => q !! i = Some PATH_SEPARATOR) (seq a n) = []).
  { intros a n. revert a. induction n as [|n IH]; intros a Ha; [done|]. cbn [seq].
    rewrite filter_cons_False by (apply HL; lia). apply IH. lia. }
  case_decide as H0; [by rewrite Tail by lia|]. specialize (HS H0). pose proof (lookup_lt_Some _ _ _ HS) as Hlt.
  f_equal. replace (length q - 1)%nat with ((p - 1) + (1 + (length q - 1 - p)))%nat by lia.
  rewrite seq_app, filter_app, seq_app, filter_app. replace (1 + (p - 1))%nat with p by lia.
  rewrite (Tail (p + 1)%nat) by lia. cbn [seq]. rewrite app_nil_r, filter_cons_True, filter_nil, fmap_app by done. cbn [fmap list_fmap].
  f_equal. rewrite length_take, Nat.min_l by lia. apply chain_prefix. lia.
Qed.

(** ** kx_mkdirp *)

Section MkdirpSpec.
Context {HP FS : Type} `{!Allocator HP}.
Variable mkdir : list Z -> Z -> FS -> FS * Z * bool.
Variable mode : Z.
Abbreviation upath := (upath (HP := HP) (FS := FS)).

(** Making directories one after the other: an existing one is fine, any
    other failure stops. *)
Fixpoint make_all (fs : FS) (l : list (list Z)) : FS * Z :=
  match l with
  | [] => (fs, 0)
  | q :: l' =>
      let '(fs, rc, there) := mkdir q mode fs in
      if decide (rc = 0 \/ there = true) then make_all fs l' else (fs, -1)
  end.

Lemma make_all_snoc l : forall fs q, make_all fs (l ++ [q]) =
  let '(fs1, r) := make_all fs l in if decide (r = 0) then make_all fs1 [q] else (fs1, r).
Proof.
  induction l as [|x l IH]; intros fs q; [done|]. cbn [app make_all].
  destruct (mkdir x mode fs) as [[fs1 rc] there]. destruct (decide (rc = 0 \/ there = true)); [apply IH|done].
Qed.

Lemma make_all_result l : forall fs, (make_all fs l).2 = 0 \/ (make_all fs l).2 = -1.
Proof.
  induction l as [|x l IH]; intros fs; [by left|]. cbn [make_all].
  destruct (mkdir x mode fs) as [[fs1 rc] there]. case_decide; [apply IH|by right].
Qed.

Definition never_null : Prop := forall n (h : HP) p h', a_alloc n h = Ret (p, h') -> p <> 0.

Lemma free_runs p (s : upath) : p ∈ a_live (pheap s) -> p <> 0 ->
  runs (on_pheap (a_free p)) s (fun _ s' => pfs s' = pfs s /\ a_live (pheap s') = a_live (pheap s) ∖ {[p]}).
Proof.
  intros H Hp. destruct (a_free_live p (pheap s) H Hp) as (h & E & L).
  eexists _, _. split; [unfold on_pheap; rewrite E; reflexivity|]. done.
Qed.

Lemma free_null_runs (s : upath) : runs (on_pheap (a_free 0)) s (fun _ s' => s' = s).
Proof. eexists _, _. split; [unfold on_pheap; rewrite a_free_null; reflexivity|]. by destruct s. Qed.

(** What a call leaves. *)
Definition mkdirp_post (path : list Z) (s : upath) (r : Z) (s' : upath) : Prop :=
  a_live (pheap s') = a_live (pheap s) /\ (r = 0 \/ r = -1) /\
  (r = 0 \/ never_null -> make_all (pfs s) (chain (collapse path)) = (pfs s', r)).

(** The end of a call: free the parent, make the directory, free the name. *)
Lemma finish_runs (name : list Z) pn pp (s0 s : upath) fs0 (l : list (list Z)) :
  pn <> 0 -> pp <> 0 -> pn <> pp -> (pn ∉ a_live (pheap s0)) -> (pp ∉ a_live (pheap s0)) ->
  a_live (pheap s) = {[pp]} ∪ ({[pn]} ∪ a_live (pheap s0)) -> make_all fs0 l = (pfs s, 0) ->
  runs (on_pheap (a_free pp);; s ← gets (fun s => s);
        let '(fs, rc, there) := mkdir name mode (pfs s) in
        modify (fun s => UPath (pheap s) fs);; on_pheap (a_free pn);;
        mret (if decide (rc = 0 \/ there = true) then 0 else -1)) s (fun r s' =>
    a_live (pheap s') = a_live (pheap s0) /\ (r = 0 \/ r = -1) /\ make_all fs0 (l ++ [name]) = (pfs s', r)).
Proof.
  intros H1 H2 H3 H4 H5 HL HM. apply runs_bind.
  eapply runs_mono; [apply free_runs; [set_solver|done]|]. intros _ s1 [F1 L1]. apply runs_bind, runs_gets.
  rewrite F1. pose proof (make_all_snoc l fs0 name) as M. rewrite HM, decide_True in M by done. cbn [make_all] in M.
  destruct (mkdir name mode (pfs s)) as [[fs rc] there]. apply runs_bind, runs_modify. apply runs_bind.
  eapply runs_mono; [apply free_runs; [cbn; rewrite L1, HL; set_solver|done]|]. intros _ s2 [F2 L2]. apply runs_ret.
  split; [rewrite L2; cbn; rewrite L1, HL; set_solver|]. cbn in F2. split; [case_decide; auto|].
  rewrite M, F2. by case_decide.
Qed.

Lemma fail_runs pn pp (s0 s : upath) : pn <> 0 -> pp <> 0 -> pn <> pp ->
  (pn ∉ a_live (pheap s0)) -> (pp ∉ a_live (pheap s0)) ->
  a_live (pheap s) = {[pp]} ∪ ({[pn]} ∪ a_live (pheap s0)) ->
  runs (free_both pn pp) s (fun r s' => a_live (pheap s') = a_live (pheap s0) /\ r = -1 /\ pfs s' = pfs s).
Proof.
  intros H1 H2 H3 H4 H5 HL. unfold free_both. apply runs_bind.
  eapply runs_mono; [apply free_runs; [set_solver|done]|]. intros _ s1 [F1 L1]. apply runs_bind.
  eapply runs_mono; [apply free_runs; [set_solver|done]|]. intros _ s2 [F2 L2]. apply runs_ret.
  split; [rewrite L2, L1, HL; set_solver|]. split; [done|congruence].
Qed.

(** The allocator returns (it may give NULL). *)
Hypothesis alloc_returns : forall n (h : HP), exists p h', a_alloc n h = Ret (p, h').

Lemma zstrdup_runs str (s : upath) : runs (zstrdup str) s (fun c s' => pfs s' = pfs s /\
  (c = (0, []) /\ a_live (pheap s') = a_live (pheap s) /\ ~ never_null \/
   c.1 <> 0 /\ c.2 = str ++ [0] /\ (c.1 ∉ a_live (pheap s)) /\ a_live (pheap s') = {[c.1]} ∪ a_live (pheap s))).
Proof using alloc_returns.
  unfold zstrdup. apply runs_bind. destruct (alloc_returns (Z.of_nat (length str) + 1) (pheap s)) as (p & h & E).
  eexists _, _. split; [unfold on_pheap; rewrite E; reflexivity|]. apply runs_ret. split; [done|].
  destruct (decide (p = 0)) as [-> |Hp].
  - left. split; [done|]. split; [by apply (a_alloc_null _ _ _ E)|]. intros N. by apply (N _ _ _ _ E).
  - right. destruct (a_alloc_fresh _ _ _ _ E Hp) as [F L]. done.
Qed.

End MkdirpSpec.

Section MkdirpRuns.
Context {HP FS : Type} `{!Allocator HP}.
Variable mkdir : list Z -> Z -> FS -> FS * Z * bool.
Variable mode : Z.
Hypothesis alloc_returns : forall n (h : HP), exists p h', a_alloc n h = Ret (p, h').

(** The copy of the path, normalised. *)
Lemma path_normalize_runs path (s : upath (HP := HP) (FS := FS)) : nonul path ->
  runs (path_normalize path) s (fun c s' => pfs s' = pfs s /\
  (c.1 = 0 /\ a_live (pheap s') = a_live (pheap s) /\ ~ never_null (HP := HP) \/
   c.1 <> 0 /\ cstr c.2 = Some (collapse path) /\ (c.1 ∉ a_live (pheap s)) /\
   a_live (pheap s') = {[c.1]} ∪ a_live (pheap s))).
Proof using alloc_returns.
  intros N. unfold path_normalize. apply runs_bind.
  eapply runs_mono; [exact (zstrdup_runs alloc_returns path s)|].
  intros [p b] s1 (F & [([= -> ->] & L & NN)|(Hp & Eb & Fr & L)]); cbn [fst snd] in *.
  - rewrite decide_True by done. apply runs_ret. split; [done|]. by left.
  - rewrite decide_False by done. subst b. destruct (normalize_path path N) as (r & E).
    apply runs_bind. eapply runs_intro; [unfold lift; rewrite E; reflexivity|]. cbv beta. apply runs_ret.
    split; [done|]. right. split; [done|]. cbn. split; [|done]. apply cstr_app. by apply collapse_nonul.
Qed.

(** The parents, when there are any: by the recursive call. *)
Lemma parents_runs f name p (s s2 : upath (HP := HP) (FS := FS)) :
  (forall path s, nonul path -> (length path < f)%nat -> runs (kx_mkdirp mkdir f path mode) s (mkdirp_post mkdir mode path s)) ->
  nonul name -> (length name < S f)%nat -> single name -> pfs s2 = pfs s ->
  (p <> O -> name !! p = Some PATH_SEPARATOR) ->
  chain name = (if decide (p = O) then [name] else chain (take p name) ++ [name]) ->
  runs (if decide (p <> O) then r ← kx_mkdirp mkdir f (take p name) mode; mret (bool_decide (r = 0))
        else mret true) s2 (fun made s3 => a_live (pheap s3) = a_live (pheap s2) /\
     exists l r, chain name = l ++ [name] /\ made = bool_decide (r = 0) /\ (r = 0 \/ r = -1) /\
       (r = 0 \/ never_null (HP := HP) -> make_all mkdir mode (pfs s) l = (pfs s3, r))).
Proof.
  intros IH Nn Ln Sn F Ap Ch. destruct (decide (p = O)) as [-> |H0].
  - rewrite decide_False by tauto. apply runs_ret. split; [done|]. exists [], 0. split; [done|].
    split; [done|]. split; [by left|]. intros _. cbn. congruence.
  - rewrite decide_True by done. apply runs_bind.
    eapply runs_mono; [apply (IH (take p name) s2); [by apply Forall_take|]|].
    { specialize (Ap H0). apply lookup_lt_Some in Ap. rewrite length_take. lia. }
    intros r s3 (L3 & R3 & M3). apply runs_ret. split; [done|]. exists (chain (take p name)), r.
    split; [done|]. split; [done|]. split; [done|]. intros HH. specialize (M3 HH).
    rewrite collapse_id in M3 by (by apply single_take). by rewrite <- F.
Qed.

Lemma kx_mkdirp_runs fuel : forall path (s : upath (HP := HP) (FS := FS)), nonul path ->
  (length path < fuel)%nat -> runs (kx_mkdirp mkdir fuel path mode) s (mkdirp_post mkdir mode path s).
Proof using alloc_returns.
  induction fuel as [|f IH]; intros path s N Hf; [lia|]. cbn [kx_mkdirp]. apply runs_bind.
  eapply runs_mono; [exact (path_normalize_runs path s N)|].
  intros [pn bn] s1 (F1 & [(-> & L1 & NN)|(Hn & Cn & Fn & L1)]); cbn [fst snd] in *.
  { rewrite decide_True by done. unfold free_both. apply runs_bind.
    eapply runs_mono; [apply free_null_runs|]. intros _ ? ->. apply runs_bind.
    eapply runs_mono; [apply free_null_runs|]. intros _ ? ->. apply runs_ret.
    split; [done|]. split; [by right|]. intros [?|?]; [lia|done]. }
  rewrite decide_False by done. set (name := collapse path) in *.
  assert (Nn : nonul name) by (by apply collapse_nonul).
  apply runs_bind. eapply runs_intro; [unfold lift; rewrite Cn; reflexivity|]. cbv beta.
  apply runs_bind. eapply runs_mono; [exact (zstrdup_runs alloc_returns name s1)|].
  intros [pp bp] s2 (F2 & [([= -> ->] & L2 & NN)|(Hp & Ep & Fp & L2)]); cbn [fst snd] in *.
  { rewrite decide_True by done. unfold free_both. apply runs_bind.
    eapply runs_mono; [apply free_runs; [rewrite L2, L1; set_solver|done]|]. intros _ s3 [F3 L3]. apply runs_bind.
    eapply runs_mono; [apply free_null_runs|]. intros _ ? ->. apply runs_ret.
    split; [rewrite L3, L2, L1; set_solver|]. split; [by right|]. intros [?|?]; [lia|done]. }
  rewrite decide_False by done. subst bp.
  assert (Hpn : pn <> pp) by (rewrite L1 in Fp; set_solver).
  assert (Fp' : pp ∉ a_live (pheap s)) by (rewrite L1 in Fp; set_solver).
  assert (LL : a_live (pheap s2) = {[pp]} ∪ ({[pn]} ∪ a_live (pheap s))) by (by rewrite L2, L1).
  destruct (last_separator_run name (length name) (Nat.le_refl _)) as (p & El & Lp & Ap & Bp).
  { intros j Hj. by rewrite (proj2 (lookup_ge_None name j)) by lia. }
  apply runs_bind. eapply runs_intro; [unfold lift; rewrite El; reflexivity|]. cbv beta.
  assert (Lc : (length name <= length path)%nat) by apply collapse_length.
  assert (Hs : exists m, store (name ++ [0]) p 0 = Ret m /\ cstr m = Some (take p name)).
  { unfold store. rewrite poke_Some by (rewrite length_app; simpl; lia). eexists. split; [reflexivity|].
    rewrite take_app_le by lia. apply cstr_app. by apply Forall_take. }
  destruct Hs as (m & Em & Cm). apply runs_bind. eapply runs_intro; [unfold lift; rewrite Em; reflexivity|]. cbv beta.
  apply runs_bind. eapply runs_intro; [unfold lift; rewrite Cm; reflexivity|]. cbv beta. apply runs_bind.
  pose proof (chain_split name p Lp Ap Bp) as Ch.
  eapply runs_mono; [exact (parents_runs f name p s s2 IH Nn ltac:(lia) (collapse_single path) ltac:(congruence) Ap Ch)|].
  intros made s3 (L3 & l & r & El' & -> & R3 & M3).
  rewrite <- L3 in LL. destruct (bool_decide_reflect (r = 0)) as [-> |Hr]; cbn [negb].
  - eapply runs_mono; [exact (finish_runs mkdir mode name pn pp s s3 (pfs s) l Hn Hp Hpn Fn Fp' LL (M3 (or_introl eq_refl)))|].
    intros r' s4 (L4 & R4 & M4). split; [done|]. split; [done|]. intros _. fold name. by rewrite El'.
  - eapply runs_mono; [exact (fail_runs pn pp s s3 Hn Hp Hpn Fn Fp' LL)|].
    intros r' s4 (L4 & -> & F4). split; [done|]. split; [by right|]. intros [?|HH]; [lia|].
    fold name. rewrite El', make_all_snoc, (M3 (or_intror HH)), decide_False by done.
    destruct R3 as [-> | ->]; [done|]. by rewrite F4.
Qed.

End MkdirpRuns.

(** C35: [kx_mkdirp].  For every allocator that returns, every [mkdir] and
    every path, the call ends with 0 or -1 and every block given back once;
    unless an allocation gives NULL, it has called [mkdir] on the normalised
    path's directories, outermost first and each once, going on over existing
    ones and stopping at the first other failure, and 0 means that all were
    made or there; 0 means this with NULL allocations too. *)
Theorem kx_mkdirp_spec {HP FS : Type} `{!Allocator HP} (mkdir : list Z -> Z -> FS -> FS * Z * bool) mode path
    (s : upath (HP := HP) (FS := FS)) :
  (forall n (h : HP), exists p h', a_alloc n h = Ret (p, h')) -> nonul path ->
  runs (kx_mkdirp mkdir (S (length path)) path mode) s (fun r s' =>
    a_live (pheap s') = a_live (pheap s) /\ (r = 0 \/ r = -1) /\
    (r = 0 \/ (forall n (h : HP) p h', a_alloc n h = Ret (p, h') -> p <> 0) ->
     make_all mkdir mode (pfs s) (chain (collapse path)) = (pfs s', r))).
Proof. intros H N. exact (kx_mkdirp_runs mkdir mode H _ path s N (Nat.lt_succ_diag_r _)). Qed.

(** A file system as a set of directories; the parent must be there. *)
Definition parent_of (q : list Z) : list Z :=
  match last_separator (q ++ [0]) (length q) with Ret p => take p q | _ => [] end.
Definition set_mkdir (q : list Z) (mode : Z) (fs : gset (list Z)) : gset (list Z) * Z * bool :=
  if decide (q ∈ fs) then (fs, -1, true)
  else if decide (parent_of q = [] \/ parent_of q ∈ fs) then ({[q]} ∪ fs, 0, false) else (fs, -1, false).

(** "./a//b" in the empty file system. *)
Lemma kx_mkdirp_spec_witness :
  runs (kx_mkdirp set_mkdir 7 [46; 47; 97; 47; 47; 98] 511) (UPath ∅ {[ [46] ]} : upath (HP := gset Z)) (fun r s' =>
    r = 0 /\ a_live (pheap s') = ∅ /\ pfs s' = {[ [46; 47; 97; 47; 98] ]} ∪ ({[ [46; 47; 97] ]} ∪ {[ [46] ]})).
Proof.
  eapply runs_mono; [exact (kx_mkdirp_spec set_mkdir 511 [46; 47; 97; 47; 47; 98] (UPath ∅ {[ [46] ]})
    endless_total ltac:(apply (bool_decide_unpack _); vm_compute; exact I))|].
  intros r s' (L & _ & M).
  assert (NN : forall n (h : gset Z) p h', a_alloc n h = Ret (p, h') -> p <> 0).
  { intros n h p h' [= <- _]. pose proof (highest_pos h). lia. }
  specialize (M (or_intror NN)).
  assert (E : make_all set_mkdir 511 {[ [46] ]} (chain (collapse [46; 47; 97; 47; 47; 98])) =
    ({[ [46; 47; 97; 47; 98] ]} ∪ ({[ [46; 47; 97] ]} ∪ {[ [46] ]}), 0)) by (vm_compute; reflexivity).
  cbn [pfs] in M. rewrite E in M. injection M as <- <-. split; [reflexivity|]. split; [exact L|reflexivity].
Defined.
