(* ===== verification/Terminal.v ===== *)
(** * The terminal below the line editor (src/src/linenoise.c, first part)

    The state of the library: what the system answers, the bytes typed and
    written, the terminal modes, the globals of linenoise.c, and the files the
    history is kept in.  [read], [write], [malloc], [tcgetattr], [tcsetattr]
    and [ioctl] are system code: the [n]-th request that may fail succeeds
    when [ok n] is true, and nothing is assumed of [ok].  The functions of the
    file that talk to the terminal only are here: raw mode, the width of the
    terminal, and the append buffer that collects what is written. *)

From Stdlib Require Import ZArith Lia.
From stdpp Require Import prelude gmap.
From S2P Require Import Prelude.

(** ** State *)

(** One [read] of a byte: the byte, the end of the input (0), or -1. *)
Inductive rd := Byte (c : Z) | Eof | Err.

Record env := Env {
  ok : nat -> bool;
  isatty : bool;
  TERM : option (list Z);
  winsize : option Z
}.

Record io := IO {
  input : list rd;
  out : list Z;
  beeps : nat;
  tick : nat
}.

(** The flag words of [struct termios] that raw mode changes. *)
Record termios := Termios {
  c_iflag : Z; c_oflag : Z; c_cflag : Z; c_lflag : Z;
  c_vmin : Z; c_vtime : Z
}.

Record modes := Modes {
  cur_termios : termios;
  orig_termios : termios;
  rawmode : bool;
  atexit_registered : bool;
  maskmode : bool;
  mlmode : bool
}.

(** An entry of the array of history lines: NULL, an owned string, or a
    pointer that was freed. *)
Inductive slot := Null | Str (s : list Z) | Freed.

(** [slots] is [None] when [history] is NULL. *)
Record hist := Hist {
  slots : option (list slot);
  history_len : nat;
  history_max_len : nat
}.

(** The callbacks.  A completion callback adds the lines of a list one by
    one; a hints callback gives a string, a colour and a weight. *)
Record hooks := Hooks {
  completionCallback : option (list Z -> list (list Z));
  hintsCallback : option (list Z -> option (list Z * Z * Z));
  freeHintsCallback : bool;
  freed_hints : list (list Z)
}.

Record tty := Tty {
  tenv : env;
  tio : io;
  tmodes : modes;
  thist : hist;
  thooks : hooks;
  files : gmap (list Z) (list Z)
}.

Definition set_io (f : io -> io) (s : tty) : tty :=
  Tty (tenv s) (f (tio s)) (tmodes s) (thist s) (thooks s) (files s).
Definition set_modes (f : modes -> modes) (s : tty) : tty :=
  Tty (tenv s) (tio s) (f (tmodes s)) (thist s) (thooks s) (files s).
Definition set_hist (f : hist -> hist) (s : tty) : tty :=
  Tty (tenv s) (tio s) (tmodes s) (f (thist s)) (thooks s) (files s).
Definition set_hooks (f : hooks -> hooks) (s : tty) : tty :=
  Tty (tenv s) (tio s) (tmodes s) (thist s) (f (thooks s)) (files s).
Definition set_files (f : gmap (list Z) (list Z) -> gmap (list Z) (list Z)) (s : tty) : tty :=
  Tty (tenv s) (tio s) (tmodes s) (thist s) (thooks s) (f (files s)).

Definition lift {A} (m : outcome A) : ST tty A := fun s => a ← m; Ret (a, s).

(** ** System calls *)

Definition request : ST tty bool := fun s =>
  Ret (ok (tenv s) (tick (tio s)),
       set_io (fun i => IO (input i) (out i) (beeps i) (S (tick i))) s).

Definition read : ST tty rd := fun s =>
  match input (tio s) with
  | [] => Ret (Eof, s)
  | e :: l => Ret (e, set_io (fun i => IO l (out i) (beeps i) (tick i)) s)
  end.

Definition write (bs : list Z) : ST tty bool :=
  r ← request;
  if r : bool then modify (set_io (fun i => IO (input i) (out i ++ bs) (beeps i) (tick i)));; mret true
  else mret false.

(** [printf] to the standard output. *)
Definition print (bs : list Z) : ST tty unit :=
  modify (set_io (fun i => IO (input i) (out i ++ bs) (beeps i) (tick i))).

Definition linenoiseBeep : ST tty unit :=
  modify (set_io (fun i => IO (input i) (out i) (S (beeps i)) (tick i))).

(** [strdup]: NULL when the allocation fails. *)
Definition strdup (s : list Z) : ST tty (option (list Z)) :=
  r ← request; mret (if r : bool then Some s else None).

(** ** Modes *)

Definition KEY_NULL : Z := 0.
Definition CTRL_A : Z := 1.
Definition CTRL_B : Z := 2.
Definition CTRL_C : Z := 3.
Definition CTRL_D : Z := 4.
Definition CTRL_E : Z := 5.
Definition CTRL_F : Z := 6.
Definition CTRL_H : Z := 8.
Definition TAB : Z := 9.
Definition CTRL_K : Z := 11.
Definition CTRL_L : Z := 12.
Definition ENTER : Z := 13.
Definition CTRL_N : Z := 14.
Definition CTRL_P : Z := 16.
Definition CTRL_T : Z := 20.
Definition CTRL_U : Z := 21.
Definition CTRL_W : Z := 23.
Definition ESC : Z := 27.
Definition BACKSPACE : Z := 127.

Definition set_maskmode (b : bool) (m : modes) : modes :=
  Modes (cur_termios m) (orig_termios m) (rawmode m) (atexit_registered m) b (mlmode m).

Definition linenoiseMaskModeEnable : ST tty unit := modify (set_modes (set_maskmode true)).
Definition linenoiseMaskModeDisable : ST tty unit := modify (set_modes (set_maskmode false)).

Definition linenoiseSetMultiLine (ml : Z) : ST tty unit :=
  modify (set_modes (fun m => Modes (cur_termios m) (orig_termios m) (rawmode m)
                                (atexit_registered m) (maskmode m) (bool_decide (ml <> 0)))).

(** "dumb", "cons25", "emacs" *)
Definition unsupported_term : list (list Z) :=
  [[100; 117; 109; 98]; [99; 111; 110; 115; 50; 53]; [101; 109; 97; 99; 115]].

Definition tolower (c : Z) : Z := if decide (65 <= c <= 90) then c + 32 else c.

Definition strcasecmp_eq (a b : list Z) : bool := bool_decide (tolower <$> a = tolower <$> b).

Definition isUnsupportedTerm : ST tty bool :=
  gets (fun s => match TERM (tenv s) with
                 | None => false
                 | Some term => existsb (strcasecmp_eq term) unsupported_term
                 end).

(** [x &= ~m] *)
Definition clear_bits (x m : Z) : Z := Z.ldiff x m.

(** The constants of termios.h (Linux). *)
Definition BRKINT : Z := 0x2.
Definition ICRNL : Z := 0x100.
Definition INPCK : Z := 0x10.
Definition ISTRIP : Z := 0x20.
Definition IXON : Z := 0x400.
Definition OPOST : Z := 0x1.
Definition CS8 : Z := 0x30.
Definition ECHO : Z := 0x8.
Definition ICANON : Z := 0x2.
Definition IEXTEN : Z := 0x8000.
Definition ISIG : Z := 0x1.

Definition make_raw (t : termios) : termios :=
  Termios
    (clear_bits (c_iflag t) (Z.lor BRKINT (Z.lor ICRNL (Z.lor INPCK (Z.lor ISTRIP IXON)))))
    (clear_bits (c_oflag t) OPOST)
    (Z.lor (c_cflag t) CS8)
    (clear_bits (c_lflag t) (Z.lor ECHO (Z.lor ICANON (Z.lor IEXTEN ISIG))))
    1 0.

(** [tcgetattr] and [tcsetattr]: false is -1. *)
Definition tcgetattr_orig : ST tty bool :=
  r ← request;
  if r : bool then
    modify (set_modes (fun m => Modes (cur_termios m) (cur_termios m) (rawmode m)
                                  (atexit_registered m) (maskmode m) (mlmode m)));; mret true
  else mret false.

Definition tcsetattr (f : modes -> termios) : ST tty bool :=
  r ← request;
  if r : bool then
    modify (set_modes (fun m => Modes (f m) (orig_termios m) (rawmode m)
                                  (atexit_registered m) (maskmode m) (mlmode m)));; mret true
  else mret false.

Definition set_rawmode (b : bool) (m : modes) : modes :=
  Modes (cur_termios m) (orig_termios m) b (atexit_registered m) (maskmode m) (mlmode m).

Definition register_atexit (m : modes) : modes :=
  Modes (cur_termios m) (orig_termios m) (rawmode m) true (maskmode m) (mlmode m).

Definition enableRawMode : ST tty Z :=
  t ← gets (fun s => isatty (tenv s));
  if negb t then mret (-1) else
  a ← gets (fun s => atexit_registered (tmodes s));
  (if a : bool then mret tt else modify (set_modes register_atexit));;
  g ← tcgetattr_orig;
  if negb g then mret (-1) else
  r ← tcsetattr (fun m => make_raw (orig_termios m));
  if negb r then mret (-1) else
  modify (set_modes (set_rawmode true));;
  mret 0.

Definition disableRawMode : ST tty unit :=
  raw ← gets (fun s => rawmode (tmodes s));
  if negb raw then mret tt else
  r ← tcsetattr orig_termios;
  if r : bool then modify (set_modes (set_rawmode false)) else mret tt.

(** ** The width of the terminal *)

(** "ESC[6n", "ESC[999C" and "ESC[nD". *)
Definition seq_report : list Z := [27; 91; 54; 110].
Definition seq_right : list Z := [27; 91; 57; 57; 57; 67].
Definition seq_left (n : Z) : list Z := [27; 91] ++ dec n ++ [68].

Definition int_range (z : Z) : Prop := - 2 ^ 31 <= z < 2 ^ 31.

(** "%d" of [sscanf]: [None] when no number is there; a number that is not an
    [int] is undefined. *)
Definition scan_int (l : list Z) : outcome (option (Z * list Z)) :=
  let l := skip_spaces l in
  let '(neg, l) := match l with
                   | 45 :: l' => (true, l')
                   | 43 :: l' => (false, l')
                   | _ => (false, l)
                   end in
  let '(ds, l) := span_digits l in
  if decide (ds = []) then Ret None else
  let v := undigits 0 ds in
  let v := if neg then - v else v in
  if decide (int_range v) then Ret (Some (v, l)) else Undef.

(** [sscanf(s, "%d;%d", &rows, &cols) == 2]: the columns. *)
Definition scan_position (l : list Z) : outcome (option Z) :=
  r ← scan_int l;
  match r with
  | Some (_, 59 :: l') =>
      c ← scan_int l'; mret (match c with Some (cols, _) => Some cols | None => None end)
  | _ => mret None
  end.

(** The bytes of the answer before the 'R': at most 31. *)
Fixpoint read_report (n : nat) : ST tty (list Z) :=
  match n with
  | O => mret []
  | S n' =>
      c ← read;
      match c with
      | Byte c => if decide (c = 82) then mret [] else l ← read_report n'; mret (c :: l)
      | _ => mret []
      end
  end.

Definition getCursorPosition : ST tty Z :=
  w ← write seq_report;
  if negb w then mret (-1) else
  buf ← read_report 31;
  text ← lift (of_option (cstr (buf ++ [0])));
  match text with
  | 27 :: 91 :: l =>
      r ← lift (scan_position l); mret (match r with Some cols => cols | None => -1 end)
  | _ => mret (-1)
  end.

(** The terminal itself is asked when the system does not know. *)
Definition getColumns_query : ST tty Z :=
  start ← getCursorPosition;
  if decide (start = -1) then mret 80 else
  w ← write seq_right;
  if negb w then mret 80 else
  cols ← getCursorPosition;
  if decide (cols = -1) then mret 80 else
  (if decide (cols > start) then _ ← write (seq_left (i32 (cols - start))); mret tt else mret tt);;
  mret cols.

Definition getColumns : ST tty Z :=
  ws ← gets (fun s => winsize (tenv s));
  match ws with
  | Some w => if decide (w <> 0) then mret w else getColumns_query
  | None => getColumns_query
  end.

(** "ESC[H ESC[2J" *)
Definition seq_clear : list Z := [27; 91; 72; 27; 91; 50; 74].
Definition linenoiseClearScreen : ST tty unit := _ ← write seq_clear; mret tt.

(** ** Completion lists *)

(** [linenoiseAddCompletion]: two allocations, either may fail. *)
Definition linenoiseAddCompletion (lc : list (list Z)) (str : list Z) : ST tty (list (list Z)) :=
  copy ← request;
  if negb copy then mret lc else
  cvec ← request;
  if negb cvec then mret lc else mret (lc ++ [str]).

(** The callback adds its lines in order. *)
Fixpoint add_completions (strs : list (list Z)) (lc : list (list Z)) : ST tty (list (list Z)) :=
  match strs with
  | [] => mret lc
  | str :: strs' => lc ← linenoiseAddCompletion lc str; add_completions strs' lc
  end.

Definition set_completion (f : option (list Z -> list (list Z))) (h : hooks) : hooks :=
  Hooks f (hintsCallback h) (freeHintsCallback h) (freed_hints h).
Definition set_hints (f : option (list Z -> option (list Z * Z * Z))) (h : hooks) : hooks :=
  Hooks (completionCallback h) f (freeHintsCallback h) (freed_hints h).
Definition set_freehints (b : bool) (h : hooks) : hooks :=
  Hooks (completionCallback h) (hintsCallback h) b (freed_hints h).

Definition linenoiseSetCompletionCallback f : ST tty unit := modify (set_hooks (set_completion f)).
Definition linenoiseSetHintsCallback f : ST tty unit := modify (set_hooks (set_hints f)).
Definition linenoiseSetFreeHintsCallback b : ST tty unit := modify (set_hooks (set_freehints b)).

(** ** The append buffer *)

(** [b] and [len] of [struct abuf] together: the bytes collected so far. *)
Definition abInit : list Z := [].

(** [s] is the object read, [len] the number of its bytes that are copied.
    When [realloc] fails the piece is dropped. *)
Definition abAppend (ab : list Z) (s : list Z) (len : Z) : ST tty (list Z) :=
  r ← request;
  if negb r then mret ab else
  if decide (0 <= len <= Z.of_nat (length s)) then mret (ab ++ take (Z.to_nat len) s) else undef.

Definition abAppend_all (ab : list Z) (s : list Z) : ST tty (list Z) := abAppend ab s (Z.of_nat (length s)).

(** ** What the terminal functions leave alone *)

Definition quiet (s s' : tty) : Prop :=
  tenv s' = tenv s /\ input (tio s') = input (tio s) /\ tmodes s' = tmodes s /\
  thist s' = thist s /\ completionCallback (thooks s') = completionCallback (thooks s) /\
  hintsCallback (thooks s') = hintsCallback (thooks s) /\ files s' = files s.

#[export] Instance quiet_preorder : PreOrder quiet.
Proof.
  split; [by intros s|]. intros s t u (?&?&?&?&?&?&?) (?&?&?&?&?&?&?).
  unfold quiet. split_and!; congruence.
Qed.

Lemma request_runs s : runs request s (fun _ s' => quiet s s' /\ out (tio s') = out (tio s) /\
  freed_hints (thooks s') = freed_hints (thooks s)).
Proof. eexists _, _. split; [reflexivity|]. done. Qed.

(** Every allocation and every write succeeds. *)
Definition all_ok (s : tty) : Prop := forall n, ok (tenv s) n = true.

Lemma all_ok_quiet s s' : quiet s s' -> all_ok s -> all_ok s'.
Proof. intros (E & _) H n. rewrite E. apply H. Qed.

Lemma write_runs bs s : runs (write bs) s (fun r s' => quiet s s' /\
  out (tio s') = (if r : bool then out (tio s) ++ bs else out (tio s)) /\ (all_ok s -> r = true)).
Proof.
  unfold write. apply runs_bind. eexists _, _. split; [reflexivity|].
  destruct (ok (tenv s) (tick (tio s))) eqn:E.
  - apply runs_bind, runs_modify, runs_ret. done.
  - apply runs_ret. split; [done|]. split; [done|]. intros H. by rewrite H in E.
Qed.

Lemma abAppend_runs ab bs len s : 0 <= len <= Z.of_nat (length bs) ->
  runs (abAppend ab bs len) s (fun ab' s' => quiet s s' /\ out (tio s') = out (tio s) /\
    (all_ok s -> ab' = ab ++ take (Z.to_nat len) bs)).
Proof.
  intros H. unfold abAppend. apply runs_bind. eexists _, _. split; [reflexivity|].
  destruct (ok (tenv s) (tick (tio s))) eqn:E; cbn [negb].
  - rewrite decide_True by done. by apply runs_ret.
  - apply runs_ret. split; [done|]. split; [done|]. intros A. by rewrite A in E.
Qed.

Lemma abAppend_all_runs ab bs s :
  runs (abAppend_all ab bs) s (fun ab' s' => quiet s s' /\ out (tio s') = out (tio s) /\
    (all_ok s -> ab' = ab ++ bs)).
Proof.
  unfold abAppend_all. eapply runs_mono; [apply abAppend_runs; lia|]. intros ab' s' (Q & O & H).
  split; [done|]. split; [done|]. intros A. rewrite H by done. by rewrite Nat2Z.id, firstn_all.
Qed.
