(* ===== verification/History.v ===== *)
(** * The history of the line editor (src/src/linenoise.c, last part)

    The array of lines, its bound, and the file it is saved in.  An entry of
    the array is NULL, a string the array owns, or a pointer that was freed:
    comparing, printing or freeing it again is then [Undef].  The
    specification is a list of strings with a bound. *)

From Stdlib Require Import ZArith Lia.
From stdpp Require Import prelude gmap.
From S2P Require Import Prelude.
From S2P Require Import Terminal.

Definition LINENOISE_DEFAULT_HISTORY_MAX_LEN : nat := 100.
Definition LINENOISE_MAX_LINE : nat := 4096.

Definition hist0 : hist := Hist None 0 LINENOISE_DEFAULT_HISTORY_MAX_LEN.

(** ** Operations *)

Definition put_hist (h : hist) : ST tty unit := modify (set_hist (fun _ => h)).

(** [history[i]], a load inside the array. *)
Definition get_slot (h : hist) (i : nat) : outcome slot :=
  sl ← of_option (slots h); of_option (sl !! i).

(** Reading the string of an entry. *)
Definition slot_str (x : slot) : outcome (list Z) :=
  match x with Str s => Ret s | _ => Undef end.

(** [free(history[i])]: the entry keeps the dead pointer. *)
Definition free_slot (h : hist) (i : nat) : outcome hist :=
  x ← get_slot h i;
  match x, slots h with
  | Str _, Some sl => Ret (Hist (Some (<[i := Freed]> sl)) (history_len h) (history_max_len h))
  | Null, _ => Ret h
  | _, _ => Undef
  end.

(** [for (j = 0; j < n; j++) free(history[j])]. *)
Fixpoint free_slots (j n : nat) (h : hist) : outcome hist :=
  match n with
  | O => Ret h
  | S n' => h ← free_slot h j; free_slots (S j) n' h
  end.

(** [history[i] = x], a store inside the array. *)
Definition set_slot (h : hist) (i : nat) (x : slot) : outcome hist :=
  match slots h with
  | Some sl => if decide (i < length sl)%nat
               then Ret (Hist (Some (<[i := x]> sl)) (history_len h) (history_max_len h)) else Undef
  | None => Undef
  end.

Definition set_len_hist (n : nat) (h : hist) : hist := Hist (slots h) n (history_max_len h).

(** [memmove(history, history+1, (max - 1) pointers)]. *)
Definition shift_slots (sl : list slot) (max : nat) : outcome (list slot) :=
  if decide (max <= length sl)%nat then Ret (take (max - 1) (drop 1 sl) ++ drop (max - 1) sl) else Undef.

Definition linenoiseHistoryAdd (line : list Z) : ST tty Z :=
  h ← gets thist;
  if decide (history_max_len h = O) then mret 0 else
  (* initialization on first call *)
  r ← (match slots h with
       | Some _ => mret true
       | None => request
       end);
  if negb r then mret 0 else
  let h := match slots h with
           | Some _ => h
           | None => Hist (Some (replicate (history_max_len h) Null)) (history_len h) (history_max_len h)
           end in
  put_hist h;;
  dup ← lift (if decide (history_len h = O) then Ret false
              else x ← get_slot h (history_len h - 1); s ← slot_str x; Ret (bool_decide (s = line)));
  if dup : bool then mret 0 else
  linecopy ← strdup line;
  match linecopy with
  | None => mret 0
  | Some copy =>
      h ← (if decide (history_len h = history_max_len h)
           then h ← lift (free_slot h 0);
                sl ← lift (of_option (slots h));
                sl ← lift (shift_slots sl (history_max_len h));
                mret (Hist (Some sl) (history_len h - 1) (history_max_len h))
           else mret h);
      h ← lift (set_slot h (history_len h) (Str copy));
      put_hist (set_len_hist (history_len h + 1) h);;
      mret 1
  end.

Definition linenoiseHistorySetMaxLen (len : Z) : ST tty Z :=
  if decide (len < 1) then mret 0 else
  h ← gets thist;
  let n := Z.to_nat len in
  let finish h' :=
    let h' := Hist (slots h') (history_len h') n in
    put_hist (if decide (n < history_len h')%nat then set_len_hist n h' else h');;
    mret 1 in
  match slots h with
  | None => finish h
  | Some _ =>
      r ← request;
      if negb r then mret 0 else
      let tocopy := history_len h in
      h ← (if decide (n < tocopy)%nat then lift (free_slots 0 (tocopy - n) h) else mret h);
      let tocopy := if decide (n < tocopy)%nat then n else tocopy in
      sl ← lift (of_option (slots h));
      if decide (history_len h <= length sl)%nat then
        finish (Hist (Some (take tocopy (drop (history_len h - tocopy) sl) ++ replicate (n - tocopy) Null))
                  (history_len h) (history_max_len h))
      else undef
  end.

(** [freeHistory]: the array goes away with its lines; [history] keeps the
    dead pointer, which nothing uses after the exit handlers. *)
Definition freeHistory : ST tty unit :=
  h ← gets thist;
  match slots h with
  | None => mret tt
  | Some _ => h ← lift (free_slots 0 (history_len h) h); put_hist h
  end.

Definition linenoiseAtExit : ST tty unit := disableRawMode;; freeHistory.

(** ** The file *)

(** "%s\n" of the entries from [j] on. *)
Fixpoint print_slots (h : hist) (j n : nat) : outcome (list Z) :=
  match n with
  | O => Ret []
  | S n' => x ← get_slot h j; s ← slot_str x; l ← print_slots h (S j) n'; Ret (s ++ 10 :: l)
  end.

Definition linenoiseHistorySave (filename : list Z) : ST tty Z :=
  r ← request;
  if negb r then mret (-1) else
  h ← gets thist;
  text ← lift (print_slots h 0 (history_len h));
  modify (set_files (<[filename := text]>));;
  mret 0.

(** [strchr(buf,'\r')], else [strchr(buf,'\n')], becomes the end. *)
Definition cut_line (s : list Z) : list Z :=
  match before 13 s with
  | Some s' => s'
  | None => default s (before 10 s)
  end.

(** The [while] loop; [fuel] bounds the lines. *)
Fixpoint load_loop (fuel : nat) (l : list Z) : ST tty unit :=
  match l with
  | [] => mret tt
  | _ =>
      match fuel with
      | O => no_fuel
      | S f =>
          let (bs, l') := fgets (LINENOISE_MAX_LINE - 1) l in
          buf ← lift (of_option (cstr (bs ++ [0])));
          _ ← linenoiseHistoryAdd (cut_line buf);
          load_loop f l'
      end
  end.

Definition linenoiseHistoryLoad (filename : list Z) : ST tty Z :=
  fs ← gets files;
  match fs !! filename with
  | None => mret (-1)
  | Some l => load_loop (length l) l;; mret 0
  end.

(** ** The list behind the array *)

Definition hist_rep (h : hist) (l : list (list Z)) : Prop :=
  history_len h = length l /\ (length l <= history_max_len h)%nat /\
  match slots h with
  | None => l = []
  | Some sl => length sl = history_max_len h /\ take (length l) sl = Str <$> l
  end.

(** Specification of [linenoiseHistoryAdd] and [linenoiseHistorySetMaxLen]. *)
Definition hist_add (max : nat) (l : list (list Z)) (line : list Z) : list (list Z) :=
  if decide (last l = Some line) then l
  else (if decide (length l = max) then tail l else l) ++ [line].

Definition hist_keep (n : nat) (l : list (list Z)) : list (list Z) := drop (length l - n) l.

(** Everything but the history and the count of requests is unchanged. *)
Definition only_hist (s s' : tty) : Prop :=
  tenv s' = tenv s /\ input (tio s') = input (tio s) /\ out (tio s') = out (tio s) /\
  tmodes s' = tmodes s /\ thooks s' = thooks s /\ files s' = files s.

#[export] Instance only_hist_preorder : PreOrder only_hist.
Proof.
  split; [by intros s|]. intros s t u (?&?&?&?&?&?) (?&?&?&?&?&?).
  unfold only_hist. split_and!; congruence.
Qed.

Lemma rep_lookup h l i s : hist_rep h l -> l !! i = Some s -> get_slot h i = Ret (Str s).
Proof.
  intros (_ & _ & R) Hi. unfold get_slot. destruct (slots h) as [sl|]; [|by subst].
  destruct R as [_ R]. cbn [of_option mbind outcome_bind].
  assert (E : take (length l) sl !! i = Some (Str s)) by (rewrite R, list_lookup_fmap, Hi; done).
  rewrite lookup_take_Some in E. destruct E as [E _]. by rewrite E.
Qed.

Lemma hist_add_length max l line : (length l <= max)%nat -> (0 < max)%nat ->
  (length (hist_add max l line) <= max)%nat.
Proof.
  intros H Hm. unfold hist_add. case_decide; [done|]. rewrite length_app. simpl.
  destruct (decide (length l = max)); [|lia]. destruct l; simpl in *; lia.
Qed.

(** The test for a duplicate of the last line. *)
Lemma dup_test h l line : hist_rep h l ->
  (if decide (history_len h = O) then Ret false
   else x ← get_slot h (history_len h - 1); s ← slot_str x; Ret (bool_decide (s = line))) =
  Ret (bool_decide (last l = Some line)).
Proof.
  intros R. pose proof R as (L & _). rewrite L. destruct (decide (length l = O)) as [E|E].
  - apply nil_length_inv in E as ->. done.
  - destruct l as [|x l] using rev_ind; [done|]. rewrite length_app. cbn [length].
    rewrite (rep_lookup h (l ++ [x]) _ x R).
    + cbn [mbind outcome_bind slot_str]. rewrite last_snoc. f_equal. apply bool_decide_ext. naive_solver.
    + rewrite lookup_app_r by lia. by replace (length l + 1 - 1 - length l)%nat with O by lia.
Qed.

(** Dropping the oldest line of a full array. *)
Lemma drop_oldest h l : hist_rep h l -> length l = history_max_len h -> l <> [] ->
  exists h' sl, free_slot h 0 = Ret h' /\ slots h' = Some sl /\ history_len h' = length l /\
    history_max_len h' = history_max_len h /\
    exists sl', shift_slots sl (history_max_len h) = Ret sl' /\ length sl' = history_max_len h /\
      take (length l - 1) sl' = Str <$> tail l.
Proof.
  intros R Hm Hl. destruct l as [|x l]; [done|]. unfold free_slot.
  rewrite (rep_lookup h (x :: l) 0 x R eq_refl). cbn [mbind outcome_bind].
  destruct R as (L & _ & R). destruct (slots h) as [sl|]; [|done]. destruct R as [Ls R].
  rewrite take_ge in R by lia. subst sl.
  eexists _, _. split; [reflexivity|]. split; [reflexivity|]. split; [done|]. split; [done|].
  unfold shift_slots. rewrite decide_True by (rewrite length_insert; lia).
  eexists. split; [reflexivity|]. cbn [fmap list_fmap insert list_insert drop tail length] in *.
  rewrite <- Hm. replace (S (length l) - 1)%nat with (length l) by lia.
  rewrite drop_0, (take_ge (Str <$> l)) by (rewrite length_fmap; lia). split.
  - rewrite length_app, length_drop. cbn [length]. rewrite length_fmap. lia.
  - rewrite take_app_le by (rewrite length_fmap; lia). by rewrite take_ge by (rewrite length_fmap; lia).
Qed.

Lemma set_slot_rep (sl : list slot) (k max : nat) l x : length sl = max -> (length l < max)%nat ->
  take (length l) sl = Str <$> l -> k = length l ->
  exists h', set_slot (Hist (Some sl) k max) k (Str x) = Ret h' /\
    hist_rep (set_len_hist (history_len h' + 1) h') (l ++ [x]) /\ history_max_len h' = max.
Proof.
  intros L1 L2 T ->. unfold set_slot. cbn [slots]. rewrite decide_True by lia.
  eexists. split; [reflexivity|]. split; [|done]. unfold hist_rep, set_len_hist. cbn.
  rewrite length_app. cbn [length]. split; [done|]. split; [lia|]. split; [by rewrite length_insert|].
  rewrite fmap_app, <- T. cbn [fmap list_fmap].
  rewrite Nat.add_1_r, (take_S_r _ _ (Str x)).
  - f_equal. by rewrite take_insert_ge by lia.
  - apply list_lookup_insert_eq. lia.
Qed.

(** The array is there, or is made. *)
Lemma first_use h l max : hist_rep h l -> history_max_len h = max -> (0 < max)%nat ->
  let h1 := match slots h with Some _ => h | None => Hist (Some (replicate max Null)) (history_len h) max end in
  hist_rep h1 l /\ history_max_len h1 = max /\ exists sl, slots h1 = Some sl.
Proof.
  intros R Hm H0. cbv zeta. destruct (slots h) as [sl|] eqn:E; [split; [done|split; [done|by exists sl]]|].
  destruct R as (A & B & C). rewrite E in C. subst l.
  split; [|split; [done|by eexists]]. split; [done|]. split; [cbn; lia|]. cbn. by rewrite length_replicate.
Qed.

(** A full array loses its oldest line. *)
Lemma make_room_runs h1 l sl max (s : tty) : hist_rep h1 l -> slots h1 = Some sl -> history_max_len h1 = max -> (0 < max)%nat ->
  let l' := if decide (length l = max) then tail l else l in
  runs (if decide (history_len h1 = history_max_len h1)
     then h ← lift (free_slot h1 0); sl ← lift (of_option (slots h));
          sl ← lift (shift_slots sl (history_max_len h));
          mret (Hist (Some sl) (history_len h - 1) (history_max_len h))
     else mret h1) s (fun h s' => s' = s /\ exists sl, h = Hist (Some sl) (length l') max /\
        length sl = max /\ take (length l') sl = Str <$> l' /\ (length l' < max)%nat).
Proof.
  intros R1 S1 M1 Hm l'. pose proof R1 as (L & B & _). rewrite L, M1. unfold l'. destruct (decide (length l = max)) as [F|F].
  - destruct (drop_oldest h1 l R1) as (h' & sl1 & E1 & S2 & L2 & M2 & sl2 & E2 & L3 & T);
      [congruence|intros ->; simpl in *; lia|].
    apply runs_bind. eapply runs_intro; [unfold lift; rewrite E1; reflexivity|]. cbv beta.
    apply runs_bind. eapply runs_intro; [unfold lift; rewrite S2; reflexivity|]. cbv beta.
    apply runs_bind. eapply runs_intro; [unfold lift; rewrite M2, E2; reflexivity|]. cbv beta.
    apply runs_ret. split; [done|]. exists sl2. rewrite L2, M2, M1.
    assert (length (tail l) = (length l - 1)%nat) as Lt by (destruct l; simpl; lia).
    rewrite Lt. split_and!; [done|congruence|done|lia].
  - apply runs_ret. split; [done|]. exists sl.
    destruct R1 as (_ & B' & R1). rewrite S1 in R1. destruct R1 as [R1 R2].
    split; [destruct h1; cbn in *; congruence|]. split; [congruence|]. split; [done|lia].
Qed.

Lemma historyAdd_runs line s l : hist_rep (thist s) l -> (0 < history_max_len (thist s))%nat ->
  runs (linenoiseHistoryAdd line) s (fun r s' => only_hist s s' /\
    history_max_len (thist s') = history_max_len (thist s) /\
    exists l', hist_rep (thist s') l' /\
      (r = 1 /\ last l <> Some line /\ l' = hist_add (history_max_len (thist s)) l line \/ r = 0 /\ l' = l) /\
      (all_ok s -> l' = hist_add (history_max_len (thist s)) l line)).
Proof.
  intros R Hm. unfold linenoiseHistoryAdd. apply runs_bind, runs_gets.
  set (max := history_max_len (thist s)) in *. rewrite decide_False by lia.
  destruct (first_use (thist s) l max R eq_refl Hm) as (R1 & M1 & sl & S1).
  apply runs_bind. assert (Q : runs (match slots (thist s) with Some _ => mret true | None => request end) s
     (fun r s' => only_hist s s' /\ thist s' = thist s /\ (all_ok s -> r = true))).
  { destruct (slots (thist s)); [by apply runs_ret|].
    eexists _, _. split; [reflexivity|]. split; [done|]. split; [done|]. intros A. apply A. }
  eapply runs_mono; [exact Q|]. clear Q. intros r s1 (K1 & T1 & A1). destruct r; cbn [negb].
  2:{ apply runs_ret. rewrite T1. split; [done|]. split; [done|]. exists l. split; [done|].
      split; [by right|]. intros A. by specialize (A1 A). }
  set (h1 := match slots (thist s) with Some _ => _ | None => _ end) in *. clearbody h1.
  apply runs_bind, runs_modify. apply runs_bind.
  eapply runs_intro. { unfold lift. rewrite (dup_test h1 l line R1). reflexivity. }
  cbv beta. set (s2 := set_hist _ s1). assert (K2 : only_hist s s2) by exact K1.
  assert (T2 : thist s2 = h1) by done. destruct (bool_decide_reflect (last l = Some line)) as [D|D].
  { apply runs_ret. split; [done|]. split; [by rewrite T2|]. exists l. rewrite T2. split; [done|].
    split; [by right|]. intros _. unfold hist_add. by rewrite decide_True. }
  apply runs_bind. unfold strdup. apply runs_bind.
  eexists _, _. split; [reflexivity|]. apply runs_ret.
  set (s3 := set_io _ s2). assert (K3 : only_hist s s3) by exact K2.
  assert (T3 : thist s3 = h1) by done. clearbody s3. destruct (ok (tenv s2) (tick (tio s2))) eqn:E.
  2:{ apply runs_ret. split; [done|]. split; [by rewrite T3|]. exists l. rewrite T3. split; [done|].
      split; [by right|]. intros A. exfalso. destruct K2 as (K2 & _). rewrite K2, A in E. done. }
  set (l' := if decide (length l = max) then tail l else l).
  pose proof (make_room_runs h1 l sl max s3 R1 S1 M1 Hm) as P. cbv zeta in P. fold l' in P.
  apply runs_bind. eapply runs_mono; [exact P|]. intros h s' (-> & sl' & -> & L1 & T & Lt).
  destruct (set_slot_rep sl' _ max l' line L1 Lt T eq_refl) as (h' & E2 & R2 & M2).
  apply runs_bind. eapply runs_intro; [unfold lift; cbn [history_len]; rewrite E2; reflexivity|]. cbv beta.
  apply runs_bind, runs_modify, runs_ret.
  split; [exact K3|]. split; [exact M2|]. exists (l' ++ [line]). split; [exact R2|].
  assert (l' ++ [line] = hist_add max l line) as Ea by (unfold hist_add; by rewrite decide_False by done).
  split; [left; done|done].
Qed.

(** [free_slots] kills the entries from [j] on and leaves the rest. *)
Lemma free_slots_run n : forall j h sl, slots h = Some sl ->
  (forall i, (j <= i < j + n)%nat -> exists s, sl !! i = Some (Str s)) ->
  exists sl', free_slots j n h = Ret (Hist (Some sl') (history_len h) (history_max_len h)) /\
    length sl' = length sl /\
    forall i, sl' !! i = if decide (j <= i < j + n)%nat then Some Freed else sl !! i.
Proof.
  induction n as [|n IH]; intros j h sl S Hl; cbn [free_slots].
  - exists sl. split; [destruct h; cbn in *; congruence|]. split; [done|].
    intros i. by rewrite decide_False by lia.
  - destruct (Hl j ltac:(lia)) as [s Es].
    assert (E : free_slot h j = Ret (Hist (Some (<[j := Freed]> sl)) (history_len h) (history_max_len h))).
    { unfold free_slot, get_slot. rewrite S. cbn [of_option mbind outcome_bind]. by rewrite Es. }
    rewrite E. cbn [mbind outcome_bind].
    destruct (IH (Datatypes.S j) (Hist (Some (<[j := Freed]> sl)) (history_len h) (history_max_len h))
                (<[j := Freed]> sl) eq_refl) as (sl' & E' & L' & F').
    { intros i Hi. rewrite list_lookup_insert_ne by lia. apply Hl. lia. }
    exists sl'. split; [exact E'|]. split; [by rewrite L', length_insert|].
    intros i. rewrite F'. pose proof (lookup_lt_Some _ _ _ Es).
    destruct (decide (i = j)) as [-> |].
    + rewrite decide_False, decide_True by lia. by apply list_lookup_insert_eq.
    + rewrite list_lookup_insert_ne by lia.
      destruct (decide (Datatypes.S j <= i < Datatypes.S j + n)%nat).
      * by rewrite decide_True by lia.
      * by rewrite decide_False by lia.
Qed.

Lemma rep_slots h l sl i : hist_rep h l -> slots h = Some sl -> (i < length l)%nat ->
  exists s, l !! i = Some s /\ sl !! i = Some (Str s).
Proof.
  intros R S Hi. destruct (lookup_lt_is_Some_2 l i Hi) as [s Es]. exists s. split; [done|].
  pose proof (rep_lookup h l i s R Es) as G. unfold get_slot in G. rewrite S in G.
  cbn [of_option mbind outcome_bind] in G. destruct (sl !! i); [|done]. cbn in G. congruence.
Qed.

(** What does not fit in the new array is freed. *)
Lemma free_oldest h l sl n (s : tty) : hist_rep h l -> slots h = Some sl ->
  exists sl', (if decide (n < history_len h)%nat then lift (free_slots 0 (history_len h - n) h) else mret h) s =
      Ret (Hist (Some sl') (history_len h) (history_max_len h), s) /\
    length sl' = length sl /\
    forall i, sl' !! i = if decide (i < length l - n)%nat then Some Freed else sl !! i.
Proof.
  intros R Sl. pose proof R as (L & _). rewrite L. destruct (decide (n < length l)%nat) as [Hd|Hd].
  - destruct (free_slots_run (length l - n) 0 h sl Sl) as (sl' & E' & L' & F').
    { intros i Hi. destruct (rep_slots _ l sl i R Sl ltac:(lia)) as (t & _ & Et). by exists t. }
    exists sl'. unfold lift. rewrite E'. cbn [mbind outcome_bind]. rewrite L. split; [done|]. split; [done|].
    intros i. rewrite F'. destruct (decide (i < length l - n)%nat).
    + by rewrite decide_True by lia.
    + by rewrite decide_False by lia.
  - exists sl. split; [|split; [done|]].
    + rewrite <- L, <- Sl. by destruct h.
    + intros i. by rewrite decide_False by lia.
Qed.

(** The new array holds the newest lines. *)
Lemma kept_rep h l sl sl' n k m : hist_rep h l -> slots h = Some sl -> length sl' = length sl ->
  (forall i, sl' !! i = if decide (i < length l - n)%nat then Some Freed else sl !! i) ->
  k = Nat.min n (length l) -> (0 < n)%nat -> m = k ->
  hist_rep (Hist (Some (take k (drop (length l - k) sl') ++ replicate (n - k) Null)) m n) (hist_keep n l).
Proof.
  intros R Sl L' F' Hk Hn ->.
  assert (T : take k (drop (length l - k) sl') = Str <$> hist_keep n l).
  { apply list_eq. intros i. unfold hist_keep. rewrite list_lookup_fmap, lookup_drop.
    destruct (decide (i < k)%nat).
    - rewrite lookup_take_lt, lookup_drop, F' by done. rewrite decide_False by lia.
      replace (length l - n + i)%nat with (length l - k + i)%nat by lia.
      destruct (rep_slots _ l sl (length l - k + i) R Sl ltac:(lia)) as (t & -> & ->). done.
    - rewrite lookup_take_ge by lia. by rewrite (proj2 (lookup_ge_None l (length l - n + i)) ltac:(lia)). }
  assert (Lk : length (hist_keep n l) = k) by (unfold hist_keep; rewrite length_drop; lia).
  unfold hist_rep. cbn. rewrite Lk. split; [done|]. split; [lia|].
  rewrite length_app, length_replicate, T, length_fmap, Lk. split; [lia|].
  rewrite take_app_le by (rewrite length_fmap; lia). by rewrite take_ge by (rewrite length_fmap; lia).
Qed.

Lemma setMaxLen_runs len s l : hist_rep (thist s) l -> 1 <= len ->
  runs (linenoiseHistorySetMaxLen len) s (fun r s' => only_hist s s' /\
    (r = 1 /\ hist_rep (thist s') (hist_keep (Z.to_nat len) l) /\ history_max_len (thist s') = Z.to_nat len \/
     r = 0 /\ thist s' = thist s) /\ (all_ok s -> r = 1)).
Proof.
  intros R Hlen. unfold linenoiseHistorySetMaxLen. rewrite decide_False by lia.
  apply runs_bind, runs_gets. set (n := Z.to_nat len). assert (Hn : (0 < n)%nat) by lia.
  pose proof R as (L & B & R'). destruct (slots (thist s)) as [sl|] eqn:Sl.
  2:{ subst l. cbn in L. apply runs_bind, runs_modify, runs_ret. split; [done|]. split; [left|done].
      cbn. rewrite L, decide_False by lia. split; [done|]. split; [|done].
      unfold hist_keep. cbn [length]. rewrite drop_nil. split; [done|]. split; [cbn; lia|done]. }
  apply runs_bind. eexists _, _. split; [reflexivity|]. destruct (ok _ _) eqn:E; cbn [negb].
  2:{ apply runs_ret. split; [done|]. split; [by right|]. intros A. by rewrite A in E. }
  set (s1 := set_io _ s). assert (K : only_hist s s1) by done. clearbody s1.
  destruct R' as [Ls Ts]. rewrite L.
  destruct (free_oldest (thist s) l sl n s1 R Sl) as (sl' & EP & L' & F'). rewrite L in EP.
  apply runs_bind. eapply runs_intro; [exact EP|]. cbv beta.
  set (k := if decide (n < length l)%nat then n else length l).
  assert (Hk : k = Nat.min n (length l)) by (unfold k; case_decide; lia). clearbody k.
  cbn [slots history_len history_max_len]. apply runs_bind. eapply runs_intro; [reflexivity|]. cbv beta.
  rewrite decide_True by lia. cbn [slots history_len].
  apply runs_bind, runs_modify, runs_ret. split; [exact K|]. split; [left|done].
  split; [done|].
  pose proof (fun m => kept_rep (thist s) l sl sl' n k m R Sl L' F' Hk Hn) as H.
  cbn. destruct (decide (n < length l)%nat); (split; [apply H; lia|done]).
Qed.

Lemma freeHistory_runs s l : hist_rep (thist s) l -> runs freeHistory s (fun _ s' => only_hist s s' /\
  forall sl, slots (thist s') = Some sl -> forall i, (i < length l)%nat -> sl !! i = Some Freed).
Proof.
  intros R. unfold freeHistory. apply runs_bind, runs_gets. destruct (slots (thist s)) as [sl|] eqn:Sl.
  2:{ apply runs_ret. split; [done|]. intros sl. by rewrite Sl. }
  pose proof R as (L & _ & _). rewrite L.
  destruct (free_slots_run (length l) 0 (thist s) sl Sl) as (sl' & E' & L' & F').
  { intros i Hi. destruct (rep_slots _ l sl i R Sl ltac:(lia)) as (t & _ & Et). by exists t. }
  apply runs_bind. eapply runs_intro; [unfold lift; rewrite E'; reflexivity|]. cbv beta.
  apply runs_modify. split; [done|]. cbn. intros ? [= <-] i Hi. rewrite F'. by rewrite decide_True by lia.
Qed.

(** ** The file *)

Definition lines_text (l : list (list Z)) : list Z := concat ((fun s => s ++ [10]) <$> l).

Lemma print_slots_run h l n : forall j, hist_rep h l -> (j + n = length l)%nat ->
  print_slots h j n = Ret (lines_text (drop j l)).
Proof.
  induction n as [|n IH]; intros j R Hj; cbn [print_slots].
  - by rewrite drop_ge by lia.
  - destruct (lookup_lt_is_Some_2 l j ltac:(lia)) as [s Es]. rewrite (rep_lookup h l j s R Es).
    cbn [mbind outcome_bind slot_str]. rewrite IH by (done || lia). cbn [mbind outcome_bind].
    rewrite (drop_S _ _ _ Es). unfold lines_text. cbn [fmap list_fmap concat]. by rewrite <- app_assoc.
Qed.

Lemma save_runs f s l : hist_rep (thist s) l ->
  runs (linenoiseHistorySave f) s (fun r s' => thist s' = thist s /\
    (tenv s' = tenv s /\ out (tio s') = out (tio s) /\ input (tio s') = input (tio s)) /\
    (r = 0 /\ files s' = <[f := lines_text l]> (files s) \/ r = -1 /\ files s' = files s) /\
    (all_ok s -> r = 0)).
Proof.
  intros R. unfold linenoiseHistorySave. apply runs_bind. eexists _, _. split; [reflexivity|].
  destruct (ok _ _) eqn:E; cbn [negb].
  2:{ apply runs_ret. split; [done|]. split; [done|]. split; [by right|]. intros A. by rewrite A in E. }
  apply runs_bind, runs_gets. pose proof R as (L & _). cbn [thist set_io]. rewrite L.
  apply runs_bind. eapply runs_intro; [unfold lift; rewrite (print_slots_run _ l (length l) 0 R eq_refl); reflexivity|].
  cbv beta. rewrite drop_0. apply runs_bind, runs_modify, runs_ret. split; [done|]. split; [done|].
  split; [left; done|done].
Qed.

(** A line that one [fgets] reads whole and [cut_line] leaves alone. *)
Definition plain_line (s : list Z) : Prop :=
  Forall (fun c => c <> 0 /\ c <> 10 /\ c <> 13) s /\ (length s < LINENOISE_MAX_LINE - 1)%nat.

Lemma cut_plain s : Forall (fun c => c <> 0 /\ c <> 10 /\ c <> 13) s -> cut_line (s ++ [10]) = s.
Proof.
  intros F. unfold cut_line. rewrite before_none.
  - rewrite before_app; [done|]. eapply Forall_impl; [exact F|]. naive_solver.
  - apply Forall_app. split; [eapply Forall_impl; [exact F|]; naive_solver|]. by repeat constructor.
Qed.

(** Loading plain lines adds them in order. *)
Lemma load_runs ls : forall fuel s l, Forall plain_line ls -> (length (lines_text ls) <= fuel)%nat ->
  hist_rep (thist s) l -> (0 < history_max_len (thist s))%nat ->
  runs (load_loop fuel (lines_text ls)) s (fun _ s' => only_hist s s' /\
    history_max_len (thist s') = history_max_len (thist s) /\ exists l', hist_rep (thist s') l' /\
    (all_ok s -> l' = fold_left (hist_add (history_max_len (thist s))) ls l)).
Proof.
  induction ls as [|x ls IH]; intros fuel s l F Hf R Hm.
  - destruct fuel; apply runs_ret; (split; [done|]; split; [done|]; exists l; done).
  - apply Forall_cons in F as [[Fx Lx] F].
    assert (E : lines_text (x :: ls) = x ++ 10 :: lines_text ls).
    { unfold lines_text. cbn [fmap list_fmap concat]. by rewrite <- app_assoc. }
    rewrite E in *. rewrite length_app in Hf. cbn [length] in Hf.
    destruct fuel as [|fuel]; [lia|].
    assert (Eq : load_loop (S fuel) (x ++ 10 :: lines_text ls) =
       (buf ← lift (of_option (cstr (x ++ [10; 0]))); _ ← linenoiseHistoryAdd (cut_line buf);
        load_loop fuel (lines_text ls))).
    { destruct (x ++ 10 :: lines_text ls) as [|c t] eqn:Et; [by destruct x|]. cbn [load_loop].
      rewrite <- Et, fgets_line by (lia || (eapply Forall_impl; [eassumption|naive_solver])). by rewrite <- app_assoc. }
    rewrite Eq. apply runs_bind. replace (x ++ [10; 0]) with ((x ++ [10]) ++ 0 :: []) by by rewrite <- app_assoc.
    rewrite cstr_app.
    2:{ apply Forall_app. split; [eapply Forall_impl; [exact Fx|]; naive_solver|]. by repeat constructor. }
    eapply runs_intro; [reflexivity|]. cbv beta. rewrite cut_plain by done. apply runs_bind.
    eapply runs_mono; [exact (historyAdd_runs x s l R Hm)|].
    intros r s1 (K1 & M1 & l1 & R1 & _ & A1).
    eapply runs_mono; [apply (IH fuel s1 l1 F); [lia|done|by rewrite M1]|].
    intros _ s2 (K2 & M2 & l2 & R2 & A2). split; [by etrans|]. split; [congruence|].
    exists l2. split; [done|]. intros A. cbn [fold_left]. rewrite A2.
    + rewrite M1. by rewrite A1.
    + intros n. destruct K1 as (-> & _). apply A.
Qed.

(** No two neighbours are equal. *)
Fixpoint no_repeat (l : list (list Z)) : Prop :=
  match l with
  | a :: (b :: _) as l' => a <> b /\ no_repeat l'
  | _ => True
  end.

Lemma fold_add_id max ls : forall l, (length l + length ls <= max)%nat ->
  no_repeat (match last l with Some x => x :: ls | None => ls end) ->
  fold_left (hist_add max) ls l = l ++ ls.
Proof.
  induction ls as [|x ls IH]; intros l H N; [by rewrite app_nil_r|]. cbn [fold_left length] in *.
  assert (E : hist_add max l x = l ++ [x]).
  { unfold hist_add. rewrite decide_False; [by rewrite decide_False by lia|].
    intros E. rewrite E in N. by destruct N. }
  rewrite E, IH.
  - by rewrite <- app_assoc.
  - rewrite length_app. cbn [length]. lia.
  - rewrite last_snoc. destruct (last l); [by destruct N|done].
Qed.

(** ** Properties *)

(** C36: the array refines a bounded list.  [linenoiseHistoryAdd] ends without
    touching a freed or missing entry; it appends the line, dropping the
    oldest one when the array is full, unless the line repeats the last one
    (0 is returned) or an allocation fails (0 is returned and the list is the
    old one).  [linenoiseHistorySetMaxLen] refuses a bound below 1 and
    otherwise keeps the newest lines that fit.  [freeHistory] frees every
    line once.  Nothing else changes. *)
Theorem history_refines s l line len :
  hist_rep (thist s) l -> (0 < history_max_len (thist s))%nat ->
  runs (linenoiseHistoryAdd line) s (fun r s' => only_hist s s' /\
    history_max_len (thist s') = history_max_len (thist s) /\
    exists l', hist_rep (thist s') l' /\
      (r = 1 /\ last l <> Some line /\ l' = hist_add (history_max_len (thist s)) l line \/ r = 0 /\ l' = l) /\
      (all_ok s -> l' = hist_add (history_max_len (thist s)) l line)) /\
  runs (linenoiseHistorySetMaxLen len) s (fun r s' => only_hist s s' /\
    (r = 1 /\ 1 <= len /\ hist_rep (thist s') (hist_keep (Z.to_nat len) l) /\
       history_max_len (thist s') = Z.to_nat len \/
     r = 0 /\ thist s' = thist s) /\ (all_ok s -> 1 <= len -> r = 1)) /\
  runs freeHistory s (fun _ s' => only_hist s s' /\
    forall sl, slots (thist s') = Some sl -> forall i, (i < length l)%nat -> sl !! i = Some Freed).
Proof.
  intros R Hm. split; [by apply historyAdd_runs|]. split; [|by apply freeHistory_runs].
  destruct (decide (1 <= len)) as [H|H].
  - eapply runs_mono; [by apply setMaxLen_runs|]. intros r s' (K & [(? & ? & ?)|?] & A).
    + split; [done|]. split; [by left|]. by intros A' _; apply A.
    + split; [done|]. split; [by right|]. by intros A' _; apply A.
  - unfold linenoiseHistorySetMaxLen. rewrite decide_True by lia. apply runs_ret.
    split; [done|]. split; [by right|]. lia.
Qed.

Definition cooked : termios := Termios 0x500 0x5 0xbf 0x8a3b 4 0.

(** A terminal of 80 columns on which every request succeeds. *)
Definition tty0 : tty :=
  Tty (Env (fun _ => true) true None (Some 80)) (IO [] [] 0 0)
    (Modes cooked cooked false false false false) hist0 (Hooks None None false []) ∅.

Lemma history_refines_witness :
  hist_rep hist0 [] /\ runs (linenoiseHistoryAdd [97]) tty0 (fun r s' => hist_rep (thist s') [[97]]).
Proof.
  assert (R : hist_rep hist0 []) by (split; [done|split; [cbn; lia|done]]).
  split; [exact R|].
  destruct (history_refines tty0 [] [97] 3 R ltac:(apply Nat.ltb_lt; reflexivity)) as [H _].
  eapply runs_mono; [exact H|]. intros r s' (_ & _ & l' & R' & _ & A).
  rewrite A in R' by (intros n; reflexivity). exact R'.
Defined.

(** Saving the history and loading the file into an empty history that is
    large enough gives the same lines back, in order, provided each is one
    that [fgets] reads in one piece (no NUL, carriage return or newline, at
    most 4094 bytes) and no line repeats its predecessor. *)
Theorem history_file_roundtrip s f l :
  hist_rep (thist s) l -> all_ok s -> Forall plain_line l -> no_repeat l ->
  runs (linenoiseHistorySave f) s (fun r s1 => r = 0 /\ thist s1 = thist s /\
    forall s2, files s2 = files s1 -> all_ok s2 -> hist_rep (thist s2) [] ->
      (length l <= history_max_len (thist s2))%nat -> (0 < history_max_len (thist s2))%nat ->
      runs (linenoiseHistoryLoad f) s2 (fun r' s3 => r' = 0 /\ hist_rep (thist s3) l)).
Proof.
  intros R A F N. eapply runs_mono; [exact (save_runs f s l R)|].
  intros r s1 (H1 & _ & W & Ar). specialize (Ar A) as ->. split; [done|]. split; [done|].
  destruct W as [[_ W]|[W _]]; [|done]. intros s2 F2 A2 R2 L2 M2.
  unfold linenoiseHistoryLoad. apply runs_bind, runs_gets. rewrite F2, W, lookup_insert_eq.
  apply runs_bind. eapply runs_mono; [exact (load_runs l _ s2 [] F (Nat.le_refl _) R2 M2)|].
  intros _ s3 (_ & _ & l' & R3 & E). apply runs_ret. split; [done|].
  rewrite E in R3 by done. rewrite fold_add_id in R3; done.
Qed.

Lemma history_file_roundtrip_witness :
  runs (linenoiseHistoryAdd [97] ;; linenoiseHistoryAdd [98]) tty0 (fun _ s =>
    runs (linenoiseHistorySave [104]) s (fun r s1 => r = 0 /\ thist s1 = thist s)).
Proof.
  eexists _, _. split; [vm_compute; reflexivity|].
  eapply runs_mono.
  - apply (history_file_roundtrip _ [104] [[97]; [98]]).
    + split; [reflexivity|]. split; [apply Nat.leb_le; reflexivity|]. split; reflexivity.
    + intros n. reflexivity.
    + apply Forall_cons. split; [split; [apply (bool_decide_unpack _); vm_compute; exact I|apply Nat.ltb_lt; reflexivity]|].
      apply Forall_cons. split; [split; [apply (bool_decide_unpack _); vm_compute; exact I|apply Nat.ltb_lt; reflexivity]|].
      apply Forall_nil. exact I.
    + split; [discriminate|exact I].
  - intros r s1 (H & H' & _). split; [exact H|exact H'].
Defined.
