(* ===== verification/Lineedit.v ===== *)
(** * Editing a line (src/src/linenoise.c, middle part)

    The state of an editing session, the refresh of the screen in single and
    multi line mode, and every editing operation, on the caller's buffer as a
    block of bytes.  Two specifications follow: an editor on a string with a
    cursor, which the operations refine, and a terminal that interprets what
    the single line refresh writes. *)

From Stdlib Require Import ZArith Lia.
From stdpp Require Import prelude gmap.
From S2P Require Import Prelude.
From S2P Require Import Terminal.
From S2P Require Import History.

(** ** The session

    The descriptors are the terminal's.  Sizes and positions are natural
    numbers, below 2^63; [cols] is what [getColumns] returned, as a
    [size_t]. *)

Record linenoiseState := LState {
  buf : list Z;
  buflen : nat;
  prompt : list Z;
  pos : nat;
  oldpos : nat;
  len : nat;
  cols : Z;
  maxrows : Z;
  history_index : Z
}.

(** [plen] is [strlen(prompt)]. *)
Definition plen (l : linenoiseState) : Z := Z.of_nat (length (prompt l)).

Definition set_buf (b : list Z) (l : linenoiseState) : linenoiseState :=
  LState b (buflen l) (prompt l) (pos l) (oldpos l) (len l) (cols l) (maxrows l) (history_index l).
Definition set_pos (p : nat) (l : linenoiseState) : linenoiseState :=
  LState (buf l) (buflen l) (prompt l) p (oldpos l) (len l) (cols l) (maxrows l) (history_index l).
Definition set_len (n : nat) (l : linenoiseState) : linenoiseState :=
  LState (buf l) (buflen l) (prompt l) (pos l) (oldpos l) n (cols l) (maxrows l) (history_index l).
Definition set_rows (o : nat) (m : Z) (l : linenoiseState) : linenoiseState :=
  LState (buf l) (buflen l) (prompt l) (pos l) o (len l) (cols l) m (history_index l).
Definition set_index (i : Z) (l : linenoiseState) : linenoiseState :=
  LState (buf l) (buflen l) (prompt l) (pos l) (oldpos l) (len l) (cols l) (maxrows l) i.

(** [buf[i] = c], [buf[i]] and [memmove(buf + dst, buf + src, n)]; a negative
    [n] is a huge [size_t]. *)
Definition store (b : list Z) (i : nat) (c : Z) : outcome (list Z) := of_option (poke b i [c]).
Definition load (b : list Z) (i : nat) : outcome Z := of_option (b !! i).
Definition memmove (b : list Z) (dst src : nat) (n : Z) : outcome (list Z) :=
  if decide (n < 0) then Undef else
  bs ← of_option (peek b src (Z.to_nat n)); of_option (poke b dst bs).

(** ** Refreshing the screen *)

(** "ESC[b;c;49m" and "ESC[0m" *)
Definition seq_color (bold color : Z) : list Z := [27; 91] ++ dec bold ++ [59] ++ dec color ++ [59; 52; 57; 109].
Definition seq_plain : list Z := [27; 91; 48; 109].

Definition refreshShowHints (ab : list Z) (l : linenoiseState) (pl : Z) : ST tty (list Z) :=
  h ← gets thooks;
  match hintsCallback h with
  | None => mret ab
  | Some f =>
      if decide (u64 (pl + Z.of_nat (len l)) < cols l) then
        text ← lift (of_option (cstr (buf l)));
        match f text with
        | None => mret ab
        | Some (hint, color, bold) =>
            let hintlen := Z.of_nat (length hint) in
            let hintmaxlen := i32 (cols l - (pl + Z.of_nat (len l))) in
            let hintlen := if decide (hintlen > hintmaxlen) then hintmaxlen else hintlen in
            let color := if decide (bold = 1 /\ color = -1) then 37 else color in
            let styled := bool_decide (color <> -1 \/ bold <> 0) in
            ab ← abAppend_all ab (if styled then seq_color bold color else []);
            ab ← abAppend ab hint hintlen;
            ab ← (if styled then abAppend_all ab seq_plain else mret ab);
            (if freeHintsCallback h
             then modify (set_hooks (fun k => Hooks (completionCallback k) (hintsCallback k)
                                        (freeHintsCallback k) (freed_hints k ++ [hint])))
             else mret tt);;
            mret ab
        end
      else mret ab
  end.

(** [while ((plen+pos) >= cols) { buf++; len--; pos--; }]; [len] and [pos] are
    [size_t]. *)
Fixpoint scroll (fuel : nat) (pl cols : Z) (off : nat) (len pos : Z) : outcome (nat * Z * Z) :=
  if decide (u64 (pl + pos) >= cols) then
    match fuel with
    | O => NoFuel
    | S f => scroll f pl cols (S off) (u64 (len - 1)) (u64 (pos - 1))
    end
  else Ret (off, len, pos).

(** [while (plen+len > cols) len--;] *)
Fixpoint trim (fuel : nat) (pl cols len : Z) : outcome Z :=
  if decide (u64 (pl + len) > cols) then
    match fuel with
    | O => NoFuel
    | S f => trim f pl cols (u64 (len - 1))
    end
  else Ret len.

(** [while (len--) abAppend(&ab,"*",1)] *)
Fixpoint stars (n : nat) (ab : list Z) : ST tty (list Z) :=
  match n with
  | O => mret ab
  | S n' => ab ← abAppend_all ab [42]; stars n' ab
  end.

(** "\r", "ESC[0K" and "\rESC[nC" *)
Definition seq_cr : list Z := [13].
Definition seq_erase : list Z := [27; 91; 48; 75].
Definition seq_column (n : Z) : list Z := [13; 27; 91] ++ dec n ++ [67].

Definition refreshSingleLine (l : linenoiseState) : ST tty linenoiseState :=
  let fuel := S (length (prompt l) + len l + pos l) in
  '(off, n, p) ← lift (scroll fuel (plen l) (cols l) 0 (Z.of_nat (len l)) (Z.of_nat (pos l)));
  n ← lift (trim fuel (plen l) (cols l) n);
  ab ← abAppend_all abInit seq_cr;
  ab ← abAppend_all ab (prompt l);
  mask ← gets (fun s => maskmode (tmodes s));
  ab ← (if mask : bool then (if decide (n < 2 ^ 31) then stars (Z.to_nat n) ab else undef)
        else abAppend ab (drop off (buf l)) (i32 n));
  ab ← refreshShowHints ab l (plen l);
  ab ← abAppend_all ab seq_erase;
  ab ← abAppend_all ab (seq_column (i32 (p + plen l)));
  _ ← write ab;
  mret l.

(** "ESC[nB", "ESC[nA", "\rESC[0KESC[1A", "\rESC[0K", "\n" *)
Definition seq_down (n : Z) : list Z := [27; 91] ++ dec n ++ [66].
Definition seq_up (n : Z) : list Z := [27; 91] ++ dec n ++ [65].
Definition seq_clear_up : list Z := [13; 27; 91; 48; 75; 27; 91; 49; 65].
Definition seq_clear_row : list Z := [13; 27; 91; 48; 75].

(** [for (j = 0; j < n; j++)] clear the row and go up. *)
Fixpoint clear_rows (n : nat) (ab : list Z) : ST tty (list Z) :=
  match n with
  | O => mret ab
  | S n' => ab ← abAppend_all ab seq_clear_up; clear_rows n' ab
  end.

Definition refreshMultiLine (l : linenoiseState) : ST tty linenoiseState :=
  if decide (cols l = 0) then undef else
  let pl := i32 (plen l) in
  let len' := Z.of_nat (len l) in
  let pos' := Z.of_nat (pos l) in
  let rows := i32 (u64 (pl + len' + cols l - 1) / cols l) in
  let rpos := i32 (u64 (pl + Z.of_nat (oldpos l) + cols l) / cols l) in
  let old_rows := i32 (maxrows l) in
  let max1 := if decide (rows > i32 (maxrows l)) then rows else maxrows l in
  ab ← (if decide (old_rows - rpos > 0) then abAppend_all abInit (seq_down (old_rows - rpos)) else mret abInit);
  ab ← clear_rows (Z.to_nat (old_rows - 1)) ab;
  ab ← abAppend_all ab seq_clear_row;
  ab ← abAppend_all ab (prompt l);
  mask ← gets (fun s => maskmode (tmodes s));
  ab ← (if mask : bool then stars (len l) ab else abAppend ab (buf l) (i32 len'));
  ab ← refreshShowHints ab l pl;
  let newline := bool_decide (pos l <> O /\ pos l = len l /\ u64 (pos' + pl) mod cols l = 0) in
  ab ← (if newline : bool then ab ← abAppend_all ab [10]; abAppend_all ab seq_cr else mret ab);
  let rows := if newline then i32 (rows + 1) else rows in
  let max2 := if newline then (if decide (rows > i32 max1) then rows else max1) else max1 in
  let rpos2 := i32 (u64 (pl + pos' + cols l) / cols l) in
  ab ← (if decide (rows - rpos2 > 0) then abAppend_all ab (seq_up (rows - rpos2)) else mret ab);
  let col := Z.rem (i32 (pl + i32 pos')) (i32 (cols l)) in
  ab ← abAppend_all ab (if decide (col <> 0) then seq_column col else seq_cr);
  _ ← write ab;
  mret (set_rows (pos l) max2 l).

Definition refreshLine (l : linenoiseState) : ST tty linenoiseState :=
  ml ← gets (fun s => mlmode (tmodes s));
  if ml : bool then refreshMultiLine l else refreshSingleLine l.

(** ** Editing *)

Definition linenoiseEditInsert (l : linenoiseState) (c : Z) : ST tty (linenoiseState * Z) :=
  if decide (len l < buflen l)%nat then
    if decide (len l = pos l) then
      b ← lift (store (buf l) (pos l) c);
      let l := set_len (S (len l)) (set_pos (S (pos l)) (set_buf b l)) in
      b ← lift (store (buf l) (len l) 0);
      let l := set_buf b l in
      s ← gets (fun s => s);
      if decide (mlmode (tmodes s) = false /\ plen l + Z.of_nat (len l) < cols l /\
                 hintsCallback (thooks s) = None)
      then w ← write [if maskmode (tmodes s) then 42 else c];
           mret (l, if w : bool then 0 else -1)
      else l ← refreshLine l; mret (l, 0)
    else
      b ← lift (memmove (buf l) (pos l + 1) (pos l) (Z.of_nat (len l) - Z.of_nat (pos l)));
      b ← lift (store b (pos l) c);
      let l := set_pos (S (pos l)) (set_len (S (len l)) (set_buf b l)) in
      b ← lift (store (buf l) (len l) 0);
      l ← refreshLine (set_buf b l);
      mret (l, 0)
  else mret (l, 0).

Definition linenoiseEditMoveLeft (l : linenoiseState) : ST tty linenoiseState :=
  if decide (0 < pos l)%nat then refreshLine (set_pos (pos l - 1) l) else mret l.

Definition linenoiseEditMoveRight (l : linenoiseState) : ST tty linenoiseState :=
  if decide (pos l <> len l) then refreshLine (set_pos (pos l + 1) l) else mret l.

Definition linenoiseEditMoveHome (l : linenoiseState) : ST tty linenoiseState :=
  if decide (pos l <> O) then refreshLine (set_pos 0 l) else mret l.

Definition linenoiseEditMoveEnd (l : linenoiseState) : ST tty linenoiseState :=
  if decide (pos l <> len l) then refreshLine (set_pos (len l) l) else mret l.

Inductive direction := HISTORY_NEXT | HISTORY_PREV.

(** The index of the array for the current [history_index]. *)
Definition hist_at (h : hist) (l : linenoiseState) : outcome nat :=
  let i := Z.of_nat (history_len h) - 1 - history_index l in
  if decide (0 <= i) then Ret (Z.to_nat i) else Undef.

Definition linenoiseEditHistoryNext (l : linenoiseState) (dir : direction) : ST tty linenoiseState :=
  h ← gets thist;
  if decide (1 < history_len h)%nat then
    i ← lift (hist_at h l);
    h ← lift (free_slot h i);
    text ← lift (of_option (cstr (buf l)));
    copy ← strdup text;
    h ← lift (set_slot h i (match copy with Some s => Str s | None => Null end));
    put_hist h;;
    let idx := history_index l + (match dir with HISTORY_PREV => 1 | HISTORY_NEXT => -1 end) in
    if decide (idx < 0) then mret (set_index 0 l) else
    if decide (idx >= Z.of_nat (history_len h)) then mret (set_index (Z.of_nat (history_len h) - 1) l) else
    let l := set_index idx l in
    i ← lift (hist_at h l);
    x ← lift (get_slot h i);
    s ← lift (slot_str x);
    b ← lift (of_option (poke (buf l) 0 (strncpy s (buflen l))));
    b ← lift (if decide (buflen l = O) then Undef else store b (buflen l - 1) 0);
    n ← lift (of_option (length <$> cstr b));
    refreshLine (set_len n (set_pos n (set_buf b l)))
  else mret l.

Definition linenoiseEditDelete (l : linenoiseState) : ST tty linenoiseState :=
  if decide (0 < len l /\ pos l < len l)%nat then
    b ← lift (memmove (buf l) (pos l) (pos l + 1) (Z.of_nat (len l) - Z.of_nat (pos l) - 1));
    let l := set_len (len l - 1) (set_buf b l) in
    b ← lift (store (buf l) (len l) 0);
    refreshLine (set_buf b l)
  else mret l.

Definition linenoiseEditBackspace (l : linenoiseState) : ST tty linenoiseState :=
  if decide (0 < pos l /\ 0 < len l)%nat then
    b ← lift (memmove (buf l) (pos l - 1) (pos l) (Z.of_nat (len l) - Z.of_nat (pos l)));
    let l := set_len (len l - 1) (set_pos (pos l - 1) (set_buf b l)) in
    b ← lift (store (buf l) (len l) 0);
    refreshLine (set_buf b l)
  else mret l.

(** [while (pos > 0 && p(buf[pos-1])) pos--] *)
Fixpoint back_while (p : Z -> bool) (b : list Z) (pos : nat) : outcome nat :=
  match pos with
  | O => Ret O
  | S n => c ← load b n; if p c then back_while p b n else Ret pos
  end.

Definition linenoiseEditDeletePrevWord (l : linenoiseState) : ST tty linenoiseState :=
  let old_pos := pos l in
  p ← lift (back_while (fun c => bool_decide (c = 32)) (buf l) (pos l));
  p ← lift (back_while (fun c => bool_decide (c <> 32)) (buf l) p);
  let diff := (old_pos - p)%nat in
  b ← lift (memmove (buf l) p old_pos (Z.of_nat (len l) - Z.of_nat old_pos + 1));
  if decide (len l < diff)%nat then undef else
  refreshLine (set_len (len l - diff) (set_pos p (set_buf b l))).

(** The keys that [linenoiseEdit] handles in its own code. *)
Definition edit_transpose (l : linenoiseState) : ST tty linenoiseState :=
  if decide (0 < pos l /\ pos l < len l)%nat then
    aux ← lift (load (buf l) (pos l - 1));
    c ← lift (load (buf l) (pos l));
    b ← lift (store (buf l) (pos l - 1) c);
    b ← lift (store b (pos l) aux);
    let l := set_buf b l in
    refreshLine (if decide (pos l <> len l - 1)%nat then set_pos (pos l + 1) l else l)
  else mret l.

Definition edit_kill_line (l : linenoiseState) : ST tty linenoiseState :=
  b ← lift (store (buf l) 0 0);
  refreshLine (set_pos 0 (set_len 0 (set_buf b l))).

Definition edit_kill_end (l : linenoiseState) : ST tty linenoiseState :=
  b ← lift (store (buf l) (pos l) 0);
  refreshLine (set_len (pos l) (set_buf b l)).

(** ** An editor on a string with a cursor *)

#[local] Arguments reverse : simpl never.

(** [lefts] are the characters before the cursor, nearest first; [rights] the
    ones from the cursor on. *)
Record zipper := Zip { lefts : list Z; rights : list Z }.

Definition ztext (z : zipper) : list Z := reverse (lefts z) ++ rights z.
Definition zlength (z : zipper) : nat := length (lefts z) + length (rights z).

Fixpoint drop_while (p : Z -> bool) (l : list Z) : list Z :=
  match l with
  | c :: l' => if p c then drop_while p l' else l
  | [] => []
  end.

Definition is_space (c : Z) : bool := bool_decide (c = 32).
Definition not_space (c : Z) : bool := bool_decide (c <> 32).

Definition z_insert (cap : nat) (c : Z) (z : zipper) : zipper :=
  if decide (zlength z < cap)%nat then Zip (c :: lefts z) (rights z) else z.
Definition z_left (z : zipper) : zipper :=
  match z with Zip (c :: a) b => Zip a (c :: b) | _ => z end.
Definition z_right (z : zipper) : zipper :=
  match z with Zip a (c :: b) => Zip (c :: a) b | _ => z end.
Definition z_home (z : zipper) : zipper := Zip [] (ztext z).
Definition z_end (z : zipper) : zipper := Zip (reverse (ztext z)) [].
Definition z_delete (z : zipper) : zipper := Zip (lefts z) (tail (rights z)).
Definition z_backspace (z : zipper) : zipper := Zip (tail (lefts z)) (rights z).
Definition z_word (z : zipper) : zipper :=
  Zip (drop_while not_space (drop_while is_space (lefts z))) (rights z).
(** Exchanges the characters around the cursor and goes past them, except
    when only one is left after the cursor. *)
Definition z_transpose (z : zipper) : zipper :=
  match z with
  | Zip (x :: a) [y] => Zip (y :: a) [x]
  | Zip (x :: a) (y :: b) => Zip (x :: y :: a) b
  | _ => z
  end.
Definition z_kill_line (z : zipper) : zipper := Zip [] [].
Definition z_kill_end (z : zipper) : zipper := Zip (lefts z) [].

(** ** The session represents a zipper *)

Definition rep (l : linenoiseState) (z : zipper) : Prop :=
  pos l = length (lefts z) /\ len l = zlength z /\ (len l <= buflen l)%nat /\
  (buflen l < length (buf l))%nat /\ exists r, buf l = reverse (lefts z) ++ rights z ++ 0 :: r.

(** The prompt leaves room for the cursor, and the sizes are far from the
    bounds of [int]. *)
Definition sized (l : linenoiseState) : Prop :=
  plen l < cols l /\ plen l + cols l + Z.of_nat (length (buf l)) < 2 ^ 31.

(** What an editing operation leaves alone in the session. *)
Definition frame (l l' : linenoiseState) : Prop :=
  buflen l' = buflen l /\ prompt l' = prompt l /\ cols l' = cols l /\
  history_index l' = history_index l /\ length (buf l') = length (buf l).

#[export] Instance frame_preorder : PreOrder frame.
Proof.
  split; [by intros s|]. intros s t u (?&?&?&?&?) (?&?&?&?&?). unfold frame. split_and!; congruence.
Qed.

Lemma frame_sized l l' : frame l l' -> sized l -> sized l'.
Proof. unfold sized, plen. intros (_ & -> & -> & _ & ->). done. Qed.

Lemma small_wrap w x : 0 <= x < 2 ^ w -> wrap w x = x.
Proof. intros H. by apply Z.mod_small. Qed.

Lemma small_i32 x : - 2 ^ 31 <= x < 2 ^ 31 -> i32 x = x.
Proof. intros H. unfold swrap. change (2 ^ (32 - 1)) with (2 ^ 31). rewrite Z.mod_small by lia. lia. Qed.

Lemma sized_u64 l x : sized l -> 0 <= x <= plen l + cols l + Z.of_nat (length (buf l)) -> u64 x = x.
Proof. intros [_ H] Hx. apply small_wrap. change (2 ^ 64) with (2 ^ 31 * 2 ^ 33). lia. Qed.

(** The string at the start of the buffer is the text up to a NUL. *)
Lemma cstr_text t r : cstr (t ++ 0 :: r) = Some (default t (before 0 t)).
Proof.
  induction t as [|c t IH]; cbn; [done|]. destruct (decide (c = 0)); [done|]. rewrite IH.
  cbn. by destruct (before 0 t).
Qed.

Lemma rep_cstr l z : rep l z -> cstr (buf l) = Some (default (ztext z) (before 0 (ztext z))).
Proof. intros (_ & _ & _ & _ & r & ->). rewrite app_assoc. apply cstr_text. Qed.

Lemma rep_text l z : rep l z -> take (len l) (buf l) = ztext z.
Proof.
  intros (_ & -> & _ & _ & r & ->). rewrite app_assoc. apply take_app_length'.
  unfold zlength, ztext. by rewrite length_app, length_reverse.
Qed.

(** *** Refreshing neither fails nor changes the text *)

Lemma hints_runs ab l z s : rep l z -> sized l ->
  runs (refreshShowHints ab l (plen l)) s (fun ab' s' => quiet s s' /\ out (tio s') = out (tio s) /\
    (all_ok s -> hintsCallback (thooks s) = None -> ab' = ab)).
Proof.
  intros R Z. unfold refreshShowHints. apply runs_bind, runs_gets.
  destruct (hintsCallback (thooks s)) as [f|]; [|by apply runs_ret].
  pose proof R as (_ & L & _ & B & _). case_decide as H; [|by apply runs_ret].
  pose proof Z as [Z1 Z2]. unfold plen in *.
  assert (Hs : (len l < length (buf l))%nat) by (destruct R as (_ & _ & ? & ? & _); lia).
  rewrite (sized_u64 l) in H by (done || (unfold plen; lia)).
  apply runs_bind. eapply runs_intro; [unfold lift; rewrite (rep_cstr l z R); reflexivity|]. cbv beta.
  destruct (f _) as [[[hint color] bold]|]; [|by apply runs_ret].
  rewrite small_i32 by lia.
  apply runs_bind. eapply runs_mono; [apply abAppend_all_runs|]. intros ab1 s1 (Q1 & O1 & _). cbv beta.
  apply runs_bind. eapply runs_mono; [apply abAppend_runs; case_decide; lia|].
  intros ab2 s2 (Q2 & O2 & _). cbv beta. apply runs_bind.
  assert (P : runs (if bool_decide ((if decide (bold = 1 /\ color = -1) then 37 else color) <> -1 \/ bold <> 0)
     then abAppend_all ab2 seq_plain else mret ab2) s2 (fun _ s' => quiet s2 s' /\ out (tio s') = out (tio s2))).
  { case_bool_decide; [|by apply runs_ret]. eapply runs_mono; [apply abAppend_all_runs|]. naive_solver. }
  eapply runs_mono; [exact P|]. intros ab3 s3 (Q3 & O3). apply runs_bind.
  assert (Q : quiet s s3) by (etrans; [exact Q1|]; etrans; [exact Q2|exact Q3]).
  assert (O : out (tio s3) = out (tio s)) by congruence.
  destruct (freeHintsCallback (thooks s)).
  - apply runs_modify, runs_ret. split; [|done]. etrans; [exact Q|done].
  - by do 2 apply runs_ret.
Qed.

Lemma stars_runs n : forall ab s, runs (stars n ab) s (fun ab' s' => quiet s s' /\ out (tio s') = out (tio s) /\
  (all_ok s -> ab' = ab ++ replicate n 42)).
Proof.
  induction n as [|n IH]; intros ab s; cbn [stars].
  - apply runs_ret. split; [done|]. split; [done|]. intros _. by rewrite app_nil_r.
  - apply runs_bind. eapply runs_mono; [apply abAppend_all_runs|]. intros ab1 s1 (Q1 & O1 & A1).
    eapply runs_mono; [apply IH|]. intros ab2 s2 (Q2 & O2 & A2).
    split; [by etrans|]. split; [congruence|]. intros A. rewrite A2 by (by eapply all_ok_quiet).
    rewrite A1 by done. by rewrite <- app_assoc.
Qed.

(** The window of the text that is shown: it starts [woff] characters in and
    is at most as long as the row allows. *)
Definition woff (l : linenoiseState) : nat :=
  Z.to_nat (plen l + Z.of_nat (pos l) - cols l + 1).
Definition wlen (l : linenoiseState) : nat :=
  Nat.min (len l - woff l) (Z.to_nat (cols l - plen l)).

Lemma scroll_run l fuel : sized l -> (len l < length (buf l))%nat -> (pos l <= len l)%nat ->
  (pos l + length (prompt l) < fuel)%nat ->
  scroll fuel (plen l) (cols l) 0 (Z.of_nat (len l)) (Z.of_nat (pos l)) =
    Ret (woff l, Z.of_nat (len l - woff l), Z.of_nat (pos l - woff l)).
Proof.
  intros Z L P F. assert (Hp : (woff l <= pos l)%nat).
  { unfold woff, sized, plen in *. lia. }
  assert (G : forall k f, (k <= woff l)%nat -> (woff l - k < f)%nat ->
    scroll f (plen l) (cols l) k (Z.of_nat (len l - k)) (Z.of_nat (pos l - k)) =
    Ret (woff l, Z.of_nat (len l - woff l), Z.of_nat (pos l - woff l))).
  { intros k f. revert k. induction f as [|f IH]; intros k Hk Hf; [lia|]. cbn [scroll].
    rewrite (sized_u64 l); [|done|unfold sized, plen in *; lia].
    destruct (decide (plen l + Z.of_nat (pos l - k) >= cols l)) as [H|H].
    - assert (k < woff l)%nat by (unfold woff; lia).
      rewrite !small_wrap by (unfold sized, plen in *; change (2 ^ 64) with (2 ^ 31 * 2 ^ 33); lia).
      replace (Z.of_nat (len l - k) - 1) with (Z.of_nat (len l - S k)) by lia.
      replace (Z.of_nat (pos l - k) - 1) with (Z.of_nat (pos l - S k)) by lia. apply IH; lia.
    - assert (k = woff l) as -> by (unfold woff in *; lia). done. }
  specialize (G O fuel ltac:(lia) ltac:(lia)). rewrite !Nat.sub_0_r in G. exact G.
Qed.

Lemma trim_run l n fuel : sized l -> (n < length (buf l))%nat -> (n + length (prompt l) < fuel)%nat ->
  trim fuel (plen l) (cols l) (Z.of_nat n) = Ret (Z.of_nat (Nat.min n (Z.to_nat (cols l - plen l)))).
Proof.
  intros Z L F. revert n L F. induction fuel as [|f IH]; intros n L F; [lia|]. cbn [trim].
  rewrite (sized_u64 l) by (done || (unfold sized, plen in *; lia)).
  destruct (decide (plen l + Z.of_nat n > cols l)) as [H|H].
  - assert (n <> O) by (unfold sized in Z; lia).
    rewrite small_wrap by (unfold sized, plen in *; change (2 ^ 64) with (2 ^ 31 * 2 ^ 33); lia).
    replace (Z.of_nat n - 1) with (Z.of_nat (n - 1)) by lia. rewrite IH by lia.
    do 2 f_equal. unfold sized in Z. lia.
  - do 2 f_equal. lia.
Qed.

(** What the single line refresh writes. *)
Definition shown (l : linenoiseState) (mask : bool) : list Z :=
  if mask then replicate (wlen l) 42 else take (wlen l) (drop (woff l) (buf l)).

(** The text of the window, or its stars. *)
Lemma text_runs l ab s : (woff l + wlen l <= length (buf l))%nat -> Z.of_nat (wlen l) < 2 ^ 31 ->
  runs (if maskmode (tmodes s)
       then if decide (Z.of_nat (wlen l) < 2 ^ 31) then stars (Z.to_nat (Z.of_nat (wlen l))) ab else undef
       else abAppend ab (drop (woff l) (buf l)) (i32 (Z.of_nat (wlen l)))) s
     (fun ab' s' => quiet s s' /\ out (tio s') = out (tio s) /\
        (all_ok s -> ab' = ab ++ shown l (maskmode (tmodes s)))).
Proof.
  intros Wl H31. unfold shown. destruct (maskmode (tmodes s)).
  - rewrite decide_True, Nat2Z.id by done. apply stars_runs.
  - rewrite small_i32 by lia. eapply runs_mono.
    + apply abAppend_runs. rewrite length_drop. lia.
    + intros ab' s' (Q & O & A). split; [done|]. split; [done|]. by rewrite Nat2Z.id in A.
Qed.

Lemma refreshSingle_runs l z s : rep l z -> sized l ->
  runs (refreshSingleLine l) s (fun l' s' => l' = l /\ quiet s s' /\
    (all_ok s -> hintsCallback (thooks s) = None ->
     out (tio s') = out (tio s) ++ seq_cr ++ prompt l ++ shown l (maskmode (tmodes s)) ++ seq_erase ++
       seq_column (Z.of_nat (pos l - woff l) + plen l))).
Proof.
  intros R Z. pose proof R as (P & L & C & B & _).
  assert (Lp : (pos l <= len l)%nat) by (unfold zlength in L; lia).
  assert (Hb : (woff l <= pos l)%nat) by (unfold woff, sized, plen in *; lia).
  unfold refreshSingleLine. apply runs_bind.
  eapply runs_intro; [unfold lift; rewrite scroll_run by (done || lia); reflexivity|]. cbv beta iota.
  apply runs_bind. eapply runs_intro; [unfold lift; rewrite trim_run by (done || lia); reflexivity|]. cbv beta.
  fold (wlen l). apply runs_bind. eapply runs_mono; [apply abAppend_all_runs|].
  intros ab1 s1 (Q1 & O1 & A1). apply runs_bind. eapply runs_mono; [apply abAppend_all_runs|].
  intros ab2 s2 (Q2 & O2 & A2). apply runs_bind, runs_gets, runs_bind.
  assert (Wl : (woff l + wlen l <= len l)%nat) by (unfold wlen; lia).
  assert (H31 : Z.of_nat (wlen l) < 2 ^ 31) by (unfold sized, plen in Z; lia).
  assert (M2 : maskmode (tmodes s2) = maskmode (tmodes s)).
  { destruct Q1 as (_ & _ & E1 & _), Q2 as (_ & _ & E2 & _). congruence. }
  eapply runs_mono; [apply (text_runs l ab2 s2); lia|]. intros ab3 s3 (Q3 & O3 & A3). rewrite M2 in A3.
  apply runs_bind. eapply runs_mono; [exact (hints_runs ab3 l z s3 R Z)|]. intros ab4 s4 (Q4 & O4 & A4).
  apply runs_bind. eapply runs_mono; [apply abAppend_all_runs|]. intros ab5 s5 (Q5 & O5 & A5).
  apply runs_bind. eapply runs_mono; [apply abAppend_all_runs|]. intros ab6 s6 (Q6 & O6 & A6).
  apply runs_bind. eapply runs_mono; [apply write_runs|]. intros w s7 (Q7 & O7 & A7).
  apply runs_ret. split; [done|].
  assert (q2 : quiet s s2) by (etrans; [exact Q1|exact Q2]).
  assert (q3 : quiet s s3) by (etrans; [exact q2|exact Q3]).
  assert (q4 : quiet s s4) by (etrans; [exact q3|exact Q4]).
  assert (q5 : quiet s s5) by (etrans; [exact q4|exact Q5]).
  assert (q6 : quiet s s6) by (etrans; [exact q5|exact Q6]).
  split; [etrans; [exact q6|exact Q7]|]. intros A Hh.
  assert (ok' : forall s', quiet s s' -> all_ok s') by (intros s' q; exact (all_ok_quiet s s' q A)).
  rewrite O7, A7, O6, O5, O4, O3, O2, O1 by auto. f_equal.
  rewrite A6, A5, A4, A3, A2, A1 by (auto; destruct q3 as (_ & _ & _ & _ & _ & -> & _); done).
  unfold abInit. rewrite small_i32 by (unfold sized, plen in *; lia).
  rewrite app_nil_l, <- !app_assoc. done.
Qed.

Lemma clear_rows_runs n : forall ab s, runs (clear_rows n ab) s (fun _ s' => quiet s s').
Proof.
  induction n as [|n IH]; intros ab s; cbn [clear_rows]; [by apply runs_ret|].
  apply runs_bind. eapply runs_mono; [apply abAppend_all_runs|]. intros ab1 s1 (Q1 & _).
  eapply runs_mono; [apply IH|]. intros ? s2 Q2. by etrans.
Qed.

(** One more quiet step in front of a computation. *)
Lemma quiet_step {A B} (m : ST tty A) (f : A -> ST tty B) s0 s (P : B -> Prop) :
  quiet s0 s -> runs m s (fun _ s' => quiet s s') ->
  (forall a s', quiet s0 s' -> runs (f a) s' (fun b s'' => P b /\ quiet s0 s'')) ->
  runs (m ≫= f) s (fun b s'' => P b /\ quiet s0 s'').
Proof.
  intros Q M F. apply runs_bind. eapply runs_mono; [exact M|]. intros a s' Q'. apply F. by etrans.
Qed.

Lemma append_quiet ab bs s : runs (abAppend_all ab bs) s (fun _ s' => quiet s s').
Proof. eapply runs_mono; [apply abAppend_all_runs|]. by intros ab' s' (Q & _). Qed.

Lemma if_quiet {A} (b : bool) (m m' : ST tty A) s : runs m s (fun _ s' => quiet s s') ->
  runs m' s (fun _ s' => quiet s s') -> runs (if b then m else m') s (fun _ s' => quiet s s').
Proof. by destruct b. Qed.

Lemma ret_quiet {A} (a : A) s : runs (mret a) s (fun _ s' => quiet s s').
Proof. by apply runs_ret. Qed.

Lemma refreshMulti_runs l z s : rep l z -> sized l ->
  runs (refreshMultiLine l) s (fun l' s' => (exists m, l' = set_rows (pos l) m l) /\ quiet s s').
Proof.
  intros R Z. unfold refreshMultiLine. rewrite decide_False by (unfold sized, plen in Z; lia).
  assert (Lb : (len l < length (buf l))%nat) by (destruct R as (_ & _ & ? & ? & _); lia).
  assert (Ep : i32 (plen l) = plen l) by (apply small_i32; unfold sized, plen in *; lia).
  rewrite Ep. apply quiet_step; [done|case_decide; [apply append_quiet|apply ret_quiet]|]. intros ab1 s1 Q1.
  apply quiet_step; [done|apply clear_rows_runs|]. intros ab2 s2 Q2.
  apply quiet_step; [done|apply append_quiet|]. intros ab3 s3 Q3.
  apply quiet_step; [done|apply append_quiet|]. intros ab4 s4 Q4.
  apply runs_bind, runs_gets. apply quiet_step; [done| |].
  { apply if_quiet.
    - eapply runs_mono; [apply stars_runs|]. by intros ? ? (Q & _).
    - eapply runs_mono; [apply abAppend_runs|by intros ? ? (Q & _)].
      rewrite small_i32 by (unfold sized, plen in *; lia). lia. }
  intros ab5 s5 Q5. apply quiet_step; [done| |].
  { eapply runs_mono; [exact (hints_runs ab5 l z s5 R Z)|]. by intros ? ? (Q & _). }
  intros ab6 s6 Q6. apply quiet_step; [done| |].
  { apply if_quiet; [|apply ret_quiet]. apply runs_bind. eapply runs_mono; [apply append_quiet|].
    intros ab s' Q. eapply runs_mono; [apply append_quiet|]. intros ? s'' Q''. exact (transitivity Q Q''). }
  intros ab7 s7 Q7. apply quiet_step; [done|case_decide; [apply append_quiet|apply ret_quiet]|].
  intros ab8 s8 Q8. apply quiet_step; [done|apply append_quiet|]. intros ab9 s9 Q9.
  apply quiet_step; [done| |].
  { eapply runs_mono; [apply write_runs|]. by intros ? ? (Q & _). }
  intros w s10 Q10. apply runs_ret. split; [by eexists|done].
Qed.

(** Refreshing changes what is written, and in multi line mode the record of
    the rows, only. *)
Lemma refreshLine_runs l z s : rep l z -> sized l ->
  runs (refreshLine l) s (fun l' s' => (frame l l' /\ rep l' z) /\ quiet s s').
Proof.
  intros R Z. unfold refreshLine. apply runs_bind, runs_gets. destruct (mlmode (tmodes s)).
  - eapply runs_mono; [exact (refreshMulti_runs l z s R Z)|]. intros l' s' ((m & ->) & Q).
    split; [split; [done|exact R]|exact Q].
  - eapply runs_mono; [exact (refreshSingle_runs l z s R Z)|]. intros l' s' (-> & Q & _).
    split; [split; [reflexivity|exact R]|exact Q].
Qed.

(** *** The operations on the buffer *)

Ltac list_len := repeat first [rewrite length_app | rewrite length_reverse | progress simpl]; lia.

Lemma rev_cons_app (c : Z) a t : reverse (c :: a) ++ t = reverse a ++ c :: t.
Proof. by rewrite reverse_cons, <- app_assoc. Qed.

Lemma poke_one a x c t off : length a = off -> poke (a ++ x :: t) off [c] = Some (a ++ c :: t).
Proof. intros L. exact (poke_at a [x] [c] t off L eq_refl). Qed.

Lemma memmove_run m dst src n bs m' : peek m src n = Some bs -> poke m dst bs = Some m' ->
  memmove m dst src (Z.of_nat n) = Ret m'.
Proof.
  intros P Q. unfold memmove. rewrite decide_False, Nat2Z.id, P by lia.
  cbn [of_option mbind outcome_bind]. by rewrite Q.
Qed.

(** Removing the character at [a]: the rest and its NUL move one place. *)
Lemma remove_char a c b r : exists m,
  memmove (a ++ c :: b ++ 0 :: r) (length a) (length a + 1) (Z.of_nat (length b)) = Ret m /\
  length m = length (a ++ c :: b ++ 0 :: r) /\
  store m (length a + length b) 0 = Ret (a ++ b ++ 0 :: 0 :: r).
Proof.
  assert (E : exists w y, c :: b = w ++ [y] /\ length w = length b).
  { destruct (exists_last (l := c :: b) ltac:(done)) as (w & y & E). exists w, y. split; [done|].
    apply (f_equal length) in E. rewrite length_app in E. simpl in E. lia. }
  destruct E as (w & y & E & Lw).
  assert (P : peek (a ++ c :: b ++ 0 :: r) (length a + 1) (length b) = Some b).
  { change (c :: b ++ 0 :: r) with ([c] ++ b ++ 0 :: r). rewrite (app_assoc a [c]).
    apply peek_at; [by rewrite length_app|done]. }
  assert (Q : poke (a ++ c :: b ++ 0 :: r) (length a) b = Some (a ++ b ++ y :: 0 :: r)).
  { rewrite (app_comm_cons b), E, <- app_assoc. by apply poke_at. }
  eexists. split; [exact (memmove_run _ _ _ _ _ _ P Q)|].
  split; [list_len|]. unfold store.
  rewrite (app_assoc a b), (poke_one (a ++ b)) by (by rewrite length_app). by rewrite <- app_assoc.
Qed.

(** Opening a place at [a]. *)
Lemma insert_char a b x r c : exists m m1,
  memmove (a ++ b ++ 0 :: x :: r) (length a + 1) (length a) (Z.of_nat (length b)) = Ret m /\
  store m (length a) c = Ret m1 /\ length m1 = length (a ++ b ++ 0 :: x :: r) /\
  store m1 (length a + length b + 1) 0 = Ret (a ++ c :: b ++ 0 :: r).
Proof.
  assert (E : exists y w, b ++ [0] = y :: w /\ length w = length b).
  { destruct b as [|y b]; [by exists 0, []|]. exists y, (b ++ [0]). split; [done|].
    rewrite length_app. simpl. lia. }
  destruct E as (y & w & E & Lw).
  assert (P : peek (a ++ b ++ 0 :: x :: r) (length a) (length b) = Some b) by (by apply peek_at).
  assert (Eq : a ++ b ++ 0 :: x :: r = (a ++ [y]) ++ w ++ x :: r).
  { rewrite <- app_assoc. cbn [app]. by rewrite (app_comm_cons w), <- E, <- app_assoc. }
  assert (Q : poke (a ++ b ++ 0 :: x :: r) (length a + 1) b = Some ((a ++ [y]) ++ b ++ x :: r)).
  { rewrite Eq. apply poke_at; [by rewrite length_app|done]. }
  eexists _, _. split; [exact (memmove_run _ _ _ _ _ _ P Q)|]. unfold store.
  rewrite <- app_assoc. cbn [app]. rewrite (poke_one a y) by done. split; [reflexivity|].
  split; [list_len|].
  replace (a ++ c :: b ++ x :: r) with ((a ++ c :: b) ++ x :: r) by (by rewrite <- app_assoc).
  rewrite (poke_one (a ++ c :: b)) by (rewrite length_app; simpl; lia). by rewrite <- app_assoc.
Qed.

(** Removing a word [w] with one move of the rest and its NUL. *)
Lemma remove_word a w b r : exists r',
  memmove (a ++ w ++ b ++ 0 :: r) (length a) (length a + length w) (Z.of_nat (length b) + 1) =
    Ret (a ++ b ++ 0 :: r') /\ length r' = (length w + length r)%nat.
Proof.
  assert (E : exists u v, w ++ b ++ [0] = u ++ v /\ length u = S (length b) /\ length v = length w).
  { exists (take (S (length b)) (w ++ b ++ [0])), (drop (S (length b)) (w ++ b ++ [0])).
    split; [by rewrite take_drop|]. rewrite length_take, length_drop, !length_app. cbn [length]. lia. }
  destruct E as (u & v & E & Lu & Lv).
  assert (P : peek (a ++ w ++ b ++ 0 :: r) (length a + length w) (S (length b)) = Some (b ++ [0])).
  { replace (a ++ w ++ b ++ 0 :: r) with ((a ++ w) ++ (b ++ [0]) ++ r) by (by rewrite <- !app_assoc).
    apply peek_at; rewrite length_app; simpl; lia. }
  assert (Q : poke (a ++ w ++ b ++ 0 :: r) (length a) (b ++ [0]) = Some (a ++ (b ++ [0]) ++ v ++ r)).
  { replace (a ++ w ++ b ++ 0 :: r) with (a ++ u ++ v ++ r)
      by (rewrite (app_assoc u v), <- E, <- !app_assoc; done).
    apply poke_at; [done|]. rewrite length_app. simpl. lia. }
  exists (v ++ r). replace (Z.of_nat (length b) + 1) with (Z.of_nat (S (length b))) by lia.
  rewrite (memmove_run _ _ _ _ _ _ P Q). split; [by rewrite <- app_assoc|]. rewrite length_app. lia.
Qed.

Lemma refresh_from l l1 z s : rep l1 z -> frame l l1 -> sized l ->
  runs (refreshLine l1) s (fun l' s' => (frame l l' /\ rep l' z) /\ quiet s s').
Proof.
  intros R F Z. eapply runs_mono; [exact (refreshLine_runs l1 z s R (frame_sized _ _ F Z))|].
  intros l' s' ((F' & R') & Q). split; [split; [by etrans|done]|done].
Qed.

Lemma same_runs l z s : rep l z ->
  runs (mret l) s (fun l' s' => (frame l l' /\ rep l' z) /\ quiet s s').
Proof. intros R. by apply runs_ret. Qed.

(** Running a defined computation on the buffer first. *)
Lemma lift_step {A B} (m : outcome A) a (f : A -> ST tty B) s (P : B -> tty -> Prop) :
  m = Ret a -> runs (f a) s P -> runs (lift m ≫= f) s P.
Proof. intros E H. apply runs_bind. eapply runs_intro; [unfold lift; rewrite E; reflexivity|exact H]. Qed.

(** [op] implements [f] on the text and the cursor, from any state. *)
Definition refines (op : linenoiseState -> ST tty linenoiseState) (f : zipper -> zipper) : Prop :=
  forall l z s, rep l z -> sized l ->
    runs (op l) s (fun l' s' => (frame l l' /\ rep l' (f z)) /\ quiet s s').

Lemma moveLeft_runs : refines linenoiseEditMoveLeft z_left.
Proof.
  intros l z s R SZ.
  unfold linenoiseEditMoveLeft. destruct z as [[|c a] b]; pose proof R as (P & L & C & B & r & E); cbn in P.
  - rewrite decide_False by lia. by apply same_runs.
  - rewrite decide_True by lia. apply refresh_from; [|done|done].
    split; [cbn; lia|]. split; [cbn; rewrite L; unfold zlength; cbn; lia|]. split; [done|]. split; [done|].
    exists r. cbn [set_pos buf lefts rights z_left]. rewrite E. cbn [lefts rights]. apply rev_cons_app.
Qed.

Lemma moveRight_runs : refines linenoiseEditMoveRight z_right.
Proof.
  intros l z s R SZ.
  unfold linenoiseEditMoveRight. destruct z as [a [|c b]]; pose proof R as (P & L & C & B & r & E); cbn in P;
    unfold zlength in L; cbn in L.
  - rewrite decide_False by lia. by apply same_runs.
  - rewrite decide_True by lia. apply refresh_from; [|done|done].
    split; [cbn; lia|]. split; [cbn; rewrite L; unfold zlength; cbn; lia|]. split; [done|]. split; [done|].
    exists r. cbn [set_pos buf lefts rights z_right]. rewrite E. cbn [lefts rights]. symmetry. apply rev_cons_app.
Qed.

Lemma moveHome_runs : refines linenoiseEditMoveHome z_home.
Proof.
  intros l z s R SZ.
  unfold linenoiseEditMoveHome. destruct z as [a b]; pose proof R as (P & L & C & B & r & E); cbn in P.
  assert (R' : rep (set_pos 0 l) (z_home (Zip a b))).
  { split; [done|]. split; [cbn; rewrite L; unfold zlength, ztext; list_len|].
    split; [done|]. split; [done|]. exists r. cbn. rewrite E. unfold ztext. by rewrite <- app_assoc. }
  case_decide as H; [by apply refresh_from|]. apply runs_ret.
  assert (set_pos 0 l = l) as <- by (rewrite <- H at 1; by destruct l). done.
Qed.

Lemma moveEnd_runs : refines linenoiseEditMoveEnd z_end.
Proof.
  intros l z s R SZ.
  unfold linenoiseEditMoveEnd. destruct z as [a b]; pose proof R as (P & L & C & B & r & E); cbn in P.
  assert (R' : rep (set_pos (len l) l) (z_end (Zip a b))).
  { split; [cbn; rewrite L; unfold zlength, ztext; list_len|]. split; [cbn; rewrite L; unfold zlength, ztext; list_len|].
    split; [done|]. split; [done|]. exists r. cbn. rewrite E, reverse_involutive. unfold ztext.
    by rewrite <- app_assoc. }
  case_decide as H; [by apply refresh_from|]. apply runs_ret.
  assert (set_pos (len l) l = l) as <- by (rewrite <- H at 1; by destruct l). done.
Qed.

Lemma delete_runs : refines linenoiseEditDelete z_delete.
Proof.
  intros l z s R SZ.
  unfold linenoiseEditDelete. destruct z as [a [|c b]]; pose proof R as (P & L & C & B & r & E); cbn in P;
    unfold zlength in L; cbn in L.
  - rewrite decide_False by lia. by apply same_runs.
  - rewrite decide_True by lia. cbn [lefts rights] in E.
    destruct (remove_char (reverse a) c b r) as (m & E1 & Lm & E2). rewrite length_reverse in E1, E2.
    cbn [app] in E. rewrite <- E in Lm. eapply lift_step.
    { replace (Z.of_nat (len l) - Z.of_nat (pos l) - 1)%Z with (Z.of_nat (length b)) by lia.
      rewrite E, P. exact E1. }
    eapply lift_step.
    { cbn. replace (len l - 1)%nat with (length a + length b)%nat by lia. exact E2. }
    apply refresh_from; [| |done].
    + split; [done|]. split; [cbn; unfold zlength; cbn; lia|]. cbn.
      split; [lia|]. split; [rewrite E in B; revert B; list_len|]. by exists (0 :: r).
    + split_and!; try done. cbn. rewrite E. list_len.
Qed.

Lemma backspace_runs : refines linenoiseEditBackspace z_backspace.
Proof.
  intros l z s R SZ.
  unfold linenoiseEditBackspace. destruct z as [[|c a] b]; pose proof R as (P & L & C & B & r & E); cbn in P;
    unfold zlength in L; cbn in L.
  - rewrite decide_False by lia. by apply same_runs.
  - rewrite decide_True by lia. cbn [lefts rights] in E. rewrite rev_cons_app in E.
    destruct (remove_char (reverse a) c b r) as (m & E1 & Lm & E2). rewrite length_reverse in E1, E2.
    eapply lift_step.
    { replace (Z.of_nat (len l) - Z.of_nat (pos l))%Z with (Z.of_nat (length b)) by lia.
      rewrite E, P. replace (S (length a) - 1)%nat with (length a) by lia.
      replace (S (length a)) with (length a + 1)%nat by lia. exact E1. }
    eapply lift_step.
    { cbn. replace (len l - 1)%nat with (length a + length b)%nat by lia. exact E2. }
    apply refresh_from; [| |done].
    + split; [cbn; lia|]. split; [cbn; unfold zlength; cbn; lia|]. cbn.
      split; [lia|]. split; [rewrite E in B; revert B; list_len|]. by exists (0 :: r).
    + split_and!; try done. cbn. rewrite E. list_len.
Qed.


Lemma back_while_run p a t : back_while p (reverse a ++ t) (length a) = Ret (length (drop_while p a)).
Proof.
  revert t. induction a as [|c a IH]; intros t; [done|]. cbn [length back_while drop_while].
  rewrite rev_cons_app. unfold load. rewrite list_lookup_middle by (by rewrite length_reverse).
  cbn [of_option mbind outcome_bind]. destruct (p c); [apply IH|done].
Qed.

Lemma drop_while_suffix p a : exists w, a = w ++ drop_while p a.
Proof.
  induction a as [|c a [w IH]]; [by exists []|]. cbn. destruct (p c).
  - exists (c :: w). cbn. by rewrite <- IH.
  - by exists [].
Qed.

Lemma word_runs : refines linenoiseEditDeletePrevWord z_word.
Proof.
  intros l z s R SZ. unfold linenoiseEditDeletePrevWord. destruct z as [a b].
  pose proof R as (P & L & C & B & r & E). cbn in P, E. unfold zlength in L. cbn in L.
  destruct (drop_while_suffix is_space a) as [w1 E1].
  destruct (drop_while_suffix not_space (drop_while is_space a)) as [w2 E2].
  set (a1 := drop_while is_space a) in *. set (a2 := drop_while not_space a1) in *.
  assert (Ea : a = (w1 ++ w2) ++ a2) by (rewrite <- app_assoc, <- E2; exact E1).
  eapply lift_step; [rewrite E, P; apply back_while_run|]. fold is_space a1.
  eapply lift_step.
  { rewrite E, E1 at 1. rewrite reverse_app, <- app_assoc. apply back_while_run. }
  fold not_space a2. set (w := w1 ++ w2) in *. clearbody w.
  change (z_word (Zip a b)) with (Zip a2 b). clearbody a2.
  assert (La : length a = (length w + length a2)%nat) by (rewrite Ea at 1; by rewrite length_app).
  destruct (remove_word (reverse a2) (reverse w) b r) as (r' & Em & Lr). rewrite length_reverse in Lr. rewrite (length_reverse a2), (length_reverse w) in Em.
  eapply lift_step.
  { replace (buf l) with (reverse a2 ++ reverse w ++ b ++ 0 :: r)
      by (by rewrite E, Ea, reverse_app, <- app_assoc).
    replace (pos l) with (length a2 + length w)%nat by lia.
    replace (Z.of_nat (len l) - Z.of_nat (length a2 + length w) + 1) with (Z.of_nat (length b) + 1) by lia.
    exact Em. }
  rewrite decide_False by lia.
  assert (Lb : length (reverse a2 ++ b ++ 0 :: r') = length (buf l)) by (rewrite E; list_len).
  apply refresh_from; [| |done].
  - split; [done|]. split; [cbn; unfold zlength; cbn; lia|]. cbn. split; [lia|]. rewrite Lb.
    split; [done|]. by exists r'.
  - split_and!; done.
Qed.

Lemma transpose_runs : refines edit_transpose z_transpose.
Proof.
  intros l z s R SZ. unfold edit_transpose.
  destruct z as [[|x a] [|y b]]; pose proof R as (P & L & C & B & r & E); cbn in P, E;
    unfold zlength in L; cbn in L.
  1-3: rewrite decide_False by lia; by apply same_runs.
  rewrite decide_True by lia. rewrite rev_cons_app in E. rewrite P in *.
  replace (S (length a) - 1)%nat with (length a) by lia.
  assert (E1 : load (buf l) (length a) = Ret x).
  { unfold load. rewrite E, list_lookup_middle by (by rewrite length_reverse). done. }
  assert (E2 : load (buf l) (S (length a)) = Ret y).
  { unfold load. rewrite E. change (x :: y :: b ++ 0 :: r) with ([x] ++ y :: b ++ 0 :: r).
    rewrite app_assoc, list_lookup_middle by list_len. done. }
  eapply lift_step; [exact E1|]. eapply lift_step; [exact E2|].
  eapply lift_step.
  { unfold store. rewrite E, (poke_one (reverse a) x) by (by rewrite length_reverse). reflexivity. }
  eapply lift_step.
  { unfold store. change (y :: y :: b ++ 0 :: r) with ([y] ++ y :: b ++ 0 :: r).
    rewrite app_assoc, (poke_one (reverse a ++ [y]) y) by list_len. reflexivity. }
  cbn [set_buf pos len]. rewrite P.
  assert (Lb : length ((reverse a ++ [y]) ++ x :: b ++ 0 :: r) = length (buf l)) by (rewrite E; list_len).
  destruct b as [|y' b].
  - rewrite decide_False by (cbn in L; lia). apply refresh_from; [| |done].
    + split; [done|]. split; [cbn; unfold zlength; cbn in *; lia|]. cbn. split; [lia|].
      split; [cbn in Lb; lia|]. exists r. rewrite rev_cons_app. by rewrite <- app_assoc.
    + split_and!; done.
  - rewrite decide_True by (cbn in L; lia). apply refresh_from; [| |done].
    + split; [cbn; lia|]. split; [cbn; unfold zlength; cbn in *; lia|]. cbn. split; [lia|].
      split; [cbn in Lb; lia|]. exists r. rewrite !rev_cons_app. by rewrite <- app_assoc.
    + split_and!; done.
Qed.

Lemma kill_line_runs : refines edit_kill_line z_kill_line.
Proof.
  intros l z s R SZ. unfold edit_kill_line. pose proof R as (P & L & C & B & r & E).
  assert (Eb : exists x t, buf l = x :: t) by (destruct (buf l); [simpl in B; lia|by eexists _, _]).
  destruct Eb as (x & t & Eb). eapply lift_step; [rewrite Eb; exact (f_equal of_option (poke_one [] x 0 t 0 eq_refl))|].
  cbn [app of_option]. rewrite Eb in B. apply refresh_from; [| |done].
  - split; [done|]. split; [done|]. cbn in *. split; [lia|]. split; [done|]. by exists t.
  - split_and!; try done. cbn. by rewrite Eb.
Qed.

Lemma kill_end_runs : refines edit_kill_end z_kill_end.
Proof.
  intros l z s R SZ. unfold edit_kill_end. destruct z as [a b].
  pose proof R as (P & L & C & B & r & E). cbn in P, E. unfold zlength in L. cbn in L.
  assert (Et : exists x t, b ++ 0 :: r = x :: t) by (destruct b; by eexists _, _).
  destruct Et as (x & t & Et). rewrite Et in E.
  eapply lift_step.
  { unfold store. rewrite E, P, (poke_one (reverse a) x) by (by rewrite length_reverse). reflexivity. }
  assert (Lb : length (reverse a ++ 0 :: t) = length (buf l)) by (rewrite E; list_len).
  apply refresh_from; [| |done].
  - split; [done|]. split; [cbn; unfold zlength; cbn; lia|]. cbn. split; [lia|]. rewrite Lb.
    split; [done|]. by exists t.
  - split_and!; done.
Qed.

(** After the insertion the line is drawn anew. *)
Lemma redrawn_runs l l1 z s : rep l1 z -> frame l l1 -> sized l ->
  runs (l ← refreshLine l1; mret (l, 0)) s (fun '(l', r) s' => (frame l l' /\ rep l' z) /\
    quiet s s' /\ (r = 0 \/ r = -1) /\ (all_ok s -> r = 0)).
Proof.
  intros R F Z. apply runs_bind. eapply runs_mono; [exact (refresh_from l l1 z s R F Z)|].
  intros l' s' (H & Q). apply runs_ret. split; [done|]. split; [done|]. by split; [left|].
Qed.

(** Typing a character; -1 only when the terminal refuses it. *)
Lemma insert_runs c l z s : rep l z -> sized l ->
  runs (linenoiseEditInsert l c) s (fun '(l', r) s' => (frame l l' /\ rep l' (z_insert (buflen l) c z)) /\
    quiet s s' /\ (r = 0 \/ r = -1) /\ (all_ok s -> r = 0)).
Proof.
  intros R SZ. unfold linenoiseEditInsert. pose proof R as (P & L & C & B & r & E).
  unfold z_insert. rewrite <- L. destruct (decide (len l < buflen l)%nat) as [Hc|Hc].
  2:{ apply runs_ret. split; [done|]. split; [done|]. split; [by left|done]. }
  destruct z as [a b]. cbn in P, E. unfold zlength in L. cbn in L.
  assert (Er : exists x r', r = x :: r').
  { destruct r; [|by eexists _, _]. rewrite E in B. revert B. list_len. }
  destruct Er as (x & r' & ->).
  destruct (decide (len l = pos l)) as [Hp|Hp].
  - assert (b = []) as -> by (destruct b; [done|cbn in L; lia]). cbn [app] in E. cbn [length] in L.
    eapply lift_step.
    { unfold store. rewrite E, P, (poke_one (reverse a) 0) by (by rewrite length_reverse). reflexivity. }
    eapply lift_step.
    { unfold store. cbn [set_len set_pos set_buf buf len]. change (c :: x :: r') with ([c] ++ x :: r').
      rewrite app_assoc, (poke_one (reverse a ++ [c]) x) by list_len. reflexivity. }
    set (l1 := set_buf _ _).
    assert (R1 : rep l1 (Zip (c :: a) [])).
    { split; [cbn; lia|]. split; [cbn; unfold zlength; cbn; lia|]. split; [cbn; lia|].
      split; [cbn; rewrite E in B; revert B; list_len|]. exists r'. cbn. rewrite rev_cons_app.
      by rewrite <- app_assoc. }
    assert (F1 : frame l l1).
    { split_and!; try done. cbn. rewrite E. list_len. }
    apply runs_bind, runs_gets. case_decide.
    + apply runs_bind. eapply runs_mono; [apply write_runs|]. intros w s' (Q & _ & A).
      apply runs_ret. split; [done|]. split; [done|]. destruct w; [by (split; [left|])|].
      split; [by right|]. intros A'. by specialize (A A').
    + exact (redrawn_runs l l1 _ s R1 F1 SZ).
  - destruct (insert_char (reverse a) b x r' c) as (m & m1 & E1 & E2 & Lm & E3).
    rewrite length_reverse in E1, E2, E3. eapply lift_step.
    { rewrite E, P. replace (Z.of_nat (len l) - Z.of_nat (length a)) with (Z.of_nat (length b)) by lia. exact E1. }
    eapply lift_step; [rewrite P; exact E2|].
    eapply lift_step.
    { cbn. replace (S (len l)) with (length a + length b + 1)%nat by lia. exact E3. }
    set (l1 := set_buf _ _).
    assert (R1 : rep l1 (Zip (c :: a) b)).
    { split; [cbn; lia|]. split; [cbn; unfold zlength; cbn; lia|]. split; [cbn; lia|].
      split; [cbn; rewrite E in B; revert B; list_len|]. exists r'. cbn. by rewrite rev_cons_app. }
    assert (F1 : frame l l1).
    { split_and!; try done. cbn. rewrite E. list_len. }
    exact (redrawn_runs l l1 _ s R1 F1 SZ).
Qed.

(** ** The screen

    A row of [w] cells and the column of the cursor, with the sequences the
    comment at the head of linenoise.c lists: CR, erase from the cursor to the
    end of the row, forward by n columns (1 when n is 0).  A character goes
    into the cell of the cursor, which then moves right unless it is in the
    last column. *)

Record screen := Screen { cells : list Z; column : nat }.

Definition put_char (w : nat) (c : Z) (sc : screen) : screen :=
  Screen (<[column sc := c]> (cells sc)) (Nat.min (column sc + 1) (w - 1)).
Definition erase_right (w : nat) (sc : screen) : screen :=
  Screen (take (column sc) (cells sc) ++ replicate (w - column sc) 32) (column sc).
Definition forward (w : nat) (n : Z) (sc : screen) : screen :=
  Screen (cells sc) (Nat.min (column sc + Nat.max 1 (Z.to_nat n)) (w - 1)).

(** [fuel] is at least the number of bytes. *)
Fixpoint display (fuel w : nat) (bs : list Z) (sc : screen) : screen :=
  match fuel with
  | O => sc
  | S f =>
      match bs with
      | [] => sc
      | c :: t =>
          if decide (c = 13) then display f w t (Screen (cells sc) 0)
          else if decide (c = 27 /\ head t = Some 91) then
            match span_digits (tail t) with
            | (_, 75 :: t') => display f w t' (erase_right w sc)
            | (ds, 67 :: t') => display f w t' (forward w (undigits 0 ds) sc)
            | (_, t') => display f w t' sc
            end
          else display f w t (put_char w c sc)
      end
  end.

Definition printable (l : list Z) : Prop := Forall (fun c => 32 <= c) l.

#[export] Instance printable_dec l : Decision (printable l).
Proof. unfold printable. apply _. Defined.

Lemma display_text w t : forall bs fuel sc, printable t -> (0 < w)%nat -> length (cells sc) = w ->
  (column sc + length t <= w)%nat -> (column sc < w)%nat -> (length t <= fuel)%nat ->
  display fuel w (t ++ bs) sc =
  display (fuel - length t) w bs
    (Screen (take (column sc) (cells sc) ++ t ++ drop (column sc + length t) (cells sc))
       (Nat.min (column sc + length t) (w - 1))).
Proof.
  induction t as [|c t IH]; intros bs fuel sc F Hw L H Hc Hf.
  - cbn [app length]. rewrite Nat.sub_0_r, Nat.add_0_r, take_drop. rewrite Nat.min_l by lia. by destruct sc.
  - apply Forall_cons in F as [Fc F]. destruct fuel as [|fuel]; [simpl in Hf; lia|].
    cbn [length] in *. assert (E : display (S fuel) w ((c :: t) ++ bs) sc = display fuel w (t ++ bs) (put_char w c sc)).
    { cbn [app display]. by rewrite !decide_False by lia. }
    rewrite E. destruct (decide (t = [])) as [-> |Ht].
    + cbn [app length]. replace (S fuel - 1)%nat with fuel by lia. f_equal. unfold put_char.
      f_equal. rewrite insert_take_drop by lia. by rewrite Nat.add_1_r.
    + assert (0 < length t)%nat by (destruct t; [done|simpl; lia]).
      assert (Cp : column (put_char w c sc) = S (column sc)) by (cbn; lia).
      rewrite IH; [|done|done|by cbn; rewrite length_insert|rewrite Cp; lia|rewrite Cp; lia|lia].
      rewrite Cp. replace (S fuel - S (length t))%nat with (fuel - length t)%nat by lia.
      f_equal. unfold put_char. cbn [cells]. f_equal; [|f_equal; lia].
      rewrite (take_S_r _ _ c) by (apply list_lookup_insert_eq; lia).
      rewrite take_insert_ge, <- app_assoc by lia. rewrite drop_insert_lt by lia. cbn [app].
      by rewrite Nat.add_succ_comm.
Qed.

Lemma span_dec n c t : 0 <= n < 10 ^ 20 -> isdigit c = false ->
  span_digits (dec n ++ c :: t) = (dec n, c :: t) /\ undigits 0 (dec n) = n.
Proof.
  intros Hn Hc. destruct (dec_nonneg n Hn) as (_ & _ & F & U). split; [|done].
  clear U Hn. induction F as [|d ds Hd F IH]; cbn.
  - by rewrite Hc.
  - unfold isdigit at 1. rewrite bool_decide_true by done. cbn. by rewrite IH.
Qed.

(** What a row of [w] cells holds when [t] is written and the rest erased:
    when [t] reaches the last column the cursor stays in it, and erasing from
    there takes the last character away. *)
Definition row_of (w : nat) (t : list Z) : list Z :=
  take (w - 1) t ++ replicate (w - Nat.min (length t) (w - 1)) 32.

Ltac list_len_in := repeat first [rewrite length_app | progress cbn [length]].

Lemma display_refresh w p t n sc fuel : (1 < w)%nat -> length (cells sc) = w -> printable p -> printable t ->
  (length p + length t <= w)%nat -> 0 < n < Z.of_nat w -> n < 2 ^ 31 ->
  (length (seq_cr ++ p ++ t ++ seq_erase ++ seq_column n) <= fuel)%nat ->
  display fuel w (seq_cr ++ p ++ t ++ seq_erase ++ seq_column n) sc =
    Screen (row_of w (p ++ t)) (Z.to_nat n).
Proof.
  intros Hw L Fp Ft Hl Hn Hn2 Hf. unfold seq_cr, seq_erase, seq_column in *.
  revert Hf. list_len_in. intros Hf. destruct fuel as [|fuel]; [lia|]. cbn [app display].
  rewrite (app_assoc p t). rewrite (display_text w (p ++ t)); cbn [cells column]; try lia;
    [|by apply Forall_app|rewrite length_app; lia|rewrite length_app; lia].
  rewrite take_0, Nat.add_0_l, length_app. cbn [app].
  set (m := (length p + length t)%nat) in *.
  assert (Hfu : exists f, (fuel - m)%nat = S (S (S f))). { exists (fuel - m - 3)%nat. lia. }
  destruct Hfu as [f Ef]. rewrite Ef. set (sc1 := Screen _ _).
  assert (E1 : display (S (S (S f))) w ([27; 91; 48; 75] ++ [13; 27; 91] ++ dec n ++ [67]) sc1 =
               display (S (S f)) w ([13; 27; 91] ++ dec n ++ [67]) (erase_right w sc1)) by reflexivity.
  assert (E2 : forall sc', display (S (S f)) w ([13; 27; 91] ++ dec n ++ [67]) sc' =
               display (S f) w ([27; 91] ++ dec n ++ [67]) (Screen (cells sc') 0)) by reflexivity.
  assert (E3 : forall sc', display (S f) w ([27; 91] ++ dec n ++ [67]) sc' =
     match span_digits (dec n ++ [67]) with
     | (_, 75 :: t') => display f w t' (erase_right w sc')
     | (ds, 67 :: t') => display f w t' (forward w (undigits 0 ds) sc')
     | (_, t') => display f w t' sc'
     end) by reflexivity.
  etrans; [exact E1|]. rewrite E2, E3. destruct (span_dec n 67 [] ltac:(lia) eq_refl) as [-> ->].
  assert (Ed : forall sc', display f w [] sc' = sc') by (by destruct f). rewrite Ed. unfold sc1.
  unfold forward, erase_right. cbn [cells column]. f_equal; [|lia].
  unfold row_of. rewrite length_app. fold m. f_equal.
  destruct (decide (m = w)) as [E|E].
  - rewrite Nat.min_r by lia. rewrite drop_ge, app_nil_r by lia. done.
  - rewrite Nat.min_l by lia. rewrite take_app_le by (rewrite length_app; lia).
    rewrite !take_ge by (rewrite length_app; lia). done.
Qed.

(** One cell of the row: the last one is always blank. *)
Lemma row_cell w t i : (i < w)%nat ->
  row_of w t !! i = Some (if decide (i < length t /\ i < w - 1)%nat then t !!! i else 32).
Proof.
  intros Hi. unfold row_of. destruct (decide (i < length t /\ i < w - 1)%nat) as [[H1 H2]|H].
  - rewrite lookup_app_l by (rewrite length_take; lia). rewrite lookup_take_lt by lia. by apply list_lookup_lookup_total_lt.
  - rewrite lookup_app_r by (rewrite length_take; lia). apply lookup_replicate. rewrite length_take. split; [done|lia].
Qed.

(** ** Walking through the history *)

(** The string the buffer holds, as C reads it. *)
Definition line_of (z : zipper) : list Z := default (ztext z) (before 0 (ztext z)).

(** The history with the edited line stored at index [i] from the end, and
    the line the index [i] names. *)
Definition nav_store (hl : list (list Z)) (i : nat) (z : zipper) : list (list Z) :=
  <[(length hl - 1 - i)%nat := line_of z]> hl.
Definition nav_line (hl : list (list Z)) (i : nat) : list Z := hl !!! (length hl - 1 - i)%nat.

Definition nav_index (n i : nat) (dir : direction) : option nat :=
  match dir with
  | HISTORY_PREV => if decide (i + 1 < n)%nat then Some (i + 1)%nat else None
  | HISTORY_NEXT => if decide (0 < i)%nat then Some (i - 1)%nat else None
  end.

(** [cap] is the size given to the editor: one byte of it is not used here. *)
Definition z_nav (cap : nat) (dir : direction) (hl : list (list Z)) (i : nat) (z : zipper)
    : list (list Z) * nat * zipper :=
  if decide (1 < length hl)%nat then
    let hl := nav_store hl i z in
    match nav_index (length hl) i dir with
    | None => (hl, i, z)
    | Some i => (hl, i, Zip (reverse (take (cap - 1) (nav_line hl i))) [])
    end
  else (hl, i, z).

Lemma before_Some_nonul t t' : before 0 t = Some t' -> nonul t'.
Proof.
  revert t'. induction t as [|c t IH]; intros t'; cbn; [done|]. destruct (decide (c = 0)).
  - intros [= <-]. constructor.
  - destruct (before 0 t); [|done]. intros [= <-]. constructor; [done|]. by apply IH.
Qed.

Lemma before_None_nonul t : before 0 t = None -> nonul t.
Proof.
  induction t as [|c t IH]; cbn; [constructor|]. destruct (decide (c = 0)); [done|].
  destruct (before 0 t); [done|]. intros _. constructor; [done|]. by apply IH.
Qed.

Lemma line_of_nonul z : nonul (line_of z).
Proof.
  unfold line_of. destruct (before 0 (ztext z)) eqn:E; cbn.
  - by eapply before_Some_nonul.
  - by apply before_None_nonul.
Qed.

(** Storing the edited line: the old string is freed and replaced. *)
Lemma store_line h hl i z : hist_rep h hl -> (i < length hl)%nat ->
  exists h1 h2, free_slot h (length hl - 1 - i) = Ret h1 /\
    set_slot h1 (length hl - 1 - i) (Str (line_of z)) = Ret h2 /\ hist_rep h2 (nav_store hl i z) /\
    history_max_len h2 = history_max_len h.
Proof.
  intros R Hi. set (k := (length hl - 1 - i)%nat). assert (Hk : (k < length hl)%nat) by lia.
  destruct (lookup_lt_is_Some_2 hl k Hk) as [x Ex]. unfold free_slot.
  rewrite (rep_lookup h hl k x R Ex). cbn [mbind outcome_bind].
  destruct R as (L & B & R). destruct (slots h) as [sl|]; [|by subst]. destruct R as [Ls T].
  eexists _, _. split; [reflexivity|]. unfold set_slot. cbn [slots].
  rewrite decide_True by (rewrite length_insert; lia). split; [reflexivity|]. split; [|done].
  unfold hist_rep, nav_store. fold k. cbn. rewrite !length_insert. split; [done|]. split; [done|].
  split; [done|]. rewrite list_insert_insert_eq, take_insert_lt, T by done.
  by rewrite list_fmap_insert.
Qed.

Lemma nav_store_nonul hl i z : Forall nonul hl -> Forall nonul (nav_store hl i z).
Proof. intros F. apply Forall_insert; [done|apply line_of_nonul]. Qed.

Lemma nav_line_lookup h hl i : hist_rep h hl -> (i < length hl)%nat ->
  get_slot h (length hl - 1 - i) = Ret (Str (nav_line hl i)).
Proof.
  intros R Hi. apply (rep_lookup h hl); [done|]. unfold nav_line.
  apply list_lookup_lookup_total_lt. lia.
Qed.

(** Copying a line into the buffer: the buffer then holds its start. *)
Lemma load_line b n t : nonul t -> (0 < n < length b)%nat ->
  exists b1 b2 r, poke b 0 (strncpy t n) = Some b1 /\ store b1 (n - 1) 0 = Ret b2 /\
    b2 = take (n - 1) t ++ 0 :: r /\ length b2 = length b.
Proof.
  intros N Hn. rewrite poke_Some by (rewrite strncpy_length; lia). rewrite take_0, strncpy_length, Nat.add_0_l.
  cbn [app]. set (d := drop n b). set (u := take (n - 1) t).
  assert (Lu : (length u <= n - 1)%nat) by (unfold u; rewrite length_take; lia).
  assert (E : exists y, strncpy t n = u ++ replicate (n - 1 - length u) 0 ++ [y]).
  { unfold strncpy, u. destruct (decide (length t <= n - 1)%nat).
    - rewrite !(take_ge t) by lia. exists 0. rewrite take_app_ge, take_replicate by lia.
      f_equal. rewrite <- replicate_S_end. f_equal. lia.
    - destruct (lookup_lt_is_Some_2 t (n - 1) ltac:(lia)) as [y Ey]. exists y.
      rewrite length_take, Nat.min_l, Nat.sub_diag by lia. cbn. rewrite take_app_le by lia.
      rewrite <- (take_S_r _ _ _ Ey). f_equal. lia. }
  destruct E as [y Ey]. rewrite Ey. set (q := (n - 1 - length u)%nat) in *. unfold store.
  assert (Eq : (u ++ replicate q 0 ++ [y]) ++ d = (u ++ replicate q 0) ++ y :: d) by (by rewrite <- !app_assoc).
  assert (Ep : poke ((u ++ replicate q 0) ++ y :: d) (n - 1) [0] = Some ((u ++ replicate q 0) ++ 0 :: d))
    by (apply poke_one; rewrite length_app, length_replicate; unfold q; lia).
  assert (Ez : exists r, replicate q 0 ++ 0 :: d = 0 :: r) by (destruct q; by eexists).
  destruct Ez as [r Ez]. eexists _, _, r. split; [reflexivity|]. rewrite Eq, Ep. split; [reflexivity|].
  rewrite <- app_assoc, Ez. split; [done|]. rewrite <- Ez, length_app, length_app, length_replicate. cbn [length].
  unfold d. rewrite length_drop. unfold q. lia.
Qed.

Lemma hist_at_run h l hl i : hist_rep h hl -> history_index l = Z.of_nat i -> (i < length hl)%nat ->
  hist_at h l = Ret (length hl - 1 - i)%nat.
Proof.
  intros (L & _) E Hi. unfold hist_at. rewrite L, E, decide_True by lia. f_equal. lia.
Qed.

(** Everything but the history, the output and the count of requests. *)
Definition quiet_hist (s s' : tty) : Prop :=
  tenv s' = tenv s /\ input (tio s') = input (tio s) /\ tmodes s' = tmodes s /\
  completionCallback (thooks s') = completionCallback (thooks s) /\
  hintsCallback (thooks s') = hintsCallback (thooks s) /\ files s' = files s /\
  history_max_len (thist s') = history_max_len (thist s).

#[export] Instance quiet_hist_preorder : PreOrder quiet_hist.
Proof.
  split; [by intros s|]. intros s t u (?&?&?&?&?&?&?) (?&?&?&?&?&?&?).
  unfold quiet_hist. split_and!; congruence.
Qed.

Lemma quiet_quiet_hist s s' : quiet s s' -> quiet_hist s s'.
Proof. intros (?&?&?&H&?&?&?). unfold quiet_hist. rewrite H. done. Qed.

(** The session apart from its history index. *)
Definition frame_index (l l' : linenoiseState) : Prop :=
  buflen l' = buflen l /\ prompt l' = prompt l /\ cols l' = cols l /\ length (buf l') = length (buf l).

#[export] Instance frame_index_preorder : PreOrder frame_index.
Proof.
  split; [by intros s|]. intros s t u (?&?&?&?) (?&?&?&?). unfold frame_index. split_and!; congruence.
Qed.

Lemma frame_frame_index l l' : frame l l' -> frame_index l l'.
Proof. by intros (?&?&?&?&?). Qed.

Lemma frame_index_sized l l' : frame_index l l' -> sized l -> sized l'.
Proof. unfold sized, plen. intros (_ & -> & -> & ->). done. Qed.

Lemma rep_set_index l z i : rep l z -> rep (set_index i l) z.
Proof. done. Qed.

Lemma nav_index_spec n i dir : (i < n)%nat ->
  match nav_index n i dir with
  | Some j => Z.of_nat i + match dir with HISTORY_PREV => 1 | HISTORY_NEXT => -1 end = Z.of_nat j /\ (j < n)%nat
  | None => match dir with HISTORY_PREV => (i = n - 1)%nat | HISTORY_NEXT => i = O end
  end.
Proof. intros H. unfold nav_index. destruct dir; case_decide; lia. Qed.

(** Line [j] of the history is shown, cut to the buffer. *)
Lemma show_line_runs j l z s h hl : rep l z -> sized l -> (1 < buflen l)%nat -> thist s = h ->
  hist_rep h hl -> Forall nonul hl -> (j < length hl)%nat ->
  runs (i ← lift (hist_at h (set_index (Z.of_nat j) l));
        x ← lift (get_slot h i);
        str ← lift (slot_str x);
        b ← lift (of_option (poke (buf (set_index (Z.of_nat j) l)) 0 (strncpy str (buflen (set_index (Z.of_nat j) l)))));
        b ← lift (if decide (buflen (set_index (Z.of_nat j) l) = O) then Undef
                  else store b (buflen (set_index (Z.of_nat j) l) - 1) 0);
        n ← lift (of_option (length <$> cstr b));
        refreshLine (set_len n (set_pos n (set_buf b (set_index (Z.of_nat j) l))))) s (fun l' s' =>
    frame_index l l' /\ rep l' (Zip (reverse (take (buflen l - 1) (nav_line hl j))) []) /\ history_index l' = Z.of_nat j /\
    thist s' = h /\ quiet_hist s s').
Proof.
  intros R SZ Hb Ht HR HN Hj.
  eapply lift_step; [apply (hist_at_run h (set_index (Z.of_nat j) l) hl j HR); [done|lia]|].
  eapply lift_step; [exact (nav_line_lookup h hl j HR ltac:(lia))|].
  eapply lift_step; [reflexivity|]. set (t := nav_line hl j) in *.
  assert (Nt : nonul t).
  { unfold t, nav_line. apply (Forall_lookup_total_1 _ _ _ HN). lia. }
  pose proof R as (_ & _ & _ & B & _).
  destruct (load_line (buf l) (buflen l) t Nt ltac:(lia)) as (b1 & b2 & r & P1 & P2 & Eb & Lb).
  eapply lift_step; [cbn [set_index buf buflen]; rewrite P1; reflexivity|].
  eapply lift_step; [cbn [set_index buflen]; rewrite decide_False by lia; exact P2|].
  assert (Nu : nonul (take (buflen l - 1) t)) by (by apply Forall_take).
  eapply lift_step; [rewrite Eb, cstr_app by done; reflexivity|].
  set (u := take (buflen l - 1) t) in *.
  assert (Lu : (length u <= buflen l - 1)%nat) by (unfold u; rewrite length_take; lia).
  set (l1 := set_len (length u) (set_pos (length u) (set_buf b2 (set_index (Z.of_nat j) l)))).
  assert (R1 : rep l1 (Zip (reverse u) [])).
  { split; [cbn; by rewrite length_reverse|]. split; [cbn; unfold zlength; cbn; rewrite length_reverse; lia|].
    split; [cbn; lia|]. split; [cbn; by rewrite Lb|]. exists r. cbn. by rewrite reverse_involutive. }
  assert (F1 : frame_index l l1) by (split_and!; done).
  eapply runs_mono; [exact (refreshLine_runs l1 _ s R1 (frame_index_sized _ _ F1 SZ))|].
  intros l' s' ((F' & R') & Q'). split; [etrans; [exact F1|by apply frame_frame_index]|]. split; [done|].
  split; [by destruct F' as (_ & _ & _ & -> & _)|].
  split; [destruct Q' as (_ & _ & _ & -> & _); done|]. by apply quiet_quiet_hist.
Qed.

Lemma history_next_runs dir l z s hl i : rep l z -> sized l -> (1 < buflen l)%nat ->
  hist_rep (thist s) hl -> Forall nonul hl -> history_index l = Z.of_nat i ->
  (i < length hl \/ length hl <= 1)%nat -> all_ok s ->
  runs (linenoiseEditHistoryNext l dir) s (fun l' s' =>
    let '(hl', i', z') := z_nav (buflen l) dir hl i z in
    frame_index l l' /\ rep l' z' /\ history_index l' = Z.of_nat i' /\
    hist_rep (thist s') hl' /\ Forall nonul hl' /\ length hl' = length hl /\ (i' < length hl \/ i' = i)%nat /\
    quiet_hist s s').
Proof.
  intros R SZ Hb HR HN Hi Hlt A. unfold linenoiseEditHistoryNext, z_nav.
  apply runs_bind, runs_gets. pose proof HR as (L & _). rewrite L. case_decide as H1.
  2:{ apply runs_ret. split; [done|]. split_and!; try done. by right. }
  destruct Hlt as [Hlt|]; [|lia].
  destruct (store_line (thist s) hl i z HR Hlt) as (h1 & h2 & E1 & E2 & HR2 & M2).
  eapply lift_step; [exact (hist_at_run _ _ _ _ HR Hi Hlt)|]. eapply lift_step; [exact E1|].
  eapply lift_step; [rewrite (rep_cstr l z R); reflexivity|].
  apply runs_bind. unfold strdup. apply runs_bind. eexists _, _. split; [reflexivity|]. rewrite A.
  apply runs_ret. set (s1 := set_io _ s). eapply lift_step; [exact E2|]. fold (line_of z).
  apply runs_bind, runs_modify. set (s2 := set_hist _ s1).
  assert (Q2 : quiet_hist s s2). { unfold quiet_hist, s2. cbn. rewrite M2. done. }
  assert (T2 : thist s2 = h2) by done. clearbody s2.
  set (hl2 := nav_store hl i z) in *. assert (Ln : length hl2 = length hl) by apply length_insert.
  assert (N2 : Forall nonul hl2) by (by apply nav_store_nonul).
  pose proof HR2 as (L2 & _). rewrite ?L2, ?Ln, ?Hi.
  pose proof (nav_index_spec (length hl) i dir Hlt) as Ci. destruct (nav_index (length hl) i dir) as [j|].
  - destruct Ci as [Cj Hj]. rewrite Cj, decide_False, decide_False by lia.
    eapply runs_mono; [apply (show_line_runs j l z s2 h2 hl2); try done; lia|].
    intros l' s' (F' & R' & I' & T' & Q'). split; [done|]. split; [done|]. split; [done|].
    split; [by rewrite T'|]. split; [done|]. split; [done|]. split; [left; lia|]. by etrans.
  - destruct dir.
    + rewrite decide_True by lia. apply runs_ret. split; [done|]. split; [done|].
      split; [cbn; lia|]. split; [by rewrite T2|]. split_and!; try done. lia.
    + rewrite decide_False, decide_True by lia. apply runs_ret. split; [done|]. split; [done|].
      split; [cbn; lia|]. split; [by rewrite T2|]. split_and!; try done. lia.
Qed.

(** ** Properties *)

Inductive edit :=
  | Insert (c : Z) | MoveLeft | MoveRight | MoveHome | MoveEnd | Delete | Backspace
  | PrevWord | SwapChars | KillLine | KillEnd.

Definition with_ok (m : ST tty linenoiseState) : ST tty (linenoiseState * Z) := l ← m; mret (l, 0).

(** The function of the source for each operation; the number is its return
    value, 0 where it has none. *)
Definition run_edit (e : edit) (l : linenoiseState) : ST tty (linenoiseState * Z) :=
  match e with
  | Insert c => linenoiseEditInsert l c
  | MoveLeft => with_ok (linenoiseEditMoveLeft l)
  | MoveRight => with_ok (linenoiseEditMoveRight l)
  | MoveHome => with_ok (linenoiseEditMoveHome l)
  | MoveEnd => with_ok (linenoiseEditMoveEnd l)
  | Delete => with_ok (linenoiseEditDelete l)
  | Backspace => with_ok (linenoiseEditBackspace l)
  | PrevWord => with_ok (linenoiseEditDeletePrevWord l)
  | SwapChars => with_ok (edit_transpose l)
  | KillLine => with_ok (edit_kill_line l)
  | KillEnd => with_ok (edit_kill_end l)
  end.

Definition z_edit (cap : nat) (e : edit) (z : zipper) : zipper :=
  match e with
  | Insert c => z_insert cap c z
  | MoveLeft => z_left z | MoveRight => z_right z | MoveHome => z_home z | MoveEnd => z_end z
  | Delete => z_delete z | Backspace => z_backspace z | PrevWord => z_word z
  | SwapChars => z_transpose z | KillLine => z_kill_line z | KillEnd => z_kill_end z
  end.

(** The statement of the refinement, for a result and a state. *)
Definition edit_post (e : edit) (l : linenoiseState) (z : zipper) (s : tty)
    (lr : linenoiseState * Z) (s' : tty) : Prop :=
  frame l lr.1 /\ rep lr.1 (z_edit (buflen l) e z) /\ quiet s s' /\
  (lr.2 = 0 \/ lr.2 = -1) /\ ((forall c, e <> Insert c) \/ all_ok s -> lr.2 = 0).

Lemma with_ok_runs e op f l z s : refines op f -> rep l z -> sized l ->
  run_edit e l = with_ok (op l) -> z_edit (buflen l) e z = f z ->
  runs (run_edit e l) s (edit_post e l z s).
Proof.
  intros H R SZ -> Ef. apply runs_bind. eapply runs_mono; [exact (H l z s R SZ)|].
  intros l' s' ((F & R') & Q). apply runs_ret. unfold edit_post. rewrite Ef. cbn. auto 6.
Qed.

Lemma run_edit_runs e l z s : rep l z -> sized l -> runs (run_edit e l) s (edit_post e l z s).
Proof.
  intros R SZ. destruct e.
  - eapply runs_mono; [exact (insert_runs c l z s R SZ)|].
    intros [l' r] s' ((F & R') & Q & C & A). split; [done|]. split; [done|]. split; [done|]. split; [done|].
    intros [H|H]; [by destruct (H c)|by apply A].
  - by apply (with_ok_runs _ _ _ _ _ _ moveLeft_runs).
  - by apply (with_ok_runs _ _ _ _ _ _ moveRight_runs).
  - by apply (with_ok_runs _ _ _ _ _ _ moveHome_runs).
  - by apply (with_ok_runs _ _ _ _ _ _ moveEnd_runs).
  - by apply (with_ok_runs _ _ _ _ _ _ delete_runs).
  - by apply (with_ok_runs _ _ _ _ _ _ backspace_runs).
  - by apply (with_ok_runs _ _ _ _ _ _ word_runs).
  - by apply (with_ok_runs _ _ _ _ _ _ transpose_runs).
  - by apply (with_ok_runs _ _ _ _ _ _ kill_line_runs).
  - by apply (with_ok_runs _ _ _ _ _ _ kill_end_runs).
Qed.

(** C6: every editing operation refines the operation of the same name on a
    string with a cursor, in single and in multi line mode, masked or not,
    with or without hints: from a buffer that holds the text of [z], no byte
    outside the buffer is touched, the buffer then holds the edited text with
    its NUL, nothing is inserted into a full buffer, and besides the text only
    the output changes.  The result is -1 only for an insertion whose echo the
    terminal refused. *)
Theorem edit_refines e l z s : rep l z -> sized l -> runs (run_edit e l) s (edit_post e l z s).
Proof. exact (run_edit_runs e l z s). Qed.

(** "rkx>" *)
Definition rkx_prompt : list Z := [114; 107; 120; 62].

(** A session on a buffer of [n] bytes that holds [t], the cursor at its end. *)
Definition session (n : nat) (t : list Z) (w : Z) : linenoiseState :=
  LState (t ++ replicate (n - length t) 0) (n - 1) rkx_prompt (length t) 0 (length t) w 0 0.

(** "ab cd" with the cursor at the end. *)
Definition sample_zip : zipper := Zip [100; 99; 32; 98; 97] [].
Definition sample_session : linenoiseState := session 16 [97; 98; 32; 99; 100] 80.

Lemma session_rep : rep sample_session sample_zip.
Proof.
  split; [reflexivity|]. split; [reflexivity|]. split; [apply Nat.leb_le; reflexivity|].
  split; [apply Nat.ltb_lt; reflexivity|]. by exists (replicate 10 0).
Qed.

Lemma edit_refines_witness : runs (run_edit PrevWord sample_session) tty0
  (fun lr _ => rep lr.1 (Zip [32; 98; 97] [])).
Proof.
  eapply runs_mono; [exact (edit_refines PrevWord sample_session sample_zip tty0 session_rep
    ltac:(split; vm_compute; reflexivity))|].
  intros lr s' (_ & R & _). exact R.
Defined.

(** The characters of the text that fit the row, around the cursor. *)
Definition window (l : linenoiseState) (mask : bool) (z : zipper) : list Z :=
  if mask then replicate (wlen l) 42 else take (wlen l) (drop (woff l) (ztext z)).

(** C7: what the single line refresh shows, without a hints callback and when no allocation fails.  When the prompt is not empty and
    prompt and text are printable, the row of the terminal holds the prompt
    and a window of the text (stars in mask mode) and is blank to its end,
    whatever was there; the cursor is at the place in the window that it has in the text,
    inside the row; its cell holds the character of the text there (blank at the end of the
    text), except in the last column, which the erasing leaves blank: a text that is scrolled, with the cursor at the right
    edge, does not show the character under the cursor.  The window is the whole text, from its
    start, as long as prompt and text leave a column free. *)
Theorem refresh_shows l z s : rep l z -> sized l -> all_ok s ->
  hintsCallback (thooks s) = None -> mlmode (tmodes s) = false ->
  printable (prompt l) -> printable (ztext z) -> 0 < plen l ->
  let mask := maskmode (tmodes s) in let w := Z.to_nat (cols l) in
  runs (refreshLine l) s (fun l' s' => l' = l /\ exists o, out (tio s') = out (tio s) ++ o /\
    (forall sc, length (cells sc) = w -> display (length o) w o sc =
       Screen (row_of w (prompt l ++ window l mask z)) (length (prompt l) + pos l - woff l))) /\
  (woff l <= pos l)%nat /\ (pos l <= woff l + wlen l)%nat /\ (length (prompt l) + pos l - woff l < w)%nat /\
  (let at_cursor := (length (prompt l) + pos l - woff l)%nat in
   row_of w (prompt l ++ window l mask z) !! at_cursor =
     Some (if decide (pos l < len l /\ at_cursor < w - 1)%nat then (if mask then 42 else ztext z !!! pos l) else 32)) /\
  (plen l + Z.of_nat (len l) < cols l -> woff l = O /\ wlen l = len l /\
     (mask = false -> window l mask z = ztext z)).
Proof.
  intros R SZ A Hh Hm Fp Ft Hp mask w. pose proof R as (P & L & C & B & _).
  assert (Lt : length (ztext z) = len l) by (rewrite L; unfold ztext, zlength; by rewrite length_app, length_reverse).
  assert (Hpl : (pos l <= len l)%nat) by (rewrite P, L; unfold zlength; lia).
  assert (Hw : (woff l <= pos l)%nat) by (unfold woff, sized, plen in *; lia).
  assert (Ew : shown l mask = window l mask z).
  { unfold shown, window. destruct mask; [done|]. pose proof (rep_text l z R) as T.
    rewrite <- T, !take_drop_commute, take_take. do 2 f_equal. unfold wlen. lia. }
  assert (Lw : length (shown l mask) = wlen l).
  { rewrite Ew. unfold window. destruct mask; [apply length_replicate|].
    rewrite length_take, length_drop. unfold wlen. lia. }
  split; [|split; [done|]; split; [unfold wlen, woff, sized, plen in *; lia|]; split; [unfold wlen, woff, w, sized, plen in *; lia|]; split].
  - unfold refreshLine. apply runs_bind, runs_gets. rewrite Hm.
    eapply runs_mono; [exact (refreshSingle_runs l z s R SZ)|]. intros l' s' (-> & Q & O).
    split; [done|]. eexists. split; [exact (O A Hh)|]. intros sc Lsc. fold mask. rewrite <- Ew.
    rewrite display_refresh; try done; unfold wlen, woff, w, sized, plen in *; try lia.
    + f_equal. lia.
    + rewrite Ew. unfold window. destruct mask; [apply Forall_replicate; lia|].
      by apply Forall_take, Forall_drop.
  - assert (Lww : length (window l mask z) = wlen l) by (by rewrite <- Ew). cbv zeta.
    rewrite row_cell by (unfold wlen, woff, w, sized, plen in *; lia). rewrite length_app, Lww. f_equal.
    destruct (decide (pos l < len l /\ _)%nat) as [[H1 H2]|H].
    + assert (H3 : (pos l - woff l < wlen l)%nat) by (unfold wlen, woff, w, sized, plen in *; lia).
      rewrite decide_True by lia. rewrite lookup_total_app_r by lia.
      replace (length (prompt l) + pos l - woff l - length (prompt l))%nat with (pos l - woff l)%nat by lia. unfold window.
      apply list_lookup_total_correct. destruct mask; [by apply lookup_replicate|].
      rewrite lookup_take_lt by done. rewrite lookup_drop. replace (woff l + (pos l - woff l))%nat with (pos l) by lia.
      apply list_lookup_lookup_total_lt. lia.
    + rewrite decide_False; [done|]. unfold wlen, woff, w, sized, plen in *. lia.
  - intros H. unfold wlen, woff, w, sized, plen in *. assert (E0 : Z.to_nat (Z.of_nat (length (prompt l)) + Z.of_nat (pos l) - cols l + 1) = O) by lia.
    rewrite E0. split; [done|]. split; [lia|]. intros Em. unfold window, wlen, woff, plen. rewrite Em, E0.
    rewrite drop_0, take_ge; [done|]. lia.
Qed.

Lemma refresh_shows_witness : runs (refreshLine sample_session) tty0 (fun l' _ => l' = sample_session) /\
  window sample_session false sample_zip = [97; 98; 32; 99; 100].
Proof.
  destruct (refresh_shows sample_session sample_zip tty0 session_rep
    ltac:(split; vm_compute; reflexivity) (fun n => eq_refl) eq_refl eq_refl
    ltac:(apply (bool_decide_unpack _); vm_compute; exact I)
    ltac:(apply (bool_decide_unpack _); vm_compute; exact I) ltac:(vm_compute; reflexivity))
    as (H & _ & _ & _ & _ & W).
  split.
  - eapply runs_mono; [exact H|]. intros l' s' (E & _). exact E.
  - destruct W as (_ & _ & W); [vm_compute; reflexivity|]. exact (W eq_refl).
Defined.

(** [linenoiseEditHistoryNext], when no allocation fails: with at most one
    line in the history nothing happens; otherwise the edited line is stored
    in its place in the history (the old string freed), and the next older or
    newer line, cut to the buffer, becomes the edited text with the cursor at
    its end; at either end of the history the text stays.  The history keeps
    its length, the index stays in range, and no dead entry is used. *)
Theorem history_next_refines dir l z s hl i : rep l z -> sized l -> (1 < buflen l)%nat ->
  hist_rep (thist s) hl -> Forall nonul hl -> history_index l = Z.of_nat i ->
  (i < length hl \/ length hl <= 1)%nat -> all_ok s ->
  runs (linenoiseEditHistoryNext l dir) s (fun l' s' =>
    let '(hl', i', z') := z_nav (buflen l) dir hl i z in
    frame_index l l' /\ rep l' z' /\ history_index l' = Z.of_nat i' /\
    hist_rep (thist s') hl' /\ Forall nonul hl' /\ length hl' = length hl /\ (i' < length hl \/ i' = i)%nat /\
    quiet_hist s s').
Proof. exact (history_next_runs dir l z s hl i). Qed.

Definition tty_hist (hl : list (list Z)) (n : nat) : tty :=
  set_hist (fun _ => Hist (Some ((Str <$> hl) ++ replicate (n - length hl) Null)) (length hl) n) tty0.

Lemma history_next_refines_witness :
  runs (linenoiseEditHistoryNext sample_session HISTORY_PREV) (tty_hist [[120]; []] 4) (fun l' s' =>
    rep l' (Zip [120] []) /\ hist_rep (thist s') [[120]; [97; 98; 32; 99; 100]]).
Proof.
  eapply runs_mono.
  - apply (history_next_refines HISTORY_PREV sample_session sample_zip (tty_hist [[120]; []] 4) [[120]; []] 0
      session_rep ltac:(split; vm_compute; reflexivity) ltac:(apply Nat.ltb_lt; reflexivity)).
    + split; [reflexivity|]. split; [apply Nat.leb_le; reflexivity|]. split; reflexivity.
    + apply (bool_decide_unpack _); vm_compute; exact I.
    + reflexivity.
    + left. apply Nat.ltb_lt. reflexivity.
    + intros n. reflexivity.
  - intros l' s' H.
    change (z_nav (buflen sample_session) HISTORY_PREV [[120]; []] 0 sample_zip)
      with ([[120]; [97; 98; 32; 99; 100]], 1%nat, Zip [120] []) in H.
    destruct H as (_ & R & _ & HR & _). split; [exact R|exact HR].
Defined.
