(* ===== verification/Linenoise.v ===== *)
(** * Reading a line (src/src/linenoise.c: completion, key dispatch, the API)

    The loop that reads keys and applies the editing operations, completion
    with the tab key, raw mode around it, and the three ways [linenoise] reads
    a line.  The loops take fuel; the bytes that are left to read bound the
    rounds.  [char] is signed: a byte of 128 or more is negative. *)

From Stdlib Require Import ZArith Lia.
From stdpp Require Import prelude gmap.
From S2P Require Import Prelude.
From S2P Require Import Terminal.
From S2P Require Import History.
From S2P Require Import Lineedit.

(** A byte as a [char]. *)
Definition schar (c : Z) : Z := if decide (128 <= c) then c - 256 else c.

(** ** Completion *)

(** Showing candidate [i]: the session is refreshed with another buffer. *)
Definition show_candidate (l : linenoiseState) (cand : list Z) : ST tty linenoiseState :=
  let saved := l in
  l ← refreshLine (set_buf (cand ++ [0]) (set_pos (length cand) (set_len (length cand) l)));
  mret (set_buf (buf saved) (set_pos (pos saved) (set_len (len saved) l))).

(** The [while(!stop)] loop; the result is the last character read, or -1. *)
Fixpoint complete_loop (fuel : nat) (l : linenoiseState) (cvec : list (list Z)) (i : nat)
    : ST tty (linenoiseState * Z) :=
  match fuel with
  | O => no_fuel
  | S f =>
      l ← (match cvec !! i with
           | Some cand => show_candidate l cand
           | None => refreshLine l
           end);
      r ← read;
      match r with
      | Byte c =>
          if decide (c = 9) then
            let i := ((i + 1) mod (length cvec + 1))%nat in
            (if decide (i = length cvec) then linenoiseBeep else mret tt);;
            complete_loop f l cvec i
          else if decide (c = 27) then
            l ← (if decide (i < length cvec)%nat then refreshLine l else mret l);
            mret (l, schar c)
          else
            match cvec !! i with
            | Some cand =>
                b ← lift (of_option (poke (buf l) 0 (snprintf cand (buflen l))));
                mret (set_len (length cand) (set_pos (length cand) (set_buf b l)), schar c)
            | None => mret (l, schar c)
            end
      | _ => mret (l, -1)
      end
  end.

Definition completeLine (callback : list Z -> list (list Z)) (l : linenoiseState)
    : ST tty (linenoiseState * Z) :=
  text ← lift (of_option (cstr (buf l)));
  cvec ← add_completions (callback text) [];
  if decide (cvec = []) then linenoiseBeep;; mret (l, 0)
  else s ← gets (fun s => s); complete_loop (S (length (input (tio s)))) l cvec 0.

(** ** The keys *)

(** [history_len--; free(history[history_len])]. *)
Definition pop_history : ST tty unit :=
  h ← gets thist;
  if decide (history_len h = O) then undef else
  h ← lift (free_slot h (history_len h - 1));
  put_hist (set_len_hist (history_len h - 1) h).

(** A key ends the session with a result or not. *)
Definition go_on (m : ST tty linenoiseState) : ST tty (linenoiseState * option Z) :=
  l ← m; mret (l, None).

Definition key_enter (l : linenoiseState) : ST tty (linenoiseState * option Z) :=
  pop_history;;
  ml ← gets (fun s => mlmode (tmodes s));
  l ← (if ml : bool then linenoiseEditMoveEnd l else mret l);
  hc ← gets (fun s => hintsCallback (thooks s));
  l ← (match hc with
       | None => mret l
       | Some _ =>
           modify (set_hooks (set_hints None));;
           l ← refreshLine l;
           modify (set_hooks (set_hints hc));;
           mret l
       end);
  mret (l, Some (i32 (Z.of_nat (len l)))).

(** The byte of [seq] a [read] filled; the end of the input leaves it
    uninitialised. *)
Definition seq_byte (r : rd) : ST tty Z := match r with Byte c => mret c | _ => undef end.

(** "ESC [ d ~" *)
Definition escape_digit (l : linenoiseState) (s1 : Z) : ST tty linenoiseState :=
  r2 ← read;
  match r2 with
  | Err => mret l
  | _ =>
      s2 ← seq_byte r2;
      if decide (s2 = 126) then
        (if decide (s1 = 51) then linenoiseEditDelete l else mret l)
      else mret l
  end.

Definition escape_bracket (l : linenoiseState) (s1 : Z) : ST tty linenoiseState :=
  if decide (48 <= s1 <= 57) then escape_digit l s1
  else if decide (s1 = 65) then linenoiseEditHistoryNext l HISTORY_PREV
  else if decide (s1 = 66) then linenoiseEditHistoryNext l HISTORY_NEXT
  else if decide (s1 = 67) then linenoiseEditMoveRight l
  else if decide (s1 = 68) then linenoiseEditMoveLeft l
  else if decide (s1 = 72) then linenoiseEditMoveHome l
  else if decide (s1 = 70) then linenoiseEditMoveEnd l
  else mret l.

Definition key_escape (l : linenoiseState) : ST tty linenoiseState :=
  r0 ← read;
  match r0 with
  | Err => mret l
  | _ =>
      r1 ← read;
      match r1 with
      | Err => mret l
      | _ =>
          s0 ← seq_byte r0;
          if decide (s0 = 91) then s1 ← seq_byte r1; escape_bracket l s1
          else if decide (s0 = 79) then
            s1 ← seq_byte r1;
            if decide (s1 = 72) then linenoiseEditMoveHome l
            else if decide (s1 = 70) then linenoiseEditMoveEnd l
            else mret l
          else mret l
      end
  end.

(** The [switch]. *)
Definition edit_key (l : linenoiseState) (c : Z) : ST tty (linenoiseState * option Z) :=
  if decide (c = ENTER) then key_enter l
  else if decide (c = CTRL_C) then mret (l, Some (-1))
  else if decide (c = BACKSPACE \/ c = 8) then go_on (linenoiseEditBackspace l)
  else if decide (c = CTRL_D) then
    if decide (0 < len l)%nat then go_on (linenoiseEditDelete l)
    else pop_history;; mret (l, Some (-1))
  else if decide (c = CTRL_T) then go_on (edit_transpose l)
  else if decide (c = CTRL_B) then go_on (linenoiseEditMoveLeft l)
  else if decide (c = CTRL_F) then go_on (linenoiseEditMoveRight l)
  else if decide (c = CTRL_P) then go_on (linenoiseEditHistoryNext l HISTORY_PREV)
  else if decide (c = CTRL_N) then go_on (linenoiseEditHistoryNext l HISTORY_NEXT)
  else if decide (c = ESC) then go_on (key_escape l)
  else if decide (c = CTRL_U) then go_on (edit_kill_line l)
  else if decide (c = CTRL_K) then go_on (edit_kill_end l)
  else if decide (c = CTRL_A) then go_on (linenoiseEditMoveHome l)
  else if decide (c = CTRL_E) then go_on (linenoiseEditMoveEnd l)
  else if decide (c = CTRL_L) then go_on (linenoiseClearScreen;; refreshLine l)
  else if decide (c = CTRL_W) then go_on (linenoiseEditDeletePrevWord l)
  else
    '(l, r) ← linenoiseEditInsert l c;
    mret (l, if decide (r = 0) then None else Some (-1)).

(** The [while(1)] loop. *)
Fixpoint edit_loop (fuel : nat) (l : linenoiseState) : ST tty (linenoiseState * Z) :=
  match fuel with
  | O => no_fuel
  | S f =>
      r ← read;
      match r with
      | Byte c =>
          hk ← gets thooks;
          let handle l c :=
            '(l, o) ← edit_key l c;
            match o with
            | Some n => mret (l, n)
            | None => edit_loop f l
            end in
          match completionCallback hk with
          | Some callback =>
              if decide (c = 9) then
                '(l, c) ← completeLine callback l;
                if decide (c < 0) then mret (l, i32 (Z.of_nat (len l)))
                else if decide (c = 0) then edit_loop f l
                else handle l (u8 c)
              else handle l c
          | None => handle l c
          end
      | _ => mret (l, i32 (Z.of_nat (len l)))
      end
  end.

(** The buffer afterwards and the result. *)
Definition linenoiseEdit (b : list Z) (n : nat) (pr : list Z) : ST tty (list Z * Z) :=
  w ← getColumns;
  if decide (n = O) then undef else
  b ← lift (store b 0 0);
  let l := LState b (n - 1) pr 0 0 0 (u64 w) 0 0 in
  _ ← linenoiseHistoryAdd [];
  r ← write pr;
  if negb r then mret (b, -1) else
  s ← gets (fun s => s);
  '(l, r) ← edit_loop (S (length (input (tio s)))) l;
  mret (buf l, r).

Definition linenoiseRaw (b : list Z) (n : nat) (pr : list Z) : ST tty (list Z * Z) :=
  if decide (n = O) then mret (b, -1) else
  e ← enableRawMode;
  if decide (e = -1) then mret (b, -1) else
  '(b, count) ← linenoiseEdit b n pr;
  disableRawMode;;
  print [10];;
  mret (b, count).

(** ** Key codes *)

(** "%02x" of an [int]. *)
Definition hex_digit (d : Z) : Z := if decide (d < 10) then 48 + d else 87 + d.
Fixpoint hex_digits (fuel : nat) (n : Z) (acc : list Z) : list Z :=
  match fuel with
  | O => acc
  | S f => let acc := hex_digit (n mod 16) :: acc in
           if decide (n < 16) then acc else hex_digits f (n / 16) acc
  end.
Definition hex2 (n : Z) : list Z :=
  let l := hex_digits 8 (u32 n) [] in if decide (length l < 2)%nat then 48 :: l else l.

Definition isprint (c : Z) : bool := bool_decide (32 <= c <= 126).

(** "'%c' %02x (%d) (type quit to exit)\n" *)
Definition key_report (c : Z) : list Z :=
  [39; (if isprint c then u8 c else 63); 39; 32] ++ hex2 c ++ [32; 40] ++ dec c ++
  [41; 32; 40; 116; 121; 112; 101; 32; 113; 117; 105; 116; 32; 116; 111; 32; 101; 120; 105; 116; 41; 10].

Definition word_quit : list Z := [113; 117; 105; 116].

(** At the end of the input [read] returns 0 again and again. *)
Fixpoint keycodes_loop (fuel : nat) (quit : list Z) : ST tty unit :=
  match fuel with
  | O => no_fuel
  | S f =>
      r ← read;
      match r with
      | Byte c =>
          let quit := drop 1 quit ++ [c] in
          if decide (quit = word_quit) then mret tt
          else print (key_report (schar c));; print [13];; keycodes_loop f quit
      | _ => keycodes_loop f quit
      end
  end.

(** "Linenoise key codes debugging mode." and the line after it. *)
Definition keycodes_banner : list Z :=
  [76; 105; 110; 101; 110; 111; 105; 115; 101; 32; 107; 101; 121; 32; 99; 111; 100; 101;
   115; 32; 100; 101; 98; 117; 103; 103; 105; 110; 103; 32; 109; 111; 100; 101; 46; 10;
   80; 114; 101; 115; 115; 32; 107; 101; 121; 115; 32; 116; 111; 32; 115; 101; 101; 32;
   115; 99; 97; 110; 32; 99; 111; 100; 101; 115; 46; 32; 84; 121; 112; 101; 32; 39;
   113; 117; 105; 116; 39; 32; 97; 116; 32; 97; 110; 121; 32; 116; 105; 109; 101; 32;
   116; 111; 32; 101; 120; 105; 116; 46; 10].

Definition linenoisePrintKeyCodes (fuel : nat) : ST tty unit :=
  print keycodes_banner;;
  e ← enableRawMode;
  if decide (e = -1) then mret tt else
  keycodes_loop fuel [32; 32; 32; 32];;
  disableRawMode.

(** ** Without a terminal *)

(** [line] are the bytes written so far; the block has [maxlen] bytes. *)
Fixpoint notty_loop (fuel : nat) (line : list Z) (maxlen : nat) : ST tty (option (list Z)) :=
  match fuel with
  | O => no_fuel
  | S f =>
      grown ← (if decide (length line = maxlen)
               then r ← request; mret (if r : bool then Some ((if decide (maxlen = O) then 16 else maxlen) * 2)%nat
                                       else None)
               else mret (Some maxlen));
      match grown with
      | None => mret None
      | Some maxlen =>
          r ← read;
          match r with
          | Byte c =>
              if decide (c = 10) then
                if decide (length line < maxlen)%nat then mret (Some line) else undef
              else if decide (length line < maxlen)%nat then notty_loop f (line ++ [c]) maxlen else undef
          | _ =>
              if decide (line = []) then mret None
              else if decide (length line < maxlen)%nat then mret (Some line) else undef
          end
      end
  end.

Definition linenoiseNoTTY : ST tty (option (list Z)) :=
  s ← gets (fun s => s);
  notty_loop (S (length (input (tio s)))) [] 0.

(** ** The API *)

(** [fgets] from the standard input: [None] for NULL. *)
Fixpoint fgets_stdin (n : nat) : ST tty (option (list Z)) :=
  match n with
  | O => mret (Some [])
  | S n' =>
      r ← read;
      match r with
      | Byte c =>
          if decide (c = 10) then mret (Some [c])
          else l ← fgets_stdin n'; mret (match l with Some l => Some (c :: l) | None => None end)
      | Eof => mret (Some [])
      | Err => mret None
      end
  end.

(** [while(len && (buf[len-1] == '\n' || buf[len-1] == '\r')) { len--; buf[len] = 0; }] *)
Fixpoint strip_eol (n : nat) (b : list Z) : outcome (list Z) :=
  match n with
  | O => Ret b
  | S n' =>
      c ← load b n';
      if decide (c = 10 \/ c = 13) then b ← store b n' 0; strip_eol n' b else Ret b
  end.

(** [junk] is the old contents of the local buffer. *)
Definition linenoise (junk : list Z) (pr : list Z) : ST tty (option (list Z)) :=
  t ← gets (fun s => isatty (tenv s));
  if negb t then linenoiseNoTTY else
  u ← isUnsupportedTerm;
  if u : bool then
    print pr;;
    l ← fgets_stdin (LINENOISE_MAX_LINE - 1);
    match l with
    | None => mret None
    | Some [] => mret None
    | Some bs =>
        b ← lift (of_option (poke junk 0 (bs ++ [0])));
        text ← lift (of_option (cstr b));
        b ← lift (strip_eol (length text) b);
        s ← lift (of_option (cstr b));
        strdup s
    end
  else
    '(b, count) ← linenoiseRaw junk LINENOISE_MAX_LINE pr;
    if decide (count = -1) then mret None else
    s ← lift (of_option (cstr b));
    strdup s.

(** ** A session on a string and a list of lines *)

#[local] Arguments reverse : simpl never.

Inductive key :=
  | KEdit (e : edit) | KNav (dir : direction) | KEnter | KInterrupt | KDelete | KClear | KNothing.

(** What is typed: the next event and the ones after it. *)
Definition next_rd (inp : list rd) : rd * list rd :=
  match inp with [] => (Eof, []) | e :: l => (e, l) end.

(** The bytes of an escape sequence; the end of the input inside one is not
    defined. *)
Definition decode_digit (s1 : Z) (inp : list rd) : outcome (key * list rd) :=
  match next_rd inp with
  | (Err, inp) => Ret (KNothing, inp)
  | (Eof, _) => Undef
  | (Byte c, inp) => Ret (if decide (c = 126 /\ s1 = 51) then KEdit Delete else KNothing, inp)
  end.

Definition bracket_key (s1 : Z) : key :=
  if decide (s1 = 65) then KNav HISTORY_PREV
  else if decide (s1 = 66) then KNav HISTORY_NEXT
  else if decide (s1 = 67) then KEdit MoveRight
  else if decide (s1 = 68) then KEdit MoveLeft
  else if decide (s1 = 72) then KEdit MoveHome
  else if decide (s1 = 70) then KEdit MoveEnd
  else KNothing.

Definition letter_o_key (s1 : Z) : key :=
  if decide (s1 = 72) then KEdit MoveHome else if decide (s1 = 70) then KEdit MoveEnd else KNothing.

Definition decode_escape (inp : list rd) : outcome (key * list rd) :=
  match next_rd inp with
  | (Err, inp) => Ret (KNothing, inp)
  | (r0, inp) =>
      match next_rd inp with
      | (Err, inp) => Ret (KNothing, inp)
      | (r1, inp) =>
          match r0, r1 with
          | Byte s0, Byte s1 =>
              if decide (s0 = 91) then
                (if decide (48 <= s1 <= 57) then decode_digit s1 inp else Ret (bracket_key s1, inp))
              else if decide (s0 = 79) then Ret (letter_o_key s1, inp)
              else Ret (KNothing, inp)
          | Byte s0, _ => if decide (s0 = 91 \/ s0 = 79) then Undef else Ret (KNothing, inp)
          | _, _ => Undef
          end
      end
  end.

(** Keys of one byte. *)
Definition plain_key (c : Z) : key :=
  if decide (c = ENTER) then KEnter
  else if decide (c = CTRL_C) then KInterrupt
  else if decide (c = BACKSPACE \/ c = 8) then KEdit Backspace
  else if decide (c = CTRL_D) then KDelete
  else if decide (c = CTRL_T) then KEdit SwapChars
  else if decide (c = CTRL_B) then KEdit MoveLeft
  else if decide (c = CTRL_F) then KEdit MoveRight
  else if decide (c = CTRL_P) then KNav HISTORY_PREV
  else if decide (c = CTRL_N) then KNav HISTORY_NEXT
  else if decide (c = CTRL_U) then KEdit KillLine
  else if decide (c = CTRL_K) then KEdit KillEnd
  else if decide (c = CTRL_A) then KEdit MoveHome
  else if decide (c = CTRL_E) then KEdit MoveEnd
  else if decide (c = CTRL_L) then KClear
  else if decide (c = CTRL_W) then KEdit PrevWord
  else KEdit (Insert c).

Definition decode (c : Z) (inp : list rd) : outcome (key * list rd) :=
  if decide (c = ESC) then decode_escape inp else Ret (plain_key c, inp).

Record sess := Sess { s_hist : list (list Z); s_index : nat; s_zip : zipper }.

(** The effect of a key, and the result when it ends the session.  The last
    line of the history stands for the line being typed; Enter, and Control-D
    on an empty line, take it out again. *)
Definition apply_key (cap : nat) (k : key) (st : sess) : sess * option Z :=
  let '(Sess hl i z) := st in
  match k with
  | KEdit e => (Sess hl i (z_edit cap e z), None)
  | KNav dir => let '(hl, i, z) := z_nav cap dir hl i z in (Sess hl i z, None)
  | KEnter => (Sess (removelast hl) i z, Some (Z.of_nat (zlength z)))
  | KInterrupt => (st, Some (-1))
  | KDelete => if decide (0 < zlength z)%nat then (Sess hl i (z_delete z), None)
               else (Sess (removelast hl) i z, Some (-1))
  | KClear | KNothing => (st, None)
  end.

(** [tabs] when a completion callback is set: it swallows the tab key. *)
Fixpoint spec_loop (fuel cap : nat) (tabs : bool) (inp : list rd) (st : sess) : outcome (sess * Z * list rd) :=
  match fuel with
  | O => NoFuel
  | S f =>
      match next_rd inp with
      | (Byte c, inp) =>
          if decide (tabs = true /\ c = 9) then spec_loop f cap tabs inp st else
          '(k, inp) ← decode c inp;
          match apply_key cap k st with
          | (st, Some n) => Ret (st, n, inp)
          | (st, None) => spec_loop f cap tabs inp st
          end
      | (_, inp) => Ret (st, Z.of_nat (zlength (s_zip st)), inp)
      end
  end.

(** Decoding consumes events only. *)
Lemma decode_shorter c inp k rest : decode c inp = Ret (k, rest) -> (length rest <= length inp)%nat.
Proof.
  unfold decode. case_decide; [|by intros [= _ ->]].
  unfold decode_escape, decode_digit. destruct inp as [|[c0| |] [|[c1| |] [|[c2| |] inp]]]; cbn;
    repeat case_decide; intros [= _ <-]; cbn; lia.
Qed.

(** Termination: one round per event, and one more. *)
Lemma spec_loop_ends fuel cap tabs inp st : (length inp < fuel)%nat ->
  match spec_loop fuel cap tabs inp st with Ret _ | Undef => True | _ => False end.
Proof.
  revert inp st. induction fuel as [|f IH]; intros inp st H; [lia|]. cbn [spec_loop].
  destruct inp as [|[c| |] inp]; try exact I. cbn [next_rd]. cbn [length] in H.
  case_decide; [apply IH; lia|]. destruct (decode c inp) as [[k rest]| | |] eqn:E; cbn [mbind outcome_bind]; try done.
  - apply decode_shorter in E. destruct (apply_key cap k st) as [st' [n|]]; [done|]. apply IH. lia.
  - unfold decode in E. case_decide; [|done]. unfold decode_escape, decode_digit in E.
    destruct inp as [|[c0| |] [|[c1| |] [|[c2| |] inp]]]; cbn in E; repeat case_decide; done.
  - unfold decode in E. case_decide; [|done]. unfold decode_escape, decode_digit in E.
    destruct inp as [|[c0| |] [|[c1| |] [|[c2| |] inp]]]; cbn in E; repeat case_decide; done.
Qed.

(** The end of the input is met within three reads of an Escape. *)
Definition cut_escape (inp : list rd) : Prop :=
  exists pre rest, inp = pre ++ Byte ESC :: rest /\ Eof ∈ take 3 (rest ++ [Eof]).

Lemma decode_cut c inp : decode c inp = Undef -> c = ESC /\ Eof ∈ take 3 (inp ++ [Eof]).
Proof.
  unfold decode. case_decide; [|done]. intros E. split; [done|]. unfold decode_escape, decode_digit in E.
  destruct inp as [|[c0| |] [|[c1| |] [|[c2| |] inp]]]; cbn in E |- *; repeat case_decide; try done; set_solver.
Qed.

Lemma decode_rest c inp k rest : decode c inp = Ret (k, rest) -> exists used, inp = used ++ rest.
Proof.
  assert (K : forall u (x : key) l, Ret (x, l) = Ret (k, rest) -> exists used, u ++ l = used ++ rest)
    by (intros u x l [= _ ->]; by exists u).
  unfold decode. case_decide; [|apply (K [])]. unfold decode_escape, decode_digit.
  destruct inp as [|r0 [|r1 inp]]; cbn [next_rd]; [done| |].
  - destruct r0 as [s0| |]; try done; [case_decide; [done|]|]; apply (K [_]).
  - destruct r0 as [s0| |]; cbn [next_rd]; [| |apply (K [_])]; destruct r1 as [s1| |]; try done; try apply (K [_; _]).
    + case_decide; [|case_decide; apply (K [_; _])]. case_decide; [|apply (K [_; _])].
      destruct inp as [|[s2| |] inp]; cbn [next_rd]; try done; apply (K [_; _; _]).
    + case_decide; [done|]. apply (K [_; _]).
Qed.

Lemma cut_escape_app used inp : cut_escape inp -> cut_escape (used ++ inp).
Proof. intros (pre & rest & -> & H). exists (used ++ pre), rest. by rewrite <- app_assoc. Qed.

(** The session is undefined only there. *)
Lemma spec_loop_undef fuel cap tabs inp st : spec_loop fuel cap tabs inp st = Undef -> cut_escape inp.
Proof.
  revert inp st. induction fuel as [|f IH]; intros inp st; [done|]. cbn [spec_loop].
  destruct inp as [|[c| |] inp]; try done. cbn [next_rd].
  case_decide; [intros E; by apply (cut_escape_app [_]), IH with st|].
  destruct (decode c inp) as [[k rest]| | |] eqn:E; cbn [mbind outcome_bind]; try done.
  - destruct (decode_rest _ _ _ _ E) as [used ->]. destruct (apply_key cap k st) as [st' [n|]]; [done|].
    intros E'. by apply (cut_escape_app (_ :: used)), IH with st'.
  - intros _. apply decode_cut in E as [-> E]. by exists [], inp.
Qed.

(** ** The loop refines the session *)

(** Everything but the input, the output, the history and the counts. *)
Definition keeps (s s' : tty) : Prop :=
  tenv s' = tenv s /\ tmodes s' = tmodes s /\
  completionCallback (thooks s') = completionCallback (thooks s) /\
  hintsCallback (thooks s') = hintsCallback (thooks s) /\ files s' = files s /\
  history_max_len (thist s') = history_max_len (thist s).

#[export] Instance keeps_preorder : PreOrder keeps.
Proof.
  split; [by intros s|]. intros s t u (?&?&?&?&?&?) (?&?&?&?&?&?). unfold keeps. split_and!; congruence.
Qed.

Lemma quiet_keeps s s' : quiet s s' -> keeps s s'.
Proof. intros (?&?&?&H&?&?&?). unfold keeps. rewrite H. done. Qed.

Lemma quiet_hist_keeps s s' : quiet_hist s s' -> keeps s s'.
Proof. intros (?&?&?&?&?&?&?). done. Qed.

(** The loop's state represents a session. *)
Record inv (l : linenoiseState) (s : tty) (st : sess) : Prop := {
  inv_rep : rep l (s_zip st);
  inv_sized : sized l;
  inv_cap : (1 < buflen l)%nat;
  inv_hist : hist_rep (thist s) (s_hist st);
  inv_nonul : Forall nonul (s_hist st);
  inv_index : history_index l = Z.of_nat (s_index st);
  inv_range : (s_index st < length (s_hist st))%nat;
  inv_ok : all_ok s
}.

(** What a key leaves: a state that represents the new session, or, when the
    key ends the session, its text, history and result. *)
Definition key_post (k : key) (l : linenoiseState) (s : tty) (st : sess)
    (lo : linenoiseState * option Z) (s' : tty) : Prop :=
  let '(st', o) := apply_key (buflen l) k st in
  lo.2 = o /\ keeps s s' /\ frame_index l lo.1 /\ input (tio s') = input (tio s) /\
  match o with
  | None => inv lo.1 s' st'
  | Some _ => hist_rep (thist s') (s_hist st') /\ exists z, rep lo.1 z /\ ztext z = ztext (s_zip st')
  end.

Lemma keeps_ok s s' : keeps s s' -> all_ok s -> all_ok s'.
Proof. intros (E & _) H n. rewrite E. apply H. Qed.

Lemma edited k l s st z' l' s' :
  apply_key (buflen l) k st = (Sess (s_hist st) (s_index st) z', None) -> inv l s st ->
  frame l l' -> rep l' z' -> quiet s s' -> key_post k l s st (l', None) s'.
Proof.
  intros E [] F R Q. unfold key_post. rewrite E. cbn. split; [done|]. split; [by apply quiet_keeps|].
  split; [by apply frame_frame_index|]. pose proof Q as (Qe & Qi & _ & Qh & _). split; [done|].
  split; cbn; try done.
  - exact (frame_sized _ _ F inv_sized0).
  - by destruct F as (-> & _).
  - by rewrite Qh.
  - destruct F as (_ & _ & _ & -> & _). done.
  - exact (all_ok_quiet s s' Q inv_ok0).
Qed.

Lemma go_on_edit op f k l s st : refines op f ->
  apply_key (buflen l) k st = (Sess (s_hist st) (s_index st) (f (s_zip st)), None) ->
  inv l s st -> runs (go_on (op l)) s (key_post k l s st).
Proof.
  intros H E I. apply runs_bind. eapply runs_mono; [exact (H l _ s (inv_rep _ _ _ I) (inv_sized _ _ _ I))|].
  intros l' s' ((F & R) & Q). apply runs_ret. by apply (edited k l s st (f (s_zip st))).
Qed.

Lemma go_on_nav dir l s st : inv l s st ->
  runs (go_on (linenoiseEditHistoryNext l dir)) s (key_post (KNav dir) l s st).
Proof.
  intros []. apply runs_bind. destruct st as [hl i z]. cbn in *.
  eapply runs_mono; [exact (history_next_runs dir l z s hl i inv_rep0 inv_sized0 inv_cap0 inv_hist0
    inv_nonul0 inv_index0 (or_introl inv_range0) inv_ok0)|].
  intros l' s'. unfold key_post. cbn. destruct (z_nav (buflen l) dir hl i z) as [[hl' i'] z'].
  intros (F & R & I & H & N & L & RG & Q). apply runs_ret. cbn.
  split; [done|]. split; [by apply quiet_hist_keeps|]. split; [done|].
  pose proof Q as (Qe & Qi & _). split; [done|]. split; cbn; try done.
  - by eapply frame_index_sized.
  - by destruct F as (-> & _).
  - lia.
  - intros n. rewrite Qe. apply inv_ok0.
Qed.

Lemma same_key k l s st : apply_key (buflen l) k st = (st, None) -> inv l s st ->
  runs (mret (l, None)) s (key_post k l s st).
Proof. intros E I. apply runs_ret. unfold key_post. rewrite E. by split_and!. Qed.

Lemma pop_runs s hl : hist_rep (thist s) hl -> hl <> [] ->
  runs pop_history s (fun _ s' => hist_rep (thist s') (removelast hl) /\ keeps s s' /\
    input (tio s') = input (tio s) /\ thooks s' = thooks s).
Proof.
  intros R Hne. unfold pop_history. apply runs_bind, runs_gets.
  destruct (exists_last Hne) as (hl0 & x & ->). pose proof R as (L & B & _). rewrite length_app in L, B.
  cbn [length] in L, B. rewrite decide_False by lia.
  assert (Ek : (history_len (thist s) - 1)%nat = length hl0) by lia. rewrite Ek.
  assert (E : get_slot (thist s) (length hl0) = Ret (Str x)).
  { apply (rep_lookup _ _ _ _ R). by apply list_lookup_middle. }
  destruct R as (_ & _ & R). destruct (slots (thist s)) as [sl|] eqn:Sl; [|by destruct hl0].
  destruct R as [Ls T].
  assert (Ef : free_slot (thist s) (length hl0) =
    Ret (Hist (Some (<[length hl0 := Freed]> sl)) (history_len (thist s)) (history_max_len (thist s)))).
  { unfold free_slot. rewrite E, Sl. done. }
  eapply lift_step; [exact Ef|]. apply runs_modify. split; [|done].
  rewrite removelast_last. unfold hist_rep. cbn. split; [done|]. split; [lia|]. split; [by rewrite length_insert|].
  rewrite take_insert_ge by lia. rewrite length_app in T. cbn in T.
  assert (T' : take (length hl0) (take (length hl0 + 1) sl) = Str <$> hl0).
  { rewrite T, fmap_app, take_app_le by (rewrite length_fmap; lia). by rewrite take_ge by (rewrite length_fmap; lia). }
  rewrite take_take in T'. by replace (length hl0 `min` (length hl0 + 1))%nat with (length hl0) in T' by lia.
Qed.

Lemma enter_runs l s st : inv l s st -> runs (key_enter l) s (key_post KEnter l s st).
Proof.
  intros []. destruct st as [hl i z]. cbn in *. unfold key_enter. apply runs_bind.
  eapply runs_mono; [apply (pop_runs s hl inv_hist0); intros ->; simpl in *; lia|].
  intros _ s1 (H1 & K1 & I1 & HK). apply runs_bind, runs_gets. apply runs_bind.
  assert (P : runs (if mlmode (tmodes s1) then linenoiseEditMoveEnd l else mret l) s1 (fun l' s' =>
     frame l l' /\ (exists z', rep l' z' /\ ztext z' = ztext z) /\ quiet s1 s')).
  { destruct (mlmode (tmodes s1)).
    - eapply runs_mono; [exact (moveEnd_runs l z s1 inv_rep0 inv_sized0)|].
      intros l' s' ((F & R) & Q). split; [done|]. split; [|done]. exists (z_end z). split; [done|].
      unfold z_end, ztext. cbn. by rewrite reverse_involutive, app_nil_r.
    - apply runs_ret. split; [done|]. split; [by exists z|done]. }
  eapply runs_mono; [exact P|]. intros l2 s2 (F2 & (z2 & R2 & T2) & Q2). apply runs_bind, runs_gets. apply runs_bind.
  assert (P' : runs (match hintsCallback (thooks s2) with
      | None => mret l2
      | Some _ => modify (set_hooks (set_hints None));; l ← refreshLine l2;
                  modify (set_hooks (set_hints (hintsCallback (thooks s2))));; mret l
      end) s2 (fun l' s' => frame l2 l' /\ rep l' z2 /\ keeps s2 s' /\ input (tio s') = input (tio s2) /\
                            thist s' = thist s2)).
  { destruct (hintsCallback (thooks s2)) as [h|] eqn:Eh; [|by apply runs_ret].
    apply runs_bind, runs_modify, runs_bind.
    eapply runs_mono; [exact (refreshLine_runs l2 z2 _ R2 (frame_sized _ _ F2 inv_sized0))|].
    intros l' s' ((F' & R') & Q'). apply runs_bind, runs_modify, runs_ret.
    destruct Q' as (q1 & q2 & q3 & q4 & q5 & q6 & q7). cbn in *.
    split; [done|]. split; [done|]. split; [|done]. unfold keeps. cbn. rewrite q4, Eh. done. }
  eapply runs_mono; [exact P'|]. intros l3 s3 (F3 & R3 & K3 & I3 & T3). apply runs_ret.
  unfold key_post. cbn. pose proof Q2 as (_ & q2 & _ & q4 & _).
  assert (L3 : len l3 = zlength z).
  { destruct R3 as (_ & -> & _). apply (f_equal length) in T2. unfold ztext in T2.
    rewrite !length_app, !length_reverse in T2. unfold zlength. lia. }
  split; [|split; [|split; [|split; [|split]]]].
  - rewrite L3. rewrite small_i32; [done|]. destruct inv_rep0 as (_ & L & C & B & _).
    unfold sized, plen in inv_sized0. lia.
  - etrans; [exact K1|]. etrans; [by apply quiet_keeps|done].
  - etrans; apply frame_frame_index; done.
  - congruence.
  - congruence.
  - by exists z2.
Qed.

Definition with_input (inp : list rd) (s : tty) : tty :=
  set_io (fun i => IO inp (out i) (beeps i) (tick i)) s.

Lemma inv_with_input l s st inp : inv l s st -> inv l (with_input inp s) st.
Proof. by intros []. Qed.

Lemma clear_runs : refines (fun l => linenoiseClearScreen;; refreshLine l) id.
Proof.
  intros l z s R SZ. unfold linenoiseClearScreen. apply runs_bind, runs_bind.
  eapply runs_mono; [apply write_runs|]. intros w s1 (Q1 & _). apply runs_ret.
  eapply runs_mono; [exact (refreshLine_runs l z s1 R SZ)|]. intros l' s' (F & Q). split; [done|]. by etrans.
Qed.

Ltac edit_case H := apply (go_on_edit _ _ _ _ _ _ H); [match goal with st : sess |- _ => by destruct st end|done].

Lemma plain_key_runs l c s st : inv l s st -> c <> ESC ->
  runs (edit_key l c) s (key_post (plain_key c) l s st).
Proof.
  intros I Hc. unfold edit_key, plain_key.
  destruct (decide (c = ENTER)); [by apply enter_runs|].
  destruct (decide (c = CTRL_C)).
  { apply runs_ret. unfold key_post. destruct st as [hl i z]. cbn. destruct I. split_and!; try done. by exists z. }
  destruct (decide (c = BACKSPACE \/ c = 8)); [edit_case backspace_runs|].
  destruct (decide (c = CTRL_D)).
  { assert (L : len l = zlength (s_zip st)) by (by destruct I as [(_ & ? & _)]). rewrite L.
    destruct (decide (0 < zlength (s_zip st))%nat) as [H|H].
    - apply (go_on_edit _ z_delete); [exact delete_runs| |done]. destruct st as [hl i z]. cbn in *.
      by rewrite decide_True by done.
    - apply runs_bind. destruct st as [hl i z], I. cbn in *.
      eapply runs_mono; [apply (pop_runs s hl inv_hist0); intros ->; simpl in *; lia|].
      intros _ s1 (H1 & K1 & I1 & _). apply runs_ret. unfold key_post. cbn. rewrite decide_False by done. cbn.
      split_and!; try done. by exists z. }
  destruct (decide (c = CTRL_T)); [edit_case transpose_runs|].
  destruct (decide (c = CTRL_B)); [edit_case moveLeft_runs|].
  destruct (decide (c = CTRL_F)); [edit_case moveRight_runs|].
  destruct (decide (c = CTRL_P)); [by apply go_on_nav|].
  destruct (decide (c = CTRL_N)); [by apply go_on_nav|].
  rewrite (decide_False (P := c = ESC)) by done.
  destruct (decide (c = CTRL_U)); [edit_case kill_line_runs|].
  destruct (decide (c = CTRL_K)); [edit_case kill_end_runs|].
  destruct (decide (c = CTRL_A)); [edit_case moveHome_runs|].
  destruct (decide (c = CTRL_E)); [edit_case moveEnd_runs|].
  destruct (decide (c = CTRL_L)); [edit_case clear_runs|].
  destruct (decide (c = CTRL_W)); [edit_case word_runs|].
  apply runs_bind. eapply runs_mono; [exact (insert_runs c l _ s (inv_rep _ _ _ I) (inv_sized _ _ _ I))|].
  intros [l' r] s' ((F & R) & Q & _ & A). rewrite (A (inv_ok _ _ _ I)), decide_True by done. apply runs_ret.
  apply (edited _ l s st (z_insert (buflen l) c (s_zip st))); try done. by destruct st.
Qed.

(** Escape sequences: the bytes are read first, then one operation runs. *)
Lemma read_with inp s : read (with_input inp s) = Ret ((next_rd inp).1, with_input (next_rd inp).2 s).
Proof. by destruct inp. Qed.

Lemma undef_bind {A B} (m : ST tty A) (f : A -> ST tty B) s : m s = Undef -> (m ≫= f) s = Undef.
Proof. intros E. unfold mbind, ST_bind. by rewrite E. Qed.

Lemma bracket_runs l s1 s st : inv l s st -> ~ 48 <= s1 <= 57 ->
  runs (go_on (escape_bracket l s1)) s (key_post (bracket_key s1) l s st).
Proof.
  intros I H. unfold escape_bracket, bracket_key. rewrite decide_False by done.
  destruct (decide (s1 = 65)); [by apply go_on_nav|].
  destruct (decide (s1 = 66)); [by apply go_on_nav|].
  destruct (decide (s1 = 67)); [edit_case moveRight_runs|].
  destruct (decide (s1 = 68)); [edit_case moveLeft_runs|].
  destruct (decide (s1 = 72)); [edit_case moveHome_runs|].
  destruct (decide (s1 = 70)); [edit_case moveEnd_runs|].
  apply runs_bind, runs_ret, same_key; [by destruct st|done].
Qed.

Lemma nothing_runs l s st : inv l s st -> runs (go_on (mret l)) s (key_post KNothing l s st).
Proof. intros I. apply runs_bind, runs_ret, same_key; [by destruct st|done]. Qed.

Lemma go_on_same (m m' : ST tty linenoiseState) s s' Q :
  m s = m' s' -> runs (go_on m') s' Q -> runs (go_on m) s Q.
Proof. intros E (a & s1 & E1 & H). exists a, s1. split; [|done]. unfold go_on, mbind, ST_bind in *. by rewrite E. Qed.

Lemma go_on_undef (m : ST tty linenoiseState) s : m s = Undef -> go_on m s = Undef.
Proof. apply undef_bind. Qed.

Lemma digit_runs l s1 s st inp : inv l s st -> match decode_digit s1 inp with
  | Ret (k, rest) => runs (go_on (escape_digit l s1)) (with_input inp s) (key_post k l (with_input rest s) st)
  | Undef => go_on (escape_digit l s1) (with_input inp s) = Undef
  | _ => False
  end.
Proof.
  intros I. unfold decode_digit. destruct inp as [|[c| |] inp]; cbn [next_rd]; [done| |done|].
  - pose proof (inv_with_input l s st inp I) as I'. case_decide as H.
    + destruct H as [-> ->]. by apply (go_on_same _ (linenoiseEditDelete l) _ (with_input inp s));
        [|edit_case delete_runs].
    + apply (go_on_same _ (mret l) _ (with_input inp s)); [|by apply nothing_runs].
      change (escape_digit l s1 (with_input (Byte c :: inp) s)) with
        ((if decide (c = 126) then (if decide (s1 = 51) then linenoiseEditDelete l else mret l) else mret l)
           (with_input inp s)).
      destruct (decide (c = 126)); [|done]. by rewrite decide_False by tauto.
  - apply (go_on_same _ (mret l) _ (with_input inp s)); [done|]. by apply nothing_runs, inv_with_input.
Qed.

Lemma letter_o_runs l s1 s st : inv l s st ->
  runs (go_on (if decide (s1 = 72) then linenoiseEditMoveHome l
               else if decide (s1 = 70) then linenoiseEditMoveEnd l else mret l)) s
    (key_post (letter_o_key s1) l s st).
Proof.
  intros I. unfold letter_o_key. destruct (decide (s1 = 72)); [edit_case moveHome_runs|].
  destruct (decide (s1 = 70)); [edit_case moveEnd_runs|]. by apply nothing_runs.
Qed.

(** After the two bytes. *)
Definition escape_rest (l : linenoiseState) (s0 s1 : Z) : ST tty linenoiseState :=
  if decide (s0 = 91) then escape_bracket l s1
  else if decide (s0 = 79) then
    (if decide (s1 = 72) then linenoiseEditMoveHome l
     else if decide (s1 = 70) then linenoiseEditMoveEnd l else mret l)
  else mret l.

Lemma escape_two l s0 s1 s inp :
  key_escape l (with_input (Byte s0 :: Byte s1 :: inp) s) = escape_rest l s0 s1 (with_input inp s).
Proof.
  unfold escape_rest. change (key_escape l (with_input (Byte s0 :: Byte s1 :: inp) s)) with
    ((if decide (s0 = 91) then escape_bracket l s1
      else if decide (s0 = 79) then
        (if decide (s1 = 72) then linenoiseEditMoveHome l
         else if decide (s1 = 70) then linenoiseEditMoveEnd l else mret l)
      else mret l) (with_input inp s)). done.
Qed.

Lemma escape_runs l s st inp : inv l s st -> match decode_escape inp with
  | Ret (k, rest) => runs (go_on (key_escape l)) (with_input inp s) (key_post k l (with_input rest s) st)
  | Undef => go_on (key_escape l) (with_input inp s) = Undef
  | _ => False
  end.
Proof.
  intros I. unfold decode_escape.
  assert (N : forall inp', runs (go_on (mret l)) (with_input inp' s) (key_post KNothing l (with_input inp' s) st))
    by (intros inp'; by apply nothing_runs, inv_with_input).
  destruct inp as [|[s0| |] [|[s1| |] inp]]; cbn [next_rd]; try exact eq_refl; try (by apply (go_on_same _ (mret l) _ (with_input inp s))).
  - destruct (decide (s0 = 91 \/ s0 = 79)) as [H|H].
    + apply go_on_undef. by destruct H as [-> | ->].
    + apply (go_on_same _ (mret l) _ (with_input [] s)); [|done].
      change (key_escape l (with_input [Byte s0] s)) with
        ((if decide (s0 = 91) then undef else if decide (s0 = 79) then undef else mret l) (with_input [] s)).
      by rewrite !decide_False by tauto.
  - destruct (decide (s0 = 91)) as [H1|H1]; [destruct (decide (48 <= s1 <= 57)) as [H2|H2]|
      destruct (decide (s0 = 79)) as [H3|H3]].
    + pose proof (digit_runs l s1 s st inp I) as D.
      assert (E : key_escape l (with_input (Byte s0 :: Byte s1 :: inp) s) = escape_digit l s1 (with_input inp s)).
      { rewrite escape_two. unfold escape_rest, escape_bracket. by rewrite !decide_True by done. }
      destruct (decode_digit s1 inp) as [[k rest]| | |]; try done.
      * exact (go_on_same _ _ _ _ _ E D).
      * unfold go_on, mbind, ST_bind in *. by rewrite E.
    + eapply go_on_same; [rewrite escape_two; unfold escape_rest; rewrite decide_True by done; reflexivity|].
      apply bracket_runs; [by apply inv_with_input|done].
    + eapply go_on_same; [rewrite escape_two; unfold escape_rest; rewrite decide_False, decide_True by done; reflexivity|].
      apply letter_o_runs. by apply inv_with_input.
    + eapply go_on_same; [rewrite escape_two; unfold escape_rest; rewrite !decide_False by done; reflexivity|]. done.
  - destruct (decide (s0 = 91 \/ s0 = 79)) as [H|H].
    + apply go_on_undef. by destruct H as [-> | ->].
    + apply (go_on_same _ (mret l) _ (with_input inp s)); [|done].
      change (key_escape l (with_input (Byte s0 :: Eof :: inp) s)) with
        ((if decide (s0 = 91) then undef else if decide (s0 = 79) then undef else mret l) (with_input inp s)).
      by rewrite !decide_False by tauto.
  - exact (go_on_same _ (mret l) _ (with_input [] s) _ eq_refl (N [])).
  - exact (go_on_same _ (mret l) _ (with_input (Byte s1 :: inp) s) _ eq_refl (N _)).
  - exact (go_on_same _ (mret l) _ (with_input (Eof :: inp) s) _ eq_refl (N _)).
  - exact (go_on_same _ (mret l) _ (with_input (Err :: inp) s) _ eq_refl (N _)).
Qed.

Lemma key_runs l c s st inp : inv l s st -> match decode c inp with
  | Ret (k, rest) => runs (edit_key l c) (with_input inp s) (key_post k l (with_input rest s) st)
  | Undef => edit_key l c (with_input inp s) = Undef
  | _ => False
  end.
Proof.
  intros I. unfold decode. destruct (decide (c = ESC)) as [-> |H].
  - exact (escape_runs l s st inp I).
  - apply plain_key_runs; [by apply inv_with_input|done].
Qed.

(** A completion callback that never offers anything, or none. *)
Definition no_completions (s : tty) : Prop :=
  match completionCallback (thooks s) with Some f => forall t, f t = [] | None => True end.
Definition tabs (s : tty) : bool :=
  match completionCallback (thooks s) with Some _ => true | None => false end.

Lemma with_own_input s : with_input (input (tio s)) s = s.
Proof. by destruct s as [? [] ? ? ? ?]. Qed.

Lemma no_completion_runs f l s st inp : inv l s st -> (forall t, f t = []) ->
  exists s', completeLine f l (with_input inp s) = Ret ((l, 0), with_input inp s') /\ inv l s' st /\ keeps s s'.
Proof.
  intros I F. exists (set_io (fun i => IO (input i) (out i) (S (beeps i)) (tick i)) s).
  split; [|split; [by destruct I|done]].
  unfold completeLine. rewrite (rep_cstr l _ (inv_rep _ _ _ I)).
  unfold lift, mbind, ST_bind.
  cbn [of_option outcome_bind mbind]. by rewrite F.
Qed.

(** The state and the result when the loop ends. *)
Definition loop_post (l : linenoiseState) (s : tty) (st : sess) (n : Z) (rest : list rd)
    (lr : linenoiseState * Z) (s' : tty) : Prop :=
  lr.2 = n /\ keeps s s' /\ frame_index l lr.1 /\ input (tio s') = rest /\
  hist_rep (thist s') (s_hist st) /\ exists z, rep lr.1 z /\ ztext z = ztext (s_zip st).

Lemma loop_post_trans l l1 s s1 st n rest lr s' : frame_index l l1 -> keeps s s1 ->
  loop_post l1 s1 st n rest lr s' -> loop_post l s st n rest lr s'.
Proof. intros F K (A & B & C & D). split; [done|]. split; [by etrans|]. split; [by etrans|done]. Qed.

Definition loop_spec (fuel : nat) (tb : bool) (inp : list rd) (l : linenoiseState) (s : tty) (st : sess) : Prop :=
  match spec_loop fuel (buflen l) tb inp st with
  | Ret (st', n, rest) => runs (edit_loop fuel l) (with_input inp s) (loop_post l s st' n rest)
  | Undef => edit_loop fuel l (with_input inp s) = Undef
  | _ => True
  end.

Lemma loop_end l s st inp : inv l s st ->
  runs (mret (l, i32 (Z.of_nat (len l)))) (with_input inp s) (loop_post l s st (Z.of_nat (zlength (s_zip st))) inp).
Proof.
  intros []. apply runs_ret. split; [|split; [done|split; [done|split; [done|split; [done|by exists (s_zip st)]]]]].
  destruct inv_rep0 as (_ & L & C & B & _). cbn. rewrite <- L. apply small_i32.
  unfold sized, plen in inv_sized0. lia.
Qed.

(** One key and the rest of the loop. *)
Lemma loop_key f c l s st inp : inv l s st -> no_completions s ->
  (forall l s st inp, inv l s st -> no_completions s -> loop_spec f (tabs s) inp l s st) ->
  match ('(k, inp) ← decode c inp;
         match apply_key (buflen l) k st with
         | (st, Some n) => Ret (st, n, inp)
         | (st, None) => spec_loop f (buflen l) (tabs s) inp st
         end) with
  | Ret (st', n, rest) =>
      runs ('(l, o) ← edit_key l c; match o with Some n => mret (l, n) | None => edit_loop f l end)
        (with_input inp s) (loop_post l s st' n rest)
  | Undef => ('(l, o) ← edit_key l c; match o with Some n => mret (l, n) | None => edit_loop f l end)
               (with_input inp s) = Undef
  | _ => True
  end.
Proof.
  intros I N IH. pose proof (key_runs l c s st inp I) as K.
  destruct (decode c inp) as [[k rest]| | |]; cbn [mbind outcome_bind]; try done; [|by apply undef_bind].
  destruct K as ([l1 o1] & s1 & E1 & P). unfold key_post in P.
  assert (Eb : forall (g : linenoiseState * option Z -> ST tty (linenoiseState * Z)),
    (edit_key l c ≫= g) (with_input inp s) = g (l1, o1) s1) by (intros g; unfold mbind, ST_bind; by rewrite E1).
  destruct (apply_key (buflen l) k st) as [st1 o]. cbn [fst snd] in P.
  destruct P as (-> & K & F & Hi & P). cbn in Hi.
  assert (Ks : keeps s s1) by exact K. destruct o as [n|].
  - destruct P as (H & z & R & T). eexists _, _. split; [rewrite Eb; reflexivity|].
    split; [done|]. split; [done|]. split; [done|]. split; [done|]. split; [done|]. by exists z.
  - assert (N1 : no_completions s1) by (unfold no_completions; destruct Ks as (_ & _ & -> & _); exact N).
    assert (Et : tabs s1 = tabs s) by (unfold tabs; by destruct Ks as (_ & _ & -> & _)).
    pose proof (IH l1 s1 st1 rest P N1) as L. unfold loop_spec in L. rewrite Et in L.
    assert (Ef : buflen l1 = buflen l) by (by destruct F as (-> & _)). rewrite Ef in L.
    rewrite <- Hi, with_own_input in L. rewrite Hi in L.
    destruct (spec_loop f (buflen l) (tabs s) rest st1) as [[[st2 n] rest2]| | |]; try done.
    + destruct L as (lr & s2 & E2 & P2). exists lr, s2. split; [rewrite Eb; exact E2|].
      by apply (loop_post_trans l l1 s s1).
    + rewrite Eb. exact L.
Qed.

(** One key is read first. *)
Lemma edit_loop_read f l s inp : edit_loop (S f) l (with_input inp s) =
  match (next_rd inp).1 with
  | Byte c => (hk ← gets thooks;
       let handle l c := '(l, o) ← edit_key l c; match o with Some n => mret (l, n) | None => edit_loop f l end in
       match completionCallback hk with
       | Some callback =>
           if decide (c = 9) then
             '(l, c) ← completeLine callback l;
             if decide (c < 0) then mret (l, i32 (Z.of_nat (len l)))
             else if decide (c = 0) then edit_loop f l else handle l (u8 c)
           else handle l c
       | None => handle l c
       end) (with_input (next_rd inp).2 s)
  | _ => Ret ((l, i32 (Z.of_nat (len l))), with_input (next_rd inp).2 s)
  end.
Proof. cbn [edit_loop]. unfold mbind at 1, ST_bind at 1. rewrite read_with. by destruct (next_rd inp).1. Qed.

Lemma loop_runs fuel : forall l s st inp, inv l s st -> no_completions s -> loop_spec fuel (tabs s) inp l s st.
Proof.
  induction fuel as [|f IH]; intros l s st inp I N; [done|]. unfold loop_spec. cbn [spec_loop].
  pose proof (edit_loop_read f l s inp) as Er.
  destruct (next_rd inp) as [r inp'] eqn:En. cbn [fst snd] in Er.
  destruct r as [c| |].
  - assert (Eh : forall g : hooks -> ST tty (linenoiseState * Z),
       (gets thooks ≫= g) (with_input inp' s) = g (thooks s) (with_input inp' s)) by done.
    rewrite Eh in Er. clear Eh. cbv beta zeta in Er.
    pose proof (loop_key f c l s st inp' I N IH) as K. unfold no_completions, tabs in *.
    destruct (completionCallback (thooks s)) as [cb|] eqn:Ec.
    + destruct (decide (c = 9)) as [-> |H9].
      * rewrite decide_True by done. destruct (no_completion_runs cb l s st inp' I N) as (s' & E' & I' & K').
        assert (Er' : edit_loop (S f) l (with_input inp s) = edit_loop f l (with_input inp' s')).
        { rewrite Er. unfold mbind at 1, ST_bind at 1. by rewrite E'. }
        assert (N' : no_completions s') by (unfold no_completions; destruct K' as (_ & _ & -> & _); by rewrite Ec).
        assert (Et : tabs s' = true) by (unfold tabs; destruct K' as (_ & _ & -> & _); by rewrite Ec).
        pose proof (IH l s' st inp' I' N') as L. unfold loop_spec, tabs in L, Et. rewrite Et in L.
        destruct (spec_loop f (buflen l) true inp' st) as [[[st2 n] rest2]| | |]; try done.
        -- destruct L as (lr & s2 & E2 & P2). exists lr, s2. split; [by rewrite Er'|].
           by apply (loop_post_trans l l s s').
        -- by rewrite Er'.
      * rewrite decide_False by tauto.
        destruct (_ ← decode c inp'; _) as [[[st2 n] rest2]| | |]; try done.
        -- destruct K as (lr & s2 & E2 & P2). exists lr, s2. split; [by rewrite Er|done].
        -- by rewrite Er.
    + rewrite decide_False by naive_solver.
      destruct (_ ← decode c inp'; _) as [[[st2 n] rest2]| | |]; try done.
      * destruct K as (lr & s2 & E2 & P2). exists lr, s2. split; [by rewrite Er|done].
      * by rewrite Er.
  - destruct (loop_end l s st inp' I) as (lr & s2 & E2 & P2). exists lr, s2. split; [by rewrite Er|done].
  - destruct (loop_end l s st inp' I) as (lr & s2 & E2 & P2). exists lr, s2. split; [by rewrite Er|done].
Qed.

Lemma hist_add_nonul max hl line : Forall nonul hl -> nonul line -> Forall nonul (hist_add max hl line).
Proof.
  intros F N. unfold hist_add. case_decide; [done|]. apply Forall_app. split; [|by constructor].
  case_decide; [|done]. by destruct F.
Qed.

Lemma hist_add_nonempty max hl line : hist_add max hl line <> [].
Proof.
  unfold hist_add. case_decide as H; [by destruct hl|]. by destruct (if decide _ then _ else _).
Qed.

(** What a session needs: a known width that leaves room beside the prompt, a
    history, a buffer of three bytes at least, and no failing request. *)
Record ready (b : list Z) (n : nat) (pr : list Z) (s : tty) (hl : list (list Z)) (w : Z) : Prop := {
  rd_buf : (2 < n <= length b)%nat;
  rd_cols : winsize (tenv s) = Some w;
  rd_width : Z.of_nat (length pr) < w;
  rd_small : Z.of_nat (length pr) + w + Z.of_nat (length b) < 2 ^ 31;
  rd_hist : hist_rep (thist s) hl;
  rd_nonul : Forall nonul hl;
  rd_max : (0 < history_max_len (thist s))%nat;
  rd_ok : all_ok s;
  rd_comp : no_completions s
}.

(** The session [linenoiseEdit] starts with. *)
Definition start (s : tty) (hl : list (list Z)) : sess :=
  Sess (hist_add (history_max_len (thist s)) hl []) 0 (Zip [] []).

Definition edit_result (b : list Z) (s : tty) (st : sess) (r : Z) (rest : list rd)
    (br : list Z * Z) (s' : tty) : Prop :=
  br.2 = r /\ cstr br.1 = Some (line_of (s_zip st)) /\ length br.1 = length b /\
  hist_rep (thist s') (s_hist st) /\ input (tio s') = rest /\ keeps s s'.

Lemma only_hist_keeps s s' : only_hist s s' -> history_max_len (thist s') = history_max_len (thist s) -> keeps s s'.
Proof. intros (?&?&?&?&E&?) M. unfold keeps. by rewrite E. Qed.

Lemma ztext_line_of z z' : ztext z = ztext z' -> line_of z = line_of z'.
Proof. unfold line_of. by intros ->. Qed.

Lemma edit_enters b n pr s hl w : ready b n pr s hl w -> exists l s1,
  linenoiseEdit b n pr s = match edit_loop (S (length (input (tio s)))) l s1 with
    | Ret ((l, r), s') => Ret ((buf l, r), s') | Abort => Abort | Undef => Undef | NoFuel => NoFuel end /\
  inv l s1 (start s hl) /\ buflen l = (n - 1)%nat /\ length (buf l) = length b /\
  keeps s s1 /\ input (tio s1) = input (tio s).
Proof.
  intros []. assert (Wn : 0 < w) by lia.
  destruct (lookup_lt_is_Some_2 b 0 ltac:(lia)) as [x0 _].
  destruct b as [|x b0] eqn:Eb; [simpl in *; lia|]. rewrite <- Eb in *.
  assert (Es : store b 0 0 = Ret (0 :: b0)).
  { rewrite Eb. exact (f_equal of_option (poke_one [] x 0 b0 0 eq_refl)). }
  set (l := LState (0 :: b0) (n - 1) pr 0 0 0 (u64 w) 0 0).
  assert (Lb : length (0 :: b0) = length b) by (by rewrite Eb).
  assert (Cw : cols l = w).
  { cbn. apply small_wrap. change (2 ^ 64) with (2 ^ 31 * 2 ^ 33). lia. }
  destruct (historyAdd_runs [] s hl rd_hist0 rd_max0) as (r1 & s1 & E1 & K1 & M1 & hl1 & H1 & _ & A1).
  specialize (A1 rd_ok0) as ->. pose proof (only_hist_keeps _ _ K1 M1) as k1.
  destruct (write_runs pr s1) as (r2 & s2 & E2 & Q2 & _ & A2).
  rewrite (A2 (keeps_ok _ _ k1 rd_ok0)) in E2. clear A2 r2.
  exists l, s2. pose proof Q2 as (_ & Qi & _ & Qh & _).
  assert (I2 : input (tio s2) = input (tio s)) by (destruct K1 as (_ & -> & _) in Qi; exact Qi).
  split; [|split; [split|]].
  - unfold linenoiseEdit, getColumns. unfold mbind at 1, ST_bind at 1. unfold mbind at 1, ST_bind at 1, gets at 1.
    rewrite rd_cols0, decide_True by lia. cbn [mret ST_ret]. rewrite (decide_False (P := n = O)) by lia.
    unfold mbind, ST_bind, lift. rewrite Es. cbn [outcome_bind mbind]. fold l. rewrite E1, E2. cbn [negb gets].
    rewrite I2. by destruct (edit_loop _ _ _) as [[[? ?] ?]| | |].
  - split; [done|]. split; [done|]. split; [cbn; lia|]. split; [cbn; cbn in Lb; lia|]. by exists b0.
  - unfold sized. rewrite Cw. unfold plen. cbn [prompt l buf]. rewrite Lb. done.
  - cbn. lia.
  - by rewrite Qh.
  - apply hist_add_nonul; [done|constructor].
  - done.
  - cbn. pose proof (hist_add_nonempty (history_max_len (thist s)) hl []).
    destruct (hist_add _ _ _); [done|simpl; lia].
  - exact (all_ok_quiet _ _ Q2 (keeps_ok _ _ k1 rd_ok0)).
  - split; [done|]. split; [exact Lb|]. split; [etrans; [exact k1|by apply quiet_keeps]|done].
Qed.

Lemma edit_runs b n pr s hl w : ready b n pr s hl w ->
  match spec_loop (S (length (input (tio s)))) (n - 1) (tabs s) (input (tio s)) (start s hl) with
  | Ret (st, r, rest) => runs (linenoiseEdit b n pr) s (edit_result b s st r rest)
  | Undef => linenoiseEdit b n pr s = Undef
  | _ => False
  end.
Proof.
  intros H. destruct (edit_enters b n pr s hl w H) as (l & s1 & E & I & Bn & Lb & K & Hi).
  assert (N : no_completions s1) by (unfold no_completions; destruct K as (_ & _ & -> & _); exact (rd_comp _ _ _ _ _ _ H)).
  pose proof (loop_runs (S (length (input (tio s)))) l s1 _ (input (tio s1)) I N) as L.
  unfold loop_spec in L. rewrite with_own_input, Bn, Hi in L.
  assert (Et : tabs s1 = tabs s) by (unfold tabs; by destruct K as (_ & _ & -> & _)). rewrite Et in L.
  pose proof (spec_loop_ends (S (length (input (tio s)))) (n - 1) (tabs s) (input (tio s)) (start s hl) ltac:(lia)) as T.
  destruct (spec_loop _ _ _ _ _) as [[[st r] rest]| | |]; try done.
  - destruct L as ([l2 r2] & s2 & E2 & Er & K2 & F2 & I2 & H2 & z & R & Tz). rewrite E2 in E.
    eexists _, _. split; [exact E|]. split; [done|]. cbn [fst snd] in *.
    split; [rewrite (rep_cstr _ _ R); f_equal; by apply ztext_line_of|].
    split; [destruct F2 as (_ & _ & _ & ->); exact Lb|]. split; [done|]. split; [done|]. by etrans.
  - by rewrite E, L.
Qed.

(** ** Without a terminal *)

(** The bytes up to a newline, whether one ended them, and what is left. *)
Fixpoint take_line (inp : list rd) : list Z * bool * list rd :=
  match inp with
  | Byte c :: inp' =>
      if decide (c = 10) then ([], true, inp')
      else let '(l, b, r) := take_line inp' in (c :: l, b, r)
  | _ :: inp' => ([], false, inp')
  | [] => ([], false, [])
  end.

Definition line_read (inp : list rd) : option (list Z) :=
  match take_line inp with
  | ([], false, _) => None
  | (l, _, _) => Some l
  end.

Definition unread (s s' : tty) : Prop :=
  tenv s' = tenv s /\ out (tio s') = out (tio s) /\ tmodes s' = tmodes s /\ thist s' = thist s /\
  thooks s' = thooks s /\ files s' = files s.

#[export] Instance unread_preorder : PreOrder unread.
Proof.
  split; [by intros s|]. intros s t u (?&?&?&?&?&?) (?&?&?&?&?&?). unfold unread. split_and!; congruence.
Qed.

Lemma read_runs s : runs read s (fun r s' => unread s s' /\ r = (next_rd (input (tio s))).1 /\
  input (tio s') = (next_rd (input (tio s))).2).
Proof.
  unfold read. destruct (input (tio s)) as [|e inp] eqn:E.
  - eexists _, _. split; [rewrite E; reflexivity|]. done.
  - eexists _, _. split; [rewrite E; reflexivity|]. done.
Qed.

Lemma unread_ok s s' : unread s s' -> all_ok s -> all_ok s'.
Proof. intros (E & _) H n. rewrite E. apply H. Qed.

Lemma notty_runs fuel : forall line maxlen s, (length line <= maxlen)%nat ->
  (length (input (tio s)) < fuel)%nat ->
  runs (notty_loop fuel line maxlen) s (fun r s' => unread s s' /\
    let '(l, b, rest) := take_line (input (tio s)) in
    let full := match line ++ l with [] => if b : bool then Some [] else None | t => Some t end in
    (r = full /\ input (tio s') = rest \/ r = None) /\ (all_ok s -> r = full /\ input (tio s') = rest)).
Proof.
  induction fuel as [|f IH]; intros line maxlen s Hl Hf; [lia|]. cbn [notty_loop]. apply runs_bind.
  set (big := ((if decide (maxlen = O) then 16 else maxlen) * 2)%nat).
  assert (Hb : (maxlen < big)%nat) by (unfold big; destruct (decide (maxlen = 0%nat)); lia).
  assert (P : runs (if decide (length line = maxlen) then r ← request; mret (if r : bool then Some big else None)
                    else mret (Some maxlen)) s
     (fun g s' => unread s s' /\ input (tio s') = input (tio s) /\
        (g = None \/ exists m, g = Some m /\ (length line < m)%nat) /\ (all_ok s -> g <> None))).
  { case_decide as H.
    - apply runs_bind. eexists _, _. split; [reflexivity|]. apply runs_ret. split; [done|]. split; [done|].
      destruct (ok _ _) eqn:E.
      + split; [right; exists big; split; [done|lia]|done].
      + split; [by left|]. intros A. by rewrite A in E.
    - apply runs_ret. split; [done|]. split; [done|]. split; [right; exists maxlen; split; [done|lia]|done]. }
  eapply runs_mono; [exact P|]. clear P. intros g s1 (U1 & I1 & G & A1).
  destruct G as [-> |(m & -> & Hm)].
  { apply runs_ret. split; [done|]. destruct (take_line _) as [[l b] rest]. split; [by right|].
    intros A. by destruct (A1 A). }
  apply runs_bind. eapply runs_mono; [exact (read_runs s1)|]. intros r s2 (U2 & -> & I2). rewrite I1 in *.
  assert (U : unread s s2) by (by etrans).
  destruct (input (tio s)) as [|[c| |] inp]; cbn [next_rd fst snd take_line] in *.
  - destruct line as [|x line]; [rewrite decide_True by done|rewrite decide_False, decide_True by done];
      apply runs_ret; (split; [done|]); rewrite app_nil_r; (split; [by left|done]).
  - destruct (decide (c = 10)) as [-> |Hc].
    + rewrite decide_True by done. apply runs_ret. split; [done|]. rewrite app_nil_r.
      destruct line; (split; [by left|done]).
    + rewrite decide_True by done. cbn [length] in Hf.
      eapply runs_mono; [apply (IH (line ++ [c]) m s2); [rewrite length_app; simpl; lia|rewrite I2; lia]|].
      intros r s3 (U3 & R3). rewrite I2 in R3. split; [by etrans|].
      destruct (take_line inp) as [[l b] rest].
      assert (Ea : (line ++ [c]) ++ l = line ++ c :: l) by (by rewrite <- app_assoc). rewrite Ea in R3.
      destruct R3 as [R3 A3]. split; [exact R3|]. intros A. exact (A3 (unread_ok _ _ U A)).
  - destruct line as [|x line]; [rewrite decide_True by done|rewrite decide_False, decide_True by done];
      apply runs_ret; (split; [done|]); rewrite app_nil_r; (split; [by left|done]).
  - destruct line as [|x line]; [rewrite decide_True by done|rewrite decide_False, decide_True by done];
      apply runs_ret; (split; [done|]); rewrite app_nil_r; (split; [by left|done]).
Qed.

(** ** Properties *)

(** C5: [linenoiseEdit] refines a session on a string with a cursor and a list
    of lines.  [ready] is assumed: a buffer of more than two bytes, a terminal
    of known width that is wider than the prompt, prompt, width and buffer below 2^31 together, a history of lines without
    NUL whose limit is not 0, no allocation or system call that fails, and a
    completion callback that is absent or offers nothing; the other undefined
    cases of the code lie outside of it.  Then, in single and multi line mode,
    with any hints callback and for every input, read errors included, the
    loop ends or is undefined; every key has the effect [apply_key] gives it,
    the buffer holds the text typed (up to a NUL), the history is the
    session's, and the result is the length of the text, or -1 for Control-C
    and for Control-D on an empty line.  It is undefined exactly where the
    session is, and then the end of the input is met within three reads of an
    Escape: the code tests bytes that read() did not give it. *)
Theorem linenoiseEdit_refines b n pr s hl w : ready b n pr s hl w ->
  match spec_loop (S (length (input (tio s)))) (n - 1) (tabs s) (input (tio s)) (start s hl) with
  | Ret (st, r, rest) => runs (linenoiseEdit b n pr) s (edit_result b s st r rest)
  | Undef => linenoiseEdit b n pr s = Undef /\ cut_escape (input (tio s))
  | _ => False
  end.
Proof.
  intros H. pose proof (edit_runs b n pr s hl w H) as R.
  destruct (spec_loop _ _ _ _ _) as [[[st r] rest]| | |] eqn:E; try exact R.
  split; [exact R|by eapply spec_loop_undef].
Qed.

(** Typing "ls", Left, "x", End, Enter on a line of 80 columns. *)
Definition typed : list rd :=
  [Byte 108; Byte 115; Byte 27; Byte 91; Byte 68; Byte 120; Byte 5; Byte 13].
Definition tty_typed : tty := with_input typed (tty_hist [[112; 119; 100]] 4).

Lemma tty_typed_ready : ready (replicate 64 7) 64 rkx_prompt tty_typed [[112; 119; 100]] 80.
Proof.
  split; try reflexivity.
  - split; [apply Nat.ltb_lt; reflexivity|apply Nat.leb_le; reflexivity].
  - split; [reflexivity|]. split; [apply Nat.leb_le; reflexivity|]. split; reflexivity.
  - apply (bool_decide_unpack _). vm_compute. exact I.
  - apply Nat.ltb_lt. reflexivity.
  - intros n. reflexivity.
Qed.

Lemma linenoiseEdit_refines_witness :
  runs (linenoiseEdit (replicate 64 7) 64 rkx_prompt) tty_typed (fun br s' =>
    br.2 = 3 /\ cstr br.1 = Some [108; 120; 115] /\ hist_rep (thist s') [[112; 119; 100]]).
Proof.
  pose proof (linenoiseEdit_refines (replicate 64 7) 64 rkx_prompt tty_typed [[112; 119; 100]] 80
    tty_typed_ready) as H.
  assert (E : spec_loop (S (length (input (tio tty_typed)))) (64 - 1) (tabs tty_typed) (input (tio tty_typed))
     (start tty_typed [[112; 119; 100]]) = Ret (Sess [[112; 119; 100]] 0 (Zip [115; 120; 108] []), 3, []))
    by (vm_compute; reflexivity).
  rewrite E in H. eapply runs_mono; [exact H|]. intros br s' (A & B & _ & C & _). split; [exact A|].
  split; [exact B|exact C].
Defined.

Lemma enable_runs s : isatty (tenv s) = true -> all_ok s -> exists s1,
  enableRawMode s = Ret (0, s1) /\ tenv s1 = tenv s /\ input (tio s1) = input (tio s) /\ thist s1 = thist s /\
  thooks s1 = thooks s /\ files s1 = files s /\
  tmodes s1 = Modes (make_raw (cur_termios (tmodes s))) (cur_termios (tmodes s)) true true
                (maskmode (tmodes s)) (mlmode (tmodes s)).
Proof.
  intros T A. unfold enableRawMode, tcgetattr_orig, tcsetattr, request, gets, modify, mbind, ST_bind. rewrite T.
  unfold all_ok in A. cbn. destruct (atexit_registered (tmodes s)) eqn:E; cbn; rewrite !A; cbn; rewrite ?A;
    (eexists; split; [reflexivity|]); cbn; by rewrite ?E.
Qed.

Lemma disable_runs s : rawmode (tmodes s) = true -> all_ok s -> exists s1,
  disableRawMode s = Ret (tt, s1) /\ tenv s1 = tenv s /\ input (tio s1) = input (tio s) /\ thist s1 = thist s /\
  thooks s1 = thooks s /\ cur_termios (tmodes s1) = orig_termios (tmodes s) /\ rawmode (tmodes s1) = false /\
  maskmode (tmodes s1) = maskmode (tmodes s) /\ mlmode (tmodes s1) = mlmode (tmodes s).
Proof.
  intros R A. unfold disableRawMode, tcsetattr, request, gets, modify, mbind, ST_bind. rewrite R. cbn [negb].
  unfold all_ok in A. cbn. rewrite A. cbn. eexists. split; [reflexivity|]. done.
Qed.

Lemma tty_runs junk pr s hl w :
  isatty (tenv s) = true -> isUnsupportedTerm s = Ret (false, s) -> ready junk LINENOISE_MAX_LINE pr s hl w ->
  match spec_loop (S (length (input (tio s)))) (LINENOISE_MAX_LINE - 1) (tabs s) (input (tio s)) (start s hl) with
  | Ret (st, r, rest) => runs (linenoise junk pr) s (fun line s' =>
      line = (if decide (r = -1) then None else Some (line_of (s_zip st))) /\
      hist_rep (thist s') (s_hist st) /\ input (tio s') = rest /\
      cur_termios (tmodes s') = cur_termios (tmodes s) /\ rawmode (tmodes s') = false /\
      maskmode (tmodes s') = maskmode (tmodes s) /\ mlmode (tmodes s') = mlmode (tmodes s) /\
      tenv s' = tenv s /\ completionCallback (thooks s') = completionCallback (thooks s) /\
      history_max_len (thist s') = history_max_len (thist s))
  | Undef => linenoise junk pr s = Undef
  | _ => False
  end.
Proof.
  intros T U H. pose proof H as []. destruct (enable_runs s T rd_ok0) as (s1 & E1 & Te & Ti & Th & Tk & Tf & Tm).
  assert (H1 : ready junk LINENOISE_MAX_LINE pr s1 hl w).
  { split; try done; rewrite ?Te, ?Th; try done.
    - intros n. rewrite Te. apply rd_ok0.
    - unfold no_completions. by rewrite Tk. }
  pose proof (edit_runs junk LINENOISE_MAX_LINE pr s1 hl w H1) as R.
  assert (Es : start s1 hl = start s hl) by (unfold start; by rewrite Th).
  assert (Et : tabs s1 = tabs s) by (unfold tabs; by rewrite Tk). rewrite Ti, Es, Et in R.
  assert (E : linenoise junk pr s = match linenoiseEdit junk LINENOISE_MAX_LINE pr s1 with
     | Ret ((b, count), s2) => (disableRawMode;; print [10];;
          if decide (count = -1) then mret None else s ← lift (of_option (cstr b)); strdup s) s2
     | Abort => Abort | Undef => Undef | NoFuel => NoFuel end).
  { unfold linenoise. unfold mbind at 1, ST_bind at 1, gets at 1. rewrite T. cbn [negb].
    unfold mbind at 1, ST_bind at 1. rewrite U. unfold linenoiseRaw. unfold mbind at 1, ST_bind at 1.
    rewrite (decide_False (P := LINENOISE_MAX_LINE = O)) by discriminate.
    unfold mbind at 1, ST_bind at 1. rewrite E1. rewrite (decide_False (P := 0 = -1)) by discriminate.
    unfold mbind at 1, ST_bind at 1. destruct (linenoiseEdit _ _ _ _) as [[[b c] s2]| | |]; try done.
    unfold mbind, ST_bind. by destruct (disableRawMode s2) as [[[] s3]| | |]. }
  destruct (spec_loop _ _ _ _ _) as [[[st r] rest]| | |]; try done.
  - destruct R as ([b c] & s2 & E2 & Ec & Cb & _ & Hh & Hi & K). cbn [fst snd] in *. subst c.
    pose proof K as (Ke & Km & _). rewrite Tm in Km.
    assert (A2 : all_ok s2) by (intros n; rewrite Ke, Te; apply rd_ok0).
    destruct (disable_runs s2) as (s3 & E3 & De & Di & Dh & Dk & D1 & D2 & D3 & D4); [by rewrite Km|done|].
    rewrite Km in D1, D3, D4. cbn in D1, D3, D4.
    assert (E' : linenoise junk pr s = (print [10];; if decide (r = -1) then mret None
        else s ← lift (of_option (cstr b)); strdup s) s3).
    { rewrite E, E2. unfold mbind at 1, ST_bind at 1. by rewrite E3. }
    assert (P : runs (print [10];; if decide (r = -1) then mret None
        else s ← lift (of_option (cstr b)); strdup s) s3 (fun line s' =>
      line = (if decide (r = -1) then None else Some (line_of (s_zip st))) /\
      thist s' = thist s3 /\ input (tio s') = input (tio s3) /\ tmodes s' = tmodes s3 /\
      tenv s' = tenv s3 /\ thooks s' = thooks s3)).
    { apply runs_bind, runs_modify. case_decide; [by apply runs_ret|]. rewrite Cb.
      eapply lift_step; [reflexivity|]. apply runs_bind. eexists _, _. split; [reflexivity|].
      apply runs_ret. cbn. by rewrite De, (A2 _). }
    destruct P as (line & s4 & E4 & L4 & H4 & I4 & M4 & N4 & O4). exists line, s4. rewrite E'. split; [done|].
    split; [done|]. rewrite H4, I4, M4, N4, O4, Dh, Di, De, Dk. destruct K as (_ & _ & -> & _ & _ & ->).
    rewrite Ke, Te, Tk, Th. done.
  - by rewrite E, R.
Qed.

(** C37: [linenoise] on a terminal that understands escape sequences, where
    [ready] holds (no request fails, no completion is offered, the prompt is
    narrower than the terminal).  Unless the end of the input is met within
    three reads of an Escape, which leaves the call undefined, the call ends;
    the settings of the terminal are then as they were, the result is a copy of the
    line the session ends with, or NULL after Control-C or Control-D on an
    empty line, and the end of the input gives the line typed so far, even an
    empty one. *)
Theorem linenoise_tty junk pr s hl w :
  isatty (tenv s) = true -> isUnsupportedTerm s = Ret (false, s) -> ready junk LINENOISE_MAX_LINE pr s hl w ->
  match spec_loop (S (length (input (tio s)))) (LINENOISE_MAX_LINE - 1) (tabs s) (input (tio s)) (start s hl) with
  | Ret (st, r, rest) => runs (linenoise junk pr) s (fun line s' =>
      line = (if decide (r = -1) then None else Some (line_of (s_zip st))) /\
      hist_rep (thist s') (s_hist st) /\ input (tio s') = rest /\
      cur_termios (tmodes s') = cur_termios (tmodes s) /\ rawmode (tmodes s') = false /\
      maskmode (tmodes s') = maskmode (tmodes s) /\ mlmode (tmodes s') = mlmode (tmodes s))
  | Undef => linenoise junk pr s = Undef /\ cut_escape (input (tio s))
  | _ => False
  end.
Proof.
  intros T U H. pose proof (tty_runs junk pr s hl w T U H) as R.
  destruct (spec_loop _ _ _ _ _) as [[[st r] rest]| | |] eqn:E; try exact R.
  - eapply runs_mono; [exact R|]. cbn. tauto.
  - split; [exact R|by eapply spec_loop_undef].
Qed.

Definition tty_full : tty := with_input typed (tty_hist [[112; 119; 100]] 4).

Lemma linenoise_tty_witness :
  runs (linenoise (replicate LINENOISE_MAX_LINE 7) rkx_prompt) tty_full (fun line s' =>
    line = Some [108; 120; 115] /\ cur_termios (tmodes s') = cooked).
Proof.
  assert (R : ready (replicate LINENOISE_MAX_LINE 7) LINENOISE_MAX_LINE rkx_prompt tty_full [[112; 119; 100]] 80).
  { destruct tty_typed_ready. split; try assumption; try reflexivity.
    rewrite length_replicate. split; [apply Nat.ltb_lt; reflexivity|apply Nat.leb_le; reflexivity]. }
  pose proof (linenoise_tty (replicate LINENOISE_MAX_LINE 7) rkx_prompt tty_full [[112; 119; 100]] 80
    eq_refl eq_refl R) as H.
  assert (E : spec_loop (S (length (input (tio tty_full)))) (LINENOISE_MAX_LINE - 1) (tabs tty_full)
     (input (tio tty_full)) (start tty_full [[112; 119; 100]]) =
     Ret (Sess [[112; 119; 100]] 0 (Zip [115; 120; 108] []), 3, [])) by (vm_compute; reflexivity).
  rewrite E in H. eapply runs_mono; [exact H|]. intros line s' (A & _ & _ & B & _). split; [exact A|exact B].
Defined.

(** C38: without a terminal [linenoise] reads one line of any length: the block
    is doubled when it is full and never written past its end, the loop ends,
    and the result is the bytes before the newline or the end of the input,
    NULL when the input ends with nothing read; when an allocation fails the
    result is NULL.  Nothing is written and the history is not used. *)
Theorem linenoise_notty junk pr s : isatty (tenv s) = false ->
  runs (linenoise junk pr) s (fun r s' => unread s s' /\
    let '(l, b, rest) := take_line (input (tio s)) in
    (r = line_read (input (tio s)) /\ input (tio s') = rest \/ r = None) /\
    (all_ok s -> r = line_read (input (tio s)) /\ input (tio s') = rest)).
Proof.
  intros T. unfold linenoise. apply runs_bind, runs_gets. rewrite T. cbn [negb].
  unfold linenoiseNoTTY. apply runs_bind, runs_gets.
  eapply runs_mono; [exact (notty_runs _ [] 0 s (Nat.le_refl _) (Nat.lt_succ_diag_r _))|].
  intros r s' (U & P). split; [done|]. unfold line_read. cbn [app] in P.
  destruct (take_line (input (tio s))) as [[[|c l] []] rest]; exact P.
Qed.

Lemma linenoise_notty_witness :
  runs (linenoise [] []) (set_io (fun _ => IO [Byte 104; Byte 105; Byte 10; Byte 120] [] 0 0)
    (Tty (Env (fun _ => true) false None None) (IO [] [] 0 0) (tmodes tty0) hist0 (thooks tty0) ∅))
    (fun r s' => r = Some [104; 105] /\ input (tio s') = [Byte 120]).
Proof.
  eapply runs_mono; [apply (linenoise_notty [] []); reflexivity|].
  intros r s' (_ & _ & A). apply A. intros n. reflexivity.
Defined.
