(* ===== verification/Shell.v ===== *)
(** * The shell (src/src/rkx.c, kx_command.c)

    Splitting a line into arguments in place, finding the command, running it
    through the system's shell, and the loop over the lines the line editor
    returns.  The client's state is abstract: [do_user] and [do_file] act on
    it, and so do [system] and [chdir] of the C library; nothing is assumed of
    them.  The arguments are pointers into the line. *)

From Stdlib Require Import ZArith Lia.
From stdpp Require Import prelude gmap.
From S2P Require Import Prelude.
From S2P Require Import Terminal.
From S2P Require Import History.
From S2P Require Import Lineedit.
From S2P Require Import Linenoise.

(** ** split_str *)

(** [while ( *line == ' ') line++] *)
Fixpoint skip_blanks (fuel : nat) (m : list Z) (i : nat) : outcome nat :=
  match fuel with
  | O => NoFuel
  | S f => c ← load m i; if decide (c = 32) then skip_blanks f m (S i) else Ret i
  end.

(** [while ( *line != ' ' && *line != '\n' && *line != '\0') line++] *)
Fixpoint skip_word (fuel : nat) (m : list Z) (i : nat) : outcome nat :=
  match fuel with
  | O => NoFuel
  | S f => c ← load m i; if decide (c <> 32 /\ c <> 10 /\ c <> 0) then skip_word f m (S i) else Ret i
  end.

(** The first loop: the number of arguments. *)
Fixpoint count_args (fuel : nat) (m : list Z) (i argc : nat) : outcome nat :=
  match fuel with
  | O => NoFuel
  | S f =>
      c ← load m i;
      if decide (c = 0) then Ret argc else
      i ← skip_blanks (S (length m)) m i;
      c ← load m i;
      let argc := if decide (c <> 0) then S argc else argc in
      i ← skip_word (S (length m)) m i;
      count_args f m i argc
  end.

(** The second loop: the offsets of the arguments, each ended by a NUL. *)
Fixpoint fill_args (fuel : nat) (m : list Z) (i cur argc : nat) (argv : list nat) : outcome (list Z * list nat) :=
  match fuel with
  | O => NoFuel
  | S f =>
      if decide (argc <= cur)%nat then Ret (m, argv) else
      c ← load m i;
      if decide (c = 0) then Ret (m, argv) else
      i ← skip_blanks (S (length m)) m i;
      c ← load m i;
      let argv := if decide (c <> 0) then argv ++ [i] else argv in
      let cur := if decide (c <> 0) then S cur else cur in
      i ← skip_word (S (length m)) m i;
      c ← load m i;
      if decide (c <> 0) then m ← store m i 0; fill_args f m (S i) cur argc argv
      else fill_args f m i cur argc argv
  end.

(** The line afterwards, [argc] and [*argv] ([None]: NULL). *)
Definition split_str (line : list Z) : ST tty (list Z * nat * option (list nat)) :=
  argc ← lift (count_args (S (length line)) line 0 0);
  r ← request;
  if negb r then mret (line, argc, None) else
  '(m, argv) ← lift (fill_args (S (length line)) line 0 0 argc []);
  mret (m, argc, Some argv).

(** ** The commands *)

Inductive command := DoUser | DoFile | DoCommand | ShellUsage.

(** "user", "file", "ls", "cd", "help" *)
Definition name_user : list Z := [117; 115; 101; 114].
Definition name_file : list Z := [102; 105; 108; 101].
Definition name_ls : list Z := [108; 115].
Definition name_cd : list Z := [99; 100].
Definition name_help : list Z := [104; 101; 108; 112].

Definition cmds : list (list Z * command) :=
  [(name_user, DoUser); (name_file, DoFile); (name_ls, DoCommand); (name_cd, DoCommand); (name_help, ShellUsage)].

Fixpoint find_cmd (l : list (list Z * command)) (name : list Z) : option command :=
  match l with
  | [] => None
  | (n, c) :: l' => if decide (name = n) then Some c else find_cmd l' name
  end.

Definition get_cmd (name : list Z) : option command := find_cmd cmds name.

(** The text of [shell_usage]. *)
Definition usage_lines : list (list Z) :=
  [[117; 115; 101; 114]; [102; 105; 108; 101]; [108; 115]; [99; 100]; [104; 101; 108; 112];
   [109; 107; 100; 105; 114]; [116; 111; 117; 99; 104]; [113; 117; 105; 116]; [114; 109];
   [115; 116; 97; 116]; [116; 97; 105; 108]; [116; 114; 117; 110; 99; 97; 116; 101];
   [99; 108; 101; 97; 114]; [102; 108; 111; 99; 107]; [109; 118]].

(** "The following commands are supported:\n" *)
Definition usage_head : list Z :=
  [84; 104; 101; 32; 102; 111; 108; 108; 111; 119; 105; 110; 103; 32; 99; 111; 109; 109; 97; 110; 100; 115;
   32; 97; 114; 101; 32; 115; 117; 112; 112; 111; 114; 116; 101; 100; 58; 10].

Definition usage_text : list Z := usage_head ++ concat ((fun w => [32; 42; 32] ++ w ++ [10]) <$> usage_lines).

(** "rkx>" and "./history" *)
Definition KX_PROMPT : list Z := [114; 107; 120; 62].
Definition history_file : list Z := [46; 47; 104; 105; 115; 116; 111; 114; 121].

Section Shell.
Context {W : Type}.
Variables do_user do_file : list (list Z) -> ST W Z.
Variable system chdir : list Z -> ST W Z.

(** ** kx_command.c *)

(** The second [for] loop: the pieces go into the array one after the other;
    the result is the array and the offset. *)
Fixpoint join_args (argv : list (list Z)) (m : list Z) (offset : nat) : outcome (list Z * nat) :=
  match argv with
  | [] => Ret (m, offset)
  | a :: argv' =>
      m ← of_option (poke m offset (snprintf (a ++ [32]) (length m - offset)));
      join_args argv' m (offset + length (a ++ [32]))
  end.

(** [junk] is the old contents of the array. *)
Definition do_command (junk : nat -> list Z) (argv : list (list Z)) : ST W Z :=
  let total_length := sum_list ((fun a => length (a ++ [32])) <$> argv) in
  match join_args argv (junk (total_length + 1)%nat) 0 with
  | Ret (m, offset) =>
      if decide (offset = O) then undef else
      match (m ← store m (offset - 1) 0; of_option (cstr m)) with
      | Ret text =>
          _ ← system text;
          match argv with
          | a :: argv' =>
              if decide (a = name_cd) then
                match argv' with
                | dir :: _ => _ ← chdir dir; mret 0
                | [] => undef
                end
              else mret 0
          | [] => undef
          end
      | _ => undef
      end
  | _ => undef
  end.

(** ** rkx.c *)

(** [leaks] counts the lines that are not freed. *)
Record shell := Shell { sh_tty : tty; sh_world : W; leaks : nat }.

Definition on_tty {A} (m : ST tty A) : ST shell A := fun s =>
  match m (sh_tty s) with
  | Ret (a, t) => Ret (a, Shell t (sh_world s) (leaks s))
  | Abort => Abort
  | Undef => Undef
  | NoFuel => NoFuel
  end.

Definition on_world {A} (m : ST W A) : ST shell A := fun s =>
  match m (sh_world s) with
  | Ret (a, w) => Ret (a, Shell (sh_tty s) w (leaks s))
  | Abort => Abort
  | Undef => Undef
  | NoFuel => NoFuel
  end.

Definition shell_usage : ST shell Z := on_tty (print usage_text);; mret 0.

Variable junk_command : nat -> list Z.

Definition execute (c : command) (argv : list (list Z)) : ST shell Z :=
  match c with
  | DoUser => on_world (do_user argv)
  | DoFile => on_world (do_file argv)
  | DoCommand => on_world (do_command junk_command argv)
  | ShellUsage => shell_usage
  end.

(** The strings behind the pointers. *)
Fixpoint strings_at (m : list Z) (argv : list nat) : outcome (list (list Z)) :=
  match argv with
  | [] => Ret []
  | o :: argv' => s ← of_option (cstr (drop o m)); l ← strings_at m argv'; Ret (s :: l)
  end.

(** The body of the loop for one line. *)
Definition run_line (line : list Z) : ST shell unit :=
  let block := line ++ [0] in
  c ← on_tty (lift (load block 0));
  if decide (c <> 0 /\ c <> 47) then
    '(m, argc, argv) ← on_tty (split_str block);
    if decide (argc = O) then modify (fun s => Shell (sh_tty s) (sh_world s) (S (leaks s)))
    else
      match argv with
      | None => undef
      | Some argv =>
          args ← on_tty (lift (strings_at m argv));
          match args with
          | [] => undef
          | name :: _ =>
              match get_cmd name with
              | Some cmd => _ ← execute cmd args; mret tt
              | None => mret tt
              end
          end
      end
  else mret tt.

(** [do_completion] adds nothing. *)
Definition do_completion (prefix : list Z) : list (list Z) := [].

Variable junk_line : list Z.

Fixpoint lines_loop (fuel : nat) : ST shell unit :=
  match fuel with
  | O => no_fuel
  | S f =>
      line ← on_tty (linenoise junk_line KX_PROMPT);
      match line with
      | None => mret tt
      | Some line => run_line line;; lines_loop f
      end
  end.

Definition kx_loop (fuel : nat) : ST shell unit :=
  _ ← on_tty (linenoiseHistoryLoad history_file);
  on_tty (linenoiseSetCompletionCallback (Some do_completion));;
  lines_loop fuel;;
  _ ← on_tty (linenoiseHistorySave history_file);
  mret tt.

End Shell.

(** ** Splitting into words *)

(** The words of a string separated by blanks. *)
Fixpoint words_from (cur l : list Z) : list (list Z) :=
  match l with
  | [] => if decide (cur = []) then [] else [cur]
  | c :: l' =>
      if decide (c = 32) then (if decide (cur = []) then words_from [] l' else cur :: words_from [] l')
      else words_from (cur ++ [c]) l'
  end.
Definition words (l : list Z) : list (list Z) := words_from [] l.

Definition no_blank (w : list Z) : Prop := Forall (fun c => c <> 32) w.

Lemma words_from_app w : forall cur l, no_blank w -> words_from cur (w ++ l) = words_from (cur ++ w) l.
Proof.
  induction w as [|c w IH]; intros cur l N; [by rewrite app_nil_r|].
  apply Forall_cons in N as [Hc N]. cbn. rewrite decide_False by done. rewrite IH by done. by rewrite <- app_assoc.
Qed.

Lemma words_blanks k l : words (replicate k 32 ++ l) = words l.
Proof. induction k as [|k IH]; [done|]. exact IH. Qed.

Lemma words_last w : no_blank w -> w <> [] -> words w = [w].
Proof.
  intros N H. unfold words. rewrite <- (app_nil_r w) at 1. rewrite words_from_app by done. cbn.
  by rewrite decide_False.
Qed.

Lemma words_cons w l : no_blank w -> w <> [] -> words (w ++ 32 :: l) = w :: words l.
Proof.
  intros N H. unfold words. rewrite words_from_app by done. cbn [words_from app].
  rewrite (decide_True (P := 32 = 32)) by done. by rewrite decide_False.
Qed.

(** A string is blanks and then nothing, a last word, or a word and a blank. *)
Inductive split_view : list Z -> Prop :=
  | view_blank k : split_view (replicate k 32)
  | view_last k w : no_blank w -> w <> [] -> split_view (replicate k 32 ++ w)
  | view_word k w l : no_blank w -> w <> [] -> split_view (replicate k 32 ++ w ++ 32 :: l).

Lemma word_view l : (exists w, l = w /\ no_blank w) \/ (exists w l', l = w ++ 32 :: l' /\ no_blank w).
Proof.
  induction l as [|c l [(w & -> & N)|(w & l' & -> & N)]].
  - left. exists []. split; [done|constructor].
  - destruct (decide (c = 32)) as [-> |H].
    + right. exists [], w. split; [done|constructor].
    + left. exists (c :: w). split; [done|by constructor].
  - destruct (decide (c = 32)) as [-> |H].
    + right. exists [], (w ++ 32 :: l'). split; [done|constructor].
    + right. exists (c :: w), l'. split; [done|by constructor].
Qed.

Lemma split_viewP l : split_view l.
Proof.
  induction l as [|c l IH]; [exact (view_blank 0)|]. destruct (decide (c = 32)) as [-> |H].
  - destruct IH as [k|k w N Hw|k w l N Hw].
    + exact (view_blank (S k)).
    + exact (view_last (S k) w N Hw).
    + exact (view_word (S k) w l N Hw).
  - destruct (word_view l) as [(w & -> & N)|(w & l' & -> & N)].
    + apply (view_last 0 (c :: w)); [by constructor|done].
    + apply (view_word 0 (c :: w) l'); [by constructor|done].
Qed.

(** *** The scanning loops *)

Lemma load_at pre c u : load (pre ++ c :: u) (length pre) = Ret c.
Proof. unfold load. by rewrite list_lookup_middle by done. Qed.

Lemma skip_blanks_run k : forall fuel pre c u, c <> 32 -> (k < fuel)%nat ->
  skip_blanks fuel (pre ++ replicate k 32 ++ c :: u) (length pre) = Ret (length pre + k)%nat.
Proof.
  induction k as [|k IH]; intros fuel pre c u Hc Hf; destruct fuel as [|f]; try lia; cbn [skip_blanks replicate app].
  - rewrite load_at. cbn. rewrite decide_False by done. f_equal. lia.
  - rewrite load_at. cbn [mbind outcome_bind]. rewrite decide_True by done.
    replace (pre ++ 32 :: replicate k 32 ++ c :: u) with ((pre ++ [32]) ++ replicate k 32 ++ c :: u)
      by (by rewrite <- app_assoc).
    replace (S (length pre)) with (length (pre ++ [32])) by (rewrite length_app; simpl; lia).
    rewrite IH by (done || lia). f_equal. rewrite length_app. simpl. lia.
Qed.

Definition word_char (c : Z) : Prop := c <> 32 /\ c <> 10 /\ c <> 0.

Lemma skip_word_run w : forall fuel pre c u, Forall word_char w -> ~ word_char c -> (length w < fuel)%nat ->
  skip_word fuel (pre ++ w ++ c :: u) (length pre) = Ret (length pre + length w)%nat.
Proof.
  induction w as [|x w IH]; intros fuel pre c u F Hc Hf; destruct fuel as [|f]; try (simpl in Hf; lia);
    cbn [skip_word app].
  - rewrite load_at. cbn. rewrite decide_False by done. f_equal. lia.
  - apply Forall_cons in F as [Hx F]. rewrite load_at. cbn [mbind outcome_bind]. rewrite decide_True by exact Hx.
    replace (pre ++ x :: w ++ c :: u) with ((pre ++ [x]) ++ w ++ c :: u) by (by rewrite <- app_assoc).
    replace (S (length pre)) with (length (pre ++ [x])) by (rewrite length_app; simpl; lia).
    cbn [length] in Hf. rewrite IH by (done || lia). f_equal. rewrite length_app. cbn [length]. lia.
Qed.

(** A line without NUL and newline. *)
Definition line_chars (l : list Z) : Prop := Forall (fun c => c <> 0 /\ c <> 10) l.

Lemma word_chars w : no_blank w -> line_chars w -> Forall word_char w.
Proof. intros N L. apply Forall_forall. intros x Hx. unfold no_blank, line_chars in *.
  rewrite Forall_forall in N, L. specialize (N x Hx). specialize (L x Hx). unfold word_char. tauto. Qed.

(** The first word after the blanks, by one round of either loop. *)
Lemma scan_word k w c u pre fuel fuel' : no_blank w -> w <> [] -> line_chars w -> ~ word_char c ->
  (k < fuel)%nat -> (length w < fuel')%nat ->
  let m := pre ++ replicate k 32 ++ w ++ c :: u in
  skip_blanks fuel m (length pre) = Ret (length pre + k)%nat /\
  (exists x, load m (length pre + k) = Ret x /\ x <> 0) /\
  skip_word fuel' m (length pre + k) = Ret (length pre + k + length w)%nat /\
  load m (length pre + k + length w) = Ret c.
Proof.
  intros N Hw L Hc Hk Hl m. destruct w as [|x w]; [done|].
  pose proof (Forall_inv N) as Nx. pose proof (Forall_inv L) as Lx. cbn in Lx.
  assert (E : m = (pre ++ replicate k 32) ++ (x :: w) ++ c :: u) by (unfold m; by rewrite <- !app_assoc).
  assert (Lp : length (pre ++ replicate k 32) = (length pre + k)%nat) by (by rewrite length_app, length_replicate).
  split; [exact (skip_blanks_run k fuel pre x _ Nx Hk)|].
  split. { exists x. rewrite E, <- Lp. cbn [app]. rewrite load_at. split; [done|tauto]. }
  split. { rewrite E, <- Lp. apply skip_word_run; [by apply word_chars|done|done]. }
  rewrite E, app_assoc. replace (length pre + k + length (x :: w))%nat with
    (length ((pre ++ replicate k 32) ++ x :: w)) by (rewrite length_app, Lp; lia). apply load_at.
Qed.

(** Blanks to the end. *)
Lemma scan_blank k u pre fuel fuel' : (k < fuel)%nat -> (0 < fuel')%nat ->
  let m := pre ++ replicate k 32 ++ 0 :: u in
  skip_blanks fuel m (length pre) = Ret (length pre + k)%nat /\ load m (length pre + k) = Ret 0 /\
  skip_word fuel' m (length pre + k) = Ret (length pre + k)%nat.
Proof.
  intros Hk Hf m. split; [by apply skip_blanks_run|].
  assert (E : m = (pre ++ replicate k 32) ++ 0 :: u) by (unfold m; by rewrite <- app_assoc).
  assert (Lp : (length pre + k)%nat = length (pre ++ replicate k 32)) by (by rewrite length_app, length_replicate).
  rewrite E, Lp. split; [apply load_at|]. destruct fuel' as [|f]; [lia|]. cbn [skip_word]. rewrite load_at. cbn.
  rewrite decide_False by tauto. done.
Qed.

(** A round starts on a character that is not NUL. *)
Lemma head_nonnul pre t u : line_chars t -> t <> [] -> exists x, load (pre ++ t ++ u) (length pre) = Ret x /\ x <> 0.
Proof.
  intros L H. destruct t as [|x t]; [done|]. exists x. cbn [app]. rewrite load_at. split; [done|].
  pose proof (Forall_inv L) as Lx. cbn in Lx. tauto.
Qed.

Lemma blank_not_word : ~ word_char 32. Proof. unfold word_char. tauto. Qed.
Lemma nul_not_word : ~ word_char 0. Proof. unfold word_char. tauto. Qed.

Lemma count_run fuel : forall t pre r argc, line_chars t -> (length t < fuel)%nat ->
  count_args fuel (pre ++ t ++ 0 :: r) (length pre) argc = Ret (argc + length (words t))%nat.
Proof.
  induction fuel as [|f IH]; intros t pre r argc L Hf; [lia|]. cbn [count_args].
  set (m := pre ++ t ++ 0 :: r). set (n := S (length m)).
  assert (Hn : (length t < n)%nat) by (unfold n, m; rewrite !length_app; cbn [length]; lia).
  destruct (decide (t = [])) as [-> |Ht].
  { unfold m. cbn [app]. rewrite load_at. change (words []) with (@nil (list Z)). rewrite Nat.add_0_r. done. }
  destruct (head_nonnul pre t (0 :: r) L Ht) as (x & Ex & Hx). fold m in Ex. rewrite Ex.
  cbn [mbind outcome_bind]. rewrite decide_False by done.
  destruct (split_viewP t) as [k|k w N Hw|k w l N Hw]; clearbody n.
  - rewrite length_replicate in *. destruct (scan_blank k r pre n n ltac:(lia) ltac:(lia)) as (E1 & E2 & E3). fold m in E1, E2, E3.
    rewrite E1. cbn [mbind outcome_bind]. rewrite E2. cbn [mbind outcome_bind].
    rewrite decide_False by tauto. rewrite E3. cbn [mbind outcome_bind].
    assert (Ew : words (replicate k 32) = []) by (rewrite <- (app_nil_r (replicate k 32)); apply words_blanks).
    rewrite Ew. destruct f as [|f]; [destruct k; [done|lia]|]. cbn [count_args]. rewrite E2. by rewrite Nat.add_0_r.
  - apply Forall_app in L as [_ L]. rewrite length_app, length_replicate in Hf, Hn.
    unfold m. rewrite <- app_assoc.
    destruct (scan_word k w 0 r pre n n N Hw L nul_not_word ltac:(lia) ltac:(lia)) as (E1 & (y & E2 & Hy) & E3 & E4).
    rewrite E1. cbn [mbind outcome_bind]. rewrite E2. cbn [mbind outcome_bind]. rewrite decide_True by done.
    rewrite E3. cbn [mbind outcome_bind]. rewrite words_blanks, words_last by done.
    destruct f as [|f]; [destruct w; [done|simpl in Hf; lia]|]. cbn [count_args]. rewrite E4. cbn. by rewrite Nat.add_1_r.
  - apply Forall_app in L as [_ L]. apply Forall_app in L as [L L'].
    rewrite !length_app, length_replicate in Hf, Hn. cbn [length] in Hf, Hn.
    unfold m. rewrite <- !app_assoc. cbn [app].
    destruct (scan_word k w 32 (l ++ 0 :: r) pre n n N Hw L blank_not_word ltac:(lia) ltac:(lia))
      as (E1 & (y & E2 & Hy) & E3 & _).
    rewrite E1. cbn [mbind outcome_bind]. rewrite E2. cbn [mbind outcome_bind]. rewrite decide_True by done.
    rewrite E3. cbn [mbind outcome_bind]. rewrite words_blanks, words_cons by done.
    replace (pre ++ replicate k 32 ++ w ++ 32 :: l ++ 0 :: r) with
      ((pre ++ replicate k 32 ++ w) ++ (32 :: l) ++ 0 :: r) by (by rewrite <- !app_assoc).
    replace (length pre + k + length w)%nat with (length (pre ++ replicate k 32 ++ w))
      by (rewrite !length_app, length_replicate; lia).
    assert (0 < length w)%nat by (destruct w; [done|simpl; lia]).
    rewrite IH; [|by constructor; [|by apply Forall_cons in L' as [_ L']]|cbn; lia].
    f_equal. cbn [length]. change (words (32 :: l)) with (words l). lia.
Qed.

(** A newline stops both pointers for ever. *)
Lemma newline_stuck fuel : forall pre u argc, count_args fuel (pre ++ 10 :: u) (length pre) argc = NoFuel.
Proof.
  induction fuel as [|f IH]; intros pre u argc; [done|]. cbn [count_args]. rewrite load_at.
  cbn [mbind outcome_bind]. rewrite decide_False by lia. cbn [skip_blanks]. rewrite load_at.
  cbn [mbind outcome_bind]. rewrite decide_False by lia. cbn [mbind outcome_bind]. rewrite load_at.
  cbn [mbind outcome_bind skip_word]. rewrite load_at. cbn [mbind outcome_bind]. rewrite (decide_False (P := 10 <> 32 /\ _)) by lia.
  cbn [mbind outcome_bind]. apply IH.
Qed.

Lemma store_at pre c x u : store (pre ++ c :: u) (length pre) x = Ret (pre ++ x :: u).
Proof. unfold store. change (c :: u) with ([c] ++ u). rewrite (poke_at pre [c] [x] u) by done. done. Qed.

Lemma line_nonul w : line_chars w -> nonul w.
Proof. intros L. eapply Forall_impl; [exact L|]. cbn. tauto. Qed.

Lemma strings_cons pre k w m offs ws : line_chars w -> strings_at (pre ++ replicate k 32 ++ w ++ 0 :: m) offs = Ret ws ->
  strings_at (pre ++ replicate k 32 ++ w ++ 0 :: m) ((length pre + k)%nat :: offs) = Ret (w :: ws).
Proof.
  intros L H. cbn [strings_at].
  assert (E : drop (length pre + k) (pre ++ replicate k 32 ++ w ++ 0 :: m) = w ++ 0 :: m).
  { rewrite app_assoc. apply drop_app_length'. by rewrite length_app, length_replicate. }
  rewrite E, cstr_app by (by apply line_nonul). cbn [of_option mbind outcome_bind]. by rewrite H.
Qed.

Lemma fill_done f m i cur argc argv : (argc <= cur)%nat -> fill_args (S f) m i cur argc argv = Ret (m, argv).
Proof. intros H. cbn [fill_args]. by rewrite decide_True. Qed.

(** One round of the loop: the next word. *)
Lemma fill_word f k w c u pre cur argc argv : no_blank w -> w <> [] -> line_chars w -> ~ word_char c ->
  (cur < argc)%nat ->
  let m := pre ++ replicate k 32 ++ w ++ c :: u in let e := (length pre + k + length w)%nat in
  fill_args (S f) m (length pre) cur argc argv =
    (if decide (c <> 0) then m ← store m e 0; fill_args f m (S e) (S cur) argc (argv ++ [(length pre + k)%nat])
     else fill_args f m e (S cur) argc (argv ++ [(length pre + k)%nat])).
Proof.
  intros N Hw L Hc Hlt m e.
  assert (Hn : (length pre + k + length w < S (length m))%nat)
    by (unfold m; rewrite !length_app, length_replicate; cbn [length]; lia).
  destruct (scan_word k w c u pre (S (length m)) (S (length m)) N Hw L Hc ltac:(lia) ltac:(lia))
    as (E1 & (y & E2 & Hy) & E3 & E4). fold m e in E1, E2, E3, E4.
  destruct (head_nonnul pre (replicate k 32 ++ w) (c :: u)) as (x & Ex & Hx).
  { apply Forall_app. split; [apply Forall_replicate; lia|done]. }
  { destruct k; [by destruct w|done]. }
  rewrite <- app_assoc in Ex. fold m in Ex. cbn [fill_args]. rewrite decide_False by lia. rewrite Ex. cbn [mbind outcome_bind].
  rewrite decide_False by done. rewrite E1. cbn [mbind outcome_bind]. rewrite E2. cbn [mbind outcome_bind].
  rewrite !(decide_True (P := y <> 0)) by done. rewrite E3. cbn [mbind outcome_bind]. by rewrite E4.
Qed.

Lemma fill_run fuel : forall t pre r cur argc argv, line_chars t -> (length t < fuel)%nat ->
  argc = (cur + length (words t))%nat ->
  exists m' offs, fill_args fuel (pre ++ t ++ 0 :: r) (length pre) cur argc argv = Ret (pre ++ m', argv ++ offs) /\
    length m' = length (t ++ 0 :: r) /\ strings_at (pre ++ m') offs = Ret (words t).
Proof.
  induction fuel as [|f IH]; intros t pre r cur argc argv L Hf Ha; [lia|].
  destruct (split_viewP t) as [k|k w N Hw|k w l N Hw].
  - assert (Ew : words (replicate k 32) = []) by (rewrite <- (app_nil_r (replicate k 32)); apply words_blanks).
    rewrite Ew in *. cbn [length] in Ha. rewrite fill_done by lia. exists (replicate k 32 ++ 0 :: r), [].
    rewrite (app_nil_r argv). done.
  - rewrite words_blanks, words_last in * by done. cbn [length] in Ha.
    apply Forall_app in L as [_ L]. rewrite length_app, length_replicate in Hf.
    rewrite <- (app_assoc _ w). rewrite fill_word by (done || apply nul_not_word || lia). rewrite decide_False by tauto.
    destruct f as [|f]; [destruct w; [done|cbn [length] in Hf; lia]|]. rewrite fill_done by lia.
    exists (replicate k 32 ++ w ++ 0 :: r), [(length pre + k)%nat]. split; [done|]. split; [done|].
    apply strings_cons; done.
  - rewrite words_blanks, words_cons in * by done. cbn [length] in Ha.
    apply Forall_app in L as [_ L]. apply Forall_app in L as [L L']. apply Forall_cons in L' as [_ L'].
    rewrite !length_app, length_replicate in Hf. cbn [length] in Hf.
    assert (Lw : (0 < length w)%nat) by (destruct w; [done|cbn [length]; lia]).
    replace ((replicate k 32 ++ w ++ 32 :: l) ++ 0 :: r) with (replicate k 32 ++ w ++ 32 :: l ++ 0 :: r)
      by (by rewrite <- !app_assoc).
    rewrite fill_word by (done || apply blank_not_word || lia). rewrite decide_True by done.
    set (pre' := pre ++ replicate k 32 ++ w).
    assert (Em : forall x u, pre' ++ x :: u = pre ++ replicate k 32 ++ w ++ x :: u) by (intros; unfold pre'; by rewrite <- !app_assoc).
    replace (length pre + k + length w)%nat with (length pre') by (unfold pre'; rewrite !length_app, length_replicate; lia).
    rewrite <- Em, store_at. cbn [mbind outcome_bind].
    destruct (IH l (pre' ++ [0]) r (S cur) argc (argv ++ [(length pre + k)%nat]) L' ltac:(lia) ltac:(lia))
      as (m' & offs & EI & EL & ES).
    rewrite length_app in EI. cbn [length] in EI. rewrite Nat.add_1_r, <- !app_assoc in EI. cbn [app] in EI.
    rewrite EI. exists (replicate k 32 ++ w ++ 0 :: m'), ((length pre + k)%nat :: offs).
    split; [by rewrite Em|]. split; [rewrite !length_app in *; cbn [length] in *; rewrite ?length_app in *; cbn [length] in *; lia|].
    apply strings_cons; [done|]. by rewrite <- Em, <- (app_assoc pre' [0]) in *.
Qed.

(** *** The two loops together *)

Lemma newline_before fuel : forall t pre u argc, line_chars t ->
  count_args fuel (pre ++ t ++ 10 :: u) (length pre) argc = NoFuel.
Proof.
  induction fuel as [|f IH]; intros t pre u argc L; [done|].
  destruct (decide (t = [])) as [-> |Ht]; [apply newline_stuck|]. cbn [count_args].
  set (m := pre ++ t ++ 10 :: u). set (n := S (length m)).
  assert (Hn : (length t < n)%nat) by (unfold n, m; rewrite !length_app; cbn [length]; lia). clearbody n.
  destruct (head_nonnul pre t (10 :: u) L Ht) as (x & Ex & Hx). fold m in Ex. rewrite Ex.
  cbn [mbind outcome_bind]. rewrite decide_False by done.
  assert (H10 : ~ word_char 10) by (unfold word_char; lia).
  destruct (split_viewP t) as [k|k w N Hw|k w l N Hw].
  - rewrite length_replicate in Hn. unfold m. rewrite (skip_blanks_run k n pre 10 u) by lia.
    cbn [mbind outcome_bind].
    assert (Lk : (length pre + k)%nat = length (pre ++ replicate k 32)) by (by rewrite length_app, length_replicate).
    rewrite Lk, app_assoc, load_at. cbn [mbind outcome_bind].
    assert (E : skip_word n ((pre ++ replicate k 32) ++ 10 :: u) (length (pre ++ replicate k 32)) =
                Ret (length (pre ++ replicate k 32%Z) + 0)%nat).
    { apply (skip_word_run [] n (pre ++ replicate k 32) 10 u); [constructor|done|cbn; lia]. }
    rewrite E. cbn [mbind outcome_bind]. rewrite Nat.add_0_r. apply newline_stuck.
  - apply Forall_app in L as [_ L]. rewrite length_app, length_replicate in Hn.
    unfold m. rewrite <- app_assoc.
    destruct (scan_word k w 10 u pre n n N Hw L H10 ltac:(lia) ltac:(lia)) as (E1 & (y & E2 & Hy) & E3 & E4).
    rewrite E1. cbn [mbind outcome_bind]. rewrite E2. cbn [mbind outcome_bind]. rewrite E3. cbn [mbind outcome_bind].
    replace (pre ++ replicate k 32 ++ w ++ 10 :: u) with ((pre ++ replicate k 32 ++ w) ++ 10 :: u)
      by (by rewrite <- !app_assoc).
    replace (length pre + k + length w)%nat with (length (pre ++ replicate k 32 ++ w))
      by (rewrite !length_app, length_replicate; lia).
    apply newline_stuck.
  - apply Forall_app in L as [_ L]. apply Forall_app in L as [L L'].
    rewrite !length_app, length_replicate in Hn. cbn [length] in Hn.
    unfold m. rewrite <- !app_assoc. cbn [app].
    destruct (scan_word k w 32 (l ++ 10 :: u) pre n n N Hw L blank_not_word ltac:(lia) ltac:(lia))
      as (E1 & (y & E2 & Hy) & E3 & _).
    rewrite E1. cbn [mbind outcome_bind]. rewrite E2. cbn [mbind outcome_bind]. rewrite E3. cbn [mbind outcome_bind].
    replace (pre ++ replicate k 32 ++ w ++ 32 :: l ++ 10 :: u) with
      ((pre ++ replicate k 32 ++ w) ++ (32 :: l) ++ 10 :: u) by (by rewrite <- !app_assoc).
    replace (length pre + k + length w)%nat with (length (pre ++ replicate k 32 ++ w))
      by (rewrite !length_app, length_replicate; lia).
    apply IH. exact L'.
Qed.

(** One request more has been made of the system. *)
Definition ticked (s : tty) : tty := set_io (fun i => IO (input i) (out i) (beeps i) (S (tick i))) s.

Lemma split_run t r s : line_chars t ->
  exists m argv, split_str (t ++ 0 :: r) s = Ret ((m, length (words t), argv), ticked s) /\
    if ok (tenv s) (tick (tio s)) then
      length m = length (t ++ 0 :: r) /\ exists offs, argv = Some offs /\ strings_at m offs = Ret (words t)
    else m = t ++ 0 :: r /\ argv = None.
Proof.
  intros L. unfold split_str.
  assert (Hf : (length t < S (length (t ++ 0%Z :: r)))%nat) by (rewrite length_app; lia).
  pose proof (count_run _ t [] r 0 L Hf) as C. cbn [app length] in C.
  pose proof (fill_run _ t [] r 0 _ [] L Hf eq_refl) as (m & offs & F & Lm & S). cbn [app length] in F, S.
  unfold mbind at 1, ST_bind at 1. unfold lift at 1. rewrite C. cbn [mbind outcome_bind].
  unfold mbind, ST_bind, request. cbn [Nat.add]. destruct (ok _ _) eqn:E; cbn [negb].
  - unfold lift. cbn [Nat.add] in F. rewrite F. cbn [mbind outcome_bind].
    exists m, (Some offs). split; [done|]. split; [done|]. by exists offs.
  - by exists (t ++ 0 :: r), None.
Qed.

Lemma first_newline t : nonul t -> 10 ∈ t -> exists a b, t = a ++ 10 :: b /\ line_chars a.
Proof.
  induction t as [|c t IH]; intros N H; [by apply elem_of_nil in H|]. apply Forall_cons in N as [Hc N].
  destruct (decide (c = 10)) as [-> |D]; [exists [], t; split; [done|constructor]|].
  apply elem_of_cons in H as [H|H]; [by subst|]. destruct (IH N H) as (a & b & -> & La).
  exists (c :: a), b. split; [done|]. by constructor.
Qed.

Lemma no_newline t : nonul t -> 10 ∉ t -> line_chars t.
Proof.
  intros N H. unfold nonul, line_chars in *. rewrite Forall_forall in N |- *. intros x Hx. split; [by apply N|].
  intros ->. done.
Qed.

(** ** The command line of do_command *)

(** The words with a blank between them. *)
Fixpoint join (ws : list (list Z)) : list Z :=
  match ws with
  | [] => []
  | [w] => w
  | w :: ws' => w ++ 32 :: join ws'
  end.

Definition pieces (ws : list (list Z)) : list Z := concat ((fun a => a ++ [32]) <$> ws).

Lemma pieces_join ws : ws <> [] -> pieces ws = join ws ++ [32].
Proof.
  induction ws as [|w ws IH]; [done|]. intros _. unfold pieces. cbn [fmap list_fmap concat]. destruct ws as [|w' ws].
  - cbn. by rewrite app_nil_r.
  - unfold pieces in IH. rewrite IH by done. cbn [join]. rewrite <- !app_assoc. done.
Qed.

Lemma pieces_length ws : sum_list ((fun a => length (a ++ [32])) <$> ws) = length (pieces ws).
Proof.
  induction ws as [|w ws IH]; [done|]. unfold pieces in *. cbn [fmap list_fmap concat sum_list].
  rewrite (length_app (w ++ [32])), <- IH. reflexivity.
Qed.

Lemma join_nonul ws : Forall nonul ws -> nonul (join ws).
Proof.
  induction 1 as [|w ws Hw F IH]; [constructor|]. cbn [join]. destruct ws; [done|].
  apply Forall_app. split; [done|]. by constructor.
Qed.

(** Every [snprintf] has room for its piece and a NUL. *)
Lemma join_args_run ws : forall pre q, (length (pieces ws) < length q)%nat ->
  exists q', join_args ws (pre ++ q) (length pre) = Ret (pre ++ pieces ws ++ q', (length pre + length (pieces ws))%nat) /\
    (length (pieces ws) + length q' = length q)%nat.
Proof.
  induction ws as [|a ws IH]; intros pre q Hq.
  { exists q. cbn. by rewrite Nat.add_0_r. }
  assert (Ep : pieces (a :: ws) = (a ++ [32]) ++ pieces ws) by done.
  rewrite Ep in *. set (p := a ++ [32]) in *. rewrite length_app in Hq.
  assert (Es : snprintf p (length (pre ++ q) - length pre) = p ++ [0]).
  { rewrite length_app. replace (length pre + length q - length pre)%nat with (S (length q - 1)) by lia.
    cbn [snprintf]. by rewrite take_ge by lia. }
  cbn [join_args]. fold p. rewrite Es.
  assert (Lt : length (take (length p + 1) q) = length (p ++ [0%Z])) by (rewrite length_take, length_app; cbn; lia).
  pose proof (poke_at pre _ (p ++ [0]) (drop (length p + 1) q) (length pre) eq_refl Lt) as Ek.
  rewrite take_drop in Ek. rewrite Ek.
  cbn [of_option mbind outcome_bind].
  set (q1 := 0 :: drop (length p + 1) q).
  assert (L1 : length q1 = (length q - length p)%nat) by (unfold q1; cbn [length]; rewrite length_drop; lia).
  replace (pre ++ (p ++ [0]) ++ drop (length p + 1) q) with ((pre ++ p) ++ q1)
    by (unfold q1; rewrite <- !app_assoc; done).
  replace (length pre + length p)%nat with (length (pre ++ p)) by (by rewrite length_app).
  destruct (IH (pre ++ p) q1 ltac:(lia)) as (q' & E & L). rewrite E. exists q'.
  rewrite !length_app in *. split; [|lia]. rewrite <- !app_assoc. do 2 f_equal. lia.
Qed.

Section Command.
Context {W : Type}.
Variable system chdir : list Z -> ST W Z.

(** What [do_command] does: the words go to the shell in one line, and "cd"
    changes the directory of this process too. *)
Definition run_system (ws : list (list Z)) : ST W Z :=
  _ ← system (join ws);
  match ws with
  | name :: dir :: _ => if decide (name = name_cd) then _ ← chdir dir; mret 0 else mret 0
  | [name] => if decide (name = name_cd) then undef else mret 0
  | [] => undef
  end.

Lemma do_command_run junk ws s : ws <> [] -> Forall nonul ws -> (forall n, length (junk n) = n) ->
  do_command system chdir junk ws s = run_system ws s.
Proof.
  intros H F J. unfold do_command. rewrite pieces_length.
  destruct (join_args_run ws [] (junk (length (pieces ws) + 1)%nat)) as (q' & E & L); [rewrite J; lia|].
  cbn [app length Nat.add] in E. rewrite E. rewrite J in L.
  assert (Lp : length (pieces ws) = S (length (join ws))) by (rewrite pieces_join, length_app by done; cbn; lia).
  rewrite decide_False by lia. rewrite Lp, pieces_join by done. rewrite <- app_assoc. cbn [app].
  replace (S (length (join ws)) - 1)%nat with (length (join ws)) by lia.
  rewrite store_at. cbn [mbind outcome_bind]. rewrite cstr_app by (by apply join_nonul). cbn [of_option].
  unfold run_system, mbind, ST_bind. destruct (system (join ws) s) as [[? s']| | |]; try done.
  destruct ws as [|name [|dir ws]]; [done| |]; by case_decide.
Qed.

End Command.

(** ** The loop on a script *)

Section Script.
Context {W : Type}.
Variables do_user do_file : list (list Z) -> ST W Z.
Variable system chdir : list Z -> ST W Z.
Variable junk_command : nat -> list Z.
Variable junk_line : list Z.

(** What a script changes: the world of the commands, what is printed, and the
    lines that are not freed. *)
Record script := Script { sc_world : W; sc_out : list Z; sc_leaks : nat }.

Definition world_effect {A} (m : ST W A) : ST script unit := fun p =>
  '(_, w) ← m (sc_world p); Ret (tt, Script w (sc_out p) (sc_leaks p)).

Definition command_effect (c : command) (ws : list (list Z)) : ST script unit :=
  match c with
  | DoUser => world_effect (do_user ws)
  | DoFile => world_effect (do_file ws)
  | DoCommand => world_effect (run_system system chdir ws)
  | ShellUsage => modify (fun p => Script (sc_world p) (sc_out p ++ usage_text) (sc_leaks p))
  end.

(** One line: nothing for an empty line and after a slash, a block lost for a
    line of blanks, else the command its first word names, if it names one. *)
Definition line_effect (line : list Z) : ST script unit :=
  match line with
  | [] => mret tt
  | c :: _ =>
      if decide (c = 47) then mret tt
      else match words line with
           | [] => modify (fun p => Script (sc_world p) (sc_out p) (S (sc_leaks p)))
           | name :: _ => match get_cmd name with
                          | Some c => command_effect c (words line)
                          | None => mret tt
                          end
           end
  end.

Fixpoint script_effect (ls : list (list Z)) : ST script unit :=
  match ls with
  | [] => mret tt
  | l :: ls' => line_effect l;; script_effect ls'
  end.

Definition view (s : shell) : script := Script (sh_world s) (out (tio (sh_tty s))) (leaks s).

(** The terminal but for what is printed and read and the requests made. *)
Definition kept (t t' : tty) : Prop :=
  tenv t' = tenv t /\ tmodes t' = tmodes t /\ thist t' = thist t /\ thooks t' = thooks t /\ files t' = files t.

#[local] Instance kept_preorder : PreOrder kept.
Proof. split; [by intros t|]. intros t u v (?&?&?&?&?) (?&?&?&?&?). unfold kept. split_and!; congruence. Qed.

(** [m] from [s] has the effect of [r], failures included. *)
Definition simulates (rest : list rd) (m : ST shell unit) (r : ST script unit) (s : shell) : Prop :=
  match r (view s) with
  | Ret (_, p) => runs m s (fun _ s' => view s' = p /\ kept (sh_tty s) (sh_tty s') /\ input (tio (sh_tty s')) = rest)
  | Abort => m s = Abort
  | Undef => m s = Undef
  | NoFuel => m s = NoFuel
  end.

(** After a step that changes nothing visible. *)
Lemma simulates_step {A} (a : A) rest (m : ST shell A) (k : A -> ST shell unit) r s s1 :
  m s = Ret (a, s1) -> view s1 = view s -> kept (sh_tty s) (sh_tty s1) -> simulates rest (k a) r s1 ->
  simulates rest (a ← m; k a) r s.
Proof.
  intros E V K S. unfold simulates in *. rewrite V in S. destruct (r (view s)) as [[? p]| | |].
  - destruct S as (x & s2 & E2 & V2 & K2 & I2). exists x, s2.
    split; [by rewrite (bind_ret _ _ _ _ _ E)|]. split; [done|]. split; [by etrans|done].
  - by rewrite (bind_ret _ _ _ _ _ E).
  - by rewrite (bind_ret _ _ _ _ _ E).
  - by rewrite (bind_ret _ _ _ _ _ E).
Qed.

Lemma simulates_world {A} (m : ST W A) s :
  simulates (input (tio (sh_tty s))) (_ ← on_world m; mret tt) (world_effect m) s.
Proof.
  unfold simulates, world_effect, runs, on_world, mbind, ST_bind, outcome_bind. cbn [sc_world view].
  destruct (m (sh_world s)) as [[a w]| | |]; try done. eexists _, _. by split.
Qed.

Lemma simulates_bind rest rest' (m k : ST shell unit) (r r' : ST script unit) s :
  simulates rest m r s -> (forall s1, kept (sh_tty s) (sh_tty s1) -> input (tio (sh_tty s1)) = rest -> simulates rest' k r' s1) ->
  simulates rest' (m;; k) (r;; r') s.
Proof.
  intros S K. unfold simulates at 1. unfold mbind at 1, ST_bind at 1. unfold simulates in S.
  destruct (r (view s)) as [[? p]| | |].
  - destruct S as ([] & s1 & E & V & K1 & I1). specialize (K s1 K1 I1). unfold simulates in K. rewrite V in K.
    destruct (r' p) as [[? q]| | |]; [|by rewrite (bind_ret _ _ _ _ _ E)..].
    destruct K as (x & s2 & E2 & V2 & K2 & I2). exists x, s2. rewrite (bind_ret _ _ _ _ _ E).
    split; [done|]. split; [done|]. split; [by etrans|done].
  - unfold mbind, ST_bind. by rewrite S.
  - unfold mbind, ST_bind. by rewrite S.
  - unfold mbind, ST_bind. by rewrite S.
Qed.

Lemma simulates_ret s : simulates (input (tio (sh_tty s))) (mret tt) (mret tt) s.
Proof. unfold simulates. by exists tt, s. Qed.

Hypothesis command_block : forall n, length (junk_command n) = n.

Lemma execute_run c ws s : ws <> [] -> Forall nonul ws ->
  simulates (input (tio (sh_tty s))) (_ ← execute do_user do_file system chdir junk_command c ws; mret tt)
    (command_effect c ws) s.
Proof.
  intros H F. destruct c; cbn [execute command_effect]; try apply simulates_world.
  - pose proof (simulates_world (run_system system chdir ws) s) as S. unfold simulates, runs, mbind, ST_bind, on_world in *.
    rewrite (do_command_run system chdir junk_command) by done. exact S.
  - unfold simulates. cbn. eexists _, _. split; [reflexivity|]. done.
Qed.

(** Words contain neither blanks nor NUL. *)
Lemma words_nonul t : forall cur, nonul cur -> nonul t -> Forall nonul (words_from cur t).
Proof.
  induction t as [|c t IH]; intros cur Hc Ht; cbn [words_from].
  - case_decide; [constructor|]. by constructor.
  - apply Forall_cons in Ht as [H0 Ht]. case_decide.
    + case_decide; [apply IH; [constructor|done]|]. constructor; [done|]. apply IH; [constructor|done].
    + apply IH; [|done]. apply Forall_app. split; [done|]. by constructor.
Qed.

Lemma run_line_run line s : line_chars line -> all_ok (sh_tty s) ->
  simulates (input (tio (sh_tty s))) (run_line do_user do_file system chdir junk_command line) (line_effect line) s.
Proof.
  intros L A. unfold run_line.
  destruct line as [|c t].
  { eapply simulates_step; [reflexivity|by destruct s as [[] ? ?]|by destruct s as [[] ? ?]|].
    rewrite decide_False by lia. destruct s as [[] ? ?]. apply simulates_ret. }
  pose proof (Forall_inv L) as Hc. cbn in Hc.
  eapply (simulates_step c); [reflexivity|by destruct s as [[] ? ?]|by destruct s as [[] ? ?]|].
  replace (Shell (sh_tty s) (sh_world s) (leaks s)) with s by (by destruct s). cbn [line_effect].
  destruct (decide (c = 47)) as [D|D]; [rewrite decide_False by tauto; apply simulates_ret|].
  rewrite decide_True by tauto.
  destruct (split_run (c :: t) [] (sh_tty s) L) as (m & argv & E & P). rewrite (A _) in P.
  destruct P as (_ & offs & -> & S).
  set (s1 := Shell (ticked (sh_tty s)) (sh_world s) (leaks s)).
  assert (E1 : on_tty (split_str ((c :: t) ++ [0])) s = Ret ((m, length (words (c :: t)), Some offs), s1))
    by (unfold on_tty; by rewrite E).
  eapply simulates_step; [exact E1|done|done|]. clear E E1. cbn beta iota.
  change (input (tio (sh_tty s))) with (input (tio (sh_tty s1))).
  assert (F : Forall nonul (words (c :: t))).
  { apply words_nonul; [constructor|]. by apply line_nonul. }
  destruct (words (c :: t)) as [|name ws] eqn:Ew.
  { cbn [length]. rewrite decide_True by done. unfold simulates. cbn. eexists _, _. split; [reflexivity|]. done. }
  cbn [length]. rewrite decide_False by lia.
  assert (E2 : on_tty (lift (strings_at m offs)) s1 = Ret (name :: ws, s1))
    by (unfold on_tty, lift; rewrite S; reflexivity).
  eapply simulates_step; [exact E2|done|done|]. cbn beta iota.
  destruct (get_cmd name) as [cmd|]; [|apply simulates_ret]. by apply execute_run.
Qed.

Lemma take_terminated l r : line_chars l ->
  take_line (Byte <$> (l ++ 10 :: r)) = (l, true, Byte <$> r).
Proof.
  induction 1 as [|c l [_ Hc] _ IH]; cbn; [by rewrite decide_True|]. rewrite decide_False by done.
  change (list_fmap _ _ Byte (l ++ 10 :: r)) with (Byte <$> (l ++ 10 :: r)). by rewrite IH.
Qed.

Lemma take_last l : line_chars l -> take_line (Byte <$> l) = (l, false, []).
Proof.
  induction 1 as [|c l [_ Hc] _ IH]; [done|]. cbn. rewrite decide_False by done.
  change (list_fmap _ _ Byte l) with (Byte <$> l). by rewrite IH.
Qed.

Lemma notty_line t : isatty (tenv t) = false -> all_ok t -> exists t1,
  linenoise junk_line KX_PROMPT t = Ret (line_read (input (tio t)), t1) /\ unread t t1 /\
  input (tio t1) = (take_line (input (tio t))).2.
Proof.
  intros T A.
  pose proof (notty_runs (S (length (input (tio t)))) [] 0 t (Nat.le_refl _) ltac:(lia))
    as (r & t1 & E & U & P).
  exists t1. assert (El : linenoise junk_line KX_PROMPT t = Ret (r, t1)).
  { unfold linenoise. unfold mbind at 1, ST_bind at 1, gets at 1. rewrite T. cbn [negb]. exact E. }
  rewrite El. cbn [app] in P. unfold line_read. destruct (take_line _) as [[l b] rest].
  destruct P as [_ P]. destruct (P A) as [-> ->]. split; [|done]. by destruct l, b.
Qed.

(** The lines of a text whose last one may lack its newline. *)
Definition script_lines (ls : list (list Z)) (rest : list Z) : list (list Z) :=
  ls ++ (if decide (rest = []) then [] else [rest]).

Lemma lines_loop_run rest : line_chars rest -> forall ls fuel s,
  (length (script_lines ls rest) < fuel)%nat ->
  Forall line_chars ls -> isatty (tenv (sh_tty s)) = false -> all_ok (sh_tty s) ->
  input (tio (sh_tty s)) = Byte <$> (lines_text ls ++ rest) ->
  simulates [] (lines_loop do_user do_file system chdir junk_command junk_line fuel)
    (script_effect (script_lines ls rest)) s.
Proof.
  intros Lr. induction ls as [|l ls IH]; intros fuel s Hf F T A I.
  - (* the last line, or the end *)
    destruct fuel as [|f]; [lia|]. cbn [lines_loop].
    destruct (notty_line (sh_tty s) T A) as (t1 & E & U & I1). rewrite I in E, I1. cbn [lines_text fmap list_fmap concat app] in E, I1.
    unfold lines_text in E, I1. cbn [fmap list_fmap concat app] in E, I1.
    pose proof (take_last rest Lr) as Et. rewrite Et in I1. unfold line_read in E. rewrite Et in E.
    destruct U as (U1 & U2 & U3 & U4 & U5 & U6).
    eapply simulates_step; [unfold on_tty; rewrite E; reflexivity|by unfold view; cbn; rewrite U2|done|].
    set (s1 := Shell t1 (sh_world s) (leaks s)).
    assert (I1' : [] = input (tio (sh_tty s1))) by done.
    unfold script_lines in *. cbn [app] in *. destruct rest as [|x rest]; [rewrite decide_True in * by done|rewrite decide_False in * by done].
    { cbn [script_effect]. rewrite I1'. apply simulates_ret. }
    cbn [script_effect length] in *. apply (simulates_bind []).
    { rewrite I1'. apply run_line_run; [done|]. intros n. cbn. rewrite U1. apply A. }
    intros s2 (K1 & _) I2. destruct f as [|f]; [lia|]. cbn [lines_loop].
    destruct (notty_line (sh_tty s2)) as (t3 & E3 & U' & I3).
    { by rewrite K1; cbn; rewrite U1. } { intros n. rewrite K1. cbn. rewrite U1. apply A. }
    rewrite I2 in E3, I3. cbn in E3, I3. destruct U' as (V1 & V2 & V3 & V4 & V5 & V6).
    eapply simulates_step; [unfold on_tty; rewrite E3; reflexivity|by unfold view; cbn; rewrite V2|done|].
    rewrite <- I3. exact (simulates_ret (Shell t3 _ _)).
  - apply Forall_cons in F as [Ll F]. unfold script_lines in *. cbn [app length script_effect] in *.
    destruct fuel as [|f]; [lia|]. cbn [lines_loop].
    destruct (notty_line (sh_tty s) T A) as (t1 & E & U & I1). rewrite I in E, I1.
    assert (El : lines_text (l :: ls) ++ rest = l ++ 10 :: (lines_text ls ++ rest))
      by (unfold lines_text; cbn [fmap list_fmap concat]; by rewrite <- !app_assoc).
    pose proof (take_terminated l (lines_text ls ++ rest) Ll) as Et.
    rewrite El, Et in I1. unfold line_read in E. rewrite El, Et in E.
    assert (E' : linenoise junk_line KX_PROMPT (sh_tty s) = Ret (Some l, t1)) by (rewrite E; by destruct l).
    destruct U as (U1 & U2 & U3 & U4 & U5 & U6).
    eapply simulates_step; [unfold on_tty; rewrite E'; reflexivity|by unfold view; cbn; rewrite U2|done|].
    set (s1 := Shell t1 (sh_world s) (leaks s)). cbn [snd] in I1.
    apply (simulates_bind (input (tio (sh_tty s1)))).
    { apply run_line_run; [done|]. intros n. cbn. rewrite U1. apply A. }
    intros s2 (K1 & _) I2. apply IH; [lia|done| | |by rewrite I2].
    { by rewrite K1; cbn; rewrite U1. } { intros n. rewrite K1. cbn. rewrite U1. apply A. }
Qed.

End Script.

(** ** The loop at the end of the input of a terminal *)

Section Endless.
Context {W : Type}.
Variables do_user do_file : list (list Z) -> ST W Z.
Variable system chdir : list Z -> ST W Z.
Variable junk_command : nat -> list Z.
Variable junk_line : list Z.

(** [s] needs what a session of the editor needs. *)
Definition terminal_ready (t : tty) : Prop :=
  isatty (tenv t) = true /\ (forall t', tenv t' = tenv t -> isUnsupportedTerm t' = Ret (false, t')) /\
  exists hl w, ready junk_line LINENOISE_MAX_LINE KX_PROMPT t hl w.

Lemma terminal_ready_hooks t h : terminal_ready t -> (match completionCallback h with Some f => forall x, f x = [] | None => True end) ->
  terminal_ready (set_hooks (fun _ => h) t).
Proof.
  intros (T & U & hl & w & R) H. split; [done|]. split; [exact U|]. exists hl, w. destruct R. by split.
Qed.

Lemma eof_line t : terminal_ready t -> input (tio t) = [] -> exists t1,
  linenoise junk_line KX_PROMPT t = Ret (Some [], t1) /\ terminal_ready t1 /\ input (tio t1) = [].
Proof.
  intros (T & U & hl & w & R) I. pose proof (tty_runs junk_line KX_PROMPT t hl w T (U t eq_refl) R) as P.
  rewrite I in P. cbn [length spec_loop next_rd] in P.
  destruct P as (line & t1 & E & El & Hh & It & _ & _ & _ & _ & Te & Tc & Tm).
  exists t1. rewrite E. subst line. split; [|split; [|done]].
  { destruct (tabs t); reflexivity. }
  split; [by rewrite Te|]. split; [intros t' E'; apply U; by rewrite E', Te|].
  exists (hist_add (history_max_len (thist t)) hl []), w. destruct R. split; try done; rewrite ?Te; try done.
  - apply hist_add_nonul; [done|constructor].
  - by rewrite Tm.
  - intros n. rewrite Te. apply rd_ok.
  - unfold no_completions. by rewrite Tc.
Qed.

Lemma lines_loop_stuck fuel : forall s, terminal_ready (sh_tty s) -> input (tio (sh_tty s)) = [] ->
  lines_loop do_user do_file system chdir junk_command junk_line fuel s = NoFuel.
Proof.
  induction fuel as [|f IH]; intros s R I; [done|]. cbn [lines_loop].
  destruct (eof_line _ R I) as (t1 & E & R1 & I1).
  rewrite (bind_ret _ _ s (Some []) (Shell t1 (sh_world s) (leaks s))) by (unfold on_tty; by rewrite E).
  rewrite (bind_ret _ _ _ tt (Shell t1 (sh_world s) (leaks s))) by done. by apply IH.
Qed.

End Endless.

(** ** Properties *)

(** C9: [split_str] of a line without a newline ends, counts the words of the
    line and leaves a pointer to each of them, in order, ended by a NUL inside
    the line's own block, of which the size does not change; when the array
    cannot be allocated the line is untouched and the count is returned all
    the same.  On a line with a newline the first loop never ends, whatever the fuel. *)
Theorem split_str_spec t r s : nonul t ->
  (10 ∉ t -> exists m argv, split_str (t ++ 0 :: r) s = Ret ((m, length (words t), argv), ticked s) /\
     if ok (tenv s) (tick (tio s)) then
       length m = length (t ++ 0 :: r) /\ exists offs, argv = Some offs /\ strings_at m offs = Ret (words t)
     else m = t ++ 0 :: r /\ argv = None) /\
  (10 ∈ t -> forall fuel, count_args fuel (t ++ 0 :: r) 0 0 = NoFuel).
Proof.
  intros N. split; [intros H; apply split_run; by apply no_newline|].
  intros H fuel. destruct (first_newline t N H) as (a & b & -> & La). rewrite <- app_assoc. cbn [app].
  exact (newline_before fuel a [] (b ++ 0 :: r) 0 La).
Qed.

(** "cd  a" gives the two words "cd" and "a". *)
Lemma split_str_spec_witness :
  exists m argv, split_str ([99; 100; 32; 32; 97] ++ [0]) tty0 = Ret ((m, 2%nat, argv), ticked tty0) /\
    exists offs, argv = Some offs /\ strings_at m offs = Ret [[99; 100]; [97]].
Proof.
  destruct (split_str_spec [99; 100; 32; 32; 97] [] tty0) as [H _]; [by repeat constructor|].
  destruct H as (m & argv & E & P); [apply (bool_decide_unpack _); vm_compute; exact I|].
  exists m, argv. split; [exact E|]. destruct P as (_ & offs & P). exists offs. exact P.
Defined.

(** C8: with the input no terminal, [kx_loop] runs the lines of the script in
    order and ends: the commands' effects, what is printed and the lines lost
    are those of [script_effect], a line at a time; a command that does not
    return, or an undefined "cd", stops it there.  The history it saves is the
    one it loaded, added to what was there: no line of the session joins it. *)
Theorem kx_loop_script {W} do_user do_file system chdir junk_command junk_line fuel (s : @shell W) hl saved ls rest :
  (forall n, length (junk_command n) = n) ->
  isatty (tenv (sh_tty s)) = false -> all_ok (sh_tty s) ->
  hist_rep (thist (sh_tty s)) hl -> (0 < history_max_len (thist (sh_tty s)))%nat ->
  files (sh_tty s) !! history_file = lines_text <$> saved -> Forall plain_line (default [] saved) ->
  input (tio (sh_tty s)) = Byte <$> (lines_text ls ++ rest) -> Forall line_chars ls -> line_chars rest ->
  (length (script_lines ls rest) < fuel)%nat ->
  match script_effect do_user do_file system chdir (script_lines ls rest) (view s) with
  | Ret (_, p) => runs (kx_loop do_user do_file system chdir junk_command junk_line fuel) s (fun _ s' =>
      view s' = p /\ input (tio (sh_tty s')) = [] /\
      files (sh_tty s') = <[history_file :=
        lines_text (fold_left (hist_add (history_max_len (thist (sh_tty s)))) (default [] saved) hl)]> (files (sh_tty s)))
  | Abort => kx_loop do_user do_file system chdir junk_command junk_line fuel s = Abort
  | Undef => kx_loop do_user do_file system chdir junk_command junk_line fuel s = Undef
  | NoFuel => kx_loop do_user do_file system chdir junk_command junk_line fuel s = NoFuel
  end.
Proof.
  intros J T A Hh Hm Hf Fp I F Lr Hfuel.
  assert (Ld : runs (linenoiseHistoryLoad history_file) (sh_tty s) (fun _ t => only_hist (sh_tty s) t /\
     hist_rep (thist t) (fold_left (hist_add (history_max_len (thist (sh_tty s)))) (default [] saved) hl))).
  { unfold linenoiseHistoryLoad. apply runs_bind, runs_gets. rewrite Hf. destruct saved as [sv|]; cbn [fmap option_fmap option_map].
    - apply runs_bind. eapply runs_mono; [apply (load_runs sv _ _ hl Fp (Nat.le_refl _) Hh Hm)|].
      intros [] t (O & _ & l' & Hl & E). apply runs_ret. split; [done|]. rewrite (E A) in Hl. exact Hl.
    - by apply runs_ret. }
  destruct Ld as (r & t & E & (O1 & O2 & O3 & O4 & O5 & O6) & Ht).
  set (t2 := set_hooks (fun h => Hooks (Some do_completion) (hintsCallback h) (freeHintsCallback h) (freed_hints h)) t).
  set (s2 := Shell t2 (sh_world s) (leaks s)).
  assert (Ek : kx_loop do_user do_file system chdir junk_command junk_line fuel s =
    (lines_loop do_user do_file system chdir junk_command junk_line fuel;;
     _ ← on_tty (linenoiseHistorySave history_file); mret tt) s2).
  { unfold kx_loop. rewrite (bind_ret _ _ _ r (Shell t (sh_world s) (leaks s))) by (unfold on_tty; by rewrite E).
    by rewrite (bind_ret _ _ _ tt s2). }
  assert (V : view s2 = view s) by (unfold view; cbn; by rewrite O3).
  pose proof (lines_loop_run do_user do_file system chdir junk_command junk_line J rest Lr ls fuel s2 Hfuel F) as S.
  unfold simulates in S. rewrite V in S. cbn in S.
  specialize (S ltac:(by rewrite O1) ltac:(intros n; cbn; rewrite O1; apply A) ltac:(by rewrite O2)).
  destruct (script_effect _ _ _ _ _ _) as [[? p]| | |]; [|rewrite Ek; unfold mbind, ST_bind; by rewrite S..].
  unfold runs. rewrite Ek. match goal with |- ex (fun a => ex (fun s' => ?m ?s = _ /\ @?Q a s')) => change (runs m s Q) end.
  destruct S as ([] & s3 & E3 & V3 & (K1 & K2 & K3 & K4 & K5) & I3). apply runs_bind. exists tt, s3. split; [done|].
  assert (Hs : hist_rep (thist (sh_tty s3)) (fold_left (hist_add (history_max_len (thist (sh_tty s)))) (default [] saved) hl))
    by (by rewrite K3).
  destruct (save_runs history_file (sh_tty s3) _ Hs) as (r4 & t4 & E4 & _ & (Q1 & Q2 & Q3) & W4 & A4).
  apply runs_bind. exists r4, (Shell t4 (sh_world s3) (leaks s3)). split; [unfold on_tty; by rewrite E4|]. apply runs_ret.
  rewrite <- V3. unfold view. cbn. rewrite Q2, Q3, I3. split; [done|]. split; [done|].
  rewrite A4 in W4; [|intros n; rewrite K1; cbn; rewrite O1; apply A].
  destruct W4 as [[_ W4]|[W4 _]]; [|done]. rewrite W4, K5. cbn. by rewrite O6.
Qed.


(** A world that logs what is run, and the script "help", " /x", "cd  a" and a
    last line "user" without a newline. *)
Definition log_run (ws : list (list Z)) : ST (list (list Z)) Z := fun w => Ret (0, w ++ ws).
Definition log_call (line : list Z) : ST (list (list Z)) Z := fun w => Ret (0, w ++ [line]).
Definition script_demo : list (list Z) := [name_help; [32; 47; 120]; [99; 100; 32; 32; 97]].
Definition tty_script : tty :=
  Tty (Env (fun _ => true) false None None) (IO (Byte <$> (lines_text script_demo ++ name_user)) [] 0 0)
    (tmodes tty0) hist0 (thooks tty0) ∅.

Lemma kx_loop_script_witness :
  runs (kx_loop log_run log_run log_call log_call (fun n => replicate n 7) [] 5) (Shell tty_script [] 0) (fun _ s' =>
    sh_world s' = [[99; 100; 32; 97]; [97]; name_user] /\ out (tio (sh_tty s')) = usage_text).
Proof.
  pose proof (kx_loop_script log_run log_run log_call log_call (fun n => replicate n 7) [] 5
    (Shell tty_script [] 0) [] None script_demo name_user) as H.
  specialize (H (fun n => length_replicate n 7) eq_refl (fun n => eq_refl)).
  specialize (H ltac:(split; [done|split; [apply Nat.leb_le; reflexivity|done]]) ltac:(apply Nat.ltb_lt; reflexivity) eq_refl).
  specialize (H ltac:(constructor) eq_refl ltac:(apply (bool_decide_unpack _); vm_compute; exact I)
    ltac:(apply (bool_decide_unpack _); vm_compute; exact I) ltac:(apply Nat.ltb_lt; reflexivity)).
  assert (E : script_effect log_run log_run log_call log_call (script_lines script_demo name_user)
     (view (Shell tty_script [] 0)) = Ret (tt, Script [[99; 100; 32; 97]; [97]; name_user] usage_text 0))
    by (vm_compute; reflexivity).
  rewrite E in H. eapply runs_mono; [exact H|]. intros [] s' (V & _ & _). injection V as V1 V2 V3. done.
Defined.

(** C39: on a terminal [kx_loop] does not end at the end of the input: the
    editor returns an empty line again and again, so no amount of fuel is
    enough. *)
Theorem kx_loop_eof_diverges {W} do_user do_file system chdir junk_command junk_line fuel (s : @shell W) :
  terminal_ready junk_line (sh_tty s) -> input (tio (sh_tty s)) = [] -> files (sh_tty s) !! history_file = None ->
  kx_loop do_user do_file system chdir junk_command junk_line fuel s = NoFuel.
Proof.
  intros R I F. set (t2 := set_hooks (set_completion (Some do_completion)) (sh_tty s)).
  unfold kx_loop. rewrite (bind_ret _ _ s (-1) s).
  2:{ unfold on_tty, linenoiseHistoryLoad, mbind, ST_bind, gets. rewrite F. by destruct s. }
  rewrite (bind_ret _ _ s tt (Shell t2 (sh_world s) (leaks s))) by done.
  unfold mbind at 1, ST_bind at 1. rewrite lines_loop_stuck; [done| |done].
  exact (terminal_ready_hooks junk_line (sh_tty s) (thooks t2) R (fun _ => eq_refl)).
Qed.

Lemma kx_loop_eof_diverges_witness :
  kx_loop log_run log_run log_call log_call (fun n => replicate n 7) (replicate LINENOISE_MAX_LINE 7) 1000
    (Shell tty0 [] 0) = NoFuel.
Proof.
  apply kx_loop_eof_diverges; [|reflexivity|reflexivity]. split; [reflexivity|].
  split. { intros t' E. unfold isUnsupportedTerm, gets. rewrite E. reflexivity. }
  exists [], 80. split; try reflexivity.
  - rewrite length_replicate. split; [apply Nat.ltb_lt; reflexivity|apply Nat.leb_le; reflexivity].
  - split; [reflexivity|]. split; [apply Nat.leb_le; reflexivity|]. reflexivity.
  - constructor.
  - apply Nat.ltb_lt. reflexivity.
  - intros n. reflexivity.
Defined.
