(* ===== verification/Net.v ===== *)
(** * The connection to the server (src/src/net.c, src/src/net.h)

    The table of actions, the formatting of a command, and sending one: the
    reply goes to the handler of the action.  [redisCommand] is an argument; a
    reply it gives is counted as live until [freeReplyObject]. *)

From Stdlib Require Import ZArith Lia Ascii String.
From stdpp Require Import prelude gmap.
From S2P Require Import Prelude.

(** The bytes of a literal. *)

(** ** Formatting *)

Inductive arg := AStr (s : list Z) | AInt (n : Z) | ALong (n : Z).

(** "%d" *)
Definition dec_signed (n : Z) : list Z := if decide (n < 0) then 45 :: dec (- n) else dec n.

(** [vsnprintf] with the directives "%s", "%d" and "%lu"; an argument of another type, or a
    missing one, is not defined. *)
Fixpoint vformat (fmt : list Z) (args : list arg) : outcome (list Z) :=
  match fmt with
  | 37 :: 115 :: fmt' =>
      match args with AStr s :: args' => r ← vformat fmt' args'; Ret (s ++ r) | _ => Undef end
  | 37 :: 100 :: fmt' =>
      match args with AInt n :: args' => r ← vformat fmt' args'; Ret (dec_signed n ++ r) | _ => Undef end
  | 37 :: 108 :: 117 :: fmt' =>
      match args with ALong n :: args' => r ← vformat fmt' args'; Ret (dec n ++ r) | _ => Undef end
  | 37 :: _ => Undef
  | c :: fmt' => r ← vformat fmt' args; Ret (c :: r)
  | [] => Ret []
  end.

Definition INT_MAX : Z := 2 ^ 31 - 1.

(** ** Data *)

Inductive kxtype := NODE_SET | NODE_GET | USER_REG | USER_LOGIN | USER_GET | FILE_CRYPT | FILE_GETLIST | FILE_GET.

#[export] Instance kxtype_eq : EqDecision kxtype.
Proof. solve_decision. Defined.

(** [redisReply]: the type, the string ([None]: NULL) and the elements. *)
Inductive redisReply := Reply (r_type : Z) (r_str : option (list Z)) (r_element : list redisReply).
Definition r_type (r : redisReply) : Z := match r with Reply t _ _ => t end.
Definition r_str (r : redisReply) : option (list Z) := match r with Reply _ s _ => s end.
Definition r_element (r : redisReply) : list redisReply := match r with Reply _ _ l => l end.

Definition REDIS_REPLY_ARRAY : Z := 2.

(** The handlers the program installs: [kx_set_reply] here, the others in kx_user.c
    and kx_file.c. *)
Inductive synccallback := KxSetReply | KxUserReply | KxFileReply.

(** The fields [exec] and [reply] are never used. *)
Record action := Action { a_type : kxtype; cmdline : list Z; syncexec : option synccallback }.

Open Scope string_scope.

Definition acs0 : list action := [
  Action NODE_SET (text "HMSET node:%s uuid %s ip %s mac %s") (Some KxSetReply);
  Action USER_REG (text "HMSET node:%s:user:%s username %s password %s isonline %d") (Some KxSetReply);
  Action USER_LOGIN (text "HMSET node:%s:user:%s isonline %d") (Some KxSetReply);
  Action USER_GET (text "HGETALL node:%s:user:%s") None;
  Action NODE_GET (text "HMSET node:%s") None;
  Action FILE_CRYPT (text "HMSET fileuuid:%lu filename %s path %s uuid %lu user %s muuid %s") (Some KxSetReply);
  Action FILE_GET (text "HGETALL %s") None;
  Action FILE_GETLIST (text "KEYS node:%s:user:%s:files:*") None].

Definition text_error : list Z := text " error: ".
Definition text_connection : list Z := text "Connection error: ".
Definition text_context : list Z := text "can't allocate redis context".

Close Scope string_scope.

Section Net.
Context {HP : Type} `{!Allocator HP} {R : Type}.

(** hiredis: a command gives a reply or NULL; a connection gives a context or
    NULL; [err] and [errstr] read the context. *)
Variable redisCommand : Z -> list Z -> ST R (option redisReply).
Variable redisConnectWithTimeout : list Z -> Z -> ST R Z.
Variable redisFree : Z -> ST R unit.
Variable err : Z -> R -> bool.
Variable errstr : Z -> R -> list Z.

(** [acs] is the global table, [live_replies] the replies not freed,
    [contexts] the field [context] of the connections. *)
Record net := Net {
  nheap : HP;
  redis : R;
  contexts : gmap Z Z;
  acs : list action;
  live_replies : nat;
  nout : list Z
}.

Definition on_nheap {A} (m : ST HP A) : ST net A := fun s =>
  '(a, h) ← m (nheap s); Ret (a, Net h (redis s) (contexts s) (acs s) (live_replies s) (nout s)).
Definition on_redis {A} (m : ST R A) : ST net A := fun s =>
  '(a, r) ← m (redis s); Ret (a, Net (nheap s) r (contexts s) (acs s) (live_replies s) (nout s)).
Definition nprint (t : list Z) : ST net unit :=
  modify (fun s => Net (nheap s) (redis s) (contexts s) (acs s) (live_replies s) (nout s ++ t)).
Definition set_acs (l : list action) : ST net unit :=
  modify (fun s => Net (nheap s) (redis s) (contexts s) l (live_replies s) (nout s)).
Definition set_replies (f : nat -> nat) : ST net unit :=
  modify (fun s => Net (nheap s) (redis s) (contexts s) (acs s) (f (live_replies s)) (nout s)).
Definition set_context (p c : Z) : ST net unit :=
  modify (fun s => Net (nheap s) (redis s) (<[p := c]> (contexts s)) (acs s) (live_replies s) (nout s)).
(** [exit(1)] *)
Definition exit {A} : ST net A := fun _ => Abort.
Definition nlift {A} (m : outcome A) : ST net A := fun s => a ← m; Ret (a, s).

(** ** Operations *)

(** The loop over the table: the last entry of the type, as an index; -1 for NULL. *)
Fixpoint search_from (l : list action) (type : kxtype) (i : nat) (ac : Z) : Z :=
  match l with
  | [] => ac
  | a :: l' => search_from l' type (S i) (if decide (a_type a = type) then Z.of_nat i else ac)
  end.

Definition kx_search_action (type : kxtype) : ST net Z := gets (fun s => search_from (acs s) type 0 (-1)).

(** [ac->cmdline] and the others through the pointer. *)
Definition deref_action (ac : Z) : ST net action := fun s =>
  if decide (ac < 0) then Undef else a ← of_option (acs s !! Z.to_nat ac); Ret (a, s).

(** [ac->syncexec = f] *)
Definition set_syncexec (ac : Z) (f : synccallback) : ST net unit :=
  a ← deref_action ac;
  l ← gets acs;
  set_acs (<[Z.to_nat ac := Action (a_type a) (cmdline a) (Some f)]> l).

Definition kx_set_reply (reply : redisReply) : ST net unit :=
  match r_str reply with
  | Some t => nprint (t ++ [10])
  | None => mret tt
  end.

Definition sizeof_kxsyncnet : Z := 8.

Definition kx_sync_creat_net (addr : list Z) (port : Z) : ST net Z :=
  p ← on_nheap (a_alloc sizeof_kxsyncnet);
  if decide (p = 0) then mret 0 else
  c ← on_redis (redisConnectWithTimeout addr port);
  set_context p c;;
  bad ← gets (fun s => err c (redis s));
  if decide (c = 0 \/ bad = true) then
    (if decide (c <> 0) then
       e ← gets (fun s => errstr c (redis s));
       nprint (text_connection ++ e ++ [10]);;
       on_redis (redisFree c)
     else nprint (text_connection ++ text_context ++ [10]));;
    exit
  else mret p.

Definition deref_net (p : Z) : ST net Z := fun s => c ← of_option (contexts s !! p); Ret (c, s).

Definition kx_free_net (p : Z) : ST net unit :=
  c ← deref_net p;
  on_redis (redisFree c);;
  on_nheap (a_free p).

(** The handlers of the client. *)
Variable client_reply : synccallback -> redisReply -> ST net unit.

Definition run_handler (f : synccallback) (reply : redisReply) : ST net unit :=
  match f with
  | KxSetReply => kx_set_reply reply
  | _ => client_reply f reply
  end.

Definition kx_command (c : Z) (cmd : list Z) (ac : Z) : ST net unit :=
  reply ← on_redis (redisCommand c cmd);
  match reply with
  | None =>
      e ← gets (fun s => errstr c (redis s));
      nprint (cmd ++ text_error ++ e ++ [10])
  | Some reply =>
      set_replies S;;
      a ← deref_action ac;
      match syncexec a with
      | None => undef
      | Some f => run_handler f reply;; set_replies pred
      end
  end.

(** [vsnprintf] returns a negative number when the text is too long for an
    [int]. *)
Definition kx_sync_send_cmd (p : Z) (ac : Z) (fmt : list Z) (args : list arg) : ST net unit :=
  if decide (ac < 0) then mret tt else
  t ← nlift (vformat fmt args);
  if decide (INT_MAX < Z.of_nat (length t)) then mret tt else
  if decide (Z.of_nat (length t) = INT_MAX) then undef else
  ptr ← on_nheap (a_alloc (Z.of_nat (length t) + 1));
  if decide (ptr = 0) then mret tt else
  c ← deref_net p;
  kx_command c t ac;;
  on_nheap (a_free ptr).

End Net.

(** ** The requests the client makes *)

Inductive request :=
  | SetNode (id ip mac : list Z)
  | Register (id user pwd : list Z)
  | GetUser (id user : list Z)
  | AddFile (fid : Z) (fname path user id : list Z)
  | GetFile (key : list Z).

Definition type_of (r : request) : kxtype :=
  match r with
  | SetNode _ _ _ => NODE_SET | Register _ _ _ => USER_REG | GetUser _ _ => USER_GET
  | AddFile _ _ _ _ _ => FILE_CRYPT | GetFile _ => FILE_GET
  end.

(** The arguments the callers pass. *)
Definition args_of (r : request) : list arg :=
  match r with
  | SetNode id ip mac => [AStr id; AStr id; AStr ip; AStr mac]
  | Register id user pwd => [AStr id; AStr user; AStr user; AStr pwd; AInt 1]
  | GetUser id user => [AStr id; AStr user]
  | AddFile fid fname path user id => [ALong fid; AStr fname; AStr path; ALong fid; AStr user; AStr id]
  | GetFile key => [AStr key]
  end.

(** The command each of them is. *)
Open Scope string_scope.
Definition command_text (r : request) : list Z :=
  match r with
  | SetNode id ip mac => text "HMSET node:" ++ id ++ text " uuid " ++ id ++ text " ip " ++ ip ++ text " mac " ++ mac
  | Register id user pwd =>
      text "HMSET node:" ++ id ++ text ":user:" ++ user ++ text " username " ++ user ++ text " password " ++ pwd ++
      text " isonline 1"
  | GetUser id user => text "HGETALL node:" ++ id ++ text ":user:" ++ user
  | AddFile fid fname path user id =>
      text "HMSET fileuuid:" ++ dec fid ++ text " filename " ++ fname ++ text " path " ++ path ++
      text " uuid " ++ dec fid ++ text " user " ++ user ++ text " muuid " ++ id
  | GetFile key => text "HGETALL " ++ key
  end%list.
Close Scope string_scope.

(** The table but for the handlers. *)
Definition acs_ok (l : list action) : Prop :=
  ((fun a => (a_type a, cmdline a)) <$> l) = ((fun a => (a_type a, cmdline a)) <$> acs0).

(** The place of a type in the table. *)
Definition place (t : kxtype) : nat :=
  match t with
  | NODE_SET => 0 | USER_REG => 1 | USER_LOGIN => 2 | USER_GET => 3
  | NODE_GET => 4 | FILE_CRYPT => 5 | FILE_GET => 6 | FILE_GETLIST => 7
  end.

Lemma search_types (l l' : list action) t : ((fun a => (a_type a, cmdline a)) <$> l) = ((fun a => (a_type a, cmdline a)) <$> l') ->
  forall i ac, search_from l t i ac = search_from l' t i ac.
Proof.
  revert l'. induction l as [|a l IH]; intros [|a' l'] E i ac; try done.
  injection E as E1 E2 E3. cbn. rewrite E1. by apply IH.
Qed.

Lemma search_place l t : acs_ok l -> search_from l t 0 (-1) = Z.of_nat (place t).
Proof. intros H. rewrite (search_types l acs0 t H). by destruct t. Qed.

(** The entry of a type: its command line is the one of the table. *)
Lemma entry_at l t : acs_ok l -> exists a a0, l !! place t = Some a /\ acs0 !! place t = Some a0 /\
  a_type a = t /\ cmdline a = cmdline a0.
Proof.
  intros H. assert (exists a0, acs0 !! place t = Some a0 /\ a_type a0 = t) as (a0 & E0 & T0)
    by (destruct t; eexists; split; reflexivity).
  pose proof (f_equal (fun m => m !! place t) H) as E1. cbn beta in E1. rewrite !list_lookup_fmap, E0 in E1.
  destruct (l !! place t) as [a|]; [|done]. injection E1 as E1 E2. exists a, a0. split_and!; congruence.
Qed.

Lemma set_handler_ok l t f a : acs_ok l -> l !! place t = Some a ->
  acs_ok (<[place t := Action (a_type a) (cmdline a) (Some f)]> l).
Proof.
  intros H E. unfold acs_ok in *. rewrite list_fmap_insert, H. apply list_insert_id.
  pose proof (f_equal (fun m => m !! place t) H) as E1. cbn beta in E1. rewrite list_lookup_fmap, E in E1.
  symmetry. exact E1.
Qed.

(** *** Formatting by pieces *)

Definition plain (w : list Z) : bool := forallb (fun c => negb (c =? 37)) w.

Lemma vformat_char c fmt args : c <> 37 -> vformat (c :: fmt) args = (r ← vformat fmt args; Ret (c :: r)).
Proof.
  intros H. destruct c as [|p|p]; [done| |done]. do 6 (destruct p as [p|p|]; try done).
Qed.

Lemma vformat_plain w fmt args r : plain w = true -> vformat fmt args = Ret r -> vformat (w ++ fmt) args = Ret (w ++ r).
Proof.
  intros P E. induction w as [|c w IH]; [done|]. apply andb_true_iff in P as [Hc P].
  cbn [app]. rewrite vformat_char, IH; [done|done|]. apply negb_true_iff, Z.eqb_neq in Hc. done.
Qed.

Open Scope string_scope.

Lemma vformat_s s fmt args r : vformat fmt args = Ret r -> vformat (text "%s" ++ fmt)%list (AStr s :: args) = Ret (s ++ r)%list.
Proof. intros E. change (text "%s") with [37; 115]. cbn [vformat app]. by rewrite E. Qed.
Lemma vformat_d n fmt args r : vformat fmt args = Ret r -> vformat (text "%d" ++ fmt)%list (AInt n :: args) = Ret (dec_signed n ++ r)%list.
Proof. intros E. change (text "%d") with [37; 100]. cbn [vformat app]. by rewrite E. Qed.
Lemma vformat_lu n fmt args r : vformat fmt args = Ret r -> vformat (text "%lu" ++ fmt)%list (ALong n :: args) = Ret (dec n ++ r)%list.
Proof. intros E. change (text "%lu") with [37; 108; 117]. cbn [vformat app]. by rewrite E. Qed.

(** A command line as pieces: [lit w] then a directive. *)
Ltac by_pieces :=
  repeat first [ apply vformat_s | apply vformat_d | apply vformat_lu
               | apply vformat_plain; [reflexivity|] | reflexivity ].

(** Every caller's arguments fit the directives of its command line. *)
Lemma command_format r a0 : acs0 !! place (type_of r) = Some a0 -> vformat (cmdline a0) (args_of r) = Ret (command_text r).
Proof.
  destruct r as [id ip mac|id user pwd|id user|fid fname path user id|key]; intros [= <-];
    cbn [args_of command_text cmdline].
  - change (vformat (text "HMSET node:" ++ text "%s" ++ text " uuid " ++ text "%s" ++ text " ip " ++ text "%s" ++
      text " mac " ++ text "%s" ++ [])%list [AStr id; AStr id; AStr ip; AStr mac] = Ret (text "HMSET node:" ++ id ++ text " uuid " ++ id ++
      text " ip " ++ ip ++ text " mac " ++ mac)%list).
    rewrite <- (app_nil_r mac) at 2. by_pieces.
  - change (vformat (text "HMSET node:" ++ text "%s" ++ text ":user:" ++ text "%s" ++ text " username " ++ text "%s" ++
      text " password " ++ text "%s" ++ text " isonline " ++ text "%d" ++ [])%list [AStr id; AStr user; AStr user; AStr pwd; AInt 1] =
      Ret (text "HMSET node:" ++ id ++ text ":user:" ++ user ++ text " username " ++ user ++ text " password " ++ pwd ++
      text " isonline " ++ dec_signed 1 ++ [])%list).
    by_pieces.
  - change (vformat (text "HGETALL node:" ++ text "%s" ++ text ":user:" ++ text "%s" ++ [])%list [AStr id; AStr user] =
      Ret (text "HGETALL node:" ++ id ++ text ":user:" ++ user)%list).
    rewrite <- (app_nil_r user) at 2. by_pieces.
  - change (vformat (text "HMSET fileuuid:" ++ text "%lu" ++ text " filename " ++ text "%s" ++ text " path " ++ text "%s" ++
      text " uuid " ++ text "%lu" ++ text " user " ++ text "%s" ++ text " muuid " ++ text "%s" ++ [])%list
      [ALong fid; AStr fname; AStr path; ALong fid; AStr user; AStr id] =
      Ret (text "HMSET fileuuid:" ++ dec fid ++ text " filename " ++ fname ++ text " path " ++ path ++ text " uuid " ++ dec fid ++
      text " user " ++ user ++ text " muuid " ++ id)%list).
    rewrite <- (app_nil_r id) at 2. by_pieces.
  - change (vformat (text "HGETALL " ++ text "%s" ++ [])%list [AStr key] = Ret (text "HGETALL " ++ key)%list).
    rewrite <- (app_nil_r key) at 2. by_pieces.
Qed.

Close Scope string_scope.

(** ** Sending a request *)

Section Send.
Context {HP : Type} `{!Allocator HP} {R : Type}.
Variable redisCommand : Z -> list Z -> ST R (option redisReply).
Variable errstr : Z -> R -> list Z.
Variable client_reply : synccallback -> redisReply -> ST (net (HP := HP) (R := R)) unit.

Implicit Types s : net (HP := HP) (R := R).

(** What the callers in kx_user.c and kx_file.c do. *)
Definition send (p : Z) (r : request) : ST net unit :=
  ac ← kx_search_action (type_of r);
  a ← deref_action ac;
  kx_sync_send_cmd redisCommand errstr client_reply p ac (cmdline a) (args_of r).

(** The connection after the command went out; [n] replies more are live. *)
Definition sent s (h : HP) (r' : R) (n : nat) : net := Net h r' (contexts s) (acs s) (n + live_replies s) (nout s).

Lemma kx_command_run c cmd ac a s : 0 <= ac -> acs s !! Z.to_nat ac = Some a ->
  kx_command redisCommand errstr client_reply c cmd ac s =
    match redisCommand c cmd (redis s) with
    | Ret (None, r') => nprint (cmd ++ text_error ++ errstr c r' ++ [10]) (sent s (nheap s) r' 0)
    | Ret (Some reply, r') =>
        match syncexec a with
        | None => Undef
        | Some f => (run_handler client_reply f reply;; set_replies pred) (sent s (nheap s) r' 1)
        end
    | Abort => Abort
    | Undef => Undef
    | NoFuel => NoFuel
    end.
Proof.
  intros Hac E. unfold kx_command. unfold mbind at 1, ST_bind at 1, on_redis.
  destruct (redisCommand c cmd (redis s)) as [[[reply|] r']| | |]; cbn [mbind outcome_bind]; try done.
  unfold mbind at 1, ST_bind at 1. cbn [set_replies modify]. unfold mbind at 1, ST_bind at 1, deref_action.
  rewrite decide_False by lia. cbn [acs]. rewrite E. cbn [of_option mbind outcome_bind].
  destruct (syncexec a); done.
Qed.

Lemma send_run p c q s : contexts s !! p = Some c -> acs_ok (acs s) -> Z.of_nat (length (command_text q)) < INT_MAX ->
  exists a, acs s !! place (type_of q) = Some a /\ a_type a = type_of q /\
  match a_alloc (Z.of_nat (length (command_text q)) + 1) (nheap s) with
  | Ret (ptr, h) =>
      if decide (ptr = 0) then send p q s = Ret (tt, sent s h (redis s) 0)
      else match redisCommand c (command_text q) (redis s) with
           | Ret (None, r') => send p q s =
               (nprint (command_text q ++ text_error ++ errstr c r' ++ [10]);; on_nheap (a_free ptr)) (sent s h r' 0)
           | Ret (Some reply, r') =>
               match syncexec a with
               | None => send p q s = Undef
               | Some f => send p q s =
                   (run_handler client_reply f reply;; set_replies pred;; on_nheap (a_free ptr)) (sent s h r' 1)
               end
           | Abort => send p q s = Abort
           | Undef => send p q s = Undef
           | NoFuel => send p q s = NoFuel
           end
  | Abort => send p q s = Abort
  | Undef => send p q s = Undef
  | NoFuel => send p q s = NoFuel
  end.
Proof.
  intros C K L. destruct (entry_at (acs s) (type_of q) K) as (a & a0 & Ea & E0 & Ta & Ca). exists a. split; [done|]. split; [done|].
  pose proof (command_format q a0 E0) as F. rewrite <- Ca in F.
  assert (D : deref_action (Z.of_nat (place (type_of q))) s = Ret (a, s)).
  { unfold deref_action. rewrite decide_False by lia. by rewrite Nat2Z.id, Ea. }
  assert (E : send p q s = (ptr ← on_nheap (a_alloc (Z.of_nat (length (command_text q)) + 1));
     if decide (ptr = 0) then mret tt else
     c ← deref_net p; kx_command redisCommand errstr client_reply c (command_text q) (Z.of_nat (place (type_of q)));;
     on_nheap (a_free ptr)) s).
  { unfold send, kx_search_action. rewrite (bind_ret _ _ s _ s eq_refl). rewrite search_place by done.
    rewrite (bind_ret _ _ _ _ _ D). unfold kx_sync_send_cmd. rewrite decide_False by lia.
    unfold nlift. unfold mbind at 1, ST_bind at 1. rewrite F. cbn [outcome_bind mbind].
    rewrite decide_False by lia. rewrite decide_False by lia. done. }
  set (o := send p q s) in *. clearbody o. revert E. unfold mbind at 1, ST_bind at 1, on_nheap at 1.
  destruct (a_alloc _ _) as [[ptr h]| | |]; cbn [mbind outcome_bind]; try done.
  change (Net h (redis s) (contexts s) (acs s) (live_replies s) (nout s)) with (sent s h (redis s) 0).
  destruct (decide (ptr = 0)); [done|].
  assert (N : deref_net p (sent s h (redis s) 0) = Ret (c, sent s h (redis s) 0)) by (unfold deref_net; cbn; by rewrite C).
  rewrite (bind_ret _ _ _ _ _ N). unfold mbind at 1, ST_bind at 1.
  rewrite (kx_command_run c _ _ a) by (lia || (cbn; by rewrite Nat2Z.id)). cbn [redis sent nheap].
  destruct (redisCommand c (command_text q) (redis s)) as [[[reply|] r']| | |]; try done.
  destruct (syncexec a) as [f|]; [|done]. intros ->. unfold sent at 1. cbn [contexts acs live_replies nout Nat.add].
  unfold mbind, ST_bind. by destruct (run_handler _ _ _ _) as [[[] s2]| | |].
Qed.

End Send.

(** ** Properties *)

Section SendSpec.
Context {HP : Type} `{!Allocator HP} {R : Type}.
Implicit Types s : net (HP := HP) (R := R).

(** After an answered request: what was printed is added, the reply and the
    block of the text are given back, nothing else changes. *)
Definition answered s (r' : R) (t : list Z) s' : Prop :=
  redis s' = r' /\ contexts s' = contexts s /\ acs s' = acs s /\ live_replies s' = live_replies s /\
  a_live (nheap s') = a_live (nheap s) /\ nout s' = nout s ++ t.

Lemma free_sent s ptr (h : HP) : (ptr ∉ a_live (nheap s)) -> a_live h = {[ptr]} ∪ a_live (nheap s) -> ptr <> 0 ->
  exists h', a_free ptr h = Ret (tt, h') /\ a_live h' = a_live (nheap s).
Proof.
  intros N L H. destruct (a_free_live ptr h) as (h' & F & Lh); [rewrite L; set_solver|done|].
  exists h'. split; [done|]. rewrite Lh, L. set_solver.
Qed.

(** [kx_set_reply] prints the reply's string. *)
Definition reply_line (reply : redisReply) : list Z := match r_str reply with Some t => t ++ [10] | None => [] end.

Lemma set_reply_prints reply s : kx_set_reply reply s = nprint (reply_line reply) s.
Proof.
  unfold kx_set_reply, reply_line. destruct (r_str reply); [done|]. unfold nprint, modify. rewrite app_nil_r.
  by destruct s.
Qed.

(** C24: a request of the client.  Whatever the server does, the command sent is exactly
    [command_text], with the fields in their places, and it is sent once, or
    not at all when the allocation of the text gives NULL; the entry found in
    the table is the one of the request's type, whatever handlers were set
    before.  Without a reply the error is printed; with one, the handler gets
    it and it is freed, and a request whose handler was never set is a call
    through NULL.  The block of the text is given back in every case that returns. *)
Theorem send_request (redisCommand : Z -> list Z -> ST R (option redisReply)) errstr client_reply p c q s :
  contexts s !! p = Some c -> acs_ok (acs s) -> Z.of_nat (length (command_text q)) < INT_MAX ->
  (forall n (h : HP), exists p h', a_alloc n h = Ret (p, h')) ->
  (exists h, a_alloc (Z.of_nat (length (command_text q)) + 1) (nheap s) = Ret (0, h)) /\
    runs (send redisCommand errstr client_reply p q) s (fun _ s' => answered s (redis s) [] s') \/
  match redisCommand c (command_text q) (redis s) with
  | Ret (None, r') => runs (send redisCommand errstr client_reply p q) s (fun _ s' =>
      answered s r' (command_text q ++ text_error ++ errstr c r' ++ [10]) s')
  | Ret (Some reply, r') => exists a, acs s !! place (type_of q) = Some a /\ a_type a = type_of q /\
      match syncexec a with
      | None => send redisCommand errstr client_reply p q s = Undef
      | Some f => forall t, (forall s1, run_handler client_reply f reply s1 = nprint t s1) ->
          runs (send redisCommand errstr client_reply p q) s (fun _ s' => answered s r' t s')
      end
  | Abort => send redisCommand errstr client_reply p q s = Abort
  | Undef => send redisCommand errstr client_reply p q s = Undef
  | NoFuel => send redisCommand errstr client_reply p q s = NoFuel
  end.
Proof.
  intros C K L Al. destruct (send_run redisCommand errstr client_reply p c q s C K L) as (a & Ea & Ta & E).
  destruct (Al (Z.of_nat (length (command_text q)) + 1) (nheap s)) as (ptr & h & A). rewrite A in E.
  destruct (decide (ptr = 0)) as [-> |Hp].
  { left. split; [by exists h|]. eexists _, _. split; [exact E|]. pose proof (a_alloc_null _ _ _ A). split_and!; try done.
    cbn. by rewrite app_nil_r. }
  right. destruct (a_alloc_fresh _ _ _ _ A Hp) as [Nl Lh].
  destruct (free_sent s ptr h Nl Lh Hp) as (h' & F & Lh').
  destruct (redisCommand c (command_text q) (redis s)) as [[[reply|] r']| | |]; try done.
  - exists a. split; [done|]. split; [done|]. destruct (syncexec a) as [f|]; [|done]. intros t Ht.
    eexists _, _. split.
    { rewrite E. unfold mbind, ST_bind. rewrite Ht. cbn. unfold on_nheap. cbn. rewrite F. reflexivity. }
    split_and!; done.
  - eexists _, _. split; [rewrite E; unfold mbind, ST_bind; cbn; unfold on_nheap; cbn; rewrite F; reflexivity|].
    split_and!; done.
Qed.

End SendSpec.

(** A server that keeps what it is sent and answers "OK". *)
Definition log_server (c : Z) (cmd : list Z) : ST (list (list Z)) (option redisReply) :=
  fun l => Ret (Some (Reply 5 (Some [79; 75]) []), l ++ [cmd]).
Definition net_demo : net (HP := gset Z) (R := list (list Z)) := Net ∅ [] {[ 8 := 1 ]} acs0 0 [].

Open Scope string_scope.

Lemma send_request_witness :
  runs (send log_server (fun _ _ => []) (fun _ _ => mret tt) 8 (SetNode (text "id") (text "ip") (text "mac"))) net_demo
    (fun _ s' => redis s' = [text "HMSET node:id uuid id ip ip mac mac"] /\ nout s' = [79; 75; 10]).
Proof.
  destruct (send_request log_server (fun _ _ => []) (fun _ _ => mret tt) 8 1
    (SetNode (text "id") (text "ip") (text "mac")) net_demo) as [[[h E] _]|H].
  - reflexivity.
  - reflexivity.
  - vm_compute. reflexivity.
  - exact endless_total.
  - vm_compute in E. discriminate E.
  - cbn [log_server] in H. destruct H as (a & Ea & _ & H). assert (Es : syncexec a = Some KxSetReply)
      by (vm_compute in Ea; injection Ea as <-; reflexivity).
    rewrite Es in H. eapply runs_mono; [exact (H _ (set_reply_prints _))|].
    intros u s' (E1 & _ & _ & _ & _ & E2). rewrite E1, E2. split; vm_compute; reflexivity.
Defined.

Close Scope string_scope.
