(* ===== verification/Db.v ===== *)
(** * The local data base (src/src/db.c, src/src/db.h)

    Creating the environment, storing a file record, finding one and listing
    all.  LMDB is one function of a call and of its own state, about which
    nothing is assumed here: every call and its answer is explicit, and the
    calls made are recorded.  A [kxfile] is its block of bytes, a [kxdb] the bytes of
    its arrays and its other fields.  Messages on stderr are not modelled. *)

From Stdlib Require Import ZArith Lia.
From stdpp Require Import prelude gmap.
From S2P Require Import Prelude.
From S2P Require Import Xxhash.
From S2P Require Import FileCrypt.
From S2P Require Import Util.
From S2P Require Import Net.

(** ** The calls of LMDB *)

Inductive mdb_call :=
  | EnvCreate
  | EnvSetMapsize (env size : Z)
  | EnvSetMaxdbs (env n : Z)
  | EnvOpen (env : Z) (path : list Z) (flags mode : Z)
  | EnvClose (env : Z)
  | TxnBegin (env flags : Z)
  | DbiOpen (txn : Z) (name : list Z) (flags : Z)
  | Put (txn dbi : Z) (key data : list Z) (flags : Z)
  | TxnCommit (txn : Z)
  | TxnAbort (txn : Z)
  | CursorOpen (txn dbi : Z)
  | CursorGet (cursor : Z) (key : list Z) (op : Z)
  | CursorClose (cursor : Z).

(** The result, what an out parameter gets, and the [MDB_val]s of a cursor. *)
Record answer := Answer { a_rc : Z; a_handle : Z; a_key : list Z; a_data : list Z }.

(** lmdb.h *)
Definition MDB_RDONLY : Z := 0x20000.
Definition MDB_CREATE : Z := 0x40000.
Definition MDB_GET_CURRENT : Z := 4.
Definition MDB_NEXT : Z := 8.
Definition MDB_SET : Z := 15.

(** ** Data *)

Definition KX_DB_INSERT_FILE : Z := 1.
Definition KX_DB_GET_FILE : Z := 2.
Definition KX_DB_GET_FILELIST : Z := 3.
Definition KXDEFAULTSIZE : Z := 10 * 1024 * 1024.

(** The byte layout of [kxfile]. *)
Definition off_fullname : nat := 255.
Definition off_uuid : nat := 4352.
Definition off_type : nat := 4360.

(** The block of a record; [gap] and [tail_gap] are the padding. *)
Definition file_block (gap : Z) (tail_gap : list Z) (kf : kxfile) : list Z :=
  fname kf ++ fullname kf ++ [gap] ++ le_bytes 8 (uuid kf) ++
  le_bytes 4 (match ftype kf with KXCIPHER => 1 | KXPLAIN => 2 end) ++ tail_gap.

(** [chars] are the bytes of [dbname] (32), [dbpath] (128) and the padding (4). *)
Record kxdb := KxDb { max_mapsize : Z; env : Z; dbi : Z; chars : list Z }.
Definition off_dbname : nat := 0.
Definition off_dbpath : nat := 32.
Definition sizeof_chars : nat := 164.
Definition sizeof_kxdb : Z := 184.

(** "%-ns" and "%nlu" *)
Definition pad_right (n : nat) (s : list Z) : list Z := s ++ replicate (n - length s) 32.
Definition pad_left (n : nat) (s : list Z) : list Z := replicate (n - length s) 32 ++ s.

(** " [*] ", " [L+]\n" and "Key not found: " *)
Definition text_star : list Z := [32; 91; 42; 93; 32].
Definition text_local : list Z := [32; 91; 76; 43; 93; 10].
Definition text_not_found : list Z := [75; 101; 121; 32; 110; 111; 116; 32; 102; 111; 117; 110; 100; 58; 32].

Section Db.
Context {HP FS E : Type} `{!Allocator HP}.

Variable mdb : mdb_call -> ST E answer.
Variable mkdir : list Z -> Z -> FS -> FS * Z * bool.
(** [stat(path, &st) < 0] *)
Variable stat_fails : list Z -> FS -> bool.
(** The old contents of a new block's arrays and fields, and of a local [dbi]. *)
Variable junk : nat -> list Z.
Variable junk_dbi : Z.

(** [calls] are the calls of LMDB so far. *)
Record dstate := DState {
  dheap : HP;
  dfs : FS;
  denv : E;
  dbs : gmap Z kxdb;
  dout : list Z;
  calls : list mdb_call
}.

Definition on_dheap {A} (m : ST HP A) : ST dstate A := fun s =>
  '(a, h) ← m (dheap s); Ret (a, DState h (dfs s) (denv s) (dbs s) (dout s) (calls s)).
Definition on_path {A} (m : ST (upath (HP := HP) (FS := FS)) A) : ST dstate A := fun s =>
  '(a, u) ← m (UPath (dheap s) (dfs s));
  Ret (a, DState (pheap u) (pfs u) (denv s) (dbs s) (dout s) (calls s)).
Definition call (c : mdb_call) : ST dstate answer := fun s =>
  '(a, e) ← mdb c (denv s); Ret (a, DState (dheap s) (dfs s) e (dbs s) (dout s) (calls s ++ [c])).
Definition dprint (t : list Z) : ST dstate unit :=
  modify (fun s => DState (dheap s) (dfs s) (denv s) (dbs s) (dout s ++ t) (calls s)).
Definition put_db (p : Z) (d : kxdb) : ST dstate unit :=
  modify (fun s => DState (dheap s) (dfs s) (denv s) (<[p := d]> (dbs s)) (dout s) (calls s)).
Definition drop_db (p : Z) : ST dstate unit :=
  modify (fun s => DState (dheap s) (dfs s) (denv s) (delete p (dbs s)) (dout s) (calls s)).
Definition deref_db (p : Z) : ST dstate kxdb := fun s => d ← of_option (dbs s !! p); Ret (d, s).
Definition dlift {A} (m : outcome A) : ST dstate A := fun s => a ← m; Ret (a, s).

(** The string [dbname]. *)
Definition name_of (d : kxdb) : outcome (list Z) := of_option (cstr (drop off_dbname (chars d))).

(** ** Creating and closing *)

Definition kx_creat_db (size : Z) (dbpath dbname : list Z) : ST dstate Z :=
  db ← on_dheap (a_alloc sizeof_kxdb);
  if decide (db = 0) then mret 0 else
  m ← dlift (of_option (poke (junk sizeof_chars) off_dbpath (strncpy dbpath 127)));
  m ← dlift (store m (off_dbpath + 128) 0);
  m ← dlift (of_option (poke m off_dbname (strncpy dbname 31)));
  m ← dlift (store m (off_dbname + 32) 0);
  a ← call EnvCreate;
  put_db db (KxDb size (a_handle a) junk_dbi m);;
  if decide (a_rc a <> 0) then mret 0 else
  let env := a_handle a in
  a ← call (EnvSetMapsize env (if decide (size <= 0) then KXDEFAULTSIZE else size));
  if decide (a_rc a <> 0) then mret 0 else
  _ ← call (EnvSetMaxdbs env 4);
  s ← gets (fun s => s);
  _ ← (if stat_fails dbpath (dfs s) then on_path (kx_mkdirp mkdir (S (length dbpath)) dbpath 0x1ff) else mret 0);
  a ← call (EnvOpen env dbpath 0 0x1b4);
  if decide (a_rc a <> 0) then mret 0 else
  mret db.

Definition kx_free_db (db : Z) : ST dstate unit :=
  d ← deref_db db;
  _ ← call (EnvClose (env d));
  on_dheap (a_free db);;
  drop_db db.

(** ** Records *)

(** [file] is the block of the record: the key is read from it. *)
Definition insert_file (db : Z) (ky : list Z) (file : list Z) : ST dstate unit :=
  d ← deref_db db;
  a ← call (TxnBegin (env d) 0);
  let txn := if decide (a_rc a = 0) then a_handle a else 0 in
  name ← dlift (name_of d);
  a ← call (DbiOpen txn name MDB_CREATE);
  let dbi := if decide (a_rc a = 0) then a_handle a else junk_dbi in
  key ← dlift (of_option (peek file off_uuid (length ky)));
  a ← call (Put txn dbi key file 0);
  if decide (a_rc a <> 0) then mret tt else
  _ ← call (TxnCommit txn);
  mret tt.

(** The result is what [*outfile] gets: nothing, NULL or a record. *)
Definition get_file (db : Z) (key : list Z) : ST dstate (option (option (list Z))) :=
  d ← deref_db db;
  a ← call (TxnBegin (env d) MDB_RDONLY);
  if decide (a_rc a <> 0) then mret None else
  let txn := a_handle a in
  name ← dlift (name_of d);
  a ← call (DbiOpen txn name 0);
  if decide (a_rc a <> 0) then mret None else
  put_db db (KxDb (max_mapsize d) (env d) (a_handle a) (chars d));;
  a ← call (CursorOpen txn (a_handle a));
  if decide (a_rc a <> 0) then mret None else
  let cursor := a_handle a in
  k ← dlift (of_option (peek key 0 8));
  a ← call (CursorGet cursor k MDB_SET);
  if decide (a_rc a <> 0) then mret None else
  a ← call (CursorGet cursor (a_key a) MDB_GET_CURRENT);
  out ← (if decide (a_rc a = 0) then mret (Some (Some (a_data a)))
         else dprint (text_not_found ++ dec (le_value 8 k) ++ [10]);; mret (Some None));
  _ ← call (CursorClose cursor);
  _ ← call (TxnAbort txn);
  mret out.

(** One line of the list; [kf] is the data of the record. *)
Definition list_line (kf : list Z) : outcome (list Z) :=
  f ← of_option (cstr kf);
  n ← of_option (cstr (drop off_fullname kf));
  u ← of_option (peek kf off_uuid 8);
  Ret (text_star ++ pad_right 10 f ++ pad_right 30 n ++ pad_left 20 (dec (le_value 8 u)) ++ text_local).

Fixpoint list_loop (fuel : nat) (cursor : Z) (key : list Z) : ST dstate unit :=
  match fuel with
  | O => no_fuel
  | S f =>
      a ← call (CursorGet cursor key MDB_NEXT);
      if decide (a_rc a = 0) then
        t ← dlift (list_line (a_data a));
        dprint t;;
        list_loop f cursor (a_key a)
      else mret tt
  end.

(** [junk_key]: the key is an uninitialised local, which MDB_NEXT does not read. *)
Definition get_file_list (fuel : nat) (junk_key : list Z) (db : Z) : ST dstate unit :=
  d ← deref_db db;
  a ← call (TxnBegin (env d) MDB_RDONLY);
  if decide (a_rc a <> 0) then mret tt else
  let txn := a_handle a in
  name ← dlift (name_of d);
  a ← call (DbiOpen txn name 0);
  if decide (a_rc a <> 0) then _ ← call (TxnAbort txn); mret tt else
  put_db db (KxDb (max_mapsize d) (env d) (a_handle a) (chars d));;
  a ← call (CursorOpen txn (a_handle a));
  if decide (a_rc a <> 0) then _ ← call (TxnAbort txn); mret tt else
  let cursor := a_handle a in
  list_loop fuel cursor junk_key;;
  _ ← call (CursorClose cursor);
  _ ← call (TxnAbort txn);
  mret tt.

Definition kx_store_db (db type : Z) (key data : list Z) : ST dstate Z :=
  if decide (type = KX_DB_INSERT_FILE) then insert_file db key data;; mret 0
  else mret (-1).

(** The result and [*outdata]. *)
Definition kx_get_db (fuel : nat) (junk_key : list Z) (db type : Z) (key : list Z)
    : ST dstate (Z * option (option (list Z))) :=
  if decide (type = KX_DB_GET_FILE) then out ← get_file db key; mret (0, out)
  else if decide (type = KX_DB_GET_FILELIST) then get_file_list fuel junk_key db;; mret (0, None)
  else mret (-1, None).

End Db.

(** ** The layout *)

(** A record as the program writes it: both names end inside their arrays. *)
Definition good_file (kf : kxfile) (name path : list Z) : Prop :=
  fname kf = strncpy name NAME_MAX /\ fullname kf = strncpy path PATH_MAX /\ nonul name /\ nonul path /\
  (length name < NAME_MAX)%nat /\ (length path < PATH_MAX)%nat /\ 0 <= uuid kf < 2 ^ 64.

(** What follows the id in the block. *)
Definition after_id (tg : list Z) (kf : kxfile) : list Z :=
  le_bytes 8 (uuid kf) ++ le_bytes 4 (match ftype kf with KXCIPHER => 1 | KXPLAIN => 2 end) ++ tg.

Lemma file_block_split gap tg kf : length (fname kf) = NAME_MAX -> length (fullname kf) = PATH_MAX ->
  exists a, file_block gap tg kf = a ++ after_id tg kf /\ length a = off_uuid.
Proof.
  intros L1 L2. exists (fname kf ++ fullname kf ++ [gap]). split; [unfold file_block, after_id; by rewrite <- !app_assoc|].
  rewrite !length_app, L1, L2. reflexivity.
Qed.

Lemma after_id_length tg kf : length tg = 4%nat -> length (after_id tg kf) = 16%nat.
Proof. intros H. unfold after_id. by rewrite !length_app, !le_bytes_length, H. Qed.

(** A key of up to 16 bytes is read inside the block, a longer one is not. *)
Lemma peek_key gap tg kf n : length (fname kf) = NAME_MAX -> length (fullname kf) = PATH_MAX -> length tg = 4%nat ->
  peek (file_block gap tg kf) off_uuid n = if decide (n <= 16)%nat then Some (take n (after_id tg kf)) else None.
Proof.
  intros L1 L2 Lt. destruct (file_block_split gap tg kf L1 L2) as (a & -> & La). pose proof (after_id_length tg kf Lt) as L.
  unfold peek. rewrite length_app, La, L. case_decide.
  - rewrite decide_True by lia. by rewrite drop_app_length' by done.
  - by rewrite decide_False by lia.
Qed.

Lemma strncpy_cstr pre s n r off : length pre = off -> nonul s -> (length s < n)%nat ->
  cstr (drop off (pre ++ strncpy s n ++ r)) = Some s.
Proof.
  intros <- N L. apply (cstr_strncpy _ _ n s); [done|done|]. intros i Hi.
  rewrite lookup_app_r by lia. rewrite lookup_app_l by (rewrite strncpy_length; lia). f_equal. lia.
Qed.

(** The line of a record. *)
Definition record_line (name path : list Z) (id : Z) : list Z :=
  text_star ++ pad_right 10 name ++ pad_right 30 path ++ pad_left 20 (dec id) ++ text_local.

Lemma list_line_record gap tg kf name path : good_file kf name path ->
  list_line (file_block gap tg kf) = Ret (record_line name path (uuid kf)).
Proof.
  intros (F1 & F2 & N1 & N2 & L1 & L2 & U). unfold list_line.
  assert (E1 : cstr (file_block gap tg kf) = Some name).
  { unfold file_block. rewrite F1. exact (strncpy_cstr [] name NAME_MAX _ 0 eq_refl N1 L1). }
  assert (E2 : cstr (drop off_fullname (file_block gap tg kf)) = Some path).
  { unfold file_block. rewrite F2. apply strncpy_cstr; [rewrite F1; apply strncpy_length|done|done]. }
  assert (E3 : peek (file_block gap tg kf) off_uuid 8 = Some (le_bytes 8 (uuid kf))).
  { destruct (file_block_split gap tg kf) as (a & -> & La); [rewrite F1; apply strncpy_length|rewrite F2; apply strncpy_length|].
    apply peek_at; [done|apply le_bytes_length]. }
  rewrite E1, E2, E3. cbn [of_option mbind outcome_bind]. rewrite le_value_bytes by exact U. done.
Qed.

(** ** Properties *)

Section DbFacts.
Context {HP FS E : Type} `{!Allocator HP}.
Variable mdb : mdb_call -> ST E answer.
Variable junk_dbi : Z.
(** LMDB answers every call. *)
Hypothesis mdb_answers : forall c e, exists a e', mdb c e = Ret (a, e').
Implicit Types s : dstate (HP := HP) (FS := FS) (E := E).

(** What a call leaves: LMDB's state and the record of the call. *)
Definition called s (cs : list mdb_call) s' : Prop :=
  dheap s' = dheap s /\ dfs s' = dfs s /\ dout s' = dout s /\ calls s' = calls s ++ cs.

Lemma call_runs c s : runs (call mdb c) s (fun a s' => called s [c] s' /\ dbs s' = dbs s /\
  mdb c (denv s) = Ret (a, denv s')).
Proof.
  destruct (mdb_answers c (denv s)) as (a & e & Ea). eexists a, _.
  split; [unfold call; rewrite Ea; cbn; reflexivity|]. unfold called. cbn. done.
Qed.

Lemma called_trans s s1 s2 c1 c2 : called s c1 s1 -> called s1 c2 s2 -> called s (c1 ++ c2) s2.
Proof. intros (?&?&?&E1) (?&?&?&E2). unfold called. rewrite E2, E1. split_and!; [congruence..|by rewrite <- app_assoc]. Qed.

Lemma dlift_step {A B} (m : outcome A) (a : A) (k : A -> ST (dstate (HP := HP) (FS := FS) (E := E)) B) s Q :
  m = Ret a -> runs (k a) s Q -> runs (x ← dlift m; k x) s Q.
Proof. intros -> H. apply runs_bind. eexists _, _. split; [reflexivity|]. exact H. Qed.

Lemma deref_step {B} db d (k : kxdb -> ST (dstate (HP := HP) (FS := FS) (E := E)) B) s Q :
  dbs s !! db = Some d -> runs (k d) s Q -> runs (x ← deref_db db; k x) s Q.
Proof. intros E1 H. apply runs_bind. eexists _, _. split; [unfold deref_db; rewrite E1; cbn; reflexivity|]. exact H. Qed.

(** The conversation with LMDB when a record is stored, from its state [e] to [e'], as its answers lead it: a
    transaction, the data base by its name, the record, and a commit when the record was taken. *)
Definition inserted (env : Z) (name key data : list Z) (e : E) (cs : list mdb_call) (e' : E) : Prop :=
  exists a1 e1 a2 e2 a3 e3, let txn := if decide (a_rc a1 = 0) then a_handle a1 else 0 in
    let dbi := if decide (a_rc a2 = 0) then a_handle a2 else junk_dbi in
    let first := [TxnBegin env 0; DbiOpen txn name MDB_CREATE; Put txn dbi key data 0] in
    mdb (TxnBegin env 0) e = Ret (a1, e1) /\ mdb (DbiOpen txn name MDB_CREATE) e1 = Ret (a2, e2) /\
    mdb (Put txn dbi key data 0) e2 = Ret (a3, e3) /\
    if decide (a_rc a3 = 0) then cs = first ++ [TxnCommit txn] /\ exists a4, mdb (TxnCommit txn) e3 = Ret (a4, e')
    else cs = first /\ e' = e3.

Lemma insert_file_runs db d name ky gap tg kf s : dbs s !! db = Some d -> name_of d = Ret name ->
  length (fname kf) = NAME_MAX -> length (fullname kf) = PATH_MAX -> length tg = 4%nat -> (length ky <= 16)%nat ->
  runs (insert_file mdb junk_dbi db ky (file_block gap tg kf)) s (fun _ s' => dbs s' = dbs s /\ exists cs,
    inserted (env d) name (take (length ky) (after_id tg kf)) (file_block gap tg kf) (denv s) cs (denv s') /\ called s cs s').
Proof.
  intros D N L1 L2 Lt Lk. unfold insert_file. apply (deref_step _ d); [done|]. apply runs_bind.
  eapply runs_mono; [apply call_runs|]. intros a1 s1 (C1 & B1 & E1). apply (dlift_step _ name); [done|]. apply runs_bind.
  eapply runs_mono; [apply call_runs|]. intros a2 s2 (C2 & B2 & E2).
  rewrite peek_key by done. rewrite (decide_True (P := (length ky <= 16)%nat)) by done. apply (dlift_step _ (take (length ky) (after_id tg kf))); [done|]. apply runs_bind.
  eapply runs_mono; [apply call_runs|]. intros a3 s3 (C3 & B3 & E3).
  pose proof (called_trans _ _ _ _ _ C1 (called_trans _ _ _ _ _ C2 C3)) as C. cbn [app] in C.
  destruct (decide (a_rc a3 <> 0)) as [H|H].
  - apply runs_ret. split; [congruence|]. eexists. split; [|exact C]. exists a1, (denv s1), a2, (denv s2), a3, (denv s3). cbn zeta.
    rewrite (decide_False (P := a_rc a3 = 0)) by done. done.
  - apply runs_bind. eapply runs_mono; [apply call_runs|]. intros a4 s4 (C4 & B4 & E4). apply runs_ret.
    split; [congruence|]. eexists. split; [|exact (called_trans _ _ _ _ _ C C4)].
    exists a1, (denv s1), a2, (denv s2), a3, (denv s3). cbn zeta. rewrite (decide_True (P := a_rc a3 = 0)) by lia.
    split; [done|]. split; [done|]. split; [done|]. split; [done|]. by exists a4.
Qed.

(** A longer key is read past the block. *)
Lemma insert_file_undef db d name ky gap tg kf s : dbs s !! db = Some d -> name_of d = Ret name ->
  length (fname kf) = NAME_MAX -> length (fullname kf) = PATH_MAX -> length tg = 4%nat -> (16 < length ky)%nat ->
  insert_file mdb junk_dbi db ky (file_block gap tg kf) s = Undef.
Proof.
  intros D N L1 L2 Lt Lk. unfold insert_file. rewrite (bind_ret _ _ s d s) by (unfold deref_db; by rewrite D).
  destruct (call_runs (TxnBegin (env d) 0) s) as (a1 & s1 & E1 & _). rewrite (bind_ret _ _ _ _ _ E1).
  rewrite (bind_ret _ _ s1 name s1) by (unfold dlift; by rewrite N).
  destruct (call_runs (DbiOpen (if decide (a_rc a1 = 0) then a_handle a1 else 0) name MDB_CREATE) s1) as (a2 & s2 & E2 & _).
  rewrite (bind_ret _ _ _ _ _ E2). rewrite peek_key by done. rewrite (decide_False (P := (length ky <= 16)%nat)) by lia. done.
Qed.

End DbFacts.

(** ** Listing *)

Definition entry : Type := list Z * list Z.

(** The calls of the loop. *)
Fixpoint next_calls (c : Z) (key : list Z) (l : list entry) : list mdb_call :=
  CursorGet c key MDB_NEXT :: match l with [] => [] | e :: l' => next_calls c e.1 l' end.

Section Listing.
Context {HP FS E : Type} `{!Allocator HP}.
Variable mdb : mdb_call -> ST E answer.
Variable junk_dbi : Z.

(** What the listing relies on: LMDB answers every call; [ahead] is what a
    cursor has not given yet, and [content] what a data base holds; a cursor
    opened in a fresh read transaction has all of it ahead, MDB_NEXT gives
    the entries one by one and then an error. *)
Class Cursors := {
  content : Z -> list Z -> E -> list entry;
  ahead : Z -> E -> list entry;
  mdb_answers : forall c e, exists a e', mdb c e = Ret (a, e');
  cursor_opened : forall env name e a1 e1 a2 e2 a3 e3,
    mdb (TxnBegin env MDB_RDONLY) e = Ret (a1, e1) -> a_rc a1 = 0 ->
    mdb (DbiOpen (a_handle a1) name 0) e1 = Ret (a2, e2) -> a_rc a2 = 0 ->
    mdb (CursorOpen (a_handle a1) (a_handle a2)) e2 = Ret (a3, e3) -> a_rc a3 = 0 ->
    ahead (a_handle a3) e3 = content env name e;
  cursor_next : forall c k e a e', mdb (CursorGet c k MDB_NEXT) e = Ret (a, e') ->
    match ahead c e with
    | [] => a_rc a <> 0
    | (k', d) :: l => a_rc a = 0 /\ a_key a = k' /\ a_data a = d /\ ahead c e' = l
    end
}.

Context `{!Cursors}.
Implicit Types s : dstate (HP := HP) (FS := FS) (E := E).

Definition printed s (cs : list mdb_call) (t : list Z) s' : Prop :=
  dheap s' = dheap s /\ dfs s' = dfs s /\ dout s' = dout s ++ t /\ calls s' = calls s ++ cs.

Lemma called_printed s cs s' : called s cs s' -> printed s cs [] s'.
Proof. intros (?&?&E1&?). unfold printed. by rewrite E1, app_nil_r. Qed.

Lemma printed_trans s s1 s2 c1 c2 t1 t2 : printed s c1 t1 s1 -> printed s1 c2 t2 s2 -> printed s (c1 ++ c2) (t1 ++ t2) s2.
Proof.
  intros (?&?&E1&E2) (?&?&E3&E4). unfold printed. rewrite E4, E3, E2, E1.
  split_and!; [congruence..|by rewrite <- app_assoc|by rewrite <- app_assoc].
Qed.

Lemma list_loop_run l : forall fuel c key s ts, ahead c (denv s) = l -> (length l < fuel)%nat ->
  Forall2 (fun e t => list_line e.2 = Ret t) l ts ->
  runs (list_loop mdb fuel c key) s (fun _ s' => printed s (next_calls c key l) (concat ts) s' /\ dbs s' = dbs s).
Proof.
  induction l as [|[k d] l IH]; intros fuel c key s ts A Hf F; (destruct fuel as [|f]; [cbn in Hf; lia|]);
    cbn [list_loop next_calls]; apply runs_bind; (eapply runs_mono; [apply (call_runs mdb mdb_answers)|]);
    intros a s1 (C & B & M); pose proof (cursor_next _ _ _ _ _ M) as N; rewrite A in N.
  - rewrite decide_False by done. apply runs_ret. apply Forall2_nil_inv_l in F as ->.
    split; [by apply called_printed|done].
  - destruct N as (R & K & D & A'). rewrite decide_True by done.
    destruct ts as [|t ts]; [by apply Forall2_cons_nil_inv in F|]. apply Forall2_cons in F as [Ft F]. cbn [snd] in Ft.
    rewrite D, K. apply (dlift_step _ t); [done|]. apply runs_bind, runs_modify. cbn [length] in Hf.
    eapply runs_mono; [apply (IH f c k _ ts); [exact A'|lia|done]|].
    intros _ s2 (P & B2). split; [|cbn in B2; congruence]. cbn [fst concat].
    change (CursorGet c key MDB_NEXT :: next_calls c k l) with ([CursorGet c key MDB_NEXT] ++ next_calls c k l).
    eapply printed_trans; [|exact P]. destruct C as (C1 & C2 & C3 & C4). unfold printed. cbn. by rewrite C3.
Qed.

(** What happened to the three calls that open the cursor, and what follows. *)
Inductive listing (env : Z) (name key : list Z) (l : list entry) (t : list Z) : list mdb_call -> list Z -> Prop :=
  | no_txn : listing env name key l t [TxnBegin env MDB_RDONLY] []
  | no_dbi txn : listing env name key l t [TxnBegin env MDB_RDONLY; DbiOpen txn name 0; TxnAbort txn] []
  | no_cursor txn dbi : listing env name key l t
      [TxnBegin env MDB_RDONLY; DbiOpen txn name 0; CursorOpen txn dbi; TxnAbort txn] []
  | all_listed txn dbi c : listing env name key l t
      ([TxnBegin env MDB_RDONLY; DbiOpen txn name 0; CursorOpen txn dbi] ++ next_calls c key l ++
       [CursorClose c; TxnAbort txn]) t.

(** No call of LMDB fails. *)
Definition never_fails : Prop := forall c e a e', mdb c e = Ret (a, e') ->
  match c with TxnBegin _ _ | DbiOpen _ _ _ | CursorOpen _ _ => a_rc a = 0 | _ => True end.

Lemma get_file_list_run fuel key db d name s ts : dbs s !! db = Some d -> name_of d = Ret name ->
  Forall2 (fun e t => list_line e.2 = Ret t) (content (env d) name (denv s)) ts ->
  (length (content (env d) name (denv s)) < fuel)%nat ->
  runs (get_file_list mdb fuel key db) s (fun _ s' => exists cs t, printed s cs t s' /\
    listing (env d) name key (content (env d) name (denv s)) (concat ts) cs t /\ (never_fails -> t = concat ts)).
Proof.
  intros D N F Hf. unfold get_file_list. apply (deref_step _ d); [done|]. apply runs_bind.
  eapply runs_mono; [apply (call_runs mdb mdb_answers)|]. intros a1 s1 (C1 & B1 & M1).
  destruct (decide (a_rc a1 <> 0)) as [H1|H1].
  { apply runs_ret. eexists _, []. split; [by apply called_printed|]. split; [constructor|]. intros Nf. by apply Nf in M1. }
  apply (dlift_step _ name); [done|]. apply runs_bind.
  eapply runs_mono; [apply (call_runs mdb mdb_answers)|]. intros a2 s2 (C2 & B2 & M2).
  pose proof (called_trans _ _ _ _ _ C1 C2) as C. clear C1 C2.
  destruct (decide (a_rc a2 <> 0)) as [H2|H2].
  { apply runs_bind. eapply runs_mono; [apply (call_runs mdb mdb_answers)|]. intros a3 s3 (C3 & _ & _). apply runs_ret.
    eexists _, []. split; [apply called_printed; exact (called_trans _ _ _ _ _ C C3)|]. split; [constructor|].
    intros Nf. by apply Nf in M2. }
  apply runs_bind, runs_modify, runs_bind. eapply runs_mono; [apply (call_runs mdb mdb_answers)|].
  intros a3 s3 (C3 & B3 & M3). cbn [denv] in M3.
  assert (C' : called s ([TxnBegin (env d) MDB_RDONLY; DbiOpen (a_handle a1) name 0; CursorOpen (a_handle a1) (a_handle a2)]) s3)
    by exact (called_trans _ _ _ _ _ C C3). clear C C3.
  destruct (decide (a_rc a3 <> 0)) as [H3|H3].
  { apply runs_bind. eapply runs_mono; [apply (call_runs mdb mdb_answers)|]. intros a4 s4 (C4 & _ & _). apply runs_ret.
    eexists _, []. split; [apply called_printed; exact (called_trans _ _ _ _ _ C' C4)|]. split; [constructor|].
    intros Nf. by apply Nf in M3. }
  assert (A : ahead (a_handle a3) (denv s3) = content (env d) name (denv s)).
  { apply (cursor_opened _ _ _ a1 (denv s1) a2 (denv s2)); try done; lia. }
  apply runs_bind. eapply runs_mono; [apply (list_loop_run _ fuel (a_handle a3) key s3 ts A Hf F)|].
  intros _ s4 (P & _). apply runs_bind. eapply runs_mono; [apply (call_runs mdb mdb_answers)|]. intros a5 s5 (C5 & _ & _).
  apply runs_bind. eapply runs_mono; [apply (call_runs mdb mdb_answers)|]. intros a6 s6 (C6 & _ & _). apply runs_ret.
  eexists _, (concat ts). split; [|split; [apply all_listed|done]].
  pose proof (printed_trans _ _ _ _ _ _ _ (called_printed _ _ _ C') (printed_trans _ _ _ _ _ _ _ P
    (called_printed _ _ _ (called_trans _ _ _ _ _ C5 C6)))) as Q.
  cbn [app] in Q. rewrite app_nil_r in Q. exact Q.
Qed.

End Listing.

(** ** Creating *)

Section Creating.
Context {HP FS E : Type} `{!Allocator HP}.
Variable mdb : mdb_call -> ST E answer.
Variable mkdir : list Z -> Z -> FS -> FS * Z * bool.
Variable stat_fails : list Z -> FS -> bool.
Variable junk : nat -> list Z.
Variable junk_dbi : Z.
Hypothesis mdb_answers : forall c e, exists a e', mdb c e = Ret (a, e').
Hypothesis alloc_returns : forall n (h : HP), exists p h', a_alloc n h = Ret (p, h').
Hypothesis junk_length : forall n, length (junk n) = n.
Implicit Types s : dstate (HP := HP) (FS := FS) (E := E).

(** The arrays after the two copies. *)
Definition arrays_of (dbpath dbname : list Z) : option (list Z) :=
  m ← poke (junk sizeof_chars) off_dbpath (strncpy dbpath 127);
  m ← poke m (off_dbpath + 128) [0];
  m ← poke m off_dbname (strncpy dbname 31);
  poke m (off_dbname + 32) [0].

Lemma arrays_some dbpath dbname : exists m, arrays_of dbpath dbname = Some m /\
  (forall i, (i < 31)%nat -> m !! i = strncpy dbname 31 !! i) /\ m !! 32%nat = Some 0.
Proof.
  unfold arrays_of, off_dbpath, off_dbname.
  destruct (poke (junk sizeof_chars) 32 (strncpy dbpath 127)) as [m1|] eqn:E1.
  2:{ rewrite poke_Some in E1; [done|]. rewrite strncpy_length, junk_length. apply Nat.leb_le. reflexivity. }
  pose proof (poke_length _ _ _ _ E1) as L1. rewrite junk_length in L1. cbn [mbind option_bind].
  destruct (poke m1 (32 + 128) [0]) as [m2|] eqn:E2.
  2:{ rewrite poke_Some in E2; [done|]. rewrite L1. apply Nat.leb_le. reflexivity. }
  pose proof (poke_length _ _ _ _ E2) as L2. rewrite L1 in L2. cbn [mbind option_bind].
  destruct (poke m2 0 (strncpy dbname 31)) as [m3|] eqn:E3.
  2:{ rewrite poke_Some in E3; [done|]. rewrite strncpy_length, L2. apply Nat.leb_le. reflexivity. }
  pose proof (poke_length _ _ _ _ E3) as L3. rewrite L2 in L3. cbn [mbind option_bind].
  destruct (poke m3 (0 + 32) [0]) as [m4|] eqn:E4.
  2:{ rewrite poke_Some in E4; [done|]. rewrite L3. apply Nat.leb_le. reflexivity. }
  exists m4. split; [done|]. split.
  - intros i Hi. rewrite (lookup_poke _ _ _ _ _ E4). rewrite decide_False by (cbn [length]; lia).
    rewrite (lookup_poke _ _ _ _ _ E3). rewrite strncpy_length, decide_True by lia. by rewrite Nat.sub_0_r.
  - rewrite (lookup_poke _ _ _ _ _ E4). by rewrite decide_True by (cbn [length]; lia).
Qed.

(** The conversation with LMDB when an environment is opened: up to the first refusal, or to the handle. *)
Inductive opened (size : Z) (path : list Z) (e : E) : list mdb_call -> option Z -> E -> Prop :=
  | Not_created a e1 : mdb EnvCreate e = Ret (a, e1) -> a_rc a <> 0 -> opened size path e [EnvCreate] None e1
  | Not_sized a e1 b e2 : let sized := EnvSetMapsize (a_handle a) (if decide (size <= 0) then KXDEFAULTSIZE else size) in
      mdb EnvCreate e = Ret (a, e1) -> a_rc a = 0 -> mdb sized e1 = Ret (b, e2) -> a_rc b <> 0 ->
      opened size path e [EnvCreate; sized] None e2
  | Env_opened a e1 b e2 c e3 f e4 : let h := a_handle a in
      let sized := EnvSetMapsize h (if decide (size <= 0) then KXDEFAULTSIZE else size) in
      mdb EnvCreate e = Ret (a, e1) -> a_rc a = 0 -> mdb sized e1 = Ret (b, e2) -> a_rc b = 0 ->
      mdb (EnvSetMaxdbs h 4) e2 = Ret (c, e3) -> mdb (EnvOpen h path 0 0x1b4) e3 = Ret (f, e4) ->
      opened size path e [EnvCreate; sized; EnvSetMaxdbs h 4; EnvOpen h path 0 0x1b4]
        (if decide (a_rc f = 0) then Some h else None) e4.

Definition created (size : Z) (dbpath dbname : list Z) s (p : Z) s' : Prop :=
  dout s' = dout s /\
  exists q h, a_alloc sizeof_kxdb (dheap s) = Ret (q, h) /\
  if decide (q = 0) then p = 0 /\ a_live (dheap s') = a_live (dheap s) /\ calls s' = calls s /\ denv s' = denv s
  else (q ∉ a_live (dheap s)) /\ a_live (dheap s') = {[q]} ∪ a_live (dheap s) /\
    exists cs o, opened size dbpath (denv s) cs o (denv s') /\ calls s' = calls s ++ cs /\
      match o with
      | None => p = 0
      | Some h => p = q /\ exists d, dbs s' !! q = Some d /\ env d = h /\ max_mapsize d = size /\
          ((length dbname < 31)%nat -> name_of d = Ret dbname)
      end.

Lemma name_made m dbname : nonul dbname -> (length dbname < 31)%nat ->
  (forall i, (i < 31)%nat -> m !! i = strncpy dbname 31 !! i) -> of_option (cstr (drop off_dbname m)) = Ret dbname.
Proof. intros N L H. unfold off_dbname. by rewrite (cstr_strncpy m 0 31 dbname N L). Qed.

Lemma dlift_option {A B} (o : option A) (a : A) (k : A -> ST (dstate (HP := HP) (FS := FS) (E := E)) B) s Q :
  o = Some a -> runs (k a) s Q -> runs (x ← dlift (of_option o); k x) s Q.
Proof. intros ->. by apply dlift_step. Qed.

(** The directory is made when it is not there. *)
Lemma make_path_runs dbpath s : nonul dbpath ->
  runs (if stat_fails dbpath (dfs s) then on_path (kx_mkdirp mkdir (S (length dbpath)) dbpath 0x1ff) else mret 0) s
    (fun _ s' => a_live (dheap s') = a_live (dheap s) /\ dout s' = dout s /\ calls s' = calls s /\ dbs s' = dbs s /\ denv s' = denv s).
Proof using alloc_returns.
  intros Np. destruct (stat_fails _ _); [|by apply runs_ret].
  destruct (kx_mkdirp_runs mkdir 0x1ff alloc_returns (S (length dbpath)) dbpath (UPath (dheap s) (dfs s)) Np
    (Nat.lt_succ_diag_r _)) as (r & u & Eu & Lu & _).
  eexists r, _. split; [unfold on_path; rewrite Eu; cbn; reflexivity|]. done.
Qed.

Lemma kx_creat_db_run size dbpath dbname s : nonul dbpath -> nonul dbname ->
  runs (kx_creat_db mdb mkdir stat_fails junk junk_dbi size dbpath dbname) s (created size dbpath dbname s).
Proof using mdb_answers alloc_returns junk_length.
  intros Np Nn. unfold kx_creat_db. apply runs_bind.
  destruct (alloc_returns sizeof_kxdb (dheap s)) as (q & h & Al).
  eexists q, _. split; [unfold on_dheap; rewrite Al; cbn; reflexivity|]. set (s0 := DState h _ _ _ _ _).
  destruct (decide (q = 0)) as [-> |Hq].
  { apply runs_ret. split; [done|]. exists 0, h. split; [done|]. rewrite decide_True by done. split; [done|]. split; [exact (a_alloc_null _ _ _ Al)|done]. }
  destruct (a_alloc_fresh _ _ _ _ Al Hq) as [Nl Lh].
  destruct (arrays_some dbpath dbname) as (m & Em & Hm & _). unfold arrays_of in Em.
  destruct (poke (junk sizeof_chars) off_dbpath _) as [m1|] eqn:E1; [|done]. cbn [mbind option_bind] in Em.
  destruct (poke m1 (off_dbpath + 128) [0]) as [m2|] eqn:E2; [|done]. cbn [mbind option_bind] in Em.
  destruct (poke m2 off_dbname _) as [m3|] eqn:E3; [|done]. cbn [mbind option_bind] in Em.
  apply (dlift_option _ m1); [done|]. apply (dlift_option _ m2); [done|]. apply (dlift_option _ m3); [done|].
  apply (dlift_option _ m); [done|].
  apply runs_bind. eapply runs_mono; [apply (call_runs mdb mdb_answers)|]. intros a1 s1 (C1 & B1 & F1).
  set (d := KxDb size (a_handle a1) junk_dbi m).
  apply runs_bind, runs_modify. set (s1' := DState _ _ _ (<[q := d]> _) _ _).
  assert (C1' : called s0 [EnvCreate] s1') by exact C1.
  assert (fail : forall cs s', called s0 cs s' -> opened size dbpath (denv s) cs None (denv s') -> created size dbpath dbname s 0 s').
  { intros cs s' (X1 & X2 & X3 & X4) Op. split; [exact X3|]. exists q, h. split; [done|]. rewrite decide_False by done.
    split; [done|]. split; [by rewrite X1|]. by exists cs, None. }
  destruct (decide (a_rc a1 <> 0)) as [H1|H1]; [apply runs_ret, (fail _ _ C1'); by eapply Not_created|]. assert (Z1 : a_rc a1 = 0) by lia.
  apply runs_bind. eapply runs_mono; [apply (call_runs mdb mdb_answers)|]. intros a2 s2 (C2 & B2 & F2).
  pose proof (called_trans _ _ _ _ _ C1' C2) as C12.
  destruct (decide (a_rc a2 <> 0)) as [H2|H2]; [apply runs_ret, (fail _ _ C12); by eapply Not_sized|]. assert (Z2 : a_rc a2 = 0) by lia.
  apply runs_bind. eapply runs_mono; [apply (call_runs mdb mdb_answers)|]. intros a3 s3 (C3 & B3 & F3).
  pose proof (called_trans _ _ _ _ _ C12 C3) as C13.
  apply runs_bind, runs_gets. apply runs_bind.
  eapply runs_mono; [exact (make_path_runs dbpath s3 Np)|]. intros _ s4 (L4 & O4 & K4 & B4 & D4).
  apply runs_bind. eapply runs_mono; [apply (call_runs mdb mdb_answers)|]. intros a5 s5 ((X1 & X2 & X3 & X4) & B5 & F5).
  destruct C13 as (Y1 & _ & Y3 & Y4). cbn [app] in Y4. rewrite D4 in F5.
  assert (Bd : dbs s5 !! q = Some d) by (rewrite B5, B4, B3, B2; apply lookup_insert_eq).
  pose proof (Env_opened size dbpath (denv s) a1 (denv s1) a2 (denv s2) a3 (denv s3) a5 (denv s5) F1 Z1 F2 Z2 F3 F5) as Op.
  assert (G : forall p, match (if decide (a_rc a5 = 0) then Some (a_handle a1) else None) with None => p = 0 | Some h => p = q end ->
    created size dbpath dbname s p s5).
  { intros p Hp. split; [by rewrite X3, O4, Y3|]. exists q, h. split; [done|]. rewrite decide_False by done. split; [done|].
    split; [by rewrite X1, L4, Y1|]. eexists _, _. split; [exact Op|]. split; [rewrite X4, K4, Y4; by rewrite <- app_assoc|].
    destruct (decide (a_rc a5 = 0)); [|done]. split; [done|]. exists d. split; [exact Bd|]. split; [done|]. split; [done|].
    intros Hl. exact (name_made m dbname Nn Hl Hm). }
  destruct (decide (a_rc a5 <> 0)); apply runs_ret, G; [by rewrite decide_False|by rewrite decide_True by lia].
Qed.

End Creating.

(** ** Properties *)

(** C26: [kx_store_db] on an open data base and the block of a record.  An
    unknown type gives -1 and touches nothing.  A record is stored under the
    bytes that follow its id in the block, as many as the key text is long;
    a text of more than 16 characters makes it read past the block.
    Otherwise LMDB is told to begin one write transaction, to open the data base of the name in it and to put the record,
    each with the handle of the answer before it (a NULL transaction, an uninitialised data base when that was an error); it is told to
    commit that transaction exactly when the put succeeded, and never to abort it; nothing else is called, and the result is 0 either way. *)
Theorem kx_store_db_spec {HP FS E : Type} (mdb : mdb_call -> ST E answer) junk_dbi db d name type ky gap tg kf
    (s : dstate (HP := HP) (FS := FS)) :
  (forall c e, exists a e', mdb c e = Ret (a, e')) -> dbs s !! db = Some d -> name_of d = Ret name ->
  length (fname kf) = NAME_MAX -> length (fullname kf) = PATH_MAX -> length tg = 4%nat ->
  if decide (type <> KX_DB_INSERT_FILE) then
    kx_store_db mdb junk_dbi db type ky (file_block gap tg kf) s = Ret (-1, s)
  else if decide (16 < length ky)%nat then
    kx_store_db mdb junk_dbi db type ky (file_block gap tg kf) s = Undef
  else runs (kx_store_db mdb junk_dbi db type ky (file_block gap tg kf)) s (fun r s' => r = 0 /\
    dbs s' = dbs s /\ exists cs, called s cs s' /\
      inserted mdb junk_dbi (env d) name (take (length ky) (after_id tg kf)) (file_block gap tg kf) (denv s) cs (denv s')).
Proof.
  intros A D N L1 L2 Lt. unfold kx_store_db. destruct (decide (type <> KX_DB_INSERT_FILE)) as [H|H].
  { by rewrite decide_False. }
  apply dec_stable in H. rewrite (decide_True (P := type = KX_DB_INSERT_FILE)) by done. destruct (decide (16 < length ky)%nat) as [Hk|Hk].
  - unfold mbind at 1, ST_bind at 1. by rewrite (insert_file_undef mdb junk_dbi A db d name).
  - apply runs_bind. eapply runs_mono; [apply (insert_file_runs mdb junk_dbi A db d name ky gap tg kf s); (done || lia)|].
    intros [] s' (Bs & cs & I & C). apply runs_ret. split; [done|]. split; [done|]. by exists cs.
Qed.

(** C27: [kx_get_db] of the list prints one line per record, in LMDB's order,
    with the name, the path and the id the record was made with, and ends;
    the read transaction is aborted, and the cursor closed, in every case
    where they were opened. *)
Theorem kx_get_db_list {HP FS E : Type} (mdb : mdb_call -> ST E answer) `{!Cursors mdb} fuel key db d name recs
    (s : dstate (HP := HP) (FS := FS)) :
  dbs s !! db = Some d -> name_of d = Ret name ->
  Forall2 (fun e r => exists gap tg kf, e.2 = file_block gap tg kf /\ good_file kf r.1.1 r.1.2 /\ uuid kf = r.2)
    (content mdb (env d) name (denv s)) recs ->
  (length recs < fuel)%nat ->
  runs (kx_get_db mdb fuel key db KX_DB_GET_FILELIST []) s (fun r s' => r = (0, None) /\
    exists cs t, printed s cs t s' /\
      let all := concat ((fun r => record_line r.1.1 r.1.2 r.2) <$> recs) in
      listing (env d) name key (content mdb (env d) name (denv s)) all cs t /\ (never_fails mdb -> t = all)).
Proof.
  intros D N F Hf. unfold kx_get_db. rewrite decide_False by discriminate. rewrite decide_True by done.
  apply runs_bind. eapply runs_mono; [apply (get_file_list_run mdb fuel key db d name s
    ((fun r => record_line r.1.1 r.1.2 r.2) <$> recs) D N)|].
  - apply Forall2_fmap_r. eapply Forall2_impl; [exact F|]. intros e r (gap & tg & kf & Ee & G & Eu).
    cbn. rewrite Ee, <- Eu. by apply list_line_record.
  - pose proof (Forall2_length _ _ _ F) as L. unfold entry in *. by rewrite L.
  - intros [] s' P. apply runs_ret. split; [done|]. exact P.
Qed.

(** [kx_creat_db] with LMDB answering: a block that cannot be allocated gives NULL and no call.  Otherwise LMDB is
    told to create an environment, to size it (10 MB for a size of 0), to limit it to four data bases and to
    open it on the path, in this order and as long as it does not refuse; NULL is given back exactly
    when it refuses, and then the block stays allocated and no environment is closed; else the block, with the handle LMDB
    gave and the name asked for when it has at most 30 characters. *)
Theorem kx_creat_db_spec {HP FS E : Type} `{!Allocator HP} (mdb : mdb_call -> ST E answer) mkdir stat_fails junk junk_dbi
    size dbpath dbname (s : dstate (HP := HP) (FS := FS)) :
  (forall c e, exists a e', mdb c e = Ret (a, e')) -> (forall n (h : HP), exists p h', a_alloc n h = Ret (p, h')) ->
  (forall n, length (junk n) = n) -> nonul dbpath -> nonul dbname ->
  runs (kx_creat_db mdb mkdir stat_fails junk junk_dbi size dbpath dbname) s (created mdb size dbpath dbname s).
Proof. exact (fun A B C => kx_creat_db_run mdb mkdir stat_fails junk junk_dbi A B C size dbpath dbname s). Qed.

(** A data base in memory: its records, and what its one cursor has ahead. *)
Definition mem_mdb (c : mdb_call) : ST (list entry * list entry) answer := fun e =>
  match c with
  | Put _ _ k d _ => Ret (Answer 0 1 [] [], (e.1 ++ [(k, d)], e.2))
  | CursorOpen _ _ => Ret (Answer 0 1 [] [], (e.1, e.1))
  | CursorGet _ _ op =>
      match e.2 with
      | [] => Ret (Answer (-30798) 0 [] [], e)
      | (k, d) :: l => Ret (Answer 0 0 k d, (e.1, l))
      end
  | _ => Ret (Answer 0 1 [] [], e)
  end.

#[export] Program Instance mem_cursors : Cursors mem_mdb := {|
  content _ _ e := e.1;
  ahead _ e := e.2
|}.
Next Obligation. intros c [a b]. destruct c; try (eexists _, _; reflexivity). destruct b as [|[k d] b]; eexists _, _; reflexivity. Qed.
Next Obligation. intros env name e a1 e1 a2 e2 a3 e3 [= <- <-] _ [= <- <-] _ [= <- <-] _. reflexivity. Qed.
Next Obligation.
  intros c k [x l] a e'. cbn. destruct l as [|[k' d] l]; intros [= <- <-]; [discriminate|]. done.
Qed.

Lemma mem_answers c e : exists a e', mem_mdb c e = Ret (a, e').
Proof. exact (mdb_answers mem_mdb c e). Qed.

(** The record of "a" at "/a" with the id 7, and a state with a data base "u". *)
Definition demo_file : kxfile := KxFile (strncpy [97] NAME_MAX) (strncpy [47; 97] PATH_MAX) 7 KXCIPHER.
Definition demo_db : kxdb := KxDb 0 1 0 ([117; 0] ++ replicate 162 7).
Definition demo_state (l : list entry) : dstate (HP := gset Z) (FS := unit) (E := list entry * list entry) :=
  DState ∅ tt (l, []) {[ 8 := demo_db ]} [] [].

Lemma kx_store_db_spec_witness :
  runs (kx_store_db mem_mdb 0 8 KX_DB_INSERT_FILE [117; 58; 55] (file_block 0 [0; 0; 0; 0] demo_file)) (demo_state [])
    (fun r s' => r = 0) /\
  kx_store_db mem_mdb 0 8 KX_DB_INSERT_FILE (replicate 17 58) (file_block 0 [0; 0; 0; 0] demo_file) (demo_state []) = Undef.
Proof.
  split.
  - eapply runs_mono; [exact (kx_store_db_spec mem_mdb 0 8 demo_db [117] KX_DB_INSERT_FILE [117; 58; 55] 0 [0; 0; 0; 0]
      demo_file (demo_state []) mem_answers eq_refl eq_refl (strncpy_length _ _) (strncpy_length _ _) eq_refl)|].
    intros r s' H. exact (proj1 H).
  - exact (kx_store_db_spec mem_mdb 0 8 demo_db [117] KX_DB_INSERT_FILE (replicate 17 58) 0 [0; 0; 0; 0]
      demo_file (demo_state []) mem_answers eq_refl eq_refl (strncpy_length _ _) (strncpy_length _ _) eq_refl).
Defined.

Lemma demo_good : good_file demo_file [97] [47; 97].
Proof.
  split; [reflexivity|]. split; [reflexivity|]. split; [by repeat constructor|]. split; [by repeat constructor|].
  split; [apply Nat.ltb_lt; reflexivity|]. split; [apply Nat.ltb_lt; reflexivity|]. split; [done|]. reflexivity.
Qed.

Lemma kx_get_db_list_witness :
  runs (kx_get_db mem_mdb 2 [] 8 KX_DB_GET_FILELIST []) (demo_state [([7], file_block 0 [0; 0; 0; 0] demo_file)])
    (fun r s' => dout s' = record_line [97] [47; 97] 7).
Proof.
  eapply runs_mono; [apply (kx_get_db_list mem_mdb 2 [] 8 demo_db [117] [([97], [47; 97], 7)])|].
  - reflexivity.
  - reflexivity.
  - apply Forall2_cons. split; [|constructor]. exists 0, [0; 0; 0; 0], demo_file. split; [reflexivity|]. split; [exact demo_good|reflexivity].
  - apply Nat.ltb_lt. reflexivity.
  - intros r s' (_ & cs & t & (_ & _ & O & _) & _ & T). rewrite O, T; [reflexivity|].
    intros c e a e' Ea. destruct c; try exact I; injection Ea as <- <-; reflexivity.
Defined.

Lemma kx_creat_db_spec_witness :
  runs (kx_creat_db mem_mdb (fun _ _ fs => (fs, 0, false)) (fun _ _ => true) (fun n => replicate n 7) 0 1000 [46; 47; 100] [117])
    (demo_state []) (fun p s' => exists d, dbs s' !! p = Some d /\ name_of d = Ret [117]).
Proof.
  assert (A : forall (x : Z) (h : gset Z), exists p h', a_alloc x h = Ret (p, h')) by exact endless_total.
  pose proof (kx_creat_db_spec mem_mdb (fun _ _ fs => (fs, 0, false)) (fun _ _ => true) (fun n => replicate n 7) 0 1000
    [46; 47; 100] [117] (demo_state []) mem_answers A (fun n => length_replicate n 7)
    ltac:(by repeat constructor) ltac:(by repeat constructor)) as (p & s' & Er & _ & P).
  exists p, s'. split; [exact Er|]. vm_compute in Er. injection Er as <- <-.
  eexists. split; [reflexivity|]. reflexivity.
Defined.
