(* ===== verification/Log.v ===== *)
(** * Logging (src/src/log.c, src/src/log.h)

    The table of callbacks, the levels and the order of lock, writers and
    unlock.  What a call of a callback or of the lock function does is not
    modelled: the calls are recorded in order.  The time of an event comes from
    the system. *)

From Stdlib Require Import ZArith Lia.
From stdpp Require Import prelude.
From S2P Require Import Prelude.
From S2P Require Import Net.

Definition MAX_CALLBACKS : nat := 32.

(** A log function: [file_callback] or one the program gives, by its address. *)
Inductive log_LogFn := FileCallback | LogFn (f : Z).

(** [fn] is [None] for NULL. *)
Record Callback := mkCallback { fn : option log_LogFn; cb_udata : Z; cb_level : Z }.

(** A lock function by its address, a line written to a stream or to stderr, and a call of a
    log function with its event. *)
Inductive effect :=
  | LockCall (f : Z) (b : bool) (udata : Z)
  | ToStderr (t : list Z)
  | ToFile (fp : Z) (t : list Z)
  | LogCall (f : Z) (udata level line : Z) (file fmt : list Z).

Record logger := Logger {
  udata : Z;
  lock_fn : option Z;
  level : Z;
  quiet : bool;
  callbacks : list Callback;
  effects : list effect
}.

(** The static table starts as zeros. *)
Definition empty_callback : Callback := mkCallback None 0 0.
Definition L0 : logger := Logger 0 None 0 false (replicate MAX_CALLBACKS empty_callback) [].

Definition emit (e : effect) : ST logger unit :=
  modify (fun s => Logger (udata s) (lock_fn s) (level s) (quiet s) (callbacks s) (effects s ++ [e])).
Definition loglift {A} (m : outcome A) : ST logger A := fun s => a ← m; Ret (a, s).

(** "TRACE", "DEBUG", "INFO", "WARN", "ERROR", "FATAL" *)
Definition level_strings : list (list Z) :=
  [[84; 82; 65; 67; 69]; [68; 69; 66; 85; 71]; [73; 78; 70; 79]; [87; 65; 82; 78]; [69; 82; 82; 79; 82]; [70; 65; 84; 65; 76]].

Definition log_level_string (level : Z) : outcome (list Z) :=
  if decide (level < 0) then Undef else of_option (level_strings !! Z.to_nat level).

(** "%-5s" *)
Definition left5 (s : list Z) : list Z := s ++ replicate (5 - length s) 32.

Definition lock : ST logger unit :=
  s ← gets (fun s => s);
  match lock_fn s with Some f => emit (LockCall f true (udata s)) | None => mret tt end.

Definition unlock : ST logger unit :=
  s ← gets (fun s => s);
  match lock_fn s with Some f => emit (LockCall f false (udata s)) | None => mret tt end.

Definition log_set_lock (f : option Z) (u : Z) : ST logger unit :=
  modify (fun s => Logger u f (level s) (quiet s) (callbacks s) (effects s)).
Definition log_set_level (l : Z) : ST logger unit :=
  modify (fun s => Logger (udata s) (lock_fn s) l (quiet s) (callbacks s) (effects s)).
Definition log_set_quiet (b : bool) : ST logger unit :=
  modify (fun s => Logger (udata s) (lock_fn s) (level s) b (callbacks s) (effects s)).

(** The loop of [log_add_callback]: the first free place. *)
Fixpoint free_place (l : list Callback) (i : nat) : option nat :=
  match l with
  | [] => None
  | cb :: l' => match fn cb with None => Some i | Some _ => free_place l' (S i) end
  end.

Definition log_add_callback (f : option log_LogFn) (u l : Z) : ST logger Z :=
  s ← gets (fun s => s);
  match free_place (callbacks s) 0 with
  | Some i =>
      modify (fun s => Logger (udata s) (lock_fn s) (level s) (quiet s) (<[i := mkCallback f u l]> (callbacks s)) (effects s));;
      mret 0
  | None => mret (-1)
  end.

Definition log_add_fp (fp l : Z) : ST logger Z := log_add_callback (Some FileCallback) fp l.

Section Log.
(** [time] and [localtime] printed with "%H:%M:%S" and "%Y-%m-%d %H:%M:%S". *)
Variable clock date : list Z.

(** [log_Event] but for the time. *)
Record log_Event := Event { ev_fmt : list Z; ev_args : list arg; ev_file : list Z; ev_line : Z; ev_level : Z }.

(** The line after the time, "%-5s %s:%d: ", the message and a newline. *)
Definition event_line (stamp : list Z) (ev : log_Event) : outcome (list Z) :=
  l ← log_level_string (ev_level ev);
  t ← vformat (ev_fmt ev) (ev_args ev);
  Ret (stamp ++ [32] ++ left5 l ++ [32] ++ ev_file ev ++ [58] ++ dec_signed (ev_line ev) ++ [58; 32] ++ t ++ [10]).

Definition stdout_callback (ev : log_Event) : ST logger unit := t ← loglift (event_line clock ev); emit (ToStderr t).
Definition file_callback (fp : Z) (ev : log_Event) : ST logger unit := t ← loglift (event_line date ev); emit (ToFile fp t).

Definition call_back (cb : Callback) (ev : log_Event) : ST logger unit :=
  match fn cb with
  | None => undef
  | Some FileCallback => file_callback (cb_udata cb) ev
  | Some (LogFn f) => emit (LogCall f (cb_udata cb) (ev_level ev) (ev_line ev) (ev_file ev) (ev_fmt ev))
  end.

(** The loop of [log_log]: up to the first free place. *)
Fixpoint callbacks_loop (l : list Callback) (ev : log_Event) : ST logger unit :=
  match l with
  | [] => mret tt
  | cb :: l' =>
      match fn cb with
      | None => mret tt
      | Some _ =>
          (if decide (cb_level cb <= ev_level ev) then call_back cb ev else mret tt);;
          callbacks_loop l' ev
      end
  end.

Definition log_log (lv : Z) (file : list Z) (line : Z) (fmt : list Z) (args : list arg) : ST logger unit :=
  let ev := Event fmt args file line lv in
  lock;;
  s ← gets (fun s => s);
  (if decide (quiet s = false /\ level s <= lv) then stdout_callback ev else mret tt);;
  callbacks_loop (callbacks s) ev;;
  unlock.

End Log.

(** ** The table as a list *)

(** The callbacks added so far. *)
Definition holds (s : logger) (cbs : list Callback) : Prop :=
  Forall (fun cb => fn cb <> None) cbs /\ (length cbs <= MAX_CALLBACKS)%nat /\
  callbacks s = cbs ++ replicate (MAX_CALLBACKS - length cbs) empty_callback.

Lemma free_place_run cbs n : Forall (fun cb => fn cb <> None) cbs -> forall i,
  free_place (cbs ++ replicate n empty_callback) i = (if decide (n = O) then None else Some (i + length cbs)%nat).
Proof.
  induction 1 as [|cb cbs H _ IH]; intros i; cbn [app free_place].
  - destruct n as [|n]; [done|]. cbn. by rewrite Nat.add_0_r.
  - destruct (fn cb) eqn:E; [|done]. rewrite IH. destruct n; [done|]. cbn. f_equal. lia.
Qed.

(** What adding callbacks leaves as it is. *)
Definition settings (s : logger) : Z * option Z * Z * bool * list effect :=
  (udata s, lock_fn s, level s, quiet s, effects s).

Lemma add_runs s cbs f u l : holds s cbs ->
  runs (log_add_callback (Some f) u l) s (fun r s' => settings s' = settings s /\
    if decide (length cbs = MAX_CALLBACKS) then r = -1 /\ s' = s
    else r = 0 /\ holds s' (cbs ++ [mkCallback (Some f) u l])).
Proof.
  intros (F & Hl & E). unfold log_add_callback. apply runs_bind, runs_gets. rewrite E, free_place_run by done.
  destruct (decide (length cbs = MAX_CALLBACKS)) as [H1|H1].
  - rewrite decide_True by lia. by apply runs_ret.
  - rewrite decide_False by lia. apply runs_bind, runs_modify, runs_ret. split; [done|]. split; [done|].
    split; [apply Forall_app; split; [done|by constructor]|]. rewrite length_app. cbn [length]. split; [lia|].
    cbn [callbacks]. rewrite E, insert_app_r_alt by lia. rewrite <- app_assoc. f_equal.
    replace (0 + length cbs - length cbs)%nat with 0%nat by lia.
    destruct (MAX_CALLBACKS - length cbs)%nat as [|n] eqn:En; [lia|].
    replace (MAX_CALLBACKS - (length cbs + 1))%nat with n by lia. done.
Qed.

Section LogFacts.
Variable clock date : list Z.

(** What one callback does with an event whose message is [t]. *)
Definition cb_effects (ev : log_Event) (file_line : list Z) (cb : Callback) : list effect :=
  if decide (cb_level cb <= ev_level ev) then
    match fn cb with
    | Some FileCallback => [ToFile (cb_udata cb) file_line]
    | Some (LogFn f) => [LogCall f (cb_udata cb) (ev_level ev) (ev_line ev) (ev_file ev) (ev_fmt ev)]
    | None => []
    end
  else [].

Definition with_effects (s : logger) (l : list effect) : logger :=
  Logger (udata s) (lock_fn s) (level s) (quiet s) (callbacks s) (effects s ++ l).

Lemma with_effects_app s l l' : with_effects (with_effects s l) l' = with_effects s (l ++ l').
Proof. unfold with_effects. cbn. by rewrite app_assoc. Qed.

Lemma emit_run e s : emit e s = Ret (tt, with_effects s [e]).
Proof. done. Qed.

Lemma callbacks_run ev t cbs n : Forall (fun cb => fn cb <> None) cbs -> event_line date ev = Ret t -> forall s,
  callbacks_loop date (cbs ++ replicate n empty_callback) ev s = Ret (tt, with_effects s (concat (cb_effects ev t <$> cbs))).
Proof.
  intros F Et. induction F as [|cb cbs H _ IH]; intros s; cbn [app callbacks_loop fmap list_fmap concat].
  - assert (E : with_effects s [] = s) by (unfold with_effects; rewrite app_nil_r; by destruct s).
    rewrite E. by destruct n.
  - destruct (fn cb) as [f|] eqn:Ef; [|done].
    assert (E : (if decide (cb_level cb <= ev_level ev) then call_back date cb ev else mret tt) s =
                Ret (tt, with_effects s (cb_effects ev t cb))).
    { unfold cb_effects. case_decide.
      - unfold call_back. rewrite Ef. destruct f as [|f]; [|apply emit_run].
        unfold file_callback, mbind, ST_bind, loglift. rewrite Et. cbn. apply emit_run.
      - unfold with_effects. rewrite app_nil_r. by destruct s. }
    rewrite (bind_ret _ _ _ _ _ E), IH. by rewrite with_effects_app.
Qed.

Definition lock_effect (s : logger) (b : bool) : list effect :=
  match lock_fn s with Some f => [LockCall f b (udata s)] | None => [] end.

Lemma nothing s : with_effects s [] = s.
Proof. unfold with_effects. rewrite app_nil_r. by destruct s. Qed.

Lemma log_run s cbs lv file line fmt args tc td : holds s cbs ->
  event_line clock (Event fmt args file line lv) = Ret tc -> event_line date (Event fmt args file line lv) = Ret td ->
  log_log clock date lv file line fmt args s = Ret (tt, with_effects s (lock_effect s true ++
    (if decide (quiet s = false /\ level s <= lv) then [ToStderr tc] else []) ++
    concat (cb_effects (Event fmt args file line lv) td <$> cbs) ++ lock_effect s false)).
Proof.
  intros (F & _ & Ec) Ct Dt. unfold log_log. set (ev := Event fmt args file line lv) in *.
  set (s1 := with_effects s (lock_effect s true)).
  assert (E1 : lock s = Ret (tt, s1)).
  { unfold lock, s1, lock_effect. rewrite (bind_ret _ _ s s s eq_refl). destruct (lock_fn s); [apply emit_run|by rewrite nothing]. }
  rewrite (bind_ret _ _ _ _ _ E1). rewrite (bind_ret _ _ s1 s1 s1 eq_refl).
  set (out := if decide (quiet s = false /\ level s <= lv) then [ToStderr tc] else []).
  assert (E2 : (if decide (quiet s1 = false /\ level s1 <= lv) then stdout_callback clock ev else mret tt) s1 =
               Ret (tt, with_effects s1 out)).
  { unfold out. change (quiet s1) with (quiet s). change (level s1) with (level s). case_decide; [|by rewrite nothing].
    unfold stdout_callback, mbind, ST_bind, loglift. rewrite Ct. cbn. apply emit_run. }
  rewrite (bind_ret _ _ _ _ _ E2). change (callbacks s1) with (callbacks s). rewrite Ec.
  rewrite (bind_ret _ _ _ _ _ (callbacks_run ev td cbs _ F Dt (with_effects s1 out))).
  set (s2 := with_effects _ _). assert (E3 : unlock s2 = Ret (tt, with_effects s2 (lock_effect s false))).
  { unfold unlock, lock_effect. rewrite (bind_ret _ _ s2 s2 s2 eq_refl). change (lock_fn s2) with (lock_fn s).
    change (udata s2) with (udata s). destruct (lock_fn s); [apply emit_run|by rewrite nothing]. }
  rewrite E3. unfold s2, s1. by rewrite !with_effects_app.
Qed.

End LogFacts.

(** Adding callbacks one after the other; the results. *)
Fixpoint add_all (l : list (log_LogFn * Z * Z)) : ST logger (list Z) :=
  match l with
  | [] => mret []
  | (f, u, lv) :: l' => r ← log_add_callback (Some f) u lv; rs ← add_all l'; mret (r :: rs)
  end.

Definition as_callback (e : log_LogFn * Z * Z) : Callback := mkCallback (Some e.1.1) e.1.2 e.2.

Lemma add_all_run l : forall s cbs, holds s cbs -> runs (add_all l) s (fun rs s' => settings s' = settings s /\
  holds s' (take MAX_CALLBACKS (cbs ++ (as_callback <$> l))) /\
  rs = (fun i => if decide (length cbs + i < MAX_CALLBACKS)%nat then 0 else -1) <$> seq 0 (length l)).
Proof.
  induction l as [|[[f u] lv] l IH]; intros s cbs H; cbn [add_all].
  - apply runs_ret. split; [done|]. rewrite app_nil_r. destruct H as (F & Hl & E). by rewrite take_ge.
  - apply runs_bind. eapply runs_mono; [exact (add_runs s cbs f u lv H)|]. intros r s1 (E1 & P). apply runs_bind.
    destruct H as (F & Hl & E). case_decide as Hc.
    + destruct P as [-> ->]. eapply runs_mono; [exact (IH s cbs (conj F (conj Hl E)))|].
      intros rs s2 (E2 & H2 & ->). apply runs_ret. split; [done|]. split.
      { rewrite take_app_ge by lia. rewrite take_app_ge in H2 by lia. rewrite Hc in *. rewrite Nat.sub_diag in *. exact H2. }
      cbn [length seq fmap list_fmap]. rewrite decide_False by lia. f_equal. rewrite <- fmap_S_seq, <- list_fmap_compose.
      apply list_fmap_ext. intros i x Hx. cbn. by rewrite !decide_False by lia.
    + destruct P as [-> P]. eapply runs_mono; [exact (IH s1 _ P)|].
      intros rs s2 (E2 & H2 & ->). apply runs_ret. split; [congruence|]. split; [by rewrite <- app_assoc in H2|].
      cbn [length seq fmap list_fmap]. rewrite decide_True by lia. f_equal. rewrite <- fmap_S_seq, <- list_fmap_compose.
      apply list_fmap_ext. intros i x Hx. cbn. rewrite length_app. cbn [length].
      destruct (decide (length cbs + 1 + x < MAX_CALLBACKS)%nat); destruct (decide (length cbs + S x < MAX_CALLBACKS)%nat); done || lia.
Qed.

(** ** Properties *)

(** From the empty table, callbacks are kept in the order they are added, up to 32,
    and every further one is refused with -1.  An event at a defined level then reaches,
    between one call of the lock function and one of the unlock function if
    there is one: stderr, if the logger is not quiet and the level is high
    enough, and each kept callback whose level it reaches, in that order and once each,
    files with the date in front.  The quiet flag and the level of the
    logger do not concern the callbacks. *)
Theorem log_log_spec clock date l lv file line fmt args tc td (s : logger) :
  callbacks s = replicate MAX_CALLBACKS empty_callback ->
  event_line clock (Event fmt args file line lv) = Ret tc -> event_line date (Event fmt args file line lv) = Ret td ->
  runs (add_all l) s (fun rs s1 =>
    settings s1 = settings s /\
    rs = (fun i => if decide (i < MAX_CALLBACKS)%nat then 0 else -1) <$> seq 0 (length l) /\
    log_log clock date lv file line fmt args s1 = Ret (tt, with_effects s1 (lock_effect s true ++
      (if decide (quiet s = false /\ level s <= lv) then [ToStderr tc] else []) ++
      concat (cb_effects (Event fmt args file line lv) td <$> take MAX_CALLBACKS (as_callback <$> l)) ++
      lock_effect s false))).
Proof.
  intros E Ct Dt. assert (H : holds s []) by (split; [constructor|]; split; [cbn; lia|exact E]).
  eapply runs_mono; [exact (add_all_run l s [] H)|]. intros rs s1 (S & H1 & R). split; [exact S|]. split; [exact R|].
  pose proof S as S'. injection S' as S1 S2 S3 S4 _.
  rewrite (log_run clock date s1 _ lv file line fmt args tc td H1 Ct Dt). unfold lock_effect. by rewrite S1, S2, S3, S4.
Qed.

(** A file for errors and a function for everything; a warning "x1" at line 7 of "f". *)
Lemma log_log_spec_witness :
  runs (add_all [(FileCallback, 3, 4); (LogFn 9, 5, 0)]) L0 (fun rs s1 => rs = [0; 0] /\
    exists tc, log_log [49] [50] 3 [102] 7 [120; 37; 100] [AInt 1] s1 =
      Ret (tt, with_effects s1 [ToStderr tc; LogCall 9 5 3 7 [102] [120; 37; 100]])).
Proof.
  eapply runs_mono; [eapply (log_log_spec [49] [50] [(FileCallback, 3, 4); (LogFn 9, 5, 0)] 3 [102] 7 [120; 37; 100] [AInt 1]);
    [reflexivity|vm_compute; reflexivity|vm_compute; reflexivity]|].
  intros rs s1 (_ & R & E). split; [exact R|]. eexists. exact E.
Defined.
