(* ===== verification/Mq.v ===== *)
(** * Messages and start-up (src/src/mq.c, src/src/mq.h, src/src/rkx.c)

    The MQTT client object, its callbacks, and the start of the program: the
    thread that runs the network loop and the main thread that waits for the
    first answer to the subscription.  The mosquitto library is one function
    of a call and of its own state, about which nothing is assumed; the
    calls are recorded.  The two threads are a step relation: POSIX mutex and
    condition variable, with spurious wake-ups. *)

From Stdlib Require Import ZArith Lia Ascii String.
From stdpp Require Import prelude gmap.
From S2P Require Import Prelude.
From S2P Require Import Net.

(** ** The library *)

(** The callbacks of the program; NULL is [None]. *)
Inductive callback := OnConnect | RkxConnect | RkxSubscribe | RkxMessage | OtherCb (f : Z).

Inductive mosq_call :=
  | LibInit | LibCleanup
  | New (clean_session : bool) (obj : Z)
  | Destroy (mosq : Z)
  | ConnectCall (mosq : Z) (host : option (list Z)) (port keepalive : Z)
  | LoopForever (mosq timeout max_packets : Z)
  | Subscribe (mosq : Z) (topic : option (list Z)) (qos : Z)
  | Disconnect (mosq : Z)
  | SetConnect (mosq : Z) (f : option callback)
  | SetSubscribe (mosq : Z) (f : option callback)
  | SetMessage (mosq : Z) (f : option callback)
  | SetLog (mosq : Z) (f : option callback)
  | Strdup (s : list Z).

#[export] Instance callback_eq : EqDecision callback.
Proof. solve_decision. Defined.
#[export] Instance mosq_call_eq : EqDecision mosq_call.
Proof. solve_decision. Defined.

Definition MOSQ_ERR_SUCCESS : Z := 0.

Record kxmq := KxMq {
  mosq : Z; keepalive : Z; host : option (list Z); port : Z; topic : option (list Z);
  f_connect : option callback; f_subscribe : option callback; f_message : option callback; f_log : option callback
}.

Open Scope string_scope.
Definition text_connect : list Z := text "MQTT connect: ".
Definition text_qos : list Z := text "MQTT QoS level for topic ".
Definition text_granted : list Z := text " : granted qos = ".
Definition text_on_connect : list Z := text "on_connect: ".
Definition text_on_subscribe : list Z := text "on_subscribe: ".
Definition text_on_granted : list Z := text ":granted qos = ".
Close Scope string_scope.

Section Mq.
Context {HP Q : Type} `{!Allocator HP}.

Variable mosquitto : mosq_call -> ST Q Z.
Variable connack_string : Z -> list Z.

Record mqstate := MqState {
  mheap : HP; broker : Q; mqs : gmap Z kxmq; mout : list Z; mcalls : list mosq_call
}.

Definition on_mheap {A} (m : ST HP A) : ST mqstate A := fun s =>
  '(a, h) ← m (mheap s); Ret (a, MqState h (broker s) (mqs s) (mout s) (mcalls s)).
Definition mcall (c : mosq_call) : ST mqstate Z := fun s =>
  '(r, q) ← mosquitto c (broker s); Ret (r, MqState (mheap s) q (mqs s) (mout s) (mcalls s ++ [c])).
Definition mprint (t : list Z) : ST mqstate unit :=
  modify (fun s => MqState (mheap s) (broker s) (mqs s) (mout s ++ t) (mcalls s)).
Definition put_mq (p : Z) (k : kxmq) : ST mqstate unit :=
  modify (fun s => MqState (mheap s) (broker s) (<[p := k]> (mqs s)) (mout s) (mcalls s)).
Definition drop_mq (p : Z) : ST mqstate unit :=
  modify (fun s => MqState (mheap s) (broker s) (delete p (mqs s)) (mout s) (mcalls s)).
Definition deref_mq (p : Z) : ST mqstate kxmq := fun s => k ← of_option (mqs s !! p); Ret (k, s).

(** ** mq.c *)

Definition sizeof_kxmq : Z := 72.

(** [strdup] gives NULL when [Strdup] answers 0. *)
Definition strdup (t : list Z) : ST mqstate (option (list Z)) :=
  r ← mcall (Strdup t); mret (if decide (r = 0) then None else Some t).

Definition kx_mq_init (host : list Z) (port : Z) (tp : list Z) : ST mqstate Z :=
  kq ← on_mheap (a_alloc sizeof_kxmq);
  if decide (kq = 0) then mret 0 else
  _ ← mcall LibInit;
  m ← mcall (New true kq);
  if decide (m = 0) then on_mheap (a_free kq);; mret 0 else
  h ← strdup host;
  t ← strdup tp;
  put_mq kq (KxMq m 60 h port t None None None None);;
  mret kq.

(** The two copies are released too; they have no identity here. *)
Definition kx_mq_free (kq : Z) : ST mqstate unit :=
  if decide (kq = 0) then mret tt else
  k ← deref_mq kq;
  _ ← mcall (Destroy (mosq k));
  _ ← mcall LibCleanup;
  on_mheap (a_free kq);;
  drop_mq kq.

(** [LoopForever] returns when the client has disconnected. *)
Definition kx_mq_loop_start (kq : Z) : ST mqstate Z :=
  k ← deref_mq kq;
  rc ← mcall (ConnectCall (mosq k) (host k) (port k) (keepalive k));
  if decide (rc <> MOSQ_ERR_SUCCESS) then
    _ ← mcall (Destroy (mosq k)); mret (-1)
  else
    _ ← mcall (LoopForever (mosq k) (-1) 1); mret 0.

Definition kx_mq_set_connect_cb (kq : Z) (f : option callback) : ST mqstate unit :=
  k ← deref_mq kq;
  put_mq kq (KxMq (mosq k) (keepalive k) (host k) (port k) (topic k)
    (match f with Some _ => f | None => Some OnConnect end) (f_subscribe k) (f_message k) (f_log k));;
  _ ← mcall (SetConnect (mosq k) f);
  mret tt.

Definition kx_mq_set_subscribe_cb (kq : Z) (f : option callback) : ST mqstate unit :=
  k ← deref_mq kq; _ ← mcall (SetSubscribe (mosq k) f); mret tt.
Definition kx_mq_set_message_cb (kq : Z) (f : option callback) : ST mqstate unit :=
  k ← deref_mq kq; _ ← mcall (SetMessage (mosq k) f); mret tt.
Definition kx_mq_set_log_cb (kq : Z) (f : option callback) : ST mqstate unit :=
  k ← deref_mq kq; _ ← mcall (SetLog (mosq k) f); mret tt.

(** The two connect callbacks differ in what they print. *)
Definition connected (head : list Z) (mosq obj reason_code : Z) : ST mqstate unit :=
  mprint (head ++ connack_string reason_code ++ [10]);;
  _ ← (if decide (reason_code <> 0) then mcall (Disconnect mosq) else mret 0);
  k ← deref_mq obj;
  rc ← mcall (Subscribe mosq (topic k) 1);
  if decide (rc <> MOSQ_ERR_SUCCESS) then _ ← mcall (Disconnect mosq); mret tt else mret tt.

Definition on_connect : Z -> Z -> Z -> ST mqstate unit := connected text_on_connect.

(** The loop over the granted levels; the result is [have_subscription]. *)
Fixpoint granted_loop (head mid : list Z) (i : nat) (granted_qos : list Z) (have : bool) : ST mqstate bool :=
  match granted_qos with
  | [] => mret have
  | q :: l =>
      mprint (head ++ dec (Z.of_nat i) ++ mid ++ dec_signed q ++ [10]);;
      granted_loop head mid (S i) l (if decide (q <= 2) then true else have)
  end.

Definition subscribed (head mid : list Z) (mosq : Z) (granted_qos : list Z) : ST mqstate unit :=
  have ← granted_loop head mid 0 granted_qos false;
  if (have : bool) then mret tt else _ ← mcall (Disconnect mosq); mret tt.

Definition on_subscribe (mosq obj : Z) (granted_qos : list Z) : ST mqstate unit :=
  subscribed text_on_subscribe text_on_granted mosq granted_qos.

(** The payload is printed as a string, whatever it is. *)
Definition on_message (topic : list Z) (qos : Z) (payload : list Z) : ST mqstate unit :=
  t ← (fun s => a ← of_option (cstr payload); Ret (a, s));
  mprint (topic ++ [32] ++ dec_signed qos ++ [32] ++ t ++ [10]).

Definition on_logcb (str : list Z) : ST mqstate unit := mprint (str ++ [10]).

(** ** rkx.c *)

Definition rkx_connect_cb : Z -> Z -> Z -> ST mqstate unit := connected text_connect.

(** Up to the locking of the mutex. *)
Definition rkx_subscribe_cb (mosq obj : Z) (granted_qos : list Z) : ST mqstate unit :=
  subscribed text_qos text_granted mosq granted_qos.

Definition rkx_message_cb : list Z -> Z -> list Z -> ST mqstate unit := on_message.

(** The MQTT part of [rkx_init]: "127.0.0.1", 1883, "test/topic". *)
Definition loopback_host : list Z := [49; 50; 55; 46; 48; 46; 48; 46; 49].
Definition test_topic : list Z := [116; 101; 115; 116; 47; 116; 111; 112; 105; 99].
Definition rkx_init_mq : ST mqstate Z :=
  mq ← kx_mq_init loopback_host 1883 test_topic;
  kx_mq_set_connect_cb mq (Some RkxConnect);;
  kx_mq_set_subscribe_cb mq (Some RkxSubscribe);;
  kx_mq_set_message_cb mq (Some RkxMessage);;
  mret mq.

(** ** The two threads *)

Inductive thread := Main | Mqtt.

(** The main thread: before the lock, at the test of [g_cbComplete], asleep in the wait,
    woken and waiting for the mutex, before the unlock, past it. *)
Inductive main_pc := MLock | MTest | MSleep | MWoken | MUnlock | MRun.

(** The thread of the loop: before the connection, in the loop, then in
    [rkx_subscribe_cb] before the lock, the assignment, the signal and the
    unlock; after the loop; [TExit] when the process has exited. *)
Inductive mqtt_pc := TConnect | TLoop | TLock | TSet | TSignal | TUnlock | TDone | TExit.

Record config := Config {
  main_at : main_pc;
  mqtt_at : mqtt_pc;
  g_cbComplete : bool;
  g_mutex : option thread;
  sys : mqstate
}.

Section Threads.
(** The client object and its handle. *)
Variable kq m : Z.

(** [main]: the lock, the loop around the wait, the unlock. *)
Inductive main_step : config -> config -> Prop :=
  | main_lock t f s : t <> TExit -> main_step (Config MLock t f None s) (Config MTest t f (Some Main) s)
  | main_done t o s : t <> TExit -> main_step (Config MTest t true o s) (Config MUnlock t true o s)
  | main_wait t s : t <> TExit -> main_step (Config MTest t false (Some Main) s) (Config MSleep t false None s)
  | main_spurious t f o s : t <> TExit -> main_step (Config MSleep t f o s) (Config MWoken t f o s)
  | main_relock t f s : t <> TExit -> main_step (Config MWoken t f None s) (Config MTest t f (Some Main) s)
  | main_unlock t f s : t <> TExit -> main_step (Config MUnlock t f (Some Main) s) (Config MRun t f None s).

(** [kxmq_thread_main]: the connection of [kx_mq_loop_start], the events of
    its loop, the end of [rkx_subscribe_cb]; the process exits when the
    connection fails. *)
Inductive mqtt_step : config -> config -> Prop :=
  | mqtt_connect a f o s k s' : mqs s !! kq = Some k ->
      mcall (ConnectCall (mosq k) (host k) (port k) (keepalive k)) s = Ret (MOSQ_ERR_SUCCESS, s') ->
      mqtt_step (Config a TConnect f o s) (Config a TLoop f o s')
  | mqtt_refused a f o s s' : kx_mq_loop_start kq s = Ret (-1, s') ->
      mqtt_step (Config a TConnect f o s) (Config a TExit f o s')
  | mqtt_connack a f o s rc s' : rkx_connect_cb m kq rc s = Ret (tt, s') ->
      mqtt_step (Config a TLoop f o s) (Config a TLoop f o s')
  | mqtt_suback a f o s granted s' : rkx_subscribe_cb m kq granted s = Ret (tt, s') ->
      mqtt_step (Config a TLoop f o s) (Config a TLock f o s')
  | mqtt_message a f o s tp qos payload s' : rkx_message_cb tp qos payload s = Ret (tt, s') ->
      mqtt_step (Config a TLoop f o s) (Config a TLoop f o s')
  | mqtt_end a f o s : Disconnect m ∈ mcalls s -> mqtt_step (Config a TLoop f o s) (Config a TDone f o s)
  | mqtt_lock a f s : mqtt_step (Config a TLock f None s) (Config a TSet f (Some Mqtt) s)
  | mqtt_set a f o s : mqtt_step (Config a TSet f o s) (Config a TSignal true o s)
  | mqtt_signal a f o s : mqtt_step (Config a TSignal f o s)
      (Config (match a with MSleep => MWoken | _ => a end) TUnlock f o s)
  | mqtt_unlock a f s : mqtt_step (Config a TUnlock f (Some Mqtt) s) (Config a TLoop f None s).

Definition step (c c' : config) : Prop := main_step c c' \/ mqtt_step c c'.

Definition initial (s : mqstate) : config := Config MLock TConnect false None s.

Definition reachable (s : mqstate) (c : config) : Prop := rtc step (initial s) c.

End Threads.
End Mq.

(** ** The invariant of the start *)

Section Startup.
Context {HP Q : Type} `{!Allocator HP}.
Variable mosquitto : mosq_call -> ST Q Z.
Variable connack_string : Z -> list Z.
Variable kq m : Z.

Abbreviation config := (config (HP := HP) (Q := Q)).
Abbreviation step := (step (HP := HP) mosquitto connack_string kq m).
Abbreviation main_step := (main_step (HP := HP) (Q := Q)).

(** A thread inside its critical section. *)
Definition main_holds (c : config) : Prop := main_at c = MTest \/ main_at c = MUnlock.
Definition mqtt_holds (c : config) : Prop := mqtt_at c = TSet \/ mqtt_at c = TSignal \/ mqtt_at c = TUnlock.

Definition start_inv (c : config) : Prop :=
  (g_mutex c = Some Main <-> main_holds c) /\ (g_mutex c = Some Mqtt <-> mqtt_holds c) /\
  (g_cbComplete c = false -> main_at c <> MUnlock /\ main_at c <> MRun /\ mqtt_at c <> TSignal /\ mqtt_at c <> TUnlock) /\
  (g_cbComplete c = true -> main_at c = MSleep -> mqtt_at c = TSignal).

Lemma initial_inv s : start_inv (initial s).
Proof. unfold start_inv, main_holds, mqtt_holds. cbn. naive_solver. Qed.

Lemma main_step_inv c c' : main_step c c' -> start_inv c -> start_inv c'.
Proof.
  unfold start_inv, main_holds, mqtt_holds. intros S (I1 & I2 & I3 & I4).
  destruct S; cbn in *; intuition congruence.
Qed.

Lemma mqtt_step_inv c c' : mqtt_step mosquitto connack_string kq m c c' -> start_inv c -> start_inv c'.
Proof.
  unfold start_inv, main_holds, mqtt_holds. intros S (I1 & I2 & I3 & I4).
  destruct S; cbn in *; try destruct a; try destruct f; naive_solver.
Qed.

Lemma reachable_inv s c : reachable mosquitto connack_string kq m s c -> start_inv c.
Proof.
  intros R. unfold reachable in R. remember (initial s) as c0 eqn:E. assert (H : start_inv c0) by (subst; apply initial_inv). clear E.
  induction R as [c|c c1 c2 S R IH]; [done|]. apply IH.
  destruct S as [S|S]; [by eapply main_step_inv|by eapply mqtt_step_inv].
Qed.

(** The steps the main thread still has to make once the answer is there. *)
Definition rank (a : main_pc) : nat :=
  match a with MRun => 0 | MUnlock => 1 | MTest => 2 | MLock | MWoken => 3 | MSleep => 4 end.

Lemma main_progress c : start_inv c -> g_cbComplete c = true -> ~ mqtt_holds c -> mqtt_at c <> TExit -> main_at c <> MRun ->
  (exists c', main_step c c') /\ (forall c', main_step c c' -> (rank (main_at c') < rank (main_at c))%nat /\ g_cbComplete c' = true).
Proof.
  intros (I1 & I2 & I3 & I4) F N X R. destruct c as [a t f o s]. cbn in *. subst f. unfold mqtt_holds, main_holds in *. cbn in *.
  assert (Ho : o = None \/ o = Some Main) by (destruct o as [[]|]; [by right|tauto|by left]).
  split.
  - destruct a; try (destruct Ho as [-> | ->]); try tauto.
    + eexists. by apply main_lock.
    + exfalso. destruct I1 as [I1 _]. destruct (I1 eq_refl); discriminate.
    + eexists. by apply main_done.
    + eexists. by apply main_done.
    + eexists. by apply main_relock.
    + exfalso. destruct I1 as [I1 _]. destruct (I1 eq_refl); discriminate.
    + exfalso. destruct I1 as [_ I1]. specialize (I1 (or_intror eq_refl)). discriminate.
    + eexists. by apply main_unlock.
  - intros c' S. inversion S; subst; cbn; split; try lia; done.
Qed.

(** After the end of the loop without an answer nothing changes any more. *)
Lemma done_forever c c' : rtc step c c' -> start_inv c -> mqtt_at c = TDone -> g_cbComplete c = false ->
  mqtt_at c' = TDone /\ g_cbComplete c' = false /\ main_at c' <> MRun.
Proof.
  induction 1 as [c|c c1 c2 S R IH]; intros I D F.
  - destruct I as (_ & _ & I & _). destruct (I F) as (_ & I' & _). done.
  - apply IH; destruct S as [S|S].
    + by eapply main_step_inv.
    + by eapply mqtt_step_inv.
    + destruct S; done.
    + destruct S; done.
    + destruct S; done.
    + destruct S; done.
Qed.

End Startup.

(** ** Properties *)

(** C25: the start of the program, for every interleaving of the two threads,
    every behaviour of the broker and every spurious wake-up.  The threads are never both inside their
    critical sections; the shell is not started before [rkx_subscribe_cb] has
    run to its assignment; once it has left its critical section no wake-up is
    lost: the main thread can always take a step and each of its steps brings it nearer to the
    shell, which it reaches after at most three.  But when the loop ends before any answer to the
    subscription, nothing can ever start the shell. *)
Theorem startup_safe {HP Q : Type} `{!Allocator HP} (mosquitto : mosq_call -> ST Q Z) connack_string kq m s
    (c : config (HP := HP)) : reachable mosquitto connack_string kq m s c ->
  ~ (main_holds c /\ mqtt_holds c) /\
  (main_at c = MRun -> g_cbComplete c = true) /\
  (g_cbComplete c = true -> ~ mqtt_holds c -> mqtt_at c <> TExit -> main_at c <> MRun ->
     (rank (main_at c) <= 3)%nat /\ (exists c', main_step c c') /\
     (forall c', main_step c c' -> (rank (main_at c') < rank (main_at c))%nat /\ g_cbComplete c' = true)) /\
  (mqtt_at c = TDone -> g_cbComplete c = false ->
     forall c', rtc (step mosquitto connack_string kq m) c c' -> main_at c' <> MRun).
Proof.
  intros R. pose proof (reachable_inv mosquitto connack_string kq m s c R) as I. pose proof I as (I1 & I2 & I3 & I4).
  split. { intros [H1 H2]. apply I1 in H1. apply I2 in H2. congruence. }
  split. { intros H. destruct (g_cbComplete c); [done|]. by destruct (I3 eq_refl) as (_ & H' & _). }
  split.
  - intros F N X H. split; [|by apply main_progress].
    destruct (main_at c); cbn; try lia. exfalso. apply N. right. left. by apply I4.
  - intros D F c' R'. by destruct (done_forever mosquitto connack_string kq m c c' R' I D F) as (_ & _ & H).
Qed.

(** A library that connects, subscribes and has no memory. *)
Definition quiet_lib (c : mosq_call) : ST unit Z := fun u => Ret (0, u).
Definition mq_demo : mqstate (HP := gset Z) (Q := unit) := MqState ∅ tt {[ 8 := KxMq 1 60 None 1883 None None None None None ]} [] [].

(** The broker refuses the connection (reason 5) while the main thread sleeps. *)
Lemma startup_safe_witness : exists c, reachable quiet_lib (fun _ => []) 8 1 mq_demo c /\ main_at c = MSleep /\
  forall c', rtc (step quiet_lib (fun _ => []) 8 1) c c' -> main_at c' <> MRun.
Proof.
  assert (R : exists s', reachable quiet_lib (fun _ => []) 8 1 mq_demo (Config MSleep TDone false None s')).
  { eexists. unfold reachable, initial.
    eapply rtc_l; [left; apply main_lock; discriminate|]. eapply rtc_l; [left; apply main_wait; discriminate|].
    eapply rtc_l; [right; eapply mqtt_connect; reflexivity|].
    eapply rtc_l; [right; eapply (mqtt_connack _ _ _ _ _ _ _ _ 5); vm_compute; reflexivity|].
    eapply rtc_l; [right; apply mqtt_end; apply (bool_decide_unpack _); vm_compute; exact I|]. apply rtc_refl. }
  destruct R as [s' R]. exists (Config MSleep TDone false None s'). split; [exact R|]. split; [reflexivity|].
  destruct (startup_safe quiet_lib (fun _ => []) 8 1 mq_demo _ R) as (_ & _ & _ & H). exact (H eq_refl eq_refl).
Defined.
