(* ===== verification/Midl.v ===== *)
(** * ID lists of the embedded data base (src/liblmdb/midl.c, midl.h)

    An MDB_IDL points at the second word of a block: the word before it is the
    capacity, [ids[0]] the number of IDs, then the IDs, largest first.  An
    MDB_ID2L is an array of pairs, smallest ID first, with the count in its
    first element.  Searching, sorting and merging act on the array from
    [ids[0]] on; growing acts on a heap of blocks of words over the C
    library's malloc and realloc, which are the class [Words].  Every access
    is checked against its array, [istack] included, and every [int] against
    its width. *)

From Stdlib Require Import ZArith Lia Sorted.
From stdpp Require Import prelude gmap sorting.
From S2P Require Import Prelude.

(** ** Arrays and integers *)

(** [ids[i]] and [ids[i] = x], undefined outside the array. *)
Definition load {A} (ids : list A) (i : Z) : outcome A :=
  if decide (0 <= i) then of_option (ids !! Z.to_nat i) else Undef.

Definition put {A} (ids : list A) (i : Z) (x : A) : list A := <[Z.to_nat i := x]> ids.

Definition store {A} (ids : list A) (i : Z) (x : A) : outcome (list A) :=
  if decide (0 <= i < Z.of_nat (length ids)) then Ret (put ids i x) else Undef.

(** The result of [int] arithmetic: overflow is undefined. *)
Definition int (x : Z) : outcome Z := if decide (- 2 ^ 31 <= x < 2 ^ 31) then Ret x else Undef.

Definition CMP (x y : Z) : Z := if decide (x < y) then -1 else if decide (x > y) then 1 else 0.

Definition MDB_IDL_LOGN : Z := 16.
Definition MDB_IDL_UM_SIZE : Z := Z.shiftl 1 (MDB_IDL_LOGN + 1).
Definition MDB_IDL_UM_MAX : Z := MDB_IDL_UM_SIZE - 1.

(** ** Searching *)

(** The loop of the binary searches; [cmp cursor] is the comparison of the
    element at [cursor] with the ID. *)
Fixpoint search_loop (fuel : nat) (cmp : Z -> outcome Z) (base cursor val n : Z) : outcome Z :=
  if decide (0 < n) then
    match fuel with
    | O => NoFuel
    | S f =>
        let pivot := Z.shiftr n 1 in
        let cursor := u32 (base + pivot + 1) in
        val ← cmp cursor;
        if decide (val < 0) then search_loop f cmp base cursor val pivot
        else if decide (val > 0) then search_loop f cmp cursor cursor val (u32 (n - (pivot + 1)))
        else Ret cursor
    end
  else Ret (if decide (val > 0) then u32 (cursor + 1) else cursor).

Definition mdb_midl_search (ids : list Z) (id : Z) : outcome Z :=
  n ← load ids 0;
  search_loop 32 (fun cursor => x ← load ids cursor; Ret (CMP x id)) 0 1 0 (u32 n).

(** ** Merging *)

(** [for (; old_id < merge_id; old_id = idl[--j]) idl[k--] = old_id] *)
Fixpoint merge_shift (fuel : nat) (idl : list Z) (old_id merge_id j k : Z) : outcome (list Z * Z * Z * Z) :=
  if decide (old_id < merge_id) then
    match fuel with
    | O => NoFuel
    | S f =>
        idl ← store idl k old_id;
        let j := u64 (j - 1) in
        old_id ← load idl j;
        merge_shift f idl old_id merge_id j (u64 (k - 1))
    end
  else Ret (idl, old_id, j, k).

(** [while (i)] *)
Fixpoint merge_loop (fuel : nat) (idl merge : list Z) (old_id i j k : Z) : outcome (list Z) :=
  if decide (i = 0) then Ret idl else
  match fuel with
  | O => NoFuel
  | S f =>
      merge_id ← load merge i;
      '(idl, old_id, j, k) ← merge_shift (length idl) idl old_id merge_id j k;
      idl ← store idl k merge_id;
      merge_loop f idl merge old_id (u64 (i - 1)) j (u64 (k - 1))
  end.

Definition mdb_midl_xmerge (idl merge : list Z) : outcome (list Z) :=
  i ← load merge 0;
  j ← load idl 0;
  let k := u64 (i + j) in
  let total := k in
  idl ← store idl 0 (2 ^ 64 - 1);
  old_id ← load idl j;
  idl ← merge_loop (length merge) idl merge old_id i j k;
  store idl 0 total.

(** ** Sorting *)

Definition SMALL : Z := 8.

(** The words of [int istack[sizeof(int)*CHAR_BIT * 2]]. *)
Definition ISTACK : nat := 4 * 8 * 2.

Definition MIDL_SWAP (ids : list Z) (a b : Z) : outcome (list Z) :=
  itmp ← load ids a;
  y ← load ids b;
  ids ← store ids a y;
  store ids b itmp.

(** [for (i=j-1;i>=1;i--) { if (ids[i] >= a) break; ids[i+1] = ids[i]; }] *)
Fixpoint insert_loop (fuel : nat) (ids : list Z) (a i : Z) : outcome (list Z * Z) :=
  if decide (i >= 1) then
    match fuel with
    | O => NoFuel
    | S f =>
        x ← load ids i;
        if decide (x >= a) then Ret (ids, i) else
        ids ← store ids (i + 1) x;
        i ← int (i - 1);
        insert_loop f ids a i
    end
  else Ret (ids, i).

(** [for (j=l+1;j<=ir;j++)] of the insertion sort *)
Fixpoint insertion_sort (fuel : nat) (ids : list Z) (j ir : Z) : outcome (list Z) :=
  if decide (j <= ir) then
    match fuel with
    | O => NoFuel
    | S f =>
        a ← load ids j;
        i ← int (j - 1);
        '(ids, i) ← insert_loop (length ids) ids a i;
        ids ← store ids (i + 1) a;
        j ← int (j + 1);
        insertion_sort f ids j ir
    end
  else Ret ids.

(** [do i++; while(ids[i] > a)] and [do j--; while(ids[j] < a)] *)
Fixpoint scan_up (fuel : nat) (ids : list Z) (a i : Z) : outcome Z :=
  match fuel with
  | O => NoFuel
  | S f =>
      i ← int (i + 1);
      x ← load ids i;
      if decide (x > a) then scan_up f ids a i else Ret i
  end.

Fixpoint scan_down (fuel : nat) (ids : list Z) (a j : Z) : outcome Z :=
  match fuel with
  | O => NoFuel
  | S f =>
      j ← int (j - 1);
      x ← load ids j;
      if decide (x < a) then scan_down f ids a j else Ret j
  end.

(** The inner [for(;;)]: the array and the final [i] and [j]. *)
Fixpoint partition_loop (fuel : nat) (ids : list Z) (a i j : Z) : outcome (list Z * Z * Z) :=
  match fuel with
  | O => NoFuel
  | S f =>
      i ← scan_up (length ids) ids a i;
      j ← scan_down (length ids) ids a j;
      if decide (j < i) then Ret (ids, i, j) else
      ids ← MIDL_SWAP ids i j;
      partition_loop f ids a i j
  end.

(** [if (ids[x] < ids[y]) MIDL_SWAP(ids[x], ids[y])] *)
Definition order_pair (ids : list Z) (x y : Z) : outcome (list Z) :=
  a ← load ids x;
  b ← load ids y;
  if decide (a < b) then MIDL_SWAP ids x y else Ret ids.

(** The median of three as partitioning element, and the partition. *)
Definition partition (ids : list Z) (l ir : Z) : outcome (list Z * Z * Z) :=
  s ← int (l + ir);
  let k := Z.shiftr s 1 in
  ids ← MIDL_SWAP ids k (l + 1);
  ids ← order_pair ids l ir;
  ids ← order_pair ids (l + 1) ir;
  ids ← order_pair ids l (l + 1);
  a ← load ids (l + 1);
  '(ids, i, j) ← partition_loop (length ids) ids a (l + 1) ir;
  x ← load ids j;
  ids ← store ids (l + 1) x;
  ids ← store ids j a;
  Ret (ids, i, j).

(** The outer [for(;;)]. *)
Fixpoint sort_loop (fuel : nat) (ids istack : list Z) (jstack l ir : Z) : outcome (list Z) :=
  match fuel with
  | O => NoFuel
  | S f =>
      if decide (ir - l < SMALL) then
        ids ← insertion_sort (length ids) ids (l + 1) ir;
        if decide (jstack = 0) then Ret ids else
        ir ← load istack jstack;
        l ← load istack (jstack - 1);
        sort_loop f ids istack (jstack - 2) l ir
      else
        '(ids, i, j) ← partition ids l ir;
        let jstack := jstack + 2 in
        if decide (ir - i + 1 >= j - l) then
          istack ← store istack jstack ir;
          istack ← store istack (jstack - 1) i;
          sort_loop f ids istack jstack l (j - 1)
        else
          istack ← store istack jstack (j - 1);
          istack ← store istack (jstack - 1) l;
          sort_loop f ids istack jstack i ir
  end.

(** [istack0]: what the uninitialised array happens to hold. *)
Definition mdb_midl_sort (istack0 : list Z) (ids : list Z) : outcome (list Z) :=
  n ← load ids 0;
  sort_loop (2 * length ids + 2) ids istack0 0 1 (swrap 32 n).

(** ** Facts about arrays *)

(** The element at an index in range. *)
Definition get (ids : list Z) (i : Z) : Z := ids !!! Z.to_nat i.

Definition size (ids : list Z) : Z := Z.of_nat (length ids).

Lemma size_put ids i x : size (put ids i x) = size ids.
Proof. unfold size, put. by rewrite length_insert. Qed.

Lemma load_get ids i : 0 <= i < size ids -> load ids i = Ret (get ids i).
Proof.
  unfold load, get, size. intros H. rewrite decide_True by lia.
  by rewrite (list_lookup_lookup_total_lt ids (Z.to_nat i)) by lia.
Qed.

Lemma store_put {A} (ids : list A) i x : 0 <= i < Z.of_nat (length ids) -> store ids i x = Ret (put ids i x).
Proof. intros H. unfold store. by rewrite decide_True. Qed.

Lemma get_put ids i j x : 0 <= i < size ids -> 0 <= j ->
  get (put ids i x) j = if decide (i = j) then x else get ids j.
Proof.
  unfold get, put, size. intros Hi Hj. rewrite list_insert_at.
  destruct (decide (i = j)) as [-> |]; [rewrite decide_True by lia|rewrite decide_False by lia]; done.
Qed.

Lemma put_get ids i : put ids i (get ids i) = ids.
Proof.
  unfold put, get. destruct (decide (Z.to_nat i < length ids)%nat).
  - apply list_insert_id. by apply list_lookup_lookup_total_lt.
  - apply list_insert_ge. lia.
Qed.

Lemma int_ret x : - 2 ^ 31 <= x < 2 ^ 31 -> int x = Ret x.
Proof. intros H. unfold int. by rewrite decide_True. Qed.

(** *** Exchanging two elements *)

Definition swap (ids : list Z) (i j : Z) : list Z := put (put ids i (get ids j)) j (get ids i).

Lemma size_swap ids i j : size (swap ids i j) = size ids.
Proof. unfold swap. by rewrite !size_put. Qed.

Lemma get_swap ids i j p : 0 <= i < size ids -> 0 <= j < size ids -> 0 <= p ->
  get (swap ids i j) p = if decide (p = i) then get ids j else if decide (p = j) then get ids i else get ids p.
Proof.
  intros Hi Hj Hp. unfold swap. rewrite !get_put by (rewrite ?size_put; lia).
  repeat case_decide; subst; try done; lia.
Qed.

Lemma swap_run ids i j : 0 <= i < size ids -> 0 <= j < size ids -> MIDL_SWAP ids i j = Ret (swap ids i j).
Proof.
  intros Hi Hj. unfold MIDL_SWAP. rewrite !load_get by done. cbn [mbind outcome_bind].
  rewrite !store_put by (fold (size ids); rewrite ?length_insert; unfold size in *; unfold put; rewrite ?length_insert; lia).
  cbn [mbind outcome_bind]. by rewrite store_put by (unfold put; rewrite length_insert; unfold size in *; lia).
Qed.

Lemma swap_perm ids i j : 0 <= i < size ids -> 0 <= j < size ids -> swap ids i j ≡ₚ ids.
Proof.
  unfold size. intros Hi Hj. apply Permutation_inj. split.
  { pose proof (size_swap ids i j). unfold size in *. lia. }
  set (ni := Z.to_nat i). set (nj := Z.to_nat j).
  exists (fun p => if decide (p = ni) then nj else if decide (p = nj) then ni else p). split.
  { intros p q. repeat case_decide; intros; subst; congruence. }
  intros p. unfold swap, put, get. fold ni nj.
  destruct (decide (p = ni)) as [-> |Hni]; [destruct (decide (nj = ni)) as [<- |E]|destruct (decide (p = nj)) as [-> |Hnj]].
  - rewrite list_lookup_insert_eq by (rewrite length_insert; lia). by rewrite list_lookup_lookup_total_lt by lia.
  - rewrite list_lookup_insert_ne by done. rewrite list_lookup_insert_eq by lia.
    by rewrite list_lookup_lookup_total_lt by lia.
  - rewrite list_lookup_insert_eq by (rewrite length_insert; lia). by rewrite list_lookup_lookup_total_lt by lia.
  - by rewrite !list_lookup_insert_ne by done.
Qed.

(** *** Rearranging a segment

    [rearr l r ids ids']: [ids'] has the elements of [ids], those outside
    [l..r] in place. *)

Record rearr (l r : Z) (ids ids' : list Z) : Prop := {
  rearr_size : size ids' = size ids;
  rearr_perm : ids' ≡ₚ ids;
  rearr_out : forall p, 0 <= p -> ~ (l <= p <= r) -> get ids' p = get ids p;
  rearr_in : forall p, l <= p <= r -> exists q, l <= q <= r /\ get ids' p = get ids q
}.

Lemma rearr_refl l r ids : rearr l r ids ids.
Proof. split; [done..|]. intros p Hp. by exists p. Qed.

Lemma rearr_trans l r a b c : rearr l r a b -> rearr l r b c -> rearr l r a c.
Proof.
  intros [S1 P1 O1 I1] [S2 P2 O2 I2]. split.
  - lia.
  - by rewrite P2.
  - intros p Hp Hn. by rewrite O2, O1.
  - intros p Hp. destruct (I2 p Hp) as (q & Hq & ->). destruct (I1 q Hq) as (q' & Hq' & ->). by exists q'.
Qed.

#[export] Instance rearr_preorder l r : PreOrder (rearr l r).
Proof. split; [intros a; apply rearr_refl|intros a b c; apply rearr_trans]. Qed.

Lemma rearr_swap l r ids i j : 0 <= l -> r < size ids -> l <= i <= r -> l <= j <= r -> rearr l r ids (swap ids i j).
Proof.
  intros Hl Hr Hi Hj. split.
  - apply size_swap.
  - apply swap_perm; lia.
  - intros p Hp Hn. rewrite get_swap by lia. by rewrite !decide_False by lia.
  - intros p Hp. rewrite get_swap by lia. repeat case_decide; eauto.
Qed.

(** A bound on a segment is kept. *)
Lemma rearr_forall l r ids ids' (P : Z -> Prop) : rearr l r ids ids' ->
  (forall p, l <= p <= r -> P (get ids p)) -> forall p, l <= p <= r -> P (get ids' p).
Proof. intros R H p Hp. destruct (rearr_in _ _ _ _ R p Hp) as (q & Hq & ->). by apply H. Qed.

(** ** The insertion sort *)

(** From [l] to [r] no element is larger than one before it. *)
Definition desc (ids : list Z) (l r : Z) : Prop :=
  forall p q, l <= p < q -> q <= r -> get ids q <= get ids p.

(** Moving [ids[i]] to the hole at [i+1] exchanges the two when the hole is
    thought to hold [a]. *)
Lemma shift_swap ids a i : 0 <= i -> i + 1 < size ids ->
  put (put ids (i + 1) (get ids i)) i a = swap (put ids (i + 1) a) i (i + 1).
Proof.
  intros Hi Hs. unfold swap. rewrite !get_put by lia. rewrite decide_True, decide_False by lia.
  unfold put. rewrite (list_insert_insert_ne _ (Z.to_nat (i + 1)) (Z.to_nat i)) by lia. by rewrite list_insert_insert_eq.
Qed.

Lemma insert_loop_run l j a : forall fuel ids i v,
  1 <= l <= i + 1 -> i < j < size ids -> size ids <= 2 ^ 31 -> i < Z.of_nat fuel ->
  v = put ids (i + 1) a ->
  (1 < l -> a <= get v (l - 1)) ->
  (forall p q, l <= p < q -> q <= j -> p <> i + 1 -> q <> i + 1 -> get v q <= get v p) ->
  (forall q, i + 1 < q <= j -> get v q <= a) ->
  exists ids' i', insert_loop fuel ids a i = Ret (ids', i') /\ 0 <= i' + 1 < size ids' /\
    rearr l j v (put ids' (i' + 1) a) /\ desc (put ids' (i' + 1) a) l j.
Proof.
  induction fuel as [|f IH]; intros ids i v Hl Hj Hs Hf -> Hfl Hso Hge; cbn [insert_loop].
  { rewrite decide_False by lia. exists ids, i. split; [done|]. split; [lia|]. split; [apply rearr_refl|].
    intros p q Hp Hq. destruct (decide (p = i + 1)) as [-> |]; [|apply Hso; lia].
    rewrite (get_put ids (i + 1) (i + 1)), decide_True by lia. by apply Hge; lia. }
  assert (Done : (i < 1 \/ a <= get ids i) -> desc (put ids (i + 1) a) l j).
  { intros Hb p q Hp Hq. destruct (decide (p = i + 1)) as [-> |Np].
    { rewrite (get_put ids (i + 1) (i + 1)), decide_True by lia. apply Hge; lia. }
    destruct (decide (q = i + 1)) as [-> |Nq]; [|by apply Hso].
    rewrite (get_put ids (i + 1) (i + 1)), decide_True by lia.
    assert (Ei : get (put ids (i + 1) a) i = get ids i) by (rewrite get_put by lia; by rewrite decide_False by lia).
    destruct (decide (p = i)) as [-> |]; [rewrite Ei; lia|].
    specialize (Hso p i ltac:(lia) ltac:(lia) ltac:(lia) ltac:(lia)). lia. }
  case_decide as Hi; [|exists ids, i; split; [done|]; split; [lia|]; split; [apply rearr_refl|apply Done; lia]].
  rewrite load_get by lia. cbn [mbind outcome_bind]. case_decide as Hx.
  { exists ids, i. split; [done|]. split; [lia|]. split; [apply rearr_refl|apply Done; lia]. }
  assert (Hli : l <= i).
  { destruct (decide (l = i + 1)) as [-> |]; [|lia]. exfalso. apply Hx.
    replace (i + 1 - 1) with i in Hfl by lia. rewrite get_put, decide_False in Hfl by lia. lia. }
  rewrite store_put by (unfold size in *; lia). cbn [mbind outcome_bind].
  rewrite int_ret by lia. cbn [mbind outcome_bind].
  pose proof (shift_swap ids a i ltac:(lia) ltac:(lia)) as Ev. set (v := put ids (i + 1) a) in *.
  assert (Sv : size v = size ids) by apply size_put.
  assert (Gv : get v (i + 1) = a) by (unfold v; rewrite get_put by lia; by rewrite decide_True).
  assert (Gi : get v i = get ids i) by (unfold v; rewrite get_put by lia; by rewrite decide_False by lia).
  destruct (IH (put ids (i + 1) (get ids i)) (i - 1) (swap v i (i + 1))) as (ids' & i' & E & Hi' & R & D).
  - lia.
  - rewrite size_put. lia.
  - by rewrite size_put.
  - lia.
  - rewrite <- Ev. f_equal. lia.
  - intros H1. rewrite get_swap by lia. rewrite !decide_False by lia. by apply Hfl.
  - intros p q Hp Hq Np Nq. rewrite !get_swap by lia.
    rewrite (decide_False (P := q = i)), (decide_False (P := p = i)) by lia.
    destruct (decide (q = i + 1)); destruct (decide (p = i + 1)); try lia; apply Hso; lia.
  - intros q Hq. rewrite get_swap by lia. rewrite decide_False by lia.
    case_decide; [|apply Hge; lia]. rewrite Gi. lia.
  - exists ids', i'. split; [done|]. split; [done|]. split; [|done].
    etrans; [|exact R]. apply rearr_swap; lia.
Qed.

(** Below [l] nothing is smaller than what is sorted. *)
Lemma insertion_sort_run l ir : forall fuel ids j,
  1 <= l < j -> ir < size ids -> size ids <= 2 ^ 31 - 1 -> ir - j < Z.of_nat fuel ->
  (1 < l -> forall p, l <= p <= ir -> get ids p <= get ids (l - 1)) ->
  desc ids l (j - 1) ->
  exists ids', insertion_sort fuel ids j ir = Ret ids' /\ rearr l ir ids ids' /\ desc ids' l ir.
Proof.
  induction fuel as [|f IH]; intros ids j Hj Hs Hw Hf Hfl D; cbn [insertion_sort].
  { rewrite decide_False by lia. exists ids. split; [done|]. split; [done|]. intros p q Hp Hq. apply D; lia. }
  case_decide as Hle; [|exists ids; split; [done|]; split; [done|]; intros p q Hp Hq; apply D; lia].
  rewrite load_get by lia. cbn [mbind outcome_bind]. rewrite (int_ret (j - 1)) by lia. cbn [mbind outcome_bind].
  assert (Ev : put ids (j - 1 + 1) (get ids j) = ids) by (replace (j - 1 + 1) with j by lia; apply put_get).
  destruct (insert_loop_run l j (get ids j) (length ids) ids (j - 1) ids) as (ids' & i' & E & Hi' & R & D').
  - lia.
  - lia.
  - lia.
  - unfold size in *. lia.
  - by rewrite Ev.
  - intros H1. apply Hfl; lia.
  - intros p q Hp Hq Np Nq. apply D; lia.
  - intros q Hq. assert (q = j) as -> by lia. done.
  - rewrite E. cbn [mbind outcome_bind]. rewrite store_put by (unfold size in Hi'; lia). cbn [mbind outcome_bind].
    rewrite int_ret by lia. cbn [mbind outcome_bind].
    set (ids1 := put ids' (i' + 1) (get ids j)) in *. pose proof (rearr_size _ _ _ _ R) as S1.
    assert (R' : rearr l ir ids ids1).
    { destruct R as [S P O I]. split; [done|done|intros p Hp Hn; apply O; lia|].
      intros p Hp. destruct (decide (p <= j)).
      - destruct (I p ltac:(lia)) as (q & Hq & ->). exists q. split; [lia|done].
      - exists p. split; [done|]. apply O; lia. }
    destruct (IH ids1 (j + 1)) as (ids2 & E2 & R2 & D2).
    + lia.
    + lia.
    + lia.
    + lia.
    + intros H1 p Hp. rewrite (rearr_out _ _ _ _ R' (l - 1)) by lia. revert p Hp.
      apply (rearr_forall _ _ _ _ (fun x => x <= get ids (l - 1)) R'). by apply Hfl.
    + by replace (j + 1 - 1) with j by lia.
    + exists ids2. split; [done|]. split; [by etrans|done].
Qed.

(** ** The partition *)

Lemma rearr_weaken l r l' r' ids ids' : 0 <= l' <= l -> r <= r' -> rearr l r ids ids' -> rearr l' r' ids ids'.
Proof.
  intros Hl Hr R. split.
  - apply (rearr_size _ _ _ _ R).
  - apply (rearr_perm _ _ _ _ R).
  - intros p Hp Hn. apply (rearr_out _ _ _ _ R); lia.
  - intros p Hp. destruct (decide (l <= p <= r)) as [Hi|Hi].
    + destruct (rearr_in _ _ _ _ R p Hi) as (q & Hq & ->). exists q. split; [lia|done].
    + exists p. split; [done|]. apply (rearr_out _ _ _ _ R); lia.
Qed.

(** The scans stop at the sentinel [m] at the latest. *)
Lemma scan_up_run ids a m : forall fuel i,
  0 <= i < m -> m < size ids -> size ids <= 2 ^ 31 - 1 -> m - i <= Z.of_nat fuel -> get ids m <= a ->
  exists i', scan_up fuel ids a i = Ret i' /\ i < i' <= m /\ get ids i' <= a /\
    forall p, i < p < i' -> a <= get ids p.
Proof.
  induction fuel as [|f IH]; intros i Hi Hm Hs Hf Ha; [lia|]. cbn [scan_up].
  rewrite int_ret by lia. cbn [mbind outcome_bind]. rewrite load_get by lia. cbn [mbind outcome_bind].
  case_decide as Hx; [|exists (i + 1); split_and!; [done|lia..|intros; lia]].
  destruct (decide (i + 1 = m)) as [E|]; [rewrite E in Hx; lia|].
  destruct (IH (i + 1)) as (i' & E & Hi' & Hg & Hb); try lia.
  exists i'. split; [done|]. split; [lia|]. split; [done|]. intros p Hp.
  destruct (decide (p = i + 1)) as [-> |]; [lia|apply Hb; lia].
Qed.

Lemma scan_down_run ids a m : forall fuel j,
  0 <= m < j -> j <= size ids -> size ids <= 2 ^ 31 - 1 -> j - m <= Z.of_nat fuel -> a <= get ids m ->
  exists j', scan_down fuel ids a j = Ret j' /\ m <= j' < j /\ a <= get ids j' /\
    forall p, j' < p < j -> get ids p <= a.
Proof.
  induction fuel as [|f IH]; intros j Hj Hm Hs Hf Ha; [lia|]. cbn [scan_down].
  rewrite int_ret by lia. cbn [mbind outcome_bind]. rewrite load_get by lia. cbn [mbind outcome_bind].
  case_decide as Hx; [|exists (j - 1); split_and!; [done|lia..|intros; lia]].
  destruct (decide (j - 1 = m)) as [E|]; [rewrite E in Hx; lia|].
  destruct (IH (j - 1)) as (j' & E & Hj' & Hg & Hb); try lia.
  exists j'. split; [done|]. split; [lia|]. split; [done|]. intros p Hp.
  destruct (decide (p = j - 1)) as [-> |]; [lia|apply Hb; lia].
Qed.

(** Up to [i] nothing is below [a], from [j] on nothing is above. *)
Lemma partition_loop_run l ir a : forall fuel ids i j,
  0 <= l < i -> i <= j -> j <= ir -> (i = j -> l + 1 < i /\ j < ir) ->
  ir < size ids -> size ids <= 2 ^ 31 - 1 -> j - i < Z.of_nat fuel ->
  (forall p, l < p <= i -> a <= get ids p) ->
  (forall p, j <= p <= ir -> get ids p <= a) ->
  exists ids' i' j', partition_loop fuel ids a i j = Ret (ids', i', j') /\
    rearr (l + 2) (ir - 1) ids ids' /\ l < j' < i' /\ i' <= ir /\
    (forall p, l < p < i' -> a <= get ids' p) /\ (forall p, j' < p <= ir -> get ids' p <= a) /\ a <= get ids' j'.
Proof.
  induction fuel as [|f IH]; intros ids i j Hl Hij Hir Heq Hs Hw Hf Hup Hdn; [lia|]. cbn [partition_loop].
  destruct (scan_up_run ids a (if decide (i < j) then j else j + 1) (length ids) i) as (i' & E & Hi' & Hgi & Hbi);
    [case_decide; lia|case_decide; lia|done|unfold size in *; case_decide; lia|case_decide; apply Hdn; lia|].
  rewrite E. cbn [mbind outcome_bind].
  destruct (scan_down_run ids a (if decide (i < j) then i else i - 1) (length ids) j) as (j' & E' & Hj' & Hgj & Hbj);
    [case_decide; lia|lia|done|unfold size in *; case_decide; lia|case_decide; apply Hup; lia|].
  rewrite E'. cbn [mbind outcome_bind].
  assert (Hup' : forall p, l < p < i' -> a <= get ids p).
  { intros p Hp. destruct (decide (p <= i)); [apply Hup; lia|apply Hbi; lia]. }
  assert (Hdn' : forall p, j' < p <= ir -> get ids p <= a).
  { intros p Hp. destruct (decide (j <= p)); [apply Hdn; lia|apply Hbj; lia]. }
  assert (B : l < j' /\ i' <= ir /\ i < i' /\ j' < j) by (repeat case_decide; lia).
  clear Hi' Hj' Hbi Hbj. destruct (decide (j' < i')) as [Hji|Hji].
  { exists ids, i', j'. split; [done|]. split; [apply rearr_refl|]. split; [lia|]. split; [lia|done]. }
  rewrite swap_run by lia. cbn [mbind outcome_bind].
  destruct (IH (swap ids i' j') i' j') as (ids' & i2 & j2 & E2 & R & Hrest).
  - lia.
  - lia.
  - lia.
  - lia.
  - by rewrite size_swap.
  - by rewrite size_swap.
  - lia.
  - intros p Hp. rewrite get_swap by lia. case_decide; [lia|]. rewrite decide_False by lia. apply Hup'. lia.
  - intros p Hp. rewrite get_swap by lia. case_decide as E1; [subst p; assert (i' = j') as <- by lia; done|].
    case_decide; [done|]. apply Hdn'. lia.
  - exists ids', i2, j2. split; [done|]. split; [|done]. etrans; [|exact R]. apply rearr_swap; lia.
Qed.

Lemma order_pair_run ids x y : 0 <= x < size ids -> 0 <= y < size ids ->
  order_pair ids x y = Ret (if decide (get ids x < get ids y) then swap ids x y else ids).
Proof.
  intros Hx Hy. unfold order_pair. rewrite !load_get by done. cbn [mbind outcome_bind].
  case_decide; [by apply swap_run|done].
Qed.

(** The largest of the three in front, the smallest at the end. *)
Lemma median_run ids l ir : 0 <= l -> l + 1 < ir -> ir < size ids -> l + ir < 2 ^ 31 ->
  exists ids1, rearr l ir ids ids1 /\ get ids1 ir <= get ids1 (l + 1) <= get ids1 l /\
    forall B (k : list Z -> outcome B),
      (s ← int (l + ir); ids ← MIDL_SWAP ids (Z.shiftr s 1) (l + 1); ids ← order_pair ids l ir;
       ids ← order_pair ids (l + 1) ir; ids ← order_pair ids l (l + 1); k ids) = k ids1.
Proof.
  intros Hl Hlr Hs Hw.
  assert (Hk : l <= Z.shiftr (l + ir) 1 <= ir).
  { rewrite Z.shiftr_div_pow2 by lia. change (2 ^ 1) with 2. Z.to_euclidean_division_equations. lia. }
  set (k0 := Z.shiftr (l + ir) 1) in *. set (a := swap ids k0 (l + 1)).
  set (b := if decide (get a l < get a ir) then swap a l ir else a).
  set (c := if decide (get b (l + 1) < get b ir) then swap b (l + 1) ir else b).
  set (d := if decide (get c l < get c (l + 1)) then swap c l (l + 1) else c).
  assert (Ra : rearr l ir ids a) by (apply rearr_swap; lia). pose proof (rearr_size _ _ _ _ Ra) as Sa.
  assert (Rb : rearr l ir a b) by (unfold b; case_decide; [apply rearr_swap; lia|done]).
  pose proof (rearr_size _ _ _ _ Rb) as Sb.
  assert (Rc : rearr l ir b c) by (unfold c; case_decide; [apply rearr_swap; lia|done]).
  pose proof (rearr_size _ _ _ _ Rc) as Sc.
  assert (Rd : rearr l ir c d) by (unfold d; case_decide; [apply rearr_swap; lia|done]).
  assert (Hb : get b ir <= get b l).
  { unfold b. case_decide; [|lia]. rewrite !get_swap by lia. by repeat case_decide; lia. }
  assert (Hc : get c ir <= get c l /\ get c ir <= get c (l + 1)).
  { unfold c. case_decide; [|lia]. rewrite !get_swap by lia. repeat case_decide; lia. }
  exists d. split; [by do 3 (etrans; [done|])|]. split.
  { unfold d. case_decide; [|lia]. rewrite !get_swap by lia. repeat case_decide; lia. }
  intros B k. rewrite int_ret by lia. cbn [mbind outcome_bind]. fold k0.
  rewrite swap_run by lia. cbn [mbind outcome_bind]. fold a.
  rewrite order_pair_run by lia. cbn [mbind outcome_bind]. fold b.
  rewrite order_pair_run by lia. cbn [mbind outcome_bind]. fold c.
  by rewrite order_pair_run by lia.
Qed.

(** Between [i] and [j] and at [j] is the partitioning element. *)
Lemma partition_run ids l ir : 1 <= l -> SMALL <= ir - l -> ir < size ids -> size ids <= 2 ^ 30 ->
  exists ids' i j a, partition ids l ir = Ret (ids', i, j) /\ rearr l ir ids ids' /\ l < j < i /\ i <= ir /\
    (forall p, l <= p <= j -> a <= get ids' p) /\ (forall p, j <= p <= ir -> get ids' p <= a) /\
    (forall p, j < p < i -> get ids' p = a).
Proof.
  unfold SMALL. intros Hl Hlr Hs Hw. unfold partition.
  destruct (median_run ids l ir) as (ids1 & R1 & Hm & ->); [lia..|]. pose proof (rearr_size _ _ _ _ R1) as S1.
  rewrite load_get by lia. cbn [mbind outcome_bind]. set (a := get ids1 (l + 1)) in *.
  destruct (partition_loop_run l ir a (length ids1) ids1 (l + 1) ir) as (ids2 & i & j & E & R2 & Hj & Hi & Hu & Hd & Ha).
  all: try lia.
  { unfold size in *. lia. }
  { intros p Hp. assert (p = l + 1) as -> by lia. done. }
  { intros p Hp. assert (p = ir) as -> by lia. lia. }
  rewrite E. cbn [mbind outcome_bind]. pose proof (rearr_size _ _ _ _ R2) as S2.
  rewrite load_get by lia. cbn [mbind outcome_bind].
  rewrite store_put by (unfold size in *; lia). cbn [mbind outcome_bind].
  rewrite store_put by (unfold put; rewrite length_insert; unfold size in *; lia). cbn [mbind outcome_bind].
  assert (Gl : get ids2 l = get ids1 l) by (apply (rearr_out _ _ _ _ R2); lia).
  assert (Gm : get ids2 (l + 1) = a) by (apply (rearr_out _ _ _ _ R2); lia).
  assert (Es : put (put ids2 (l + 1) (get ids2 j)) j a = swap ids2 (l + 1) j) by (unfold swap; by rewrite Gm).
  rewrite Es. exists (swap ids2 (l + 1) j), i, j, a. split; [done|]. split.
  { etrans; [exact R1|]. etrans; [eapply rearr_weaken; [| |exact R2]; lia|]. apply rearr_swap; lia. }
  split; [lia|]. split; [lia|]. split_and!; intros p Hp; rewrite get_swap by lia.
  - case_decide; [done|]. case_decide; [lia|]. destruct (decide (p = l)) as [-> |]; [lia|]. apply Hu. lia.
  - case_decide as E1; [subst p; assert (j = l + 1) as -> by lia; lia|].
    case_decide; [lia|]. apply Hd. lia.
  - rewrite !decide_False by lia. specialize (Hu p). specialize (Hd p). lia.
Qed.

(** ** The quicksort

    The segments still to be sorted, the current one first, then those of the stack. *)

Definition segment : Type := Z * Z.
Definition apart (s t : segment) : Prop := s.2 < t.1 \/ t.2 < s.1.
Definition inside (s : segment) (p : Z) : Prop := s.1 <= p <= s.2.
Definition width (s : segment) : Z := s.2 - s.1 + 1.

(** A segment is at most half as wide as allowed below it on the stack. *)
Fixpoint halving (n : Z) (segs : list segment) : Prop :=
  match segs with
  | [] => True
  | s :: t => width s * 2 ^ Z.of_nat (length t) <= n /\ halving n t
  end.

(** The steps the loop still makes. *)
Fixpoint weight (segs : list segment) : Z :=
  match segs with
  | [] => 0
  | s :: t => 2 * width s + 1 + weight t
  end.

(** The pairs on [istack]. *)
Fixpoint stacked (istack : list Z) (segs : list segment) : Prop :=
  match segs with
  | [] => True
  | (l, r) :: t =>
      get istack (2 * Z.of_nat (length t) + 1) = l /\ get istack (2 * Z.of_nat (length t) + 2) = r /\ stacked istack t
  end.

Record unsorted (n : Z) (ids : list Z) (segs : list segment) : Prop := {
  un_range : Forall (fun s => 1 <= s.1 <= s.2 + 1 /\ s.2 <= n) segs;
  un_apart : ForallOrdPairs apart segs;
  un_half : halving n segs;
  un_order : forall p q, 1 <= p < q -> q <= n ->
    get ids q <= get ids p \/ exists s, s ∈ segs /\ inside s p /\ inside s q
}.

Lemma unsorted_cons n ids s segs : unsorted n ids (s :: segs) ->
  (1 <= s.1 <= s.2 + 1 /\ s.2 <= n) /\ (forall t p, t ∈ segs -> inside s p -> ~ inside t p).
Proof.
  intros [R A _ _]. apply Forall_cons in R as [R _]. split; [done|]. inversion A as [|? ? F _]; subst.
  intros t p Ht Hs Hi. rewrite Forall_forall in F. destruct (F t Ht); unfold inside in *; lia.
Qed.

(** After a segment has been rearranged, what was ordered still is. *)
Lemma rearr_order n ids ids' s segs p q : unsorted n ids (s :: segs) -> rearr s.1 s.2 ids ids' ->
  1 <= p < q -> q <= n -> ~ (inside s p /\ inside s q) ->
  get ids' q <= get ids' p \/ exists t, t ∈ segs /\ inside t p /\ inside t q.
Proof.
  intros U R Hp Hq Hn. destruct (unsorted_cons _ _ _ _ U) as [Hr Ha].
  assert (Hmoved : forall x, 1 <= x -> exists y, get ids' x = get ids y /\
     ((inside s x /\ inside s y) \/ (~ inside s x /\ y = x))).
  { intros x Hx. destruct (decide (s.1 <= x <= s.2)) as [Hi|Hi].
    - destruct (rearr_in _ _ _ _ R x Hi) as (y & Hy & E). exists y. split; [done|]. by left.
    - exists x. split; [apply (rearr_out _ _ _ _ R); lia|]. by right. }
  destruct (Hmoved p) as (p' & -> & Cp); [lia|]. destruct (Hmoved q) as (q' & -> & Cq); [lia|].
  assert (Hpq : 1 <= p' < q' /\ q' <= n) by (unfold inside in *; lia).
  destruct (un_order _ _ _ U p' q') as [H|(t & Ht & Tp & Tq)]; [lia|lia|by left|].
  apply elem_of_cons in Ht as [-> |Ht].
  - exfalso. destruct Cp as [[? ?]|[? ->]], Cq as [[? ?]|[? ->]]; tauto.
  - destruct Cp as [[_ Hp']|[Sp ->]]; [by destruct (Ha t p')|].
    destruct Cq as [[_ Hq']|[Sq ->]]; [by destruct (Ha t q')|]. right. by exists t.
Qed.

(** A sorted segment is done. *)
Lemma unsorted_done n ids ids' l r segs : unsorted n ids ((l, r) :: segs) -> rearr l r ids ids' -> desc ids' l r ->
  unsorted n ids' segs.
Proof.
  intros U R D. split.
  - pose proof (un_range _ _ _ U) as F. by apply Forall_cons in F as [_ F].
  - pose proof (un_apart _ _ _ U) as A. by inversion A.
  - by destruct (un_half _ _ _ U).
  - intros p q Hp Hq. destruct (decide (l <= p /\ q <= r)) as [Hi|Hi].
    + left. apply D; lia.
    + apply (rearr_order n ids ids' (l, r)); try done. unfold inside. simpl. lia.
Qed.

(** A partitioned segment gives way to its two parts, the smaller one first. *)
Lemma unsorted_split n ids ids' l r i j a s t segs :
  unsorted n ids ((l, r) :: segs) -> rearr l r ids ids' -> l < j < i -> i <= r ->
  (forall p, l <= p <= j -> a <= get ids' p) -> (forall p, j <= p <= r -> get ids' p <= a) ->
  (forall p, j < p < i -> get ids' p = a) ->
  (s, t) = ((l, j - 1), (i, r)) \/ (s, t) = ((i, r), (l, j - 1)) -> width s <= width t ->
  unsorted n ids' (s :: t :: segs).
Proof.
  intros U R Hj Hi Hge Hle Heq Hst Hw. destruct (unsorted_cons _ _ _ _ U) as [Hr _]. simpl in Hr.
  pose proof U as [Ur Ua Uh Uo].
  apply Forall_cons in Ur as [_ Ur]. inversion Ua as [|? ? F A]; subst. destruct Uh as [Hh Uh].
  assert (Fs : forall u, l <= u.1 -> u.2 <= r -> Forall (apart u) segs).
  { intros u H1 H2. eapply Forall_impl; [exact F|]. unfold apart. simpl. lia. }
  assert (Hs : 1 <= s.1 <= s.2 + 1 /\ s.2 <= n /\ l <= s.1 /\ s.2 <= r) by (destruct Hst as [[= -> ->]|[= -> ->]]; simpl; lia).
  assert (Ht : 1 <= t.1 <= t.2 + 1 /\ t.2 <= n /\ l <= t.1 /\ t.2 <= r) by (destruct Hst as [[= -> ->]|[= -> ->]]; simpl; lia).
  assert (Hst' : apart s t) by (destruct Hst as [[= -> ->]|[= -> ->]]; unfold apart; simpl; lia).
  assert (Hsum : width s + width t <= width (l, r)) by (destruct Hst as [[= -> ->]|[= -> ->]]; unfold width; simpl; lia).
  split.
  - repeat constructor; try done; lia.
  - constructor; [constructor; [done|apply Fs; lia]|]. constructor; [apply Fs; lia|done].
  - cbn [halving]. cbn [length] in *. rewrite Nat2Z.inj_succ, Z.pow_succ_r by lia.
    pose proof (Z.pow_pos_nonneg 2 (Z.of_nat (length segs)) ltac:(lia) ltac:(lia)). assert (0 <= width s) by (unfold width; lia).
    split_and!; [|nia|done]. rewrite Z.mul_assoc. nia.
  - intros p q Hp Hq. destruct (decide (l <= p /\ q <= r)) as [Hin|Hin].
    + destruct (decide (q < j)) as [H1|H1].
      { right. exists (l, j - 1). split; [destruct Hst as [[= -> ->]|[= -> ->]]; set_solver|]. unfold inside. simpl. lia. }
      destruct (decide (i <= p)) as [H2|H2].
      { right. exists (i, r). split; [destruct Hst as [[= -> ->]|[= -> ->]]; set_solver|]. unfold inside. simpl. lia. }
      left. specialize (Hle q ltac:(lia)). destruct (decide (p <= j)); [specialize (Hge p)|specialize (Heq p)]; lia.
    + destruct (rearr_order n ids ids' (l, r) segs p q) as [H|(u & Hu & Hup)]; try done; [|by left|].
      { unfold inside. simpl. lia. }
      right. exists u. split; [|done]. set_solver.
Qed.

(** *** The loop *)

Lemma stacked_put istack (segs : list segment) i x : 2 * Z.of_nat (length segs) < i < size istack ->
  stacked istack segs -> stacked (put istack i x) segs.
Proof.
  induction segs as [|[l r] t IH]; [done|]. cbn [stacked length]. intros Hi (Hl & Hr & Ht).
  rewrite !get_put by lia. rewrite !decide_False by lia. split_and!; [done..|]. apply IH; [lia|done].
Qed.

(** Pushing keeps what is below. *)
Lemma push_run istack l r (segs : list segment) B (k : list Z -> outcome B) :
  2 * Z.of_nat (length segs) + 2 < size istack -> stacked istack segs ->
  exists istack', size istack' = size istack /\ stacked istack' ((l, r) :: segs) /\
    (istack ← store istack (2 * Z.of_nat (length segs) + 2) r;
     istack ← store istack (2 * Z.of_nat (length segs) + 2 - 1) l; k istack) = k istack'.
Proof.
  intros Hs Hst. set (t := 2 * Z.of_nat (length segs)) in *.
  exists (put (put istack (t + 2) r) (t + 2 - 1) l). split; [by rewrite !size_put|]. split.
  - cbn [stacked]. fold t. rewrite !get_put by (rewrite ?size_put; lia).
    split; [by rewrite decide_True by lia|]. split; [by rewrite decide_False, decide_True by lia|].
    apply stacked_put; [rewrite size_put; lia|]. apply stacked_put; [lia|done].
  - rewrite store_put by (unfold size in *; lia). cbn [mbind outcome_bind].
    rewrite store_put by (unfold put; rewrite length_insert; unfold size in *; lia). done.
Qed.

Lemma weight_nonneg n segs : Forall (fun s => 1 <= s.1 <= s.2 + 1 /\ s.2 <= n) segs -> 0 <= weight segs.
Proof. induction 1 as [|s segs H F IH]; cbn [weight]; [done|]. unfold width. lia. Qed.

(** The segment that is split leaves room for two more words of the stack. *)
Lemma stack_room n s segs : halving n (s :: segs) -> SMALL <= s.2 - s.1 -> n < 2 ^ 30 ->
  2 * Z.of_nat (length segs) + 2 < Z.of_nat ISTACK.
Proof.
  intros [H _] Hs Hn. unfold SMALL, ISTACK, width in *. destruct (decide (Z.of_nat (length segs) < 30)); [lia|].
  exfalso. assert (2 ^ 30 <= 2 ^ Z.of_nat (length segs)) by (apply Z.pow_le_mono_r; lia). nia.
Qed.

(** What a run of the loop gives: everything from 1 to [n] in order. *)
Definition sorts (n : Z) (fuel : nat) : Prop := forall ids istack l r (segs : list segment),
  0 <= n < size ids -> size ids <= 2 ^ 30 -> size istack = Z.of_nat ISTACK ->
  2 * Z.of_nat (length segs) < size istack ->
  unsorted n ids ((l, r) :: segs) -> stacked istack segs -> weight ((l, r) :: segs) <= Z.of_nat fuel ->
  exists ids', sort_loop fuel ids istack (2 * Z.of_nat (length segs)) l r = Ret ids' /\
    rearr 1 n ids ids' /\ desc ids' 1 n.

(** A short segment is sorted, and the next one taken from the stack. *)
Lemma sort_small n f ids istack l r (segs : list segment) : sorts n f -> r - l < SMALL ->
  0 <= n < size ids -> size ids <= 2 ^ 30 -> size istack = Z.of_nat ISTACK ->
  2 * Z.of_nat (length segs) < size istack ->
  unsorted n ids ((l, r) :: segs) -> stacked istack segs -> weight ((l, r) :: segs) <= Z.of_nat (S f) ->
  exists ids', sort_loop (S f) ids istack (2 * Z.of_nat (length segs)) l r = Ret ids' /\
    rearr 1 n ids ids' /\ desc ids' 1 n.
Proof.
  intros IH Hsm Hn Hs Hst Hd U St Hw. destruct (unsorted_cons _ _ _ _ U) as [Hr Ha]. cbn [fst snd] in Hr.
  cbn [weight] in Hw. cbn [sort_loop]. rewrite decide_True by done.
  destruct (insertion_sort_run l r (length ids) ids (l + 1)) as (ids1 & E & R & D).
  { lia. } { lia. } { lia. } { unfold size in *. lia. }
  { intros H1 p Hp. destruct (un_order _ _ _ U (l - 1) p) as [H|(t & Ht & Tl & Tp)]; [lia|lia|done|].
    exfalso. apply elem_of_cons in Ht as [-> |Ht]; [unfold inside in Tl; simpl in Tl; lia|].
    by apply (Ha t p). }
  { intros p q. lia. }
  rewrite E. cbn [mbind outcome_bind]. pose proof (unsorted_done _ _ _ _ _ _ U R D) as U1.
  apply (rearr_weaken _ _ 1 n) in R; [|lia|lia]. pose proof (rearr_size _ _ _ _ R) as S1.
  destruct segs as [|[l1 r1] segs].
  { exists ids1. cbn. split; [done|]. split; [done|]. intros p q Hp Hq.
    destruct (un_order _ _ _ U1 p q) as [H|(t & Ht & _)]; [lia|lia|done|]. by apply elem_of_nil in Ht. }
  pose proof (un_half _ _ _ U) as Hh. destruct St as (Sl & Sr & St). cbn [length] in *.
  rewrite decide_False by lia.
  rewrite (load_get istack) by lia. cbn [mbind outcome_bind].
  rewrite (load_get istack) by lia. cbn [mbind outcome_bind].
  replace (2 * Z.of_nat (S (length segs))) with (2 * Z.of_nat (length segs) + 2) by lia.
  replace (2 * Z.of_nat (length segs) + 2 - 1) with (2 * Z.of_nat (length segs) + 1) by lia.
  replace (2 * Z.of_nat (length segs) + 2 - 2) with (2 * Z.of_nat (length segs)) by lia. rewrite Sl, Sr.
  destruct (IH ids1 istack l1 r1 segs) as (ids2 & E2 & R2 & D2); try done; try lia.
  { unfold width in *. simpl in *. lia. }
  exists ids2. split; [done|]. split; [by etrans|done].
Qed.

(** A long segment is split: the larger part goes on the stack. *)
Lemma sort_split n f ids istack l r (segs : list segment) : sorts n f -> SMALL <= r - l ->
  0 <= n < size ids -> size ids <= 2 ^ 30 -> size istack = Z.of_nat ISTACK ->
  unsorted n ids ((l, r) :: segs) -> stacked istack segs -> weight ((l, r) :: segs) <= Z.of_nat (S f) ->
  exists ids', sort_loop (S f) ids istack (2 * Z.of_nat (length segs)) l r = Ret ids' /\
    rearr 1 n ids ids' /\ desc ids' 1 n.
Proof.
  intros IH Hsm Hn Hs Hst U St Hw. destruct (unsorted_cons _ _ _ _ U) as [Hr Ha]. cbn [fst snd] in Hr.
  cbn [weight] in Hw. cbn [sort_loop]. rewrite decide_False by lia.
  destruct (partition_run ids l r) as (ids1 & i & j & a & E & R & Hj & Hi & Hge & Hle & Heq); [lia..|].
  rewrite E. cbn [mbind outcome_bind].
  pose proof (stack_room n (l, r) segs (un_half _ _ _ U) ltac:(simpl; lia) ltac:(lia)) as Hroom.
  assert (Hpush : forall s t, (s, t) = ((l, j - 1), (i, r)) \/ (s, t) = ((i, r), (l, j - 1)) -> width s <= width t ->
    exists ids', (istack ← store istack (2 * Z.of_nat (length segs) + 2) t.2;
      istack ← store istack (2 * Z.of_nat (length segs) + 2 - 1) t.1;
      sort_loop f ids1 istack (2 * Z.of_nat (length segs) + 2) s.1 s.2) = Ret ids' /\
    rearr 1 n ids ids' /\ desc ids' 1 n).
  { intros s t Hc Hw1. pose proof (unsorted_split _ _ _ _ _ _ _ _ _ _ _ U R Hj Hi Hge Hle Heq Hc Hw1) as U1.
    apply (rearr_weaken _ _ 1 n) in R; [|lia|lia]. pose proof (rearr_size _ _ _ _ R) as S1.
    destruct (push_run istack t.1 t.2 segs _
      (fun st => sort_loop f ids1 st (2 * Z.of_nat (length segs) + 2) s.1 s.2)) as (st & Es & Hst' & ->); [lia|done|].
    destruct (IH ids1 st s.1 s.2 (t :: segs)) as (ids' & E' & R' & D').
    { lia. } { lia. } { lia. } { cbn [length]. lia. } { by destruct s. } { by destruct t. }
    { destruct Hc as [[= -> ->]|[= -> ->]]; cbn [weight]; unfold width in *; simpl in *; lia. }
    exists ids'. split; [|split; [by etrans|done]]. rewrite <- E'. f_equal. cbn [length]. lia. }
  case_decide as Hc.
  + apply (Hpush (l, j - 1) (i, r)); [by left|]. unfold width. simpl. lia.
  + apply (Hpush (i, r) (l, j - 1)); [by right|]. unfold width. simpl. lia.
Qed.

Lemma sort_loop_run n fuel : sorts n fuel.
Proof.
  induction fuel as [|f IH]; intros ids istack l r segs Hn Hs Hst Hd U St Hw.
  - pose proof (un_range _ _ _ U) as F. apply Forall_cons in F as [F0 F]. pose proof (weight_nonneg _ _ F).
    cbn [weight] in Hw. unfold width in Hw. simpl in *. lia.
  - destruct (decide (r - l < SMALL)); [by apply sort_small|by apply sort_split; [|lia|..]].
Qed.

(** ** An array as a list of IDs *)

(** Largest first. *)
Definition above (x y : Z) : Prop := y <= x.

#[export] Instance above_dec x y : Decision (above x y).
Proof. unfold above. apply _. Defined.

(** The array of the IDs [l]: the count in front, room behind. *)
Definition idl (l rest : list Z) : list Z := Z.of_nat (length l) :: l ++ rest.

Lemma size_idl l rest : size (idl l rest) = 1 + Z.of_nat (length l) + Z.of_nat (length rest).
Proof. unfold size, idl. cbn [length]. rewrite length_app. lia. Qed.

Lemma get_cons x k p : 1 <= p -> get (x :: k) p = k !!! Z.to_nat (p - 1).
Proof. intros Hp. unfold get. by replace (Z.to_nat p) with (S (Z.to_nat (p - 1))) by lia. Qed.

Lemma get_idl l rest p : 1 <= p <= Z.of_nat (length l) -> l !! Z.to_nat (p - 1) = Some (get (idl l rest) p).
Proof.
  intros Hp. unfold idl. rewrite get_cons by lia. rewrite lookup_total_app_l by lia.
  apply list_lookup_lookup_total_lt. lia.
Qed.

Lemma desc_sorted l rest : desc (idl l rest) 1 (Z.of_nat (length l)) <-> StronglySorted above l.
Proof.
  split.
  - intros D. assert (H : forall i j x y, (i < j)%nat -> l !! i = Some x -> l !! j = Some y -> y <= x).
    { intros i j x y Hij Hx Hy. pose proof (lookup_lt_Some _ _ _ Hy) as Hj.
      pose proof (get_idl l rest (1 + Z.of_nat i) ltac:(lia)) as Gi.
      pose proof (get_idl l rest (1 + Z.of_nat j) ltac:(lia)) as Gj.
      replace (Z.to_nat (1 + Z.of_nat i - 1)) with i in Gi by lia.
      replace (Z.to_nat (1 + Z.of_nat j - 1)) with j in Gj by lia.
      rewrite Hx in Gi. rewrite Hy in Gj. injection Gi as ->. injection Gj as ->. apply D; lia. }
    clear D. induction l as [|x l IH]; constructor.
    + apply IH. intros i j y z Hij Hy Hz. apply (H (S i) (S j)); [lia|done|done].
    + apply Forall_forall. intros y Hy. apply list_elem_of_lookup in Hy as [j Hy]. apply (H O (S j)); [lia|done|done].
  - intros S p q Hp Hq. pose proof (get_idl l rest p ltac:(lia)) as Gp. pose proof (get_idl l rest q ltac:(lia)) as Gq.
    rewrite <- (take_drop_middle _ _ _ Gq) in S. apply (StronglySorted_app_1_elem_of _ _ _ _ _ S).
    + apply list_elem_of_lookup. exists (Z.to_nat (p - 1)). by rewrite lookup_take_lt by lia.
    + apply list_elem_of_here.
Qed.

(** Rearranging the IDs of an array. *)
Lemma rearr_idl l rest ids : rearr 1 (Z.of_nat (length l)) (idl l rest) ids ->
  exists l', ids = idl l' rest /\ l' ≡ₚ l.
Proof.
  intros [S P O _]. rewrite size_idl in S. exists (take (length l) (drop 1 ids)).
  assert (E : ids = idl (take (length l) (drop 1 ids)) rest).
  { destruct ids as [|x ids]; [unfold size in S; simpl in S; lia|].
    assert (Hx : x = Z.of_nat (length l)) by (specialize (O 0 ltac:(lia) ltac:(lia)); exact O).
    unfold size in S. cbn [length] in S. cbn [drop]. rewrite drop_0.
    unfold idl. rewrite length_take. replace (length l `min` length ids)%nat with (length l) by lia. rewrite <- Hx. f_equal.
    rewrite <- (take_drop (length l) ids) at 1. f_equal.
    apply list_eq_same_length with (length rest); [done|rewrite length_drop; lia|].
    intros i y z Hi Hy Hz. specialize (O (1 + Z.of_nat (length l + i)) ltac:(lia) ltac:(lia)).
    unfold idl in O. rewrite !get_cons in O by lia.
    replace (Z.to_nat (1 + Z.of_nat (length l + i) - 1)) with (length l + i)%nat in O by lia. rewrite lookup_total_app_r in O by lia.
    replace (length l + i - length l)%nat with i in O by lia. rewrite lookup_drop in Hy.
    apply list_lookup_total_correct in Hy, Hz. congruence. }
  split; [done|]. rewrite E in P. unfold idl in P.
  assert (L : length (take (length l) (drop 1 ids)) = length l).
  { rewrite length_take, length_drop. unfold size in S. lia. }
  rewrite L in P. apply Permutation_cons_inv in P. by apply Permutation_app_inv_r in P.
Qed.

(** ** Sorting is correct *)

(** C17: sorting ends for every list of IDs, whatever [istack] held before:
    the list is permuted into descending order and the rest of the block stays as
    it was.  No access leaves the array, no [int] overflows, and the stack of
    64 words never does. *)
Theorem mdb_midl_sort_spec istack0 l rest :
  length istack0 = ISTACK -> 1 + Z.of_nat (length l) + Z.of_nat (length rest) <= 2 ^ 30 ->
  exists l', mdb_midl_sort istack0 (idl l rest) = Ret (idl l' rest) /\ l' ≡ₚ l /\ StronglySorted above l'.
Proof.
  intros Hst Hs. unfold mdb_midl_sort. rewrite <- size_idl in Hs.
  pose proof (size_idl l rest) as S0. rewrite load_get by lia. cbn [mbind outcome_bind].
  change (get (idl l rest) 0) with (Z.of_nat (length l)). set (n := Z.of_nat (length l)) in *.
  replace (i32 n) with n by (unfold swrap; rewrite Z.mod_small by lia; lia).
  destruct (sort_loop_run n (2 * length (idl l rest) + 2) (idl l rest) istack0 1 n []) as (ids & E & R & D).
  - lia.
  - done.
  - unfold size. by rewrite Hst.
  - unfold size. rewrite Hst. done.
  - split; [by constructor; [simpl; lia|constructor]|by repeat constructor| |].
    + cbn. unfold width. simpl. lia.
    + intros p q Hp Hq. right. exists (1, n). split; [set_solver|]. unfold inside. simpl. lia.
  - done.
  - cbn [weight]. unfold width. cbn [fst snd]. unfold size in S0. lia.
  - destruct (rearr_idl l rest ids R) as (l' & -> & P). exists l'. split; [exact E|]. split; [done|].
    apply (desc_sorted l' rest). pose proof (Permutation_length P) as L. unfold n in D. by rewrite <- L in D.
Qed.

(** The witness: twelve IDs, enough for a partition. *)
Lemma mdb_midl_sort_spec_witness :
  let l := [5; 3; 9; 1; 12; 7; 2; 11; 8; 4; 10; 6] in
  (exists l', mdb_midl_sort (replicate ISTACK 0) (idl l [77]) = Ret (idl l' [77]) /\ l' ≡ₚ l /\ StronglySorted above l') /\
  mdb_midl_sort (replicate ISTACK 0) (idl l [77]) = Ret (idl [12; 11; 10; 9; 8; 7; 6; 5; 4; 3; 2; 1] [77]).
Proof.
  intros l. split; [|vm_compute; reflexivity].
  apply (mdb_midl_sort_spec (replicate ISTACK 0) l [77]); [reflexivity|vm_compute; discriminate].
Defined.

(** ** The binary searches *)

Lemma search_loop_run (c : Z -> Z) cmp N :
  (forall p, 1 <= p <= N -> cmp p = Ret (c p)) ->
  (forall p q, 1 <= p < q -> q <= N -> (c p < 0 -> c q < 0) /\ (c q > 0 -> c p > 0)) -> N < 2 ^ 32 - 1 ->
  forall fuel base cursor val n, 0 <= base -> 0 <= n -> base + n <= N -> n < 2 ^ Z.of_nat fuel ->
  (n = 0 -> cursor = if decide (val > 0) then base else base + 1) ->
  (forall p, 1 <= p <= base -> c p > 0) -> (forall p, base + n < p <= N -> c p < 0) ->
  exists x, search_loop fuel cmp base cursor val n = Ret x /\ 1 <= x <= N + 1 /\
    ((x <= N /\ c x = 0) \/ (forall p, 1 <= p < x -> c p > 0) /\ (forall p, x <= p <= N -> c p < 0)).
Proof.
  intros Hc Hm HN. induction fuel as [|f IH]; intros base cursor val n Hb Hn Hbn Hf H0 Hlo Hhi.
  all: cbn [search_loop]; destruct (decide (0 < n)) as [Hpos|Hpos].
  { simpl in Hf. lia. }
  1, 3: exists (base + 1); rewrite (H0 ltac:(lia)); (split; [|split; [lia|]]);
    [case_decide; unfold wrap; rewrite ?Z.mod_small by lia; reflexivity|];
    right; split; intros p Hp; [apply Hlo|apply Hhi]; lia.
  set (pivot := Z.shiftr n 1). rewrite Nat2Z.inj_succ, Z.pow_succ_r in Hf by lia.
  assert (Hp : 0 <= pivot /\ pivot < n /\ n - (pivot + 1) <= pivot /\ pivot < 2 ^ Z.of_nat f).
  { unfold pivot. rewrite Z.shiftr_div_pow2 by lia. change (2 ^ 1) with 2. Z.to_euclidean_division_equations. lia. }
  replace (u32 (base + pivot + 1)) with (base + pivot + 1) by (unfold wrap; rewrite Z.mod_small; lia).
  set (x := base + pivot + 1). rewrite (Hc x) by lia. cbn [mbind outcome_bind].
  destruct (decide (c x < 0)) as [Hlt|]; [|destruct (decide (c x > 0)) as [Hgt|]].
  - apply IH; try lia; try done.
    + intros ->. rewrite decide_False by lia. lia.
    + intros p Hp'. destruct (decide (p = x)) as [-> |]; [done|]. apply (Hm x p); lia.
  - replace (u32 (n - (pivot + 1))) with (n - (pivot + 1)) by (unfold wrap; rewrite Z.mod_small; lia).
    apply IH; try lia.
    + intros _. by rewrite decide_True.
    + intros p Hp'. destruct (decide (p = x)) as [-> |]; [done|]. apply (Hm p x); lia.
    + intros p Hp'. apply Hhi. lia.
  - exists x. split; [done|]. split; [lia|]. left. split; lia.
Qed.

Lemma CMP_lt x y : CMP x y < 0 <-> x < y.
Proof. unfold CMP. repeat case_decide; lia. Qed.

Lemma CMP_gt x y : CMP x y > 0 <-> x > y.
Proof. unfold CMP. repeat case_decide; lia. Qed.

Lemma CMP_eq x y : CMP x y = 0 <-> x = y.
Proof. unfold CMP. repeat case_decide; lia. Qed.

(** The loop on a list whose elements turn from "go on" to "found" to "too far". *)
Lemma search_list_run {A} (h : A) (l rest : list A) (g : A -> Z) :
  StronglySorted (fun x y => (g x < 0 -> g y < 0) /\ (g y > 0 -> g x > 0)) l ->
  Z.of_nat (length l) < 2 ^ 32 - 1 ->
  exists l1 l2, l = l1 ++ l2 /\
    search_loop 32 (fun cursor => x ← load (h :: l ++ rest) cursor; Ret (g x)) 0 1 0 (Z.of_nat (length l)) =
      Ret (Z.of_nat (length l1) + 1) /\
    ((exists e l3, l2 = e :: l3 /\ g e = 0) \/ Forall (fun x => g x > 0) l1 /\ Forall (fun x => g x < 0) l2).
Proof.
  intros S Hl. set (N := Z.of_nat (length l)) in *.
  set (c := fun q => match l !! Z.to_nat (q - 1) with Some e => g e | None => 0 end).
  assert (Hat : forall q, 1 <= q <= N -> exists e, l !! Z.to_nat (q - 1) = Some e).
  { intros q Hq. apply lookup_lt_is_Some_2. lia. }
  assert (Hc : forall i e, l !! i = Some e -> c (1 + Z.of_nat i) = g e).
  { intros i e E. unfold c. replace (Z.to_nat (1 + Z.of_nat i - 1)) with i by lia. by rewrite E. }
  destruct (search_loop_run c (fun cursor => x ← load (h :: l ++ rest) cursor; Ret (g x)) N)
    with 32%nat 0 1 0 N as (x & E & Hx & H).
  - intros q Hq. destruct (Hat q Hq) as [e He]. unfold load, c. rewrite decide_True, He by lia.
    replace (Z.to_nat q) with (Datatypes.S (Z.to_nat (q - 1))) by lia.
    change ((h :: l ++ rest) !! Datatypes.S (Z.to_nat (q - 1))) with ((l ++ rest) !! Z.to_nat (q - 1)).
    rewrite lookup_app_l by lia. by rewrite He.
  - intros q1 q2 Hq1 Hq2. destruct (Hat q1 ltac:(lia)) as [e1 E1], (Hat q2 ltac:(lia)) as [e2 E2].
    unfold c. rewrite E1, E2. rewrite <- (take_drop_middle _ _ _ E2) in S.
    apply (StronglySorted_app_1_elem_of _ _ _ _ _ S); [|constructor].
    apply list_elem_of_lookup. exists (Z.to_nat (q1 - 1)). by rewrite lookup_take_lt by lia.
  - done.
  - done.
  - lia.
  - lia.
  - simpl. lia.
  - intros ->. by rewrite decide_False by lia.
  - lia.
  - lia.
  - exists (take (Z.to_nat (x - 1)) l), (drop (Z.to_nat (x - 1)) l). split; [by rewrite take_drop|].
    rewrite length_take, E. split; [f_equal; lia|]. destruct H as [[Hle H0]|[Hbefore Hafter]]; [left|right].
    + destruct (Hat x ltac:(lia)) as [e He]. exists e, (drop (Datatypes.S (Z.to_nat (x - 1))) l).
      split; [by apply drop_S|]. unfold c in H0. by rewrite He in H0.
    + split; apply Forall_lookup; intros i y Hy.
      * apply lookup_take_Some in Hy as [Hy Hi]. rewrite <- (Hc _ _ Hy). apply Hbefore. lia.
      * rewrite lookup_drop in Hy. pose proof (lookup_lt_Some _ _ _ Hy). rewrite <- (Hc _ _ Hy). apply Hafter. lia.
Qed.

(** The search in a descending list ends at the position of the ID when the list
    has it, and otherwise behind all larger IDs and in front of all smaller ones. *)
Theorem mdb_midl_search_spec l rest id :
  StronglySorted above l -> Z.of_nat (length l) < 2 ^ 32 - 1 ->
  exists l1 l2, l = l1 ++ l2 /\ mdb_midl_search (idl l rest) id = Ret (Z.of_nat (length l1) + 1) /\
    if decide (id ∈ l) then head l2 = Some id
    else Forall (fun y => y > id) l1 /\ Forall (fun y => y < id) l2.
Proof.
  intros S Hl. destruct (search_list_run (Z.of_nat (length l)) l rest (fun x => CMP x id)) as (l1 & l2 & E & Es & H).
  { clear Hl. induction S as [|x l S IH F]; constructor; [done|]. eapply Forall_impl; [exact F|].
    intros y Hy. cbv beta. rewrite !CMP_lt, !CMP_gt. unfold above in Hy. lia. }
  { done. }
  exists l1, l2. split; [done|]. split.
  { rewrite <- Es. unfold mdb_midl_search. cbn [mbind outcome_bind idl load decide].
    replace (load (idl l rest) 0) with (Ret (Z.of_nat (length l))) by done. cbn [mbind outcome_bind].
    unfold wrap. rewrite Z.mod_small by lia. done. }
  destruct H as [(e & l3 & -> & H0)|[H1 H2]].
  - apply (proj1 (CMP_eq _ _)) in H0 as ->. rewrite decide_True; [done|]. rewrite E. apply elem_of_app. right. constructor.
  - assert (F1 : Forall (fun y => y > id) l1) by (eapply Forall_impl; [exact H1|]; intros y; apply CMP_gt).
    assert (F2 : Forall (fun y => y < id) l2) by (eapply Forall_impl; [exact H2|]; intros y; apply CMP_lt).
    rewrite decide_False; [done|]. rewrite E. rewrite !Forall_forall in F1, F2.
    intros [Hi%F1|Hi%F2]%elem_of_app; lia.
Qed.

Lemma mdb_midl_search_spec_witness :
  (exists l1 l2, [9; 5; 2] = l1 ++ l2 /\ mdb_midl_search (idl [9; 5; 2] [0]) 4 = Ret (Z.of_nat (length l1) + 1) /\
    if decide (4 ∈ [9; 5; 2]) then head l2 = Some 4 else Forall (fun y => y > 4) l1 /\ Forall (fun y => y < 4) l2) /\
  mdb_midl_search (idl [9; 5; 2] [0]) 4 = Ret 3.
Proof.
  split; [|reflexivity]. apply (mdb_midl_search_spec [9; 5; 2] [0] 4); [|simpl; lia].
  repeat constructor; unfold above; lia.
Defined.

(** ** Merging *)

(** The entry at the end of [pre]. *)
Lemma load_entry {A} (pre : list A) x post : load (pre ++ x :: post) (Z.of_nat (length pre)) = Ret x.
Proof. unfold load. rewrite decide_True by lia. by rewrite Nat2Z.id, list_lookup_middle. Qed.

Lemma store_entry {A} (pre : list A) x y post :
  store (pre ++ x :: post) (Z.of_nat (length pre)) y = Ret (pre ++ y :: post).
Proof.
  rewrite store_put by (rewrite length_app; simpl; lia). unfold put. rewrite Nat2Z.id.
  by rewrite insert_app_r_alt, Nat.sub_diag by lia.
Qed.

(** The delimiter in front of the IDs while they are merged. *)
Definition NOID : Z := 2 ^ 64 - 1.

(** The last ID, or the delimiter. *)
Definition last_id (a : list Z) : Z := List.last a NOID.

Lemma load_last a post : load (NOID :: a ++ post) (Z.of_nat (length a)) = Ret (last_id a).
Proof.
  unfold last_id. destruct a as [|x a] using rev_ind; [done|]. rewrite last_last, length_app, <- app_assoc.
  replace (Z.of_nat (length a + length [x])) with (Z.of_nat (length (NOID :: a))) by (simpl; lia).
  apply (load_entry (NOID :: a)).
Qed.

Lemma wrap64 x : 0 <= x < 2 ^ 64 -> u64 x = x.
Proof. apply Z.mod_small. Qed.

(** The IDs below [m] move up over the gap. *)
Lemma merge_shift_run m a : forall fuel gap done, m <= NOID -> (0 < length gap)%nat ->
  Z.of_nat (length a) + Z.of_nat (length gap) < 2 ^ 64 -> (length a < fuel)%nat ->
  exists a1 a2 gap', a = a1 ++ a2 /\ Forall (fun x => x < m) a2 /\ m <= last_id a1 /\ length gap' = length gap /\
    merge_shift fuel (NOID :: a ++ gap ++ done) (last_id a) m (Z.of_nat (length a)) (Z.of_nat (length a + length gap)) =
    Ret (NOID :: a1 ++ gap' ++ a2 ++ done, last_id a1, Z.of_nat (length a1), Z.of_nat (length a1 + length gap)).
Proof.
  induction a as [|x a IH] using rev_ind; intros fuel gap dn Hm Hg Hw Hf; (destruct fuel as [|f]; [lia|]); cbn [merge_shift].
  { exists [], [], gap. unfold last_id. simpl. rewrite decide_False by lia. by split_and!. }
  assert (El : last_id (a ++ [x]) = x) by apply last_last. rewrite El. case_decide as Hx.
  2: { exists (a ++ [x]), [], gap. rewrite app_nil_r, El. split_and!; [done|constructor|lia|done|done]. }
  rewrite length_app in *. cbn [length] in *.
  destruct gap as [|g gap _] using rev_ind; [simpl in Hg; lia|]. rewrite length_app in *. cbn [length] in *.
  replace (NOID :: (a ++ [x]) ++ (gap ++ [g]) ++ dn) with ((NOID :: a ++ [x] ++ gap) ++ g :: dn)
    by (cbn; by rewrite <- !app_assoc).
  replace (Z.of_nat (length a + 1 + (length gap + 1))) with (Z.of_nat (length (NOID :: a ++ [x] ++ gap)))
    by (cbn [length]; rewrite !length_app; simpl; lia).
  rewrite store_entry. cbn [mbind outcome_bind].
  replace (u64 (Z.of_nat (length a + 1) - 1)) with (Z.of_nat (length a)) by (rewrite wrap64; lia).
  replace (u64 (Z.of_nat (length (NOID :: a ++ [x] ++ gap)) - 1)) with (Z.of_nat (length a + length (x :: gap)))
    by (cbn [length]; rewrite !length_app; simpl; rewrite wrap64; lia).
  replace ((NOID :: a ++ [x] ++ gap) ++ x :: dn) with (NOID :: a ++ (x :: gap) ++ x :: dn)
    by (cbn; by rewrite <- !app_assoc).
  rewrite load_last. cbn [mbind outcome_bind].
  destruct (IH f (x :: gap) (x :: dn)) as (a1 & a2 & gap' & -> & F & Hl & L & E); [done|simpl; lia|simpl; lia|lia|].
  exists a1, (a2 ++ [x]), gap'. rewrite E. split_and!.
  - by rewrite <- app_assoc.
  - apply Forall_app. split; [done|]. by constructor.
  - done.
  - rewrite L. simpl. lia.
  - rewrite <- !app_assoc. cbn. do 3 f_equal. lia.
Qed.

Lemma sorted_app l1 l2 : StronglySorted above (l1 ++ l2) <->
  StronglySorted above l1 /\ StronglySorted above l2 /\ forall x y, x ∈ l1 -> y ∈ l2 -> y <= x.
Proof.
  split.
  - intros S. split; [by eapply StronglySorted_app_1_l|]. split; [by eapply StronglySorted_app_1_r|].
    intros x y Hx Hy. by apply (StronglySorted_app_1_elem_of _ _ _ _ _ S).
  - intros (S1 & S2 & H). induction S1 as [|x l1 S1 IH F]; [done|]. cbn. constructor.
    + apply IH. intros y z Hy Hz. apply H; [by constructor|done].
    + apply Forall_app. split; [done|]. apply Forall_forall. intros y Hy. apply H; [constructor|done].
Qed.

Lemma above_last a m : StronglySorted above a -> m <= last_id a -> forall x, x ∈ a -> m <= x.
Proof.
  unfold last_id. destruct a as [|y a] using rev_ind; [by intros _ _ x Hx%elem_of_nil|].
  rewrite last_last. intros (_ & _ & H)%sorted_app Hm x Hx. apply elem_of_app in Hx as [Hx|Hx%list_elem_of_singleton].
  - specialize (H x y Hx ltac:(by constructor)). lia.
  - by subst x.
Qed.

(** What one ID of the list to merge does to what has been merged. *)
Lemma merged_step a1 a2 m x dn : StronglySorted above (a1 ++ a2) -> StronglySorted above (m ++ [x]) ->
  StronglySorted above dn -> (forall u v, u ∈ (a1 ++ a2) ++ m ++ [x] -> v ∈ dn -> v <= u) ->
  Forall (fun y => y < x) a2 -> x <= last_id a1 ->
  StronglySorted above (x :: a2 ++ dn) /\ (forall u v, u ∈ a1 ++ m -> v ∈ x :: a2 ++ dn -> v <= u).
Proof.
  intros Sa Sm Sd Hd F Hl. apply sorted_app in Sa as (S1 & S2 & H12). apply sorted_app in Sm as (S3 & _ & Hmx).
  rewrite Forall_forall in F. pose proof (above_last a1 x S1 Hl) as H1. split.
  - constructor; [apply sorted_app; split_and!; [done|done|]|].
    + intros u v Hu Hv. apply Hd; [set_solver|done].
    + apply Forall_app. split; apply Forall_forall; intros y Hy; unfold above.
      * specialize (F y Hy). lia.
      * apply Hd; [set_solver|done].
  - assert (Hux : forall u, u ∈ a1 ++ m -> x <= u).
    { intros u Hu. apply elem_of_app in Hu as [Hu|Hu]; [by apply H1|]. apply Hmx; [done|by constructor]. }
    intros u v Hu Hv. specialize (Hux u Hu). apply elem_of_cons in Hv as [-> |Hv]; [done|].
    apply elem_of_app in Hv as [Hv|Hv]; [specialize (F v Hv); lia|]. apply Hd; [set_solver|done].
Qed.

Lemma merge_loop_run hd rest m : forall fuel a gap dn mrest,
  length gap = length m -> Forall (fun x => x <= NOID) m ->
  StronglySorted above a -> StronglySorted above m -> StronglySorted above dn ->
  (forall u v, u ∈ a ++ m -> v ∈ dn -> v <= u) ->
  Z.of_nat (length a) + Z.of_nat (length m) < 2 ^ 64 -> (length m <= fuel)%nat ->
  exists l, merge_loop fuel (NOID :: a ++ gap ++ dn ++ rest) (hd :: m ++ mrest) (last_id a)
      (Z.of_nat (length m)) (Z.of_nat (length a)) (Z.of_nat (length a + length m)) = Ret (NOID :: l ++ rest) /\
    l ≡ₚ a ++ m ++ dn /\ StronglySorted above l.
Proof.
  induction m as [|x m IH] using rev_ind; intros fuel a gap dn mrest Lg Fm Sa Sm Sd Hd Hw Hf.
  { apply nil_length_inv in Lg as ->. exists (a ++ dn). split.
    - destruct fuel; cbn; by rewrite <- app_assoc.
    - split; [done|]. apply sorted_app. split_and!; [done..|]. intros u v Hu Hv. apply Hd; [set_solver|done]. }
  rewrite length_app in *. cbn [length] in *. destruct fuel as [|f]; [lia|]. cbn [merge_loop].
  rewrite decide_False by lia. apply Forall_app in Fm as [Fm Fx%Forall_cons_1]. destruct Fx as [Hx _].
  replace (hd :: (m ++ [x]) ++ mrest) with ((hd :: m) ++ x :: mrest) by (cbn; by rewrite <- app_assoc).
  replace (Z.of_nat (length m + 1)) with (Z.of_nat (length (hd :: m))) by (cbn [length]; lia).
  rewrite load_entry. cbn [mbind outcome_bind]. rewrite <- Lg.
  destruct (merge_shift_run x a (length (NOID :: a ++ gap ++ dn ++ rest)) gap (dn ++ rest))
    as (a1 & a2 & gap' & -> & F & Hl & L & E); [done|lia|lia|cbn [length]; rewrite length_app; lia|].
  rewrite E. cbn [mbind outcome_bind]. clear E.
  destruct gap' as [|g gap' _] using rev_ind; [simpl in L; lia|]. rewrite length_app in L. cbn [length] in L.
  replace (NOID :: a1 ++ (gap' ++ [g]) ++ a2 ++ dn ++ rest) with ((NOID :: a1 ++ gap') ++ g :: a2 ++ dn ++ rest)
    by (cbn; by rewrite <- !app_assoc).
  replace (Z.of_nat (length a1 + length gap)) with (Z.of_nat (length (NOID :: a1 ++ gap')))
    by (cbn [length]; rewrite length_app; lia).
  rewrite store_entry. cbn [mbind outcome_bind]. rewrite length_app in Hw.
  replace (u64 (Z.of_nat (length (hd :: m)) - 1)) with (Z.of_nat (length m)) by (cbn [length]; rewrite wrap64; lia).
  replace (u64 (Z.of_nat (length (NOID :: a1 ++ gap')) - 1)) with (Z.of_nat (length a1 + length m))
    by (cbn [length]; rewrite length_app, wrap64; lia).
  destruct (merged_step a1 a2 m x dn Sa Sm Sd Hd F Hl) as [Sd' Hd'].
  replace ((NOID :: a1 ++ gap') ++ x :: a2 ++ dn ++ rest) with (NOID :: a1 ++ gap' ++ (x :: a2 ++ dn) ++ rest)
    by (cbn; by rewrite <- !app_assoc).
  apply sorted_app in Sa as (Sa1 & _ & _). apply sorted_app in Sm as (Sm & _ & _).
  destruct (IH f a1 gap' (x :: a2 ++ dn) (x :: mrest)) as (l & E & P & S); [lia|done|done|done|done|done|lia|lia|].
  exists l. split; [exact E|]. split; [|done]. rewrite P. clear. solve_Permutation.
Qed.

(** Merging two descending lists into a block with room for both ends with
    the descending list of all their IDs, and writes nothing behind it. *)
Theorem mdb_midl_xmerge_spec l m gap rest mrest :
  StronglySorted above l -> StronglySorted above m -> length gap = length m ->
  Forall (fits 64) m -> Z.of_nat (length l) + Z.of_nat (length m) < 2 ^ 64 ->
  exists l', mdb_midl_xmerge (idl l (gap ++ rest)) (idl m mrest) = Ret (idl l' rest) /\
    l' ≡ₚ l ++ m /\ StronglySorted above l'.
Proof.
  intros Sl Sm Lg Fm Hw. unfold mdb_midl_xmerge, idl. cbn [load decide mbind outcome_bind].
  replace (load (Z.of_nat (length m) :: m ++ mrest) 0) with (Ret (Z.of_nat (length m))) by done.
  replace (load (Z.of_nat (length l) :: l ++ gap ++ rest) 0) with (Ret (Z.of_nat (length l))) by done.
  cbn [mbind outcome_bind]. rewrite (store_entry [] _ (2 ^ 64 - 1) (l ++ gap ++ rest) : store (_ :: l ++ _) 0 _ = _).
  cbn [mbind outcome_bind app]. fold NOID. rewrite load_last. cbn [mbind outcome_bind]. rewrite wrap64 by lia.
  replace (Z.of_nat (length m) + Z.of_nat (length l)) with (Z.of_nat (length l + length m)) by lia.
  destruct (merge_loop_run (Z.of_nat (length m)) rest m (length (Z.of_nat (length m) :: m ++ mrest)) l gap [] mrest)
    as (l' & E & P & S).
  - done.
  - eapply Forall_impl; [exact Fm|]. unfold fits, NOID. lia.
  - done.
  - done.
  - constructor.
  - by intros u v _ Hv%elem_of_nil.
  - done.
  - cbn [length]. rewrite length_app. lia.
  - cbn [app] in E. rewrite E. cbn [mbind outcome_bind].
    rewrite (store_entry [] NOID _ (l' ++ rest) : store (NOID :: l' ++ rest) 0 _ = _).
    rewrite app_nil_r in P. exists l'. split; [|done]. cbn [app]. do 2 f_equal. rewrite P, length_app. lia.
Qed.

Lemma mdb_midl_xmerge_spec_witness :
  (exists l', mdb_midl_xmerge (idl [9; 5; 2] [0; 0; 0; 8]) (idl [7; 5; 1] []) = Ret (idl l' [8]) /\
    l' ≡ₚ [9; 5; 2] ++ [7; 5; 1] /\ StronglySorted above l') /\
  mdb_midl_xmerge (idl [9; 5; 2] [0; 0; 0; 8]) (idl [7; 5; 1] []) = Ret (idl [9; 7; 5; 5; 2; 1] [8]).
Proof.
  split; [|vm_compute; reflexivity].
  apply (mdb_midl_xmerge_spec [9; 5; 2] [7; 5; 1] [0; 0; 0] [8] []).
  - repeat constructor; unfold above; lia.
  - repeat constructor; unfold above; lia.
  - reflexivity.
  - apply (bool_decide_unpack _). vm_compute. exact I.
  - simpl. lia.
Defined.

(** ** Lists of pairs *)

(** [mptr] is a pointer the functions only copy. *)
Record MDB_ID2 := ID2 { mid : Z; mptr : Z }.

Definition mdb_mid2l_search (ids : list MDB_ID2) (id : Z) : outcome Z :=
  h ← load ids 0;
  search_loop 32 (fun cursor => e ← load ids cursor; Ret (CMP id (mid e))) 0 1 0 (u32 (mid h)).

(** [for (i=ids[0].mid; i>x; i--) ids[i] = ids[i-1]] *)
Fixpoint move_up (fuel : nat) (ids : list MDB_ID2) (x i : Z) : outcome (list MDB_ID2) :=
  if decide (i > x) then
    match fuel with
    | O => NoFuel
    | S f => e ← load ids (i - 1); ids ← store ids i e; move_up f ids x (u32 (i - 1))
    end
  else Ret ids.

(** The result and the list. *)
Definition mdb_mid2l_insert (ids : list MDB_ID2) (id : MDB_ID2) : outcome (Z * list MDB_ID2) :=
  x ← mdb_mid2l_search ids (mid id);
  if decide (x < 1) then Ret (-2, ids) else
  h ← load ids 0;
  duplicate ← (if decide (x <= mid h) then e ← load ids x; Ret (bool_decide (mid e = mid id)) else Ret false);
  if (duplicate : bool) then Ret (-1, ids) else
  if decide (mid h >= MDB_IDL_UM_MAX) then Ret (-2, ids) else
  ids ← store ids 0 (ID2 (u64 (mid h + 1)) (mptr h));
  ids ← move_up (length ids) ids x (u32 (u64 (mid h + 1)));
  ids ← store ids x id;
  Ret (0, ids).

Definition mdb_mid2l_append (ids : list MDB_ID2) (id : MDB_ID2) : outcome (Z * list MDB_ID2) :=
  h ← load ids 0;
  if decide (mid h >= MDB_IDL_UM_MAX) then Ret (-2, ids) else
  ids ← store ids 0 (ID2 (u64 (mid h + 1)) (mptr h));
  ids ← store ids (u64 (mid h + 1)) id;
  Ret (0, ids).

(** The array of the pairs [l]: the count in the first element, room behind. *)
Definition id2l (p : Z) (l rest : list MDB_ID2) : list MDB_ID2 := ID2 (Z.of_nat (length l)) p :: l ++ rest.

(** Smallest ID first, none twice. *)
Definition below (x y : MDB_ID2) : Prop := mid x < mid y.

(** The specification of the insertion. *)
Fixpoint insert_mid (e : MDB_ID2) (l : list MDB_ID2) : list MDB_ID2 :=
  match l with
  | [] => [e]
  | x :: t => if decide (mid e < mid x) then e :: l else x :: insert_mid e t
  end.

Lemma insert_mid_app e l1 l2 : Forall (fun x => mid x < mid e) l1 -> Forall (fun x => mid e < mid x) l2 ->
  insert_mid e (l1 ++ l2) = l1 ++ e :: l2.
Proof.
  induction 1 as [|x l1 Hx F IH]; intros F2; cbn.
  - destruct F2 as [|y l2 Hy]; [done|]. cbn. by rewrite decide_True.
  - rewrite decide_False by lia. by rewrite IH.
Qed.

Lemma insert_mid_sorted e l : StronglySorted below l -> mid e ∉ map mid l -> StronglySorted below (insert_mid e l).
Proof.
  intros S. induction S as [|x l S IH F]; intros Hn; cbn; [repeat constructor|].
  cbn in Hn. apply not_elem_of_cons in Hn as [Hx Hn]. case_decide as Hlt.
  - constructor; [by constructor|]. constructor; [done|]. eapply Forall_impl; [exact F|]. unfold below. lia.
  - constructor; [by apply IH|]. apply Forall_forall. intros y Hy.
    assert (Hin : y = e \/ y ∈ l).
    { clear -Hy. induction l as [|z l IH]; cbn in Hy; [set_solver|]. case_decide; set_solver. }
    unfold below. destruct Hin as [-> |Hin]; [lia|]. rewrite Forall_forall in F. by apply F.
Qed.

(** Where the search ends. *)
Lemma mid2l_search_run p l rest id : StronglySorted below l -> Z.of_nat (length l) < 2 ^ 32 - 1 ->
  exists l1 l2, l = l1 ++ l2 /\ mdb_mid2l_search (id2l p l rest) id = Ret (Z.of_nat (length l1) + 1) /\
    ((exists e l3, l2 = e :: l3 /\ mid e = id) \/
     Forall (fun x => mid x < id) l1 /\ Forall (fun x => id < mid x) l2).
Proof.
  intros S Hl. destruct (search_list_run (ID2 (Z.of_nat (length l)) p) l rest (fun x => CMP id (mid x)))
    as (l1 & l2 & E & Es & H).
  { clear Hl. induction S as [|x l S IH F]; constructor; [done|]. eapply Forall_impl; [exact F|].
    intros y Hy. cbv beta. rewrite !CMP_lt, !CMP_gt. unfold below in Hy. lia. }
  { done. }
  exists l1, l2. split; [done|]. split.
  { rewrite <- Es. unfold mdb_mid2l_search.
    replace (load (id2l p l rest) 0) with (Ret (ID2 (Z.of_nat (length l)) p)) by done. cbn [mbind outcome_bind mid].
    unfold wrap. rewrite Z.mod_small by lia. done. }
  destruct H as [(e & l3 & -> & H0)|[H1 H2]]; [left|right].
  - exists e, l3. by apply (proj1 (CMP_eq _ _)) in H0.
  - split; (eapply Forall_impl; [eassumption|]); intros y Hy; [apply (proj1 (CMP_gt _ _)) in Hy|apply (proj1 (CMP_lt _ _)) in Hy]; lia.
Qed.

(** The tail behind [x] moves up by one. *)
Lemma move_up_run h l1 : forall l2 fuel y rest,
  Z.of_nat (length l1 + length l2) < 2 ^ 32 - 1 -> (length l2 < fuel)%nat ->
  exists z, move_up fuel (h :: l1 ++ l2 ++ y :: rest) (Z.of_nat (length l1) + 1)
      (Z.of_nat (length l1 + length l2) + 1) = Ret (h :: l1 ++ z :: l2 ++ rest).
Proof.
  induction l2 as [|e l2 IH] using rev_ind; intros fuel y rest Hw Hf; (destruct fuel as [|f]; [lia|]); cbn [move_up].
  { exists y. simpl. by rewrite decide_False by lia. }
  rewrite length_app in *. cbn [length] in *. rewrite decide_True by lia.
  replace (h :: l1 ++ (l2 ++ [e]) ++ y :: rest) with ((h :: l1 ++ l2) ++ e :: y :: rest) by (cbn; by rewrite <- !app_assoc).
  replace (Z.of_nat (length l1 + (length l2 + 1)) + 1 - 1) with (Z.of_nat (length (h :: l1 ++ l2)))
    by (cbn [length]; rewrite length_app; lia).
  rewrite load_entry. cbn [mbind outcome_bind].
  replace ((h :: l1 ++ l2) ++ e :: y :: rest) with ((h :: l1 ++ l2 ++ [e]) ++ y :: rest)
    by (cbn; by rewrite <- !app_assoc).
  replace (Z.of_nat (length l1 + (length l2 + 1)) + 1) with (Z.of_nat (length (h :: l1 ++ l2 ++ [e])))
    by (cbn [length]; rewrite !length_app; simpl; lia).
  rewrite store_entry. cbn [mbind outcome_bind].
  replace (u32 (Z.of_nat (length (h :: l1 ++ l2))))
    with (Z.of_nat (length l1 + length l2) + 1) by (unfold wrap; rewrite Z.mod_small; cbn [length]; rewrite length_app; lia).
  replace ((h :: l1 ++ l2 ++ [e]) ++ e :: rest) with (h :: l1 ++ l2 ++ e :: e :: rest) by (cbn; by rewrite <- !app_assoc).
  destruct (IH f e (e :: rest)) as [z ->]; [lia|lia|]. exists z. by rewrite <- app_assoc.
Qed.

(** The test for a duplicate, [l2] being the part of the list from the position on. *)
Lemma duplicate_run h l1 l2 rest id :
  (exists e l3, l2 = e :: l3 /\ mid e = id) \/ Forall (fun x => id < mid x) l2 ->
  (if decide (Z.of_nat (length l1) + 1 <= Z.of_nat (length (l1 ++ l2)))
   then e ← load (h :: (l1 ++ l2) ++ rest) (Z.of_nat (length l1) + 1); Ret (bool_decide (mid e = id))
   else Ret false) = Ret (bool_decide (id ∈ map mid l2)).
Proof.
  intros H. rewrite length_app. destruct l2 as [|e l2].
  { rewrite decide_False by (simpl; lia). rewrite bool_decide_false; [done|]. apply not_elem_of_nil. }
  rewrite decide_True by (simpl; lia).
  replace (h :: (l1 ++ e :: l2) ++ rest) with ((h :: l1) ++ e :: l2 ++ rest) by (cbn; by rewrite <- app_assoc).
  replace (Z.of_nat (length l1) + 1) with (Z.of_nat (length (h :: l1))) by (cbn [length]; lia).
  rewrite load_entry. cbn [mbind outcome_bind]. f_equal. apply bool_decide_ext. destruct H as [(e' & l3 & [= <- <-] & He)|F].
  - split; [intros _|done]. cbn. rewrite He. constructor.
  - split; [intros <-; constructor|]. intros Hin%list_elem_of_fmap. destruct Hin as (x & -> & Hx).
    rewrite Forall_forall in F. specialize (F x Hx). lia.
Qed.

(** Making room and writing the pair. *)
Lemma place_run h l1 l2 y rest id : Z.of_nat (length l1 + length l2) < 2 ^ 32 - 1 ->
  (ids ← move_up (length (h :: (l1 ++ l2) ++ y :: rest)) (h :: (l1 ++ l2) ++ y :: rest)
            (Z.of_nat (length l1) + 1) (Z.of_nat (length l1 + length l2) + 1);
   ids ← store ids (Z.of_nat (length l1) + 1) id; Ret (0, ids)) = Ret (0, h :: (l1 ++ id :: l2) ++ rest).
Proof.
  intros Hw. rewrite <- (app_assoc l1).
  destruct (move_up_run h l1 l2 (length (h :: l1 ++ l2 ++ y :: rest)) y rest) as [z ->]; [done| |].
  { cbn [length]. rewrite !length_app. lia. }
  cbn [mbind outcome_bind]. change (h :: l1 ++ z :: l2 ++ rest) with ((h :: l1) ++ z :: l2 ++ rest).
  replace (Z.of_nat (length l1) + 1) with (Z.of_nat (length (h :: l1))) by (cbn [length]; lia).
  rewrite store_entry. cbn [mbind outcome_bind]. cbn. by rewrite <- app_assoc.
Qed.

(** The insertion keeps an ascending list ascending: an ID the list has
    gives -1, a full list -2, both without a change; otherwise the pair is at its
    place, and only the next free element of the array is used. *)
Theorem mdb_mid2l_insert_spec p l rest id :
  StronglySorted below l -> Z.of_nat (length l) <= MDB_IDL_UM_MAX ->
  (Z.of_nat (length l) < MDB_IDL_UM_MAX -> rest <> []) ->
  mdb_mid2l_insert (id2l p l rest) id =
    Ret (if decide (mid id ∈ map mid l) then (-1, id2l p l rest)
         else if decide (Z.of_nat (length l) >= MDB_IDL_UM_MAX) then (-2, id2l p l rest)
         else (0, id2l p (insert_mid id l) (tail rest))) /\
  (mid id ∉ map mid l -> StronglySorted below (insert_mid id l) /\ insert_mid id l ≡ₚ id :: l).
Proof.
  intros S Hl Hr. change MDB_IDL_UM_MAX with 131071 in *.
  destruct (mid2l_search_run p l rest (mid id) S ltac:(lia)) as (l1 & l2 & -> & Es & H).
  split.
  2: { intros Hn. split; [by apply insert_mid_sorted|]. destruct H as [(e & l3 & -> & He)|[F1 F2]].
    - exfalso. apply Hn. rewrite map_app, <- He. set_solver.
    - rewrite insert_mid_app by done. by rewrite Permutation_middle. }
  unfold mdb_mid2l_insert. change MDB_IDL_UM_MAX with 131071. rewrite Es. cbn [mbind outcome_bind]. rewrite decide_False by lia.
  replace (load (id2l p (l1 ++ l2) rest) 0) with (Ret (ID2 (Z.of_nat (length (l1 ++ l2))) p)) by done. cbn [mbind outcome_bind mid mptr].
  assert (Hdup : mid id ∈ map mid (l1 ++ l2) <-> mid id ∈ map mid l2).
  { rewrite map_app, elem_of_app. split; [|by right]. intros [Hin|]; [|done]. destruct H as [(e & l3 & -> & <-)|[F1 _]].
    - constructor.
    - apply list_elem_of_fmap in Hin as (x & Ex & Hx). rewrite Forall_forall in F1. specialize (F1 x Hx). lia. }
  unfold id2l. rewrite (duplicate_run _ l1 l2 rest (mid id)) by naive_solver.
  cbn [mbind outcome_bind]. case_bool_decide as Hin; [by rewrite decide_True by tauto|].
  rewrite (decide_False (P := mid id ∈ map mid (l1 ++ l2))) by tauto. case_decide as Hfull; [done|].
  destruct rest as [|y rest]; [by destruct (Hr ltac:(lia))|].
  rewrite (store_entry [] _ _ ((l1 ++ l2) ++ y :: rest) : store (_ :: (l1 ++ l2) ++ y :: rest) 0 _ = _).
  cbn [mbind outcome_bind app]. rewrite length_app in *. rewrite wrap64 by lia.
  replace (u32 (Z.of_nat (length l1 + length l2) + 1)) with (Z.of_nat (length l1 + length l2) + 1)
    by (unfold wrap; rewrite Z.mod_small; lia).
  rewrite place_run by lia. destruct H as [(e & l3 & -> & He)|[F1 F2]]; [by destruct Hin; rewrite <- He; constructor|].
  rewrite insert_mid_app by done. cbn [tail]. do 4 f_equal. rewrite length_app. cbn [length]. lia.
Qed.

Lemma mdb_mid2l_insert_spec_witness :
  let l := [ID2 2 10; ID2 5 11; ID2 9 12] in
  (mdb_mid2l_insert (id2l 0 l [ID2 0 0; ID2 0 0]) (ID2 7 13) =
    Ret (if decide (7 ∈ map mid l) then (-1, id2l 0 l [ID2 0 0; ID2 0 0])
         else if decide (3 >= MDB_IDL_UM_MAX) then (-2, id2l 0 l [ID2 0 0; ID2 0 0])
         else (0, id2l 0 (insert_mid (ID2 7 13) l) [ID2 0 0])) /\
   (7 ∉ map mid l -> StronglySorted below (insert_mid (ID2 7 13) l) /\ insert_mid (ID2 7 13) l ≡ₚ ID2 7 13 :: l)) /\
  mdb_mid2l_insert (id2l 0 l [ID2 0 0; ID2 0 0]) (ID2 7 13) =
    Ret (0, id2l 0 [ID2 2 10; ID2 5 11; ID2 7 13; ID2 9 12] [ID2 0 0]).
Proof.
  intros l. split; [|vm_compute; reflexivity].
  apply (mdb_mid2l_insert_spec 0 l [ID2 0 0; ID2 0 0] (ID2 7 13)).
  - repeat constructor; unfold below; simpl; lia.
  - vm_compute. discriminate.
  - discriminate.
Defined.

(** Appending uses the next free element of a list that is not full. *)
Lemma mdb_mid2l_append_spec p l rest id : Z.of_nat (length l) <= MDB_IDL_UM_MAX ->
  (Z.of_nat (length l) < MDB_IDL_UM_MAX -> rest <> []) ->
  mdb_mid2l_append (id2l p l rest) id =
    Ret (if decide (Z.of_nat (length l) >= MDB_IDL_UM_MAX) then (-2, id2l p l rest)
         else (0, id2l p (l ++ [id]) (tail rest))).
Proof.
  intros Hl Hr. change MDB_IDL_UM_MAX with 131071 in *. unfold mdb_mid2l_append, id2l. change MDB_IDL_UM_MAX with 131071.
  replace (load (_ :: l ++ rest) 0) with (Ret (ID2 (Z.of_nat (length l)) p)) by done. cbn [mbind outcome_bind mid mptr].
  case_decide as Hfull; [done|]. destruct rest as [|y rest]; [by destruct (Hr ltac:(lia))|].
  rewrite (store_entry [] _ _ (l ++ y :: rest) : store (_ :: l ++ y :: rest) 0 _ = _). cbn [mbind outcome_bind app].
  rewrite wrap64 by lia. set (h := ID2 (Z.of_nat (length l) + 1) p).
  replace (Z.of_nat (length l) + 1) with (Z.of_nat (length (h :: l))) by (cbn [length]; lia).
  rewrite (store_entry (h :: l) y id rest : store (h :: l ++ y :: rest) _ id = _). cbn [mbind outcome_bind tail].
  unfold h. cbn [app]. rewrite <- app_assoc, length_app. cbn [length app]. do 4 f_equal. lia.
Qed.
