(* ===== verification/MidlHeap.v ===== *)
(** * The storage of ID lists (src/liblmdb/midl.c, midl.h)

    An MDB_IDL is a pointer to the second word of a block: the word in front
    of it is the capacity.  The functions that allocate, grow, shrink and free
    act on a heap of blocks of words; where the C library puts a block and
    when it fails are the functions of the class [Words].  A function that
    takes an [MDB_IDL *] gives the new value of the variable with its result. *)

From Stdlib Require Import ZArith Lia.
From stdpp Require Import prelude gmap.
From S2P Require Import Prelude Midl.

(** ** The heap *)

Abbreviation heap := (gmap Z (list Z)).

(** [wpick m n], [wrepick m p n]: the address [malloc(n)] and [realloc(p, n)]
    give, [None] when they fail; [wjunk n]: what [n] new words hold. *)
Class Words := {
  wpick : heap -> Z -> option Z;
  wrepick : heap -> Z -> Z -> option Z;
  wjunk : Z -> list Z;
  wjunk_length : forall n, length (wjunk n) = Z.to_nat n;
  wpick_ok : forall m n p, wpick m n = Some p -> m !! p = None /\ 0 < p;
  wrepick_ok : forall m p0 n p, wrepick m p0 n = Some p -> (p = p0 \/ m !! p = None) /\ 0 < p
}.

Definition ENOMEM : Z := 12.

Section MidlHeap.
Context {W : Words}.

(** [sizeof(MDB_ID)] is 8. *)
Definition malloc (n : Z) : ST heap Z := fun h =>
  match wpick h n with
  | None => Ret (0, h)
  | Some p => Ret (p, <[p := wjunk (n / 8)]> h)
  end.

(** The old words stay, as far as they fit; size 0 frees. *)
Definition realloc (p n : Z) : ST heap Z := fun h =>
  match h !! p with
  | None => Undef
  | Some b =>
      if decide (n = 0) then Ret (0, delete p h) else
      match wrepick h p n with
      | None => Ret (0, h)
      | Some q => Ret (q, <[q := take (Z.to_nat (n / 8)) (b ++ drop (length b) (wjunk (n / 8)))]> (delete p h))
      end
  end.

Definition free (p : Z) : ST heap unit := fun h =>
  if decide (p = 0) then Ret (tt, h) else
  match h !! p with
  | None => Undef
  | Some _ => Ret (tt, delete p h)
  end.

(** Word [i] of the block at [p]. *)
Definition word (p i : Z) : ST heap Z := fun h =>
  match h !! p with
  | None => Undef
  | Some b => x ← load b i; Ret (x, h)
  end.

Definition set_word (p i x : Z) : ST heap unit := fun h =>
  match h !! p with
  | None => Undef
  | Some b => b ← store b i x; Ret (tt, <[p := b]> h)
  end.

(** [memcpy] of [n] words. *)
Definition memcpy_words (p i q j n : Z) : ST heap unit := fun h =>
  match h !! p, h !! q with
  | Some b, Some c =>
      match peek c (Z.to_nat j) (Z.to_nat n) with
      | None => Undef
      | Some ws => match poke b (Z.to_nat i) ws with None => Undef | Some b => Ret (tt, <[p := b]> h) end
      end
  | _, _ => Undef
  end.

(** [ids[i]] and [ids[i] = x]: the block starts one word in front of [ids]. *)
Definition ids_get (ids i : Z) : ST heap Z := word (ids - 8) (i + 1).
Definition ids_set (ids i x : Z) : ST heap unit := set_word (ids - 8) (i + 1) x.

Definition as_int (x : Z) : ST heap Z := fun h => r ← int x; Ret (r, h).

(** ** The functions *)

Definition mdb_midl_alloc (num : Z) : ST heap Z :=
  n ← as_int (num + 2);
  p ← malloc (u64 (u64 n * 8));
  if decide (p = 0) then mret 0 else
  set_word p 0 (u64 num);;
  set_word p 1 0;;
  mret (p + 8).

Definition mdb_midl_free (ids : Z) : ST heap unit :=
  if decide (ids = 0) then mret tt else free (ids - 8).

Definition mdb_midl_shrink (ids : Z) : ST heap Z :=
  cap ← word (ids - 8) 0;
  if decide (cap > MDB_IDL_UM_MAX) then
    q ← realloc (ids - 8) ((MDB_IDL_UM_MAX + 2) * 8);
    if decide (q = 0) then mret ids else
    set_word q 0 MDB_IDL_UM_MAX;;
    mret (q + 8)
  else mret ids.

Definition mdb_midl_grow (ids num : Z) : ST heap (Z * Z) :=
  cap ← word (ids - 8) 0;
  q ← realloc (ids - 8) (u64 (u64 (cap + num + 2) * 8));
  if decide (q = 0) then mret (ENOMEM, ids) else
  cap ← word q 0;
  set_word q 0 (u64 (cap + num));;
  mret (0, q + 8).

Definition mdb_midl_need (ids num : Z) : ST heap (Z * Z) :=
  n ← ids_get ids 0;
  let num := u32 (num + n) in
  cap ← ids_get ids (-1);
  if decide (num > cap) then
    let num := Z.land (u32 (num + num / 4 + (256 + 2))) (u32 (-256)) in
    q ← realloc (ids - 8) (num * 8);
    if decide (q = 0) then mret (ENOMEM, ids) else
    set_word q 0 (u32 (num - 2));;
    mret (0, q + 8)
  else mret (0, ids).

Definition mdb_midl_append (ids id : Z) : ST heap (Z * Z) :=
  n ← ids_get ids 0;
  cap ← ids_get ids (-1);
  '(rc, ids) ← (if decide (n >= cap) then mdb_midl_grow ids MDB_IDL_UM_MAX else mret (0, ids));
  if decide (rc <> 0) then mret (ENOMEM, ids) else
  n ← ids_get ids 0;
  ids_set ids 0 (u64 (n + 1));;
  n ← ids_get ids 0;
  ids_set ids n id;;
  mret (0, ids).

(** The macro [mdb_midl_xappend]. *)
Definition mdb_midl_xappend (idl id : Z) : ST heap unit :=
  n ← ids_get idl 0;
  let xlen := u64 (n + 1) in
  ids_set idl 0 xlen;;
  ids_set idl xlen id.

Definition mdb_midl_append_list (ids app : Z) : ST heap (Z * Z) :=
  n ← ids_get ids 0;
  m ← ids_get app 0;
  cap ← ids_get ids (-1);
  '(rc, ids) ← (if decide (u64 (n + m) >= cap) then mdb_midl_grow ids (swrap 32 m) else mret (0, ids));
  if decide (rc <> 0) then mret (ENOMEM, ids) else
  n ← ids_get ids 0;
  m ← ids_get app 0;
  memcpy_words (ids - 8) (n + 2) (app - 8) 2 m;;
  ids_set ids 0 (u64 (n + m));;
  mret (0, ids).

(** [while (n) ids[n--] = id++], with [ids] moved on by [len] *)
Fixpoint range_loop (ids len : Z) (n : nat) (id : Z) : ST heap unit :=
  match n with
  | O => mret tt
  | S n' => ids_set ids (len + Z.of_nat n) id;; range_loop ids len n' (u64 (id + 1))
  end.

Definition mdb_midl_append_range (ids id n : Z) : ST heap (Z * Z) :=
  len ← ids_get ids 0;
  cap ← ids_get ids (-1);
  '(rc, ids) ← (if decide (u64 (len + n) > cap) then mdb_midl_grow ids (swrap 32 (Z.lor n MDB_IDL_UM_MAX))
                else mret (0, ids));
  if decide (rc <> 0) then mret (ENOMEM, ids) else
  ids_set ids 0 (u64 (len + n));;
  range_loop ids len (Z.to_nat n) id;;
  mret (0, ids).

End MidlHeap.

(** ** A list in the heap

    [holds h ids l room]: the block of [ids] holds the IDs [l] and has
    room for as many more as [room], whose words may be anything. *)

Definition cells (l room : list Z) : list Z := Z.of_nat (length l + length room) :: idl l room.

Definition holds (h : heap) (ids : Z) (l room : list Z) : Prop := h !! (ids - 8) = Some (cells l room) /\ 8 < ids.

(** The list at [ids] became the list at [ids'], and nothing else changed. *)
Definition became (h : heap) (ids : Z) (h' : heap) (ids' : Z) (l room : list Z) : Prop :=
  h' = <[ids' - 8 := cells l room]> (delete (ids - 8) h) /\ 8 < ids' /\ (ids' = ids \/ h !! (ids' - 8) = None).

Lemma became_holds h ids h' ids' l room : became h ids h' ids' l room -> holds h' ids' l room.
Proof. intros (-> & H & _). split; [apply lookup_insert_eq|done]. Qed.

Lemma became_refl h ids l room : holds h ids l room -> became h ids h ids l room.
Proof. intros [H Hp]. split; [by rewrite insert_delete_id|]. split; [done|by left]. Qed.

(** A change of the block in place. *)
Lemma became_set h ids h' ids' l room l' room' : became h ids h' ids' l room ->
  became h ids (<[ids' - 8 := cells l' room']> h') ids' l' room'.
Proof. intros (-> & H & Ho). split; [apply insert_insert_eq|done]. Qed.

Lemma became_other h ids h' ids' l room p b : became h ids h' ids' l room -> p <> ids - 8 -> h !! p = Some b -> h' !! p = Some b.
Proof.
  intros (-> & _ & Ho) Hp Hb. rewrite lookup_insert_ne; [by rewrite lookup_delete_ne|].
  intros E. destruct Ho as [-> |Ho]; congruence.
Qed.

(** *** Words of a block *)

Lemma word_run p i (h : heap) b x : h !! p = Some b -> load b i = Ret x -> word p i h = Ret (x, h).
Proof. intros Hb Hx. unfold word. by rewrite Hb, Hx. Qed.

Lemma set_word_run p i x (h : heap) b b' : h !! p = Some b -> store b i x = Ret b' ->
  set_word p i x h = Ret (tt, <[p := b']> h).
Proof. intros Hb Hx. unfold set_word. by rewrite Hb, Hx. Qed.

Lemma ids_get_count h ids l room : holds h ids l room -> ids_get ids 0 h = Ret (Z.of_nat (length l), h).
Proof. intros [H _]. by eapply word_run. Qed.

Lemma word_cap h ids l room : holds h ids l room -> word (ids - 8) 0 h = Ret (Z.of_nat (length l + length room), h).
Proof. intros [H _]. by eapply word_run. Qed.

Lemma ids_get_cap h ids l room : holds h ids l room ->
  ids_get ids (-1) h = Ret (Z.of_nat (length l + length room), h).
Proof. apply word_cap. Qed.

(** The count and the next free word, written as the functions do. *)
Lemma ids_set_run ids i x h c n l1 y l2 : h !! (ids - 8) = Some (c :: n :: l1 ++ y :: l2) -> i = Z.of_nat (length l1) + 1 ->
  ids_set ids i x h = Ret (tt, <[ids - 8 := c :: n :: l1 ++ x :: l2]> h).
Proof.
  intros H ->. eapply set_word_run; [exact H|].
  replace (Z.of_nat (length l1) + 1 + 1) with (Z.of_nat (length (c :: n :: l1))) by (cbn [length]; lia).
  apply (store_entry (c :: n :: l1)).
Qed.

Lemma ids_set_count ids x h c n l : h !! (ids - 8) = Some (c :: n :: l) ->
  ids_set ids 0 x h = Ret (tt, <[ids - 8 := c :: x :: l]> h).
Proof. intros H. eapply set_word_run; [exact H|]. apply (store_entry [c]). Qed.

Section Runs.
Context {W : Words}.

(** *** Growing *)

Lemma realloc_run p n (h : heap) b : h !! p = Some b -> 0 < n ->
  match wrepick h p (n * 8) with
  | None => realloc p (n * 8) h = Ret (0, h)
  | Some q => realloc p (n * 8) h =
      Ret (q, <[q := take (Z.to_nat n) (b ++ drop (length b) (wjunk n))]> (delete p h)) /\
    (q = p \/ h !! q = None) /\ 0 < q
  end.
Proof.
  intros Hb Hn. unfold realloc. rewrite Hb, decide_False by lia. rewrite Z.div_mul by lia.
  destruct (wrepick h p (n * 8)) as [q|] eqn:E; [|done]. split; [done|]. by eapply wrepick_ok.
Qed.

(** The words of a block that has grown. *)
Lemma grown_words b n : Z.of_nat (length b) <= n ->
  exists j, take (Z.to_nat n) (b ++ drop (length b) (wjunk n)) = b ++ j /\ Z.of_nat (length j) = n - Z.of_nat (length b).
Proof.
  intros H. exists (drop (length b) (wjunk n)). rewrite take_ge.
  - split; [done|]. rewrite length_drop, wjunk_length. lia.
  - rewrite length_app, length_drop, wjunk_length. lia.
Qed.

Lemma length_cells l room : Z.of_nat (length (cells l room)) = Z.of_nat (length l + length room) + 2.
Proof. unfold cells. cbn [length]. pose proof (size_idl l room) as S. unfold size in S. lia. Qed.

Lemma cells_app l room j c : c = Z.of_nat (length l + length (room ++ j)) ->
  c :: tail (cells l room ++ j) = cells l (room ++ j).
Proof. intros ->. unfold cells, idl. cbn. by rewrite <- app_assoc. Qed.

(** What a block that is large enough becomes: more room. *)
Lemma enlarge_run ids h l room n c : holds h ids l room -> Z.of_nat (length l + length room) + 2 <= n -> c = n - 2 ->
  match wrepick h (ids - 8) (n * 8) with
  | None => realloc (ids - 8) (n * 8) h = Ret (0, h)
  | Some q => exists h', realloc (ids - 8) (n * 8) h = Ret (q, h') /\ q <> 0 /\
    word q 0 h' = Ret (Z.of_nat (length l + length room), h') /\
    exists h'' j, set_word q 0 c h' = Ret (tt, h'') /\ became h ids h'' (q + 8) l (room ++ j) /\
      Z.of_nat (length l + length (room ++ j)) = c
  end.
Proof.
  intros [Hb Hp] Hn ->. pose proof (length_cells l room) as L.
  pose proof (realloc_run (ids - 8) n h _ Hb ltac:(lia)) as R. destruct (wrepick _ _ _) as [q|]; [|done]. destruct R as (E & Hq & Hq0).
  destruct (grown_words (cells l room) n ltac:(lia)) as (j & Ej & Lj). rewrite Ej in E.
  eexists. split; [exact E|]. split; [lia|]. split; [eapply word_run; [apply lookup_insert_eq|done]|].
  assert (Hc : Z.of_nat (length l + length (room ++ j)) = n - 2) by (rewrite length_app; lia).
  eexists _, j. split; [|split; [|exact Hc]].
  - eapply set_word_run; [apply lookup_insert_eq|]. apply (store_entry []).
  - replace q with (q + 8 - 8) at 1 2 by lia. rewrite insert_insert_eq. split; [|split; [lia|]].
    + f_equal. cbn [app]. rewrite <- cells_app with (c := n - 2); [done|]. by rewrite Hc.
    + replace (q + 8 - 8) with q by lia. destruct Hq as [-> |]; [left; lia|by right].
Qed.

(** The list is at [ids'] and has the capacity [cap]. *)
Definition settled (h : heap) (ids ids' : Z) (l' : list Z) (cap : Z) (m : outcome (Z * Z * heap)) : Prop :=
  exists h' room', m = Ret ((0, ids'), h') /\ became h ids h' ids' l' room' /\ Z.of_nat (length l' + length room') = cap.

(** The block is asked to hold [cap] IDs: ENOMEM and no change when realloc() fails, and the list is in
    the block that realloc() gives otherwise. *)
Definition regrown (h : heap) (ids : Z) (l' : list Z) (cap : Z) (m : outcome (Z * Z * heap)) : Prop :=
  match wrepick h (ids - 8) ((cap + 2) * 8) with
  | None => m = Ret ((ENOMEM, ids), h)
  | Some q => settled h ids (q + 8) l' cap m
  end.

Lemma grow_run ids num h l room : holds h ids l room -> 0 <= num ->
  Z.of_nat (length l + length room) + num < 2 ^ 60 ->
  regrown h ids l (Z.of_nat (length l + length room) + num) (mdb_midl_grow ids num h).
Proof.
  intros H Hn Hw. unfold mdb_midl_grow, regrown. rewrite (bind_ret _ _ _ _ _ (word_cap _ _ _ _ H)).
  rewrite !wrap64 by (rewrite ?wrap64; lia).
  pose proof (enlarge_run ids h l room (Z.of_nat (length l + length room) + num + 2)
    (Z.of_nat (length l + length room) + num) H) as R. destruct (wrepick _ _ _) as [q|].
  - destruct R as (h1 & E & Hq & Ew & h2 & j & Es & B & Hj); [lia|lia|].
    rewrite (bind_ret _ _ _ _ _ E). rewrite decide_False by done. rewrite (bind_ret _ _ _ _ _ Ew).
    rewrite wrap64 by lia. rewrite (bind_ret _ _ _ _ _ Es). by exists h2, (room ++ j).
  - rewrite (bind_ret _ _ _ _ _ (R ltac:(lia) ltac:(lia))). by rewrite decide_True.
Qed.
End Runs.

(** ** Writing into the room *)

(** An appended ID takes the first word of the room. *)
Lemma cells_snoc l room id :
  Z.of_nat (length l + S (length room)) :: Z.of_nat (length l) + 1 :: (l ++ [id]) ++ room = cells (l ++ [id]) room.
Proof. unfold cells, idl. rewrite length_app. cbn [length]. f_equal; [lia|]. f_equal. lia. Qed.

Lemma append_room h ids l y room id : holds h ids l (y :: room) -> Z.of_nat (length l) < 2 ^ 60 ->
  exists h1, ids_set ids 0 (u64 (Z.of_nat (length l) + 1)) h = Ret (tt, h1) /\
    ids_get ids 0 h1 = Ret (Z.of_nat (length l) + 1, h1) /\
    ids_set ids (Z.of_nat (length l) + 1) id h1 = Ret (tt, <[ids - 8 := cells (l ++ [id]) room]> h).
Proof.
  intros [H _] Hl. rewrite wrap64 by lia. eexists. split; [by apply ids_set_count with (1 := H)|]. split.
  { eapply word_run; [apply lookup_insert_eq|done]. }
  erewrite ids_set_run; [|apply lookup_insert_eq|done]. rewrite insert_insert_eq. do 4 f_equal.
  rewrite <- cells_snoc, <- app_assoc. done.
Qed.

Lemma xappend_run h ids l y room id : holds h ids l (y :: room) -> Z.of_nat (length l) < 2 ^ 60 ->
  mdb_midl_xappend ids id h = Ret (tt, <[ids - 8 := cells (l ++ [id]) room]> h).
Proof.
  intros H Hl. destruct (append_room h ids l y room id H Hl) as (h1 & E1 & _ & E2).
  unfold mdb_midl_xappend. rewrite (bind_ret _ _ _ _ _ (ids_get_count _ _ _ _ H)). rewrite (bind_ret _ _ _ _ _ E1).
  by rewrite wrap64 by lia.
Qed.

(** The IDs of a range, the lowest last. *)
Definition range_desc (id : Z) (n : nat) : list Z := (fun i => u64 (id + Z.of_nat i)) <$> reverse (seq 0 n).

Lemma length_range_desc id n : length (range_desc id n) = n.
Proof. unfold range_desc. by rewrite length_fmap, length_reverse, length_seq. Qed.

Lemma range_desc_S id n : fits 64 id -> range_desc id (S n) = range_desc (u64 (id + 1)) n ++ [id].
Proof.
  intros Hid. unfold range_desc. cbn [seq]. rewrite reverse_cons, fmap_app. cbn [fmap list_fmap Z.of_nat].
  rewrite Z.add_0_r, wrap64 by exact Hid. f_equal. rewrite <- fmap_S_seq, <- fmap_reverse, <- list_fmap_compose.
  apply list_fmap_ext. intros _ i _. unfold compose, wrap. rewrite Zplus_mod_idemp_l. f_equal. lia.
Qed.

Lemma range_loop_run ids l n c k : forall r rest id h, length r = k -> fits 64 id ->
  h !! (ids - 8) = Some (c :: n :: l ++ r ++ rest) ->
  range_loop ids (Z.of_nat (length l)) k id h = Ret (tt, <[ids - 8 := c :: n :: l ++ range_desc id k ++ rest]> h).
Proof.
  induction k as [|k IH]; intros r rest id h Lr Hid Hb; cbn [range_loop].
  { apply nil_length_inv in Lr as ->. unfold mret, ST_ret. by rewrite insert_id. }
  destruct r as [|y r _] using rev_ind; [done|]. rewrite length_app in Lr. cbn [length] in Lr.
  rewrite <- app_assoc, (app_assoc l) in Hb. erewrite bind_ret.
  2: { eapply ids_set_run; [exact Hb|]. rewrite length_app. lia. }
  rewrite (IH r (id :: rest)); [|lia|by apply Z.mod_pos_bound|by rewrite <- app_assoc; apply lookup_insert_eq].
  rewrite insert_insert_eq, range_desc_S by done. by rewrite <- (app_assoc _ [id]).
Qed.

(** *** The result of an operation that may have to grow the list *)

Section Operations.
Context {W : Words}.

(** With room the list stays where it is and no memory is asked for; when the block is [full] it grows by [extra]. *)
Definition appended (h : heap) (ids : Z) (l room l' : list Z) (full : Prop) `{!Decision full} (extra : Z)
    (m : outcome (Z * Z * heap)) : Prop :=
  let cap := Z.of_nat (length l + length room) in
  if decide full then regrown h ids l' (cap + extra) m else settled h ids ids l' cap m.

(** What follows the growing is done where there is room for [k]. *)
Lemma ensure_run P `{!Decision P} ids num h l room l' (k : nat) (body : Z -> ST heap (Z * Z)) : holds h ids l room -> 0 <= num ->
  Z.of_nat (length l + length room) + num < 2 ^ 60 ->
  (~ P -> (k <= length room)%nat) -> Z.of_nat k <= Z.of_nat (length room) + num ->
  (forall ids' h' room', became h ids h' ids' l room' -> (k <= length room')%nat ->
     settled h ids ids' l' (Z.of_nat (length l + length room')) (body ids' h')) ->
  appended h ids l room l' P num
    (('(rc, ids) ← (if decide P then mdb_midl_grow ids num else mret (0, ids));
      if decide (rc <> 0) then mret (ENOMEM, ids) else body ids) h).
Proof.
  intros H Hn Hw Hk Hk' Hb. unfold appended. case_decide as HP.
  - pose proof (grow_run ids num h l room H Hn Hw) as R. unfold regrown in *. destruct (wrepick _ _ _) as [q|].
    + destruct R as (h' & room' & E & B & L). rewrite (bind_ret _ _ _ _ _ E). rewrite decide_False by tauto.
      rewrite <- L. apply Hb; [done|lia].
    + rewrite (bind_ret _ _ _ _ _ R). by rewrite decide_True.
  - rewrite (bind_ret _ _ _ _ h eq_refl). rewrite decide_False by tauto. apply Hb; [by apply became_refl|by apply Hk].
Qed.

Lemma append_run ids id h l room : holds h ids l room -> Z.of_nat (length l + length room) < 2 ^ 59 ->
  appended h ids l room (l ++ [id]) (Z.of_nat (length l) >= Z.of_nat (length l + length room)) MDB_IDL_UM_MAX
    (mdb_midl_append ids id h).
Proof.
  intros H Hw. unfold mdb_midl_append. rewrite (bind_ret _ _ _ _ _ (ids_get_count _ _ _ _ H)).
  rewrite (bind_ret _ _ _ _ _ (ids_get_cap _ _ _ _ H)).
  apply ensure_run with (k := 1%nat); try done; try (change MDB_IDL_UM_MAX with 131071; lia).
  intros ids' h' room' B Hr. pose proof (became_holds _ _ _ _ _ _ B) as H'.
  rewrite (bind_ret _ _ _ _ _ (ids_get_count _ _ _ _ H')). destruct room' as [|y room']; [simpl in Hr; lia|].
  destruct (append_room h' ids' l y room' id H') as (h1 & E1 & E2 & E3); [lia|].
  rewrite (bind_ret _ _ _ _ _ E1). rewrite (bind_ret _ _ _ _ _ E2). rewrite (bind_ret _ _ _ _ _ E3).
  eexists _, room'. split; [done|]. split; [by eapply became_set|]. rewrite length_app. cbn [length]. lia.
Qed.

Lemma append_list_run ids app h l room m room2 : holds h ids l room -> holds h app m room2 -> app <> ids ->
  Z.of_nat (length l + length room) < 2 ^ 59 -> Z.of_nat (length m) < 2 ^ 31 ->
  appended h ids l room (l ++ m) (Z.of_nat (length l) + Z.of_nat (length m) >= Z.of_nat (length l + length room))
    (Z.of_nat (length m)) (mdb_midl_append_list ids app h).
Proof.
  intros H Ha Hne Hw Hm. unfold mdb_midl_append_list. rewrite (bind_ret _ _ _ _ _ (ids_get_count _ _ _ _ H)).
  rewrite (bind_ret _ _ _ _ _ (ids_get_count _ _ _ _ Ha)). rewrite (bind_ret _ _ _ _ _ (ids_get_cap _ _ _ _ H)).
  replace (i32 (Z.of_nat (length m))) with (Z.of_nat (length m)) by (unfold swrap; rewrite Z.mod_small by lia; lia).
  rewrite wrap64 by lia.
  apply ensure_run with (k := length m); try done; try lia.
  intros ids' h' room' B Hr. pose proof (became_holds _ _ _ _ _ _ B) as H'.
  assert (Ha' : holds h' app m room2).
  { destruct Ha as [Ha Hp]. split; [|done]. eapply became_other; [exact B| |exact Ha]. lia. }
  rewrite (bind_ret _ _ _ _ _ (ids_get_count _ _ _ _ H')). rewrite (bind_ret _ _ _ _ _ (ids_get_count _ _ _ _ Ha')).
  set (cap := Z.of_nat (length l + length room')). set (n := Z.of_nat (length l)).
  assert (Em : memcpy_words (ids' - 8) (n + 2) (app - 8) 2 (Z.of_nat (length m)) h' =
    Ret (tt, <[ids' - 8 := cap :: n :: l ++ m ++ drop (length m) room']> h')).
  { unfold memcpy_words. destruct H' as [-> _], Ha' as [-> _]. unfold cells, idl at 1.
    rewrite (peek_at [Z.of_nat (length m + length room2); Z.of_nat (length m)] m room2) by (simpl; lia).
    unfold idl. change (_ :: _ :: l ++ room') with ((cap :: n :: l) ++ room'). rewrite <- (take_drop (length m) room') at 1.
    rewrite (poke_at (cap :: n :: l) _ m) by (rewrite ?length_take; cbn [length]; lia). done. }
  rewrite (bind_ret _ _ _ _ _ Em). erewrite bind_ret by (eapply ids_set_count; apply lookup_insert_eq).
  eexists _, (drop (length m) room'). split; [done|]. split; [|rewrite length_app, length_drop; lia]. rewrite insert_insert_eq.
  replace (cap :: u64 (n + Z.of_nat (length m)) :: l ++ m ++ drop (length m) room') with (cells (l ++ m) (drop (length m) room')).
  { by eapply became_set. }
  unfold cells, idl, cap, n. rewrite wrap64 by lia. rewrite length_app, length_drop, <- app_assoc. f_equal; [lia|]. f_equal. lia.
Qed.

Lemma lor_bounds n : 0 <= n < 2 ^ 31 -> n <= Z.lor n MDB_IDL_UM_MAX < 2 ^ 31.
Proof.
  change MDB_IDL_UM_MAX with 131071. intros Hn. split.
  - assert (E : Z.ldiff n (Z.lor n 131071) = 0).
    { apply Z.bits_inj'. intros i _. rewrite Z.ldiff_spec, Z.lor_spec, Z.bits_0. by destruct (Z.testbit n i). }
    pose proof (Z.sub_nocarry_ldiff _ _ E). pose proof (proj2 (Z.ldiff_nonneg (Z.lor n 131071) n)) as Hp.
    assert (0 <= Z.lor n 131071) by (apply Z.lor_nonneg; lia). lia.
  - destruct (decide (n = 0)) as [-> |]; [done|]. apply Z.log2_lt_pow2; [|rewrite Z.log2_lor by lia].
    { pose proof (proj2 (Z.lor_nonneg n 131071) ltac:(lia)). destruct (decide (Z.lor n 131071 = 0)) as [E|]; [|lia].
      apply Z.lor_eq_0_iff in E. lia. }
    apply Z.max_lub_lt; [apply Z.log2_lt_pow2; lia|done].
Qed.

Lemma append_range_run ids id n h l room : holds h ids l room -> fits 64 id -> 0 <= n < 2 ^ 31 ->
  Z.of_nat (length l + length room) < 2 ^ 59 ->
  appended h ids l room (l ++ range_desc id (Z.to_nat n)) (Z.of_nat (length l) + n > Z.of_nat (length l + length room))
    (Z.lor n MDB_IDL_UM_MAX) (mdb_midl_append_range ids id n h).
Proof.
  intros H Hid Hn Hw. unfold mdb_midl_append_range. rewrite (bind_ret _ _ _ _ _ (ids_get_count _ _ _ _ H)).
  rewrite (bind_ret _ _ _ _ _ (ids_get_cap _ _ _ _ H)). rewrite !(wrap64 (Z.of_nat (length l) + n)) by lia.
  pose proof (lor_bounds n Hn) as Hlor.
  replace (i32 (Z.lor n MDB_IDL_UM_MAX)) with (Z.lor n MDB_IDL_UM_MAX) by (unfold swrap; rewrite Z.mod_small by lia; lia).
  apply ensure_run with (k := Z.to_nat n); try done; try lia.
  intros ids' h' room' B Hr. pose proof (became_holds _ _ _ _ _ _ B) as [H' _].
  erewrite bind_ret by (eapply ids_set_count; exact H').
  set (k := Z.to_nat n) in *. set (m := range_desc id k). set (cap := Z.of_nat (length l + length room')).
  erewrite bind_ret.
  2: { apply (range_loop_run ids' l (Z.of_nat (length l) + n) cap k (take k room') (drop k room') id);
       [rewrite length_take; lia|done|]. rewrite (app_assoc l), <- app_assoc, take_drop. apply lookup_insert_eq. }
  eexists _, (drop k room'). split; [done|]. split; [|unfold m; rewrite length_app, length_drop, length_range_desc; lia].
  rewrite insert_insert_eq. fold m.
  replace (cap :: Z.of_nat (length l) + n :: l ++ m ++ drop k room') with (cells (l ++ m) (drop k room')).
  { by eapply became_set. }
  unfold cells, idl, cap, m. rewrite length_app, length_drop, length_range_desc, <- app_assoc. f_equal; [lia|]. f_equal. lia.
Qed.
End Operations.

(** ** Room in advance, allocation, shrinking *)

(** The size [mdb_midl_need] asks for, in words. *)
Lemma need_size n : 0 <= n -> n + n / 4 + 258 < 2 ^ 32 ->
  let k := Z.land (u32 (n + n / 4 + (256 + 2))) (u32 (-256)) in k = (n + n / 4 + 258) / 256 * 256 /\ n + 3 <= k < 2 ^ 32.
Proof.
  intros Hn Hw. cbv zeta. change (256 + 2) with 258. change (u32 (-256)) with (Z.shiftl (Z.ones 24) 8).
  assert (Hq : 0 <= n / 4) by (apply Z.div_pos; lia).
  replace (u32 (n + n / 4 + 258)) with (n + n / 4 + 258) by (symmetry; apply Z.mod_small; lia).
  set (x := n + n / 4 + 258) in *.
  assert (E : Z.land x (Z.shiftl (Z.ones 24) 8) = Z.shiftl (Z.shiftr x 8) 8).
  { apply Z.bits_inj'. intros i Hi. rewrite Z.land_spec. destruct (decide (i < 8)).
    - rewrite !Z.shiftl_spec_low by lia. by rewrite andb_false_r.
    - rewrite !Z.shiftl_spec, Z.shiftr_spec by lia. replace (i - 8 + 8) with i by lia.
      destruct (decide (i < 32)); [rewrite Z.ones_spec_low by lia; by rewrite andb_true_r|].
      rewrite Z.ones_spec_high by lia. rewrite andb_false_r. symmetry.
      rewrite <- (Z.mod_small x (2 ^ 32)) by lia. by apply Z.mod_pow2_bits_high; lia. }
  rewrite E, Z.shiftl_mul_pow2, Z.shiftr_div_pow2 by lia. change (2 ^ 8) with 256.
  pose proof (Z.div_mod x 256 ltac:(lia)). pose proof (Z.mod_pos_bound x 256 ltac:(lia)). split; [done|lia].
Qed.

Section Storage.
Context {W : Words}.

(** Room for [num] more IDs: with the block of (5/4 of the IDs, rounded to 256 words) when there is not enough. *)
Definition roomy (h : heap) (ids num : Z) (l room : list Z) (m : outcome (Z * Z * heap)) : Prop :=
  let cap := Z.of_nat (length l + length room) in
  let n := Z.of_nat (length l) + num in
  let new_cap := (n + n / 4 + 258) / 256 * 256 - 2 in
  if decide (n > cap) then n < new_cap /\ regrown h ids l new_cap m else m = Ret ((0, ids), h).

Lemma need_run ids num h l room : holds h ids l room -> 0 <= num ->
  Z.of_nat (length l) + num + (Z.of_nat (length l) + num) / 4 + 258 < 2 ^ 32 ->
  roomy h ids num l room (mdb_midl_need ids num h).
Proof.
  intros H Hn Hw. assert (Hq : 0 <= (Z.of_nat (length l) + num) / 4) by (apply Z.div_pos; lia). unfold roomy.
  unfold mdb_midl_need. rewrite (bind_ret _ _ _ _ _ (ids_get_count _ _ _ _ H)).
  rewrite (bind_ret _ _ _ _ _ (ids_get_cap _ _ _ _ H)).
  replace (u32 (num + Z.of_nat (length l))) with (Z.of_nat (length l) + num)
    by (unfold wrap; rewrite Z.mod_small; lia).
  set (n := Z.of_nat (length l) + num) in *. pose proof (need_size n ltac:(lia) ltac:(lia)) as [<- Hk].
  set (k := Z.land _ _) in *. case_decide as Hgt; [|done]. split; [lia|].
  replace (u32 (k - 2)) with (k - 2) by (symmetry; apply Z.mod_small; lia).
  pose proof (enlarge_run ids h l room k (k - 2) H ltac:(lia) eq_refl) as R. unfold regrown. replace (k - 2 + 2) with k by lia.
  destruct (wrepick _ _ _) as [q|].
  - destruct R as (h1 & E & Hq0 & _ & h2 & j & Es & B & Hj).
    rewrite (bind_ret _ _ _ _ _ E). rewrite decide_False by done. rewrite (bind_ret _ _ _ _ _ Es).
    by exists h2, (room ++ j).
  - rewrite (bind_ret _ _ _ _ _ R). by rewrite decide_True.
Qed.

Lemma midl_alloc_run num h : 0 <= num < 2 ^ 31 - 2 ->
  mdb_midl_alloc num h = Ret (0, h) \/
  exists ids room, mdb_midl_alloc num h = Ret (ids, <[ids - 8 := cells [] room]> h) /\
    h !! (ids - 8) = None /\ 8 < ids /\ Z.of_nat (length room) = num.
Proof.
  intros Hn. unfold mdb_midl_alloc. erewrite bind_ret by (unfold as_int; by rewrite int_ret by lia).
  rewrite !wrap64 by (rewrite ?wrap64; lia). unfold malloc at 1. rewrite Z.div_mul by lia.
  destruct (wpick h ((num + 2) * 8)) as [p|] eqn:Ep.
  2: { left. erewrite bind_ret by (unfold malloc; by rewrite Ep). by rewrite decide_True. }
  right. destruct (wpick_ok _ _ _ Ep) as [Hf Hp].
  erewrite bind_ret by (unfold malloc; by rewrite Ep). rewrite decide_False by lia. rewrite Z.div_mul by lia.
  pose proof (wjunk_length (num + 2)) as L. destruct (wjunk (num + 2)) as [|x [|y room]]; cbn [length] in L; [lia|lia|].
  erewrite bind_ret by (eapply set_word_run; [apply lookup_insert_eq|apply (store_entry [])]).
  erewrite bind_ret by (eapply set_word_run; [apply lookup_insert_eq|apply (store_entry [num])]).
  exists (p + 8), room. replace (p + 8 - 8) with p by lia. split; [|split; [done|lia]].
  unfold mret, ST_ret. rewrite !insert_insert_eq. do 3 f_equal. unfold cells, idl. cbn. f_equal. lia.
Qed.

(** A block over the usual size is given back as far as possible, unless realloc() fails. *)
Definition shrunk (h : heap) (ids : Z) (l room : list Z) (m : outcome (Z * heap)) : Prop :=
  match (if decide (Z.of_nat (length l + length room) > MDB_IDL_UM_MAX) then wrepick h (ids - 8) ((MDB_IDL_UM_MAX + 2) * 8)
         else None) with
  | None => m = Ret (ids, h)
  | Some q => exists h' room', m = Ret (q + 8, h') /\ became h ids h' (q + 8) l room' /\
      Z.of_nat (length l + length room') = MDB_IDL_UM_MAX
  end.

Lemma shrink_run ids h l room : holds h ids l room -> Z.of_nat (length l) <= MDB_IDL_UM_MAX ->
  shrunk h ids l room (mdb_midl_shrink ids h).
Proof.
  change MDB_IDL_UM_MAX with 131071. intros H Hl. unfold mdb_midl_shrink, shrunk. change MDB_IDL_UM_MAX with 131071.
  rewrite (bind_ret _ _ _ _ _ (word_cap _ _ _ _ H)). case_decide as Hgt; [|done]. destruct H as [Hb Hp].
  change ((131071 + 2) * 8) with (131073 * 8).
  pose proof (realloc_run (ids - 8) 131073 h _ Hb ltac:(lia)) as R. destruct (wrepick _ _ _) as [q|].
  2: { rewrite (bind_ret _ _ _ _ _ R). by rewrite decide_True. }
  destruct R as (E & Hq & Hq0). set (k := (Z.to_nat 131071 - length l)%nat).
  assert (Ek : (length l + k = Z.to_nat 131071)%nat) by lia.
  assert (Ew : take (Z.to_nat 131073) (cells l room ++ drop (length (cells l room)) (wjunk 131073)) =
     Z.of_nat (length l + length room) :: idl l (take k room)).
  { rewrite take_app_le by (pose proof (length_cells l room); lia).
    replace (Z.to_nat 131073) with (S (S (length l + k))) by lia. unfold cells, idl. cbn [take].
    do 2 f_equal. by rewrite take_app_add. }
  rewrite Ew in E. rewrite (bind_ret _ _ _ _ _ E). rewrite decide_False by lia.
  erewrite bind_ret by (eapply set_word_run; [apply lookup_insert_eq|apply (store_entry [])]).
  rewrite insert_insert_eq. cbn [app]. eexists _, (take k room). split; [done|].
  assert (Hc : Z.of_nat (length l + length (take k room)) = 131071) by (rewrite length_take; lia).
  split; [|done]. split; [|split; [lia|]].
  - replace (q + 8 - 8) with q by lia. unfold cells. by rewrite Hc.
  - replace (q + 8 - 8) with q by lia. destruct Hq as [-> |]; [left; lia|by right].
Qed.

Lemma midl_free_run ids h l room : holds h ids l room -> mdb_midl_free ids h = Ret (tt, delete (ids - 8) h).
Proof. intros [H Hp]. unfold mdb_midl_free, free. rewrite !decide_False by lia. by rewrite H. Qed.

(** C31: the functions on a list in the heap keep its form - the capacity, the
    count, the IDs and the room behind them - and change no other block.
    Appending an ID, a list or a range appends it: with room in the block the list stays where it is and no
    memory is asked for; when the block is full it is moved to the block of the larger size that realloc() gives, and
    only when realloc() fails the result is ENOMEM, without a change.  [mdb_midl_need] makes the room it is asked
    for in the same way, and the macro then needs none of its own checks; shrinking keeps the
    IDs and cuts a larger block down to the usual size, unless realloc() fails; freeing frees the block. *)
Theorem midl_storage_refines ids h l room :
  holds h ids l room -> let n := Z.of_nat (length l) in let cap := Z.of_nat (length l + length room) in cap < 2 ^ 59 ->
  (forall id, appended h ids l room (l ++ [id]) (n >= cap) MDB_IDL_UM_MAX (mdb_midl_append ids id h)) /\
  (forall app m room2, holds h app m room2 -> app <> ids -> Z.of_nat (length m) < 2 ^ 31 ->
     appended h ids l room (l ++ m) (n + Z.of_nat (length m) >= cap) (Z.of_nat (length m)) (mdb_midl_append_list ids app h)) /\
  (forall id k, fits 64 id -> 0 <= k < 2 ^ 31 ->
     appended h ids l room (l ++ range_desc id (Z.to_nat k)) (n + k > cap) (Z.lor k MDB_IDL_UM_MAX)
       (mdb_midl_append_range ids id k h)) /\
  (forall num, 0 <= num -> n + num + (n + num) / 4 + 258 < 2 ^ 32 -> roomy h ids num l room (mdb_midl_need ids num h)) /\
  (forall id, room <> [] -> mdb_midl_xappend ids id h = Ret (tt, <[ids - 8 := cells (l ++ [id]) (tail room)]> h)) /\
  (n <= MDB_IDL_UM_MAX -> shrunk h ids l room (mdb_midl_shrink ids h)) /\
  mdb_midl_free ids h = Ret (tt, delete (ids - 8) h).
Proof.
  intros H n cap Hw. unfold n, cap in *. split_and!.
  - intros id. by apply append_run.
  - intros app m room2 Ha Hne Hm. by apply append_list_run with room2.
  - intros id k Hid Hk. by apply append_range_run.
  - intros num Hn Hs. by apply need_run.
  - intros id Hr. destruct room as [|y room]; [done|]. apply xappend_run with y; [done|lia].
  - intros Hl. by apply shrink_run.
  - by apply midl_free_run with l room.
Qed.
End Storage.

(** A C library whose memory never runs out, for the witness. *)
#[export] Program Instance endless_words : Words := {|
  wpick h n := Some (highest (dom h) + 1);
  wrepick h p n := Some (highest (dom h) + 1);
  wjunk n := replicate (Z.to_nat n) 0
|}.
Next Obligation. intros n. apply length_replicate. Qed.
Next Obligation.
  intros m n p [= <-]. pose proof (highest_pos (dom m)). split; [|lia]. apply not_elem_of_dom.
  intros Hi%highest_spec. lia.
Qed.
Next Obligation.
  intros m p0 n p [= <-]. pose proof (highest_pos (dom m)). split; [right|lia]. apply not_elem_of_dom.
  intros Hi%highest_spec. lia.
Qed.

(** The witness: a full list of two IDs at 24, a list to append at 64. *)
Definition two_lists : heap := {[ 16 := [2; 2; 9; 7]; 56 := [3; 2; 5; 4; 0] ]}.

Lemma midl_storage_refines_witness :
  regrown two_lists 24 ([9; 7] ++ [5; 4]) 4 (mdb_midl_append_list 24 64 two_lists) /\
  wrepick two_lists 16 ((4 + 2) * 8) = Some 57 /\
  mdb_midl_free 24 two_lists = Ret (tt, delete 16 two_lists).
Proof.
  destruct (midl_storage_refines 24 two_lists [9; 7] []) as (_ & Hl & _ & _ & _ & _ & Hf).
  - split; [reflexivity|lia].
  - simpl. lia.
  - split; [|split; [vm_compute; reflexivity|exact Hf]].
    apply (Hl 64 [5; 4] [0]).
    + split; [reflexivity|lia].
    + lia.
    + simpl. lia.
Defined.
