(* ===== verification/MdbPage.v ===== *)
(** * The pages of LMDB (src/liblmdb/mdb.c)

    The bytes of a page of the b-tree: comparing keys, the search in a page,
    adding and deleting a node, and compacting a sub-page.  Little-endian
    words of 16 bits, eight bytes of page number, PAGEBASE = 0 (MDB_DEVEL is
    0), assertions compiled in.  A page is a list of bytes; an address in
    it is a [nat].  The proofs are in MdbPageSpec.v. *)

From Stdlib Require Import ZArith Lia.
From stdpp Require Import prelude gmap.
From S2P Require Import Prelude.

(** ** Words in a page *)

Definition le16 (v : Z) : list Z := [v mod 256; (v / 256) mod 256].
Definition of16 (bs : list Z) : Z := match bs with [a; b] => a + 256 * b | _ => 0 end.
Definition u16 : Z -> Z := wrap 16.

Definition page := list Z.

Definition rd (a n : nat) : ST page (list Z) := fun p => bs ← of_option (peek p a n); Ret (bs, p).
Definition wr (a : nat) (bs : list Z) : ST page unit := fun p => p' ← of_option (poke p a bs); Ret (tt, p').
Definition rd16 (a : nat) : ST page Z := bs ← rd a 2; mret (of16 bs).
Definition wr16 (a : nat) (v : Z) : ST page unit := wr a (le16 v).

(** [memmove(dst, src, n)]; nothing is touched when [n] is 0. *)
Definition memmove (dst src n : nat) : ST page unit :=
  if decide (n = 0)%nat then mret tt else bs ← rd src n; wr dst bs.

(** A length that comes out negative is a huge [size_t]. *)
Definition memmove_size (dst src : nat) (n : Z) : ST page unit :=
  if decide (n < 0) then fun _ => Undef else memmove dst src (Z.to_nat n).

(** The header of a page at [b], a page of its own or a sub-page. *)
Definition PAGEHDRSZ : Z := 16.
Definition MP_FLAGS (b : nat) : nat := b + 10.
Definition MP_LOWER (b : nat) : nat := b + 12.
Definition MP_UPPER (b : nat) : nat := b + 14.
Definition MP_PTRS (b i : nat) : nat := b + 16 + 2 * i.

Definition P_BRANCH : Z := 0x01.
Definition P_LEAF : Z := 0x02.
Definition P_OVERFLOW : Z := 0x04.
Definition P_DIRTY : Z := 0x10.
Definition P_LEAF2 : Z := 0x20.
Definition P_SUBP : Z := 0x40.
Definition F_BIGDATA : Z := 0x01.
Definition F_SUBDATA : Z := 0x02.
Definition F_DUPDATA : Z := 0x04.
Definition MDB_RESERVE : Z := 0x10000.
Definition MDB_PAGE_FULL : Z := -30786.

Definition F_ISSET (w f : Z) : bool := bool_decide (Z.land w f = f).

Definition is_flag (b : nat) (f : Z) : ST page bool := w ← rd16 (MP_FLAGS b); mret (F_ISSET w f).
Definition IS_LEAF (b : nat) := is_flag b P_LEAF.
Definition IS_LEAF2 (b : nat) := is_flag b P_LEAF2.
Definition IS_BRANCH (b : nat) := is_flag b P_BRANCH.

Definition NUMKEYS (b : nat) : ST page Z := l ← rd16 (MP_LOWER b); mret (Z.shiftr (wrap 32 (l - PAGEHDRSZ)) 1).
Definition SIZELEFT (b : nat) : ST page Z := u ← rd16 (MP_UPPER b); l ← rd16 (MP_LOWER b); mret (u16 (u - l)).

Definition EVEN (n : Z) : Z := Z.land (n + 1) (-2).

(** The node of the pointer [i]: its address, and its fields. *)
Definition NODESIZE : Z := 8.
Definition NODEPTR (b i : nat) : ST page nat := o ← rd16 (MP_PTRS b i); mret (b + Z.to_nat o)%nat.
Definition mn_lo (node : nat) : nat := node.
Definition mn_hi (node : nat) : nat := node + 2.
Definition mn_flags (node : nat) : nat := node + 4.
Definition mn_ksize (node : nat) : nat := node + 6.
Definition NODEKEY (node : nat) : nat := node + 8.
Definition NODEDATA (node : nat) : ST page nat := k ← rd16 (mn_ksize node); mret (NODEKEY node + Z.to_nat k)%nat.
Definition NODEDSZ (node : nat) : ST page Z := lo ← rd16 (mn_lo node); hi ← rd16 (mn_hi node); mret (Z.lor lo (Z.shiftl hi 16)).
Definition SETDSZ (node : nat) (size : Z) : ST page unit :=
  wr16 (mn_lo node) (Z.land size 0xffff);; wr16 (mn_hi node) (Z.shiftr size 16).
Definition NODEPGNO (node : nat) : ST page Z :=
  lo ← rd16 (mn_lo node); hi ← rd16 (mn_hi node); fl ← rd16 (mn_flags node);
  mret (Z.lor (Z.lor lo (Z.shiftl hi 16)) (Z.shiftl fl 32)).
Definition SETPGNO (node : nat) (pgno : Z) : ST page unit :=
  wr16 (mn_lo node) (Z.land pgno 0xffff);; wr16 (mn_hi node) (Z.shiftr pgno 16);; wr16 (mn_flags node) (Z.shiftr pgno 32).

Definition LEAF2KEY (b : nat) (i ks : nat) : nat := b + 16 + i * ks.

(** ** Comparing keys *)

(** [memcmp], as the difference of the first bytes that differ. *)
Fixpoint memcmp (n : nat) (a b : list Z) : outcome Z :=
  match n with
  | O => Ret 0
  | S n =>
      match a, b with
      | x :: a, y :: b => if decide (x = y) then memcmp n a b else Ret (x - y)
      | _, _ => Undef
      end
  end.

Definition size (k : list Z) : Z := Z.of_nat (length k).

Definition mdb_cmp_memn (a b : list Z) : outcome Z :=
  let len_diff := size a - size b in
  let '(len, len_diff) := if decide (len_diff > 0) then (size b, 1) else (size a, len_diff) in
  diff ← memcmp (Z.to_nat (wrap 32 len)) a b;
  Ret (if decide (diff <> 0) then diff else if decide (len_diff < 0) then -1 else len_diff).

(** The loop from the ends of both keys, [n] bytes at most. *)
Fixpoint memnr_loop (n : nat) (ra rb : list Z) : outcome Z :=
  match n with
  | O => Ret 0
  | S n =>
      match ra, rb with
      | x :: ra, y :: rb => let diff := x - y in if decide (diff <> 0) then Ret diff else memnr_loop n ra rb
      | _, _ => Undef
      end
  end.

Definition mdb_cmp_memnr (a b : list Z) : outcome Z :=
  let len_diff := size a - size b in
  let '(n, len_diff) := if decide (len_diff > 0) then (length b, 1) else (length a, len_diff) in
  diff ← memnr_loop n (rev a) (rev b);
  Ret (if decide (diff <> 0) then diff else if decide (len_diff < 0) then -1 else len_diff).

(** The bytes of an integer of [w] bytes, the lowest first. *)
Fixpoint le_val (bs : list Z) : Z := match bs with [] => 0 | x :: bs => x + 256 * le_val bs end.

Definition load_int (w : nat) (k : list Z) : outcome Z := bs ← of_option (peek k 0 w); Ret (le_val bs).

Definition cmp_words (w : nat) (a b : list Z) : outcome Z :=
  x ← load_int w a; y ← load_int w b;
  Ret (if decide (x < y) then -1 else if decide (x > y) then 1 else 0).

Definition mdb_cmp_long : list Z -> list Z -> outcome Z := cmp_words 8.
Definition mdb_cmp_int : list Z -> list Z -> outcome Z := cmp_words 4.

(** [do x = *--u - *--c; while (!x && u > a)]: the words of 16 bits from
    [off + 2] down; both are read before the test. *)
Fixpoint cint_loop (fuel : nat) (a b : list Z) (off : nat) : outcome Z :=
  match fuel with
  | O => NoFuel
  | S fuel =>
      if decide (off < 2)%nat then Undef else
      u ← of_option (peek a (off - 2) 2); c ← of_option (peek b (off - 2) 2);
      let x := of16 u - of16 c in
      if decide (x = 0 /\ (0 < off - 2)%nat) then cint_loop fuel a b (off - 2) else Ret x
  end.

Definition mdb_cmp_cint (a b : list Z) : outcome Z := cint_loop (length a) a b (length a).

(** [md_cmp]: one of LMDB or a function of the program. *)
Inductive md_cmp :=
  | Cmp_memn | Cmp_memnr | Cmp_cint | Cmp_int | Cmp_long
  | Cmp_user (f : list Z -> list Z -> outcome Z).

Definition run_cmp (c : md_cmp) : list Z -> list Z -> outcome Z :=
  match c with
  | Cmp_memn => mdb_cmp_memn | Cmp_memnr => mdb_cmp_memnr | Cmp_cint => mdb_cmp_cint
  | Cmp_int => mdb_cmp_int | Cmp_long => mdb_cmp_long | Cmp_user f => f
  end.

Definition plift {A} (m : outcome A) : ST page A := fun p => a ← m; Ret (a, p).

(** ** mdb_node_search *)

(** The key of the node [i]; a page of P_LEAF2 has keys of [pad] bytes and no nodes. *)
Definition key_at (leaf2 : bool) (pad : nat) (i : nat) : ST page (list Z) :=
  if leaf2 then rd (LEAF2KEY 0 i pad) pad
  else node ← NODEPTR 0 i; k ← rd16 (mn_ksize node); rd (NODEKEY node) (Z.to_nat k).

(** [while (low <= high)]: the last [i] and [rc]. *)
Fixpoint node_search_loop (fuel : nat) (leaf2 : bool) (pad : nat) (cmp : md_cmp) (key : list Z) (low high i rc : Z) :
    ST page (Z * Z) :=
  match fuel with
  | O => no_fuel
  | S fuel =>
      if decide (low <= high) then
        let i := Z.shiftr (low + high) 1 in
        nodekey ← key_at leaf2 pad (Z.to_nat i);
        rc ← plift (run_cmp cmp key nodekey);
        if decide (rc = 0) then mret (i, rc)
        else if decide (rc > 0) then node_search_loop fuel leaf2 pad cmp key (i + 1) high i rc
        else node_search_loop fuel leaf2 pad cmp key low (i - 1) i rc
      else mret (i, rc)
  end.

(** The node found, as its index, or [None] for NULL; the index for the
    cursor; whether the match is exact. *)
Record found := Found { f_node : option Z; mc_ki : Z; exactp : bool }.

Definition mdb_node_search (fuel : nat) (md_cmp : md_cmp) (md_pad : nat) (key : list Z) : ST page found :=
  nkeys ← NUMKEYS 0;
  leaf ← IS_LEAF 0;
  let low := if leaf : bool then 0 else 1 in
  let high := swrap 32 (nkeys - 1) in
  branch ← IS_BRANCH 0;
  cmp ← (match md_cmp with
         | Cmp_cint =>
             if branch : bool then
               node ← NODEPTR 0 1; k ← rd16 (mn_ksize node);
               mret (if decide (k = 8) then Cmp_long else Cmp_int)
             else mret md_cmp
         | _ => mret md_cmp
         end);
  leaf2 ← IS_LEAF2 0;
  (if leaf2 : bool then NODEPTR 0 0;; mret tt else mret tt);;
  r ← node_search_loop fuel leaf2 md_pad cmp key low high 0 0;
  let '(i, rc) := r in
  i ← (if decide (rc > 0) then
         (if leaf2 : bool then mret tt else NODEPTR 0 (Z.to_nat (i + 1));; mret tt);; mret (i + 1)
       else mret i);
  mret (Found (if decide (i >= nkeys) then None else Some i) i (bool_decide (rc = 0 /\ nkeys > 0))).

(** ** The sizes of nodes *)

Definition OVPAGES (size psize : Z) : Z := (PAGEHDRSZ - 1 + size) / psize + 1.

Definition mdb_leaf_size (nodemax : Z) (key data : list Z) : Z :=
  let sz := NODESIZE + size key + size data in
  let sz := if decide (sz > nodemax) then sz - (size data - 8) else sz in
  EVEN (sz + 2).

Definition mdb_branch_size (key : option (list Z)) : Z :=
  NODESIZE + match key with None => 0 | Some k => size k end + 2.

(** The greatest node without an overflow page (mdb_env_open2). *)
Definition me_nodemax (psize : Z) : Z := Z.land ((psize - PAGEHDRSZ) / 2) (-2) - 2.

(** ** mdb_node_add *)

(** A size, and the bytes from the pointer on. *)
Record MDB_val := Val { mv_size : Z; mv_data : list Z }.

(** The page under the cursor, the mark of the transaction, the data written
    to overflow pages ([None]: MDB_RESERVE, the caller writes them), and the
    state of the allocation of pages. *)
Record ncursor {E : Type} := Ncursor {
  mc_page : page;
  txn_error : bool;
  overflow : list (Z * option (list Z));
  penv : E
}.

Definition key_size (key : option (list Z)) : Z := match key with None => 0 | Some k => size k end.

Section Node_add.
Context {E : Type}.
Abbreviation ncursor := (ncursor (E := E)).

(** [mdb_page_new(mc, P_OVERFLOW, num, &ofp)]: a failure, or the number of the page. *)
Variable page_new : Z -> ST E (Z + Z).
Variables (psize nodemax : Z) (md_pad : nat).

Definition on_page {A} (m : ST page A) : ST ncursor A := fun s =>
  '(a, p) ← m (mc_page s); Ret (a, Ncursor E p (txn_error s) (overflow s) (penv s)).

Definition new_page (num : Z) : ST ncursor (Z + Z) := fun s =>
  '(r, e) ← page_new num (penv s); Ret (r, Ncursor E (mc_page s) (txn_error s) (overflow s) e).

Definition write_overflow (pgno : Z) (data : option (list Z)) : ST ncursor unit :=
  modify (fun s => Ncursor E (mc_page s) (txn_error s) (overflow s ++ [(pgno, data)]) (penv s)).

Definition cassert (b : bool) : ST ncursor unit := fun s => if b then Ret (tt, s) else Abort.

Definition node_full : ST ncursor Z :=
  modify (fun s => Ncursor E (mc_page s) true (overflow s) (penv s));; mret MDB_PAGE_FULL.

(** [for (i = NUMKEYS(mp); i > indx; i--)], [n] times. *)
Fixpoint ptrs_up (n indx : nat) : ST page unit :=
  match n with
  | O => mret tt
  | S n => o ← rd16 (MP_PTRS 0 (indx + n)); wr16 (MP_PTRS 0 (indx + S n)) o;; ptrs_up n indx
  end.

(** The bytes of a page number in a node. *)
Fixpoint le_bytes (w : nat) (v : Z) : list Z := match w with O => [] | S w => v mod 256 :: le_bytes w (v / 256) end.

Definition leaf2_add (indx : nat) (key : list Z) : ST page unit :=
  let ptr := LEAF2KEY 0 indx md_pad in
  n ← NUMKEYS 0;
  (let dif := n - Z.of_nat indx in
   if decide (dif > 0) then memmove (ptr + md_pad) ptr (Z.to_nat dif * md_pad) else mret tt);;
  bs ← plift (of_option (peek key 0 md_pad));
  wr ptr bs;;
  l ← rd16 (MP_LOWER 0); wr16 (MP_LOWER 0) (u16 (l + 2));;
  u ← rd16 (MP_UPPER 0); wr16 (MP_UPPER 0) (u16 (u - (Z.of_nat md_pad - 2))).

(** The header of a node. *)
Definition write_head (leaf : bool) (node : nat) (ks flags dsize pgno : Z) : ST page unit :=
  wr16 (mn_ksize node) ks;; wr16 (mn_flags node) flags;;
  if leaf then SETDSZ node dsize else SETPGNO node pgno.

(** update: the pointer, and the node but for its data.  Its address. *)
Definition node_place (leaf : bool) (indx : nat) (key : option (list Z)) (dsize pgno flags node_size : Z) : ST ncursor nat :=
  n ← on_page (NUMKEYS 0);
  on_page (ptrs_up (Z.to_nat n - indx) indx);;
  u ← on_page (rd16 (MP_UPPER 0)); l ← on_page (rd16 (MP_LOWER 0));
  let ofs := u16 (u - node_size) in
  cassert (bool_decide (ofs >= l + 2));;
  on_page (wr16 (MP_PTRS 0 indx) ofs;; wr16 (MP_UPPER 0) ofs;; wr16 (MP_LOWER 0) (u16 (l + 2)));;
  node ← on_page (NODEPTR 0 indx);
  on_page (write_head leaf node (u16 (key_size key)) (u16 flags) dsize pgno);;
  on_page (match key with None => mret tt | Some k => wr (NODEKEY node) k end);;
  mret node.

(** The data of a leaf node, on the page or on the overflow page [ofp]. *)
Definition node_data (ofp : option Z) (data : MDB_val) (flags : Z) (node : nat) : ST ncursor unit :=
  ndata ← on_page (NODEDATA node);
  match ofp with
  | None =>
      if F_ISSET flags F_BIGDATA then bs ← on_page (plift (of_option (peek (mv_data data) 0 8))); on_page (wr ndata bs)
      else if F_ISSET flags MDB_RESERVE then mret tt
      else bs ← on_page (plift (of_option (peek (mv_data data) 0 (Z.to_nat (mv_size data))))); on_page (wr ndata bs)
  | Some pg =>
      on_page (wr ndata (le_bytes 8 pg));;
      if F_ISSET flags MDB_RESERVE then write_overflow pg None
      else bs ← on_page (plift (of_option (peek (mv_data data) 0 (Z.to_nat (mv_size data))))); write_overflow pg (Some bs)
  end.

(** The size of the node against the [room], and the node. *)
Definition node_insert (leaf : bool) (room : Z) (indx : nat) (key : option (list Z)) (data : option MDB_val) (pgno flags : Z) :
    ST ncursor Z :=
  let node_size := NODESIZE + key_size key in
  if leaf then
    match key, data with
    | Some _, Some d =>
        let put (node_size flags : Z) (ofp : option Z) : ST ncursor Z :=
          node ← node_place true indx key (mv_size d) pgno flags node_size;
          node_data ofp d flags node;; mret 0 in
        if F_ISSET flags F_BIGDATA then
          let node_size := EVEN (node_size + 8) in
          if decide (node_size > room) then node_full else put node_size flags None
        else if decide (node_size + mv_size d > nodemax) then
          let node_size := EVEN (node_size + 8) in
          if decide (node_size > room) then node_full else
          r ← new_page (OVPAGES (mv_size d) psize);
          match r with
          | inl rc => mret rc
          | inr pg => put node_size (Z.lor flags F_BIGDATA) (Some pg)
          end
        else
          let node_size := EVEN (node_size + mv_size d) in
          if decide (node_size > room) then node_full else put node_size flags None
    | _, _ => cassert false;; mret 0
    end
  else
    let node_size := EVEN node_size in
    if decide (node_size > room) then node_full else
    node_place false indx key 0 pgno flags node_size;; mret 0.

Definition mdb_node_add (indx : nat) (key : option (list Z)) (data : option MDB_val) (pgno flags : Z) : ST ncursor Z :=
  u ← on_page (rd16 (MP_UPPER 0)); l ← on_page (rd16 (MP_LOWER 0));
  cassert (bool_decide (u >= l));;
  leaf2 ← on_page (IS_LEAF2 0);
  if leaf2 : bool then
    match key with
    | Some k => on_page (leaf2_add indx k);; mret 0
    | None => undef
    end
  else
    left ← on_page (SIZELEFT 0);
    leaf ← on_page (IS_LEAF 0);
    node_insert leaf (left - 2) indx key data pgno flags.
End Node_add.

(** ** mdb_node_del *)

(** [for (i = j = 0; i < numkeys; i++)] *)
Fixpoint ptrs_down (n i j indx : nat) (ptr sz : Z) : ST page unit :=
  match n with
  | O => mret tt
  | S n =>
      if decide (i = indx) then ptrs_down n (S i) j indx ptr sz
      else
        o ← rd16 (MP_PTRS 0 i); wr16 (MP_PTRS 0 j) o;;
        o ← rd16 (MP_PTRS 0 i);
        (if decide (o < ptr) then o' ← rd16 (MP_PTRS 0 j); wr16 (MP_PTRS 0 j) (u16 (o' + sz)) else mret tt);;
        ptrs_down n (S i) (S j) indx ptr sz
  end.

Definition leaf2_del (indx ksize : nat) (numkeys : Z) : ST page unit :=
  let x := numkeys - 1 - Z.of_nat indx in
  let base := LEAF2KEY 0 indx ksize in
  (if decide (x <> 0) then memmove base (base + ksize) (Z.to_nat x * ksize) else mret tt);;
  l ← rd16 (MP_LOWER 0); wr16 (MP_LOWER 0) (u16 (l - 2));;
  u ← rd16 (MP_UPPER 0); wr16 (MP_UPPER 0) (u16 (u + (Z.of_nat ksize - 2))).

Definition mdb_node_del (indx ksize : nat) : ST page unit :=
  n ← NUMKEYS 0;
  let numkeys := u16 n in
  if decide (Z.of_nat indx < numkeys) then
    leaf2 ← IS_LEAF2 0;
    if leaf2 : bool then leaf2_del indx ksize numkeys
    else
      node ← NODEPTR 0 indx;
      k ← rd16 (mn_ksize node);
      leaf ← IS_LEAF 0;
      sz ← (if leaf : bool then
              f ← rd16 (mn_flags node);
              if F_ISSET f F_BIGDATA then mret (NODESIZE + k + 8)
              else d ← NODEDSZ node; mret (NODESIZE + k + d)
            else mret (NODESIZE + k));
      let sz := EVEN sz in
      ptr ← rd16 (MP_PTRS 0 indx);
      ptrs_down (Z.to_nat numkeys) 0 0 indx ptr sz;;
      u ← rd16 (MP_UPPER 0);
      memmove_size (Z.to_nat (u + sz)) (Z.to_nat u) (ptr - u);;
      l ← rd16 (MP_LOWER 0); wr16 (MP_LOWER 0) (u16 (l - 2));;
      wr16 (MP_UPPER 0) (u16 (u + sz))
  else fun _ => Abort.

(** ** mdb_node_shrink *)

(** [for (i = NUMKEYS(sp); --i >= 0; )]: the pointers of the sub-page at [sp],
    from the last down, to their place in the one at [xp]. *)
Fixpoint sub_ptrs (n sp xp : nat) (delta : Z) : ST page unit :=
  match n with
  | O => mret tt
  | S n => o ← rd16 (MP_PTRS sp n); wr16 (MP_PTRS xp n) (u16 (o - delta));; sub_ptrs n sp xp delta
  end.

(** The pointers up to [ptr] go up with their nodes. *)
Fixpoint main_ptrs (n : nat) (ptr delta : Z) : ST page unit :=
  match n with
  | O => mret tt
  | S n =>
      o ← rd16 (MP_PTRS 0 n);
      (if decide (o <= ptr) then wr16 (MP_PTRS 0 n) (u16 (o + delta)) else mret tt);;
      main_ptrs n ptr delta
  end.

Definition mdb_node_shrink (indx : nat) : ST page unit :=
  node ← NODEPTR 0 indx;
  sp ← NODEDATA node;
  delta ← SIZELEFT sp;
  d ← NODEDSZ node;
  let nsize := u16 (d - delta) in
  leaf2 ← IS_LEAF2 sp;
  let xp := (sp + Z.to_nat delta)%nat in
  len ← (if leaf2 : bool then mret nsize
         else
           n ← NUMKEYS sp;
           sub_ptrs (Z.to_nat n) sp xp delta;;
           mret PAGEHDRSZ);
  if decide (leaf2 = true /\ Z.odd nsize) then mret tt
  else
    l ← rd16 (MP_LOWER sp); wr16 (MP_UPPER sp) l;;
    pg ← rd 0 8; wr sp pg;;
    SETDSZ node nsize;;
    u ← rd16 (MP_UPPER 0);
    memmove_size (Z.to_nat u + Z.to_nat delta) (Z.to_nat u) (Z.of_nat sp + len - u);;
    ptr ← rd16 (MP_PTRS 0 indx);
    n ← NUMKEYS 0;
    main_ptrs (Z.to_nat n) ptr delta;;
    u ← rd16 (MP_UPPER 0); wr16 (MP_UPPER 0) (u16 (u + delta)).
