(* ===== verification/MdbPageSpec.v ===== *)
(** * What the operations on a page do

    A page is a header, pointers, a gap and a heap of nodes
    ([layout]); [represents] says which list of nodes it holds.  Adding,
    deleting, compacting and searching are operations on that list. *)

From Stdlib Require Import ZArith Lia.
From stdpp Require Import prelude gmap.
From S2P Require Import Prelude MdbPage.

(** ** Words *)

Abbreviation fits16 := (fits 16).

(** Division and remainder by constants. *)
Ltac dlia := Z.to_euclidean_division_equations; lia.

Lemma of16_le16 v : fits16 v -> of16 (le16 v) = v.
Proof. intros H. change (0 <= v < 65536) in H. unfold of16, le16. dlia. Qed.

Lemma of16_fits a b : is_byte a -> is_byte b -> fits16 (of16 [a; b]).
Proof. unfold fits, of16. change (2 ^ 8) with 256. change (2 ^ 16) with 65536. lia. Qed.

Lemma u16_fits v : fits16 v -> u16 v = v.
Proof. apply wrap_fits. Qed.

Lemma EVEN_spec n : 0 <= n -> EVEN n = 2 * ((n + 1) / 2).
Proof.
  intros Hn. unfold EVEN. change (-2) with (Z.lnot 1). rewrite <- Z.ldiff_land. change 1 with (Z.ones 1) at 2.
  rewrite Z.ldiff_ones_r, Z.shiftr_div_pow2, Z.shiftl_mul_pow2 by lia. change (2 ^ 1) with 2. dlia.
Qed.

Lemma join_words k v : 0 <= k -> Z.lor (v mod 2 ^ k) (Z.shiftl (v / 2 ^ k) k) = v.
Proof.
  intros Hk. apply Z.bits_inj'. intros i Hi. rewrite Z.lor_spec, Z.shiftl_spec by lia. destruct (decide (i < k)) as [H|H].
  - rewrite Z.mod_pow2_bits_low, (Z.testbit_neg_r _ (i - k)) by lia. apply orb_false_r.
  - rewrite Z.mod_pow2_bits_high, Z.div_pow2_bits by lia. cbn. f_equal. lia.
Qed.

(** ** Reading and writing a part of a page *)

Lemma peek_inside (a s b : list Z) k n : (k + n <= length s)%nat -> peek (a ++ s ++ b) (length a + k) n = peek s k n.
Proof.
  intros H. unfold peek. rewrite !decide_True by (rewrite ?length_app; lia).
  rewrite drop_app_add. by rewrite drop_app_le, take_app_le by (rewrite ?length_drop; lia).
Qed.

Lemma poke_inside (a s b bs s' : list Z) k : poke s k bs = Some s' -> poke (a ++ s ++ b) (length a + k) bs = Some (a ++ s' ++ b).
Proof.
  unfold poke. case_decide as H; [|done]. intros [= <-]. rewrite decide_True by (rewrite !length_app; lia).
  f_equal. rewrite take_app_add, <- !app_assoc. f_equal. rewrite take_app_le by lia. do 2 f_equal.
  rewrite <- Nat.add_assoc, drop_app_add, drop_app_le by lia. done.
Qed.

Lemma rd_inside (a s b bs : list Z) k n : peek s k n = Some bs -> rd (length a + k) n (a ++ s ++ b) = Ret (bs, a ++ s ++ b).
Proof.
  intros H. unfold rd. rewrite peek_inside, H; [done|]. unfold peek in H. by case_decide.
Qed.

Lemma wr_inside (a s b bs s' : list Z) k : poke s k bs = Some s' -> wr (length a + k) bs (a ++ s ++ b) = Ret (tt, a ++ s' ++ b).
Proof. intros H. unfold wr. by rewrite (poke_inside _ _ _ _ _ _ H). Qed.

Lemma rd_at (a b c : list Z) off n : length a = off -> length b = n -> rd off n (a ++ b ++ c) = Ret (b, a ++ b ++ c).
Proof. intros Ha Hb. unfold rd. by rewrite (peek_at a b c off n). Qed.

Lemma wr_at (a b b' c : list Z) off : length a = off -> length b = length b' -> wr off b' (a ++ b ++ c) = Ret (tt, a ++ b' ++ c).
Proof. intros Ha Hb. unfold wr. by rewrite (poke_at a b b' c off). Qed.

Lemma rd16_at (a b c : list Z) off : length a = off -> length b = 2%nat -> rd16 off (a ++ b ++ c) = Ret (of16 b, a ++ b ++ c).
Proof. intros Ha Hb. unfold rd16. by rewrite (bind_ret _ _ _ _ _ (rd_at a b c off 2 Ha Hb)). Qed.

Lemma rd16_word (a c : list Z) off v : length a = off -> fits16 v -> rd16 off (a ++ le16 v ++ c) = Ret (v, a ++ le16 v ++ c).
Proof. intros Ha Hv. rewrite rd16_at by done. by rewrite of16_le16. Qed.

Lemma wr16_at (a b c : list Z) off v : length a = off -> length b = 2%nat -> wr16 off v (a ++ b ++ c) = Ret (tt, a ++ le16 v ++ c).
Proof. intros Ha Hb. by apply wr_at. Qed.

(** ** The layout of a page *)

Definition words (vs : list Z) : list Z := concat (le16 <$> vs).

Lemma length_words vs : length (words vs) = (2 * length vs)%nat.
Proof. induction vs as [|v vs IH]; [done|]. unfold words in *. cbn [fmap list_fmap concat]. rewrite length_app, IH. cbn. lia. Qed.

Lemma words_app vs ws : words (vs ++ ws) = words vs ++ words ws.
Proof. unfold words. by rewrite fmap_app, concat_app. Qed.

(** The twelve bytes before mp_lower; the pointers; the free bytes; the nodes. *)
Record layout := Layout { hd : list Z; ptrs : list Z; gap : list Z; heap : list Z }.

Definition lower (l : layout) : Z := 16 + 2 * Z.of_nat (length (ptrs l)).
Definition upper (l : layout) : Z := lower l + Z.of_nat (length (gap l)).
Definition total (l : layout) : Z := upper l + Z.of_nat (length (heap l)).

Definition header_bytes (l : layout) : list Z := hd l ++ le16 (lower l) ++ le16 (upper l).
Definition bytes (l : layout) : page := header_bytes l ++ words (ptrs l) ++ gap l ++ heap l.

Definition pflags (l : layout) : Z := of16 (drop 10 (hd l)).

Definition layout_ok (l : layout) : Prop := length (hd l) = 12%nat /\ Forall fits16 (ptrs l) /\ total l < 65536.

Lemma length_bytes l : length (hd l) = 12%nat -> Z.of_nat (length (bytes l)) = total l.
Proof.
  intros H. unfold bytes, header_bytes, total, upper, lower. rewrite !length_app, length_words, H. cbn [length le16]. lia.
Qed.

Lemma layout_bounds l : layout_ok l -> 16 <= lower l <= upper l /\ upper l <= total l < 65536.
Proof. intros (_ & _ & H). unfold total, upper, lower in *. lia. Qed.

Lemma lower_fits l : layout_ok l -> fits16 (lower l).
Proof. intros H. pose proof (layout_bounds l H). unfold fits. lia. Qed.

Lemma upper_fits l : layout_ok l -> fits16 (upper l).
Proof. intros H. pose proof (layout_bounds l H). unfold fits. lia. Qed.

Section Reading.
Variables (l : layout) (A B : list Z).
Hypothesis Hl : layout_ok l.
Let b := length A.
Let p := A ++ bytes l ++ B.

Lemma rd_lower : rd16 (MP_LOWER b) p = Ret (lower l, p).
Proof.
  destruct Hl as (H12 & _). unfold p, bytes, header_bytes. rewrite <- !app_assoc, (app_assoc A).
  apply rd16_word; [rewrite length_app, H12; done | by apply lower_fits].
Qed.

Lemma rd_upper : rd16 (MP_UPPER b) p = Ret (upper l, p).
Proof.
  destruct Hl as (H12 & _). unfold p, bytes, header_bytes. rewrite <- !app_assoc, (app_assoc A), (app_assoc (A ++ _)).
  apply rd16_word; [rewrite !length_app, H12; cbn; unfold MP_UPPER; lia | by apply upper_fits].
Qed.

Lemma rd_flags : rd16 (MP_FLAGS b) p = Ret (pflags l, p).
Proof.
  destruct Hl as (H12 & _). unfold p, bytes, header_bytes. rewrite <- (take_drop 10 (hd l)) at 1 2.
  rewrite <- !app_assoc, (app_assoc A). rewrite rd16_at; [done | |].
  - rewrite length_app, length_take, H12. unfold MP_FLAGS. lia.
  - rewrite length_drop, H12. done.
Qed.

Lemma rd_is_flag f : is_flag b f p = Ret (F_ISSET (pflags l) f, p).
Proof. unfold is_flag. by rewrite (bind_ret _ _ _ _ _ rd_flags). Qed.

Lemma rd_NUMKEYS : NUMKEYS b p = Ret (Z.of_nat (length (ptrs l)), p).
Proof.
  unfold NUMKEYS. rewrite (bind_ret _ _ _ _ _ rd_lower). unfold mret, ST_ret. do 2 f_equal.
  pose proof (layout_bounds l Hl). unfold PAGEHDRSZ. rewrite wrap_fits by (unfold fits; lia).
  rewrite Z.shiftr_div_pow2 by lia. unfold lower. change (2 ^ 1) with 2. dlia.
Qed.

Lemma rd_SIZELEFT : SIZELEFT b p = Ret (Z.of_nat (length (gap l)), p).
Proof.
  unfold SIZELEFT. rewrite (bind_ret _ _ _ _ _ rd_upper), (bind_ret _ _ _ _ _ rd_lower). unfold mret, ST_ret. do 2 f_equal.
  pose proof (layout_bounds l Hl). unfold upper in *. rewrite u16_fits by (unfold fits; lia). lia.
Qed.

Lemma rd_ptr i o : ptrs l !! i = Some o -> rd16 (MP_PTRS b i) p = Ret (o, p).
Proof.
  intros Hi. destruct Hl as (H12 & F & _). pose proof (Forall_lookup_1 _ _ _ _ F Hi) as Ho.
  assert (E : words (ptrs l) = words (take i (ptrs l)) ++ le16 o ++ words (drop (S i) (ptrs l))).
  { rewrite <- (take_drop_middle _ _ _ Hi) at 1. by rewrite words_app. }
  unfold p, bytes. rewrite E, <- !app_assoc, (app_assoc A), (app_assoc (A ++ _)). apply rd16_word; [|done].
  unfold header_bytes. rewrite !length_app, length_words, length_take, H12. apply lookup_lt_Some in Hi. cbn. unfold MP_PTRS. lia.
Qed.
End Reading.

(** A page of its own. *)
Section Top.
Variable l : layout.
Hypothesis Hl : layout_ok l.

Ltac top H := pose proof H as X; rewrite app_nil_r in X; exact X.

Lemma top_lower : rd16 (MP_LOWER 0) (bytes l) = Ret (lower l, bytes l).
Proof. top (rd_lower l [] [] Hl). Qed.
Lemma top_upper : rd16 (MP_UPPER 0) (bytes l) = Ret (upper l, bytes l).
Proof. top (rd_upper l [] [] Hl). Qed.
Lemma top_flag f : is_flag 0 f (bytes l) = Ret (F_ISSET (pflags l) f, bytes l).
Proof. top (rd_is_flag l [] [] Hl f). Qed.
Lemma top_NUMKEYS : NUMKEYS 0 (bytes l) = Ret (Z.of_nat (length (ptrs l)), bytes l).
Proof. top (rd_NUMKEYS l [] [] Hl). Qed.
Lemma top_SIZELEFT : SIZELEFT 0 (bytes l) = Ret (Z.of_nat (length (gap l)), bytes l).
Proof. top (rd_SIZELEFT l [] [] Hl). Qed.
Lemma top_ptr i o : ptrs l !! i = Some o -> rd16 (MP_PTRS 0 i) (bytes l) = Ret (o, bytes l).
Proof. intros Hi. top (rd_ptr l [] [] Hl i o Hi). Qed.
Lemma top_NODEPTR i o : ptrs l !! i = Some o -> NODEPTR 0 i (bytes l) = Ret (Z.to_nat o, bytes l).
Proof. intros Hi. unfold NODEPTR. by rewrite (bind_ret _ _ _ _ _ (top_ptr i o Hi)). Qed.
End Top.

(** ** Nodes *)

(** [n_num] is the size of the data or the low 32 bits of a page number. *)
Record node := Node { n_num : Z; n_flags : Z; n_key : list Z; n_data : list Z }.

Definition node_head (n : node) : list Z :=
  le16 (n_num n mod 65536) ++ le16 (n_num n / 65536) ++ le16 (n_flags n) ++ le16 (size (n_key n)).
Definition enc (n : node) : list Z := node_head n ++ n_key n ++ n_data n.
Definition raw_size (n : node) : Z := NODESIZE + size (n_key n) + size (n_data n).
Definition node_size (n : node) : Z := EVEN (raw_size n).

Definition node_ok (leaf : bool) (n : node) : Prop :=
  fits 32 (n_num n) /\ fits16 (n_flags n) /\ fits16 (size (n_key n)) /\
  if leaf then size (n_data n) = (if F_ISSET (n_flags n) F_BIGDATA then 8 else n_num n) else n_data n = [].

(** The node at the offset [k] of the heap, with its byte of padding. *)
Definition node_in (h : list Z) (k : nat) (n : node) : Prop :=
  exists A pad B, h = A ++ (enc n ++ pad) ++ B /\ length A = k /\ size (enc n ++ pad) = node_size n.

Lemma size_enc n : size (enc n) = raw_size n.
Proof. unfold enc, node_head, size, raw_size, NODESIZE, size. rewrite !length_app. cbn [length le16]. lia. Qed.

Lemma raw_size_pos n : 8 <= raw_size n.
Proof. unfold raw_size, NODESIZE, size. lia. Qed.

Lemma node_size_bounds n : raw_size n <= node_size n <= raw_size n + 1 /\ Z.Even (node_size n).
Proof.
  pose proof (raw_size_pos n). unfold node_size. rewrite EVEN_spec by lia. split; [dlia|]. by eexists.
Qed.

Section Node_reads.
Variables (P S : list Z) (n : node).
Let a := length P.
Let p := P ++ enc n ++ S.

Ltac field := unfold p, enc, node_head; rewrite <- !app_assoc, ?(app_assoc P);
  repeat first [apply rd16_word; [rewrite ?length_app; cbn [length le16]; unfold mn_lo, mn_hi, mn_flags, mn_ksize; lia|]
               | rewrite (app_assoc (_ ++ _))].

Lemma rd_ksize : fits16 (size (n_key n)) -> rd16 (mn_ksize a) p = Ret (size (n_key n), p).
Proof. intros H. field. done. Qed.

Lemma rd_key : rd (NODEKEY a) (length (n_key n)) p = Ret (n_key n, p).
Proof.
  unfold p, enc. rewrite <- !app_assoc, (app_assoc P). apply rd_at; [|done].
  rewrite length_app. unfold node_head. rewrite !length_app. cbn [length le16]. unfold NODEKEY. lia.
Qed.

Lemma rd_NODEDATA : fits16 (size (n_key n)) -> NODEDATA a p = Ret (a + 8 + length (n_key n), p)%nat.
Proof.
  intros H. unfold NODEDATA. rewrite (bind_ret _ _ _ _ _ (rd_ksize H)). unfold mret, ST_ret, NODEKEY, size. do 2 f_equal. lia.
Qed.

Hypothesis (Hn : exists leaf, node_ok leaf n).

Lemma num_words : fits16 (n_num n mod 65536) /\ fits16 (n_num n / 65536).
Proof. destruct Hn as (leaf & H & _). unfold fits in *. change (2 ^ 32) with 4294967296 in H. change (2 ^ 16) with 65536. dlia. Qed.

Lemma rd_lo : rd16 (mn_lo a) p = Ret (n_num n mod 65536, p).
Proof. unfold p, enc, node_head. rewrite <- !app_assoc. apply rd16_word; [done|apply num_words]. Qed.

Lemma rd_hi : rd16 (mn_hi a) p = Ret (n_num n / 65536, p).
Proof. field. apply num_words. Qed.

Lemma rd_nflags : rd16 (mn_flags a) p = Ret (n_flags n, p).
Proof. destruct Hn as (leaf & _ & H & _). field. done. Qed.

Lemma rd_NODEDSZ : NODEDSZ a p = Ret (n_num n, p).
Proof.
  unfold NODEDSZ. rewrite (bind_ret _ _ _ _ _ rd_lo), (bind_ret _ _ _ _ _ rd_hi). unfold mret, ST_ret. do 2 f_equal.
  apply (join_words 16). lia.
Qed.

End Node_reads.

(** ** The nodes of a page *)

Abbreviation entry := (Z * node)%type.

Definition apart (x y : entry) : Prop := x.1 + node_size x.2 <= y.1 \/ y.1 + node_size y.2 <= x.1.

Definition nodes_size (es : list entry) : Z := foldr (fun e a => node_size e.2 + a) 0 es.

Definition placed (l : layout) (e : entry) : Prop := upper l <= e.1 /\ node_in (heap l) (Z.to_nat (e.1 - upper l)) e.2.

(** The page holds the nodes of [es] at their addresses, apart from each other, and nothing else. *)
Record represents (leaf : bool) (l : layout) (es : list entry) : Prop := Represents {
  rep_ptrs : ptrs l = es.*1;
  rep_ok : Forall (fun e => node_ok leaf e.2) es;
  rep_placed : Forall (placed l) es;
  rep_apart : ForallOrdPairs apart es;
  rep_size : size (heap l) = nodes_size es
}.

Lemma apart_sym x y : apart x y -> apart y x.
Proof. unfold apart. tauto. Qed.

Lemma pairs_middle e1 x e2 : ForallOrdPairs apart (e1 ++ x :: e2) <-> ForallOrdPairs apart (e1 ++ e2) /\ Forall (apart x) (e1 ++ e2).
Proof.
  induction e1 as [|y e1 IH]; cbn [app].
  - split; [intros H; by inversion H | intros [H1 H2]; by constructor].
  - split.
    + intros H. inversion H as [|? ? Hy Hr]; subst. apply IH in Hr as [Hr Hx]. apply Forall_app in Hy as [Hy1 Hy2].
      apply Forall_cons in Hy2 as [Hyx Hy2]. split.
      * constructor; [by apply Forall_app|done].
      * constructor; [by apply apart_sym|done].
    + intros [H Hx]. inversion H as [|? ? Hy Hr]; subst. apply Forall_cons in Hx as [Hxy Hx]. apply Forall_app in Hy as [Hy1 Hy2].
      constructor; [|by apply IH]. apply Forall_app. split; [done|]. constructor; [by apply apart_sym|done].
Qed.

Lemma nodes_size_app e1 e2 : nodes_size (e1 ++ e2) = nodes_size e1 + nodes_size e2.
Proof. unfold nodes_size. induction e1 as [|x e1 IH]; cbn; [done|]. rewrite IH. lia. Qed.

Lemma node_in_shift h k n x : node_in h k n -> node_in (x ++ h) (length x + k) n.
Proof.
  intros (A & pad & B & -> & Hk & Hs). exists (x ++ A), pad, B. rewrite <- (app_assoc x). split_and!; [done| |done].
  rewrite length_app. lia.
Qed.

Lemma nodes_size_cons e es : nodes_size (e :: es) = node_size e.2 + nodes_size es.
Proof. done. Qed.

(** A node on the move of [sz] bytes of what is below [ptr]. *)
Definition moved (ptr sz : Z) (e : entry) : entry := (if decide (e.1 < ptr) then e.1 + sz else e.1, e.2).

Lemma nodes_size_moved o f es : nodes_size (moved o f <$> es) = nodes_size es.
Proof. induction es as [|e es IH]; [done|]. rewrite fmap_cons, !nodes_size_cons, IH. done. Qed.

(** *** A new node *)

(** The free space after the pointer and the bytes [slot] are taken from it. *)
Definition with_slot (l : layout) (i : nat) (sz : nat) (slot : list Z) : layout :=
  Layout (hd l) (take i (ptrs l) ++ (upper l - Z.of_nat sz) :: drop i (ptrs l)) (take (length (gap l) - 2 - sz) (drop 2 (gap l)))
    (slot ++ heap l).

Lemma with_slot_facts l i sz slot : layout_ok l -> (i <= length (ptrs l))%nat -> (sz + 2 <= length (gap l))%nat -> length slot = sz ->
  layout_ok (with_slot l i sz slot) /\ lower (with_slot l i sz slot) = lower l + 2 /\
  upper (with_slot l i sz slot) = upper l - Z.of_nat sz /\ total (with_slot l i sz slot) = total l.
Proof.
  intros (H12 & F & Ht) Hi Hsz Hs.
  assert (Hp : length (ptrs (with_slot l i sz slot)) = S (length (ptrs l)))
    by (cbn; rewrite length_app; cbn [length]; rewrite length_take, length_drop; lia).
  assert (Hg : length (gap (with_slot l i sz slot)) = (length (gap l) - 2 - sz)%nat)
    by (cbn; rewrite length_take, length_drop; lia).
  assert (Hh : length (heap (with_slot l i sz slot)) = (sz + length (heap l))%nat) by (cbn; rewrite length_app; lia).
  unfold layout_ok, total, upper, lower in *. rewrite Hp, Hg, Hh. split_and!; [done| |lia|lia|lia|lia].
  cbn. apply Forall_app. split; [by apply Forall_take|]. constructor; [|by apply Forall_drop]. unfold fits, upper, lower. lia.
Qed.

Lemma with_slot_represents leaf l es i sz n pad : layout_ok l -> represents leaf l es -> (i <= length es)%nat ->
  Z.of_nat sz = node_size n -> length (enc n ++ pad) = sz -> (sz + 2 <= length (gap l))%nat -> node_ok leaf n ->
  represents leaf (with_slot l i sz (enc n ++ pad)) (take i es ++ (upper l - Z.of_nat sz, n) :: drop i es).
Proof.
  intros Hl [Rp Ro Rpl Ra Rs] Hi Hsz Hlen Hg Hn.
  destruct (with_slot_facts l i sz (enc n ++ pad)) as (_ & _ & Hu & _); [done|by rewrite Rp, length_fmap|done|done|].
  assert (Hup : Forall (fun e => upper l <= e.1) es) by (eapply Forall_impl; [exact Rpl|]; by intros e []).
  constructor.
  - cbn [ptrs with_slot]. by rewrite Rp, fmap_app, fmap_cons, fmap_take, fmap_drop.
  - apply Forall_app. split; [by apply Forall_take|]. constructor; [done|by apply Forall_drop].
  - assert (Hold : Forall (placed (with_slot l i sz (enc n ++ pad))) es).
    { eapply Forall_impl; [exact Rpl|]. intros [o m] [Ho Hin]. unfold placed in *. rewrite Hu. cbn [fst snd] in *. split; [lia|].
      replace (Z.to_nat (o - (upper l - Z.of_nat sz))) with (length (enc n ++ pad) + Z.to_nat (o - upper l))%nat by lia.
      by apply node_in_shift. }
    apply Forall_app. split; [by apply Forall_take|]. constructor; [|by apply Forall_drop]. unfold placed. rewrite Hu. cbn [fst snd].
    split; [lia|]. exists [], pad, (heap l). split; [done|]. split; [cbn; lia|]. unfold size. lia.
  - apply pairs_middle. rewrite take_drop. split; [done|]. eapply Forall_impl; [exact Hup|]. intros e He. cbv beta in He. left. cbn [fst snd]. lia.
  - rewrite nodes_size_app. cbn [nodes_size foldr snd]. fold (nodes_size (drop i es)).
    cbn [heap with_slot]. unfold size in *. rewrite length_app. rewrite <- (take_drop i es), nodes_size_app in Rs. lia.
Qed.

(** *** The pointers move up *)

Lemma length_le16 v : length (le16 v) = 2%nat.
Proof. done. Qed.

Lemma ptrs_up_run os : forall indx A x B, length A = (16 + 2 * indx)%nat -> length x = 2%nat -> Forall fits16 os ->
  exists w, length w = 2%nat /\ ptrs_up (length os) indx (A ++ words os ++ x ++ B) = Ret (tt, A ++ w ++ words os ++ B).
Proof.
  induction os as [|o os IH] using rev_ind; intros indx A x B HA Hx F; [by exists x|].
  apply Forall_app in F as [F Fo]. apply Forall_cons in Fo as [Fo _]. rewrite length_app, Nat.add_1_r. cbn [ptrs_up].
  rewrite words_app. change (words [o]) with (le16 o ++ []). rewrite app_nil_r, <- !app_assoc.
  assert (HAw : length (A ++ words os) = (16 + 2 * (indx + length os))%nat) by (rewrite length_app, length_words; lia).
  rewrite (app_assoc A). unfold MP_PTRS.
  rewrite (bind_ret _ _ _ _ _ (rd16_word (A ++ words os) (x ++ B) _ o HAw Fo)).
  rewrite (app_assoc _ (le16 o)).
  erewrite bind_ret.
  2: { apply (wr16_at ((A ++ words os) ++ le16 o) x B); [rewrite length_app, HAw; cbn; lia | done]. }
  rewrite <- !app_assoc. destruct (IH indx A (le16 o) (le16 o ++ B) HA eq_refl F) as (w & Hw & E).
  exists w. split; [done|]. exact E.
Qed.

(** *** The header and the bytes of a node *)

Lemma header_upper l R : layout_ok l -> rd16 (MP_UPPER 0) (header_bytes l ++ R) = Ret (upper l, header_bytes l ++ R).
Proof.
  intros Hl. pose proof Hl as (H12 & _). unfold header_bytes. rewrite <- !app_assoc, (app_assoc (hd l)).
  apply rd16_word; [rewrite length_app, H12; done | by apply upper_fits].
Qed.

Lemma header_lower l R : layout_ok l -> rd16 (MP_LOWER 0) (header_bytes l ++ R) = Ret (lower l, header_bytes l ++ R).
Proof.
  intros Hl. pose proof Hl as (H12 & _). unfold header_bytes. rewrite <- !app_assoc. apply rd16_word; [done | by apply lower_fits].
Qed.

Lemma header_write h lo up lo' up' R : length h = 12%nat ->
  (wr16 (MP_UPPER 0) up';; wr16 (MP_LOWER 0) lo') (h ++ le16 lo ++ le16 up ++ R) = Ret (tt, h ++ le16 lo' ++ le16 up' ++ R).
Proof.
  intros H12. erewrite bind_ret.
  2: { rewrite (app_assoc h). apply (wr16_at (h ++ le16 lo) (le16 up) R); [rewrite length_app, H12; done | done]. }
  rewrite <- app_assoc. by apply wr16_at.
Qed.

(** What write_head writes. *)
Definition head_bytes (leaf : bool) (ks fl dsize pgno : Z) : list Z :=
  if leaf then le16 (Z.land dsize 0xffff) ++ le16 (Z.shiftr dsize 16) ++ le16 fl ++ le16 ks
  else le16 (Z.land pgno 0xffff) ++ le16 (Z.shiftr pgno 16) ++ le16 (Z.shiftr pgno 32) ++ le16 ks.

Lemma wr_slot P (s s' bs S : list Z) k : poke s k bs = Some s' -> wr (length P + k) bs (P ++ s ++ S) = Ret (tt, P ++ s' ++ S).
Proof. apply wr_inside. Qed.

(** Four words, the second of them at [k]. *)
Lemma wr_word P (s t : list Z) (x : list Z) S k v : length s = k -> length x = 2%nat ->
  wr16 (length P + k) v (P ++ (s ++ x ++ t) ++ S) = Ret (tt, P ++ (s ++ le16 v ++ t) ++ S).
Proof. intros Hs Hx. apply wr_slot. by apply poke_at. Qed.

Lemma write_head_run leaf P (s S : list Z) ks fl dsize pgno : length s = 8%nat ->
  write_head leaf (length P) ks fl dsize pgno (P ++ s ++ S) = Ret (tt, P ++ head_bytes leaf ks fl dsize pgno ++ S).
Proof.
  intros H8. destruct s as [|a0 [|a1 [|b0 [|b1 [|c0 [|c1 [|d0 [|d1 [|]]]]]]]]]; try done. clear H8. unfold write_head.
  assert (E0 : forall v, wr16 (length P) v = wr16 (length P + 0) v) by (intros; by rewrite Nat.add_0_r).
  erewrite bind_ret; [|apply (wr_word P [a0; a1; b0; b1; c0; c1] [] [d0; d1] S 6 ks); done].
  erewrite bind_ret; [|apply (wr_word P [a0; a1; b0; b1] (le16 ks) [c0; c1] S 4 fl); done].
  destruct leaf; unfold SETDSZ, SETPGNO, mn_lo; rewrite E0.
  - erewrite bind_ret; [|apply (wr_word P [] ([b0; b1] ++ le16 fl ++ le16 ks) [a0; a1] S 0 (Z.land dsize 0xffff)); done].
    apply (wr_word P (le16 (Z.land dsize 0xffff)) (le16 fl ++ le16 ks) [b0; b1] S 2 (Z.shiftr dsize 16)); done.
  - erewrite bind_ret; [|apply (wr_word P [] ([b0; b1] ++ le16 fl ++ le16 ks) [a0; a1] S 0 (Z.land pgno 0xffff)); done].
    erewrite bind_ret; [|apply (wr_word P (le16 (Z.land pgno 0xffff)) (le16 fl ++ le16 ks) [b0; b1] S 2 (Z.shiftr pgno 16)); done].
    apply (wr_word P (le16 (Z.land pgno 0xffff) ++ le16 (Z.shiftr pgno 16)) (le16 ks) (le16 fl) S 4 (Z.shiftr pgno 32)); done.
Qed.

(** *** mdb_node_add *)

Section Add.
Context {E : Type}.
Abbreviation ncursor := (MdbPage.ncursor (E := E)).
Implicit Types s : ncursor.

Definition set_page (p : page) s : ncursor := Ncursor E p (txn_error s) (overflow s) (penv s).

Lemma on_page_run {A} (m : ST page A) s a p : m (mc_page s) = Ret (a, p) -> on_page m s = Ret (a, set_page p s).
Proof. intros H. unfold on_page, mbind, outcome_bind. by rewrite H. Qed.

Lemma on_page_same {A} (m : ST page A) s a : m (mc_page s) = Ret (a, mc_page s) -> on_page m s = Ret (a, s).
Proof. intros H. rewrite (on_page_run _ _ _ _ H). by destruct s. Qed.

(** The page when the new pointer and the header are written, and the slot is as it was. *)
Lemma place_slot l i sz s : layout_ok l -> (i <= length (ptrs l))%nat -> (sz + 2 <= length (gap l))%nat -> mc_page s = bytes l ->
  let slot := drop (length (gap l) - sz) (gap l) in
  let ofs := upper l - Z.of_nat sz in
  exists p1, on_page (ptrs_up (length (ptrs l) - i) i) s = Ret (tt, set_page p1 s) /\
    rd16 (MP_UPPER 0) p1 = Ret (upper l, p1) /\ rd16 (MP_LOWER 0) p1 = Ret (lower l, p1) /\
    (wr16 (MP_PTRS 0 i) ofs;; wr16 (MP_UPPER 0) ofs;; wr16 (MP_LOWER 0) (lower l + 2)) p1 =
      Ret (tt, bytes (with_slot l i sz slot)).
Proof.
  intros Hl Hi Hsz Hp slot ofs. pose proof Hl as (H12 & F & _).
  assert (Hh : length (header_bytes l) = 16%nat) by (unfold header_bytes; rewrite !length_app, H12; done).
  assert (Hsplit : bytes l = (header_bytes l ++ words (take i (ptrs l))) ++ words (drop i (ptrs l)) ++ take 2 (gap l) ++ drop 2 (gap l) ++ heap l).
  { unfold bytes. rewrite <- (take_drop i (ptrs l)) at 1. rewrite words_app, <- !app_assoc. do 3 f_equal.
    by rewrite !app_assoc, take_drop. }
  assert (Hpre : length (header_bytes l ++ words (take i (ptrs l))) = (16 + 2 * i)%nat) by (rewrite length_app, Hh, length_words, length_take; lia).
  assert (Ho : length (drop i (ptrs l)) = (length (ptrs l) - i)%nat) by (rewrite length_drop; lia).
  destruct (ptrs_up_run (drop i (ptrs l)) i _ (take 2 (gap l)) (drop 2 (gap l) ++ heap l) Hpre) as (w & Hw & Er);
    [rewrite length_take; lia | by apply Forall_drop |].
  rewrite Ho in Er. eexists. split; [apply on_page_run; rewrite Hp, Hsplit; exact Er|].
  rewrite <- !app_assoc. split; [by apply header_upper|]. split; [by apply header_lower|].
  rewrite (app_assoc (header_bytes l)). erewrite bind_ret; [|apply wr16_at; [exact Hpre|exact Hw]].
  rewrite <- app_assoc. unfold header_bytes. rewrite <- !app_assoc. rewrite header_write by done.
  destruct (with_slot_facts l i sz slot Hl Hi Hsz) as (_ & Hlo & Hup & _); [unfold slot; rewrite length_drop; lia|].
  unfold bytes, header_bytes. rewrite Hlo, Hup. cbn [with_slot hd ptrs gap heap]. rewrite <- !app_assoc. do 5 f_equal.
  rewrite words_app. change (words (?o :: ?os)) with (le16 o ++ words os). rewrite <- !app_assoc. do 3 f_equal.
  rewrite (app_assoc _ slot). f_equal. unfold slot.
  rewrite <- (take_drop (length (gap l) - 2 - sz) (drop 2 (gap l))) at 1. rewrite drop_drop. do 2 f_equal. lia.
Qed.

Lemma slot_prefix l i sz (slot : list Z) : layout_ok l -> (i <= length (ptrs l))%nat -> (sz + 2 <= length (gap l))%nat -> length slot = sz ->
  exists P : list Z, length P = Z.to_nat (upper l - Z.of_nat sz) /\ forall t : list Z, bytes (with_slot l i sz t) = P ++ t ++ heap l \/ length t <> sz.
Proof.
  intros Hl Hi Hsz Hs. destruct (with_slot_facts l i sz slot Hl Hi Hsz Hs) as ((H12 & _) & Hlo & Hup & _).
  exists (header_bytes (with_slot l i sz slot) ++ words (ptrs (with_slot l i sz slot)) ++ gap (with_slot l i sz slot)). split.
  - rewrite <- Hup. unfold upper, lower, header_bytes. rewrite !length_app, length_words. cbn [hd with_slot].
    destruct Hl as (-> & _). cbn [length le16]. lia.
  - intros t. destruct (decide (length t = sz)) as [Ht|Ht]; [left|by right]. unfold bytes. rewrite <- !app_assoc. by f_equal.
Qed.

(** update, on a slot of [sz] bytes: the header and the key are written, [rest] is left for the data. *)
Lemma node_place_run leaf l i sz key dsize pgno flags s : layout_ok l -> (i <= length (ptrs l))%nat -> (sz + 2 <= length (gap l))%nat ->
  mc_page s = bytes l -> (8 + Z.to_nat (key_size key) <= sz)%nat ->
  exists rest, let slot := head_bytes leaf (u16 (key_size key)) (u16 flags) dsize pgno ++ default [] key ++ rest in
    length slot = sz /\
    node_place leaf i key dsize pgno flags (Z.of_nat sz) s =
      Ret (Z.to_nat (upper l - Z.of_nat sz), set_page (bytes (with_slot l i sz slot)) s).
Proof.
  intros Hl Hi Hsz Hp Hk. destruct (place_slot l i sz s Hl Hi Hsz Hp) as (p1 & E1 & E2 & E3 & E4).
  set (slot := drop (length (gap l) - sz) (gap l)) in *.
  assert (Hs : length slot = sz) by (unfold slot; rewrite length_drop; lia).
  assert (Hks : length (default [] key) = Z.to_nat (key_size key)) by (destruct key; cbn; unfold size; lia).
  destruct (with_slot_facts l i sz slot Hl Hi Hsz Hs) as (Hl2 & Hlo2 & Hup2 & _).
  pose proof (layout_bounds l Hl) as Hb. pose proof (layout_bounds _ Hl2) as Hb2.
  destruct (slot_prefix l i sz slot Hl Hi Hsz Hs) as (P & HP & HPt).
  exists (drop (8 + length (default [] key)) slot). cbv zeta.
  set (hb := head_bytes leaf (u16 (key_size key)) (u16 flags) dsize pgno).
  assert (Hhb : length hb = 8%nat) by (unfold hb, head_bytes; by destruct leaf).
  assert (Hlen : forall x y : list Z, length x = 8%nat -> length y = length (default [] key) ->
    length (x ++ y ++ drop (8 + length (default [] key)) slot) = sz) by (intros x y Hx Hy; rewrite !length_app, length_drop; lia).
  split; [by apply Hlen|]. unfold node_place.
  erewrite bind_ret; [|apply on_page_same; rewrite Hp; by apply top_NUMKEYS]. rewrite Nat2Z.id.
  rewrite (bind_ret _ _ _ _ _ E1). erewrite bind_ret; [|apply on_page_same; exact E2]. erewrite bind_ret; [|apply on_page_same; exact E3].
  rewrite (u16_fits (upper l - Z.of_nat sz)) by (unfold fits; lia). unfold cassert at 1. rewrite bool_decide_true by lia.
  erewrite bind_ret; [|reflexivity]. rewrite (u16_fits (lower l + 2)) by (unfold fits; lia).
  erewrite bind_ret; [|apply on_page_run; exact E4].
  assert (Hpi : ptrs (with_slot l i sz slot) !! i = Some (upper l - Z.of_nat sz)).
  { cbn [ptrs with_slot]. rewrite list_lookup_middle; [done|]. rewrite length_take. lia. }
  erewrite bind_ret; [|apply on_page_same; by apply top_NODEPTR]. rewrite <- HP.
  assert (Hslot : slot = take 8 slot ++ take (length (default [] key)) (drop 8 slot) ++ drop (8 + length (default [] key)) slot)
    by (rewrite <- drop_drop, !take_drop; done).
  destruct (HPt slot) as [Eb|]; [|done]. rewrite Hslot in Eb at 2.
  erewrite bind_ret; [|apply on_page_run; cbn [mc_page set_page]; rewrite Eb, <- app_assoc; apply write_head_run; rewrite length_take; lia].
  fold hb. destruct (HPt (hb ++ default [] key ++ drop (8 + length (default [] key)) slot)) as [Ef|[]]; [|by apply Hlen].
  rewrite Ef, <- !app_assoc. destruct key as [k|]; cbn [default id] in *.
  - erewrite bind_ret; [|apply on_page_run; cbn [mc_page set_page]; rewrite (app_assoc P);
      apply wr_at; [rewrite length_app, Hhb; done | rewrite length_take, length_drop; lia]].
    rewrite <- !app_assoc. done.
  - erewrite bind_ret; [|by apply on_page_same]. done.
Qed.

(** The header that is written is the one of a node. *)
Lemma head_leaf k num fl pg d : 0 <= num -> fits16 (size k) ->
  head_bytes true (u16 (size k)) (u16 fl) num pg = node_head (Node num (u16 fl) k d).
Proof.
  intros Hn Hk. unfold head_bytes, node_head. cbn [n_num n_flags n_key]. change 0xffff with (Z.ones 16).
  rewrite Z.land_ones, Z.shiftr_div_pow2, (u16_fits (size k)) by (done || lia). done.
Qed.

Lemma head_branch k pgno fl : 0 <= pgno < 2 ^ 48 -> fits16 (size k) ->
  head_bytes false (u16 (size k)) fl 0 pgno = node_head (Node (pgno mod 2 ^ 32) (pgno / 2 ^ 32) k []).
Proof.
  intros Hn Hk. unfold head_bytes, node_head. cbn [n_num n_flags n_key]. change 0xffff with (Z.ones 16).
  rewrite Z.land_ones, !Z.shiftr_div_pow2, (u16_fits (size k)) by (done || lia).
  assert (H : forall v, le16 (v mod 65536) = le16 v) by (intros v; unfold le16; f_equal; [dlia|f_equal; dlia]).
  change (2 ^ 32) with 4294967296. change (2 ^ 16) with 65536.
  assert (E1 : pgno mod 65536 = (pgno mod 4294967296) mod 65536) by dlia.
  assert (E2 : (pgno / 65536) mod 65536 = ((pgno mod 4294967296) / 65536) mod 65536) by dlia.
  by rewrite E1, <- (H (pgno / 65536)), E2, (H (_ / 65536)).
Qed.

(** The bytes of the value. *)
Definition val_bytes (v : MDB_val) : list Z := take (Z.to_nat (mv_size v)) (mv_data v).
Definition val_ok (v : MDB_val) : Prop := 0 <= mv_size v < 2 ^ 32 /\ mv_size v <= size (mv_data v).

Lemma peek_val v s : val_ok v -> on_page (plift (of_option (peek (mv_data v) 0 (Z.to_nat (mv_size v))))) s = Ret (val_bytes v, s).
Proof.
  intros [H1 H2]. apply on_page_same. unfold plift, peek. unfold size in H2. rewrite decide_True by lia. done.
Qed.

(** The data is written over [rest]. *)
Lemma data_write P n d pad S s : fits16 (size (n_key n)) -> mc_page s = P ++ enc n ++ S -> n_data n = d ++ pad ->
  forall d', length d' = length d ->
  (ndata ← on_page (NODEDATA (length P)); on_page (wr ndata d')) s =
    Ret (tt, set_page (P ++ enc (Node (n_num n) (n_flags n) (n_key n) (d' ++ pad)) ++ S) s).
Proof.
  intros Hk Hp Hd d' Hl. erewrite bind_ret; [|apply on_page_same; rewrite Hp; by apply rd_NODEDATA]. apply on_page_run. rewrite Hp.
  unfold enc. cbn [n_num n_flags n_key n_data]. rewrite Hd, <- !app_assoc.
  change (node_head (Node (n_num n) (n_flags n) (n_key n) (d' ++ pad))) with (node_head n).
  rewrite (app_assoc P), (app_assoc (P ++ _)). rewrite wr_at; [by rewrite <- !app_assoc | | done].
  rewrite !length_app. unfold node_head. rewrite !length_app. cbn [length le16]. lia.
Qed.

(** The page [l'] is [l] with the node [n] put at the pointer [i]. *)
Definition added (leaf : bool) (l : layout) (es : list entry) (i : nat) (n : node) (l' : layout) : Prop :=
  layout_ok l' /\ hd l' = hd l /\ total l' = total l /\
  Z.of_nat (length (gap l')) = Z.of_nat (length (gap l)) - 2 - node_size n /\
  represents leaf l' (take i es ++ (upper l - node_size n, n) :: drop i es).

Lemma with_slot_added leaf l es i sz n pad : layout_ok l -> represents leaf l es -> (i <= length es)%nat ->
  Z.of_nat sz = node_size n -> length (enc n ++ pad) = sz -> (sz + 2 <= length (gap l))%nat -> node_ok leaf n ->
  added leaf l es i n (with_slot l i sz (enc n ++ pad)).
Proof.
  intros Hl R Hi Hsz Hlen Hg Hn.
  destruct (with_slot_facts l i sz (enc n ++ pad)) as (Hl2 & _ & _ & Ht); [done| |done|done|].
  { rewrite (rep_ptrs _ _ _ R), length_fmap. done. }
  split; [done|]. split; [done|]. split; [done|]. split; [cbn; rewrite length_take, length_drop; lia|].
  rewrite <- Hsz. by apply with_slot_represents.
Qed.

(** How many bytes the data takes on a leaf page. *)
Definition on_leaf (ofp : option Z) (d : MDB_val) (flags : Z) : Z :=
  if ofp then 8 else if F_ISSET flags F_BIGDATA then 8 else mv_size d.

(** What they are; MDB_RESERVE leaves them to the caller. *)
Definition leaf_data (ofp : option Z) (d : MDB_val) (flags : Z) (bs : list Z) : Prop :=
  match ofp with
  | Some pg => bs = le_bytes 8 pg
  | None =>
      if F_ISSET flags F_BIGDATA then bs = take 8 (mv_data d)
      else if F_ISSET flags MDB_RESERVE then size bs = mv_size d
      else bs = val_bytes d
  end.

Definition to_overflow (ofp : option Z) (d : MDB_val) (flags : Z) : list (Z * option (list Z)) :=
  match ofp with Some pg => [(pg, if F_ISSET flags MDB_RESERVE then None else Some (val_bytes d))] | None => [] end.

Lemma bigdata_u16 flags : F_ISSET (u16 flags) F_BIGDATA = F_ISSET flags F_BIGDATA.
Proof.
  unfold F_ISSET, u16, wrap, F_BIGDATA. rewrite <- Z.land_ones, <- Z.land_assoc by lia. done.
Qed.

Lemma length_le_bytes w v : length (le_bytes w v) = w.
Proof. revert v. induction w as [|w IH]; intros v; [done|]. cbn. by rewrite IH. Qed.

(** A slot whose header and key are those of [n0] takes data of the right size. *)
Lemma slot_filled l es i sz num fl k rest : layout_ok l -> represents true l es -> (i <= length es)%nat ->
  (sz + 2 <= length (gap l))%nat -> fits 32 num -> fits16 fl -> fits16 (size k) ->
  let n0 := Node num fl k rest in length (enc n0) = sz ->
  exists P, length P = Z.to_nat (upper l - Z.of_nat sz) /\ bytes (with_slot l i sz (enc n0)) = P ++ enc n0 ++ heap l /\
    forall dd, (length dd <= length rest)%nat -> let n := Node num fl k dd in
      size dd = (if F_ISSET fl F_BIGDATA then 8 else num) -> Z.of_nat sz = node_size n ->
      let l' := with_slot l i sz (enc n ++ drop (length dd) rest) in
      added true l es i n l' /\ P ++ enc (Node num fl k (dd ++ drop (length dd) rest)) ++ heap l = bytes l'.
Proof.
  intros Hl R Hi Hg Hnum Hfl Hk n0 Hlen.
  destruct (slot_prefix l i sz (enc n0)) as (P & HP & Hb); [done|rewrite (rep_ptrs _ _ _ R), length_fmap; done|done|done|].
  exists P. split; [done|]. split; [by destruct (Hb (enc n0))|]. intros dd Hdd n Hsd Hsz l'.
  assert (He : enc n ++ drop (length dd) rest = enc (Node num fl k (dd ++ drop (length dd) rest)))
    by (unfold enc; rewrite <- !app_assoc; done).
  assert (Hl2 : length (enc n ++ drop (length dd) rest) = sz).
  { rewrite <- Hlen, He. unfold enc, n0. rewrite !length_app. cbn [n_key n_data]. rewrite length_app, length_drop.
    change (node_head (Node num fl k rest)) with (node_head (Node num fl k (dd ++ drop (length dd) rest))). lia. }
  split; [by apply with_slot_added|]. rewrite <- He. unfold l'. by destruct (Hb (enc n ++ drop (length dd) rest)).
Qed.

Lemma peek_take n (l : list Z) : (n <= length l)%nat -> peek l 0 n = Some (take n l).
Proof. intros H. unfold peek. by rewrite decide_True by lia. Qed.

Lemma node_data_run ofp d flags num fl k rest P S : val_ok d -> fits16 (size k) -> on_leaf ofp d flags <= size rest ->
  (F_ISSET flags F_BIGDATA = true -> ofp = None -> (8 <= length (mv_data d))%nat) ->
  exists dd, leaf_data ofp d flags dd /\ size dd = on_leaf ofp d flags /\
    forall s, mc_page s = P ++ enc (Node num fl k rest) ++ S ->
      node_data ofp d flags (length P) s =
      Ret (tt, Ncursor E (P ++ enc (Node num fl k (dd ++ drop (length dd) rest)) ++ S)
        (txn_error s) (overflow s ++ to_overflow ofp d flags) (penv s)).
Proof.
  intros Hd Hk Hr Hbig.
  assert (W : forall dd, size dd = on_leaf ofp d flags -> forall s, mc_page s = P ++ enc (Node num fl k rest) ++ S ->
    (ndata ← on_page (NODEDATA (length P)); on_page (wr ndata dd)) s =
    Ret (tt, set_page (P ++ enc (Node num fl k (dd ++ drop (length dd) rest)) ++ S) s)).
  { intros dd Hdd s Hp. apply (data_write P (Node num fl k rest) (take (length dd) rest) (drop (length dd) rest) S s Hk Hp).
    - cbn. by rewrite take_drop.
    - rewrite length_take. unfold size in *. lia. }
  assert (N : forall s, mc_page s = P ++ enc (Node num fl k rest) ++ S ->
    on_page (NODEDATA (length P)) s = Ret (length P + 8 + length k, s)%nat)
    by (intros s Hp; apply on_page_same; rewrite Hp; by apply rd_NODEDATA).
  unfold node_data, on_leaf in *. destruct ofp as [pg|].
  - exists (le_bytes 8 pg). split; [done|]. split; [done|]. intros s Hp. specialize (W (le_bytes 8 pg) eq_refl s Hp).
    rewrite (bind_ret _ _ _ _ _ (N s Hp)) in W. rewrite (bind_ret _ _ _ _ _ (N s Hp)). rewrite (bind_ret _ _ _ _ _ W). unfold to_overflow.
    destruct (F_ISSET flags MDB_RESERVE); [done|]. by rewrite (bind_ret _ _ _ _ _ (peek_val d _ Hd)).
  - unfold leaf_data, to_overflow. destruct (F_ISSET flags F_BIGDATA).
    + specialize (Hbig eq_refl eq_refl). exists (take 8 (mv_data d)).
      assert (H8 : size (take 8 (mv_data d)) = 8) by (unfold size; rewrite length_take; lia).
      split; [done|]. split; [done|]. intros s Hp. specialize (W _ H8 s Hp). rewrite (bind_ret _ _ _ _ _ (N s Hp)) in W. rewrite (bind_ret _ _ _ _ _ (N s Hp)).
      erewrite bind_ret; [|apply on_page_same; unfold plift; by rewrite peek_take by lia]. rewrite W, app_nil_r. done.
    + destruct (F_ISSET flags MDB_RESERVE).
      * exists (take (Z.to_nat (mv_size d)) rest). destruct Hd as [Hd _].
        assert (Hs : size (take (Z.to_nat (mv_size d)) rest) = mv_size d) by (unfold size in *; rewrite length_take; lia).
        split; [done|]. split; [done|]. intros s Hp. rewrite (bind_ret _ _ _ _ _ (N s Hp)), app_nil_r.
        replace (length (take (Z.to_nat (mv_size d)) rest)) with (Z.to_nat (mv_size d)) by (unfold size in *; rewrite length_take; lia).
        rewrite take_drop, <- Hp. by destruct s.
      * assert (Hs : size (val_bytes d) = mv_size d) by (destruct Hd; unfold val_bytes, size in *; rewrite length_take; lia).
        exists (val_bytes d). split; [done|]. split; [done|]. intros s Hp. specialize (W _ Hs s Hp).
        rewrite (bind_ret _ _ _ _ _ (N s Hp)) in W. rewrite (bind_ret _ _ _ _ _ (N s Hp)). rewrite (bind_ret _ _ _ _ _ (peek_val d s Hd)), W, app_nil_r. done.
Qed.

Lemma leaf_put_run l es i k d pgno flags ofp s : layout_ok l -> represents true l es -> (i <= length es)%nat ->
  mc_page s = bytes l -> val_ok d -> fits16 (size k) -> (is_Some ofp -> F_ISSET flags F_BIGDATA = true) ->
  (F_ISSET flags F_BIGDATA = true -> ofp = None -> (8 <= length (mv_data d))%nat) ->
  let nsz := EVEN (NODESIZE + size k + on_leaf ofp d flags) in
  nsz <= Z.of_nat (length (gap l)) - 2 ->
  exists bs l', let n := Node (mv_size d) (u16 flags) k bs in
    leaf_data ofp d flags bs /\ added true l es i n l' /\ node_size n = nsz /\
    (node ← node_place true i (Some k) (mv_size d) pgno flags nsz; node_data ofp d flags node;; mret 0) s =
      Ret (0, Ncursor E (bytes l') (txn_error s) (overflow s ++ to_overflow ofp d flags) (penv s)).
Proof.
  intros Hl R Hi Hp Hd Hk Hofp Hbig nsz Hroom.
  assert (Hol : 0 <= on_leaf ofp d flags) by (unfold on_leaf; destruct ofp, (F_ISSET _ _); destruct Hd; lia).
  assert (Hnsz : 8 + size k + on_leaf ofp d flags <= nsz) by
    (unfold nsz, NODESIZE; rewrite EVEN_spec by (unfold size; lia); dlia).
  set (sz := Z.to_nat nsz). assert (Hsz : Z.of_nat sz = nsz) by (unfold sz, size in *; lia).
  destruct (node_place_run true l i sz (Some k) (mv_size d) pgno flags s) as (rest & Hslot & E1);
    [done | rewrite (rep_ptrs _ _ _ R), length_fmap; done | lia | done | cbn; unfold size in *; lia |].
  cbv zeta in Hslot, E1. rewrite Hsz in E1. cbn [default id key_size] in *.
  rewrite (head_leaf k (mv_size d) flags pgno rest) in Hslot, E1 by (destruct Hd; done || lia).
  assert (Hsf : size rest = nsz - 8 - size k) by
    (unfold size; rewrite <- Hsz, <- Hslot; unfold node_head; rewrite !length_app; cbn [length le16]; lia).
  destruct (slot_filled l es i sz (mv_size d) (u16 flags) k rest) as (P & HP & Hb & Hfill);
    [done | done | done | lia | apply Hd | apply fits_wrap; lia | done | exact Hslot |].
  rewrite bigdata_u16 in Hfill. rewrite Hsz in HP.
  destruct (node_data_run ofp d flags (mv_size d) (u16 flags) k rest P (heap l)) as (dd & Hdd & Hsd & Hrun); [done|done|lia|done|].
  assert (Hns : node_size (Node (mv_size d) (u16 flags) k dd) = nsz) by (unfold node_size, raw_size; cbn [n_key n_data]; by rewrite Hsd).
  destruct (Hfill dd) as [Hadd Hbytes]; [unfold size in *; lia | | by rewrite Hns, Hsz |].
  { rewrite Hsd. unfold on_leaf. destruct ofp; [|done]. by rewrite (Hofp ltac:(by eexists)). }
  eexists dd, _. split; [done|]. split; [exact Hadd|]. split; [done|].
  rewrite (bind_ret _ _ _ _ _ E1), <- HP. erewrite bind_ret; [|apply Hrun; cbn [set_page mc_page]; exact Hb].
  by rewrite Hbytes.
Qed.

(** A branch page. *)
Lemma branch_put_run l es i key pgno flags s : layout_ok l -> represents false l es -> (i <= length es)%nat ->
  mc_page s = bytes l -> fits16 (key_size key) -> 0 <= pgno < 2 ^ 48 ->
  let n := Node (pgno mod 2 ^ 32) (pgno / 2 ^ 32) (default [] key) [] in
  node_size n <= Z.of_nat (length (gap l)) - 2 ->
  exists l', added false l es i n l' /\
    (node_place false i key 0 pgno flags (EVEN (NODESIZE + key_size key));; mret 0) s = Ret (0, set_page (bytes l') s).
Proof.
  intros Hl R Hi Hp Hk Hpg n Hroom. assert (Hks : key_size key = size (default [] key)) by by destruct key.
  assert (Hns : node_size n = EVEN (NODESIZE + key_size key)) by (unfold node_size, raw_size; f_equal; rewrite Hks; change (size (n_data n)) with 0; change (n_key n) with (default [] key); lia).
  assert (Hb : 8 + size (default [] key) <= node_size n).
  { pose proof (node_size_bounds n) as [H _]. unfold raw_size, NODESIZE in H. change (n_key n) with (default [] key) in H.
    unfold size in *. lia. }
  set (sz := Z.to_nat (node_size n)). assert (Hsz : Z.of_nat sz = node_size n) by (unfold sz, size in *; lia).
  destruct (node_place_run false l i sz key 0 pgno flags s) as (rest & Hslot & E1);
    [done | rewrite (rep_ptrs _ _ _ R), length_fmap; done | lia | done | rewrite Hks; unfold size in *; lia |].
  cbv zeta in Hslot, E1. rewrite Hks, head_branch in Hslot, E1 by (by rewrite <- ?Hks). rewrite <- Hns.
  rewrite Hsz in E1. exists (with_slot l i sz (enc n ++ rest)). split.
  - apply with_slot_added; try done; [|lia|].
    + rewrite <- Hslot. unfold enc. cbn [n_key n_data n]. rewrite app_nil_r, <- app_assoc. done.
    + split; [|split; [|split; [|done]]]; unfold n; cbn [n_num n_flags n_key]; [..|by rewrite <- Hks]; unfold fits.
      * apply Z.mod_pos_bound. lia.
      * change (2 ^ 32) with 4294967296. change (2 ^ 16) with 65536. dlia.
  - rewrite (bind_ret _ _ _ _ _ E1). unfold enc. cbn [n_key n_data n]. by rewrite app_nil_r, <- app_assoc.
Qed.
End Add.

Definition failed {E} (s : MdbPage.ncursor (E := E)) : MdbPage.ncursor (E := E) :=
  Ncursor E (mc_page s) true (overflow s) (penv s).

(** The data goes to an overflow page of its own. *)
Definition too_big (nodemax flags : Z) (k : list Z) (d : MDB_val) : bool :=
  negb (F_ISSET flags F_BIGDATA) && bool_decide (NODESIZE + size k + mv_size d > nodemax).

Lemma bigdata_set flags : F_ISSET (Z.lor flags F_BIGDATA) F_BIGDATA = true.
Proof.
  unfold F_ISSET, F_BIGDATA. apply bool_decide_eq_true. change 1 with (Z.ones 1). apply Z.bits_inj'. intros b Hb.
  rewrite Z.land_spec, Z.lor_spec. by destruct (Z.testbit flags b), (Z.testbit (Z.ones 1) b).
Qed.

(** mdb_node_add on a page that is not of fixed-size keys.  When the node does not fit it fails with
    MDB_PAGE_FULL, changes no byte and marks the transaction.  Otherwise the page holds the new node at the
    given position among the others, which keep their order, keys and data, its size is taken from the gap, and
    nothing outside is written: with its data (or room for it, with MDB_RESERVE), with the number of the overflow
    page the data was written to when it is too big, or with the number of the child page.  A failing allocation of
    that page changes nothing. *)
Theorem mdb_node_add_spec {E} (page_new : Z -> ST E (Z + Z)) psize nodemax md_pad l es i key data pgno flags
    (s : MdbPage.ncursor (E := E)) :
  let leaf := F_ISSET (pflags l) P_LEAF in
  let room := Z.of_nat (length (gap l)) - 2 in
  let run := mdb_node_add page_new psize nodemax md_pad i key data pgno flags s in
  layout_ok l -> represents leaf l es -> (i <= length es)%nat -> mc_page s = bytes l ->
  F_ISSET (pflags l) P_LEAF2 = false -> fits16 (key_size key) ->
  (leaf = true -> forall k d, key = Some k -> data = Some d -> val_ok d ->
     (F_ISSET flags F_BIGDATA = true -> (8 <= length (mv_data d))%nat) ->
     let big := too_big nodemax flags k d in
     let nsz := EVEN (NODESIZE + size k + if F_ISSET flags F_BIGDATA || big then 8 else mv_size d) in
     (room < nsz -> run = Ret (MDB_PAGE_FULL, failed s)) /\
     (nsz <= room -> big = false -> exists bs l', leaf_data None d flags bs /\
        added true l es i (Node (mv_size d) (u16 flags) k bs) l' /\ run = Ret (0, set_page (bytes l') s)) /\
     (nsz <= room -> big = true -> forall r e, page_new (OVPAGES (mv_size d) psize) (penv s) = Ret (r, e) ->
        match r with
        | inl rc => run = Ret (rc, Ncursor E (mc_page s) (txn_error s) (overflow s) e)
        | inr pg => exists l',
            added true l es i (Node (mv_size d) (u16 (Z.lor flags F_BIGDATA)) k (le_bytes 8 pg)) l' /\
            run = Ret (0, Ncursor E (bytes l') (txn_error s)
              (overflow s ++ to_overflow (Some pg) d (Z.lor flags F_BIGDATA)) e)
        end)) /\
  (leaf = false -> 0 <= pgno < 2 ^ 48 ->
     let n := Node (pgno mod 2 ^ 32) (pgno / 2 ^ 32) (default [] key) [] in
     (room < node_size n -> run = Ret (MDB_PAGE_FULL, failed s)) /\
     (node_size n <= room -> exists l', added false l es i n l' /\ run = Ret (0, set_page (bytes l') s))).
Proof.
  intros leaf room run Hl R Hi Hp Hl2 Hk. pose proof (layout_bounds l Hl) as Hb.
  assert (Hrun : run = node_insert page_new psize nodemax leaf room i key data pgno flags s).
  { unfold run, mdb_node_add.
    erewrite bind_ret; [|apply on_page_same; rewrite Hp; by apply top_upper].
    erewrite bind_ret; [|apply on_page_same; rewrite Hp; by apply top_lower].
    unfold cassert at 1. rewrite bool_decide_true by lia. erewrite bind_ret; [|reflexivity].
    erewrite bind_ret; [|apply on_page_same; rewrite Hp; by apply top_flag]. rewrite Hl2.
    erewrite bind_ret; [|apply on_page_same; rewrite Hp; by apply top_SIZELEFT].
    by erewrite bind_ret; [|apply on_page_same; rewrite Hp; by apply top_flag]. }
  rewrite Hrun. clear Hrun run. fold leaf in R. unfold node_insert. split; intros Hleaf; rewrite Hleaf in R |- *.
  - intros k d -> -> Hd Hbig. cbv zeta. cbn [key_size] in *. unfold too_big.
    pose proof (leaf_put_run (E := E) l es i k d pgno) as Put. cbv zeta in Put. unfold on_leaf in Put.
    destruct (F_ISSET flags F_BIGDATA) eqn:Fb; cbn [negb andb orb] in *.
    + split; [intros H; by rewrite decide_True by lia|]. split; [|by intros].
      intros H _. rewrite decide_False by lia.
      destruct (Put flags None s) as (bs & l' & H1 & H2 & _ & H3); rewrite ?Fb; try done; try (by intros []); try lia.
      exists bs, l'. split; [done|]. split; [done|]. rewrite Fb in H3. rewrite H3. cbn [to_overflow]. by rewrite app_nil_r.
    + destruct (decide (NODESIZE + size k + mv_size d > nodemax)) as [Hm|Hm].
      * rewrite bool_decide_true by done. split; [intros H; by rewrite decide_True by lia|]. split; [done|].
        intros H _ r e Hr. rewrite decide_False by lia. unfold new_page, mbind, ST_bind, outcome_bind. rewrite Hr.
        destruct r as [rc|pg]; [done|].
        destruct (Put (Z.lor flags F_BIGDATA) (Some pg) (Ncursor E (mc_page s) (txn_error s) (overflow s) e)) as (bs & l' & H1 & H2 & _ & H3);
          rewrite ?bigdata_set; try done; try lia.
        exists l'. cbn in H1. subst bs. split; [done|]. exact H3.
      * rewrite bool_decide_false by done. split; [intros H; by rewrite decide_True by lia|]. split; [|done].
        intros H _. rewrite decide_False by lia.
        destruct (Put flags None s) as (bs & l' & H1 & H2 & _ & H3); rewrite ?Fb; try done; try (by intros []); try lia.
        exists bs, l'. split; [done|]. split; [done|]. rewrite Fb in H3. rewrite H3. cbn [to_overflow]. by rewrite app_nil_r.
  - intros Hpg. cbv zeta. set (n := Node (pgno mod 2 ^ 32) (pgno / 2 ^ 32) (default [] key) []). assert (Hns : node_size n = EVEN (NODESIZE + key_size key)).
    { unfold node_size, raw_size. f_equal. change (size (n_data n)) with 0. change (n_key n) with (default [] key). destruct key; cbn; unfold size; cbn; lia. }
    rewrite <- Hns. split; intros H; [by rewrite decide_True by lia|]. rewrite decide_False by lia. rewrite Hns.
    apply (branch_put_run l es i key pgno flags s); done || lia.
Qed.

(** *** A node is taken out *)

(** The bytes of a node that is on the page. *)
Lemma placed_split l o n : layout_ok l -> placed l (o, n) ->
  exists P pad S A B, bytes l = P ++ enc n ++ pad ++ S /\ length P = Z.to_nat o /\ heap l = A ++ (enc n ++ pad) ++ B /\
    length A = Z.to_nat (o - upper l) /\ size (enc n ++ pad) = node_size n /\ o + node_size n <= total l.
Proof.
  intros Hl [Ho (A & pad & B & Hh & HA & Hs)]. cbn [fst snd] in *. pose proof (layout_bounds l Hl) as Hb.
  exists (header_bytes l ++ words (ptrs l) ++ gap l ++ A), pad, B, A, B. split_and!; try done.
  - unfold bytes. rewrite Hh, <- !app_assoc. done.
  - destruct Hl as (H12 & _). unfold header_bytes, upper, lower in *. rewrite !length_app, length_words, H12, HA. cbn [length le16]. lia.
  - unfold total, size in *. rewrite Hh, !length_app in *. lia.
Qed.

Definition shift (ptr sz o : Z) : Z := if decide (o < ptr) then u16 (o + sz) else o.

Lemma ptr_words_cons v vs : words (v :: vs) = le16 v ++ words vs.
Proof. done. Qed.

Section Down.
Variables (A : list Z) (idx : nat) (ptr sz : Z).
Hypothesis HA : length A = 16%nat.

Lemma rd_word_after X k o Y : length X = (2 * k)%nat -> fits16 o ->
  rd16 (MP_PTRS 0 k) (A ++ X ++ le16 o ++ Y) = Ret (o, A ++ X ++ le16 o ++ Y).
Proof. intros HX Ho. rewrite app_assoc. apply rd16_word; [|done]. rewrite length_app, HA, HX. unfold MP_PTRS. lia. Qed.

Lemma wr_word_after X k w v Y : length X = (2 * k)%nat -> length w = 2%nat ->
  wr16 (MP_PTRS 0 k) v (A ++ X ++ w ++ Y) = Ret (tt, A ++ X ++ le16 v ++ Y).
Proof.
  intros HX Hw. rewrite !(app_assoc A). apply wr16_at; [|done]. rewrite length_app, HA, HX. unfold MP_PTRS. lia.
Qed.

(** Behind the deleted pointer each one moves down by one place. *)
Lemma down_after rest : Forall fits16 rest -> forall done w B, length w = 2%nat -> (idx <= length done)%nat ->
  exists w', length w' = 2%nat /\
    ptrs_down (length rest) (S (length done)) (length done) idx ptr sz (A ++ words done ++ w ++ words rest ++ B) =
      Ret (tt, A ++ words (done ++ (shift ptr sz <$> rest)) ++ w' ++ B).
Proof.
  induction 1 as [|o rest Ho _ IH]; intros done w B Hw Hi; [exists w; by rewrite app_nil_r|].
  cbn [length ptrs_down fmap list_fmap]. rewrite decide_False by lia. rewrite ptr_words_cons, <- !app_assoc.
  assert (Hd : length (words done) = (2 * length done)%nat) by apply length_words.
  assert (Hd2 : forall w2, length w2 = 2%nat -> length (words done ++ w2) = (2 * S (length done))%nat)
    by (intros w2 H2; rewrite length_app, Hd, H2; lia).
  assert (R : forall w2, length w2 = 2%nat -> rd16 (MP_PTRS 0 (S (length done))) (A ++ words done ++ w2 ++ le16 o ++ words rest ++ B) =
    Ret (o, A ++ words done ++ w2 ++ le16 o ++ words rest ++ B)).
  { intros w2 H2. rewrite (app_assoc (words done)). apply rd_word_after; [by apply Hd2|done]. }
  rewrite (bind_ret _ _ _ _ _ (R w Hw)), (bind_ret _ _ _ _ _ (wr_word_after _ _ w o _ Hd Hw)), (bind_ret _ _ _ _ _ (R (le16 o) eq_refl)).
  assert (Hstep : (if decide (o < ptr) then o' ← rd16 (MP_PTRS 0 (length done)); wr16 (MP_PTRS 0 (length done)) (u16 (o' + sz)) else mret tt)
    (A ++ words done ++ le16 o ++ le16 o ++ words rest ++ B) = Ret (tt, A ++ words done ++ le16 (shift ptr sz o) ++ le16 o ++ words rest ++ B)).
  { unfold shift. case_decide; [|done]. rewrite (bind_ret _ _ _ _ _ (rd_word_after _ _ o _ Hd Ho)). by apply wr_word_after. }
  rewrite (bind_ret _ _ _ _ _ Hstep). destruct (IH (done ++ [shift ptr sz o]) (le16 o) B eq_refl) as (w' & Hw' & E1);
    [rewrite length_app; lia|]. exists w'. split; [done|]. rewrite length_app, Nat.add_1_r, <- app_assoc in E1. cbn [app] in E1.
  rewrite <- E1, words_app, ptr_words_cons, <- !app_assoc. done.
Qed.

Lemma down_run pre : Forall fits16 pre -> forall done x post B, idx = (length done + length pre)%nat -> Forall fits16 post -> fits16 x ->
  exists w', length w' = 2%nat /\
    ptrs_down (length (pre ++ x :: post)) (length done) (length done) idx ptr sz (A ++ words done ++ words (pre ++ x :: post) ++ B) =
      Ret (tt, A ++ words (done ++ (shift ptr sz <$> pre ++ post)) ++ w' ++ B).
Proof.
  induction 1 as [|o pre Ho _ IH]; intros done x post B Hi Fp Hx.
  - cbn [app length ptrs_down]. cbn [length] in Hi. rewrite decide_True by lia. rewrite ptr_words_cons, <- app_assoc.
    destruct (down_after post Fp done (le16 x) B eq_refl ltac:(lia)) as (w' & Hw' & E1). exists w'. by split.
  - cbn [app length ptrs_down fmap list_fmap]. cbn [length] in Hi. rewrite decide_False by lia. rewrite ptr_words_cons, <- app_assoc.
    assert (Hd : length (words done) = (2 * length done)%nat) by apply length_words.
    pose proof (rd_word_after (words done) (length done) o (words (pre ++ x :: post) ++ B) Hd Ho) as R.
    rewrite (bind_ret _ _ _ _ _ R), (bind_ret _ _ _ _ _ (wr_word_after _ _ (le16 o) o _ Hd eq_refl)), (bind_ret _ _ _ _ _ R).
    assert (Hstep : (if decide (o < ptr) then o' ← rd16 (MP_PTRS 0 (length done)); wr16 (MP_PTRS 0 (length done)) (u16 (o' + sz)) else mret tt)
      (A ++ words done ++ le16 o ++ words (pre ++ x :: post) ++ B) =
      Ret (tt, A ++ words done ++ le16 (shift ptr sz o) ++ words (pre ++ x :: post) ++ B)).
    { unfold shift. case_decide; [|done]. rewrite (bind_ret _ _ _ _ _ R). by apply wr_word_after. }
    rewrite (bind_ret _ _ _ _ _ Hstep).
    destruct (IH (done ++ [shift ptr sz o]) x post B) as (w' & Hw' & E1); [rewrite length_app; cbn; lia|done|done|].
    exists w'. split; [done|]. rewrite (length_app done), Nat.add_1_r, <- (app_assoc done) in E1. cbn [app] in E1.
    rewrite <- E1, (words_app done), <- !app_assoc. done.
Qed.
End Down.

(** *** The layout without a node *)

Lemma pairs_fmap (Q : entry -> Prop) (f : entry -> entry) es : Forall Q es -> ForallOrdPairs apart es ->
  (forall x y, Q x -> Q y -> apart x y -> apart (f x) (f y)) -> ForallOrdPairs apart (f <$> es).
Proof.
  intros HQ HP Hf. induction HP as [|x es Hx _ IH]; [constructor|]. apply Forall_cons in HQ as [Qx Qes]. cbn [fmap list_fmap].
  constructor; [|by apply IH]. apply Forall_fmap. apply Forall_forall. intros y Hy. cbn.
  rewrite Forall_forall in Hx, Qes. apply Hf; [done|by apply Qes|by apply Hx].
Qed.

(** A node beside the deleted one stays where it is in what is left of the heap. *)
Lemma node_in_before A M B k n m : node_in (A ++ M ++ B) k m -> Z.of_nat k + node_size m <= Z.of_nat (length A) ->
  n = length M -> node_in (A ++ B) k m.
Proof.
  intros (A1 & pad & B1 & Hh & Hk & Hs) Hle ->. unfold size in Hs.
  exists A1, pad, (take (length A - length A1 - length (enc m ++ pad)) B1 ++ B). split; [|done].
  assert (HA : A = A1 ++ (enc m ++ pad) ++ take (length A - length A1 - length (enc m ++ pad)) B1).
  { rewrite <- (take_app_length A (M ++ B)) at 1. rewrite Hh. rewrite take_app_ge by lia. f_equal. by apply take_app_ge; lia. }
  rewrite HA at 1. by rewrite <- !app_assoc.
Qed.

Lemma node_in_after A M B k m : node_in (A ++ M ++ B) k m -> (length A + length M <= k)%nat -> node_in (A ++ B) (k - length M) m.
Proof.
  intros (A1 & pad & B1 & Hh & Hk & Hs) Hle. exists (A ++ drop (length A + length M) A1), pad, B1.
  assert (HB : B = drop (length A + length M) A1 ++ (enc m ++ pad) ++ B1).
  { rewrite <- (drop_app_length (A ++ M) B) at 1. rewrite <- app_assoc, Hh, length_app. by rewrite drop_app_le by lia. }
  split_and!; [|rewrite length_app, length_drop; lia|done]. rewrite HB at 1. by rewrite <- (app_assoc A).
Qed.

(** The last pointer's word [w] and the bytes [x] the node leaves free join the gap. *)
Definition without (l : layout) (i : nat) (ptr sz : Z) (w x : list Z) (A B : list Z) : layout :=
  Layout (hd l) (shift ptr sz <$> take i (ptrs l) ++ drop (S i) (ptrs l)) (w ++ gap l ++ x) (A ++ B).

Lemma without_facts l i o sz w x A M B : layout_ok l -> (i < length (ptrs l))%nat -> length w = 2%nat ->
  heap l = A ++ M ++ B -> Z.of_nat (length M) = sz -> length x = length M ->
  let l' := without l i o sz w x A B in
  layout_ok l' /\ lower l' = lower l - 2 /\ upper l' = upper l + sz /\ total l' = total l.
Proof.
  intros (H12 & F & Ht) Hi Hw Hh HM Hx l'.
  assert (Hp : length (ptrs l') = (length (ptrs l) - 1)%nat) by (cbn; rewrite length_fmap, length_app, length_take, length_drop; lia).
  assert (Hg : length (gap l') = (2 + length (gap l) + length M)%nat) by (cbn; rewrite !length_app; lia).
  assert (Hhp : length (heap l') = (length (heap l) - length M)%nat) by (rewrite Hh; cbn; rewrite !length_app; lia).
  assert (length M <= length (heap l))%nat by (rewrite Hh, !length_app; lia).
  unfold layout_ok, total, upper, lower in *. rewrite Hp, Hg, Hhp. split_and!; [done| |lia|lia|lia|lia].
  cbn. apply Forall_fmap. apply Forall_app. split; [apply Forall_take|apply Forall_drop]; (eapply Forall_impl; [exact F|]);
    intros v Hv; unfold compose, shift; case_decide; [by apply fits_wrap|done|by apply fits_wrap|done].
Qed.

Definition deleted (leaf : bool) (l : layout) (es : list entry) (i : nat) (o : Z) (n : node) (l' : layout) : Prop :=
  layout_ok l' /\ hd l' = hd l /\ total l' = total l /\
  Z.of_nat (length (gap l')) = Z.of_nat (length (gap l)) + 2 + node_size n /\
  represents leaf l' (moved o (node_size n) <$> take i es ++ drop (S i) es).

Lemma without_represents leaf l es i o n w x A M B : layout_ok l -> represents leaf l es -> es !! i = Some (o, n) -> length w = 2%nat ->
  heap l = A ++ M ++ B -> size M = node_size n -> length x = length M -> length A = Z.to_nat (o - upper l) ->
  deleted leaf l es i o n (without l i o (node_size n) w x A B).
Proof.
  intros Hl R Hi Hw Hh HM Hx HA. pose proof R as [Rp Ro Rpl Ra Rs]. pose proof (layout_bounds l Hl) as Hb.
  assert (Hil : (i < length (ptrs l))%nat) by (rewrite Rp, length_fmap; by apply lookup_lt_Some in Hi).
  destruct (without_facts l i o (node_size n) w x A M B) as (Hl' & _ & Hu & Ht); try done.
  pose proof (take_drop_middle _ _ _ Hi) as Hes. rewrite <- Hes in Ro, Rpl, Ra, Rs.
  apply pairs_middle in Ra as [Ra Rx].
  assert (Hplace : placed l (o, n)) by (apply Forall_app in Rpl as [_ Rpl]; by apply Forall_cons in Rpl as [? _]).
  assert (Ho : upper l <= o) by apply Hplace. destruct (placed_split l o n Hl Hplace) as (_ & _ & _ & _ & _ & _ & _ & _ & _ & _ & Hot).
  assert (Rpl2 : Forall (placed l) (take i es ++ drop (S i) es)).
  { apply Forall_app in Rpl as [H1 H2]. apply Forall_cons in H2 as [_ H2]. by apply Forall_app. }
  assert (Hall : Forall (fun e => placed l e /\ apart (o, n) e) (take i es ++ drop (S i) es)) by (by apply Forall_and).
  assert (Hsh : Forall (fun e => shift o (node_size n) e.1 = (moved o (node_size n) e).1 /\ placed (without l i o (node_size n) w x A B) (moved o (node_size n) e))
    (take i es ++ drop (S i) es)).
  { eapply Forall_impl; [exact Hall|]. intros [p m] [[Hp Hin] Hap]. unfold apart, moved, shift, placed in *. cbn [fst snd] in *. rewrite Hu.
    pose proof (node_size_bounds m) as [Hbm _]. pose proof (raw_size_pos m). rewrite Hh in Hin.
    pose proof (node_size_bounds n) as [Hbn _]. pose proof (raw_size_pos n). cbn [heap without]. case_decide.
    - assert (Hpm : p + node_size m <= o) by lia.
      split; [apply u16_fits; unfold fits; lia|]. split; [lia|].
      replace (Z.to_nat (p + node_size n - (upper l + node_size n))) with (Z.to_nat (p - upper l)) by lia.
      eapply node_in_before; [exact Hin| |done]. lia.
    - split; [done|]. split; [lia|]. unfold size in HM.
      replace (Z.to_nat (p - (upper l + node_size n))) with (Z.to_nat (p - upper l) - length M)%nat by lia.
      apply node_in_after; [exact Hin|lia]. }
  unfold deleted. split; [done|]. split; [done|]. split; [done|]. split; [cbn; rewrite !length_app; unfold size in HM; lia|].
  constructor.
  - cbn [ptrs without]. rewrite Rp, <- fmap_take, <- fmap_drop, <- fmap_app, <- !list_fmap_compose.
    apply list_fmap_ext. intros k e He. rewrite Forall_lookup in Hsh. by apply (Hsh _ _ He).
  - apply Forall_fmap. apply Forall_app in Ro as [H1 H2]. apply Forall_cons in H2 as [_ H2]. by apply Forall_app.
  - apply Forall_fmap. eapply Forall_impl; [exact Hsh|]. by intros e [_ ?].
  - apply (pairs_fmap (fun e => placed l e /\ apart (o, n) e)); [done|done|].
    intros [p m] [q k] [_ Hx1] [_ Hx2] Hap. unfold apart, moved in *. cbn [fst snd] in *.
    pose proof (node_size_bounds n) as [? _]. pose proof (node_size_bounds m) as [? _]. pose proof (node_size_bounds k) as [? _].
    pose proof (raw_size_pos n). pose proof (raw_size_pos m). pose proof (raw_size_pos k). repeat case_decide; lia.
  - rewrite nodes_size_moved, nodes_size_app. rewrite nodes_size_app, nodes_size_cons in Rs. cbn [snd] in Rs.
    cbn [heap without]. unfold size in *. rewrite Hh, !length_app in Rs. rewrite length_app. lia.
Qed.

(** *** mdb_node_del *)

(** The bytes below those of the node go up over it. *)
Lemma memmove_up Q A M B : memmove (length Q + length M) (length Q) (length A) (Q ++ A ++ M ++ B) =
  Ret (tt, Q ++ take (length M) (A ++ M) ++ A ++ B).
Proof.
  unfold memmove. case_decide as HA.
  - apply nil_length_inv in HA as ->. cbn [app]. by rewrite firstn_all.
  - rewrite (bind_ret _ _ _ _ _ (rd_at Q A (M ++ B) _ _ eq_refl eq_refl)).
    assert (E : A ++ M ++ B = take (length M) (A ++ M) ++ drop (length M) (A ++ M) ++ B) by (rewrite app_assoc, (app_assoc (take _ _)), take_drop; done).
    rewrite E, (app_assoc Q). rewrite wr_at.
    + by rewrite <- app_assoc.
    + rewrite !length_app, length_take, length_app. lia.
    + rewrite length_drop, length_app. lia.
Qed.

Lemma header_write_del h lo up lo' up' R : length h = 12%nat ->
  (wr16 (MP_LOWER 0) lo';; wr16 (MP_UPPER 0) up') (h ++ le16 lo ++ le16 up ++ R) = Ret (tt, h ++ le16 lo' ++ le16 up' ++ R).
Proof.
  intros H12. erewrite bind_ret; [|by apply wr16_at].
  rewrite (app_assoc h), (app_assoc h). apply wr16_at; [rewrite length_app, H12; done | done].
Qed.

Lemma page_rep_lookup leaf l es i o n : represents leaf l es -> es !! i = Some (o, n) ->
  ptrs l !! i = Some o /\ node_ok leaf n /\ placed l (o, n) /\ (i < length (ptrs l))%nat.
Proof.
  intros [Rp Ro Rpl _ _] Hi. rewrite Rp. split; [by rewrite list_lookup_fmap, Hi|].
  split; [exact (Forall_lookup_1 _ _ _ _ Ro Hi)|]. split; [exact (Forall_lookup_1 _ _ _ _ Rpl Hi)|].
  rewrite length_fmap. by apply lookup_lt_Some in Hi.
Qed.

(** The size the function works out for a node of the page. *)
Lemma del_size leaf P n S : node_ok leaf n -> let p := P ++ enc n ++ S in
  (if leaf then
     f ← rd16 (mn_flags (length P));
     if F_ISSET f F_BIGDATA then mret (NODESIZE + size (n_key n) + 8)
     else d ← NODEDSZ (length P); mret (NODESIZE + size (n_key n) + d)
   else mret (NODESIZE + size (n_key n))) p = Ret (raw_size n, p).
Proof.
  intros Hn p. pose proof Hn as (Hnum & Hf & Hk & Hd). unfold raw_size. destruct leaf.
  - rewrite (bind_ret _ _ _ _ _ (rd_nflags P S n (ex_intro _ true Hn))). destruct (F_ISSET (n_flags n) F_BIGDATA); [by rewrite Hd|].
    rewrite (bind_ret _ _ _ _ _ (rd_NODEDSZ P S n (ex_intro _ true Hn))). by rewrite Hd.
  - rewrite Hd. change (size []) with 0. by rewrite Z.add_0_r.
Qed.

(** The pointers, the heap and the header, when the size is known. *)
Lemma del_update l i o sz A M B : layout_ok l -> ptrs l !! i = Some o -> upper l <= o -> heap l = A ++ M ++ B ->
  Z.of_nat (length M) = sz -> Z.of_nat (length A) = o - upper l ->
  exists w x, length w = 2%nat /\ length x = length M /\
  (ptrs_down (length (ptrs l)) 0 0 i o sz;; u ← rd16 (MP_UPPER 0);
   memmove_size (Z.to_nat (u + sz)) (Z.to_nat u) (o - u);; l ← rd16 (MP_LOWER 0); wr16 (MP_LOWER 0) (u16 (l - 2));;
   wr16 (MP_UPPER 0) (u16 (u + sz))) (bytes l) = Ret (tt, bytes (without l i o sz w x A B)).
Proof.
  intros Hl Hi Ho Hh HM HA. pose proof Hl as (H12 & F & _). pose proof (layout_bounds l Hl) as Hb.
  assert (Hhd : length (header_bytes l) = 16%nat) by (unfold header_bytes; rewrite !length_app, H12; done).
  pose proof (take_drop_middle _ _ _ Hi) as Hp. pose proof (lookup_lt_Some _ _ _ Hi) as Hil.
  assert (F2 : Forall fits16 (take i (ptrs l) ++ o :: drop (S i) (ptrs l))) by by rewrite Hp.
  apply Forall_app in F2 as [Fpre F2]. apply Forall_cons in F2 as [Fo Fpost].
  destruct (down_run (header_bytes l) i o sz Hhd (take i (ptrs l)) Fpre [] o (drop (S i) (ptrs l)) (gap l ++ heap l)) as (w & Hw & E1); [rewrite length_take; cbn; lia|done|done|].
  rewrite Hp in E1. change (words []) with (@nil Z) in E1. cbn [app length] in E1.
  destruct (without_facts l i o sz w (take (length M) (A ++ M)) A M B) as (_ & Hlo & Hup & Ht); try done;
    [rewrite length_take, length_app; lia|].
  exists w, (take (length M) (A ++ M)). split; [done|]. split; [rewrite length_take, length_app; lia|].
  rewrite (bind_ret _ _ _ _ _ E1). erewrite bind_ret; [|by apply header_upper].
  set (sh := shift o sz <$> take i (ptrs l) ++ drop (S i) (ptrs l)).
  set (Q := header_bytes l ++ words sh ++ w ++ gap l).
  assert (HQ : length Q = Z.to_nat (upper l)).
  { unfold Q, sh. rewrite !length_app, length_words, length_fmap, length_app, length_take, length_drop, Hhd, Hw.
    unfold upper, lower in *. lia. }
  assert (E2 : header_bytes l ++ words sh ++ w ++ gap l ++ heap l = Q ++ A ++ M ++ B) by (unfold Q; rewrite Hh, <- !app_assoc; done).
  rewrite E2. replace (Z.to_nat (upper l + sz)) with (length Q + length M)%nat by lia. rewrite <- HQ.
  unfold memmove_size. rewrite decide_False by lia.
  replace (Z.to_nat (o - upper l)) with (length A) by lia. rewrite (bind_ret _ _ _ _ _ (memmove_up Q A M B)).
  unfold Q. rewrite <- !app_assoc. erewrite bind_ret; [|by apply header_lower].
  pose proof (layout_bounds l Hl). unfold total in Ht, Hb. assert (Hlow : 18 <= lower l) by (unfold lower; lia).
  assert (upper l + sz < 65536) by (rewrite Hh, !length_app in Hb; lia).
  rewrite !u16_fits by (unfold fits; lia). unfold header_bytes. rewrite <- !app_assoc, header_write_del by done.
  unfold bytes, header_bytes. rewrite Hlo, Hup. cbn [without hd ptrs gap heap]. by rewrite <- !app_assoc.
Qed.

(** mdb_node_del on a page that is not of fixed-size keys. The page then holds the other nodes, in their order and with
    their keys and data; the space of the node and of its pointer joins the gap, and the header but for mp_lower and
    mp_upper, and the size of the page, stay. An index past the last node ends the program (the assertion). *)
Theorem mdb_node_del_spec l es i ksize : let leaf := F_ISSET (pflags l) P_LEAF in
  layout_ok l -> represents leaf l es -> F_ISSET (pflags l) P_LEAF2 = false ->
  match es !! i with
  | Some (o, n) => exists l', deleted leaf l es i o n l' /\ mdb_node_del i ksize (bytes l) = Ret (tt, bytes l')
  | None => mdb_node_del i ksize (bytes l) = Abort
  end.
Proof.
  intros leaf Hl R H2. pose proof (layout_bounds l Hl) as Hb. unfold mdb_node_del.
  assert (Hlen : u16 (Z.of_nat (length (ptrs l))) = Z.of_nat (length es)).
  { rewrite u16_fits by (unfold fits, lower in *; lia). by rewrite (rep_ptrs _ _ _ R), length_fmap. }
  erewrite bind_ret; [|by apply top_NUMKEYS]. rewrite Hlen. destruct (es !! i) as [[o n]|] eqn:Hi.
  - destruct (page_rep_lookup _ _ _ _ _ _ R Hi) as (Hp & Hn & Hpl & Hil). pose proof Hi as Hi2. apply lookup_lt_Some in Hi2.
    rewrite decide_True by lia. erewrite bind_ret; [|by apply top_flag]. rewrite H2.
    destruct (placed_split l o n Hl Hpl) as (P & pad & S & A & B & Eb & HP & Hh & HA & Hs & _).
    erewrite bind_ret; [|by apply top_NODEPTR]. rewrite <- HP, Eb. pose proof Hn as (_ & _ & Hk & _).
    erewrite bind_ret; [|by apply rd_ksize]. rewrite <- Eb. erewrite bind_ret; [|by apply top_flag]. fold leaf. rewrite Eb.
    rewrite (bind_ret _ _ _ _ _ (del_size leaf P n (pad ++ S) Hn)), <- Eb. fold (node_size n).
    erewrite bind_ret; [|by apply top_ptr]. rewrite Nat2Z.id. replace (length es) with (length (ptrs l)) by (rewrite (rep_ptrs _ _ _ R), length_fmap; done).
    destruct Hpl as [Ho _]. cbn [fst] in Ho.
    destruct (del_update l i o (node_size n) A (enc n ++ pad) B) as (w & x & Hw & Hx & E); try done; [lia|].
    exists (without l i o (node_size n) w x A B). split; [|exact E]. by apply without_represents with (M := enc n ++ pad).
  - apply lookup_ge_None in Hi. by rewrite decide_False by lia.
Qed.

(** *** The sizes the callers compare with the free space *)

Lemma EVEN_plus_2 n : 0 <= n -> EVEN (n + 2) = EVEN n + 2.
Proof. intros H. rewrite !EVEN_spec by lia. dlia. Qed.

(** mdb_leaf_size is what mdb_node_add asks for, the pointer included: a caller that has found that much room is never
    told that the page is full. *)
Theorem mdb_leaf_size_exact nodemax flags k d : F_ISSET flags F_BIGDATA = false ->
  mdb_leaf_size nodemax k d = EVEN (NODESIZE + size k + if too_big nodemax flags k (Val (size d) d) then 8 else size d) + 2.
Proof.
  intros Hb. unfold mdb_leaf_size, too_big. rewrite Hb. cbn [negb andb mv_size].
  rewrite <- EVEN_plus_2 by (case_bool_decide; unfold NODESIZE, size; lia). f_equal. f_equal.
  case_bool_decide; [rewrite decide_True by done | rewrite decide_False by done]; lia.
Qed.

(** The one of a branch node is not rounded; what is free on a page of even size is even, so the test is the same. *)
Theorem mdb_branch_size_room key room : Z.Even room -> (mdb_branch_size key <= room <-> EVEN (NODESIZE + key_size key) + 2 <= room).
Proof.
  intros [m ->]. unfold mdb_branch_size, key_size, NODESIZE. destruct key; rewrite EVEN_spec by (unfold size; lia); unfold size; dlia.
Qed.
