(* ===== verification/MdbSearch.v ===== *)
(** * Keys in order, and the search in a page

    The comparison functions of mdb.c are orders on keys ([key_order]), and
    mdb_node_search finds the place of a key among the sorted keys of a page. *)

From Stdlib Require Import ZArith Lia.
From stdpp Require Import prelude gmap.
From S2P Require Import Prelude MdbPage MdbPageSpec.

(** ** The orders *)

Fixpoint lex (a b : list Z) : comparison :=
  match a, b with
  | [], [] => Eq
  | [], _ => Lt
  | _, [] => Gt
  | x :: a, y :: b => match x ?= y with Eq => lex a b | c => c end
  end.

Lemma lex_trans a b c : lex a b <> Gt -> lex b c = Lt -> lex a c = Lt.
Proof.
  revert b c. induction a as [|x a IH]; intros [|y b] [|z c]; cbn; try done.
  destruct (Z.compare_spec x y) as [->|Hxy|Hxy]; [|intros _|done].
  - destruct (Z.compare_spec y z); try done. apply IH.
  - destruct (Z.compare_spec y z) as [->|Hyz|Hyz]; [|intros _|done].
    + apply Z.compare_lt_iff in Hxy. by rewrite Hxy.
    + assert (H : x < z) by lia. apply Z.compare_lt_iff in H. by rewrite H.
Qed.

Lemma memcmp_lex a b : exists z, memcmp (Nat.min (length a) (length b)) a b = Ret z /\
  lex a b = if decide (z = 0) then size a ?= size b else z ?= 0.
Proof.
  revert b. induction a as [|x a IH]; intros [|y b]; try (exists 0; by split). cbn [length Nat.min memcmp lex].
  unfold size. cbn [length]. case_decide as Hxy.
  - subst y. destruct (IH b) as (z & Hz & E). exists z. split; [done|]. rewrite Z.compare_refl, E. case_decide; [|done].
    unfold size. symmetry. rewrite !Nat2Z.inj_succ. destruct (Z.compare_spec (Z.of_nat (length a)) (Z.of_nat (length b)));
      [apply Z.compare_eq_iff|apply Z.compare_lt_iff|apply Z.compare_gt_iff]; lia.
  - exists (x - y). split; [done|]. rewrite decide_False by lia.
    destruct (Z.compare_spec x y); symmetry; [lia|apply Z.compare_lt_iff; lia|apply Z.compare_gt_iff; lia].
Qed.

(** The end of both comparisons of bytes: the shorter key comes first. *)
Lemma shorter_first z (a b : list Z) :
  let len_diff := if decide (size a - size b > 0) then 1 else size a - size b in
  (if decide (z <> 0) then z else if decide (len_diff < 0) then -1 else len_diff) ?= 0 =
  if decide (z = 0) then size a ?= size b else z ?= 0.
Proof.
  intros len_diff. unfold len_diff. destruct (decide (z = 0)) as [->|Hz]; [|by rewrite decide_True].
  rewrite decide_False by lia. destruct (Z.compare_spec (size a) (size b)) as [E|E|E]; repeat case_decide; try lia; try done.
  apply Z.compare_eq_iff. lia.
Qed.

Lemma cmp_memn_lex a b : fits 32 (size a) -> fits 32 (size b) -> exists z, mdb_cmp_memn a b = Ret z /\ z ?= 0 = lex a b.
Proof.
  intros Ha Hb. destruct (memcmp_lex a b) as (z & Hz & ->). unfold mdb_cmp_memn.
  pose proof (shorter_first z a b) as E. cbv zeta in E |- *. rewrite <- E. destruct (decide (size a - size b > 0)) as [Hd|Hd]; cbv beta iota.
  - rewrite wrap_fits by done. rewrite Nat.min_r in Hz by (unfold size in *; lia). replace (Z.to_nat (size b)) with (length b) by (unfold size; lia). rewrite Hz.
    eexists. by split.
  - rewrite wrap_fits by done. rewrite Nat.min_l in Hz by (unfold size in *; lia). replace (Z.to_nat (size a)) with (length a) by (unfold size; lia). rewrite Hz.
    eexists. by split.
Qed.

Lemma memnr_memcmp n a b : memnr_loop n a b = memcmp n a b.
Proof.
  revert a b. induction n as [|n IH]; intros [|x a] [|y b]; try done. cbn. rewrite IH. repeat case_decide; done || lia.
Qed.

Lemma cmp_memnr_lex a b : exists z, mdb_cmp_memnr a b = Ret z /\ z ?= 0 = lex (rev a) (rev b).
Proof.
  destruct (memcmp_lex (rev a) (rev b)) as (z & Hz & ->). rewrite !length_rev in Hz. unfold mdb_cmp_memnr.
  pose proof (shorter_first z a b) as E. cbv zeta in E |- *. unfold size in *. rewrite !length_rev, <- E.
  destruct (decide (Z.of_nat (length a) - Z.of_nat (length b) > 0)) as [Hd|Hd]; cbv beta iota.
  - rewrite Nat.min_r in Hz by lia. rewrite memnr_memcmp, Hz. eexists. by split.
  - rewrite Nat.min_l in Hz by lia. rewrite memnr_memcmp, Hz. eexists. by split.
Qed.

(** *** Integers *)

Lemma le_val_app a b : le_val (a ++ b) = le_val a + 256 ^ Z.of_nat (length a) * le_val b.
Proof.
  induction a as [|x a IH]; cbn [app le_val length]; [cbn; lia|]. rewrite IH, Nat2Z.inj_succ, Z.pow_succ_r by lia. lia.
Qed.

Lemma le_val_bound a : Forall is_byte a -> 0 <= le_val a < 256 ^ Z.of_nat (length a).
Proof.
  induction 1 as [|x a Hx _ IH]; cbn [le_val length]; [done|]. rewrite Nat2Z.inj_succ, Z.pow_succ_r by lia.
  unfold fits in Hx. change (2 ^ 8) with 256 in Hx. nia.
Qed.

(** The last word decides, or what is before it. *)
Lemma compare_high q x y u v : 0 <= x < q -> 0 <= y < q -> x + q * u ?= y + q * v = match u ?= v with Eq => x ?= y | c => c end.
Proof.
  intros Hx Hy. destruct (Z.compare_spec u v) as [->|H|H].
  - destruct (Z.compare_spec x y); [apply Z.compare_eq_iff|apply Z.compare_lt_iff|apply Z.compare_gt_iff]; lia.
  - apply Z.compare_lt_iff. nia.
  - apply Z.compare_gt_iff. nia.
Qed.

Lemma compare_sub u v : u - v ?= 0 = (u ?= v).
Proof. destruct (Z.compare_spec u v); [apply Z.compare_eq_iff|apply Z.compare_lt_iff|apply Z.compare_gt_iff]; lia. Qed.

Lemma word_at (a : list Z) k : (k + 2 <= length a)%nat ->
  exists w, peek a k 2 = Some w /\ length w = 2%nat /\ of16 w = le_val w /\ take (k + 2) a = take k a ++ w.
Proof.
  intros H. exists (take 2 (drop k a)). unfold peek. rewrite decide_True by lia. split; [done|].
  assert (L : length (take 2 (drop k a)) = 2%nat) by (rewrite length_take, length_drop; lia). split; [done|].
  rewrite take_take_drop. split; [|done]. destruct (take 2 (drop k a)) as [|x [|y [|]]]; try done. cbn. lia.
Qed.

Lemma cint_loop_run a b : Forall is_byte a -> Forall is_byte b -> length a = length b -> forall m fuel,
  (2 * S m <= length a)%nat -> (m < fuel)%nat ->
  exists z, cint_loop fuel a b (2 * S m) = Ret z /\ z ?= 0 = (le_val (take (2 * S m) a) ?= le_val (take (2 * S m) b)).
Proof.
  intros Fa Fb Hab m. induction m as [|m IH]; intros [|fuel] Hm Hf; try lia.
  - cbn [cint_loop]. rewrite decide_False by lia. change (2 * 1 - 2)%nat with 0%nat.
    destruct (word_at a 0) as (u & -> & _ & Eu & Tu); [lia|]. destruct (word_at b 0) as (c & -> & _ & Ec & Tc); [lia|].
    cbn [of_option mbind outcome_bind]. rewrite decide_False by lia. eexists. split; [done|].
    change (2 * 1)%nat with (0 + 2)%nat. by rewrite Tu, Tc, compare_sub, Eu, Ec.
  - cbn [cint_loop]. rewrite decide_False by lia. replace (2 * S (S m) - 2)%nat with (2 * S m)%nat by lia.
    destruct (word_at a (2 * S m)) as (u & -> & _ & Eu & Tu); [lia|]. destruct (word_at b (2 * S m)) as (c & -> & _ & Ec & Tc); [lia|].
    cbn [of_option mbind outcome_bind]. destruct (IH fuel) as (z & Hz & Ez); [lia|lia|].
    replace (2 * S (S m))%nat with (2 * S m + 2)%nat by lia. rewrite Tu, Tc, !le_val_app, <- Eu, <- Ec.
    assert (La : length (take (2 * S m) a) = (2 * S m)%nat) by (rewrite length_take; lia).
    assert (Lb : length (take (2 * S m) b) = (2 * S m)%nat) by (rewrite length_take; lia).
    pose proof (le_val_bound _ (Forall_take _ (2 * S m)%nat _ Fa)) as Ba. pose proof (le_val_bound _ (Forall_take _ (2 * S m)%nat _ Fb)) as Bb.
    rewrite La in Ba |- *. rewrite Lb in Bb |- *. rewrite compare_high by done. rewrite <- Ez, <- (compare_sub (of16 u)).
    case_decide as Hx.
    + destruct Hx as [-> _]. exists z. by split.
    + eexists. split; [done|]. assert (of16 u - of16 c <> 0) by lia. by destruct (Z.compare_spec (of16 u - of16 c) 0).
Qed.

(** *** The order of a comparison function *)

Definition key_order (c : md_cmp) (a b : list Z) : comparison :=
  match c with
  | Cmp_memn => lex a b
  | Cmp_memnr => lex (rev a) (rev b)
  | Cmp_cint => le_val a ?= le_val b
  | Cmp_int => le_val (take 4 a) ?= le_val (take 4 b)
  | Cmp_long => le_val (take 8 a) ?= le_val (take 8 b)
  | Cmp_user _ => Eq
  end.

(** The keys it is for: sizes of 32 bits, or integers of one even size, or of at least the size compared. *)
Definition keys_fit (c : md_cmp) (a b : list Z) : Prop :=
  match c with
  | Cmp_memn => fits 32 (size a) /\ fits 32 (size b)
  | Cmp_memnr => True
  | Cmp_cint => Forall is_byte a /\ Forall is_byte b /\ length a = length b /\ exists m, length a = (2 * S m)%nat
  | Cmp_int => (4 <= length a)%nat /\ (4 <= length b)%nat
  | Cmp_long => (8 <= length a)%nat /\ (8 <= length b)%nat
  | Cmp_user _ => False
  end.

Lemma cmp_words_order w a b : (w <= length a)%nat -> (w <= length b)%nat ->
  exists z, cmp_words w a b = Ret z /\ z ?= 0 = (le_val (take w a) ?= le_val (take w b)).
Proof.
  intros Ha Hb. unfold cmp_words, load_int. rewrite !peek_take by done. cbn [of_option mbind outcome_bind].
  eexists. split; [done|]. destruct (Z.compare_spec (le_val (take w a)) (le_val (take w b))) as [->|H|H].
  - by rewrite !decide_False by lia.
  - by rewrite decide_True by lia.
  - by rewrite decide_False, decide_True by lia.
Qed.

(** Each comparison function of LMDB returns on the keys it is for, and the sign of what it returns is that of an order:
    of the bytes, with the shorter key first (mdb_cmp_memn); of the bytes from the end (mdb_cmp_memnr); of the
    little-endian integers (mdb_cmp_int, mdb_cmp_long and, for any even size, mdb_cmp_cint). *)
Theorem run_cmp_order c a b : keys_fit c a b -> exists z, run_cmp c a b = Ret z /\ z ?= 0 = key_order c a b.
Proof.
  destruct c; cbn [keys_fit run_cmp key_order].
  - intros []. by apply cmp_memn_lex.
  - intros _. apply cmp_memnr_lex.
  - intros (Fa & Fb & Hab & m & Hm). unfold mdb_cmp_cint. rewrite Hm.
    destruct (cint_loop_run a b Fa Fb Hab m (2 * S m)) as (z & Hz & E); [lia|lia|]. exists z. split; [done|].
    by rewrite E, !take_ge by lia.
  - intros []. by apply cmp_words_order.
  - intros []. by apply cmp_words_order.
  - done.
Qed.

Lemma compare_trans x y z : (x ?= y) <> Gt -> (y ?= z) = Lt -> (x ?= z) = Lt.
Proof. change (x <= y -> (y ?= z) = Lt -> (x ?= z) = Lt). rewrite !Z.compare_lt_iff. lia. Qed.

Lemma key_order_trans c a b d : key_order c a b <> Gt -> key_order c b d = Lt -> key_order c a d = Lt.
Proof. destruct c; try apply compare_trans; try apply lex_trans. done. Qed.

(** ** The search *)

Lemma key_at_run leaf l es i o n pad : layout_ok l -> represents leaf l es -> es !! i = Some (o, n) ->
  key_at false pad i (bytes l) = Ret (n_key n, bytes l).
Proof.
  intros Hl R Hi. destruct (page_rep_lookup _ _ _ _ _ _ R Hi) as (Hp & (_ & _ & Hk & _) & Hpl & _).
  destruct (placed_split l o n Hl Hpl) as (P & x & S & A & B & Eb & HP & _). unfold key_at.
  erewrite bind_ret; [|by apply top_NODEPTR]. rewrite <- HP, Eb. erewrite bind_ret; [|by apply rd_ksize].
  replace (Z.to_nat (size (n_key n))) with (length (n_key n)) by (unfold size; lia). apply rd_key.
Qed.

(** The loop, on any comparison that sorts the keys around the one sought. *)
Section Loop.
Variables (p : page) (leaf2 : bool) (pad : nat) (c : md_cmp) (key : list Z) (L n : Z) (z : Z -> Z) (k : Z -> list Z).
Hypothesis HL : 0 <= L.
Hypothesis Hkey : forall j, L <= j < n -> key_at leaf2 pad (Z.to_nat j) p = Ret (k j, p).
Hypothesis Hcmp : forall j, L <= j < n -> run_cmp c key (k j) = Ret (z j).
Hypothesis Hmono : forall i j, L <= i < j -> j < n -> z i <= 0 -> z j < 0.

(** The place of the key: [i], or after [i] when [rc] is positive. *)
Definition at_place (i rc : Z) : Prop :=
  let r := if decide (rc > 0) then i + 1 else i in
  L <= r <= n /\ (rc = 0 <-> r < n /\ z r = 0) /\ (forall j, L <= j < r -> z j > 0) /\ (forall j, r < j < n -> z j < 0) /\
  (r < n -> z r <= 0).

Lemma split_at j j' : L <= j < n -> L <= j' < n -> (z j > 0 -> j' < j -> z j' > 0) /\ (z j <= 0 -> j < j' -> z j' < 0).
Proof.
  intros Hj Hj'. split; intros Hz Hlt.
  - destruct (decide (z j' <= 0)) as [H|H]; [|lia]. pose proof (Hmono j' j ltac:(lia) ltac:(lia) H). lia.
  - apply (Hmono j j'); lia.
Qed.

Lemma search_run fuel : forall low high i rc, L <= low <= high + 1 -> high < n -> (Z.to_nat (high + 1 - low) < fuel)%nat ->
  (forall j, L <= j < low -> z j > 0) -> (forall j, high < j < n -> z j < 0) ->
  (low <= high \/ (rc <> 0 /\ (if decide (rc > 0) then i + 1 else i) = if decide (rc > 0) then low else high + 1)) ->
  exists i' rc', node_search_loop fuel leaf2 pad c key low high i rc p = Ret ((i', rc'), p) /\ at_place i' rc'.
Proof.
  induction fuel as [|fuel IH]; intros low high i rc Hb Hh Hf Hlo Hhi Hor; [lia|]. cbn [node_search_loop].
  destruct (decide (low <= high)) as [Hlh|Hlh].
  - assert (Hm : Z.shiftr (low + high) 1 = (low + high) / 2) by (rewrite Z.shiftr_div_pow2 by lia; done). rewrite Hm.
    set (m := (low + high) / 2) in *. assert (Hmb : low <= m <= high) by (split; [apply Z.div_le_lower_bound|apply Z.div_le_upper_bound]; lia).
    erewrite bind_ret; [|apply Hkey; lia]. erewrite bind_ret; [|unfold plift; rewrite Hcmp by lia; reflexivity].
    assert (Sp : forall j, L <= j < n -> (z m > 0 -> j < m -> z j > 0) /\ (z m <= 0 -> m < j -> z j < 0)) by (intros j Hj; apply split_at; lia).
    destruct (decide (z m = 0)) as [H0|H0]; [|destruct (decide (z m > 0)) as [H1|H1]].
    + exists m, (z m). split; [done|]. unfold at_place. rewrite H0, decide_False by lia. split; [lia|]. split; [split; [lia|done]|].
      split; [intros j Hj; destruct (decide (z j <= 0)) as [Hz|Hz]; [pose proof (proj2 (split_at j m ltac:(lia) ltac:(lia)) Hz); lia|lia]|].
      split; [intros j Hj; apply Sp; lia|lia].
    + apply IH; try lia; [intros j Hj; destruct (decide (j = m)) as [->|]; [done|apply Sp; lia]|done|].
      right. by rewrite !decide_True.
    + apply IH; try lia; [done|intros j Hj; destruct (decide (j = m)) as [->|]; [lia|apply Sp; lia]|].
      right. rewrite !decide_False by done. lia.
  - destruct Hor as [|[Hrc Hr]]; [lia|]. exists i, rc. split; [done|]. unfold at_place.
    assert (Hlow : low = high + 1) by lia. replace (if decide (rc > 0) then i + 1 else i) with low by (rewrite Hr; case_decide; lia). split; [lia|]. split; [split; [done|intros [Hn Hz]; pose proof (Hhi low); lia]|].
    split; [done|]. split; [intros j Hj; apply Hhi; lia|]. intros. pose proof (Hhi low). lia.
Qed.
End Loop.

(** The comparison of a branch page of integer keys is the one for their size. *)
Definition node_cmp (leaf : bool) (es : list entry) (c : md_cmp) : md_cmp :=
  match c with
  | Cmp_cint =>
      if leaf then c
      else match es !! 1%nat with Some (_, n) => if decide (size (n_key n) = 8) then Cmp_long else Cmp_int | None => c end
  | _ => c
  end.

Definition key_of (ks : list (list Z)) (j : Z) : list Z := default [] (ks !! Z.to_nat j).

Definition node_keys (es : list entry) : list (list Z) := (fun e => n_key e.2) <$> es.

(** The keys from the index [low] on, in their order. *)
Definition sorted_keys (c : md_cmp) (low : Z) (ks : list (list Z)) : Prop :=
  forall i j, low <= i < j -> j < Z.of_nat (length ks) -> key_order c (key_of ks i) (key_of ks j) = Lt.

(** The first key of a branch page is not looked at. *)
Definition first_key (leaf : bool) : Z := if leaf then 0 else 1.

(** The cursor's index, what is returned and the exact match, for the key among the keys from [low] on. *)
Definition found_at (c : md_cmp) (key : list Z) (low : Z) (ks : list (list Z)) (f : found) : Prop :=
  let n := Z.of_nat (length ks) in
  let r := mc_ki f in
  low <= r <= n /\ f_node f = (if decide (r < n) then Some r else None) /\
  (exactp f = true <-> r < n /\ key_order c key (key_of ks r) = Eq) /\
  (forall j, low <= j < r -> key_order c key (key_of ks j) = Gt) /\
  (forall j, r < j < n -> key_order c key (key_of ks j) = Lt) /\
  (r < n -> key_order c key (key_of ks r) <> Gt).

Lemma rd16_any (p : page) a : (a + 2 <= length p)%nat -> exists v, rd16 a p = Ret (v, p).
Proof.
  intros H. unfold rd16, rd, peek, mbind, ST_bind, outcome_bind. rewrite decide_True by lia. cbn [of_option]. by eexists.
Qed.

(** The loop on a page of sorted keys. *)
Lemma page_search (p : page) ks leaf2 pad c key low fuel :
  (forall j k, ks !! j = Some k -> key_at leaf2 pad j p = Ret (k, p)) -> 0 <= low < Z.of_nat (length ks) ->
  (forall j, low <= j < Z.of_nat (length ks) -> keys_fit c key (key_of ks j)) -> sorted_keys c low ks -> (length ks < fuel)%nat ->
  exists i rc, node_search_loop fuel leaf2 pad c key low (Z.of_nat (length ks) - 1) 0 0 p = Ret ((i, rc), p) /\
    found_at c key low ks (let r := if decide (rc > 0) then i + 1 else i in
      Found (if decide (r < Z.of_nat (length ks)) then Some r else None) r (bool_decide (rc = 0))).
Proof.
  intros Hkey Hlow Hfit Hs Hf. set (n := Z.of_nat (length ks)) in *.
  set (z := fun j => match run_cmp c key (key_of ks j) with Ret z => z | _ => 0 end).
  assert (Hz : forall j, low <= j < n -> run_cmp c key (key_of ks j) = Ret (z j) /\ z j ?= 0 = key_order c key (key_of ks j)).
  { intros j Hj. unfold z. by destruct (run_cmp_order c key (key_of ks j) (Hfit j Hj)) as (v & -> & E). }
  destruct (search_run p leaf2 pad c key low n z (key_of ks)) with (fuel := fuel) (low := low) (high := n - 1) (i := 0) (rc := 0)
    as (i & rc & E & Hr & Hrc & Hbelow & Habove & Hat); try lia.
  - intros j Hj. unfold key_of. destruct (ks !! Z.to_nat j) as [k|] eqn:Ej; [by apply Hkey|].
    apply lookup_ge_None in Ej. lia.
  - intros j Hj. by apply Hz.
  - intros a b Hab Hb Ha. destruct (Hz a) as [_ Ea]; [lia|]. destruct (Hz b) as [_ Eb]; [lia|].
    change (z b ?= 0 = Lt). rewrite Eb. eapply key_order_trans; [|apply (Hs a b); lia]. rewrite <- Ea.
    intros HG. change (z a > 0) in HG. lia.
  - exists i, rc. split; [exact E|]. set (r := if decide (rc > 0) then i + 1 else i) in *. unfold found_at. cbn [mc_ki f_node exactp]. fold n.
    split; [done|]. split; [done|]. split; [|split; [|split]].
    + rewrite bool_decide_eq_true, Hrc. split; intros [Hn Hk]; (split; [done|]); destruct (Hz r) as [_ Er]; try lia;
        [rewrite <- Er; by apply Z.compare_eq_iff|rewrite <- Er in Hk; by apply Z.compare_eq_iff].
    + intros j Hj. destruct (Hz j) as [_ <-]; [lia|]. by apply Hbelow.
    + intros j Hj. destruct (Hz j) as [_ <-]; [lia|]. by apply Habove.
    + intros Hn. destruct (Hz r) as [_ <-]; [lia|]. intros HG. change (z r > 0) in HG. pose proof (Hat Hn). lia.
Qed.

Lemma swrap_small v : -1 <= v < 65536 -> swrap 32 v = v.
Proof. intros H. unfold swrap. change (2 ^ (32 - 1)) with 2147483648. change (2 ^ 32) with 4294967296. rewrite Z.mod_small; lia. Qed.

(** The comparison of a branch page of integer keys is looked up in its second node. *)
Lemma resolve_cmp leaf l es c : layout_ok l -> represents leaf l es -> (leaf = false -> (2 <= length es)%nat) ->
  (match c with
   | Cmp_cint =>
       if negb leaf then
         node ← NODEPTR 0 1; k ← rd16 (mn_ksize node);
         mret (if decide (k = 8) then Cmp_long else Cmp_int)
       else mret c
   | _ => mret c
   end) (bytes l) = Ret (node_cmp leaf es c, bytes l).
Proof.
  intros Hl R Hnk. unfold node_cmp. destruct c; try done. destruct leaf; [done|]. cbn [negb].
  destruct (es !! 1%nat) as [[o m]|] eqn:E1; [|apply lookup_ge_None in E1; specialize (Hnk eq_refl); lia].
  destruct (page_rep_lookup _ _ _ _ _ _ R E1) as (Hp & (_ & _ & Hk & _) & Hpl & _).
  destruct (placed_split l o m Hl Hpl) as (P & x & S & A & B & Eb & HP & _).
  erewrite bind_ret; [|by apply top_NODEPTR]. rewrite <- HP, Eb. by erewrite bind_ret; [|by apply rd_ksize].
Qed.

(** The pointer behind the last one is read too. *)
Lemma next_ptr leaf l es i (rc : Z) : layout_ok l -> represents leaf l es -> (0 < length es)%nat ->
  0 <= (if decide (rc > 0) then i + 1 else i) <= Z.of_nat (length es) ->
  (if decide (rc > 0) then (NODEPTR 0 (Z.to_nat (i + 1));; mret tt);; mret (i + 1) else mret i) (bytes l) =
  Ret (if decide (rc > 0) then i + 1 else i, bytes l).
Proof.
  intros Hl R Hne Hi. case_decide as Hrc; [|done]. destruct (rd16_any (bytes l) (MP_PTRS 0 (Z.to_nat (i + 1)))) as (v & Ev).
  - pose proof (length_bytes l ltac:(apply Hl)) as Hlb. destruct (es !! 0%nat) as [[o m]|] eqn:E0; [|apply lookup_ge_None in E0; lia].
    destruct (page_rep_lookup _ _ _ _ _ _ R E0) as (_ & _ & Hpl & _).
    pose proof (placed_split l o m Hl Hpl) as (_ & _ & _ & _ & _ & _ & _ & _ & _ & _ & Ho).
    destruct Hpl as [Hu _]. cbn [fst] in Hu. pose proof (node_size_bounds m) as [Hm _]. pose proof (raw_size_pos m).
    pose proof (layout_bounds l Hl). assert (length (ptrs l) = length es) by (rewrite (rep_ptrs _ _ _ R); apply length_fmap).
    unfold MP_PTRS. unfold lower in *. lia.
  - unfold NODEPTR. unfold mbind, ST_bind, outcome_bind in *. by rewrite Ev.
Qed.

(** mdb_node_search, on a page of nodes whose keys are in the order of the comparison (but for the first of a branch
    page): it returns, with fuel of the number of keys; the cursor's index is that of the smallest key that is
    greater or equal, its node is returned (NULL when there is none), and the exact match is told. *)
Theorem mdb_node_search_spec fuel c pad key l es : let leaf := F_ISSET (pflags l) P_LEAF in let c' := node_cmp leaf es c in
  layout_ok l -> represents leaf l es -> F_ISSET (pflags l) P_LEAF2 = false -> F_ISSET (pflags l) P_BRANCH = negb leaf ->
  (leaf = false -> (2 <= length es)%nat) ->
  let ks := node_keys es in
  (forall j, first_key leaf <= j < Z.of_nat (length ks) -> keys_fit c' key (key_of ks j)) ->
  sorted_keys c' (first_key leaf) ks -> (length es < fuel)%nat ->
  exists f, mdb_node_search fuel c pad key (bytes l) = Ret (f, bytes l) /\ found_at c' key (first_key leaf) ks f.
Proof.
  intros leaf c' Hl R H2 Hbr Hnk ks Hfit Hs Hf. pose proof (layout_bounds l Hl) as Hb. unfold mdb_node_search.
  assert (Hlen : length (ptrs l) = length es) by (rewrite (rep_ptrs _ _ _ R); apply length_fmap).
  erewrite bind_ret; [|by apply top_NUMKEYS]. rewrite Hlen. erewrite bind_ret; [|by apply top_flag]. fold leaf.
  erewrite bind_ret; [|by apply top_flag]. rewrite Hbr.
  assert (Hks : length ks = length es) by apply length_fmap.
  assert (Hn : Z.of_nat (length es) < 65536) by (unfold lower in *; lia).
  pose proof (resolve_cmp leaf l es c Hl R Hnk) as Hc.
  rewrite (bind_ret _ _ _ _ _ Hc). erewrite bind_ret; [|by apply top_flag]. rewrite H2. erewrite bind_ret; [|reflexivity].
  rewrite (swrap_small (Z.of_nat (length es) - 1)) by lia.
  destruct (decide (length es = 0%nat)) as [H0|H0].
  - destruct leaf; [|specialize (Hnk eq_refl); lia]. apply nil_length_inv in H0. subst es. destruct fuel as [|fuel]; [cbn in Hf; lia|].
    cbn. eexists. split; [reflexivity|]. unfold found_at. cbn. split; [lia|]. split; [done|].
    split; [split; [done|intros [H _]; lia]|]. split; [intros; lia|]. split; [intros; lia|]. intros. lia.
  - assert (Hlow : 0 <= first_key leaf < Z.of_nat (length es)) by (destruct leaf; cbn; [lia|specialize (Hnk eq_refl); lia]).
    destruct (page_search (bytes l) ks false pad c' key (first_key leaf) fuel) as (i & rc & E & F); try done; try by rewrite Hks.
    { intros j k Hk. unfold ks, node_keys in Hk. rewrite list_lookup_fmap in Hk. destruct (es !! j) as [[o m]|] eqn:Ej; [|done].
      injection Hk as <-. by apply (key_at_run leaf l es _ o). }
    rewrite Hks in E, F.
    change (if leaf then 0 else 1) with (first_key leaf). rewrite (bind_ret _ _ _ _ _ E). eexists. split; [|exact F].
    set (r := if decide (rc > 0) then i + 1 else i) in *. pose proof F as (Hr & _). cbn [mc_ki] in Hr.
    pose proof (next_ptr leaf l es i rc Hl R ltac:(lia)) as Et. fold r in Et. specialize (Et ltac:(rewrite <- Hks; lia)).
    cbv beta iota. rewrite (bind_ret _ _ _ _ _ Et). cbv zeta.
    rewrite (bool_decide_ext (rc = 0 /\ Z.of_nat (length es) > 0) (rc = 0)) by lia.
    by destruct (decide (r >= Z.of_nat (length es))), (decide (r < Z.of_nat (length es))); try lia.
Qed.

(** ** A page of three nodes *)

Definition some_node (k : list Z) : node := Node 1 0 k [7].

Definition three_nodes : list entry := [(56, some_node [97]); (34, some_node [98]); (44, some_node [98; 1])].

Definition three_keys : layout :=
  Layout (repeat 0 10 ++ le16 P_LEAF) three_nodes.*1 (repeat 0 12)
    (enc (some_node [98]) ++ (enc (some_node [98; 1]) ++ [0]) ++ enc (some_node [97])).

Lemma three_represents : represents true three_keys three_nodes.
Proof.
  constructor; [reflexivity| | | |reflexivity].
  - repeat constructor; done.
  - repeat (apply Forall_cons; split; [split; [done|]|]); [| | |done].
    + exists (enc (some_node [98]) ++ enc (some_node [98; 1]) ++ [0]), [], []. by vm_compute.
    + exists [], [], ((enc (some_node [98; 1]) ++ [0]) ++ enc (some_node [97])). by vm_compute.
    + exists (enc (some_node [98])), [0], (enc (some_node [97])). by vm_compute.
  - repeat constructor; unfold apart; vm_compute; intuition congruence.
Qed.

Lemma mdb_node_search_spec_witness : exists f, mdb_node_search 4 Cmp_memn 0 [98; 0] (bytes three_keys) = Ret (f, bytes three_keys) /\
  found_at Cmp_memn [98; 0] 0 (node_keys three_nodes) f.
Proof.
  apply (mdb_node_search_spec 4 Cmp_memn 0 [98; 0] three_keys three_nodes).
  - split; [reflexivity|]. split; [|reflexivity]. repeat constructor; done.
  - apply three_represents.
  - reflexivity.
  - reflexivity.
  - done.
  - intros j Hj. change (0 <= j < 3) in Hj. assert (Hc : j = 0 \/ j = 1 \/ j = 2) by lia. by destruct Hc as [->|[->| ->]].
  - intros i j Hij Hj. change (0 <= i < j) in Hij. change (j < 3) in Hj. assert (Hc : (i = 0 /\ j = 1) \/ (i = 0 /\ j = 2) \/ (i = 1 /\ j = 2)) by lia.
    by destruct Hc as [[-> ->]|[[-> ->]|[-> ->]]].
  - cbn. lia.
Defined.
