(* ===== verification/MdbPageOps.v ===== *)
(** * A leaf page as a list of nodes

    Sequences of mdb_node_add and mdb_node_del on a leaf page of the b-tree
    refine insertion and deletion in a list with a count of free bytes. *)

From Stdlib Require Import ZArith Lia.
From stdpp Require Import prelude gmap.
From S2P Require Import Prelude MdbPage MdbPageSpec.

Inductive page_op := Op_add (indx : nat) (k d : list Z) (flags : Z) | Op_del (indx : nat).

(** The nodes, the free bytes between the pointers and the nodes, and the mark of the transaction. *)
Record apage := Apage { a_nodes : list node; a_free : Z; a_error : bool }.

(** [None]: not for this page (an index out of range, data for an overflow page). *)
Definition a_step (nodemax : Z) (op : page_op) (a : apage) : option (Z * apage) :=
  match op with
  | Op_add i k d flags =>
      let n := Node (size d) flags k d in
      if decide ((i <= length (a_nodes a))%nat /\ fits16 (size k) /\ fits 32 (size d) /\ fits16 flags /\
        F_ISSET flags F_BIGDATA = false /\ raw_size n <= nodemax)
      then Some (if decide (node_size n + 2 <= a_free a)
        then (0, Apage (take i (a_nodes a) ++ n :: drop i (a_nodes a)) (a_free a - 2 - node_size n) (a_error a))
        else (MDB_PAGE_FULL, Apage (a_nodes a) (a_free a) true))
      else None
  | Op_del i =>
      match a_nodes a !! i with
      | Some n => Some (0, Apage (take i (a_nodes a) ++ drop (S i) (a_nodes a)) (a_free a + 2 + node_size n) (a_error a))
      | None => None
      end
  end.

Section Steps.
Context {E : Type} (page_new : Z -> ST E (Z + Z)) (psize nodemax : Z) (md_pad : nat).
Abbreviation ncursor := (MdbPage.ncursor (E := E)).

Definition c_step (op : page_op) : ST ncursor Z :=
  match op with
  | Op_add i k d flags => mdb_node_add page_new psize nodemax md_pad i (Some k) (Some (Val (size d) d)) 0 flags
  | Op_del i => on_page (mdb_node_del i md_pad);; mret 0
  end.

Fixpoint c_run (ops : list page_op) : ST ncursor (list Z) :=
  match ops with [] => mret [] | op :: ops => r ← c_step op; rs ← c_run ops; mret (r :: rs) end.

Fixpoint a_run (ops : list page_op) (a : apage) : option (list Z * apage) :=
  match ops with
  | [] => Some ([], a)
  | op :: ops => '(r, a) ← a_step nodemax op a; '(rs, a) ← a_run ops a; Some (r :: rs, a)
  end.

Record page_rel (a : apage) (s : ncursor) : Prop := Page_rel {
  pr_error : txn_error s = a_error a;
  pr_page : exists l es, mc_page s = bytes l /\ layout_ok l /\ represents true l es /\ es.*2 = a_nodes a /\
    Z.of_nat (length (gap l)) = a_free a /\ F_ISSET (pflags l) P_LEAF = true /\ F_ISSET (pflags l) P_LEAF2 = false
}.

Lemma pflags_hd l l' : hd l' = hd l -> pflags l' = pflags l.
Proof. unfold pflags. by intros ->. Qed.

Lemma val_self d : fits 32 (size d) -> val_ok (Val (size d) d) /\ val_bytes (Val (size d) d) = d.
Proof. intros H. split; [split; [exact H|done]|]. unfold val_bytes, size. cbn. by rewrite Nat2Z.id, firstn_all. Qed.

Lemma step_add i k d flags a s r a' : page_rel a s -> F_ISSET flags MDB_RESERVE = false ->
  a_step nodemax (Op_add i k d flags) a = Some (r, a') -> exists s', c_step (Op_add i k d flags) s = Ret (r, s') /\ page_rel a' s'.
Proof.
  intros [He (l & es & Hp & Hl & R & Hes & Hg & Hlf & Hl2)] Hres Ha. cbn [a_step] in Ha.
  case_decide as Hv; [|done]. destruct Hv as (Hi & Hk & Hd & Hf & Hb & Hm). injection Ha as Ha.
  destruct (val_self d Hd) as [Hvo Hvb]. rewrite <- Hes, length_fmap in Hi.
  pose proof (mdb_node_add_spec page_new psize nodemax md_pad l es i (Some k) (Some (Val (size d) d)) 0 flags s) as Spec.
  cbv zeta in Spec. rewrite Hlf in Spec. destruct (Spec Hl R Hi Hp Hl2 Hk) as [Leaf _]. clear Spec.
  assert (Hbig : too_big nodemax flags k (Val (size d) d) = false).
  { unfold too_big. rewrite Hb. cbn. apply bool_decide_eq_false. unfold raw_size in Hm. cbn in *. lia. }
  destruct (Leaf eq_refl k _ eq_refl eq_refl Hvo) as (Full & Fits & _); [by rewrite Hb|]. rewrite Hb, Hbig in Full, Fits. cbn [orb mv_size] in *.
  change (EVEN (NODESIZE + size k + size d)) with (node_size (Node (size d) flags k d)) in *. rewrite Hg in *.
  unfold c_step. case_decide as Hroom; injection Ha as <- <-.
  - destruct Fits as (bs & l' & Hbs & (Hl' & Hhd & _ & Hgap & R') & Erun); [lia|done|].
    unfold leaf_data in Hbs. rewrite Hb, Hres, Hvb in Hbs. subst bs. rewrite u16_fits in * by done. eexists. split; [exact Erun|]. split; [done|].
    exists l', (take i es ++ (upper l - node_size (Node (size d) flags k d), Node (size d) flags k d) :: drop i es).
    rewrite (pflags_hd _ _ Hhd). split_and!; try done; [|cbn [a_free]; lia].
    cbn [a_nodes]. rewrite fmap_app, fmap_cons, fmap_take, fmap_drop, Hes. done.
  - rewrite Full by lia. eexists. split; [reflexivity|]. split; [done|]. by exists l, es.
Qed.

Lemma step_del i a s r a' : page_rel a s -> a_step nodemax (Op_del i) a = Some (r, a') ->
  exists s', c_step (Op_del i) s = Ret (r, s') /\ page_rel a' s'.
Proof.
  intros [He (l & es & Hp & Hl & R & Hes & Hg & Hlf & Hl2)] Ha. cbn [a_step] in Ha. rewrite <- Hes, list_lookup_fmap in Ha.
  destruct (es !! i) as [[o n]|] eqn:Hi; [|done]. cbn in Ha. injection Ha as <- <-.
  pose proof (mdb_node_del_spec l es i md_pad) as Spec. cbv zeta in Spec. rewrite Hlf, Hi in Spec.
  destruct (Spec Hl R Hl2) as (l' & (Hl' & Hhd & _ & Hgap & R') & Erun).
  exists (set_page (bytes l') s). unfold c_step. erewrite bind_ret; [|apply on_page_run; rewrite Hp; exact Erun]. split; [done|].
  split; [done|]. exists l', (moved o (node_size n) <$> take i es ++ drop (S i) es). rewrite (pflags_hd _ _ Hhd).
  split_and!; try done; [|cbn [a_free]; lia]. cbn [a_nodes]. rewrite <- list_fmap_compose, fmap_app, fmap_take, fmap_drop.
  assert (Em : snd ∘ moved o (node_size n) <$> es = es.*2) by (apply list_fmap_ext; by intros ? []). by rewrite Em, Hes.
Qed.

(** C18: a leaf page under mdb_node_add and mdb_node_del is a list of nodes with a count of free bytes: any sequence of
    insertions and deletions that the list allows runs on the page without a fault, gives the same results
    (MDB_PAGE_FULL when the node and its pointer need more than what is free, and then nothing changes but the mark of
    the transaction), and leaves a well-formed page that holds the nodes of the list. *)
Theorem page_ops_refine ops : forall a s rs a', page_rel a s ->
  Forall (fun op => match op with Op_add _ _ _ flags => F_ISSET flags MDB_RESERVE = false | Op_del _ => True end) ops ->
  a_run ops a = Some (rs, a') -> exists s', c_run ops s = Ret (rs, s') /\ page_rel a' s'.
Proof.
  induction ops as [|op ops IH]; intros a s rs a' R F Ha; [injection Ha as <- <-; by exists s|].
  apply Forall_cons in F as [Fop F]. cbn [a_run] in Ha. destruct (a_step nodemax op a) as [[r a1]|] eqn:E1; [|done]. cbn in Ha.
  destruct (a_run ops a1) as [[rs' a2]|] eqn:E2; [|done]. cbn in Ha. injection Ha as <- <-.
  assert (S1 : exists s1, c_step op s = Ret (r, s1) /\ page_rel a1 s1) by (destruct op; [by eapply step_add|by eapply step_del]).
  destruct S1 as (s1 & C1 & R1). destruct (IH _ _ _ _ R1 F E2) as (s' & C2 & R'). exists s'. cbn [c_run].
  by rewrite (bind_ret _ _ _ _ _ C1), (bind_ret _ _ _ _ _ C2).
Qed.
End Steps.

(** ** A page of 64 bytes *)

Definition small_page : layout := Layout (repeat 0 10 ++ le16 P_LEAF) [] (repeat 0 48) [].

Definition small_ops : list page_op :=
  [Op_add 0 [98] [2; 2] 0; Op_add 0 [97] [1] 0; Op_add 1 [97; 98] (repeat 7 11) 0; Op_del 0; Op_add 1 [99] [3] 0].

Lemma page_ops_refine_witness : exists s', c_run (E := unit) (fun _ e => Ret (inl 0, e)) 64 22 0 small_ops
  (Ncursor unit (bytes small_page) false [] tt) = Ret ([0; 0; MDB_PAGE_FULL; 0; 0], s') /\
  page_rel (Apage [Node 2 0 [98] [2; 2]; Node 1 0 [99] [3]] 22 true) s'.
Proof.
  apply (page_ops_refine (E := unit) (fun _ e => Ret (inl 0, e)) 64 22 0 small_ops (Apage [] 48 false)).
  - split; [reflexivity|]. exists small_page, []. split; [reflexivity|]. split.
    { split; [reflexivity|]. split; [constructor|reflexivity]. }
    split; [constructor; try constructor|]. split; [reflexivity|]. split; [reflexivity|]. split; reflexivity.
  - repeat constructor.
  - vm_compute. reflexivity.
Defined.
