(* ===== verification/MdbLeaf2.v ===== *)
(** * Pages of keys of one size (P_LEAF2)

    Such a page has no nodes and no pointers: the keys follow the header.
    mp_lower still grows by two for each key, and mp_upper goes down by the
    rest of its size, so that their difference is what is free. *)

From Stdlib Require Import ZArith Lia.
From stdpp Require Import prelude gmap.
From S2P Require Import Prelude MdbPage MdbPageSpec MdbSearch.

Record kpage := Kpage { k_hd : list Z; k_keys : list (list Z); k_rest : list Z }.

Definition k_lower (p : kpage) : Z := 16 + 2 * Z.of_nat (length (k_keys p)).
Definition k_upper (p : kpage) : Z := k_lower p + Z.of_nat (length (k_rest p)).
Definition k_header (p : kpage) : list Z := k_hd p ++ le16 (k_lower p) ++ le16 (k_upper p).
Definition k_bytes (p : kpage) : page := k_header p ++ concat (k_keys p) ++ k_rest p.

(** A page of keys of [ks] bytes. *)
Record kpage_ok (ks : nat) (p : kpage) : Prop := Kpage_ok {
  ko_hd : length (k_hd p) = 12%nat;
  ko_ks : (2 <= ks)%nat;
  ko_keys : Forall (fun k => length k = ks) (k_keys p);
  ko_total : 16 + Z.of_nat (ks * length (k_keys p) + length (k_rest p)) < 65536;
  ko_leaf : F_ISSET (of16 (drop 10 (k_hd p))) P_LEAF = true;
  ko_leaf2 : F_ISSET (of16 (drop 10 (k_hd p))) P_LEAF2 = true;
  ko_branch : F_ISSET (of16 (drop 10 (k_hd p))) P_BRANCH = false
}.

Lemma length_concat ks (l : list (list Z)) : Forall (fun k => length k = ks) l -> length (concat l) = (ks * length l)%nat.
Proof. induction 1 as [|k l Hk _ IH]; cbn [concat length]; [lia|]. rewrite length_app, Hk, IH. lia. Qed.

Section Page.
Variables (ks : nat) (p : kpage).
Hypothesis Hp : kpage_ok ks p.

Lemma k_bounds : 16 <= k_lower p <= k_upper p /\ k_upper p < 65536.
Proof. destruct Hp as [_ H2 _ Ht _ _ _]. unfold k_upper, k_lower in *. nia. Qed.

Lemma k_header_length : length (k_header p) = 16%nat.
Proof. unfold k_header. by rewrite !length_app, (ko_hd _ _ Hp). Qed.

Lemma k_rd_lower R : rd16 (MP_LOWER 0) (k_header p ++ R) = Ret (k_lower p, k_header p ++ R).
Proof.
  unfold k_header. rewrite <- !app_assoc. apply rd16_word; [by rewrite (ko_hd _ _ Hp)|]. pose proof k_bounds. unfold fits. lia.
Qed.

Lemma k_rd_upper R : rd16 (MP_UPPER 0) (k_header p ++ R) = Ret (k_upper p, k_header p ++ R).
Proof.
  unfold k_header. rewrite <- !app_assoc, (app_assoc (k_hd p)). apply rd16_word; [by rewrite length_app, (ko_hd _ _ Hp)|].
  pose proof k_bounds. unfold fits. lia.
Qed.

Lemma k_flag f R : is_flag 0 f (k_header p ++ R) = Ret (F_ISSET (of16 (drop 10 (k_hd p))) f, k_header p ++ R).
Proof.
  unfold is_flag, k_header. rewrite <- (take_drop 10 (k_hd p)) at 1 3. rewrite <- !app_assoc. erewrite bind_ret; [reflexivity|].
  apply rd16_at; [rewrite length_take | rewrite length_drop]; by rewrite (ko_hd _ _ Hp).
Qed.

Lemma k_NUMKEYS R : NUMKEYS 0 (k_header p ++ R) = Ret (Z.of_nat (length (k_keys p)), k_header p ++ R).
Proof.
  unfold NUMKEYS. rewrite (bind_ret _ _ _ _ _ (k_rd_lower R)). unfold mret, ST_ret. do 2 f_equal.
  pose proof k_bounds. rewrite wrap_fits by (unfold fits, PAGEHDRSZ; lia). unfold k_lower, PAGEHDRSZ.
  rewrite Z.shiftr_div_pow2 by lia. change (2 ^ 1) with 2. dlia.
Qed.

Lemma k_write f g R :
  (l ← rd16 (MP_LOWER 0); wr16 (MP_LOWER 0) (f l);; u ← rd16 (MP_UPPER 0); wr16 (MP_UPPER 0) (g u)) (k_header p ++ R) =
  Ret (tt, k_hd p ++ le16 (f (k_lower p)) ++ le16 (g (k_upper p)) ++ R).
Proof.
  rewrite (bind_ret _ _ _ _ _ (k_rd_lower R)). unfold k_header. rewrite <- !app_assoc. pose proof (ko_hd _ _ Hp) as H12.
  erewrite bind_ret; [|by apply wr16_at]. rewrite (app_assoc (k_hd p)). erewrite bind_ret.
  2: { apply rd16_word; [by rewrite length_app, H12|]. pose proof k_bounds. unfold fits. lia. }
  rewrite wr16_at; [by rewrite <- app_assoc|by rewrite length_app, H12|done].
Qed.

Lemma k_split i : (i <= length (k_keys p))%nat ->
  k_bytes p = (k_header p ++ concat (take i (k_keys p))) ++ concat (drop i (k_keys p)) ++ k_rest p /\
  length (k_header p ++ concat (take i (k_keys p))) = LEAF2KEY 0 i ks /\
  length (concat (drop i (k_keys p))) = ((length (k_keys p) - i) * ks)%nat.
Proof.
  intros Hi. pose proof (ko_keys _ _ Hp) as F. split; [|split].
  - unfold k_bytes. rewrite <- (take_drop i (k_keys p)) at 1. by rewrite concat_app, <- !app_assoc.
  - rewrite length_app, k_header_length, (length_concat ks) by by apply Forall_take. rewrite length_take, Nat.min_l by lia. unfold LEAF2KEY. lia.
  - rewrite (length_concat ks) by by apply Forall_drop. rewrite length_drop. apply Nat.mul_comm.
Qed.

(** The keys and the free bytes after an operation. *)
Definition becomes (keys : list (list Z)) (free : Z) (p' : kpage) : Prop :=
  kpage_ok ks p' /\ k_hd p' = k_hd p /\ k_keys p' = keys /\ Z.of_nat (length (k_rest p')) = free.

Lemma insert_ok i k rest : (i <= length (k_keys p))%nat -> length k = ks -> (ks <= length (k_rest p))%nat ->
  length rest = (length (k_rest p) - ks)%nat ->
  becomes (take i (k_keys p) ++ k :: drop i (k_keys p)) (Z.of_nat (length (k_rest p)) - Z.of_nat ks)
    (Kpage (k_hd p) (take i (k_keys p) ++ k :: drop i (k_keys p)) rest).
Proof.
  intros Hi Hk Hr Hrest. destruct Hp as [? ? F ? ? ? ?]. split; [|split; [done|split; [done|cbn; lia]]]. constructor; try done; cbn [k_keys k_rest].
  - apply Forall_app. split; [by apply Forall_take|]. constructor; [done|by apply Forall_drop].
  - rewrite length_app. cbn [length]. rewrite length_take, length_drop. nia.
Qed.

Lemma delete_ok i rest : (i < length (k_keys p))%nat -> length rest = (length (k_rest p) + ks)%nat ->
  becomes (take i (k_keys p) ++ drop (S i) (k_keys p)) (Z.of_nat (length (k_rest p)) + Z.of_nat ks)
    (Kpage (k_hd p) (take i (k_keys p) ++ drop (S i) (k_keys p)) rest).
Proof.
  intros Hi Hrest. destruct Hp as [? ? F ? ? ? ?]. split; [|split; [done|split; [done|cbn; lia]]]. constructor; try done; cbn [k_keys k_rest].
  - apply Forall_app. split; [by apply Forall_take|by apply Forall_drop].
  - rewrite length_app, length_take, length_drop. nia.
Qed.

Lemma leaf2_add_run i key : (i <= length (k_keys p))%nat -> (ks <= length key)%nat -> (ks <= length (k_rest p))%nat ->
  exists p', leaf2_add ks i key (k_bytes p) = Ret (tt, k_bytes p') /\
    becomes (take i (k_keys p) ++ take ks key :: drop i (k_keys p)) (Z.of_nat (length (k_rest p)) - Z.of_nat ks) p'.
Proof.
  intros Hi Hk Hr. pose proof k_bounds as Hb. pose proof (ko_ks _ _ Hp) as H2. destruct (k_split i Hi) as (Eb & HQ & HA).
  set (A := concat (drop i (k_keys p))) in *. set (pre := concat (take i (k_keys p))) in *.
  assert (HM : length (take ks (k_rest p)) = ks) by (rewrite length_take; lia).
  set (p' := Kpage (k_hd p) (take i (k_keys p) ++ take ks key :: drop i (k_keys p)) (drop ks (k_rest p))). exists p'.
  assert (E1 : k_lower p' = k_lower p + 2) by (unfold k_lower; cbn; rewrite length_app; cbn; rewrite length_take, length_drop; lia).
  assert (E2 : k_upper p' = k_upper p - (Z.of_nat ks - 2)) by (unfold k_upper; rewrite E1; cbn; rewrite length_drop; lia).
  split; [|apply insert_ok; rewrite ?length_take, ?length_drop; lia].
  unfold leaf2_add. erewrite bind_ret; [|unfold k_bytes; apply k_NUMKEYS]. fold (k_bytes p).
  assert (Em : (let dif := Z.of_nat (length (k_keys p)) - Z.of_nat i in
     if decide (dif > 0) then memmove (LEAF2KEY 0 i ks + ks) (LEAF2KEY 0 i ks) (Z.to_nat dif * ks) else mret tt) (k_bytes p) =
     Ret (tt, (k_header p ++ pre) ++ take ks (A ++ take ks (k_rest p)) ++ A ++ drop ks (k_rest p))).
  { cbv zeta. rewrite Eb. rewrite <- (take_drop ks (k_rest p)) at 1.
    pose proof (memmove_up (k_header p ++ pre) A (take ks (k_rest p)) (drop ks (k_rest p))) as M. rewrite HQ, HM, HA in M.
    case_decide as Hd; [by replace (Z.to_nat (Z.of_nat (length (k_keys p)) - Z.of_nat i)) with (length (k_keys p) - i)%nat by lia|].
    assert (HA0 : A = []) by (apply nil_length_inv; rewrite HA; nia). rewrite HA0. cbn [app]. by rewrite take_take, Nat.min_id. }
  rewrite (bind_ret _ _ _ _ _ Em). erewrite bind_ret; [|unfold plift; by rewrite peek_take by lia].
  erewrite bind_ret; [|apply wr_at; [exact HQ|]].
  2: { rewrite !length_take, length_app, HM. lia. }
  rewrite <- app_assoc, k_write, !u16_fits by (unfold fits; unfold k_upper in *; lia).
  unfold k_bytes, k_header. rewrite E1, E2. unfold p'. cbn [k_hd k_keys k_rest].
  rewrite concat_app. cbn [concat]. by rewrite <- !app_assoc.
Qed.

(** [memmove] to lower addresses. *)
Lemma memmove_down Q M A B : memmove (length Q) (length Q + length M) (length A) (Q ++ M ++ A ++ B) =
  Ret (tt, Q ++ A ++ drop (length A) (M ++ A) ++ B).
Proof.
  unfold memmove. case_decide as HA; [apply nil_length_inv in HA as ->; cbn [app length drop]; by rewrite app_nil_r|].
  erewrite bind_ret; [|rewrite (app_assoc Q); apply rd_at; [by rewrite length_app|done]].
  assert (E : M ++ A ++ B = take (length A) (M ++ A) ++ drop (length A) (M ++ A) ++ B) by (rewrite app_assoc, (app_assoc (take _ _)), take_drop; done).
  rewrite <- (app_assoc Q), E. apply wr_at; [done|]. rewrite length_take, length_app. lia.
Qed.

Lemma leaf2_del_run i : (i < length (k_keys p))%nat ->
  exists p', leaf2_del i ks (Z.of_nat (length (k_keys p))) (k_bytes p) = Ret (tt, k_bytes p') /\
    becomes (take i (k_keys p) ++ drop (S i) (k_keys p)) (Z.of_nat (length (k_rest p)) + Z.of_nat ks) p'.
Proof.
  intros Hi. pose proof k_bounds as Hb. pose proof (ko_ks _ _ Hp) as H2. pose proof (ko_total _ _ Hp) as Ht.
  destruct (k_split i ltac:(lia)) as (Eb & HQ & _). destruct (k_split (S i) Hi) as (_ & _ & HA).
  destruct (lookup_lt_is_Some_2 _ _ Hi) as [k Hk]. rewrite (drop_S _ _ _ Hk) in Eb. cbn [concat] in Eb. rewrite <- (app_assoc k) in Eb.
  set (A := concat (drop (S i) (k_keys p))) in *. set (pre := concat (take i (k_keys p))) in *.
  assert (Hkl : length k = ks) by exact (Forall_lookup_1 _ _ _ _ (ko_keys _ _ Hp) Hk).
  set (p' := Kpage (k_hd p) (take i (k_keys p) ++ drop (S i) (k_keys p)) (drop (length A) (k ++ A) ++ k_rest p)). exists p'.
  assert (HX : length (drop (length A) (k ++ A)) = ks) by (rewrite length_drop, length_app; lia).
  assert (E1 : k_lower p' = k_lower p - 2) by (unfold k_lower; cbn; rewrite length_app, length_take, length_drop; lia).
  assert (E2 : k_upper p' = k_upper p + (Z.of_nat ks - 2)) by (unfold k_upper; rewrite E1; cbn; rewrite length_app, HX; lia).
  split; [|apply delete_ok; [done|rewrite length_app, HX; lia]]. unfold leaf2_del.
  assert (Em : (let x := Z.of_nat (length (k_keys p)) - 1 - Z.of_nat i in
     if decide (x <> 0) then memmove (LEAF2KEY 0 i ks) (LEAF2KEY 0 i ks + ks) (Z.to_nat x * ks) else mret tt) (k_bytes p) =
     Ret (tt, (k_header p ++ pre) ++ A ++ drop (length A) (k ++ A) ++ k_rest p)).
  { cbv zeta. rewrite Eb. pose proof (memmove_down (k_header p ++ pre) k A (k_rest p)) as M. rewrite HQ, Hkl, HA in M.
    case_decide as Hd; [rewrite HA; by replace (Z.to_nat (Z.of_nat (length (k_keys p)) - 1 - Z.of_nat i)) with (length (k_keys p) - S i)%nat by lia|].
    assert (HA0 : A = []) by (apply nil_length_inv; rewrite HA; nia). rewrite HA0. cbn [app length drop]. by rewrite app_nil_r. }
  cbv zeta in Em |- *. rewrite (bind_ret _ _ _ _ _ Em). rewrite <- app_assoc, k_write.
  assert (k_upper p' < 65536) by (unfold k_upper, k_lower; cbn; rewrite !length_app, HX, length_take, length_drop; nia).
  rewrite !u16_fits by (unfold fits; unfold k_upper, k_lower in *; lia).
  unfold k_bytes, k_header. rewrite E1, E2. unfold p'. cbn [k_hd k_keys k_rest].
  rewrite concat_app. by rewrite <- !app_assoc.
Qed.
End Page.

(** adding and deleting a key on a page of keys of one size: mdb_node_add puts the first bytes of the key (which
    must be as many as a key of the page has) at the index, mdb_node_del takes the key at the index out; the others
    keep their order, the header but for mp_lower and mp_upper stays, and what is free changes by the size of a key.
    The caller has made sure that there is room. *)
Theorem leaf2_spec {E} (page_new : Z -> ST E (Z + Z)) psize nodemax ks p i : kpage_ok ks p ->
  (forall key data pgno flags (s : MdbPage.ncursor (E := E)), (i <= length (k_keys p))%nat -> (ks <= length key)%nat ->
     (ks <= length (k_rest p))%nat -> mc_page s = k_bytes p ->
     exists p', mdb_node_add page_new psize nodemax ks i (Some key) data pgno flags s = Ret (0, set_page (k_bytes p') s) /\
       becomes ks p (take i (k_keys p) ++ take ks key :: drop i (k_keys p)) (Z.of_nat (length (k_rest p)) - Z.of_nat ks) p') /\
  ((i < length (k_keys p))%nat ->
     exists p', mdb_node_del i ks (k_bytes p) = Ret (tt, k_bytes p') /\
       becomes ks p (take i (k_keys p) ++ drop (S i) (k_keys p)) (Z.of_nat (length (k_rest p)) + Z.of_nat ks) p').
Proof.
  intros Hp. pose proof (k_bounds _ _ Hp) as Hb. split.
  - intros key data pgno flags s Hi Hk Hr Hs. destruct (leaf2_add_run ks p Hp i key Hi Hk Hr) as (p' & E1 & B).
    exists p'. split; [|done]. unfold mdb_node_add.
    erewrite bind_ret; [|apply on_page_same; rewrite Hs; by apply (k_rd_upper ks)].
    erewrite bind_ret; [|apply on_page_same; rewrite Hs; by apply (k_rd_lower ks)].
    unfold cassert at 1. rewrite bool_decide_true by lia. erewrite bind_ret; [|reflexivity].
    erewrite bind_ret; [|apply on_page_same; rewrite Hs; by apply (k_flag ks)]. rewrite (ko_leaf2 _ _ Hp).
    by erewrite bind_ret; [|apply on_page_run; rewrite Hs; exact E1].
  - intros Hi. destruct (leaf2_del_run ks p Hp i Hi) as (p' & E1 & B). exists p'. split; [|done]. unfold mdb_node_del.
    erewrite bind_ret; [|by apply (k_NUMKEYS ks)].
    rewrite u16_fits by (unfold fits, k_upper, k_lower in *; lia). rewrite decide_True by lia.
    erewrite bind_ret; [|by apply (k_flag ks)]. by rewrite (ko_leaf2 _ _ Hp).
Qed.

Lemma k_key_at ks p j k : kpage_ok ks p -> k_keys p !! j = Some k -> key_at true ks j (k_bytes p) = Ret (k, k_bytes p).
Proof.
  intros Hp Hk. pose proof (lookup_lt_Some _ _ _ Hk) as Hj. destruct (k_split ks p Hp j ltac:(lia)) as (Eb & HQ & _).
  rewrite (drop_S _ _ _ Hk) in Eb. cbn [concat] in Eb. rewrite <- (app_assoc k) in Eb. unfold key_at. rewrite Eb.
  apply rd_at; [done|]. exact (Forall_lookup_1 _ _ _ _ (ko_keys _ _ Hp) Hk).
Qed.

(** mdb_node_search on a page of sorted keys of one size: the place of the key, as on a page of nodes; the node
    that is returned only says that there is one. *)
Theorem leaf2_search_spec fuel c ks key p : kpage_ok ks p -> (2 <= length (concat (k_keys p)) + length (k_rest p))%nat ->
  (forall j, 0 <= j < Z.of_nat (length (k_keys p)) -> keys_fit c key (key_of (k_keys p) j)) ->
  sorted_keys c 0 (k_keys p) -> (length (k_keys p) < fuel)%nat ->
  exists f, mdb_node_search fuel c ks key (k_bytes p) = Ret (f, k_bytes p) /\ found_at c key 0 (k_keys p) f.
Proof.
  intros Hp Hroom Hfit Hs Hf. pose proof (k_bounds _ _ Hp) as Hb. unfold mdb_node_search.
  erewrite bind_ret; [|by apply (k_NUMKEYS ks)]. erewrite bind_ret; [|by apply (k_flag ks)]. rewrite (ko_leaf _ _ Hp).
  erewrite bind_ret; [|by apply (k_flag ks)]. rewrite (ko_branch _ _ Hp). fold (k_bytes p).
  assert (Hc : (match c with
     | Cmp_cint => if false then node ← NODEPTR 0 1; k ← rd16 (mn_ksize node); mret (if decide (k = 8) then Cmp_long else Cmp_int) else mret c
     | _ => mret c
     end) (k_bytes p) = Ret (c, k_bytes p)) by by destruct c.
  rewrite (bind_ret _ _ _ _ _ Hc). erewrite bind_ret; [|by apply (k_flag ks)]. rewrite (ko_leaf2 _ _ Hp). fold (k_bytes p).
  destruct (rd16_any (k_bytes p) (MP_PTRS 0 0)) as (v & Ev).
  { unfold k_bytes. rewrite !length_app, (k_header_length _ _ Hp). unfold MP_PTRS. lia. }
  assert (Hfake : (NODEPTR 0 0;; mret tt) (k_bytes p) = Ret (tt, k_bytes p))
    by (unfold NODEPTR; unfold mbind, ST_bind, outcome_bind in *; by rewrite Ev).
  rewrite (bind_ret _ _ _ _ _ Hfake). rewrite swrap_small by (unfold k_upper, k_lower in *; lia).
  destruct (decide (length (k_keys p) = 0%nat)) as [H0|H0].
  - destruct fuel as [|fuel]; [lia|]. rewrite H0. cbn. eexists. split; [reflexivity|].
    unfold found_at. rewrite H0. cbn. split; [lia|]. split; [done|].
    split; [split; [done|intros [H _]; lia]|]. split; [intros; lia|]. split; [intros; lia|]. intros. lia.
  - destruct (page_search (k_bytes p) (k_keys p) true ks c key 0 fuel) as (i & rc & E & F); [intros j k; by apply k_key_at|lia|done|done|done|].
    rewrite (bind_ret _ _ _ _ _ E). eexists. split; [|exact F]. cbv beta iota.
    set (r := if decide (rc > 0) then i + 1 else i) in *.
    assert (Et : (if decide (rc > 0) then mret tt;; mret (i + 1) else mret i : ST page Z) (k_bytes p) = Ret (r, k_bytes p)) by (unfold r; by destruct (decide (rc > 0))).
    rewrite (bind_ret _ _ _ _ _ Et). cbv zeta.
    rewrite (bool_decide_ext (rc = 0 /\ Z.of_nat (length (k_keys p)) > 0) (rc = 0)) by lia.
    by destruct (decide (r >= Z.of_nat (length (k_keys p)))), (decide (r < Z.of_nat (length (k_keys p)))); try lia.
Qed.
