(* ===== verification/MdbTree.v ===== *)
(** * Reading the b-tree of LMDB (src/liblmdb/mdb.c)

    Cursors and mdb_get in a read-only transaction: the pages are in the map
    ([me_map], its bytes), the dirty lists are not looked at.  The data base is
    one without MDB_DUPSORT, whose cursors have a NULL mc_xcursor, and its record
    is up to date (not DB_STALE).  The key and data arguments are not NULL.
    The proofs are in MdbTreeSpec.v. *)

From Stdlib Require Import ZArith Lia.
From stdpp Require Import prelude gmap.
From S2P Require Import Prelude MdbPage.

Definition EINVAL : Z := 22.
Definition MDB_NOTFOUND : Z := -30798.
Definition MDB_PAGE_NOTFOUND : Z := -30797.
Definition MDB_CORRUPTED : Z := -30796.
Definition MDB_CURSOR_FULL : Z := -30787.
Definition MDB_INCOMPATIBLE : Z := -30784.
Definition MDB_BAD_TXN : Z := -30782.
Definition MDB_BAD_VALSIZE : Z := -30781.
Definition P_INVALID : Z := 2 ^ 64 - 1.
Definition CURSOR_STACK : nat := 32.

(** mc_pg[i] and mc_ki[i]; a pointer into the map is an offset, [None] is NULL. *)
Record frame := Frame { f_pg : option nat; f_ki : Z }.

(** The cursor and the flags of its transaction.  [frames] goes beyond mc_snum
    when pages were popped. *)
Record rcursor := Rcursor {
  frames : list frame;
  mc_snum : nat;
  C_INITIALIZED : bool;
  C_EOF : bool;
  C_DEL : bool;
  TXN_ERROR : bool
}.

(** mdb_page_search without MDB_PS_MODIFY and MDB_PS_ROOTONLY. *)
Inductive search_flags := PS_KEY (key : list Z) | PS_FIRST | PS_LAST.

Inductive cursor_op :=
  | MDB_FIRST | MDB_FIRST_DUP | MDB_GET_BOTH | MDB_GET_BOTH_RANGE | MDB_GET_CURRENT | MDB_GET_MULTIPLE
  | MDB_LAST | MDB_LAST_DUP | MDB_NEXT | MDB_NEXT_DUP | MDB_NEXT_MULTIPLE | MDB_NEXT_NODUP
  | MDB_PREV | MDB_PREV_DUP | MDB_PREV_NODUP | MDB_SET | MDB_SET_KEY | MDB_SET_RANGE | MDB_PREV_MULTIPLE.

#[export] Instance cursor_op_dec : EqDecision cursor_op.
Proof. solve_decision. Defined.

(** The return code and, when it is 0, what key and data are set to (when it is not, a caller does not use them). *)
Record reply := Reply { r_rc : Z; r_key : option (list Z); r_data : option MDB_val }.

Definition failed_with (rc : Z) : reply := Reply rc None None.

Section Reading.
(** The page size, the map, the end of the snapshot, the root of the data base, and the data base. *)
Variables (psize : nat) (me_map : list Z) (mt_next_pgno md_root mc_dbi : Z) (md_cmp : md_cmp) (md_pad : nat).

Abbreviation RC := (ST rcursor).

(** ** The stack *)

Definition set_snum (n : nat) : RC unit :=
  modify (fun s => Rcursor (frames s) n (C_INITIALIZED s) (C_EOF s) (C_DEL s) (TXN_ERROR s)).
Definition set_flags (init eof : bool) : RC unit :=
  modify (fun s => Rcursor (frames s) (mc_snum s) init eof (C_DEL s) (TXN_ERROR s)).
Definition set_eof (eof : bool) : RC unit := s ← gets id; set_flags (C_INITIALIZED s) eof.
Definition clear_del : RC unit :=
  modify (fun s => Rcursor (frames s) (mc_snum s) (C_INITIALIZED s) (C_EOF s) false (TXN_ERROR s)).
Definition txn_fail : RC unit :=
  modify (fun s => Rcursor (frames s) (mc_snum s) (C_INITIALIZED s) (C_EOF s) (C_DEL s) true).

Definition mc_top (s : rcursor) : nat := mc_snum s - 1.

Definition frame_at (i : nat) : RC frame := fun s => f ← of_option (frames s !! i); Ret (f, s).

(** Slots are filled from the first on: one beyond the next is not written. *)
Definition put_frame (i : nat) (f : frame) : RC unit := fun s =>
  if decide (i <= length (frames s))%nat then
    Ret (tt, Rcursor (take i (frames s) ++ f :: drop (S i) (frames s)) (mc_snum s) (C_INITIALIZED s) (C_EOF s) (C_DEL s) (TXN_ERROR s))
  else Undef.

Definition top_frame : RC frame := s ← gets id; frame_at (mc_top s).

(** mc_pg[mc_top] and mc_ki[mc_top]. *)
Definition top_page : RC nat := f ← top_frame; match f_pg f with Some a => mret a | None => undef end.
Definition top_ki : RC Z := f ← top_frame; mret (f_ki f).
Definition set_ki (v : Z) : RC unit := s ← gets id; f ← top_frame; put_frame (mc_top s) (Frame (f_pg f) (u16 v)).

(** Reading in the page at the offset [a] of the map. *)
Definition at_page {A} (a : nat) (m : ST page A) : RC A := fun s =>
  p ← of_option (peek me_map a psize); '(x, _) ← m p; Ret (x, s).

Definition cassert (b : bool) : RC unit := fun s => if b then Ret (tt, s) else Abort.

Definition mdb_cursor_pop : RC unit :=
  s ← gets id;
  if decide (mc_snum s = 0)%nat then mret tt
  else set_snum (mc_snum s - 1);; if decide (mc_snum s - 1 = 0)%nat then set_flags false (C_EOF s) else mret tt.

Definition mdb_cursor_push (mp : nat) : RC Z :=
  s ← gets id;
  if decide (CURSOR_STACK <= mc_snum s)%nat then txn_fail;; mret MDB_CURSOR_FULL
  else put_frame (mc_snum s) (Frame (Some mp) 0);; set_snum (S (mc_snum s));; mret 0.

(** ** Pages *)

Definition mdb_page_get (pgno : Z) : RC (Z + nat) :=
  if decide (pgno >= mt_next_pgno) then txn_fail;; mret (inl MDB_PAGE_NOTFOUND)
  else mret (inr (psize * Z.to_nat pgno)%nat).

Definition mp_pgno : ST page Z := bs ← rd 0 8; mret (le_val bs).

(** mdb_node_search on the top page; it sets the index of the cursor. *)
Definition node_search (key : list Z) : RC found :=
  a ← top_page; f ← at_page a (mdb_node_search (S psize) md_cmp md_pad key); set_ki (mc_ki f);; mret f.

(** The child of the node [i] of the page [mp]. *)
Definition child (mp : nat) (i : Z) : RC (Z + nat) :=
  pgno ← at_page mp (node ← NODEPTR 0 (Z.to_nat i); NODEPGNO node); mdb_page_get pgno.

(** To the child [i] of the page [mp] of [n] keys, and on. *)
Definition go_down (mp : nat) (n : Z) (on : RC Z) (i : Z) : RC Z :=
  cassert (bool_decide (i < n));;
  r ← child mp i;
  match r with
  | inl rc => mret rc
  | inr mp => set_ki i;; rc ← mdb_cursor_push mp; if decide (rc = 0) then on else mret rc
  end.

Fixpoint mdb_page_search_root (fuel : nat) (flags : search_flags) : RC Z :=
  match fuel with
  | O => no_fuel
  | S fuel =>
      mp ← top_page;
      branch ← at_page mp (IS_BRANCH 0);
      if branch : bool then
        n ← at_page mp (NUMKEYS 0);
        cassert (bool_decide (mc_dbi = 0 \/ n > 1));;
        let down := go_down mp n (mdb_page_search_root fuel flags) in
        match flags with
        | PS_FIRST => down 0
        | PS_LAST =>
            let i := u16 (n - 1) in
            s ← gets id;
            ki ← top_ki;
            if C_INITIALIZED s && bool_decide (ki = i) then set_snum (S (mc_snum s));; mdb_page_search_root fuel flags
            else down i
        | PS_KEY key =>
            f ← node_search key;
            match f_node f with
            | None => down (u16 (n - 1))
            | Some _ =>
                i ← top_ki;
                if exactp f then down i else cassert (bool_decide (i > 0));; down (i - 1)
            end
        end
      else
        leaf ← at_page mp (IS_LEAF 0);
        if leaf : bool then set_flags true false;; mret 0 else txn_fail;; mret MDB_CORRUPTED
  end.

(** A page that is not the root is put at the bottom of the stack. *)
Definition root_page : RC Z :=
  f ← frame_at 0;
  known ← (match f_pg f with None => mret false | Some a => pgno ← at_page a mp_pgno; mret (bool_decide (pgno = md_root)) end);
  if known : bool then mret 0
  else
    r ← mdb_page_get md_root;
    match r with
    | inl rc => mret rc
    | inr a => put_frame 0 (Frame (Some a) (f_ki f));; mret 0
    end.

(** MDB_TXN_BLOCKED: the transaction failed, or ([halted]) is finished or has a child. *)
Definition is_blocked (halted : bool) : RC bool := s ← gets id; mret (halted || TXN_ERROR s).

Definition mdb_page_search (halted : bool) (flags : search_flags) : RC Z :=
  blocked ← is_blocked halted;
  if blocked : bool then mret MDB_BAD_TXN
  else if decide (md_root = P_INVALID) then mret MDB_NOTFOUND
  else
    cassert (bool_decide (md_root > 1));;
    rc ← root_page;
    if decide (rc <> 0) then mret rc
    else set_snum 1;; mdb_page_search_root (S CURSOR_STACK) flags.

(** The data of the node at [leaf] of the page [mp]: on the page, or on overflow pages. *)
Definition mdb_node_read (mp leaf : nat) : RC reply :=
  fl ← at_page mp (rd16 (mn_flags leaf));
  d ← at_page mp (NODEDSZ leaf);
  a ← at_page mp (NODEDATA leaf);
  if F_ISSET fl F_BIGDATA then
    bs ← at_page mp (rd a 8);
    r ← mdb_page_get (le_val bs);
    match r with
    | inl rc => mret (failed_with rc)
    | inr omp => mret (Reply 0 None (Some (Val d (drop (omp + 16) me_map))))
    end
  else
    p ← at_page mp (gets id);
    mret (Reply 0 None (Some (Val d (drop a p)))).

(** ** mdb_cursor_sibling *)

Fixpoint mdb_cursor_sibling (fuel : nat) (move_right : bool) : RC Z :=
  match fuel with
  | O => no_fuel
  | S fuel =>
      s ← gets id;
      if decide (mc_snum s < 2)%nat then mret MDB_NOTFOUND
      else
        mdb_cursor_pop;;
        mp ← top_page; ki ← top_ki; n ← at_page mp (NUMKEYS 0);
        rc ← (if (if move_right then bool_decide (ki + 1 >= n) else bool_decide (ki = 0))
              then mdb_cursor_sibling fuel move_right
              else set_ki (if move_right then ki + 1 else ki - 1);; mret 0);
        if decide (rc <> 0) then s ← gets id; set_snum (S (mc_snum s));; mret rc
        else
          mp ← top_page;
          branch ← at_page mp (IS_BRANCH 0); cassert branch;;
          ki ← top_ki;
          r ← child mp ki;
          match r with
          | inl rc => set_flags false false;; mret rc
          | inr mp =>
              mdb_cursor_push mp;;
              (if move_right then mret tt else n ← at_page mp (NUMKEYS 0); set_ki (n - 1));;
              mret 0
          end
  end.

Definition sibling (move_right : bool) : RC Z := s ← gets id; mdb_cursor_sibling (S (mc_snum s)) move_right.

(** ** Moving the cursor *)

(** MDB_GET_KEY *)
Definition node_key (mp leaf : nat) : RC (list Z) :=
  k ← at_page mp (rd16 (mn_ksize leaf)); at_page mp (rd (NODEKEY leaf) (Z.to_nat k)).

(** The key on a page of keys of one size; the data is not touched. *)
Definition leaf2_reply (mp : nat) (ki : Z) : RC reply :=
  k ← at_page mp (rd (LEAF2KEY 0 (Z.to_nat ki) md_pad) md_pad); mret (Reply 0 (Some k) None).

(** The key and the data of a node; mdb_xcursor_init1 would use the NULL mc_xcursor. *)
Definition node_reply (mp leaf : nat) : RC reply :=
  fl ← at_page mp (rd16 (mn_flags leaf));
  if F_ISSET fl F_DUPDATA then undef
  else
    r ← mdb_node_read mp leaf;
    if decide (r_rc r <> 0) then mret r
    else k ← node_key mp leaf; mret (Reply 0 (Some k) (r_data r)).

Definition mdb_cursor_first (halted : bool) : RC reply :=
  s ← gets id;
  rc ← (if negb (C_INITIALIZED s) || negb (bool_decide (mc_top s = 0)%nat) then mdb_page_search halted PS_FIRST else mret 0);
  if decide (rc <> 0) then mret (failed_with rc)
  else
    mp ← top_page;
    isleaf ← at_page mp (IS_LEAF 0); cassert isleaf;;
    leaf ← at_page mp (NODEPTR 0 0);
    set_flags true false;;
    set_ki 0;;
    leaf2 ← at_page mp (IS_LEAF2 0);
    if leaf2 : bool then leaf2_reply mp 0 else node_reply mp leaf.

Definition mdb_cursor_last (halted : bool) : RC reply :=
  s ← gets id;
  rc ← (if negb (C_INITIALIZED s) || negb (bool_decide (mc_top s = 0)%nat) then mdb_page_search halted PS_LAST else mret 0);
  if decide (rc <> 0) then mret (failed_with rc)
  else
    mp ← top_page;
    isleaf ← at_page mp (IS_LEAF 0); cassert isleaf;;
    n ← at_page mp (NUMKEYS 0);
    set_ki (n - 1);;
    set_flags true true;;
    ki ← top_ki;
    leaf ← at_page mp (NODEPTR 0 (Z.to_nat ki));
    leaf2 ← at_page mp (IS_LEAF2 0);
    if leaf2 : bool then leaf2_reply mp ki else node_reply mp leaf.

(** The item under the cursor, after a move. *)
Definition here (corrupted : bool) : RC reply :=
  mp ← top_page; ki ← top_ki;
  isleaf ← at_page mp (IS_LEAF 0);
  if corrupted && negb isleaf then mret (failed_with MDB_CORRUPTED)
  else
    leaf2 ← at_page mp (IS_LEAF2 0);
    if leaf2 : bool then leaf2_reply mp ki
    else
      cassert isleaf;;
      leaf ← at_page mp (NODEPTR 0 (Z.to_nat ki)); node_reply mp leaf.

Definition mdb_cursor_next (halted : bool) (op : cursor_op) : RC reply :=
  s ← gets id;
  if C_DEL s && bool_decide (op = MDB_NEXT_DUP) then mret (failed_with MDB_NOTFOUND)
  else if negb (C_INITIALIZED s) then mdb_cursor_first halted
  else
    mp ← top_page; ki ← top_ki; n ← at_page mp (NUMKEYS 0);
    if C_EOF s && bool_decide (ki >= wrap 32 (n - 1)) then mret (failed_with MDB_NOTFOUND)
    else
      (if C_EOF s then set_eof false else mret tt);;
      if C_DEL s then clear_del;; here false
      else if decide (ki + 1 >= n) then
        rc ← sibling true;
        if decide (rc <> 0) then set_eof true;; mret (failed_with rc) else here false
      else set_ki (ki + 1);; here false.

Definition mdb_cursor_prev (halted : bool) : RC reply :=
  s ← gets id;
  rc ← (if C_INITIALIZED s then mret 0
        else
          r ← mdb_cursor_last halted;
          if decide (r_rc r <> 0) then mret (r_rc r) else ki ← top_ki; set_ki (ki + 1);; mret 0);
  if decide (rc <> 0) then mret (failed_with rc)
  else
    set_eof false;; clear_del;;
    ki ← top_ki;
    if decide (ki = 0) then
      rc ← sibling false;
      if decide (rc <> 0) then mret (failed_with rc)
      else mp ← top_page; n ← at_page mp (NUMKEYS 0); set_ki (n - 1);; here true
    else set_ki (ki - 1);; here true.

(** ** mdb_cursor_set *)

Inductive jump := Jreturn (rc : Z) | Jset1 (leaf : nat) | Jset2 | Jsearch.

(** The node [i] and its key; on a page of P_LEAF2 the node stays NULL (here 0, not used). *)
Definition key_of_node (mp : nat) (i : Z) : RC (nat * list Z) :=
  w ← at_page mp (rd16 (MP_FLAGS 0));
  if decide (Z.land w P_LEAF2 <> 0) then
    k ← at_page mp (rd (LEAF2KEY 0 (Z.to_nat i) md_pad) md_pad); mret (0%nat, k)
  else leaf ← at_page mp (NODEPTR 0 (Z.to_nat i)); k ← node_key mp leaf; mret (leaf, k).

Definition clift {A} (m : outcome A) : RC A := fun s => a ← m; Ret (a, s).

(** [for (i=0; i<mc->mc_top; i++)]: some parent has a sibling to the right. *)
Fixpoint parents_right (n i : nat) : RC bool :=
  match n with
  | O => mret false
  | S n =>
      f ← frame_at i;
      match f_pg f with
      | None => undef
      | Some a => k ← at_page a (NUMKEYS 0); if decide (f_ki f < wrap 32 (k - 1)) then mret true else parents_right n (S i)
      end
  end.

(** The key is above the first one of the page. *)
Definition set_above (mp : nat) (n : Z) (key : list Z) : RC jump :=
  let others : RC jump :=
    s ← gets id;
    more ← parents_right (mc_top s) 0;
    if more : bool then mret Jsearch
    else set_ki n;; mret (Jreturn MDB_NOTFOUND) in
  if decide (n > 1) then
    '(leaf, k) ← key_of_node mp (n - 1);
    rc ← clift (run_cmp md_cmp key k);
    if decide (rc = 0) then set_ki (n - 1);; mret (Jset1 leaf)
    else if decide (rc < 0) then
      ki ← top_ki;
      let inside : RC jump := set_eof false;; mret Jset2 in
      if decide (ki < n) then
        '(leaf, k) ← key_of_node mp ki;
        rc ← clift (run_cmp md_cmp key k);
        if decide (rc = 0) then mret (Jset1 leaf) else inside
      else inside
    else others
  else others.

(** "See if we're already on the right page" *)
Definition set_near (key : list Z) (op : cursor_op) (exact : bool) : RC jump :=
  mp ← top_page; n ← at_page mp (NUMKEYS 0);
  if decide (n = 0) then set_ki 0;; mret (Jreturn MDB_NOTFOUND)
  else
    '(leaf, k) ← key_of_node mp 0;
    rc ← clift (run_cmp md_cmp key k);
    if decide (rc = 0) then set_ki 0;; mret (Jset1 leaf)
    else if decide (rc > 0) then set_above mp n key
    else
      s ← gets id;
      if decide (mc_top s = 0)%nat then
        set_ki 0;; mret (if bool_decide (op = MDB_SET_RANGE) && negb exact then Jset1 leaf else Jreturn MDB_NOTFOUND)
      else mret Jsearch.

Definition set1 (op : cursor_op) (leaf : nat) : RC reply :=
  mp ← top_page; ki ← top_ki;
  set_flags true false;;
  leaf2 ← at_page mp (IS_LEAF2 0);
  let wanted := bool_decide (op = MDB_SET_RANGE \/ op = MDB_SET_KEY) in
  if leaf2 : bool then if wanted then leaf2_reply mp ki else mret (Reply 0 None None)
  else
    fl ← at_page mp (rd16 (mn_flags leaf));
    if F_ISSET fl F_DUPDATA then undef
    else
      r ← mdb_node_read mp leaf;
      if decide (r_rc r <> 0) then mret r
      else if wanted then k ← node_key mp leaf; mret (Reply 0 (Some k) (r_data r)) else mret r.

Definition set2 (key : list Z) (op : cursor_op) (exact : bool) : RC reply :=
  f ← node_search key;
  if exact && negb (exactp f) then mret (failed_with MDB_NOTFOUND)
  else
    match f_node f with
    | None =>
        rc ← sibling true;
        if decide (rc <> 0) then set_eof true;; mret (failed_with rc)
        else
          mp ← top_page;
          isleaf ← at_page mp (IS_LEAF 0); cassert isleaf;;
          leaf ← at_page mp (NODEPTR 0 0); set1 op leaf
    | Some i =>
        mp ← top_page; leaf2 ← at_page mp (IS_LEAF2 0);
        leaf ← (if leaf2 : bool then mret 0%nat else at_page mp (NODEPTR 0 (Z.to_nat i))); set1 op leaf
    end.

(** [exact]: exactp is not NULL. *)
Definition mdb_cursor_set (halted : bool) (key : list Z) (op : cursor_op) (exact : bool) : RC reply :=
  if decide (key = []) then mret (failed_with MDB_BAD_VALSIZE)
  else
    s ← gets id;
    j ← (if C_INITIALIZED s then set_near key op exact
         else f ← frame_at 0; put_frame 0 (Frame None (f_ki f));; mret Jsearch);
    match j with
    | Jreturn rc => mret (failed_with rc)
    | Jset1 leaf => set1 op leaf
    | Jset2 => set2 key op exact
    | Jsearch =>
        rc ← mdb_page_search halted (PS_KEY key);
        if decide (rc <> 0) then mret (failed_with rc)
        else mp ← top_page; isleaf ← at_page mp (IS_LEAF 0); cassert isleaf;; set2 key op exact
    end.

(** ** mdb_cursor_get *)

Definition get_current : RC reply :=
  s ← gets id;
  if negb (C_INITIALIZED s) then mret (failed_with EINVAL)
  else
    mp ← top_page; n ← at_page mp (NUMKEYS 0); ki ← top_ki;
    if decide (n = 0 \/ ki >= n) then set_ki n;; mret (failed_with MDB_NOTFOUND)
    else
      leaf2 ← at_page mp (IS_LEAF2 0);
      if leaf2 : bool then leaf2_reply mp ki
      else leaf ← at_page mp (NODEPTR 0 (Z.to_nat ki)); node_reply mp leaf.

Definition mdb_cursor_get (halted : bool) (op : cursor_op) (key : list Z) : RC reply :=
  b ← is_blocked halted;
  if b : bool then mret (failed_with MDB_BAD_TXN)
  else
    r ← (match op with
         | MDB_GET_CURRENT => get_current
         | MDB_GET_BOTH | MDB_GET_BOTH_RANGE => mret (failed_with MDB_INCOMPATIBLE)
         | MDB_SET | MDB_SET_KEY => mdb_cursor_set halted key op true
         | MDB_SET_RANGE => mdb_cursor_set halted key op false
         | MDB_GET_MULTIPLE | MDB_FIRST_DUP | MDB_LAST_DUP =>
             s ← gets id; mret (failed_with (if C_INITIALIZED s then MDB_INCOMPATIBLE else EINVAL))
         | MDB_NEXT_MULTIPLE | MDB_PREV_MULTIPLE => mret (failed_with MDB_INCOMPATIBLE)
         | MDB_NEXT | MDB_NEXT_DUP | MDB_NEXT_NODUP => mdb_cursor_next halted op
         | MDB_PREV | MDB_PREV_DUP | MDB_PREV_NODUP => mdb_cursor_prev halted
         | MDB_FIRST => mdb_cursor_first halted
         | MDB_LAST => mdb_cursor_last halted
         end);
    clear_del;; mret r.

(** mdb_cursor_init *)
Definition fresh_cursor (error : bool) : rcursor := Rcursor [Frame None 0] 0 false false false error.

Definition mdb_get (halted : bool) (key : list Z) : RC reply :=
  b ← is_blocked halted;
  if b : bool then mret (failed_with MDB_BAD_TXN) else mdb_cursor_set halted key MDB_SET true.
End Reading.
