(* ===== verification/MdbTreeSpec.v ===== *)
(** * What a cursor finds in a b-tree

    [btree] says which nodes the pages of a tree hold, in the order of their
    keys; mdb_get finds a node by its key, and a cursor walks over them all. *)

From Stdlib Require Import ZArith Lia.
From stdpp Require Import prelude gmap.
From S2P Require Import Prelude MdbPage MdbPageSpec MdbSearch MdbTree.

(** ** The stack of a cursor *)

Record cflags := Cflags { fl_init : bool; fl_eof : bool; fl_del : bool; fl_error : bool }.

Definition stack (fs : list (nat * Z)) : list frame := (fun f => Frame (Some f.1) f.2) <$> fs.

(** A cursor whose stack is [fs], with the frames [st] that were popped from it. *)
Definition cur (fs : list (nat * Z)) (st : list frame) (fl : cflags) : rcursor :=
  Rcursor (stack fs ++ st) (length fs) (fl_init fl) (fl_eof fl) (fl_del fl) (fl_error fl).

Lemma length_stack fs : length (stack fs) = length fs.
Proof. apply length_fmap. Qed.

Lemma stack_snoc fs f : stack (fs ++ [f]) = stack fs ++ [Frame (Some f.1) f.2].
Proof. unfold stack. by rewrite fmap_app. Qed.

Lemma gets_run {S A} (f : S -> A) s : gets f s = Ret (f s, s).
Proof. done. Qed.

Lemma put_frame_next fs st fl f : put_frame (length fs) f (cur fs st fl) =
  Ret (tt, Rcursor (stack fs ++ f :: tail st) (length fs) (fl_init fl) (fl_eof fl) (fl_del fl) (fl_error fl)).
Proof.
  unfold put_frame, cur. cbn [frames mc_snum MdbTree.C_INITIALIZED MdbTree.C_EOF MdbTree.C_DEL MdbTree.TXN_ERROR].
  rewrite decide_True by (rewrite length_app, length_stack; lia). rewrite take_app_length' by by rewrite length_stack.
  rewrite drop_app_ge by (rewrite length_stack; lia). rewrite length_stack.
  replace (S (length fs) - length fs)%nat with 1%nat by lia. by destruct st.
Qed.

Lemma cassert_run b s : b = true -> MdbTree.cassert b s = Ret (tt, s).
Proof. by intros ->. Qed.

Section Stack.
Variables (fs : list (nat * Z)) (a : nat) (k : Z) (st : list frame) (fl : cflags).
Let s := cur (fs ++ [(a, k)]) st fl.

Lemma frames_top : frames s !! length fs = Some (Frame (Some a) k).
Proof.
  unfold s, cur. cbn [frames]. rewrite stack_snoc, <- app_assoc. apply list_lookup_middle. by rewrite length_stack.
Qed.

Lemma top_is : mc_top s = length fs.
Proof. unfold mc_top, s, cur. cbn [mc_snum]. rewrite length_app. cbn. lia. Qed.

Lemma top_frame_run : top_frame s = Ret (Frame (Some a) k, s).
Proof. unfold top_frame. rewrite (bind_ret _ _ _ _ _ (gets_run id s)). unfold frame_at. cbn [id]. by rewrite top_is, frames_top. Qed.

Lemma top_page_run : top_page s = Ret (a, s).
Proof. unfold top_page. by rewrite (bind_ret _ _ _ _ _ top_frame_run). Qed.

Lemma top_ki_run : top_ki s = Ret (k, s).
Proof. unfold top_ki. by rewrite (bind_ret _ _ _ _ _ top_frame_run). Qed.

Lemma set_ki_run v : set_ki v s = Ret (tt, cur (fs ++ [(a, u16 v)]) st fl).
Proof.
  unfold set_ki. rewrite (bind_ret _ _ _ _ _ (gets_run id s)), (bind_ret _ _ _ _ _ top_frame_run). cbn [id f_pg]. rewrite top_is.
  unfold put_frame, s, cur. cbn [frames mc_snum MdbTree.C_INITIALIZED MdbTree.C_EOF MdbTree.C_DEL MdbTree.TXN_ERROR].
  rewrite decide_True by (rewrite length_app, length_stack, length_app; lia). rewrite !stack_snoc, <- !app_assoc.
  rewrite (take_app_length' (stack fs)), drop_app_ge by (rewrite length_stack; lia). rewrite !length_app, length_stack.
  replace (S (length fs) - length fs)%nat with 1%nat by lia. done.
Qed.

Lemma pop_run : fs <> [] -> mdb_cursor_pop s = Ret (tt, cur fs (Frame (Some a) k :: st) fl).
Proof.
  intros Hne. assert (0 < length fs)%nat by (destruct fs; [done|cbn; lia]). unfold mdb_cursor_pop.
  rewrite (bind_ret _ _ _ _ _ (gets_run id s)). unfold s, cur. cbn [id mc_snum]. rewrite length_app. cbn [length].
  rewrite decide_False by lia. rewrite Nat.add_sub. unfold set_snum. cbn. rewrite decide_False by lia.
  by rewrite stack_snoc, <- app_assoc.
Qed.

(** Undoing it. *)
Lemma unpop_run : set_snum (S (length fs)) (cur fs (Frame (Some a) k :: st) fl) = Ret (tt, s).
Proof. unfold set_snum, s, cur. cbn. by rewrite stack_snoc, <- app_assoc, length_app, Nat.add_1_r. Qed.
End Stack.

Lemma cursor_push_run fs mp st fl : (length fs < CURSOR_STACK)%nat -> mdb_cursor_push mp (cur fs st fl) = Ret (0, cur (fs ++ [(mp, 0)]) (tail st) fl).
Proof.
  intros H. unfold mdb_cursor_push. rewrite (bind_ret _ _ _ _ _ (gets_run id _)). change (mc_snum (id (cur fs st fl))) with (length fs).
  rewrite decide_False by lia. rewrite (bind_ret _ _ _ _ _ (put_frame_next _ _ _ _)).
  unfold set_snum, cur. cbn. by rewrite stack_snoc, <- app_assoc, length_app, Nat.add_1_r.
Qed.

(** ** Pages of the tree *)

Definition child_pgno (n : node) : Z := n_num n + 2 ^ 32 * n_flags n.

Lemma rd_NODEPGNO P S n : (exists leaf, node_ok leaf n) -> NODEPGNO (length P) (P ++ enc n ++ S) = Ret (child_pgno n, P ++ enc n ++ S).
Proof.
  intros Hn. unfold NODEPGNO. rewrite (bind_ret _ _ _ _ _ (rd_lo P S n Hn)), (bind_ret _ _ _ _ _ (rd_hi P S n Hn)), (bind_ret _ _ _ _ _ (rd_nflags P S n Hn)).
  unfold mret, ST_ret, child_pgno. do 2 f_equal. change 65536 with (2 ^ 16). rewrite join_words by lia.
  destruct Hn as (leaf & Hnum & Hf & _). unfold fits in *.
  assert (E1 : n_num n = (n_num n + 2 ^ 32 * n_flags n) mod 2 ^ 32) by (change (2 ^ 32) with 4294967296 in *; dlia).
  assert (E2 : n_flags n = (n_num n + 2 ^ 32 * n_flags n) / 2 ^ 32) by (change (2 ^ 32) with 4294967296 in *; dlia).
  rewrite E1 at 1. rewrite E2 at 2. by rewrite join_words by lia.
Qed.

Section Tree.
Variables (psize : nat) (me_map : list Z) (mt_next_pgno : Z).
(** What is known of the keys of a branch page and the nodes under each. *)
Variable sep : list entry -> list (list node) -> Prop.

Abbreviation at_page := (at_page psize me_map).

Lemma at_page_run {A} a (m : ST page A) s p x p' : peek me_map a psize = Some p -> m p = Ret (x, p') -> at_page a m s = Ret (x, s).
Proof. intros Hp Hm. unfold MdbTree.at_page. rewrite Hp. cbn [of_option mbind outcome_bind]. by rewrite Hm. Qed.

(** A page of the map with the nodes of [es]. *)
Record holds (leaf : bool) (a : nat) (l : layout) (es : list entry) : Prop := Holds {
  h_page : peek me_map a psize = Some (bytes l);
  h_ok : layout_ok l;
  h_rep : represents leaf l es;
  h_leaf : F_ISSET (pflags l) P_LEAF = leaf;
  h_branch : F_ISSET (pflags l) P_BRANCH = negb leaf;
  h_leaf2 : F_ISSET (pflags l) P_LEAF2 = false
}.

(** The offset of a page. *)
Definition page_addr (pgno : Z) : nat := (psize * Z.to_nat pgno)%nat.

Lemma page_get_run pgno s : pgno < mt_next_pgno -> mdb_page_get psize mt_next_pgno pgno s = Ret (inr (page_addr pgno), s).
Proof. intros H. unfold mdb_page_get. by rewrite decide_False by lia. Qed.

(** An operation on the page of a branch or leaf. *)
Section Page.
Variables (leaf : bool) (a : nat) (l : layout) (es : list entry).
Hypothesis Hh : holds leaf a l es.

Lemma at_NUMKEYS s : at_page a (NUMKEYS 0) s = Ret (Z.of_nat (length es), s).
Proof.
  eapply at_page_run; [apply (h_page _ _ _ _ Hh)|]. rewrite top_NUMKEYS by apply (h_ok _ _ _ _ Hh).
  by rewrite (rep_ptrs _ _ _ (h_rep _ _ _ _ Hh)), length_fmap.
Qed.

Lemma at_IS_BRANCH s : at_page a (IS_BRANCH 0) s = Ret (negb leaf, s).
Proof. eapply at_page_run; [apply (h_page _ _ _ _ Hh)|]. unfold IS_BRANCH. rewrite top_flag by apply (h_ok _ _ _ _ Hh). by rewrite (h_branch _ _ _ _ Hh). Qed.

Lemma at_IS_LEAF s : at_page a (IS_LEAF 0) s = Ret (leaf, s).
Proof. eapply at_page_run; [apply (h_page _ _ _ _ Hh)|]. unfold IS_LEAF. rewrite top_flag by apply (h_ok _ _ _ _ Hh). by rewrite (h_leaf _ _ _ _ Hh). Qed.

Lemma at_IS_LEAF2 s : at_page a (IS_LEAF2 0) s = Ret (false, s).
Proof. eapply at_page_run; [apply (h_page _ _ _ _ Hh)|]. unfold IS_LEAF2. rewrite top_flag by apply (h_ok _ _ _ _ Hh). by rewrite (h_leaf2 _ _ _ _ Hh). Qed.

Lemma at_NODEPTR i o n s : es !! i = Some (o, n) -> at_page a (NODEPTR 0 i) s = Ret (Z.to_nat o, s).
Proof.
  intros Hi. destruct (page_rep_lookup _ _ _ _ _ _ (h_rep _ _ _ _ Hh) Hi) as (Hp & _).
  eapply at_page_run; [apply (h_page _ _ _ _ Hh)|]. apply top_NODEPTR; [apply (h_ok _ _ _ _ Hh)|done].
Qed.

(** Reading in the bytes of a node. *)
Lemma at_node {A} i o n (m : ST page A) x s : es !! i = Some (o, n) ->
  (forall P S, length P = Z.to_nat o -> m (P ++ enc n ++ S) = Ret (x, P ++ enc n ++ S)) -> at_page a m s = Ret (x, s).
Proof.
  intros Hi Hm. destruct (page_rep_lookup _ _ _ _ _ _ (h_rep _ _ _ _ Hh) Hi) as (_ & _ & Hpl & _).
  destruct (placed_split l o n (h_ok _ _ _ _ Hh) Hpl) as (P & pad & S & A' & B & Eb & HP & _).
  eapply at_page_run; [apply (h_page _ _ _ _ Hh)|]. rewrite Eb. by apply Hm.
Qed.

Lemma page_room : Z.of_nat (length es) < 65536 /\ (length es < S psize)%nat.
Proof.
  pose proof (h_page _ _ _ _ Hh) as Hp. pose proof (h_ok _ _ _ _ Hh) as Hl. unfold peek in Hp. case_decide as H; [|done].
  injection Hp as Hp. pose proof (length_bytes l ltac:(apply Hl)) as Hlen. rewrite <- Hp, length_take, length_drop in Hlen.
  assert (length (ptrs l) = length es) by (rewrite (rep_ptrs _ _ _ (h_rep _ _ _ _ Hh)); apply length_fmap).
  pose proof (layout_bounds l Hl). unfold lower in *. lia.
Qed.

Lemma node_facts i o n : es !! i = Some (o, n) -> node_ok leaf n.
Proof. intros Hi. by destruct (page_rep_lookup _ _ _ _ _ _ (h_rep _ _ _ _ Hh) Hi) as (_ & ? & _). Qed.

Lemma child_run i o n s : es !! i = Some (o, n) -> child_pgno n < mt_next_pgno ->
  child psize me_map mt_next_pgno a (Z.of_nat i) s = Ret (inr (page_addr (child_pgno n)), s).
Proof.
  intros Hi Hn. unfold child. rewrite Nat2Z.id. erewrite bind_ret; [by apply page_get_run|].
  destruct (page_rep_lookup _ _ _ _ _ _ (h_rep _ _ _ _ Hh) Hi) as (Hp & Hok & Hpl & _).
  destruct (placed_split l o n (h_ok _ _ _ _ Hh) Hpl) as (P & pad & S & A & B & Eb & HP & _).
  eapply at_page_run; [apply (h_page _ _ _ _ Hh)|]. erewrite bind_ret; [|by apply top_NODEPTR; [apply (h_ok _ _ _ _ Hh)|]].
  rewrite <- HP, Eb. apply rd_NODEPGNO. by exists leaf.
Qed.
End Page.

(** [v] is the data of the node: its size, and its bytes on the leaf or from the overflow page on. *)
Definition value_of (n : node) (v : MDB_val) : Prop :=
  mv_size v = n_num n /\
  if F_ISSET (n_flags n) F_BIGDATA then mv_data v = drop (page_addr (le_val (n_data n)) + 16) me_map
  else take (length (n_data n)) (mv_data v) = n_data n.

(** A node of a data base without MDB_DUPSORT; its overflow page is in the snapshot. *)
Definition plain (n : node) : Prop :=
  F_ISSET (n_flags n) F_DUPDATA = false /\ (F_ISSET (n_flags n) F_BIGDATA = true -> le_val (n_data n) < mt_next_pgno).

Section Leaf.
Variables (a : nat) (l : layout) (es : list entry) (i : nat) (o : Z) (n : node).
Hypotheses (Hh : holds true a l es) (Hi : es !! i = Some (o, n)).

Lemma at_flags s : at_page a (rd16 (mn_flags (Z.to_nat o))) s = Ret (n_flags n, s).
Proof.
  apply (at_node _ _ _ _ Hh _ _ _ _ _ _ Hi). intros P S <-. apply rd_nflags. exists true. by apply (node_facts _ _ _ _ Hh _ _ _ Hi).
Qed.

Lemma node_key_run s : node_key psize me_map a (Z.to_nat o) s = Ret (n_key n, s).
Proof.
  destruct (node_facts _ _ _ _ Hh _ _ _ Hi) as (_ & _ & Hk & _). unfold node_key.
  erewrite bind_ret; [|apply (at_node _ _ _ _ Hh _ _ _ _ _ _ Hi); intros P S <-; by apply rd_ksize].
  apply (at_node _ _ _ _ Hh _ _ _ _ _ _ Hi). intros P S <-.
  replace (Z.to_nat (size (n_key n))) with (length (n_key n)) by (unfold size; lia). apply rd_key.
Qed.

Lemma node_read_run s : plain n -> exists v, value_of n v /\
  mdb_node_read psize me_map mt_next_pgno a (Z.to_nat o) s = Ret (Reply 0 None (Some v), s).
Proof.
  intros [_ Hbig]. pose proof (node_facts _ _ _ _ Hh _ _ _ Hi) as Hok. pose proof Hok as (_ & _ & Hk & Hd). unfold mdb_node_read, value_of.
  destruct (page_rep_lookup _ _ _ _ _ _ (h_rep _ _ _ _ Hh) Hi) as (_ & _ & Hpl & _).
  destruct (placed_split l o n (h_ok _ _ _ _ Hh) Hpl) as (P & pad & S & A' & B & Eb & HP & _).
  rewrite (bind_ret _ _ _ _ _ (at_flags s)).
  erewrite bind_ret; [|apply (at_node _ _ _ _ Hh _ _ _ _ _ _ Hi); intros P' S' <-; apply rd_NODEDSZ; by exists true].
  erewrite bind_ret; [|apply (at_node _ _ _ _ Hh _ _ _ _ (Z.to_nat o + 8 + length (n_key n))%nat _ Hi); intros P' S' <-; by apply rd_NODEDATA].
  assert (Hlen : length (P ++ node_head n ++ n_key n) = (Z.to_nat o + 8 + length (n_key n))%nat).
  { rewrite !length_app, HP. unfold node_head. rewrite !length_app. cbn [length le16]. lia. }
  assert (Eb' : bytes l = (P ++ node_head n ++ n_key n) ++ n_data n ++ pad ++ S) by (rewrite Eb; unfold enc; by rewrite <- !app_assoc).
  destruct (F_ISSET (n_flags n) F_BIGDATA) eqn:Fb.
  - erewrite bind_ret.
    2: { eapply at_page_run; [apply (h_page _ _ _ _ Hh)|]. rewrite Eb'. apply rd_at; [exact Hlen|]. unfold size in Hd. lia. }
    rewrite (bind_ret _ _ _ _ _ (page_get_run _ _ (Hbig eq_refl))). eexists. by split; [|reflexivity].
  - erewrite bind_ret; [|eapply at_page_run; [apply (h_page _ _ _ _ Hh)|reflexivity]].
    eexists. split; [|reflexivity]. split; [done|]. cbn [mv_data id]. rewrite Eb', <- Hlen, drop_app_length. by rewrite take_app_length.
Qed.
End Leaf.

(** ** Trees *)

Definition addr (e : entry) : nat := page_addr (child_pgno e.2).

Definition leaf_at (a : nat) (ns : list node) : Prop :=
  exists l es, holds true a l es /\ es.*2 = ns /\ ns <> [] /\ Forall plain ns.

(** A branch page whose children hold the lists [kids]. *)
Definition branch_at (sub : nat -> list node -> Prop) (a : nat) (es : list entry) (kids : list (list node)) : Prop :=
  (exists l, holds false a l es) /\ (2 <= length es)%nat /\ sep es kids /\
  Forall2 (fun e ns => child_pgno e.2 < mt_next_pgno /\ sub (addr e) ns) es kids.

(** The page at [a] is the root of a tree of [h] levels of branches, and its leaves hold these nodes. *)
Fixpoint btree (h a : nat) (ns : list node) : Prop :=
  match h with
  | O => leaf_at a ns
  | S h => exists es kids, branch_at (btree h) a es kids /\ ns = concat kids
  end.

(** A path of the cursor down to a leaf with the nodes [ns], with [pre] before and [post] after them. *)
Fixpoint bpath (h a : nat) (fr : list (nat * Z)) (pre ns post : list node) : Prop :=
  match h with
  | O => leaf_at a ns /\ pre = [] /\ post = [] /\ exists k, fr = [(a, k)]
  | S h => exists es kids i e fr' pre' post',
      branch_at (btree h) a es kids /\ es !! i = Some e /\ kids !! i = Some (pre' ++ ns ++ post') /\
      bpath h (addr e) fr' pre' ns post' /\ fr = (a, Z.of_nat i) :: fr' /\
      pre = concat (take i kids) ++ pre' /\ post = post' ++ concat (drop (S i) kids)
  end.

Lemma bpath_btree h : forall a fr pre ns post, bpath h a fr pre ns post -> btree h a (pre ++ ns ++ post).
Proof.
  induction h as [|h IH]; intros a fr pre ns post; cbn.
  - intros (H & -> & -> & _). by rewrite app_nil_r.
  - intros (es & kids & i & e & fr' & pre' & post' & Hb & He & Hk & _ & _ & -> & ->). exists es, kids. split; [done|].
    rewrite <- (take_drop_middle _ _ _ Hk) at 3. rewrite concat_app. cbn [concat]. by rewrite <- !app_assoc.
Qed.

Lemma bpath_length h : forall a fr pre ns post, bpath h a fr pre ns post -> length fr = S h /\ exists k, head fr = Some (a, k).
Proof.
  induction h as [|h IH]; intros a fr pre ns post; cbn.
  - intros (_ & _ & _ & k & ->). split; [done|by exists k].
  - intros (es & kids & i & e & fr' & pre' & post' & _ & _ & _ & Hp & -> & _). split; [cbn; f_equal; apply (IH _ _ _ _ _ Hp)|by eexists].
Qed.

(** The leaf is the last frame; its index is free. *)
Lemma bpath_last h : forall a fr pre ns post, bpath h a fr pre ns post ->
  exists fr1 b k, fr = fr1 ++ [(b, k)] /\ leaf_at b ns /\ forall k', bpath h a (fr1 ++ [(b, k')]) pre ns post.
Proof.
  induction h as [|h IH]; intros a fr pre ns post; cbn.
  - intros (H & -> & -> & k & ->). exists [], a, k. split; [done|]. split; [done|]. intros k'. split_and!; try done. by exists k'.
  - intros (es & kids & i & e & fr' & pre' & post' & Hb & He & Hk & Hp & -> & -> & ->).
    destruct (IH _ _ _ _ _ Hp) as (fr1 & b & k & -> & Hl & Hall). exists ((a, Z.of_nat i) :: fr1), b, k. split; [done|]. split; [done|].
    intros k'. exists es, kids, i, e, (fr1 ++ [(b, k')]), pre', post'. by split_and!.
Qed.

Lemma btree_nonempty h : forall a ns, btree h a ns -> ns <> [].
Proof.
  induction h as [|h IH]; intros a ns; cbn; [by intros (l & es & _ & _ & ? & _)|].
  intros (es & kids & (_ & H2 & _ & F) & ->). destruct F as [|e k es kids [_ Hk] F]; [cbn in H2; lia|]. cbn.
  intros E. apply app_eq_nil in E as [E _]. by apply (IH _ _ Hk).
Qed.

Lemma kid_at sub a es kids i e : branch_at sub a es kids -> es !! i = Some e ->
  exists ns, kids !! i = Some ns /\ child_pgno e.2 < mt_next_pgno /\ sub (addr e) ns.
Proof. intros (_ & _ & _ & F) He. destruct (Forall2_lookup_l _ _ _ _ _ F He) as (ns & Hk & Hn & Hs). by exists ns. Qed.

Lemma kids_length sub a es kids : branch_at sub a es kids -> length kids = length es.
Proof. intros (_ & _ & _ & F). symmetry. by eapply Forall2_length. Qed.

(** ** Going down *)

Section Down.
Variables (mc_dbi : Z) (c : md_cmp) (md_pad : nat).

Abbreviation search_root := (mdb_page_search_root psize me_map mt_next_pgno mc_dbi c md_pad).

Lemma go_down_run a l es i e (on : ST rcursor Z) fs k st fl : holds false a l es -> es !! i = Some e -> child_pgno e.2 < mt_next_pgno ->
  (S (length fs) < CURSOR_STACK)%nat ->
  go_down psize me_map mt_next_pgno a (Z.of_nat (length es)) on (Z.of_nat i) (cur (fs ++ [(a, k)]) st fl) =
    on (cur (fs ++ [(a, Z.of_nat i)] ++ [(addr e, 0)]) (tail st) fl).
Proof.
  intros Hh Hi Hn Hd. destruct (page_room _ _ _ _ Hh) as [Hlen _]. pose proof (lookup_lt_Some _ _ _ Hi). unfold go_down.
  erewrite bind_ret; [|apply cassert_run, bool_decide_true; lia]. destruct e as [o n].
  rewrite (bind_ret _ _ _ _ _ (child_run _ _ _ _ Hh _ _ _ _ Hi Hn)).
  rewrite (bind_ret _ _ _ _ _ (set_ki_run _ _ _ _ _ _)). erewrite bind_ret; [|apply cursor_push_run; rewrite length_app; cbn; lia].
  rewrite decide_True by done. rewrite u16_fits by (unfold fits; lia). by rewrite <- app_assoc.
Qed.

(** The first leaf. *)
Lemma search_first h : forall a ns fs k st fl fuel, btree h a ns -> (length fs + h < CURSOR_STACK)%nat -> (h < fuel)%nat ->
  exists fr leaf post st', search_root fuel PS_FIRST (cur (fs ++ [(a, k)]) st fl) =
      Ret (0, cur (fs ++ fr) st' (Cflags true false (fl_del fl) (fl_error fl))) /\
    bpath h a fr [] leaf post /\ ns = leaf ++ post.
Proof.
  induction h as [|h IH]; intros a ns fs k st fl fuel Ht Hd Hf; (destruct fuel as [|fuel]; [lia|]); cbn [mdb_page_search_root].
  - pose proof Ht as (l & es & Hh & _). rewrite (bind_ret _ _ _ _ _ (top_page_run _ _ _ _ _)), (bind_ret _ _ _ _ _ (at_IS_BRANCH _ _ _ _ Hh _)).
    cbn [negb]. rewrite (bind_ret _ _ _ _ _ (at_IS_LEAF _ _ _ _ Hh _)). exists [(a, k)], ns, [], st. split; [done|].
    split; [|by rewrite app_nil_r]. split; [done|]. split; [done|]. split; [done|]. by exists k.
  - destruct Ht as (es & kids & Hb & ->). pose proof Hb as ((l & Hh) & H2 & _ & F).
    rewrite (bind_ret _ _ _ _ _ (top_page_run _ _ _ _ _)), (bind_ret _ _ _ _ _ (at_IS_BRANCH _ _ _ _ Hh _)).
    cbn [negb]. rewrite (bind_ret _ _ _ _ _ (at_NUMKEYS _ _ _ _ Hh _)). erewrite bind_ret; [|apply cassert_run, bool_decide_true; right; lia].
    destruct (lookup_lt_is_Some_2 es 0) as [e He]; [lia|]. destruct (kid_at _ _ _ _ _ _ Hb He) as (cs & Hk & Hn & Hs).
    rewrite (go_down_run a l es 0 e) by (done || lia).
    destruct (IH (addr e) cs (fs ++ [(a, 0)]) 0 (tail st) fl fuel) as (fr & leaf & post & st' & E & Hp & ->);
      [done|rewrite length_app; cbn; lia|lia|].
    exists ((a, 0) :: fr), leaf, (post ++ concat (drop 1 kids)), st'. rewrite <- !(app_assoc fs) in E. split; [exact E|].
    destruct kids as [|k0 kids]; [done|]. injection Hk as ->. split; [|cbn; by rewrite <- app_assoc].
    exists es, ((leaf ++ post) :: kids), 0%nat, e, fr, [], post. by split_and!.
Qed.
End Down.

(** ** The key that is looked for *)

(** The keys of a data base whose integers have [w] bytes: MDB_INTEGERKEY (mdb_cmp_cint) allows the
    sizes of unsigned int and size_t, and mdb_cmp_int and mdb_cmp_long have one each. *)
Definition key_form (c : md_cmp) (w : nat) (k : list Z) : Prop :=
  match c with
  | Cmp_memn | Cmp_memnr => True
  | Cmp_cint => Forall is_byte k /\ length k = w /\ (w = 4 \/ w = 8)%nat
  | Cmp_int => Forall is_byte k /\ length k = 4%nat
  | Cmp_long => Forall is_byte k /\ length k = 8%nat
  | Cmp_user _ => False
  end.

Lemma le_val_inj a : forall b, Forall is_byte a -> Forall is_byte b -> length a = length b -> le_val a = le_val b -> a = b.
Proof.
  induction a as [|x a IH]; intros [|y b] Fa Fb Hl E; try done. apply Forall_cons in Fa as [Hx Fa]. apply Forall_cons in Fb as [Hy Fb].
  cbn in Hl, E. unfold fits in *. change (2 ^ 8) with 256 in *. rewrite (IH b Fa Fb); [f_equal|..]; lia.
Qed.

Section Key.
Variables (mc_dbi : Z) (c : md_cmp) (w : nat) (md_pad : nat) (key : list Z).
Hypothesis Hform : key_form c w key.
Hypothesis Hsize : fits 32 (size key).

Definition klt (a b : list Z) : Prop := key_order c a b = Lt.

Lemma lex_opp a : forall b, lex b a = CompOpp (lex a b).
Proof.
  induction a as [|x a IH]; intros [|y b]; cbn; try done. rewrite (Z.compare_antisym x y).
  destruct (x ?= y); cbn; [apply IH|done|done].
Qed.

Lemma lex_eq a : forall b, lex a b = Eq -> a = b.
Proof.
  induction a as [|x a IH]; intros [|y b]; cbn; try done. destruct (Z.compare_spec x y) as [->|H|H]; try done.
  intros E. by rewrite (IH b E).
Qed.

Lemma order_opp a b : key_order c b a = CompOpp (key_order c a b).
Proof using. clear Hform Hsize. destruct c; cbn; try apply lex_opp; try apply Z.compare_antisym. done. Qed.

Lemma order_eq k : key_form c w k -> key_order c key k = Eq -> key = k.
Proof using Hform.
  clear - Hform. destruct c; cbn in *; intros H.
  - apply lex_eq.
  - intros E%lex_eq. by rewrite <- (rev_involutive key), E, rev_involutive.
  - destruct H as (? & ? & _), Hform as (? & ? & _). intros E%Z.compare_eq_iff. apply le_val_inj; congruence.
  - destruct H, Hform. rewrite !take_ge by lia. intros E%Z.compare_eq_iff. apply le_val_inj; congruence.
  - destruct H, Hform. rewrite !take_ge by lia. intros E%Z.compare_eq_iff. apply le_val_inj; congruence.
  - done.
Qed.

Lemma klt_gt a b : key_order c a b = Gt -> klt b a.
Proof. intros H. unfold klt. by rewrite order_opp, H. Qed.

Lemma le_klt a b d : key_order c a b <> Gt -> klt b d -> klt a d.
Proof. apply key_order_trans. Qed.

Lemma lex_klt_le a b d : lex a b = Lt -> lex b d <> Gt -> lex a d = Lt.
Proof.
  intros Hab Hbd. destruct (lex b d) eqn:E; [by apply lex_eq in E as <-|by apply (lex_trans a b d); [rewrite Hab|]|done].
Qed.

Lemma compare_klt_le x y z : (x ?= y) = Lt -> (y ?= z) <> Gt -> (x ?= z) = Lt.
Proof. change ((x ?= y) = Lt -> y <= z -> (x ?= z) = Lt). rewrite !Z.compare_lt_iff. lia. Qed.

Lemma klt_le a b d : klt a b -> key_order c b d <> Gt -> klt a d.
Proof using. clear Hform Hsize. unfold klt. destruct c; cbn; try apply compare_klt_le; try apply lex_klt_le. done. Qed.

(** On keys of that form the comparison of a branch page (mdb_cmp_int or mdb_cmp_long for mdb_cmp_cint) is the same order. *)
Lemma node_cmp_form leaf es a k : (leaf = false -> exists e, es !! 1%nat = Some e /\ key_form c w (n_key e.2)) ->
  key_form c w a -> key_form c w k -> key_order (node_cmp leaf es c) a k = key_order c a k.
Proof.
  intros H1 Ha Hk. unfold node_cmp. destruct c; try done. destruct leaf; [done|]. destruct H1 as ([o n] & -> & _ & Hn & _); [done|].
  destruct Ha as (_ & La & Hw), Hk as (_ & Lk & _). case_decide; cbn [key_order]; rewrite !take_ge by (unfold size in *; cbn in *; lia); done.
Qed.

Lemma keys_fit_form leaf es k : (leaf = false -> exists e, es !! 1%nat = Some e /\ key_form c w (n_key e.2)) ->
  fits 32 (size k) -> key_form c w k -> keys_fit (node_cmp leaf es c) key k.
Proof using Hform Hsize.
  intros H1 Hs Hk. unfold node_cmp. destruct c; cbn in Hform, Hk |- *; try done; try (destruct Hform, Hk; lia).
  destruct Hform as (Fa & La & Hw), Hk as (Fk & Lk & _). destruct leaf.
  - split; [done|]. split; [done|]. split; [congruence|]. destruct Hw as [-> | ->]; [by exists 1%nat|by exists 3%nat].
  - destruct H1 as ([o n] & -> & _ & Hn & _); [done|]. cbn in Hn. case_decide; cbn; unfold size in *; lia.
Qed.

Lemma key_of_node_keys es i o n : es !! i = Some (o, n) -> key_of (node_keys es) (Z.of_nat i) = n_key n.
Proof. intros Hi. unfold key_of, node_keys. by rewrite Nat2Z.id, list_lookup_fmap, Hi. Qed.

(** The keys of a page, but for the first of a branch page. *)
Definition page_form (leaf : bool) (es : list entry) : Prop :=
  forall i e, (if leaf then 0 <= i else 1 <= i)%nat -> es !! i = Some e -> key_form c w (n_key e.2).

Lemma found_same leaf es f : (forall k, key_form c w k -> key_order (node_cmp leaf es c) key k = key_order c key k) ->
  page_form leaf es -> found_at (node_cmp leaf es c) key (first_key leaf) (node_keys es) f -> found_at c key (first_key leaf) (node_keys es) f.
Proof.
  intros Ho Hp (Hr & Hn & He & Hb & Ha & Hat).
  assert (Hk : forall j, first_key leaf <= j < Z.of_nat (length (node_keys es)) ->
    key_order (node_cmp leaf es c) key (key_of (node_keys es) j) = key_order c key (key_of (node_keys es) j)).
  { intros j Hj. apply Ho. unfold node_keys in Hj. rewrite length_fmap in Hj.
    destruct (lookup_lt_is_Some_2 es (Z.to_nat j)) as [[o n] Hn']; [destruct leaf; cbn in Hj; lia|].
    pose proof (key_of_node_keys _ _ _ _ Hn') as Ek. rewrite Z2Nat.id in Ek by (destruct leaf; cbn in Hj; lia). rewrite Ek.
    apply (Hp (Z.to_nat j) (o, n)); [destruct leaf; cbn in Hj; lia|done]. }
  split; [done|]. split; [done|]. split; [|split; [|split]].
  - rewrite He. split; intros [H1 H2]; (split; [done|]); [rewrite <- Hk by lia|rewrite Hk by lia]; done.
  - intros j Hj. rewrite <- Hk by lia. by apply Hb.
  - intros j Hj. rewrite <- Hk by (destruct Hr; lia). by apply Ha.
  - intros H1. rewrite <- Hk by lia. by apply Hat.
Qed.

Lemma node_search_run leaf a l es fs k st fl : holds leaf a l es -> (leaf = false -> (2 <= length es)%nat) ->
  page_form leaf es -> sorted_keys c (first_key leaf) (node_keys es) ->
  exists f, node_search psize me_map c md_pad key (cur (fs ++ [(a, k)]) st fl) = Ret (f, cur (fs ++ [(a, mc_ki f)]) st fl) /\
    found_at c key (first_key leaf) (node_keys es) f.
Proof using Hform Hsize.
  intros Hh H2 Hp Hs. destruct (page_room _ _ _ _ Hh) as [Hr1 Hr2].
  assert (H1 : leaf = false -> exists e, es !! 1%nat = Some e /\ key_form c w (n_key e.2)).
  { intros Hl. destruct (lookup_lt_is_Some_2 es 1) as [e He]; [specialize (H2 Hl); lia|]. exists e. split; [done|].
    apply (Hp 1%nat); [by rewrite Hl|done]. }
  assert (Hat : forall j, first_key leaf <= j < Z.of_nat (length (node_keys es)) -> exists o n, es !! Z.to_nat j = Some (o, n) /\
    key_of (node_keys es) j = n_key n /\ key_form c w (n_key n)).
  { intros j Hj. unfold node_keys in Hj. rewrite length_fmap in Hj.
    destruct (lookup_lt_is_Some_2 es (Z.to_nat j)) as [[o n] Hn]; [destruct leaf; cbn in Hj; lia|].
    pose proof (key_of_node_keys _ _ _ _ Hn) as Ek. rewrite Z2Nat.id in Ek by (destruct leaf; cbn in Hj; lia).
    exists o, n. split; [done|]. split; [done|]. apply (Hp (Z.to_nat j) (o, n)); [destruct leaf; cbn in Hj; lia|done]. }
  pose proof (mdb_node_search_spec (S psize) c md_pad key l es) as Spec. cbv zeta in Spec. rewrite (h_leaf _ _ _ _ Hh) in Spec.
  destruct Spec as (f & E & F); try done; try by apply Hh.
  { intros j Hj. destruct (Hat j Hj) as (o & n & Hn & -> & Hk). apply keys_fit_form; [done| |done].
    destruct (node_facts _ _ _ _ Hh _ _ _ Hn) as (_ & _ & Hz & _). unfold fits in *. change (2 ^ 16) with 65536 in Hz. change (2 ^ 32) with 4294967296. lia. }
  { intros i j Hij Hj. destruct (Hat i) as (oi & ni & _ & Ei & Ki); [lia|]. destruct (Hat j) as (oj & nj & _ & Ej & Kj); [destruct leaf; cbn in *; lia|].
    rewrite Ei, Ej, node_cmp_form, <- Ei, <- Ej by done. by apply Hs. }
  apply found_same in F; [|intros k' Hk'; by apply node_cmp_form|done].
  exists f. split; [|done]. unfold node_search. rewrite (bind_ret _ _ _ _ _ (top_page_run _ _ _ _ _)).
  erewrite bind_ret; [|eapply at_page_run; [apply (h_page _ _ _ _ Hh)|exact E]]. rewrite (bind_ret _ _ _ _ _ (set_ki_run _ _ _ _ _ _)).
  destruct F as ((Hf1 & Hf2) & _). unfold node_keys in Hf2. rewrite length_fmap in Hf2.
  rewrite u16_fits by (unfold fits; destruct leaf; cbn in Hf1; lia). done.
Qed.

(** The key of a branch node, but for the first, has the form of the keys, is above the nodes of the children before it, and not above its own and those after. *)
Definition separates (es : list entry) (kids : list (list node)) : Prop :=
  page_form false es /\ forall i j e ns x, (1 <= i)%nat -> es !! i = Some e -> kids !! j = Some ns -> x ∈ ns ->
    ((j < i)%nat -> klt (n_key x) (n_key e.2)) /\ ((i <= j)%nat -> key_order c (n_key e.2) (n_key x) <> Gt).

Hypothesis Hsep : forall es kids, sep es kids -> separates es kids.

Definition sorted_nodes (ns : list node) : Prop :=
  forall i j x y, (i < j)%nat -> ns !! i = Some x -> ns !! j = Some y -> klt (n_key x) (n_key y).

Lemma sorted_kid kids i ns : sorted_nodes (concat kids) -> kids !! i = Some ns -> sorted_nodes ns.
Proof.
  intros H Hk i1 i2 x y Hi Hx Hy. rewrite <- (take_drop_middle _ _ _ Hk), concat_app in H. cbn [concat] in H.
  apply (H (length (concat (take i kids)) + i1)%nat (length (concat (take i kids)) + i2)%nat); [lia| |];
    by rewrite lookup_app_r, Nat.add_sub_swap, Nat.sub_diag by lia; apply lookup_app_l_Some.
Qed.

Lemma branch_sorted h a es kids : branch_at (btree h) a es kids -> sorted_keys c 1 (node_keys es).
Proof.
  intros Hb i j Hij Hj. pose proof Hb as (_ & _ & Hs & _). unfold node_keys in Hj. rewrite length_fmap in Hj.
  destruct (lookup_lt_is_Some_2 es (Z.to_nat i)) as [[o n] Hi]; [lia|]. destruct (lookup_lt_is_Some_2 es (Z.to_nat j)) as [[o' n'] Hj']; [lia|].
  pose proof (key_of_node_keys _ _ _ _ Hi) as E1. pose proof (key_of_node_keys _ _ _ _ Hj') as E2. rewrite Z2Nat.id in E1, E2 by lia. rewrite E1, E2.
  destruct (kid_at _ _ _ _ _ _ Hb Hi) as (ns & Hk & _ & Ht). pose proof (btree_nonempty _ _ _ Ht) as Hne. destruct ns as [|x ns]; [done|].
  assert (Hx : x ∈ x :: ns) by left. destruct (proj2 (Hsep _ _ Hs) (Z.to_nat i) (Z.to_nat i) _ _ x ltac:(lia) Hi Hk Hx) as [_ H1].
  destruct (proj2 (Hsep _ _ Hs) (Z.to_nat j) (Z.to_nat i) _ _ x ltac:(lia) Hj' Hk Hx) as [H2 _]. eapply le_klt; [apply H1; lia|apply H2; lia].
Qed.

(** The child to go to: the last one whose key is not above, or the first. *)
Lemma chosen es f : (2 <= length es)%nat -> found_at c key 1 (node_keys es) f ->
  let r := mc_ki f in let n := Z.of_nat (length es) in
  let i := match f_node f with None => n - 1 | Some _ => if exactp f then r else r - 1 end in
  0 <= i < n /\ (f_node f <> None -> r < n /\ 1 <= r) /\
  (1 <= i -> key_order c (key_of (node_keys es) i) key <> Gt) /\ (forall j, i < j < n -> klt key (key_of (node_keys es) j)).
Proof.
  intros H2 (Hr & Hn & He & Hb & Ha & Hat). unfold node_keys in Hr, Hn, He, Ha, Hat. rewrite length_fmap in Hr, Hn, He, Ha, Hat.
  fold (node_keys es) in He, Ha, Hat. cbv zeta. rewrite Hn.
  assert (Below : forall j, 1 <= j < mc_ki f -> key_order c (key_of (node_keys es) j) key <> Gt) by (intros j Hj; rewrite order_opp, (Hb j Hj); done).
  destruct (decide (mc_ki f < Z.of_nat (length es))) as [H|H].
  - destruct (exactp f) eqn:Ex.
    + destruct He as [He _]. destruct (He eq_refl) as [_ Eq]. split; [lia|]. split; [lia|]. split; [intros _; rewrite order_opp, Eq; done|apply Ha].
    + split; [lia|]. split; [lia|]. split; [intros Hi; apply Below; lia|]. intros j Hj. destruct (decide (j = mc_ki f)) as [->|]; [|apply Ha; lia].
      unfold klt. specialize (Hat H). destruct (key_order c key (key_of (node_keys es) (mc_ki f))) eqn:E; [|done|done].
      destruct He as [_ He]. by specialize (He (conj H eq_refl)).
  - split; [lia|]. split; [done|]. split; [intros Hi; apply Below; lia|]. intros j Hj. lia.
Qed.

Lemma elem_of_concat_take (kids : list (list node)) i x : x ∈ concat (take i kids) -> exists j ns, (j < i)%nat /\ kids !! j = Some ns /\ x ∈ ns.
Proof.
  rewrite list_elem_of_In, in_concat. intros (ns & Hns & Hx). apply list_elem_of_In, elem_of_take in Hns as (j & Hj & Hji).
  exists j, ns. split; [done|]. split; [done|]. by apply list_elem_of_In.
Qed.

Lemma elem_of_concat_drop (kids : list (list node)) i x : x ∈ concat (drop i kids) -> exists j ns, (i <= j)%nat /\ kids !! j = Some ns /\ x ∈ ns.
Proof.
  rewrite list_elem_of_In, in_concat. intros (ns & Hns & Hx). apply list_elem_of_In, list_elem_of_lookup in Hns as (j & Hj). rewrite lookup_drop in Hj.
  exists (i + j)%nat, ns. split; [lia|]. split; [done|]. by apply list_elem_of_In.
Qed.

(** What is before and after the child is on its side of the key. *)
Lemma around h a es kids i e : branch_at (btree h) a es kids -> es !! i = Some e ->
  ((1 <= i)%nat -> key_order c (n_key e.2) key <> Gt) -> (forall j e', (i < j)%nat -> es !! j = Some e' -> klt key (n_key e'.2)) ->
  (forall x, x ∈ concat (take i kids) -> klt (n_key x) key) /\ (forall x, x ∈ concat (drop (S i) kids) -> klt key (n_key x)).
Proof.
  intros Hb He Hle Hgt. pose proof Hb as (_ & _ & Hs & _). split; intros x Hx.
  - apply elem_of_concat_take in Hx as (j & ns & Hj & Hk & Hx). destruct (proj2 (Hsep _ _ Hs) i j _ _ x ltac:(lia) He Hk Hx) as [H _].
    eapply klt_le; [apply H; lia|apply Hle; lia].
  - apply elem_of_concat_drop in Hx as (j & ns & Hj & Hk & Hx). pose proof (kids_length _ _ _ _ Hb) as Hlen.
    pose proof (lookup_lt_Some _ _ _ Hk). destruct (lookup_lt_is_Some_2 es (S i)) as [e' He']; [lia|].
    destruct (proj2 (Hsep _ _ Hs) (S i) j _ _ x ltac:(lia) He' Hk Hx) as [_ Hx2]. eapply klt_le; [apply (Hgt (S i) e'); [lia|done]|apply Hx2; lia].
Qed.

Abbreviation search_root := (mdb_page_search_root psize me_map mt_next_pgno mc_dbi c md_pad).

(** One level: the program goes on with the page of the chosen child. *)
Lemma search_step h a es kids fs k st fl fuel : branch_at (btree h) a es kids -> (S (length fs) < CURSOR_STACK)%nat ->
  exists i e, es !! i = Some e /\
    search_root (S fuel) (PS_KEY key) (cur (fs ++ [(a, k)]) st fl) =
      search_root fuel (PS_KEY key) (cur (fs ++ [(a, Z.of_nat i)] ++ [(addr e, 0)]) (tail st) fl) /\
    ((1 <= i)%nat -> key_order c (n_key e.2) key <> Gt) /\ (forall j e', (i < j)%nat -> es !! j = Some e' -> klt key (n_key e'.2)).
Proof.
  intros Hb Hd. pose proof Hb as ((l & Hh) & H2 & _). destruct (page_room _ _ _ _ Hh) as [Hlen _].
  destruct (node_search_run false a l es fs k st fl Hh) as (f & E & F); [done|exact (proj1 (Hsep _ _ ltac:(apply Hb)))|exact (branch_sorted _ _ _ _ Hb)|].
  destruct (chosen es f H2 F) as (Hi & Hr & Hle & Hgt). set (i := match f_node f with None => _ | Some _ => _ end) in *.
  destruct (lookup_lt_is_Some_2 es (Z.to_nat i)) as [e He]; [lia|]. exists (Z.to_nat i), e. split; [done|].
  assert (Kof : forall j e', es !! j = Some e' -> key_of (node_keys es) (Z.of_nat j) = n_key e'.2) by (intros j [o n] Hj; by apply key_of_node_keys with (o := o)).
  split; [|split].
  - cbn [mdb_page_search_root]. rewrite (bind_ret _ _ _ _ _ (top_page_run _ _ _ _ _)), (bind_ret _ _ _ _ _ (at_IS_BRANCH _ _ _ _ Hh _)).
    cbn [negb]. rewrite (bind_ret _ _ _ _ _ (at_NUMKEYS _ _ _ _ Hh _)). erewrite bind_ret; [|apply cassert_run, bool_decide_true; right; lia].
    rewrite (bind_ret _ _ _ _ _ E). destruct (kid_at _ _ _ _ _ _ Hb He) as (cs & _ & Hn & _).
    rewrite <- (go_down_run a l es (Z.to_nat i) e (search_root fuel (PS_KEY key)) fs (mc_ki f) st fl Hh He Hn Hd), Z2Nat.id by lia. unfold i in *.
    destruct (f_node f) as [v|].
    + destruct Hr as [Hr1 Hr2]; [done|]. rewrite (bind_ret _ _ _ _ _ (top_ki_run _ _ _ _ _)). destruct (exactp f); [done|].
      by erewrite bind_ret; [|apply cassert_run, bool_decide_true; lia].
    + by rewrite u16_fits by (unfold fits; lia).
  - intros H1. rewrite <- (Kof _ _ He), Z2Nat.id by lia. apply Hle. lia.
  - intros j e' Hj He'. rewrite <- (Kof _ _ He'). apply Hgt. apply lookup_lt_Some in He'. lia.
Qed.

Lemma search_key h : forall a ns fs k st fl fuel, btree h a ns -> (length fs + h < CURSOR_STACK)%nat -> (h < fuel)%nat ->
  exists fr pre leaf post st', search_root fuel (PS_KEY key) (cur (fs ++ [(a, k)]) st fl) =
      Ret (0, cur (fs ++ fr) st' (Cflags true false (fl_del fl) (fl_error fl))) /\
    bpath h a fr pre leaf post /\ ns = pre ++ leaf ++ post /\
    (forall x, x ∈ pre -> klt (n_key x) key) /\ (forall x, x ∈ post -> klt key (n_key x)).
Proof.
  induction h as [|h IH]; intros a ns fs k st fl fuel Ht Hd Hf; (destruct fuel as [|fuel]; [lia|]).
  - cbn [mdb_page_search_root]. pose proof Ht as (l & es & Hh & _).
    rewrite (bind_ret _ _ _ _ _ (top_page_run _ _ _ _ _)), (bind_ret _ _ _ _ _ (at_IS_BRANCH _ _ _ _ Hh _)).
    cbn [negb]. rewrite (bind_ret _ _ _ _ _ (at_IS_LEAF _ _ _ _ Hh _)). exists [(a, k)], [], ns, [], st. split; [done|].
    split; [split; [done|]; split; [done|]; split; [done|]; by exists k|]. split; [by rewrite app_nil_r|].
    split; intros x Hx; by apply elem_of_nil in Hx.
  - destruct Ht as (es & kids & Hb & ->). destruct (search_step h a es kids fs k st fl fuel Hb) as (i & e & He & Estep & Hle & Hgt); [lia|].
    destruct (kid_at _ _ _ _ _ _ Hb He) as (cs & Hk & _ & Hs). destruct (around _ _ _ _ _ _ Hb He Hle Hgt) as [Hbefore Hafter].
    destruct (IH (addr e) cs (fs ++ [(a, Z.of_nat i)]) 0 (tail st) fl fuel Hs) as (fr & pre & leaf & post & st' & E & Hp & -> & Hpre & Hpost);
      [rewrite length_app; cbn; lia|lia|].
    exists ((a, Z.of_nat i) :: fr), (concat (take i kids) ++ pre), leaf, (post ++ concat (drop (S i) kids)), st'.
    rewrite Estep. rewrite <- (app_assoc fs) in E. split; [rewrite E, <- app_assoc; done|].
    split; [exists es, kids, i, e, fr, pre, post; by split_and!|]. split.
    { rewrite <- (take_drop_middle _ _ _ Hk) at 1. rewrite concat_app. cbn [concat]. by rewrite <- !app_assoc. }
    split; intros x [Hx|Hx]%elem_of_app; auto.
Qed.

(** *** In the leaf *)

Lemma order_refl k : key_order c k k = Eq.
Proof. pose proof (order_opp k k) as H. by destruct (key_order c k k). Qed.

Lemma klt_ne a b : klt a b -> a <> b.
Proof. intros H ->. unfold klt in H. by rewrite order_refl in H. Qed.

Lemma sorted_leaf pre leaf post : sorted_nodes (pre ++ leaf ++ post) -> sorted_nodes leaf.
Proof. intros H. apply (sorted_kid [pre; leaf; post] 1 leaf); [cbn; by rewrite app_nil_r|done]. Qed.

Lemma leaf_sorted es : sorted_nodes es.*2 -> sorted_keys c 0 (node_keys es).
Proof.
  intros H i j Hij Hj. unfold node_keys in Hj. rewrite length_fmap in Hj.
  destruct (lookup_lt_is_Some_2 es (Z.to_nat i)) as [[o n] Hi]; [lia|]. destruct (lookup_lt_is_Some_2 es (Z.to_nat j)) as [[o' n'] Hj']; [lia|].
  pose proof (key_of_node_keys _ _ _ _ Hi) as E1. pose proof (key_of_node_keys _ _ _ _ Hj') as E2. rewrite Z2Nat.id in E1, E2 by lia. rewrite E1, E2.
  apply (H (Z.to_nat i) (Z.to_nat j)); [lia| |]; by rewrite list_lookup_fmap, ?Hi, ?Hj'.
Qed.

(** A node of the leaf that is not at the place found has another key. *)
Lemma found_unique es f j o n : found_at c key 0 (node_keys es) f -> es !! j = Some (o, n) -> n_key n = key ->
  exactp f = true /\ mc_ki f = Z.of_nat j.
Proof.
  intros (Hr & _ & He & Hb & Ha & _) Hj Hk. pose proof (key_of_node_keys _ _ _ _ Hj) as E. pose proof (lookup_lt_Some _ _ _ Hj) as Hlt.
  unfold node_keys in Hr, He, Ha. rewrite length_fmap in Hr, He, Ha. fold (node_keys es) in He, Ha.
  assert (Er : mc_ki f = Z.of_nat j).
  { destruct (Z.lt_trichotomy (mc_ki f) (Z.of_nat j)) as [H|[H|H]]; [|done|].
    - specialize (Ha (Z.of_nat j) ltac:(lia)). by rewrite E, Hk, order_refl in Ha.
    - specialize (Hb (Z.of_nat j) ltac:(lia)). by rewrite E, Hk, order_refl in Hb. }
  split; [|done]. apply He. rewrite Er, E, Hk, order_refl. split; [lia|done].
Qed.

Abbreviation cursor_set := (mdb_cursor_set psize me_map mt_next_pgno).

(** The end of mdb_cursor_set for MDB_SET, on the leaf. *)
Lemma set2_run b l es fs k st fl : holds true b l es -> es <> [] -> Forall plain es.*2 -> Forall (fun n => key_form c w (n_key n)) es.*2 -> sorted_nodes es.*2 ->
  exists r s', set2 psize me_map mt_next_pgno c md_pad key MDB_SET true (cur (fs ++ [(b, k)]) st fl) = Ret (r, s') /\
    TXN_ERROR s' = fl_error fl /\
    (forall n, n ∈ es.*2 -> n_key n = key -> r_rc r = 0 /\ exists v, r_data r = Some v /\ value_of n v) /\
    ((forall n, n ∈ es.*2 -> n_key n <> key) -> r = failed_with MDB_NOTFOUND).
Proof.
  intros Hh Hne Hpl Hkf Hs. destruct (node_search_run true b l es fs k st fl Hh) as (f & E & F);
    [done|intros i e _ He; exact (Forall_lookup_1 _ _ i e.2 Hkf ltac:(by rewrite list_lookup_fmap, He))|by apply leaf_sorted|].
  unfold set2. rewrite (bind_ret _ _ _ _ _ E). assert (Hin : forall n, n ∈ es.*2 -> exists j o, es !! j = Some (o, n)).
  { intros n Hn. apply list_elem_of_fmap in Hn as ([o m] & -> & Hn). apply list_elem_of_lookup in Hn as (j & Hj). by exists j, o. }
  destruct (exactp f) eqn:Ex; cbn [negb andb].
  - pose proof F as (Hr & Hn & He & _). rewrite Ex in He. destruct He as [He _]. destruct (He eq_refl) as [Hlt Heq]. rewrite Hn, decide_True by done.
    unfold node_keys in Hlt. rewrite length_fmap in Hlt. cbn [first_key] in Hr.
    destruct (lookup_lt_is_Some_2 es (Z.to_nat (mc_ki f))) as [[o n] Hi]; [lia|].
    pose proof (key_of_node_keys _ _ _ _ Hi) as Ek. rewrite Z2Nat.id in Ek by lia. rewrite Ek in Heq.
    apply order_eq in Heq; [|exact (Forall_lookup_1 _ _ _ n Hkf ltac:(by rewrite list_lookup_fmap, Hi))].
    assert (Hp : plain n) by (eapply Forall_lookup_1; [exact Hpl|]; rewrite list_lookup_fmap, Hi; done).
    destruct (node_read_run b l es _ o n Hh Hi (cur (fs ++ [(b, mc_ki f)]) st (Cflags true false (fl_del fl) (fl_error fl))) Hp) as (v & Hv & Er).
    exists (Reply 0 None (Some v)). eexists. split; [|split; [|split]].
    + rewrite (bind_ret _ _ _ _ _ (top_page_run _ _ _ _ _)), (bind_ret _ _ _ _ _ (at_IS_LEAF2 _ _ _ _ Hh _)).
      rewrite (bind_ret _ _ _ _ _ (at_NODEPTR _ _ _ _ Hh _ _ _ _ Hi)). unfold set1.
      rewrite (bind_ret _ _ _ _ _ (top_page_run _ _ _ _ _)), (bind_ret _ _ _ _ _ (top_ki_run _ _ _ _ _)).
      erewrite bind_ret; [|reflexivity]. change (Rcursor _ _ _ _ _ _) with (cur (fs ++ [(b, mc_ki f)]) st (Cflags true false (fl_del fl) (fl_error fl))).
      rewrite (bind_ret _ _ _ _ _ (at_IS_LEAF2 _ _ _ _ Hh _)), (bind_ret _ _ _ _ _ (at_flags _ _ _ _ _ _ Hh Hi _)). destruct Hp as [-> _].
      by rewrite (bind_ret _ _ _ _ _ Er).
    + done.
    + intros m Hm Hk. destruct (Hin m Hm) as (j & o' & Hj). destruct (found_unique es f j o' m F Hj Hk) as [_ Ej].
      rewrite Ej, Nat2Z.id in Hi. rewrite Hj in Hi. injection Hi as -> ->. split; [done|]. by exists v.
    + intros Hno. exfalso. apply (Hno n); [|done]. apply list_elem_of_lookup. exists (Z.to_nat (mc_ki f)). by rewrite list_lookup_fmap, Hi.
  - eexists _, _. split; [reflexivity|]. split; [done|]. split; [|done]. intros n Hn Hk. destruct (Hin n Hn) as (j & o & Hj).
    destruct (found_unique es f j o n F Hj Hk) as [Et _]. by rewrite Et in Ex.
Qed.
End Key.

(** ** To the next leaf *)

Abbreviation sib fuel := (mdb_cursor_sibling psize me_map mt_next_pgno fuel true).

(** The cursor is put on the first node of the leaf. *)
Definition at_first (fr : list (nat * Z)) : Prop := exists fr1 b, fr = fr1 ++ [(b, 0)].

Lemma at_first_cons f fr : at_first fr -> at_first (f :: fr).
Proof. intros (fr1 & b & ->). by exists (f :: fr1), b. Qed.

(** After the move on the page [a]: its child [i] is pushed. *)
Lemma enter_child sub a es kids i e fs st fl : branch_at sub a es kids -> es !! i = Some e -> (S (length fs) < CURSOR_STACK)%nat ->
  (mp ← top_page; branch ← at_page mp (IS_BRANCH 0); MdbTree.cassert branch;;
   ki ← top_ki; r ← child psize me_map mt_next_pgno mp ki;
   match r with
   | inl rc => set_flags false false;; mret rc
   | inr mp => mdb_cursor_push mp;; (if true then mret tt else n ← at_page mp (NUMKEYS 0); set_ki (n - 1));; mret 0
   end) (cur (fs ++ [(a, Z.of_nat i)]) st fl) = Ret (0, cur ((fs ++ [(a, Z.of_nat i)]) ++ [(addr e, 0)]) (tail st) fl).
Proof.
  intros Hb He Hd. pose proof Hb as ((l & Hh) & _). destruct (kid_at _ _ _ _ _ _ Hb He) as (ns & _ & Hn & _). destruct e as [o n].
  rewrite (bind_ret _ _ _ _ _ (top_page_run _ _ _ _ _)), (bind_ret _ _ _ _ _ (at_IS_BRANCH _ _ _ _ Hh _)).
  erewrite bind_ret; [|by apply cassert_run]. rewrite (bind_ret _ _ _ _ _ (top_ki_run _ _ _ _ _)).
  rewrite (bind_ret _ _ _ _ _ (child_run _ _ _ _ Hh _ _ _ _ He Hn)). cbv iota.
  by erewrite bind_ret; [|apply cursor_push_run; rewrite length_app; cbn; lia].
Qed.

(** One level: the page [a] under the one that is left has a next child. *)
Lemma sib_inside sub a es kids i e' fuel fs c k st fl : branch_at sub a es kids -> es !! S i = Some e' -> (S (length fs) < CURSOR_STACK)%nat ->
  exists st', sib (S fuel) (cur ((fs ++ [(a, Z.of_nat i)]) ++ [(c, k)]) st fl) =
    Ret (0, cur ((fs ++ [(a, Z.of_nat (S i))]) ++ [(addr e', 0)]) st' fl).
Proof.
  intros Hb He Hd. pose proof Hb as ((l & Hh) & _). destruct (page_room _ _ _ _ Hh) as [Hlen _]. pose proof (lookup_lt_Some _ _ _ He).
  cbn [mdb_cursor_sibling]. rewrite (bind_ret _ _ _ _ _ (gets_run id _)). cbn [id cur mc_snum]. rewrite decide_False by (rewrite !length_app; cbn; lia).
  change (Rcursor _ _ _ _ _ _) with (cur ((fs ++ [(a, Z.of_nat i)]) ++ [(c, k)]) st fl).
  erewrite bind_ret; [|apply pop_run; intros Hx; by apply app_eq_nil in Hx as [_ Hx]].
  rewrite (bind_ret _ _ _ _ _ (top_page_run _ _ _ _ _)), (bind_ret _ _ _ _ _ (top_ki_run _ _ _ _ _)), (bind_ret _ _ _ _ _ (at_NUMKEYS _ _ _ _ Hh _)).
  rewrite bool_decide_false by lia. cbv iota. erewrite bind_ret; [|by erewrite bind_ret; [|apply set_ki_run]]. rewrite decide_False by lia.
  rewrite u16_fits by (unfold fits; lia). replace (Z.of_nat i + 1) with (Z.of_nat (S i)) by lia.
  eexists. by apply (enter_child _ _ _ _ _ _ _ _ _ Hb He).
Qed.

(** The page [a] has no next child: what its own siblings give, and then down again. *)
Lemma sib_up sub a es kids i fuel fs c k st fl : branch_at sub a es kids -> S i = length es ->
  (forall rc, rc <> 0 -> (forall st0, sib fuel (cur (fs ++ [(a, Z.of_nat i)]) st0 fl) = Ret (rc, cur (fs ++ [(a, Z.of_nat i)]) st0 fl)) ->
     sib (S fuel) (cur ((fs ++ [(a, Z.of_nat i)]) ++ [(c, k)]) st fl) = Ret (rc, cur ((fs ++ [(a, Z.of_nat i)]) ++ [(c, k)]) st fl)) /\
  (forall fs2 b es2 kids2 e2, (forall st0, exists st1, sib fuel (cur (fs ++ [(a, Z.of_nat i)]) st0 fl) = Ret (0, cur (fs2 ++ [(b, 0)]) st1 fl)) ->
     branch_at sub b es2 kids2 -> es2 !! 0%nat = Some e2 -> (S (length fs2) < CURSOR_STACK)%nat ->
     exists st', sib (S fuel) (cur ((fs ++ [(a, Z.of_nat i)]) ++ [(c, k)]) st fl) = Ret (0, cur ((fs2 ++ [(b, 0)]) ++ [(addr e2, 0)]) st' fl)).
Proof.
  intros Hb Hi. pose proof Hb as ((l & Hh) & H2 & _). destruct (page_room _ _ _ _ Hh) as [Hlen _].
  assert (Hne : fs ++ [(a, Z.of_nat i)] <> []) by (intros Hx; by apply app_eq_nil in Hx as [_ Hx]).
  assert (Hstep : forall st1 rc fr, sib fuel (cur (fs ++ [(a, Z.of_nat i)]) (Frame (Some c) k :: st) fl) = Ret (rc, cur fr st1 fl) ->
    sib (S fuel) (cur ((fs ++ [(a, Z.of_nat i)]) ++ [(c, k)]) st fl) =
    (if decide (rc <> 0) then s ← gets id; set_snum (S (mc_snum s));; mret rc
     else mp ← top_page; branch ← at_page mp (IS_BRANCH 0); MdbTree.cassert branch;;
       ki ← top_ki; r ← child psize me_map mt_next_pgno mp ki;
       match r with
       | inl rc => set_flags false false;; mret rc
       | inr mp => mdb_cursor_push mp;; (if true then mret tt else n ← at_page mp (NUMKEYS 0); set_ki (n - 1));; mret 0
       end) (cur fr st1 fl)).
  { intros st1 rc fr E. cbn [mdb_cursor_sibling]. rewrite (bind_ret _ _ _ _ _ (gets_run id _)). cbn [id cur mc_snum].
    rewrite decide_False by (rewrite !length_app; cbn; lia).
    change (Rcursor _ _ _ _ _ _) with (cur ((fs ++ [(a, Z.of_nat i)]) ++ [(c, k)]) st fl).
    rewrite (bind_ret _ _ _ _ _ (pop_run _ _ _ _ _ Hne)).
    rewrite (bind_ret _ _ _ _ _ (top_page_run _ _ _ _ _)), (bind_ret _ _ _ _ _ (top_ki_run _ _ _ _ _)), (bind_ret _ _ _ _ _ (at_NUMKEYS _ _ _ _ Hh _)).
    rewrite bool_decide_true by lia. cbv iota. by rewrite (bind_ret _ _ _ _ _ E). }
  split.
  - intros rc Hrc E. rewrite (Hstep _ _ _ (E _)), decide_True by done. rewrite (bind_ret _ _ _ _ _ (gets_run id _)).
    by erewrite bind_ret; [|apply unpop_run].
  - intros fs2 b es2 kids2 e2 E Hb2 He2 Hd. destruct (E (Frame (Some c) k :: st)) as (st1 & E1). rewrite (Hstep _ _ _ E1), decide_False by lia.
    eexists. apply (enter_child _ _ _ _ 0 _ _ _ _ Hb2 He2). lia.
Qed.

Lemma no_more_kids h a es kids i (post : list node) : branch_at (btree h) a es kids -> post ++ concat (drop (S i) kids) = [] -> (i < length es)%nat ->
  post = [] /\ S i = length es.
Proof.
  intros Hb Hp Hi. apply app_eq_nil in Hp as [-> Hp]. split; [done|]. destruct (decide (S i < length es)%nat) as [He|He]; [|lia].
  destruct (lookup_lt_is_Some_2 es (S i) He) as [e He']. destruct (kid_at _ _ _ _ _ _ Hb He') as (ns & Hk & _ & Ht).
  rewrite (drop_S _ _ _ Hk) in Hp. cbn in Hp. apply app_eq_nil in Hp as [Hp _]. by apply btree_nonempty in Ht.
Qed.

(** The whole subtree is behind: what the siblings of its root give, and down to their first leaf. *)
Lemma sib_out h : forall a fr pre ns, bpath h a fr pre ns [] -> exists ka, head fr = Some (a, ka) /\
  forall fs st fl fuel, (length fs + h < CURSOR_STACK)%nat ->
  (forall rc, rc <> 0 -> (forall st0, sib fuel (cur (fs ++ [(a, ka)]) st0 fl) = Ret (rc, cur (fs ++ [(a, ka)]) st0 fl)) ->
     sib (h + fuel) (cur (fs ++ fr) st fl) = Ret (rc, cur (fs ++ fr) st fl)) /\
  (forall fs2 b ns2, (forall st0, exists st1, sib fuel (cur (fs ++ [(a, ka)]) st0 fl) = Ret (0, cur (fs2 ++ [(b, 0)]) st1 fl)) ->
     btree h b ns2 -> (length fs2 + h < CURSOR_STACK)%nat ->
     exists fr' ns' post' st', sib (h + fuel) (cur (fs ++ fr) st fl) = Ret (0, cur (fs2 ++ fr') st' fl) /\
       bpath h b fr' [] ns' post' /\ ns2 = ns' ++ post' /\ at_first fr').
Proof.
  induction h as [|h IH]; intros a fr pre ns Hp.
  - destruct Hp as (_ & _ & _ & k & ->). exists k. split; [done|]. intros fs st fl fuel _. split; [intros rc _ H; apply H|].
    intros fs2 b ns2 H Hb _. destruct (H st) as (st1 & E). exists [(b, 0)], ns2, [], st1. split; [exact E|].
    split; [split_and!; try done; by exists 0|]. split; [by rewrite app_nil_r|]. by exists [], b.
  - destruct Hp as (es & kids & i & e & fr1 & pre1 & post1 & Hb & He & Hk & Hp & -> & _ & Hpost).
    pose proof (lookup_lt_Some _ _ _ He) as Hlt. destruct (no_more_kids h a es kids i post1 Hb (eq_sym Hpost) Hlt) as [-> Hi].
    destruct (IH _ _ _ _ Hp) as (kc & _ & Hall). clear IH. exists (Z.of_nat i). split; [done|]. intros fs st fl fuel Hd.
    destruct (Hall (fs ++ [(a, Z.of_nat i)]) st fl (S fuel)) as [Hend Hgo]; [rewrite length_app; cbn; lia|].
    replace (S h + fuel)%nat with (h + S fuel)%nat by lia. rewrite (app_assoc fs [(a, Z.of_nat i)] fr1 : fs ++ (a, Z.of_nat i) :: fr1 = _). split.
    + intros rc Hrc H. apply Hend; [done|]. intros st0. by apply (sib_up _ _ _ _ _ _ _ _ _ _ _ Hb Hi).
    + intros fs2 b ns2 H (es2 & kids2 & Hb2 & ->) Hd2. pose proof Hb2 as (_ & H2 & _).
      destruct (lookup_lt_is_Some_2 es2 0) as [e2 He2]; [lia|]. destruct (kid_at _ _ _ _ _ _ Hb2 He2) as (k0 & Hk2 & _ & Ht2).
      destruct (Hgo (fs2 ++ [(b, 0)]) (addr e2) k0) as (fr' & ns' & post' & st' & E & Hp' & -> & Hf);
        [| done | rewrite length_app; cbn; lia |].
      { intros st0. destruct (sib_up _ _ _ _ _ fuel fs (addr e) kc st0 fl Hb Hi) as [_ G]. apply (G fs2 b es2 kids2 e2); done || lia. }
      exists ((b, 0) :: fr'), ns', (post' ++ concat (drop 1 kids2)), st'. rewrite <- (app_assoc fs2) in E. split; [exact E|].
      destruct kids2 as [|k1 kids2]; [done|]. injection Hk2 as ->.
      split; [|split; [cbn; by rewrite <- app_assoc|by apply at_first_cons]]. exists es2, ((ns' ++ post') :: kids2), 0%nat, e2, fr', [], post'. by split_and!.
Qed.

(** The next leaf of the tree. *)
Lemma sib_next h : forall a fr pre ns post, bpath h a fr pre ns post -> post <> [] -> forall fs st fl fuel,
  (length fs + h < CURSOR_STACK)%nat -> (h < fuel)%nat ->
  exists fr' ns' post' st', sib fuel (cur (fs ++ fr) st fl) = Ret (0, cur (fs ++ fr') st' fl) /\
    bpath h a fr' (pre ++ ns) ns' post' /\ post = ns' ++ post' /\ at_first fr'.
Proof.
  induction h as [|h IH]; intros a fr pre ns post Hp Hne fs st fl fuel Hd Hf; [by destruct Hp as (_ & _ & -> & _)|].
  destruct Hp as (es & kids & i & e & fr1 & pre1 & post1 & Hb & He & Hk & Hp & -> & -> & ->).
  rewrite (app_assoc fs [(a, Z.of_nat i)] fr1 : fs ++ (a, Z.of_nat i) :: fr1 = _). destruct (decide (post1 = [])) as [->|Hne1].
  - destruct (sib_out _ _ _ _ _ Hp) as (kc & _ & Hall).
    destruct (Hall (fs ++ [(a, Z.of_nat i)]) st fl (S (fuel - S h))) as [_ Hgo]; [rewrite length_app; cbn; lia|].
    pose proof (kids_length _ _ _ _ Hb) as Hlen. cbn [app] in Hne.
    destruct (decide (S i < length es)%nat) as [Hlt|Hlt]; [|by rewrite drop_ge in Hne by lia].
    destruct (lookup_lt_is_Some_2 es (S i) Hlt) as [e' He']. destruct (kid_at _ _ _ _ _ _ Hb He') as (k' & Hk' & _ & Ht').
    destruct (Hgo (fs ++ [(a, Z.of_nat (S i))]) (addr e') k') as (fr' & ns' & post' & st' & E & Hp' & -> & Hfr);
      [intros st0; apply (sib_inside _ _ _ _ _ _ _ _ _ _ _ _ Hb He'); lia | done | rewrite length_app; cbn; lia |].
    replace (h + S (fuel - S h))%nat with fuel in E by lia. rewrite <- (app_assoc fs [(a, Z.of_nat (S i))]) in E.
    exists ((a, Z.of_nat (S i)) :: fr'), ns', (post' ++ concat (drop (S (S i)) kids)), st'. split; [exact E|].
    split; [|split; [|by apply at_first_cons]].
    + exists es, kids, (S i), e', fr', [], post'. split_and!; try done.
      rewrite (take_S_r _ _ _ Hk), concat_app. cbn. by rewrite !app_nil_r, <- !app_assoc.
    + rewrite (drop_S _ _ _ Hk'). cbn. by rewrite <- app_assoc.
  - destruct (IH _ _ _ _ _ Hp Hne1 (fs ++ [(a, Z.of_nat i)]) st fl fuel) as (fr' & ns' & post' & st' & E & Hp' & -> & Hfr);
      [rewrite length_app; cbn; lia|lia|]. rewrite <- (app_assoc fs [(a, Z.of_nat i)] fr') in E.
    exists ((a, Z.of_nat i) :: fr'), ns', (post' ++ concat (drop (S i) kids)), st'. split; [exact E|].
    split; [|split; [by rewrite <- app_assoc|by apply at_first_cons]].
    exists es, kids, i, e, fr', (pre1 ++ ns), post'. split_and!; try done; [by rewrite <- app_assoc|by rewrite <- app_assoc].
Qed.

(** ** From the root *)

Section Root.
Variables (md_root mc_dbi : Z) (c : md_cmp) (md_pad : nat).
Hypothesis Hroot : 1 < md_root < mt_next_pgno /\ md_root <> P_INVALID.

(** A cursor without a page starts at the root. *)
Lemma page_search_run flags k st fl : fl_error fl = false ->
  mdb_page_search psize me_map mt_next_pgno md_root mc_dbi c md_pad false flags (cur [] (Frame None k :: st) fl) =
  mdb_page_search_root psize me_map mt_next_pgno mc_dbi c md_pad (S CURSOR_STACK) flags (cur ([] ++ [(page_addr md_root, k)]) st fl).
Proof.
  intros Hfl. destruct Hroot as [Hr1 Hr2]. unfold mdb_page_search.
  erewrite bind_ret; [|unfold is_blocked; rewrite (bind_ret _ _ _ _ _ (gets_run id _)); cbn [id cur MdbTree.TXN_ERROR orb]; by rewrite Hfl].
  cbv iota. rewrite decide_False by done.
  erewrite bind_ret; [|apply cassert_run, bool_decide_true; lia].
  assert (E : root_page psize me_map mt_next_pgno md_root (cur [] (Frame None k :: st) fl) =
    Ret (0, Rcursor (Frame (Some (page_addr md_root)) k :: st) 0 (fl_init fl) (fl_eof fl) (fl_del fl) (fl_error fl))).
  { unfold root_page. erewrite bind_ret; [|reflexivity]. cbn [f_pg f_ki]. erewrite bind_ret; [|reflexivity].
    cbv iota. erewrite bind_ret; [|apply page_get_run; lia]. cbv iota. erewrite bind_ret; [|reflexivity]. done. }
  rewrite (bind_ret _ _ _ _ _ E). done.
Qed.

Lemma fresh_is_cur e : fresh_cursor e = cur [] [Frame None 0] (Cflags false false false e).
Proof. done. Qed.

(** ** Walking over the nodes *)

(** What is given back on the node [n]. *)
Definition reads (n : node) (r : reply) : Prop :=
  r_rc r = 0 /\ r_key r = Some (n_key n) /\ exists v, r_data r = Some v /\ value_of n v.

Lemma node_reply_run b l es i o n s : holds true b l es -> es !! i = Some (o, n) -> plain n ->
  exists r, node_reply psize me_map mt_next_pgno b (Z.to_nat o) s = Ret (r, s) /\ reads n r.
Proof.
  intros Hh Hi Hp. destruct (node_read_run _ _ _ _ _ _ Hh Hi s Hp) as (v & Hv & E). exists (Reply 0 (Some (n_key n)) (Some v)).
  split; [|split; [done|split; [done|by exists v]]]. unfold node_reply. rewrite (bind_ret _ _ _ _ _ (at_flags _ _ _ _ _ _ Hh Hi s)).
  destruct Hp as [-> _]. rewrite (bind_ret _ _ _ _ _ E). rewrite decide_False by (cbn; lia).
  by rewrite (bind_ret _ _ _ _ _ (node_key_run _ _ _ _ _ _ Hh Hi s)).
Qed.

Lemma leaf_node b ns j n : leaf_at b ns -> ns !! j = Some n -> exists l es o, holds true b l es /\ es !! j = Some (o, n) /\ plain n /\ length es = length ns.
Proof.
  intros (l & es & Hh & <- & _ & Hp) Hj. rewrite list_lookup_fmap in Hj. destruct (es !! j) as [[o m]|] eqn:He; [|done]. injection Hj as ->.
  exists l, es, o. split; [done|]. split; [done|]. split; [|by rewrite length_fmap].
  eapply Forall_lookup_1; [exact Hp|]. by rewrite list_lookup_fmap, He.
Qed.

Lemma here_run fs b ns j n st fl : leaf_at b ns -> ns !! j = Some n ->
  exists r, here psize me_map mt_next_pgno md_pad false (cur (fs ++ [(b, Z.of_nat j)]) st fl) =
    Ret (r, cur (fs ++ [(b, Z.of_nat j)]) st fl) /\ reads n r.
Proof.
  intros Hb Hj. destruct (leaf_node _ _ _ _ Hb Hj) as (l & es & o & Hh & He & Hp & _). unfold here.
  destruct (node_reply_run b l es j o n (cur (fs ++ [(b, Z.of_nat j)]) st fl) Hh He Hp) as (r & E & Hr). exists r. split; [|done].
  rewrite (bind_ret _ _ _ _ _ (top_page_run _ _ _ _ _)), (bind_ret _ _ _ _ _ (top_ki_run _ _ _ _ _)), (bind_ret _ _ _ _ _ (at_IS_LEAF _ _ _ _ Hh _)).
  cbn [negb andb]. rewrite (bind_ret _ _ _ _ _ (at_IS_LEAF2 _ _ _ _ Hh _)). erewrite bind_ret; [|by apply cassert_run].
  rewrite Nat2Z.id. by rewrite (bind_ret _ _ _ _ _ (at_NODEPTR _ _ _ _ Hh _ _ _ _ He)).
Qed.

Abbreviation root := (page_addr md_root).
Abbreviation next := (mdb_cursor_next psize me_map mt_next_pgno md_root mc_dbi c md_pad false MDB_NEXT).

(** The cursor is on a node of the tree, and [rest] comes after it; or it is at the end ([eof]). *)
Definition ahead (h : nat) (rest : list node) (eof : bool) (s : rcursor) : Prop :=
  exists fs b j pre ns post st, s = cur (fs ++ [(b, Z.of_nat j)]) st (Cflags true eof false false) /\
    bpath h root (fs ++ [(b, Z.of_nat j)]) pre ns post /\ (j < length ns)%nat /\ rest = drop (S j) ns ++ post.

Lemma bpath_leaf h a fs b k pre ns post : bpath h a (fs ++ [(b, k)]) pre ns post ->
  leaf_at b ns /\ length fs = h /\ forall k', bpath h a (fs ++ [(b, k')]) pre ns post.
Proof.
  intros Hp. destruct (bpath_last _ _ _ _ _ _ Hp) as (fr1 & b' & k1 & E & Hl & Hall). apply app_inj_tail in E as [-> [= -> ->]].
  split; [done|]. split; [|done]. destruct (bpath_length _ _ _ _ _ _ Hp) as [Hlen _]. rewrite length_app in Hlen. cbn in Hlen. lia.
Qed.

Lemma next_begin eof fs b j ns st : leaf_at b ns -> (j < length ns)%nat -> (eof = true -> (S j < length ns)%nat) ->
  next (cur (fs ++ [(b, Z.of_nat j)]) st (Cflags true eof false false)) =
  (if decide (Z.of_nat j + 1 >= Z.of_nat (length ns)) then
     rc ← sibling psize me_map mt_next_pgno true;
     if decide (rc <> 0) then set_eof true;; mret (failed_with rc) else here psize me_map mt_next_pgno md_pad false
   else set_ki (Z.of_nat j + 1);; here psize me_map mt_next_pgno md_pad false)
  (cur (fs ++ [(b, Z.of_nat j)]) st (Cflags true false false false)).
Proof.
  intros Hb Hj He. destruct (lookup_lt_is_Some_2 ns j Hj) as [n Hn]. destruct (leaf_node _ _ _ _ Hb Hn) as (l & es & o & Hh & _ & _ & Hlen).
  destruct (page_room _ _ _ _ Hh) as [Hr _]. unfold mdb_cursor_next. rewrite (bind_ret _ _ _ _ _ (gets_run id _)).
  cbn [id cur MdbTree.C_INITIALIZED MdbTree.C_EOF MdbTree.C_DEL fl_init fl_eof fl_del negb andb].
  change (Rcursor _ _ _ _ _ _) with (cur (fs ++ [(b, Z.of_nat j)]) st (Cflags true eof false false)).
  rewrite (bind_ret _ _ _ _ _ (top_page_run _ _ _ _ _)), (bind_ret _ _ _ _ _ (top_ki_run _ _ _ _ _)), (bind_ret _ _ _ _ _ (at_NUMKEYS _ _ _ _ Hh _)).
  rewrite Hlen. destruct eof; [|cbn [andb]; cbv iota; by erewrite bind_ret; [|reflexivity]].
  specialize (He eq_refl). rewrite bool_decide_false by (rewrite wrap_fits by (unfold fits; lia); lia). cbn [andb]. cbv iota.
  by erewrite bind_ret; [|unfold set_eof; erewrite bind_ret; [|reflexivity]; reflexivity].
Qed.

Lemma sibling_run fs b k st fl : sibling psize me_map mt_next_pgno true (cur (fs ++ [(b, k)]) st fl) = sib (S (S (length fs))) (cur (fs ++ [(b, k)]) st fl).
Proof.
  unfold sibling. rewrite (bind_ret _ _ _ _ _ (gets_run id _)). cbn [id]. unfold cur at 1. cbn [mc_snum]. by rewrite length_app, Nat.add_1_r.
Qed.

Lemma next_step h rest s : (h < CURSOR_STACK)%nat -> ahead h rest false s ->
  match rest with
  | [] => exists s', next s = Ret (failed_with MDB_NOTFOUND, s') /\ ahead h [] true s'
  | n :: rest => exists r s', next s = Ret (r, s') /\ reads n r /\ ahead h rest false s'
  end.
Proof.
  intros Hh (fs & b & j & pre & ns & post & st & -> & Hp & Hj & ->). destruct (bpath_leaf _ _ _ _ _ _ _ _ Hp) as (Hb & Hlen & Hall).
  rewrite (next_begin false fs b j ns st Hb Hj ltac:(done)). destruct (decide (S j < length ns)%nat) as [Hin|Hout].
  - destruct (lookup_lt_is_Some_2 ns (S j) Hin) as [n Hn]. rewrite (drop_S _ _ _ Hn). cbn [app]. rewrite decide_False by lia.
    destruct (leaf_node _ _ _ _ Hb Hn) as (l & es & o & Hl & _ & _ & Hle). destruct (page_room _ _ _ _ Hl) as [Hr _].
    destruct (here_run fs b ns (S j) n st (Cflags true false false false) Hb Hn) as (r & E & Hrd).
    exists r, (cur (fs ++ [(b, Z.of_nat (S j))]) st (Cflags true false false false)). split; [|split; [done|]].
    + rewrite (bind_ret _ _ _ _ _ (set_ki_run _ _ _ _ _ _)). rewrite u16_fits by (unfold fits; lia).
      replace (Z.of_nat j + 1) with (Z.of_nat (S j)) by lia. exact E.
    + exists fs, b, (S j), pre, ns, post, st. split_and!; try done.
  - rewrite drop_ge by lia. cbn [app]. rewrite decide_True by lia. destruct post as [|n post].
    + destruct (sib_out _ _ _ _ _ Hp) as (ka & _ & Hends). destruct (Hends [] st (Cflags true false false false) 2%nat) as [Hend _]; [cbn; lia|].
      specialize (Hend MDB_NOTFOUND ltac:(done) ltac:(done)). replace (h + 2)%nat with (S (S (length fs))) in Hend by lia. cbn [app] in Hend.
      exists (cur (fs ++ [(b, Z.of_nat j)]) st (Cflags true true false false)). split.
      * erewrite bind_ret; [|rewrite sibling_run; exact Hend]. rewrite decide_True by done. by erewrite bind_ret; [|unfold set_eof; by erewrite bind_ret; [|reflexivity]].
      * exists fs, b, j, pre, ns, [], st. split_and!; try done. by rewrite drop_ge by lia.
    + destruct (sib_next _ _ _ _ _ _ Hp ltac:(done) [] st (Cflags true false false false) (S (S (length fs)))) as (fr' & ns' & post' & st' & E & Hp' & Ens & (fs' & b' & ->));
        [cbn; lia|lia|]. destruct (bpath_leaf _ _ _ _ _ _ _ _ Hp') as (Hb' & _). pose proof Hb' as (_ & _ & _ & _ & Hne & _).
      destruct ns' as [|n' ns']; [done|]. injection Ens as -> ->. change 0 with (Z.of_nat 0) in E, Hp'. cbn [app] in E.
      destruct (here_run fs' b' (n' :: ns') 0 n' st' (Cflags true false false false) Hb' eq_refl) as (r & Er & Hrd).
      exists r, (cur (fs' ++ [(b', Z.of_nat 0)]) st' (Cflags true false false false)). split; [|split; [done|]].
      * erewrite bind_ret; [|rewrite sibling_run; exact E]. by rewrite decide_False by lia.
      * exists fs', b', 0%nat, (pre ++ ns), (n' :: ns'), post', st'. split_and!; try done. cbn. lia.
Qed.

(** At the end it stays at the end. *)
Lemma next_end h s : ahead h [] true s -> next s = Ret (failed_with MDB_NOTFOUND, s).
Proof.
  intros (fs & b & j & pre & ns & post & st & -> & Hp & Hj & He). symmetry in He. apply app_eq_nil in He as [He _].
  assert (Hend : S j = length ns) by (assert (length (drop (S j) ns) = 0%nat) by (by rewrite He); rewrite length_drop in *; lia).
  destruct (bpath_leaf _ _ _ _ _ _ _ _ Hp) as (Hb & _). destruct (lookup_lt_is_Some_2 ns j Hj) as [n Hn].
  destruct (leaf_node _ _ _ _ Hb Hn) as (l & es & o & Hh & _ & _ & Hlen). destruct (page_room _ _ _ _ Hh) as [Hr _].
  unfold mdb_cursor_next. rewrite (bind_ret _ _ _ _ _ (gets_run id _)).
  cbn [id cur MdbTree.C_INITIALIZED MdbTree.C_EOF MdbTree.C_DEL fl_init fl_eof fl_del negb andb].
  change (Rcursor _ _ _ _ _ _) with (cur (fs ++ [(b, Z.of_nat j)]) st (Cflags true true false false)).
  rewrite (bind_ret _ _ _ _ _ (top_page_run _ _ _ _ _)), (bind_ret _ _ _ _ _ (top_ki_run _ _ _ _ _)), (bind_ret _ _ _ _ _ (at_NUMKEYS _ _ _ _ Hh _)).
  rewrite Hlen, wrap_fits by (unfold fits; lia). by rewrite bool_decide_true by lia.
Qed.

Lemma first_step h ns : (h < CURSOR_STACK)%nat -> btree h root ns -> exists n rest, ns = n :: rest /\
  exists r s', next (fresh_cursor false) = Ret (r, s') /\ reads n r /\ ahead h rest false s'.
Proof.
  intros Hh Ht. destruct (search_first mc_dbi c md_pad h root ns [] 0 [] (Cflags false false false false) (S CURSOR_STACK) Ht)
    as (fr & leaf & post & st' & E & Hp & ->); [cbn; lia|lia|]. cbn [app] in E.
  destruct (bpath_last _ _ _ _ _ _ Hp) as (fs & b & k & -> & Hb & Hall). pose proof Hb as (_ & _ & _ & _ & Hne & _).
  destruct leaf as [|n leaf]; [done|]. exists n, (leaf ++ post). split; [done|].
  destruct (leaf_node b (n :: leaf) 0 n Hb eq_refl) as (l & es & o & Hl & He & Hpn & Hlen).
  destruct (node_reply_run b l es 0 o n (cur (fs ++ [(b, Z.of_nat 0)]) st' (Cflags true false false false)) Hl He Hpn) as (r & Er & Hrd).
  exists r, (cur (fs ++ [(b, Z.of_nat 0)]) st' (Cflags true false false false)). split; [|split; [done|]].
  - unfold mdb_cursor_next. rewrite (bind_ret _ _ _ _ _ (gets_run id _)). cbn [id fresh_cursor MdbTree.C_INITIALIZED MdbTree.C_DEL negb andb].
    unfold mdb_cursor_first. rewrite (bind_ret _ _ _ _ _ (gets_run id _)). cbn [id fresh_cursor MdbTree.C_INITIALIZED negb orb].
    rewrite fresh_is_cur. erewrite bind_ret; [|rewrite page_search_run by done; exact E]. rewrite decide_False by lia.
    rewrite (bind_ret _ _ _ _ _ (top_page_run _ _ _ _ _)), (bind_ret _ _ _ _ _ (at_IS_LEAF _ _ _ _ Hl _)). erewrite bind_ret; [|by apply cassert_run].
    rewrite (bind_ret _ _ _ _ _ (at_NODEPTR _ _ _ _ Hl _ _ _ _ He)). erewrite bind_ret; [|reflexivity].
    change (Rcursor _ _ _ _ _ _) with (cur (fs ++ [(b, k)]) st' (Cflags true false false false)).
    rewrite (bind_ret _ _ _ _ _ (set_ki_run _ _ _ _ _ _)), (bind_ret _ _ _ _ _ (at_IS_LEAF2 _ _ _ _ Hl _)). exact Er.
  - exists fs, b, 0%nat, [], (n :: leaf), post, st'. split_and!; try done; cbn; lia.
Qed.

(** MDB_NEXT, again and again. *)
Abbreviation get_next := (mdb_cursor_get psize me_map mt_next_pgno md_root mc_dbi c md_pad false MDB_NEXT).

Fixpoint walk (n : nat) : ST rcursor (list reply) :=
  match n with O => mret [] | S n => r ← get_next []; rs ← walk n; mret (r :: rs) end.

Lemma get_next_run s r s' : TXN_ERROR s = false -> next s = Ret (r, s') -> C_DEL s' = false -> get_next [] s = Ret (r, s').
Proof.
  intros He E Hd. unfold mdb_cursor_get. erewrite bind_ret; [|unfold is_blocked; rewrite (bind_ret _ _ _ _ _ (gets_run id _)); cbn [id orb]; by rewrite He].
  cbv iota. rewrite (bind_ret _ _ _ _ _ E). destruct s' as [fs n i e d t]. cbn in Hd. by subst d.
Qed.

Lemma ahead_ok h rest eof s : ahead h rest eof s -> TXN_ERROR s = false.
Proof. by intros (fs & b & j & pre & ns & post & st & -> & _). Qed.

Lemma ahead_del h rest eof s : ahead h rest eof s -> C_DEL s = false.
Proof. by intros (fs & b & j & pre & ns & post & st & -> & _). Qed.

Lemma walk_end h k : forall s, ahead h [] true s -> walk k s = Ret (repeat (failed_with MDB_NOTFOUND) k, s).
Proof.
  induction k as [|k IH]; intros s Hs; [done|]. cbn [walk repeat].
  rewrite (bind_ret _ _ _ _ _ (get_next_run _ _ _ (ahead_ok _ _ _ _ Hs) (next_end _ _ Hs) (ahead_del _ _ _ _ Hs))). by rewrite (bind_ret _ _ _ _ _ (IH s Hs)).
Qed.

Lemma walk_rest h k : (h < CURSOR_STACK)%nat -> forall rest s, ahead h rest false s ->
  exists rs s', walk (length rest + k) s = Ret (rs ++ repeat (failed_with MDB_NOTFOUND) k, s') /\ Forall2 reads rest rs.
Proof.
  intros Hh. induction rest as [|n rest IH]; intros s Hs.
  - destruct k as [|k]; [by exists [], s|]. destruct (next_step _ _ _ Hh Hs) as (s' & E & Hs'). exists [], s'. split; [|done]. cbn [length Nat.add walk app repeat].
    rewrite (bind_ret _ _ _ _ _ (get_next_run _ _ _ (ahead_ok _ _ _ _ Hs) E (ahead_del _ _ _ _ Hs'))). by rewrite (bind_ret _ _ _ _ _ (walk_end _ _ _ Hs')).
  - destruct (next_step _ _ _ Hh Hs) as (r & s1 & E & Hr & Hs1). destruct (IH s1 Hs1) as (rs & s' & Ew & F).
    exists (r :: rs), s'. split; [|by constructor]. cbn [length Nat.add walk].
    rewrite (bind_ret _ _ _ _ _ (get_next_run _ _ _ (ahead_ok _ _ _ _ Hs) E (ahead_del _ _ _ _ Hs1))). by rewrite (bind_ret _ _ _ _ _ Ew).
Qed.
End Root.
End Tree.

(** C19: mdb_get in a read-only transaction, on a b-tree of any height below the size of the cursor's stack, whose keys are
    in the order of a comparison of LMDB - the bytes, the bytes from the end, or, for keys that are integers of one
    size, their value - and separated by the keys of the branches.  It returns: with the size and the
    data of the node that has the key, from the leaf or from its overflow pages, when there is one; with MDB_NOTFOUND
    when there is none.  The transaction is not marked as failed. *)
Theorem mdb_get_spec psize me_map mt_next_pgno md_root mc_dbi c w md_pad key h ns :
  key_form c w key -> Forall (fun n => key_form c w (n_key n)) ns -> fits 32 (size key) -> key <> [] ->
  1 < md_root < mt_next_pgno /\ md_root <> P_INVALID -> (h < CURSOR_STACK)%nat ->
  btree psize me_map mt_next_pgno (separates c w) h (page_addr psize md_root) ns -> sorted_nodes c ns ->
  exists r s', mdb_get psize me_map mt_next_pgno md_root mc_dbi c md_pad false key (fresh_cursor false) = Ret (r, s') /\
    TXN_ERROR s' = false /\
    (forall n, n ∈ ns -> n_key n = key -> r_rc r = 0 /\ exists v, r_data r = Some v /\ value_of psize me_map n v) /\
    ((forall n, n ∈ ns -> n_key n <> key) -> r = failed_with MDB_NOTFOUND).
Proof.
  intros Hform Hkf Hsize Hne Hroot Hh Ht Hs. unfold mdb_get. erewrite (bind_ret (is_blocked false) _ (fresh_cursor false) false (fresh_cursor false)); [|reflexivity]. cbv iota.
  unfold mdb_cursor_set. rewrite decide_False by done. rewrite fresh_is_cur.
  rewrite (bind_ret _ _ _ _ _ (gets_run id _)). cbn [id cur MdbTree.C_INITIALIZED fl_init].
  change (Rcursor _ _ _ _ _ _) with (cur [] [Frame None 0] (Cflags false false false false)).
  erewrite bind_ret; [|reflexivity]. change (Rcursor _ _ _ _ _ _) with (cur [] [Frame None 0] (Cflags false false false false)).
  destruct (search_key psize me_map mt_next_pgno (separates c w) mc_dbi c w md_pad key Hform Hsize ltac:(done) h _ ns [] 0 [] (Cflags false false false false) (S CURSOR_STACK) Ht)
    as (fr & pre & leaf & post & st' & E & Hp & -> & Hpre & Hpost); [cbn; lia|lia|].
  erewrite bind_ret; [|rewrite page_search_run by done; exact E]. rewrite decide_False by lia.
  destruct (bpath_last _ _ _ _ _ _ _ _ _ _ Hp) as (fr1 & b & k & -> & (l & es & Hl & <- & Hne2 & Hpl) & _).
  rewrite app_nil_l. rewrite (bind_ret _ _ _ _ _ (top_page_run _ _ _ _ _)), (bind_ret _ _ _ _ _ (at_IS_LEAF _ _ _ _ _ _ Hl _)).
  erewrite bind_ret; [|by apply cassert_run].
  destruct (set2_run psize me_map mt_next_pgno c w md_pad key Hform Hsize b l es fr1 k st' (Cflags true false false false) Hl)
    as (r & s' & Er & Hte & Hin & Hno); [by intros ->|done|by apply Forall_app in Hkf as [_ [Hkf _]%Forall_app]|by eapply sorted_leaf|].
  exists r, s'. split; [exact Er|]. split; [done|]. split.
  - intros n Hn Hk. apply elem_of_app in Hn as [Hn|Hn]; [by apply Hpre, klt_ne in Hn|].
    apply elem_of_app in Hn as [Hn|Hn]; [by apply Hin|]. by apply Hpost, klt_ne in Hn.
  - intros H. apply Hno. intros n Hn. apply H, elem_of_app. right. apply elem_of_app. by left.
Qed.

(** C21: a cursor that has just been opened in a read-only transaction, on a b-tree of any height below the size of its stack:
    calling mdb_cursor_get with MDB_NEXT gives the key and the data of every node of the tree, each once and in
    the order of the leaves, and then MDB_NOTFOUND for as long as it is called. *)
Theorem cursor_walk_spec psize me_map mt_next_pgno md_root mc_dbi c md_pad h ns k :
  1 < md_root < mt_next_pgno /\ md_root <> P_INVALID -> (h < CURSOR_STACK)%nat ->
  btree psize me_map mt_next_pgno (fun _ _ => True) h (page_addr psize md_root) ns ->
  exists rs s', walk psize me_map mt_next_pgno md_root mc_dbi c md_pad (length ns + k) (fresh_cursor false) =
      Ret (rs ++ repeat (failed_with MDB_NOTFOUND) k, s') /\
    Forall2 (reads psize me_map) ns rs.
Proof.
  intros Hroot Hh Ht. destruct (first_step _ _ _ _ md_root mc_dbi c md_pad Hroot h ns Hh Ht) as (n & rest & -> & r & s1 & E & Hr & Hs).
  destruct (walk_rest _ _ _ _ md_root mc_dbi c md_pad h k Hh rest s1 Hs) as (rs & s' & Ew & F). exists (r :: rs), s'.
  split; [|by constructor]. cbn [length Nat.add walk].
  rewrite (bind_ret _ _ _ _ _ (get_next_run _ _ _ _ _ _ _ (fresh_cursor false) _ _ eq_refl E (ahead_del _ _ _ _ _ _ _ _ _ Hs))). by rewrite (bind_ret _ _ _ _ _ Ew).
Qed.

(** ** A tree of two leaves *)

(** Keys of four bytes: sorted as bytes and as integers. *)
Definition four (k : Z) : list Z := [k; 0; 0; 0].
Definition small (k : Z) : node := Node 1 0 (four k) [7].
Definition to_child (pgno : Z) (k : list Z) : node := Node pgno 0 k [].

Definition head_of (pgno flags : Z) : list Z := le_bytes 8 pgno ++ [0; 0] ++ le16 flags.

(** The pages 2, 3 and 4 of 64 bytes. *)
Definition leaf_2 : layout := Layout (head_of 2 P_LEAF) [36; 50] (repeat 0 16) (enc (small 97) ++ [0] ++ enc (small 98) ++ [0]).
Definition leaf_3 : layout := Layout (head_of 3 P_LEAF) [50; 36] (repeat 0 16) (enc (small 100) ++ [0] ++ enc (small 99) ++ [0]).
Definition root_4 : layout := Layout (head_of 4 P_BRANCH) [56; 44] (repeat 0 24) (enc (to_child 3 (four 99)) ++ enc (to_child 2 [])).

Definition map_4 : list Z := repeat 0 128 ++ bytes leaf_2 ++ bytes leaf_3 ++ bytes root_4.
Definition es_2 : list entry := [(36, small 97); (50, small 98)].
Definition es_3 : list entry := [(50, small 99); (36, small 100)].
Definition es_4 : list entry := [(56, to_child 2 []); (44, to_child 3 (four 99))].

Ltac on_page_of A pad B := exists A, pad, B; by vm_compute.
Ltac page_facts := split; [reflexivity|]; split; [repeat constructor; done|reflexivity].

Lemma holds_2 : holds 64 map_4 true 128 leaf_2 es_2.
Proof.
  constructor; [reflexivity|page_facts| |reflexivity|reflexivity|reflexivity]. constructor; [reflexivity|repeat constructor; done| | |reflexivity].
  - repeat (apply Forall_cons; split; [split; [done|]|]); [| |done].
    + on_page_of (@nil Z) [0] (enc (small 98) ++ [0]).
    + on_page_of (enc (small 97) ++ [0]) [0] (@nil Z).
  - repeat constructor; unfold apart; vm_compute; intuition congruence.
Qed.

Lemma holds_3 : holds 64 map_4 true 192 leaf_3 es_3.
Proof.
  constructor; [reflexivity|page_facts| |reflexivity|reflexivity|reflexivity]. constructor; [reflexivity|repeat constructor; done| | |reflexivity].
  - repeat (apply Forall_cons; split; [split; [done|]|]); [| |done].
    + on_page_of (enc (small 100) ++ [0]) [0] (@nil Z).
    + on_page_of (@nil Z) [0] (enc (small 99) ++ [0]).
  - repeat constructor; unfold apart; vm_compute; intuition congruence.
Qed.

Lemma holds_4 : holds 64 map_4 false 256 root_4 es_4.
Proof.
  constructor; [reflexivity|page_facts| |reflexivity|reflexivity|reflexivity]. constructor; [reflexivity|repeat constructor; done| | |reflexivity].
  - repeat (apply Forall_cons; split; [split; [done|]|]); [| |done].
    + on_page_of (enc (to_child 3 (four 99))) (@nil Z) (@nil Z).
    + on_page_of (@nil Z) (@nil Z) (enc (to_child 2 [])).
  - repeat constructor; unfold apart; vm_compute; intuition congruence.
Qed.

Definition nodes_4 : list node := [small 97; small 98; small 99; small 100].

Lemma small_plain k : plain 5 (small k).
Proof. split; [reflexivity|]. intros H. discriminate H. Qed.

Lemma tree_4 (sep : list entry -> list (list node) -> Prop) : sep es_4 [es_2.*2; es_3.*2] -> btree 64 map_4 5 sep 1 256 nodes_4.
Proof.
  intros Hsep. exists es_4, [es_2.*2; es_3.*2]. split; [|reflexivity]. split; [exists root_4; apply holds_4|]. split; [cbn; lia|]. split; [done|].
  repeat constructor; cbn [fst snd]; try done.
  - exists leaf_2, es_2. split; [apply holds_2|]. split; [done|]. split; [done|]. repeat constructor; apply small_plain.
  - exists leaf_3, es_3. split; [apply holds_3|]. split; [done|]. split; [done|]. repeat constructor; apply small_plain.
Qed.

Lemma forms_4 c : c = Cmp_memn \/ c = Cmp_cint -> key_form c 4 (four 98) /\ Forall (fun n => key_form c 4 (n_key n)) nodes_4.
Proof. intros [-> | ->]; (split; [|repeat constructor]); try done; (split; [repeat constructor; done|by split; [|left]]). Qed.

Lemma separates_4 c : c = Cmp_memn \/ c = Cmp_cint -> separates c 4 es_4 [es_2.*2; es_3.*2].
Proof.
  intros Hc. split.
  - intros i e Hi He. destruct i as [|[|i]]; [lia| |done]. injection He as <-. destruct Hc as [-> | ->]; [done|].
    split; [repeat constructor; done|by split; [|left]].
  - intros i j e ns x Hi He Hk Hx. destruct i as [|[|i]]; [lia| |done]. injection He as <-.
    destruct j as [|[|j]]; [| |done]; injection Hk as <-; repeat (apply elem_of_cons in Hx as [->|Hx]); try (by apply elem_of_nil in Hx);
      (split; intros H; [lia || by destruct Hc as [-> | ->]|lia || by destruct Hc as [-> | ->]]).
Qed.

Lemma sorted_4 c : c = Cmp_memn \/ c = Cmp_cint -> sorted_nodes c nodes_4.
Proof.
  intros Hc i j x y Hij Hx Hy. destruct i as [|[|[|[|i]]]]; destruct j as [|[|[|[|j]]]]; (lia || discriminate Hx || discriminate Hy || idtac);
    injection Hx as <-; injection Hy as <-; by destruct Hc as [-> | ->].
Qed.

Definition finds_98 (c : md_cmp) : Prop :=
  exists r s', mdb_get 64 map_4 5 4 2 c 0 false (four 98) (fresh_cursor false) = Ret (r, s') /\ TXN_ERROR s' = false /\
    (forall n, n ∈ nodes_4 -> n_key n = four 98 -> r_rc r = 0 /\ exists v, r_data r = Some v /\ value_of 64 map_4 n v) /\
    ((forall n, n ∈ nodes_4 -> n_key n <> four 98) -> r = failed_with MDB_NOTFOUND).

(** With the order of the bytes and with that of the integers. *)
Lemma mdb_get_spec_witness : finds_98 Cmp_memn /\ finds_98 Cmp_cint.
Proof.
  split; [apply (mdb_get_spec 64 map_4 5 4 2 Cmp_memn 4 0 (four 98) 1 nodes_4)|apply (mdb_get_spec 64 map_4 5 4 2 Cmp_cint 4 0 (four 98) 1 nodes_4)];
    try (apply forms_4; by (left + right)); try done; try (unfold CURSOR_STACK; lia);
    try (apply tree_4, separates_4; by (left + right)); apply sorted_4; by (left + right).
Defined.

Lemma cursor_walk_spec_witness :
  exists rs s', walk 64 map_4 5 4 2 Cmp_memn 0 6 (fresh_cursor false) = Ret (rs ++ repeat (failed_with MDB_NOTFOUND) 2, s') /\
    Forall2 (reads 64 map_4) nodes_4 rs.
Proof.
  apply (cursor_walk_spec 64 map_4 5 4 2 Cmp_memn 0 1 nodes_4 2).
  - done.
  - unfold CURSOR_STACK. lia.
  - by apply tree_4.
Defined.
