(* ===== verification/MdbDump.v ===== *)
(** * Dumping a data base as text (src/liblmdb/mdb_dump.c)

    dumpit, and main after the options are read.  What LMDB answers is the
    argument [view] of a data base; the standard output is a list of bytes.
    A signal may come before any record. *)

From Stdlib Require Import ZArith Lia String.
From stdpp Require Import prelude gmap.
From S2P Require Import Prelude.

Definition MDB_REVERSEKEY : Z := 0x02.
Definition MDB_DUPSORT : Z := 0x04.
Definition MDB_INTEGERKEY : Z := 0x08.
Definition MDB_DUPFIXED : Z := 0x10.
Definition MDB_INTEGERDUP : Z := 0x20.
Definition MDB_REVERSEDUP : Z := 0x40.
Definition MDB_SUCCESS : Z := 0.
Definition MDB_NOTFOUND : Z := -30798.
Definition EINTR : Z := 4.

Open Scope string_scope.
Definition dbflags : list (Z * list Z) := [
  (MDB_REVERSEKEY, text "reversekey");
  (MDB_DUPSORT, text "dupsort");
  (MDB_INTEGERKEY, text "integerkey");
  (MDB_DUPFIXED, text "dupfixed");
  (MDB_INTEGERDUP, text "integerdup");
  (MDB_REVERSEDUP, text "reversedup")].
Close Scope string_scope.

(** [mode & PRINT]. *)
Inductive format := Print | Bytevalue.

(** ** Keys and values *)

Definition hexc : list Z := text "0123456789abcdef".

Definition hex (c : Z) : list Z := [hexc !!! Z.to_nat (Z.shiftr c 4); hexc !!! Z.to_nat (Z.land c 0xf)].

(** In the C locale. *)
Definition isprint (c : Z) : bool := bool_decide (32 <= c <= 126).

Definition escape (c : Z) : list Z :=
  if isprint c then if decide (c = 92) then [92; c] else [c] else 92 :: hex c.

Definition print_text (v : list Z) : list Z := [32] ++ concat (escape <$> v) ++ [10].
Definition print_byte (v : list Z) : list Z := [32] ++ concat (hex <$> v) ++ [10].

Definition print_val (mode : format) (v : list Z) : list Z :=
  match mode with Print => print_text v | Bytevalue => print_byte v end.

(** ** What LMDB answers *)

Record envinfo := Info { me_mapaddr : Z; me_mapsize : Z; me_maxreaders : Z }.

(** Return codes with results; [v_next i] is the answer to the [i]th
    [mdb_cursor_get(mc, &key, &data, MDB_NEXT)], and [v_sig i] whether the
    signal has come by then. *)
Record view := View {
  v_flags : Z * Z;
  v_psize : Z * Z;
  v_info : Z * envinfo;
  v_cursor : Z;
  v_next : nat -> Z * list Z * list Z;
  v_sig : nat -> bool
}.

(** "%p" of glibc: the digits in base 16 behind "0x", and "(nil)". *)
Fixpoint hexdigits (fuel : nat) (n : Z) (acc : list Z) : list Z :=
  match fuel with
  | O => acc
  | S f => let acc := (hexc !!! Z.to_nat (n mod 16)) :: acc in
           if decide (n < 16) then acc else hexdigits f (n / 16) acc
  end.

Definition ptr_text (p : Z) : list Z :=
  if decide (p = 0) then text "(nil)" else text "0x" ++ hexdigits 16 p [].

(** ** dumpit *)

Definition line (s : list Z) : list Z := s ++ [10].

Definition has_flag (flags bit : Z) : bool := bool_decide (Z.land flags bit <> 0).

Definition flag_lines (flags : Z) : list Z :=
  concat ((fun '(bit, name) => if has_flag flags bit then line (name ++ text "=1") else []) <$> dbflags).

Definition header (mode : format) (name : option (list Z)) (flags psize : Z) (info : envinfo) : list Z :=
  line (text "VERSION=3") ++
  line (text "format=" ++ match mode with Print => text "print" | Bytevalue => text "bytevalue" end) ++
  match name with Some n => line (text "database=" ++ n) | None => [] end ++
  line (text "type=btree") ++
  line (text "mapsize=" ++ dec (me_mapsize info)) ++
  (if decide (me_mapaddr info <> 0) then line (text "mapaddr=" ++ ptr_text (me_mapaddr info)) else []) ++
  line (text "maxreaders=" ++ dec (me_maxreaders info)) ++
  (if has_flag flags MDB_DUPSORT then line (text "duplicates=1") else []) ++
  flag_lines flags ++
  line (text "db_pagesize=" ++ dec psize) ++
  line (text "HEADER=END").

(** [while ((rc = mdb_cursor_get(...) == MDB_SUCCESS))]: [rc] is the result of
    the comparison. *)
Fixpoint dump_loop (fuel : nat) (mode : format) (v : view) (i : nat) : outcome (list Z * Z) :=
  match fuel with
  | O => NoFuel
  | S fuel =>
      let '(got, key, data) := v_next v i in
      let rc := Z.b2z (bool_decide (got = MDB_SUCCESS)) in
      if decide (rc <> 0) then
        if v_sig v i then Ret ([], EINTR)
        else
          '(out, rc) ← dump_loop fuel mode v (S i);
          Ret (print_val mode key ++ print_val mode data ++ out, rc)
      else Ret ([], rc)
  end.

(** The output and the result. *)
Definition dumpit (fuel : nat) (mode : format) (v : view) (name : option (list Z)) : outcome (list Z * Z) :=
  let '(rc, flags) := v_flags v in
  if decide (rc <> 0) then Ret ([], rc) else
  let '(rc, psize) := v_psize v in
  if decide (rc <> 0) then Ret ([], rc) else
  let '(rc, info) := v_info v in
  if decide (rc <> 0) then Ret ([], rc) else
  let out := header mode name flags psize info in
  if decide (v_cursor v <> 0) then Ret (out, v_cursor v) else
  '(records, rc) ← dump_loop fuel mode v 0;
  let rc := if decide (rc = MDB_NOTFOUND) then MDB_SUCCESS else rc in
  Ret (out ++ records ++ line (text "DATA=END"), rc).

(** ** main, from the open data base on *)

(** The keys of the main data base ([MDB_NEXT_NODUP]) and the data bases by
    their names ([mdb_open]). *)
Record environ := Environ {
  e_cursor : Z;
  e_keys : nat -> Z * list Z;
  e_open : list Z -> Z * view
}.

(** [memchr(key.mv_data, '\0', key.mv_size)] *)
Definition has_nul (key : list Z) : bool := bool_decide (0 ∈ key).

(** -l only lists the names.  The count and the result. *)
Fixpoint all_loop (fuel : nat) (mode : format) (lst : bool) (e : environ) (i : nat) (count : Z) :
    outcome (list Z * Z * Z) :=
  match fuel with
  | O => NoFuel
  | S f =>
      let '(rc, key) := e_keys e i in
      if decide (rc <> 0) then Ret ([], count, rc) else
      if has_nul key then all_loop f mode lst e (S i) count else
      let count := count + 1 in
      let '(rc, v) := e_open e key in
      if decide (rc = MDB_SUCCESS) then
        if lst then
          '(out, count, rc) ← all_loop f mode lst e (S i) count;
          Ret (line key ++ out, count, rc)
        else
          '(out, rc) ← dumpit fuel mode v (Some key);
          if decide (rc <> 0) then Ret (out, count, rc)
          else
            '(out', count, rc) ← all_loop f mode lst e (S i) count;
            Ret (out ++ out', count, rc)
      else all_loop f mode lst e (S i) count
  end.

(** -a and -l. *)
Definition dump_all (fuel : nat) (mode : format) (lst : bool) (e : environ) : outcome (list Z * Z) :=
  if decide (e_cursor e <> 0) then Ret ([], e_cursor e) else
  '(out, count, rc) ← all_loop fuel mode lst e 0 0;
  let rc := if decide (count = 0) then MDB_NOTFOUND
            else if decide (rc = MDB_NOTFOUND) then MDB_SUCCESS else rc in
  Ret (out, rc).

(** The results of the calls before, and the data base of -s or the main one. *)
Record opened := Opened {
  o_create : Z;
  o_env_open : Z;
  o_begin : Z;
  o_open : option (list Z) -> Z * view;
  o_environ : environ
}.

(** After the options: the output and the exit code. *)
Definition dump_main (fuel : nat) (mode : format) (alldbs lst : bool) (subname : option (list Z)) (o : opened) :
    outcome (list Z * Z) :=
  if decide (o_create o <> 0) then Ret ([], 1) else
  if decide (o_env_open o <> 0) then Ret ([], 1) else
  if decide (o_begin o <> 0) then Ret ([], 1) else
  let '(rc, v) := o_open o subname in
  if decide (rc <> 0) then Ret ([], 1) else
  '(out, rc) ← if alldbs then dump_all fuel mode lst (o_environ o) else dumpit fuel mode v subname;
  Ret (out, if decide (rc <> 0) then 1 else 0).
