(* ===== verification/MdbLoad.v ===== *)
(** * Loading a data base from text (src/liblmdb/mdb_load.c)

    readhdr, readline and main after the options are read, and that they
    give back what mdb_dump (MdbDump.v) wrote.  LMDB is an argument, a
    program on a state of its own; the calls are recorded.  The line
    buffers keep old bytes behind the end of a line, which memchr sees. *)

From Stdlib Require Import ZArith Lia String.
From stdpp Require Import prelude gmap.
From S2P Require Import Prelude MdbDump.

(** ** The state *)

Definition MDB_CREATE : Z := 0x40000.
Definition MDB_NOOVERWRITE : Z := 0x10.
Definition MDB_NODUPDATA : Z := 0x20.
Definition MDB_CURRENT : Z := 0x40.
Definition MDB_APPEND : Z := 0x20000.
Definition MDB_APPENDDUP : Z := 0x40000.
Definition MDB_KEYEXIST : Z := -30799.
Definition MDB_FIXEDMAP : Z := 0x01.

Inductive mdb_call :=
  | EnvCreate | SetMaxdbs (n : Z) | SetMaxreaders (n : Z) | SetMapsize (n : Z) | EnvOpen (flags : Z) | MaxKeySize
  | EnvClose | TxnBegin | DbiOpen (name : option (list Z)) (flags : Z) | SetCompare | SetDupsort
  | CursorOpen | CursorPut (key data : list Z) (flags : Z) | CursorLast | TxnCommit | TxnAbort (null : bool)
  | DbiClose.

(** What is written on stderr. *)
Inductive diag :=
  | UnsupportedVersion (lineno version : Z) | UnsupportedFormat (lineno : Z) | UnsupportedType (lineno : Z)
  | InvalidMapaddr (lineno : Z) | InvalidMapsize (lineno : Z) | InvalidMaxreaders (lineno : Z)
  | UnexpectedFormat (lineno : Z) | KeywordIgnored (lineno : Z) (keyword : list Z)
  | UnexpectedEnd (lineno : Z) | OutOfMemory (lineno : Z) | FailedValue (lineno : Z)
  | PutFailed (lineno rc : Z) | CallFailed (rc : Z).

(** The static variables, the input and what LMDB keeps. *)
Record loader {E : Type} := Loader {
  l_print : bool;
  l_nohdr : bool;
  subname : option (list Z);
  lineno : Z;
  version : Z;
  l_flags : Z;
  Eof : bool;
  l_info : envinfo;
  kbuf : list Z;
  dbuf : list Z;
  input : list Z;
  stderr : list diag;
  lenv : E;
  calls : list mdb_call
}.

Section MdbLoad.
Context {E : Type}.
Abbreviation loader := (loader (E := E)).

(** The result of a call, and the key of the last record for [CursorLast]. *)
Variable mdb : mdb_call -> ST E (Z * list Z).
(** The bytes of a new block, and whether an allocation of a size succeeds. *)
Variable junk : Z -> list Z.
Variable malloc_ok : Z -> bool.

Definition set_print (s : loader) := Loader E true (l_nohdr s) (subname s) (lineno s) (version s) (l_flags s) (Eof s)
  (l_info s) (kbuf s) (dbuf s) (input s) (stderr s) (lenv s) (calls s).
Definition set_subname (n : option (list Z)) (s : loader) := Loader E (l_print s) (l_nohdr s) n (lineno s) (version s)
  (l_flags s) (Eof s) (l_info s) (kbuf s) (dbuf s) (input s) (stderr s) (lenv s) (calls s).
Definition next_line (s : loader) := Loader E (l_print s) (l_nohdr s) (subname s) (lineno s + 1) (version s)
  (l_flags s) (Eof s) (l_info s) (kbuf s) (dbuf s) (input s) (stderr s) (lenv s) (calls s).
Definition set_version (v : Z) (s : loader) := Loader E (l_print s) (l_nohdr s) (subname s) (lineno s) v
  (l_flags s) (Eof s) (l_info s) (kbuf s) (dbuf s) (input s) (stderr s) (lenv s) (calls s).
Definition set_flags (f : Z) (s : loader) := Loader E (l_print s) (l_nohdr s) (subname s) (lineno s) (version s)
  f (Eof s) (l_info s) (kbuf s) (dbuf s) (input s) (stderr s) (lenv s) (calls s).
Definition set_eof (s : loader) := Loader E (l_print s) (l_nohdr s) (subname s) (lineno s) (version s)
  (l_flags s) true (l_info s) (kbuf s) (dbuf s) (input s) (stderr s) (lenv s) (calls s).
Definition set_info (i : envinfo) (s : loader) := Loader E (l_print s) (l_nohdr s) (subname s) (lineno s) (version s)
  (l_flags s) (Eof s) i (kbuf s) (dbuf s) (input s) (stderr s) (lenv s) (calls s).
Definition set_input (i : list Z) (s : loader) := Loader E (l_print s) (l_nohdr s) (subname s) (lineno s) (version s)
  (l_flags s) (Eof s) (l_info s) (kbuf s) (dbuf s) i (stderr s) (lenv s) (calls s).
Definition complain (d : diag) (s : loader) := Loader E (l_print s) (l_nohdr s) (subname s) (lineno s) (version s)
  (l_flags s) (Eof s) (l_info s) (kbuf s) (dbuf s) (input s) (stderr s ++ [d]) (lenv s) (calls s).

(** Which of the two buffers. *)
Inductive which := K | D.
Definition get_buf (w : which) (s : loader) : list Z := match w with K => kbuf s | D => dbuf s end.
Definition set_buf (w : which) (b : list Z) (s : loader) : loader :=
  match w with
  | K => Loader E (l_print s) (l_nohdr s) (subname s) (lineno s) (version s) (l_flags s) (Eof s) (l_info s) b
           (dbuf s) (input s) (stderr s) (lenv s) (calls s)
  | D => Loader E (l_print s) (l_nohdr s) (subname s) (lineno s) (version s) (l_flags s) (Eof s) (l_info s) (kbuf s)
           b (input s) (stderr s) (lenv s) (calls s)
  end.

Definition call (c : mdb_call) : ST loader (Z * list Z) := fun s =>
  '(a, e) ← mdb c (lenv s);
  Ret (a, Loader E (l_print s) (l_nohdr s) (subname s) (lineno s) (version s) (l_flags s) (Eof s) (l_info s) (kbuf s)
            (dbuf s) (input s) (stderr s) e (calls s ++ [c])).

Definition llift {A} (m : outcome A) : ST loader A := fun s => a ← m; Ret (a, s).

(** [fgets(buf + off, n, stdin)]: false for NULL. *)
Definition fgets_at (w : which) (off n : nat) : ST loader bool := fun s =>
  if decide (input s = []) then Ret (false, s) else
  let (l, rest) := fgets (n - 1) (input s) in
  match poke (get_buf w s) off (l ++ [0]) with
  | Some b => Ret (true, set_input rest (set_buf w b s))
  | None => Undef
  end.

(** [strncmp(p, lit, strlen(lit)) == 0], of a literal. *)
Fixpoint starts (lit p : list Z) : bool :=
  match lit, p with
  | [], _ => true
  | x :: lit, y :: p => if decide (x = y) then starts lit p else false
  | _ :: _, [] => false
  end.

(** [ptr = memchr(dbuf.mv_data, c, dbuf.mv_size); if (ptr) *ptr = '\0'], and
    whether it was found. *)
Definition cut_at (c : Z) (b : list Z) : option (list Z) :=
  match before c b with Some l => Some (<[length l := 0]> b) | None => None end.

(** [sscanf] skips blanks and reads a sign; a number of more than 64 bits is
    the greatest one. *)
Definition scan_sign (s : list Z) : bool * list Z :=
  match skip_spaces s with
  | 45 :: l => (true, l)
  | 43 :: l => (false, l)
  | l => (false, l)
  end.

Definition scanned_number (w : Z) (neg : bool) (v : Z) : Z :=
  wrap w (if decide (2 ^ 64 <= v) then 2 ^ 64 - 1 else if neg then - v else v).

(** "%zu" and "%u"; [None] when there are no digits. *)
Definition scan_unsigned (w : Z) (s : list Z) : option Z :=
  let '(neg, l) := scan_sign s in
  let ds := (span_digits l).1 in
  if decide (ds = []) then None else Some (scanned_number w neg (undigits 0 ds)).

(** The value of a digit of base 16. *)
Definition hexval (c : Z) : option Z :=
  if decide (48 <= c <= 57) then Some (c - 48)
  else if decide (97 <= c <= 102) then Some (c - 87)
  else if decide (65 <= c <= 70) then Some (c - 55)
  else None.

Fixpoint span_hex (l : list Z) : list Z :=
  match l with
  | c :: l => match hexval c with Some v => v :: span_hex l | None => [] end
  | [] => []
  end.

(** "%p" of glibc: "0x" or not and digits, or "(nil)". *)
Definition scan_ptr (s : list Z) : option Z :=
  if starts (text "(nil)") (skip_spaces s) then Some 0 else
  let '(neg, l) := scan_sign s in
  let l := if starts (text "0x") l || starts (text "0X") l then drop 2 l else l in
  let ds := span_hex l in
  if decide (ds = []) then None else Some (scanned_number 64 neg (fold_left (fun a d => 16 * a + d) ds 0)).

(** ** readhdr *)

Open Scope string_scope.

(** The flag whose name, and '=', the line starts with. *)
Fixpoint find_flag (b : list Z) (fs : list (Z * list Z)) : option Z :=
  match fs with
  | [] => None
  | (bit, name) :: fs => if starts name b && bool_decide (b !! length name = Some 61) then Some bit else find_flag b fs
  end.

(** After a line is read: go on, the end of the header, or an exit. *)
Inductive hdr := More | HdrEnd | Exit.

Definition exit_with (d : Z -> diag) : ST loader hdr := n ← gets lineno; modify (complain (d n));; mret Exit.

(** The string behind a prefix, its line end cut off. *)
Definition value_of (n : nat) : ST loader (list Z) :=
  b ← gets dbuf;
  let b := default b (cut_at 10 b) in
  modify (set_buf D b);;
  llift (of_option (cstr (drop n b))).

Definition scanned {A} (n : nat) (scan : list Z -> option A) (d : Z -> diag) (set : A -> envinfo -> envinfo) : ST loader hdr :=
  v ← value_of n;
  match scan v with
  | None => exit_with d
  | Some a => modify (fun s => set_info (set a (l_info s)) s);; mret More
  end.

Definition header_line : ST loader hdr :=
  b ← gets dbuf;
  if starts (text "VERSION=") b then
    v ← llift (of_option (cstr (drop 8 b)));
    let v := number v in
    modify (set_version v);;
    if decide (3 < v) then exit_with (fun n => UnsupportedVersion n v) else mret More
  else if starts (text "HEADER=END") b then mret HdrEnd
  else if starts (text "format=") b then
    if starts (text "print") (drop 7 b) then modify set_print;; mret More
    else if starts (text "bytevalue") (drop 7 b) then mret More
    else exit_with UnsupportedFormat
  else if starts (text "database=") b then
    n ← value_of 9; modify (set_subname (Some n));; mret More
  else if starts (text "type=") b then
    if starts (text "btree") (drop 5 b) then mret More else exit_with UnsupportedType
  else if starts (text "mapaddr=") b then
    scanned 8 scan_ptr InvalidMapaddr (fun p i => Info p (me_mapsize i) (me_maxreaders i))
  else if starts (text "mapsize=") b then
    scanned 8 (scan_unsigned 64) InvalidMapsize (fun n i => Info (me_mapaddr i) n (me_maxreaders i))
  else if starts (text "maxreaders=") b then
    scanned 11 (scan_unsigned 32) InvalidMaxreaders (fun n i => Info (me_mapaddr i) (me_mapsize i) n)
  else
    match find_flag b dbflags with
    | Some bit => modify (fun s => set_flags (Z.lor (l_flags s) bit) s);; mret More
    | None =>
        match cut_at 61 b with
        | None => exit_with UnexpectedFormat
        | Some b' =>
            modify (set_buf D b');;
            k ← llift (of_option (cstr b'));
            modify (fun s => complain (KeywordIgnored (lineno s) k) s);;
            mret More
        end
    end.

Close Scope string_scope.

(** [while (fgets(dbuf.mv_data, dbuf.mv_size, stdin) != NULL)]: false when the
    process has exited. *)
Fixpoint header_loop (fuel : nat) : ST loader bool :=
  match fuel with
  | O => no_fuel
  | S fuel =>
      n ← gets (fun s => length (dbuf s));
      got ← fgets_at D 0 n;
      if got : bool then
        modify next_line;;
        h ← header_line;
        match h with More => header_loop fuel | HdrEnd => mret true | Exit => mret false end
      else mret true
  end.

Definition readhdr (fuel : nat) : ST loader bool := modify (set_flags 0);; header_loop fuel.

(** ** readline *)

Definition isxdigit (c : Z) : bool := bool_decide (48 <= c <= 57 \/ 65 <= c <= 70 \/ 97 <= c <= 102).

(** One digit of [unhex]: [x = c & 0x4f; if (x & 0x40) x -= 55]. *)
Definition unhex1 (c : Z) : Z :=
  let x := Z.land c 0x4f in if decide (Z.land x 0x40 <> 0) then x - 55 else x.

Definition unhex (c d : Z) : Z := u8 (Z.lor (Z.shiftl (unhex1 c) 4) (unhex1 d)).

(** The escapes of a line; the code writes over the part of the buffer it has read. *)
Fixpoint unescape (l : list Z) : option (list Z) :=
  match l with
  | [] => Some []
  | c :: l1 =>
      if decide (c = 92) then
        match l1 with
        | [] => None
        | d :: l2 =>
            if decide (d = 92) then cons c <$> unescape l2
            else match l2 with
                 | [] => None
                 | e :: l3 => if isxdigit d && isxdigit e then cons (unhex d e) <$> unescape l3 else None
                 end
        end
      else cons c <$> unescape l1
  end.

Fixpoint unhex_pairs (l : list Z) : option (list Z) :=
  match l with
  | [] => Some []
  | [_] => None
  | c :: d :: l' => if isxdigit c && isxdigit d then cons (unhex c d) <$> unhex_pairs l' else None
  end.

(** [badend: Eof = 1; badend(); return EOF]. *)
Definition badend : ST loader unit := n ← gets lineno; modify (complain (UnexpectedEnd n));; modify set_eof.

(** "Is buffer too short?"  The text so far ends at [l2], its last piece, at
    [off], has [len] bytes; [None] for EOF. *)
Fixpoint enlarge (fuel : nat) (w : which) (off len l2 : nat) : ST loader (option nat) :=
  match fuel with
  | O => no_fuel
  | S fuel =>
      b ← gets (get_buf w);
      c ← llift (if decide (off + len = 0)%nat then Undef else of_option (b !! (off + len - 1)%nat));
      if decide (c = 10) then mret (Some l2)
      else
        let size := length b in
        if malloc_ok (2 * Z.of_nat size) then
          modify (set_buf w (b ++ junk (Z.of_nat size)));;
          got ← fgets_at w l2 (size + 1);
          if got : bool then
            b ← gets (get_buf w);
            s ← llift (of_option (cstr (drop l2 b)));
            enlarge fuel w l2 (length s) (l2 + length s)%nat
          else badend;; mret None
        else
          n ← gets lineno;
          modify set_eof;; modify (complain (OutOfMemory n));; modify (set_buf w []);; mret None
  end.

(** The mark in front of a line: false for EOF. *)
Definition line_mark (w : which) : ST loader bool :=
  nohdr ← gets l_nohdr;
  if nohdr : bool then mret true
  else
    i ← gets input;
    match i with
    | [] => modify set_eof;; mret false
    | c :: i' =>
        modify (set_input i');;
        if decide (c = 32) then mret true
        else
          modify next_line;;
          n ← gets (fun s => length (get_buf w s));
          got ← fgets_at w 0 n;
          if got : bool then
            b ← gets (get_buf w);
            if bool_decide (c = 68) && starts (text "ATA=END") b then mret false
            else badend;; mret false
          else badend;; mret false
    end.

(** [None] for EOF. *)
Definition readline (fuel : nat) (w : which) : ST loader (option (list Z)) :=
  go ← line_mark w;
  if go : bool then
    n ← gets (fun s => length (get_buf w s));
    got ← fgets_at w 0 n;
    if got : bool then
      modify next_line;;
      b ← gets (get_buf w);
      s ← llift (of_option (cstr b));
      r ← enlarge fuel w 0 (length s) (length s);
      match r with
      | None => mret None
      | Some l2 =>
          b ← gets (get_buf w);
          let txt := take (l2 - 1) b in
          pr ← gets l_print;
          match (if pr : bool then unescape txt else unhex_pairs txt) with
          | Some v =>
              modify (set_buf w (v ++ drop (length v) (<[(l2 - 1)%nat := 0]> b)));;
              mret (Some v)
          | None => badend;; mret None
          end
      end
    else modify set_eof;; mret None
  else mret None.

(** ** main *)

Record options := Options { append : bool; putflags : Z; envflags : Z }.

(** [goto txn_abort] and [goto env_close]. *)
Inductive stop := Stop_txn_abort (null : bool) | Stop_env_close.

Definition rc_of (c : mdb_call) : ST loader Z := r ← call c; mret r.1.

(** [prevk.mv_data] points into the block of [kbuf], of [ksize] bytes at first,
    and is left behind when readline moves it. *)
Definition prevk_live (ksize : nat) : ST loader unit :=
  n ← gets (fun s => length (kbuf s)); if decide (n = ksize) then mret tt else undef.

Definition save_prevk (ksize : nat) (key : list Z) : ST loader (list Z) :=
  prevk_live ksize;; if decide (length key <= ksize)%nat then mret key else undef.

(** The flag of the put and the next [prevk]. *)
Definition appflag (o : options) (ksize : nat) (prevk key : list Z) : ST loader (Z * list Z) :=
  if append o then
    f ← gets l_flags;
    if has_flag f MDB_DUPSORT then
      if decide (length prevk = length key) then
        prevk_live ksize;;
        if decide (prevk = key) then mret (Z.lor MDB_CURRENT MDB_APPENDDUP, prevk)
        else prevk ← save_prevk ksize key; mret (MDB_APPEND, prevk)
      else prevk ← save_prevk ksize key; mret (MDB_APPEND, prevk)
    else mret (MDB_APPEND, prevk)
  else mret (0, prevk).

Definition failed (rc : Z) (st : stop) : ST loader (option (stop * Z)) :=
  modify (complain (CallFailed rc));; mret (Some (st, rc)).

(** After 100 records: the next [prevk], or the way out. *)
Definition next_batch (o : options) (ksize : nat) (prevk : list Z) : ST loader (list Z + stop * Z) :=
  rc ← rc_of TxnCommit;
  if decide (rc <> 0) then modify (complain (CallFailed rc));; mret (inr (Stop_env_close, rc)) else
  rc ← rc_of TxnBegin;
  if decide (rc <> 0) then modify (complain (CallFailed rc));; mret (inr (Stop_env_close, rc)) else
  rc ← rc_of CursorOpen;
  if decide (rc <> 0) then modify (complain (CallFailed rc));; mret (inr (Stop_txn_abort false, rc)) else
  if append o then
    k ← call CursorLast;
    prevk ← save_prevk ksize k.2;
    mret (inl prevk)
  else mret (inl prevk).

(** The loop over the records: [None] at the end of them. *)
Fixpoint record_loop (fuel : nat) (o : options) (ksize : nat) (batch : Z) (prevk : list Z) : ST loader (option (stop * Z)) :=
  match fuel with
  | O => no_fuel
  | S f =>
      key ← readline fuel K;
      match key with
      | None => mret None
      | Some key =>
          data ← readline fuel D;
          match data with
          | None =>
              modify (fun s => complain (FailedValue (lineno s)) s);;
              mret (Some (Stop_txn_abort false, -1))
          | Some data =>
              a ← appflag o ksize prevk key;
              let '(app, prevk) := a in
              rc ← rc_of (CursorPut key data (Z.lor (putflags o) app));
              if decide (rc = MDB_KEYEXIST /\ putflags o <> 0) then record_loop f o ksize batch prevk
              else if decide (rc <> 0) then
                modify (fun s => complain (PutFailed (lineno s) rc) s);;
                mret (Some (Stop_txn_abort false, rc))
              else if decide (batch + 1 = 100) then
                r ← next_batch o ksize prevk;
                match r with
                | inl prevk => record_loop f o ksize 0 prevk
                | inr out => mret (Some out)
                end
              else record_loop f o ksize (batch + 1) prevk
          end
      end
  end.

(** One turn of [while(!Eof)] after the header. *)
Definition load_db (fuel : nat) (o : options) (ksize : nat) : ST loader (option (stop * Z)) :=
  rc ← rc_of TxnBegin;
  if decide (rc <> 0) then failed rc Stop_env_close else
  name ← gets subname;
  f ← gets l_flags;
  rc ← rc_of (DbiOpen name (Z.lor f MDB_CREATE));
  if decide (rc <> 0) then failed rc (Stop_txn_abort false) else
  (if append o then
     rc_of SetCompare;;
     if has_flag f MDB_DUPSORT then rc_of SetDupsort;; mret tt else mret tt
   else mret tt);;
  rc ← rc_of CursorOpen;
  if decide (rc <> 0) then failed rc (Stop_txn_abort false) else
  r ← record_loop fuel o ksize 0 [];
  match r with
  | Some out => mret (Some out)
  | None =>
      rc ← rc_of TxnCommit;
      if decide (rc <> 0) then failed rc Stop_env_close
      else rc_of DbiClose;; mret None
  end.

Definition finish (st : stop) (rc : Z) : ST loader Z :=
  (match st with
   | Stop_txn_abort null => rc_of (TxnAbort null);; mret tt
   | Stop_env_close => mret tt
   end);;
  rc_of EnvClose;;
  mret (if decide (rc = 0) then 0 else 1).

(** [while(!Eof)]; [txn] is NULL behind it. *)
Fixpoint load_loop (fuel : nat) (o : options) (ksize : nat) (dohdr : bool) : ST loader Z :=
  match fuel with
  | O => no_fuel
  | S f =>
      eof ← gets Eof;
      if eof : bool then finish (Stop_txn_abort true) 0
      else
        nohdr ← gets l_nohdr;
        ok ← (if dohdr && negb nohdr then readhdr fuel else mret true);
        if ok : bool then
          r ← load_db fuel o ksize;
          match r with
          | Some (st, rc) => finish st rc
          | None => load_loop f o ksize true
          end
        else mret 1
  end.

(** The first [n] bytes of a new block. *)
Definition new_buf (w : which) (n size : Z) : ST loader unit :=
  modify (set_buf w (if malloc_ok size then junk n else [])).

(** From the allocation of [dbuf] on: the exit code. *)
Definition load_main (fuel : nat) (o : options) : ST loader Z :=
  new_buf D 4096 4096;;
  nohdr ← gets l_nohdr;
  ok ← (if nohdr : bool then mret true else readhdr fuel);
  if ok : bool then
    rc ← rc_of EnvCreate;
    if decide (rc <> 0) then modify (complain (CallFailed rc));; mret 1 else
    rc_of (SetMaxdbs 2);;
    i ← gets l_info;
    (if decide (me_maxreaders i <> 0) then rc_of (SetMaxreaders (me_maxreaders i)) else mret 0);;
    (if decide (me_mapsize i <> 0) then rc_of (SetMapsize (me_mapsize i)) else mret 0);;
    rc ← rc_of (EnvOpen (if decide (me_mapaddr i <> 0) then Z.lor (envflags o) MDB_FIXEDMAP else envflags o));
    if decide (rc <> 0) then modify (complain (CallFailed rc));; finish Stop_env_close rc else
    n ← rc_of MaxKeySize;
    let ksize := n * 2 + 2 in
    new_buf K ksize (ksize * 2);;
    load_loop fuel o (Z.to_nat ksize) false
  else mret 1.
End MdbLoad.
