(* ===== verification/MdbRound.v ===== *)
(** * What mdb_dump writes, mdb_load reads

    The proofs over MdbDump.v and MdbLoad.v: the escapes, the numbers and the
    lines of the header are read back, a line as long as any through the
    growth of its buffer; and the calls of a whole load. *)

From Stdlib Require Import ZArith Lia String.
From stdpp Require Import prelude gmap.
From S2P Require Import Prelude MdbDump MdbLoad.

(** ** Bytes *)

(** Neither the end of a line nor of a string. *)
Definition clean (l : list Z) : Prop := Forall (fun c => c <> 10 /\ c <> 0) l.

Lemma clean_line l : clean l -> Forall (fun c => c <> 10) l.
Proof. intros H. eapply Forall_impl; [exact H|]. by intros c []. Qed.

Lemma clean_nonul l : clean l -> nonul l.
Proof. intros H. eapply Forall_impl; [exact H|]. by intros c []. Qed.

Lemma clean_concat {A} (f : A -> list Z) l : Forall (fun a => clean (f a)) l -> clean (concat (f <$> l)).
Proof. induction 1; [constructor|]. by apply Forall_app. Qed.

Lemma hex_pair c : is_byte c ->
  exists a b, hex c = [a; b] /\ isxdigit a = true /\ isxdigit b = true /\ unhex a b = c /\ clean [a; b].
Proof.
  intros B. exists (hexc !!! Z.to_nat (Z.shiftr c 4)), (hexc !!! Z.to_nat (Z.land c 0xf)).
  pose proof (all_bytes_spec (fun c => match hex c with
    | [a; b] => isxdigit a && isxdigit b && (unhex a b =? c) && bool_decide (clean [a; b]) | _ => false end) c) as H.
  specialize (H ltac:(vm_compute; reflexivity) B). cbn [hex] in H.
  apply andb_prop in H as [H ?%bool_decide_eq_true]. apply andb_prop in H as [H ?%Z.eqb_eq]. by apply andb_prop in H as [??].
Qed.

Lemma isprint_true c : isprint c = true -> 32 <= c <= 126.
Proof. by intros ?%bool_decide_eq_true. Qed.

Lemma escape_clean c : is_byte c -> clean (escape c).
Proof.
  intros B. unfold escape. destruct (isprint c) eqn:P.
  - apply isprint_true in P. case_decide; repeat constructor; lia.
  - destruct (hex_pair c B) as (a & b & -> & _ & _ & _ & C). by constructor.
Qed.

Lemma hex_clean c : is_byte c -> clean (hex c).
Proof. intros B. destruct (hex_pair c B) as (a & b & -> & _ & _ & _ & C). done. Qed.

Lemma unescape_escape v : Forall is_byte v -> unescape (concat (escape <$> v)) = Some v.
Proof.
  induction 1 as [|c v B _ IH]; [done|]. cbn [fmap list_fmap concat]. unfold escape at 1. destruct (isprint c).
  - case_decide as E; cbn [app unescape]; [subst c; rewrite !decide_True by done | rewrite decide_False by done]; by rewrite IH.
  - destruct (hex_pair c B) as (a & b & -> & X & Y & U & _). cbn [app unescape]. rewrite decide_True by done.
    rewrite decide_False by (intros ->; done). by rewrite X, Y, U, IH.
Qed.

Lemma unhex_pairs_hex v : Forall is_byte v -> unhex_pairs (concat (hex <$> v)) = Some v.
Proof.
  induction 1 as [|c v B _ IH]; [done|]. cbn [fmap list_fmap concat].
  destruct (hex_pair c B) as (a & b & -> & X & Y & U & _). cbn [app unhex_pairs]. by rewrite X, Y, U, IH.
Qed.

(** The text of a value, between the mark and the end of its line. *)
Definition body (mode : format) (v : list Z) : list Z :=
  match mode with Print => concat (escape <$> v) | Bytevalue => concat (hex <$> v) end.

Definition unbody (pr : bool) (l : list Z) : option (list Z) := if pr then unescape l else unhex_pairs l.

Definition printing (mode : format) : bool := match mode with Print => true | Bytevalue => false end.

Lemma print_val_body mode v : print_val mode v = 32 :: body mode v ++ [10].
Proof. by destruct mode. Qed.

Lemma body_clean mode v : Forall is_byte v -> clean (body mode v).
Proof. intros B. destruct mode; apply clean_concat; (eapply Forall_impl; [exact B|]); [apply escape_clean | apply hex_clean]. Qed.

Lemma unbody_body mode v : Forall is_byte v -> unbody (printing mode) (body mode v) = Some v.
Proof. destruct mode; [apply unescape_escape | apply unhex_pairs_hex]. Qed.

(** ** Numbers *)

Lemma digits_not_space ds r : ds <> [] -> Forall (fun c => 48 <= c <= 57) ds -> scan_sign (ds ++ r) = (false, ds ++ r).
Proof.
  intros Ne F. destruct F as [|d ds Hd F]; [done|]. unfold scan_sign. cbn [app skip_spaces]. unfold isspace.
  rewrite bool_decide_false by lia.
  assert (H : d <> 45 /\ d <> 43) by lia. destruct d as [|p|p]; [done| |done].
  do 6 (destruct p as [p|p|]; try done; try lia).
Qed.

Lemma scan_unsigned_dec w n : 0 <= w <= 64 -> 0 <= n < 2 ^ w -> scan_unsigned w (dec n) = Some n.
Proof.
  intros Hw Hn. assert (2 ^ w <= 2 ^ 64) by (apply Z.pow_le_mono_r; lia).
  destruct (dec_nonneg n ltac:(lia)) as (Ne & _ & F & U). unfold scan_unsigned.
  rewrite <- (app_nil_r (dec n)), digits_not_space, span_digits_app by done. cbn [fst].
  rewrite decide_False by done. unfold scanned_number. rewrite U, decide_False by lia.
  unfold wrap. by rewrite Z.mod_small by lia.
Qed.

Definition hexchar (v : Z) : Z := hexc !!! Z.to_nat v.
Definition unhexdigits (a : Z) (vs : list Z) : Z := fold_left (fun a d => 16 * a + d) vs a.

Lemma hexdigits_spec fuel n acc : 0 <= n < 16 ^ Z.of_nat fuel -> (0 < fuel)%nat ->
  exists vs, hexdigits fuel n acc = (hexchar <$> vs) ++ acc /\ (0 < length vs <= fuel)%nat /\
    Forall (fun v => 0 <= v < 16) vs /\ forall a, unhexdigits a vs = a * 16 ^ Z.of_nat (length vs) + n.
Proof.
  revert n acc. induction fuel as [|f IH]; intros n acc Hn Hf; [lia|]. cbn [hexdigits].
  pose proof (Z.mod_pos_bound n 16 ltac:(lia)) as Hm. destruct (decide (n < 16)) as [Hs|Hs].
  - exists [n mod 16]. split; [done|]. split; [simpl; lia|]. split; [repeat constructor; lia|].
    intros a. rewrite Z.mod_small by lia. cbn. lia.
  - rewrite Nat2Z.inj_succ, Z.pow_succ_r in Hn by lia.
    assert (Hd : 0 <= n / 16 < 16 ^ Z.of_nat f)
      by (split; [apply Z.div_pos; lia|apply Z.div_lt_upper_bound; lia]).
    assert (Hf' : (0 < f)%nat). { destruct f; [|lia]. simpl in Hd. pose proof (Z.div_le_mono 16 n 16). cbn in *. lia. }
    destruct (IH (n / 16) (hexchar (n mod 16) :: acc) Hd Hf') as (vs & E & L & F & U).
    exists (vs ++ [n mod 16]). unfold hexchar in E |- *. rewrite E, fmap_app, <- app_assoc. split; [done|].
    rewrite length_app. cbn [length]. split; [lia|]. split; [apply Forall_app; split; [done|repeat constructor; lia]|].
    intros a. unfold unhexdigits in *. rewrite fold_left_app, U. cbn [fold_left].
    replace (Z.of_nat (length vs + 1)) with (Z.succ (Z.of_nat (length vs))) by lia.
    rewrite Z.pow_succ_r by lia. pose proof (Z.div_mod n 16 ltac:(lia)). lia.
Qed.

Lemma hexchar_facts v : 0 <= v < 16 -> hexval (hexchar v) = Some v /\ hexchar v <> 10 /\ hexchar v <> 0.
Proof.
  intros Hv. assert (C : v = 0 \/ v = 1 \/ v = 2 \/ v = 3 \/ v = 4 \/ v = 5 \/ v = 6 \/ v = 7 \/ v = 8 \/ v = 9 \/
    v = 10 \/ v = 11 \/ v = 12 \/ v = 13 \/ v = 14 \/ v = 15) by lia.
  by repeat destruct C as [->|C]; [.. | subst v].
Qed.

Lemma span_hex_chars vs : Forall (fun v => 0 <= v < 16) vs -> span_hex (hexchar <$> vs) = vs.
Proof.
  induction 1 as [|v vs Hv _ IH]; [done|]. cbn [fmap list_fmap span_hex].
  destruct (hexchar_facts v Hv) as (-> & _). by rewrite IH.
Qed.

Lemma scan_ptr_0x l :
  scan_ptr (text "0x" ++ l) =
    if decide (span_hex l = []) then None else Some (scanned_number 64 false (unhexdigits 0 (span_hex l))).
Proof. reflexivity. Qed.

Lemma ptr_text_facts p : 0 < p < 2 ^ 64 -> scan_ptr (ptr_text p) = Some p /\ clean (ptr_text p) /\ (length (ptr_text p) <= 18)%nat.
Proof.
  intros Hp. destruct (hexdigits_spec 16 p [] ltac:(cbn; lia) ltac:(lia)) as (vs & E & L & F & U).
  unfold ptr_text. rewrite decide_False by lia. rewrite E, app_nil_r. split_and!.
  - rewrite scan_ptr_0x, span_hex_chars by done.
    rewrite decide_False by (intros ->; simpl in L; lia). rewrite U. cbn [Z.mul Z.add].
    unfold scanned_number. rewrite decide_False by lia. unfold wrap. by rewrite Z.mod_small by lia.
  - apply Forall_app; split; [vm_compute; repeat constructor; done|]. apply Forall_fmap. eapply Forall_impl; [exact F|].
    intros v Hv. destruct (hexchar_facts v Hv) as (_ & ? & ?). done.
  - rewrite length_app, length_fmap. change (length (text "0x")) with 2%nat. lia.
Qed.

Lemma dec_clean n : 0 <= n < 10 ^ 20 -> clean (dec n) /\ (length (dec n) <= 20)%nat.
Proof.
  intros Hn. destruct (dec_nonneg n Hn) as (_ & L & F & _). split; [|done].
  eapply Forall_impl; [exact F|]. intros c ?. cbn beta in *. lia.
Qed.

(** ** Lines *)

Lemma fgets_split n t r : Forall (fun c => c <> 10) t ->
  fgets n (t ++ 10 :: r) = (take n (t ++ [10]), drop n (t ++ [10]) ++ r).
Proof.
  intros F. revert n. induction F as [|c t H10 _ IH]; intros n.
  - destruct n; [done|]. cbn [app fgets]. rewrite decide_True by done. by destruct n.
  - destruct n as [|n]; [cbn [app fgets take drop]; by rewrite <- app_assoc|]. cbn [app fgets take drop].
    rewrite decide_False by done. by rewrite IH.
Qed.

Section Round.
Context {E : Type}.
Variable mdb : mdb_call -> ST E (Z * list Z).
Variable junk : Z -> list Z.
Variable malloc_ok : Z -> bool.
Hypothesis junk_length : forall n, 0 <= n -> length (junk n) = Z.to_nat n.
Hypothesis malloc_fine : forall n, malloc_ok n = true.
Abbreviation loader := (MdbLoad.loader (E := E)).
Implicit Types s : loader.

(** Where the input and the buffer [w] are [i] and [b]. *)
Definition having (w : which) (i b : list Z) (s : loader) : loader := set_input i (set_buf w b s).

Lemma having_id w s : having w (input s) (get_buf w s) s = s.
Proof. by destruct w, s. Qed.

Lemma get_having w i b s : get_buf w (having w i b s) = b.
Proof. by destruct w. Qed.

Lemma set_having w i b b' s : set_buf w b' (having w i b s) = having w i b' s.
Proof. by destruct w. Qed.

Lemma having_having w i b i' b' s : having w i' b' (having w i b s) = having w i' b' s.
Proof. by destruct w. Qed.

(** [n] is at least 1 in every call. *)
Lemma fgets_at_line w off n t r b s : Forall (fun c => c <> 10) t ->
  let l := take n (t ++ [10]) in
  (off + length l + 1 <= length b)%nat ->
  fgets_at w off (S n) (having w (t ++ 10 :: r) b s) =
    Ret (true, having w (drop n (t ++ [10]) ++ r) (take off b ++ l ++ 0 :: drop (off + length l + 1) b) s).
Proof.
  intros F l Hl. unfold fgets_at. cbn [input having set_input]. rewrite decide_False by (by destruct t).
  rewrite Nat.sub_succ, Nat.sub_0_r, fgets_split by done. fold l. unfold poke.
  change (set_input (t ++ 10 :: r) (set_buf w b s)) with (having w (t ++ 10 :: r) b s).
  rewrite get_having, decide_True by (rewrite length_app; simpl; lia). rewrite set_having.
  change (set_input ?i (having w ?j ?c s)) with (having w i c s).
  rewrite length_app, <- app_assoc. cbn [length app]. by rewrite Nat.add_assoc.
Qed.

Section Enlarge.
Variables (w : which) (s0 : loader) (t r : list Z).
Hypothesis Ht : clean t.
Let L := t ++ [10].

Lemma line_at b l2 : (0 < l2 <= length L)%nat -> take l2 b = take l2 L ->
  exists c, b !! (l2 - 1)%nat = Some c /\ (c = 10 <-> l2 = length L).
Proof.
  intros H Hb. assert (Hc : b !! (l2 - 1)%nat = L !! (l2 - 1)%nat)
    by (rewrite <- (lookup_take_lt b l2), <- (lookup_take_lt L l2) by lia; by rewrite Hb).
  subst L. rewrite length_app in H |- *. cbn [length] in H |- *. rewrite Hc.
  destruct (decide (l2 = length t + 1)%nat) as [->|Hl].
  - exists 10. rewrite Nat.add_sub, list_lookup_middle by lia. done.
  - rewrite lookup_app_l by lia. destruct (lookup_lt_is_Some_2 t (l2 - 1)) as [c Hcc]; [lia|].
    exists c. split; [done|]. apply (Forall_lookup_1 _ _ _ _ Ht) in Hcc. split; [naive_solver|lia].
Qed.

(** The buffer after the next piece of the line. *)
Definition with_piece (b x : list Z) (l2 : nat) : list Z :=
  let p := take (length b) (drop l2 L) in take l2 (b ++ x) ++ p ++ 0 :: drop (l2 + length p + 1) (b ++ x).

Lemma next_piece b x l2 : (l2 < length L)%nat -> (l2 < length b)%nat -> take l2 b = take l2 L -> length x = length b ->
  let p := take (length b) (drop l2 L) in
  (0 < length p <= length b)%nat /\ cstr (drop l2 (with_piece b x l2)) = Some p /\
  take (l2 + length p) (with_piece b x l2) = take (l2 + length p) L /\
  length (with_piece b x l2) = (2 * length b)%nat /\
  drop (length b) (drop l2 L) = drop (l2 + length p) L.
Proof.
  intros Hl Hb Hp Hx p. assert (Hpl : (0 < length p <= length b)%nat) by (subst p; rewrite length_take, length_drop; lia).
  assert (Hlen : length (take l2 (b ++ x)) = l2) by (rewrite length_take, length_app; lia).
  assert (Hbp : take l2 (b ++ x) = take l2 L) by (rewrite take_app_le by lia; done).
  unfold with_piece. fold p. split_and!; [lia|lia| | | |].
  - rewrite drop_app_length' by done. apply cstr_app. subst p. apply Forall_take, Forall_drop, Forall_app.
    split; [by apply clean_nonul|by repeat constructor].
  - rewrite app_assoc, Hbp. rewrite take_app_length'.
    2: { rewrite length_app, <- Hbp, Hlen. done. }
    subst p. rewrite length_take, length_drop. destruct (decide (length b <= length L - l2)%nat) as [H|H].
    + rewrite Nat.min_l by lia. by rewrite take_take_drop.
    + rewrite Nat.min_r by lia. rewrite (firstn_all2 (drop l2 L)) by (rewrite length_drop; lia).
      rewrite take_drop. rewrite firstn_all2 by lia. done.
  - rewrite length_app, Hlen, length_app. cbn [length]. rewrite length_drop, length_app. lia.
  - rewrite drop_drop. subst p. rewrite length_take, length_drop.
    destruct (decide (length b <= length L - l2)%nat); [f_equal; lia|]. rewrite !drop_ge by lia. done.
Qed.

(** A buffer that has the first [l2] bytes of the line grows until it has all of them. *)
Lemma enlarge_line fuel off len l2 b : (off + len = l2)%nat -> (0 < l2 <= length L)%nat -> (l2 < length b)%nat ->
  take l2 b = take l2 L -> (length L - l2 < fuel)%nat ->
  exists b', enlarge junk malloc_ok fuel w off len l2 (having w (drop l2 L ++ r) b s0) =
      Ret (Some (length L), having w r b' s0) /\ take (length L) b' = L /\ (length b <= length b')%nat /\
      (length L < length b')%nat.
Proof.
  revert off len l2 b. induction fuel as [|f IH]; intros off len l2 b Hol Hl Hb Hp Hf; [lia|].
  destruct (line_at b l2 Hl Hp) as (c & Hc & Hn). cbn [enlarge]. unfold gets, modify, mbind, ST_bind, mret, ST_ret.
  rewrite get_having. rewrite decide_False by lia. rewrite Hol, Hc. cbn [of_option llift mbind outcome_bind].
  destruct (decide (c = 10)) as [->|H10].
  - assert (l2 = length L) as -> by tauto. exists b. rewrite drop_all. cbn [app]. rewrite firstn_all in Hp. done.
  - assert (Hlt : (l2 < length L)%nat) by (destruct (decide (l2 = length L)); [tauto|lia]).
    rewrite malloc_fine, set_having, Nat.add_1_r.
    assert (Hj : length (junk (Z.of_nat (length b))) = length b) by (rewrite junk_length by lia; lia).
    destruct (next_piece b _ l2 Hlt Hb Hp Hj) as (Hpl & Hs & Ht' & Hb' & Hd).
    assert (Hd2 : drop l2 L = drop l2 t ++ [10]).
    { unfold L in Hlt |- *. rewrite length_app in Hlt. simpl in Hlt. by rewrite drop_app_le by lia. }
    rewrite Hd2, <- app_assoc. cbn [app]. rewrite fgets_at_line, <- Hd2.
    2: { apply Forall_drop, clean_line, Ht. }
    2: { rewrite <- Hd2, length_app. lia. }
    rewrite get_having. fold (with_piece b (junk (Z.of_nat (length b))) l2).
    rewrite Hs, Hd. cbn [of_option mbind outcome_bind mret outcome_ret].
    assert (HL : (l2 + length (take (length b) (drop l2 L)) <= length L)%nat) by (rewrite length_take, length_drop; lia).
    edestruct (IH l2 (length (take (length b) (drop l2 L))) (l2 + length (take (length b) (drop l2 L)))%nat) as (b' & Er & Eb & El);
      [done | lia | | exact Ht' | lia |].
    { rewrite Hb'. lia. }
    exists b'. split; [exact Er|]. split; [exact Eb|]. rewrite Hb' in El. lia.
Qed.

(** The same for the first piece. *)
Lemma first_piece b : (2 <= length b)%nat ->
  let p := take (length b - 1) L in
  let b' := take 0 b ++ p ++ 0 :: drop (0 + length p + 1) b in
  (0 < length p < length b)%nat /\ (length p <= length L)%nat /\ cstr b' = Some p /\ take (length p) b' = take (length p) L /\
  length b' = length b /\ drop (length b - 1) L = drop (length p) L.
Proof.
  intros Hb p b'. assert (HL : (0 < length L)%nat) by (unfold L; rewrite length_app; simpl; lia).
  assert (Hp : (0 < length p < length b)%nat) by (subst p; rewrite length_take; lia).
  change b' with (p ++ 0 :: drop (length p + 1) b). clear b'. split_and!; [lia|lia| | | | |].
  - subst p. rewrite length_take. lia.
  - apply cstr_app. apply Forall_take, Forall_app. split; [by apply clean_nonul|by repeat constructor].
  - rewrite take_app_length. clear Hp. subst p. rewrite length_take. destruct (decide (length b - 1 <= length L)%nat).
    + by rewrite Nat.min_l by lia.
    + rewrite Nat.min_r by lia. by rewrite !firstn_all2 by lia.
  - rewrite length_app. cbn [length]. rewrite length_drop. lia.
  - subst p. rewrite length_take. destruct (decide (length b - 1 <= length L)%nat); [f_equal; lia|]. by rewrite !drop_ge by lia.
Qed.
End Enlarge.

(** ** What the loader's state looks like from outside *)

Record looks (room : nat) (pr : bool) (i : list Z) (nm : option (list Z)) (fl : Z) (inf : envinfo) (cs : list mdb_call) s : Prop := Looks {
  lk_print : l_print s = pr;
  lk_nohdr : l_nohdr s = false;
  lk_eof : Eof s = false;
  lk_input : input s = i;
  lk_name : subname s = nm;
  lk_flags : l_flags s = fl;
  lk_info : l_info s = inf;
  lk_calls : calls s = cs;
  lk_kbuf : (room <= length (kbuf s))%nat;
  lk_dbuf : (4096 <= length (dbuf s))%nat
}.

Lemma get_buf_long pr i nm fl inf cs s w : looks 10 pr i nm fl inf cs s -> (10 <= length (get_buf w s))%nat.
Proof. intros []. destruct w; cbn; lia. Qed.

Lemma looks_having room pr i nm fl inf cs s w i' b :
  looks room pr i nm fl inf cs s -> (length (get_buf w s) <= length b)%nat -> looks room pr i' nm fl inf cs (having w i' b s).
Proof. intros [] Hb. destruct w; constructor; cbn in *; try done; lia. Qed.

Lemma looks_next_line room pr i nm fl inf cs s : looks room pr i nm fl inf cs s -> looks room pr i nm fl inf cs (next_line s).
Proof. by intros []. Qed.

Lemma next_line_having w i b s : next_line (having w i b s) = having w i b (next_line s).
Proof. by destruct w. Qed.

Lemma set_input_having w i s : set_input i s = having w i (get_buf w s) s.
Proof. by destruct w, s. Qed.

(** A record's line is read back. *)
Lemma readline_value fuel w mode v r nm fl inf cs s :
  Forall is_byte v -> looks 10 (printing mode) (print_val mode v ++ r) nm fl inf cs s ->
  (length (body mode v) + 1 < fuel)%nat ->
  runs (readline junk malloc_ok fuel w) s (fun a s' => a = Some v /\ looks 10 (printing mode) r nm fl inf cs s').
Proof.
  intros B Hs Hf. pose proof (get_buf_long _ _ _ _ _ _ _ w Hs) as Hb. destruct (Hs) as [Hpr Hno _ Hi _ _ _ _ _ _].
  pose proof (body_clean mode v B) as C. set (t := body mode v) in *.
  assert (Hi' : input s = 32 :: t ++ 10 :: r) by (rewrite Hi, print_val_body; cbn; by rewrite <- app_assoc).
  destruct (first_piece t C (get_buf w s) ltac:(lia)) as (Hp & HpL & Hc & Ht & Hlen & Hd).
  set (p := take (length (get_buf w s) - 1) (t ++ [10])) in *.
  set (b1 := take 0 (get_buf w s) ++ p ++ 0 :: drop (0 + length p + 1) (get_buf w s)) in *.
  destruct (enlarge_line w (next_line s) t r C fuel 0 (length p) (length p) b1) as (b2 & He & Hb2 & Hl2 & Hl3);
    [done | lia | lia | done | rewrite length_app; simpl; lia |].
  set (b3 := v ++ drop (length v) (<[length t := 0]> b2)).
  assert (Hb3 : (length (get_buf w s) <= length b3)%nat).
  { unfold b3. rewrite length_app, length_drop, length_insert. lia. }
  exists (Some v), (having w r b3 (next_line s)). split; [|split; [done|]].
  2: { eapply looks_having; [apply looks_next_line, Hs|by destruct w]. }
  unfold readline, line_mark, gets, modify, mbind, ST_bind, mret, ST_ret. rewrite Hno, Hi'. rewrite decide_True by done.
  rewrite (set_input_having w), get_having.
  assert (Hn : length (get_buf w s) = S (length (get_buf w s) - 1)) by lia.
  rewrite Hn at 1. rewrite fgets_at_line; fold p; [|by apply clean_line|lia].
  rewrite next_line_having, get_having. fold b1. rewrite Hc. cbn [llift of_option mbind outcome_bind mret outcome_ret].
  rewrite Hd, He, get_having.
  replace (length (t ++ [10%Z]) - 1)%nat with (length t) by (rewrite length_app; simpl; lia).
  assert (Htxt : take (length t) b2 = t) by (apply (f_equal (take (length t))) in Hb2;
    rewrite take_take, take_app_length in Hb2; rewrite length_app in Hb2; by rewrite Nat.min_l in Hb2 by lia).
  rewrite Htxt. replace (l_print (having w r b2 (next_line s))) with (printing mode) by (by destruct w).
  fold (unbody (printing mode) t). subst t. rewrite unbody_body by done. by rewrite set_having.
Qed.

(** The line behind the records. *)
Lemma readline_end fuel pr r nm fl inf cs s :
  looks 10 pr (text "DATA=END" ++ 10 :: r) nm fl inf cs s ->
  runs (readline junk malloc_ok fuel K) s (fun a s' => a = None /\ looks 10 pr r nm fl inf cs s').
Proof.
  intros Hs. destruct (Hs) as [_ Hno _ Hi _ _ _ _ Hk _].
  destruct (length (kbuf s)) as [|n] eqn:Hn; [lia|].
  set (t := text "ATA=END"). assert (Ht : Forall (fun c => c <> 10) t) by (vm_compute; repeat constructor; done).
  assert (Hl : take n (t ++ [10]) = t ++ [10]) by (apply firstn_all2; unfold t; cbn; lia).
  assert (Hd : drop n (t ++ [10]) = []) by (apply drop_ge; unfold t; cbn; lia).
  set (b := (t ++ [10]) ++ 0 :: drop 9 (kbuf s)).
  exists None, (having K r b (next_line s)). split; [|split; [done|]].
  2: { eapply looks_having; [apply looks_next_line, Hs|]. unfold b. rewrite length_app. cbn. rewrite length_drop. cbn. lia. }
  unfold readline, line_mark, gets, modify, mbind, ST_bind, mret, ST_ret. rewrite Hno, Hi.
  change (text "DATA=END" ++ 10 :: r) with (68 :: t ++ 10 :: r). cbv beta iota. rewrite decide_False by done.
  change (next_line (set_input ?i s)) with (set_input i (next_line s)). rewrite (set_input_having K).
  change (get_buf K (next_line s)) with (kbuf s). rewrite get_having, Hn.
  rewrite fgets_at_line; rewrite ?Hl; [|done|cbn; lia].
  by rewrite Hd, get_having.
Qed.

Lemma readline_eof fuel pr nm fl inf cs s : looks 10 pr [] nm fl inf cs s ->
  runs (readline junk malloc_ok fuel K) s (fun a s' => a = None /\ s' = set_eof s).
Proof.
  intros [_ Hno _ Hi _ _ _ _ _ _]. exists None, (set_eof s). split; [|done].
  unfold readline, line_mark, gets, modify, mbind, ST_bind, mret, ST_ret. by rewrite Hno, Hi.
Qed.

(** ** LMDB accepts every call *)

Variable maxkey : Z.
Definition answer (c : mdb_call) : Z := match c with MaxKeySize => maxkey | _ => 0 end.
Hypothesis mdb_fine : forall c e, exists k e', mdb c e = Ret (answer c, k, e').

Lemma rc_of_fine c s : exists e, rc_of mdb c s =
  Ret (answer c, Loader E (l_print s) (l_nohdr s) (subname s) (lineno s) (version s) (l_flags s) (Eof s) (l_info s) (kbuf s)
            (dbuf s) (input s) (stderr s) e (calls s ++ [c])).
Proof.
  destruct (mdb_fine c (lenv s)) as (k & e & H). exists e. unfold rc_of, call, mbind, ST_bind, outcome_bind. by rewrite H.
Qed.

Lemma rc_of_looks c room pr i nm fl inf cs s : looks room pr i nm fl inf cs s ->
  runs (rc_of mdb c) s (fun a s' => a = answer c /\ looks room pr i nm fl inf (cs ++ [c]) s').
Proof.
  intros []. destruct (rc_of_fine c s) as (e & H). eapply runs_intro; [exact H|]. split; [done|]. constructor; cbn; congruence.
Qed.

(** ** The records *)

Abbreviation record := (list Z * list Z)%type.

Definition record_text (mode : format) (kv : record) : list Z := print_val mode kv.1 ++ print_val mode kv.2.

(** The calls for the records, 100 to a transaction. *)
Fixpoint puts (flags batch : Z) (rs : list record) : list mdb_call :=
  match rs with
  | [] => []
  | (k, d) :: rs =>
      CursorPut k d flags ::
        (if decide (batch + 1 = 100) then [TxnCommit; TxnBegin; CursorOpen] ++ puts flags 0 rs else puts flags (batch + 1) rs)
  end.

Definition bytes_of (kv : record) : Prop := Forall is_byte kv.1 /\ Forall is_byte kv.2.

Lemma next_batch_fine o ksize prevk room pr i nm fl inf cs s : append o = false -> looks room pr i nm fl inf cs s ->
  runs (next_batch mdb o ksize prevk) s (fun a s' => a = inl prevk /\
    looks room pr i nm fl inf (cs ++ [TxnCommit; TxnBegin; CursorOpen]) s').
Proof.
  intros Ho Hs. unfold next_batch. rewrite Ho.
  apply runs_bind. eapply runs_mono; [apply rc_of_looks, Hs|]. intros ? s1 [-> Hs1]. rewrite decide_False by auto.
  apply runs_bind. eapply runs_mono; [apply rc_of_looks, Hs1|]. intros ? s2 [-> Hs2]. rewrite decide_False by auto.
  apply runs_bind. eapply runs_mono; [apply rc_of_looks, Hs2|]. intros ? s3 [-> Hs3]. rewrite decide_False by auto.
  apply runs_ret. split; [done|]. by rewrite <- !app_assoc in Hs3.
Qed.

Lemma record_loop_fine mode o ksize r rs : append o = false -> forall batch prevk nm fl inf cs fuel s,
  Forall bytes_of rs ->
  looks 10 (printing mode) (concat (record_text mode <$> rs) ++ text "DATA=END" ++ 10 :: r) nm fl inf cs s ->
  (length (concat (record_text mode <$> rs)) < fuel)%nat ->
  runs (record_loop mdb junk malloc_ok fuel o ksize batch prevk) s (fun a s' => a = None /\
    looks 10 (printing mode) r nm fl inf (cs ++ puts (putflags o) batch rs) s').
Proof.
  intros Ho. induction rs as [|[k d] rs IH]; intros batch prevk nm fl inf cs fuel s B Hs Hf.
  - destruct fuel as [|f]; [lia|]. cbn [record_loop puts]. rewrite app_nil_r. apply runs_bind.
    eapply runs_mono; [apply readline_end, Hs|]. intros ? s1 [-> Hs1]. by apply runs_ret.
  - apply Forall_cons in B as [[Bk Bd] B]. cbn [fst snd] in Bk, Bd. cbn [fmap list_fmap concat] in Hs, Hf.
    unfold record_text in Hs at 1, Hf at 1. cbn [fst snd] in Hs, Hf.
    rewrite <- !app_assoc in Hs. rewrite !length_app, !print_val_body in Hf. cbn [length] in Hf. rewrite !length_app in Hf.
    cbn [length] in Hf. destruct fuel as [|f]; [lia|]. cbn [record_loop].
    apply runs_bind. eapply runs_mono; [eapply readline_value; [exact Bk|exact Hs|lia]|]. intros ? s1 [-> Hs1].
    apply runs_bind. eapply runs_mono; [eapply readline_value; [exact Bd|exact Hs1|lia]|]. intros ? s2 [-> Hs2].
    unfold appflag. rewrite Ho. apply runs_bind, runs_ret. rewrite Z.lor_0_r.
    apply runs_bind. eapply runs_mono; [apply rc_of_looks, Hs2|]. intros ? s3 [-> Hs3]. cbn [answer].
    rewrite decide_False by (intros [? _]; done). rewrite decide_False by auto. cbn [puts]. case_decide.
    + apply runs_bind. eapply runs_mono; [apply next_batch_fine; [done|exact Hs3]|]. intros ? s4 [-> Hs4].
      eapply runs_mono; [eapply IH; [done|exact Hs4|lia]|]. intros a s5 [-> Hs5]. split; [done|]. by rewrite <- !app_assoc in Hs5.
    + eapply runs_mono; [eapply IH; [done|exact Hs3|lia]|]. intros a s5 [-> Hs5]. split; [done|]. by rewrite <- !app_assoc in Hs5.
Qed.

(** ** The header *)

Record known := Known { k_room : nat; k_print : bool; k_name : option (list Z); k_flags : Z; k_info : envinfo }.

Definition knows (h : known) (i : list Z) (cs : list mdb_call) s : Prop :=
  looks (k_room h) (k_print h) i (k_name h) (k_flags h) (k_info h) cs s.

(** The line [t] takes the loader from [h] to [h']. *)
Definition takes (t : list Z) (h h' : known) : Prop := forall i cs s tail,
  dbuf s = t ++ 10 :: 0 :: tail -> knows h i cs s ->
  runs header_line s (fun a s' => a = More /\ knows h' i cs s').

Lemma line_in room pr (t i : list Z) nm fl inf cs s : clean t -> (length t < 4095)%nat -> looks room pr (t ++ 10 :: i) nm fl inf cs s ->
  exists tail s', fgets_at D 0 (length (dbuf s)) s = Ret (true, s') /\ dbuf s' = t ++ 10 :: 0 :: tail /\
    looks room pr i nm fl inf cs s'.
Proof.
  intros C Ht Hs. destruct (Hs) as [_ _ _ Hi _ _ _ _ _ Hd]. destruct (length (dbuf s)) as [|n] eqn:Hn; [lia|].
  assert (Hl : length (t ++ [10]) = (length t + 1)%nat) by (by rewrite length_app).
  assert (Htk : take n (t ++ [10]) = t ++ [10]) by (apply firstn_all2; lia).
  exists (drop (0 + length (t ++ [10]) + 1) (dbuf s)), (having D i ((t ++ [10]) ++ 0 :: drop (0 + length (t ++ [10]) + 1) (dbuf s)) s).
  split_and!.
  - rewrite <- (having_id D s) at 1. rewrite Hi. change (get_buf D s) with (dbuf s).
    rewrite fgets_at_line; rewrite ?Htk; [|by apply clean_line|lia]. rewrite drop_ge by lia. done.
  - cbn. by rewrite <- app_assoc.
  - eapply looks_having; [exact Hs|]. cbn [get_buf]. rewrite length_app. cbn [length]. rewrite length_drop. lia.
Qed.

Lemma header_more (t i : list Z) h h' cs fuel s (Q : bool -> loader -> Prop) :
  takes t h h' -> clean t -> (length t < 4095)%nat -> knows h (t ++ 10 :: i) cs s -> (length (t ++ 10%Z :: i) < fuel)%nat ->
  (forall f s', knows h' i cs s' -> (length i < f)%nat -> runs (header_loop f) s' Q) -> runs (header_loop fuel) s Q.
Proof.
  intros T C L Hs Hf Hk. rewrite length_app in Hf. cbn [length] in Hf. destruct fuel as [|f]; [lia|]. cbn [header_loop].
  apply runs_bind, runs_gets. destruct (line_in _ _ t i _ _ _ _ s C L Hs) as (tail & s1 & E1 & Hd & Hs1).
  apply runs_bind. eapply runs_intro; [exact E1|]. cbv beta iota.
  apply runs_bind, runs_modify. apply runs_bind. eapply runs_mono; [eapply (T i cs (next_line s1) tail)|].
  - done.
  - by apply looks_next_line.
  - intros ? s2 [-> Hs2]. apply Hk; [done|lia].
Qed.

Lemma header_end h (i : list Z) cs fuel s :
  knows h (text "HEADER=END" ++ 10 :: i) cs s -> (0 < fuel)%nat ->
  runs (header_loop fuel) s (fun a s' => a = true /\ knows h i cs s').
Proof.
  intros Hs Hf. destruct fuel as [|f]; [lia|]. cbn [header_loop]. apply runs_bind, runs_gets.
  assert (C : clean (text "HEADER=END")) by (vm_compute; repeat constructor; done).
  destruct (line_in _ _ _ i _ _ _ _ s C ltac:(cbn; lia) Hs) as (tail & s1 & E1 & Hd & Hs1).
  apply runs_bind. eapply runs_intro; [exact E1|]. cbv beta iota.
  apply runs_bind, runs_modify. apply runs_bind. apply (runs_intro _ _ HdrEnd (next_line s1)).
  - unfold header_line, gets, mbind, ST_bind. change (dbuf (next_line s1)) with (dbuf s1). by rewrite Hd.
  - apply runs_ret. split; [done|]. by apply looks_next_line.
Qed.

(** *** The lines *)

Lemma value_of_line kw v r s : clean kw -> clean v -> dbuf s = kw ++ v ++ 10 :: r ->
  exists b, value_of (length kw) s = Ret (v, set_buf D b s) /\ length b = length (dbuf s).
Proof.
  intros Ck Cv Hb. exists (kw ++ v ++ 0 :: r). split.
  - unfold value_of, gets, modify, llift, mbind, ST_bind, mret, ST_ret. rewrite Hb. unfold cut_at.
    rewrite app_assoc, before_app by (apply Forall_app; split; by apply clean_line).
    cbn [default]. rewrite insert_app_r_alt, Nat.sub_diag by lia. cbn [list_insert].
    change (<[0%nat:=0]> (10 :: r)) with (0 :: r). cbn [default id].
    rewrite <- app_assoc, drop_app_length, cstr_app by (by apply clean_nonul). done.
  - rewrite Hb, !length_app. done.
Qed.

Lemma knows_value h i cs s b : knows h i cs s -> length b = length (dbuf s) -> knows h i cs (set_buf D b s).
Proof. intros [] Hb. constructor; cbn in *; try done; lia. Qed.

(** The lines [keyword=number]. *)
Lemma takes_number {A} kw v (x : A) (scan : list Z -> option A) d (set : A -> envinfo -> envinfo) h :
  clean (text kw) -> clean v -> scan v = Some x ->
  (forall s r, dbuf s = text kw ++ r -> header_line s = scanned (length (text kw)) scan d set s) ->
  takes (text kw ++ v) h (Known (k_room h) (k_print h) (k_name h) (k_flags h) (set x (k_info h))).
Proof.
  intros Ck Cv Hx Hl i cs s tail Hb Hs. rewrite <- app_assoc in Hb. unfold runs. rewrite (Hl _ _ Hb). fold (@runs loader hdr).
  destruct (value_of_line _ v _ s Ck Cv Hb) as (b & E1 & L). apply runs_bind. eapply runs_intro; [exact E1|].
  rewrite Hx. apply runs_bind, runs_modify, runs_ret. split; [done|].
  destruct (knows_value _ _ _ _ _ Hs L). constructor; cbn in *; try done. by f_equal.
Qed.

Ltac keyword := by intros ? ? E1; unfold header_line, gets, mbind, ST_bind; rewrite E1.
Ltac literal := vm_compute; repeat constructor; done.

Lemma takes_mapsize n h : 0 <= n < 2 ^ 64 -> takes (text "mapsize=" ++ dec n) h
  (Known (k_room h) (k_print h) (k_name h) (k_flags h) (Info (me_mapaddr (k_info h)) n (me_maxreaders (k_info h)))).
Proof.
  intros Hn. apply (takes_number "mapsize=" _ n (scan_unsigned 64) InvalidMapsize (fun n i => Info (me_mapaddr i) n (me_maxreaders i))).
  - literal.
  - apply dec_clean. lia.
  - apply scan_unsigned_dec; lia.
  - keyword.
Qed.

Lemma takes_maxreaders n h : 0 <= n < 2 ^ 32 -> takes (text "maxreaders=" ++ dec n) h
  (Known (k_room h) (k_print h) (k_name h) (k_flags h) (Info (me_mapaddr (k_info h)) (me_mapsize (k_info h)) n)).
Proof.
  intros Hn.
  apply (takes_number "maxreaders=" _ n (scan_unsigned 32) InvalidMaxreaders (fun n i => Info (me_mapaddr i) (me_mapsize i) n)).
  - literal.
  - apply dec_clean. lia.
  - apply scan_unsigned_dec; lia.
  - keyword.
Qed.

Lemma takes_mapaddr p h : 0 < p < 2 ^ 64 -> takes (text "mapaddr=" ++ ptr_text p) h
  (Known (k_room h) (k_print h) (k_name h) (k_flags h) (Info p (me_mapsize (k_info h)) (me_maxreaders (k_info h)))).
Proof.
  intros Hp. destruct (ptr_text_facts p Hp) as (Es & Cp & _).
  apply (takes_number "mapaddr=" _ p scan_ptr InvalidMapaddr (fun p i => Info p (me_mapsize i) (me_maxreaders i))); [literal|done|done|keyword].
Qed.

Lemma takes_database n h : clean n -> takes (text "database=" ++ n) h (Known (k_room h) (k_print h) (Some n) (k_flags h) (k_info h)).
Proof.
  intros Cn i cs s tail Hb Hs. rewrite <- app_assoc in Hb.
  assert (Hl : forall s r, dbuf s = text "database=" ++ r ->
    header_line s = (n ← value_of 9; modify (set_subname (Some n));; mret More) s) by keyword.
  unfold runs. rewrite (Hl _ _ Hb). fold (@runs loader hdr).
  destruct (value_of_line (text "database=") n _ s ltac:(literal) Cn Hb) as (b & E1 & L). apply runs_bind. eapply runs_intro; [exact E1|].
  apply runs_bind, runs_modify, runs_ret. split; [done|]. by destruct (knows_value _ _ _ _ _ Hs L).
Qed.

(** The lines without a value of their own. *)
Lemma takes_version h : takes (text "VERSION=3") h h.
Proof.
  intros i cs s tail Hb Hs. exists More, (set_version 3 s). split; [|split; [done|by destruct Hs]].
  unfold header_line, gets, mbind, ST_bind. by rewrite Hb.
Qed.

Lemma takes_format mode h : takes (text "format=" ++ match mode with Print => text "print" | Bytevalue => text "bytevalue" end) h
  (Known (k_room h) (k_print h || printing mode) (k_name h) (k_flags h) (k_info h)).
Proof.
  intros i cs s tail Hb Hs. unfold runs, header_line, gets, mbind, ST_bind. rewrite Hb. destruct mode; cbn [printing].
  - exists More, (set_print s). split; [done|]. split; [done|]. rewrite orb_true_r. by destruct Hs.
  - exists More, s. rewrite orb_false_r. by destruct Hs.
Qed.

Lemma takes_type h : takes (text "type=btree") h h.
Proof.
  intros i cs s tail Hb Hs. exists More, s. split; [|done]. unfold header_line, gets, mbind, ST_bind. by rewrite Hb.
Qed.

Lemma knows_complain h i cs s b d : knows h i cs s -> length b = length (dbuf s) -> knows h i cs (complain d (set_buf D b s)).
Proof. intros [] Hb. constructor; cbn in *; try done; lia. Qed.

(** A keyword mdb_load does not know. *)
Lemma takes_ignored kw v h : clean kw ->
  (forall s r, dbuf s = kw ++ 61 :: r -> header_line s =
    (modify (set_buf D (kw ++ 0 :: r));; k ← llift (of_option (cstr (kw ++ 0 :: r)));
     modify (fun s => complain (KeywordIgnored (lineno s) k) s);; mret More) s) ->
  takes (kw ++ 61 :: v) h h.
Proof.
  intros Ck Hl i cs s tail Hb Hs. rewrite <- app_assoc in Hb. cbn [app] in Hb. unfold runs. rewrite (Hl _ _ Hb). fold (@runs loader hdr).
  apply runs_bind, runs_modify. rewrite cstr_app by (by apply clean_nonul). apply runs_bind.
  eapply runs_intro; [reflexivity|]. apply runs_bind, runs_modify, runs_ret. split; [done|]. apply knows_complain; [done|].
  rewrite Hb, !length_app. done.
Qed.

Lemma takes_duplicates h : takes (text "duplicates" ++ 61 :: text "1") h h.
Proof. apply takes_ignored; [literal|keyword]. Qed.

Lemma takes_pagesize n h : takes (text "db_pagesize" ++ 61 :: dec n) h h.
Proof. apply takes_ignored; [literal|keyword]. Qed.

Lemma takes_flag bit name h : In (bit, name) dbflags ->
  takes (name ++ text "=1") h (Known (k_room h) (k_print h) (k_name h) (Z.lor (k_flags h) bit) (k_info h)).
Proof.
  intros Hin i cs s tail Hb Hs. exists More, (set_flags (Z.lor (l_flags s) bit) s).
  split; [|split; [done|]; destruct Hs; constructor; cbn in *; try done; congruence].
  unfold header_line, gets, mbind, ST_bind. rewrite Hb. cbn [dbflags In] in Hin.
  by repeat (destruct Hin as [Hin|Hin]; [injection Hin as <- <-|]).
Qed.

(** *** All the lines *)

(** [header_loop] on the input [i] behind [h] gives what [r] is read from in [h']. *)
Definition reads (i : list Z) (h : known) (r : list Z) (h' : known) : Prop := forall cs fuel s,
  knows h i cs s -> (length i < fuel)%nat -> runs (header_loop fuel) s (fun a s' => a = true /\ knows h' r cs s').

Lemma reads_line t i h h1 r h' : takes t h h1 -> clean t -> (length t < 4095)%nat -> reads i h1 r h' ->
  reads (line t ++ i) h r h'.
Proof.
  intros T C L R cs fuel s Hs Hf. unfold line in Hs, Hf. rewrite <- app_assoc in Hs, Hf. cbn [app] in Hs, Hf.
  eapply header_more; [exact T|done|done|exact Hs|exact Hf|]. intros f s' Hs' Hf'. by apply R.
Qed.

Lemma reads_opt (b : bool) t i h h1 r h' : (b = true -> takes t h h1 /\ clean t /\ (length t < 4095)%nat) ->
  (b = false -> h1 = h) -> reads i h1 r h' -> reads ((if b then line t else []) ++ i) h r h'.
Proof.
  intros Ht Hf R. destruct b; [|by rewrite <- (Hf eq_refl)]. destruct (Ht eq_refl) as (? & ? & ?). by eapply reads_line.
Qed.

Lemma reads_end h r : reads (line (text "HEADER=END") ++ r) h r h.
Proof. intros cs fuel s Hs Hf. unfold line in Hs. rewrite <- app_assoc in Hs. eapply header_end; [exact Hs|lia]. Qed.

(** The flags of the lines, one after the other. *)
Fixpoint flags_of (flags : Z) (fs : list (Z * list Z)) (a : Z) : Z :=
  match fs with [] => a | (bit, _) :: fs => flags_of flags fs (if has_flag flags bit then Z.lor a bit else a) end.

Lemma flags_of_dbflags flags : is_byte flags -> Z.land flags 0x7e = flags -> flags_of flags dbflags 0 = flags.
Proof.
  intros B H. pose proof (all_bytes_spec (fun f => implb (Z.land f 0x7e =? f) (flags_of f dbflags 0 =? f)) flags) as A.
  specialize (A ltac:(vm_compute; reflexivity) B). cbv beta in A. rewrite H, Z.eqb_refl in A. by apply Z.eqb_eq in A.
Qed.

Definition with_flags (h : known) (f : Z) : known := Known (k_room h) (k_print h) (k_name h) f (k_info h).

Lemma reads_flags flags fs i h r h' : incl fs dbflags ->
  reads i (with_flags h (flags_of flags fs (k_flags h))) r h' ->
  reads (concat ((fun '(bit, name) => if has_flag flags bit then line (name ++ text "=1") else []) <$> fs) ++ i) h r h'.
Proof.
  revert h. induction fs as [|[bit name] fs IH]; intros h Hin R; [by destruct h|].
  assert (Hb : In (bit, name) dbflags) by (apply Hin; by left). cbn [fmap list_fmap concat flags_of] in R |- *. rewrite <- app_assoc.
  eapply (reads_opt _ _ _ _ (with_flags h (if has_flag flags bit then Z.lor (k_flags h) bit else k_flags h))).
  - intros ->. split; [by apply takes_flag|]. cbn [dbflags In] in Hb.
    repeat (destruct Hb as [Hb|Hb]; [injection Hb as <- <-; split; [literal|cbn; lia]|]). done.
  - intros ->. by destruct h.
  - apply IH; [intros x ?; apply Hin; by right|]. done.
Qed.

(** What the header says. *)
Definition after (mode : format) (name : option (list Z)) (flags : Z) (info : envinfo) (h : known) : known :=
  Known (k_room h) (k_print h || printing mode) (match name with Some n => Some n | None => k_name h end) flags
    (Info (if decide (me_mapaddr info <> 0) then me_mapaddr info else me_mapaddr (k_info h)) (me_mapsize info) (me_maxreaders info)).

Definition info_ok (i : envinfo) : Prop :=
  0 <= me_mapaddr i < 2 ^ 64 /\ 0 <= me_mapsize i < 2 ^ 64 /\ 0 <= me_maxreaders i < 2 ^ 32.

Definition name_ok (name : option (list Z)) : Prop :=
  match name with Some n => clean n /\ (length n < 4086)%nat | None => True end.

Definition flags_ok (flags : Z) : Prop := is_byte flags /\ Z.land flags 0x7e = flags.

Lemma literal_line kw v n : clean (text kw) -> clean v -> (length v <= n)%nat -> (length (text kw) + n < 4095)%nat ->
  clean (text kw ++ v) /\ (length (text kw ++ v) < 4095)%nat.
Proof. intros Ck Cv Lv L. split; [by apply Forall_app|]. rewrite length_app. lia. Qed.

Lemma reads_database name i h r h' : name_ok name ->
  reads i (Known (k_room h) (k_print h) (match name with Some n => Some n | None => k_name h end) (k_flags h) (k_info h)) r h' ->
  reads (match name with Some n => line (text "database=" ++ n) | None => [] end ++ i) h r h'.
Proof.
  intros Hn R. destruct name as [n|]; [|by destruct h]. destruct Hn as [Cn Ln].
  destruct (literal_line "database=" n 4085 ltac:(literal) Cn ltac:(lia) ltac:(cbn; lia)).
  eapply reads_line; [by apply takes_database|done|done|exact R].
Qed.

(** The lines about the environment. *)
Lemma reads_info info dup i h r h' : info_ok info ->
  reads i (Known (k_room h) (k_print h) (k_name h) (k_flags h)
    (Info (if decide (me_mapaddr info <> 0) then me_mapaddr info else me_mapaddr (k_info h)) (me_mapsize info) (me_maxreaders info))) r h' ->
  reads (line (text "mapsize=" ++ dec (me_mapsize info)) ++
    (if decide (me_mapaddr info <> 0) then line (text "mapaddr=" ++ ptr_text (me_mapaddr info)) else []) ++
    line (text "maxreaders=" ++ dec (me_maxreaders info)) ++
    (if dup : bool then line (text "duplicates=1") else []) ++ i) h r h'.
Proof.
  intros (Ha & Hs & Hr) R. destruct (dec_clean (me_mapsize info) ltac:(lia)) as [Cs Ls].
  destruct (literal_line "mapsize=" _ 20 ltac:(literal) Cs Ls ltac:(cbn; lia)).
  eapply reads_line; [by apply takes_mapsize|done|done|]. cbn [k_room k_print k_name k_flags k_info me_mapaddr me_mapsize me_maxreaders].
  assert (Hdup : forall h1, reads i h1 r h' -> reads ((if dup then line (text "duplicates=1") else []) ++ i) h1 r h').
  { intros h1 R1. eapply reads_opt; [|done|exact R1]. intros _.
    split; [exact (takes_duplicates h1)|]. split; [literal|cbn; lia]. }
  destruct (dec_clean (me_maxreaders info) ltac:(lia)) as [Cr Lr].
  destruct (literal_line "maxreaders=" _ 20 ltac:(literal) Cr Lr ltac:(cbn; lia)).
  case_decide as Hz.
  - destruct (ptr_text_facts (me_mapaddr info) ltac:(lia)) as (_ & Ca & La).
    destruct (literal_line "mapaddr=" _ 18 ltac:(literal) Ca La ltac:(cbn; lia)).
    eapply reads_line; [apply takes_mapaddr; lia|done|done|].
    eapply reads_line; [by apply takes_maxreaders|done|done|]. by apply Hdup.
  - eapply reads_line; [by apply takes_maxreaders|done|done|]. by apply Hdup.
Qed.

Lemma reads_header mode name flags psize info h r :
  name_ok name -> flags_ok flags -> info_ok info -> 0 <= psize < 10 ^ 20 -> k_flags h = 0 ->
  reads (header mode name flags psize info ++ r) h r (after mode name flags info h).
Proof.
  intros Hn [Hfb Hfm] Hi Hp Hz. unfold header. rewrite <- !app_assoc.
  eapply reads_line; [apply takes_version|literal|cbn; lia|].
  eapply reads_line; [apply (takes_format mode)|destruct mode; literal|destruct mode; cbn; lia|].
  apply reads_database; [done|]. eapply reads_line; [apply takes_type|literal|cbn; lia|].
  apply reads_info; [done|]. cbn [k_room k_print k_name k_flags k_info]. apply (reads_flags flags dbflags); [by intros ?|].
  destruct (dec_clean psize Hp) as [Cp Lp].
  destruct (literal_line "db_pagesize=" _ 20 ltac:(literal) Cp Lp ltac:(cbn; lia)).
  eapply reads_line; [apply (takes_pagesize psize)|done|done|].
  cbn [k_flags]. rewrite Hz, flags_of_dbflags by done. apply reads_end.
Qed.

(** ** The load *)

(** A data base with its records in order. *)
Record database := Database {
  d_name : option (list Z);
  d_flags : Z;
  d_psize : Z;
  d_info : envinfo;
  d_records : list record
}.

Definition database_ok (d : database) : Prop :=
  name_ok (d_name d) /\ flags_ok (d_flags d) /\ 0 <= d_psize d < 10 ^ 20 /\ info_ok (d_info d) /\ Forall bytes_of (d_records d).

Definition dump_text (mode : format) (d : database) : list Z :=
  header mode (d_name d) (d_flags d) (d_psize d) (d_info d) ++ concat (record_text mode <$> d_records d) ++ line (text "DATA=END").

(** What LMDB answers to mdb_dump. *)
Definition view_of (d : database) : view :=
  View (0, d_flags d) (0, d_psize d) (0, d_info d) 0
    (fun i => match d_records d !! i with Some (k, v) => (0, k, v) | None => (MDB_NOTFOUND, [], []) end) (fun _ => false).

Lemma dump_loop_view mode d fuel i : (length (drop i (d_records d)) < fuel)%nat ->
  dump_loop fuel mode (view_of d) i = Ret (concat (record_text mode <$> drop i (d_records d)), 0).
Proof.
  revert i. induction fuel as [|f IH]; intros i Hf; [lia|]. cbn [dump_loop view_of v_next v_sig].
  destruct (d_records d !! i) as [[k v]|] eqn:Hi.
  - rewrite (drop_S _ _ _ Hi) in Hf |- *. cbn [length] in Hf. rewrite bool_decide_true by done. cbn [Z.b2z].
    rewrite decide_True by done. fold (view_of d). rewrite IH by lia. cbn [mbind outcome_bind fmap list_fmap concat].
    by rewrite app_assoc.
  - rewrite bool_decide_false by done. cbn [Z.b2z]. rewrite decide_False by auto.
    by rewrite drop_ge by (by apply lookup_ge_None).
Qed.

Lemma dumpit_view mode d fuel : (length (d_records d) < fuel)%nat ->
  dumpit fuel mode (view_of d) (d_name d) = Ret (dump_text mode d, 0).
Proof. intros Hf. unfold dumpit. cbn [view_of v_flags v_psize v_info v_cursor]. fold (view_of d). by rewrite dump_loop_view. Qed.

(** The calls of one turn of the loop, and of all of them: the last one finds
    the input at its end. *)
Definition db_calls (put : Z) (name : option (list Z)) (flags : Z) (rs : list record) : list mdb_call :=
  [TxnBegin; DbiOpen name (Z.lor flags MDB_CREATE); CursorOpen] ++ puts put 0 rs ++ [TxnCommit; DbiClose].

Fixpoint load_calls (put : Z) (name : option (list Z)) (ds : list database) : list mdb_call :=
  match ds with
  | [] => db_calls put name 0 [] ++ [TxnAbort true; EnvClose]
  | d :: ds =>
      let name := match d_name d with Some n => Some n | None => name end in
      db_calls put name (d_flags d) (d_records d) ++ load_calls put name ds
  end.

Definition env_calls (o : options) (i : envinfo) : list mdb_call :=
  [EnvCreate; SetMaxdbs 2] ++
  (if decide (me_maxreaders i <> 0) then [SetMaxreaders (me_maxreaders i)] else []) ++
  (if decide (me_mapsize i <> 0) then [SetMapsize (me_mapsize i)] else []) ++
  [EnvOpen (if decide (me_mapaddr i <> 0) then Z.lor (envflags o) MDB_FIXEDMAP else envflags o); MaxKeySize].

Lemma load_db_fine mode o ksize fuel rs h r cs s : append o = false -> Forall bytes_of rs -> k_room h = 10%nat -> k_print h = printing mode ->
  knows h (concat (record_text mode <$> rs) ++ line (text "DATA=END") ++ r) cs s ->
  (length (concat (record_text mode <$> rs)) < fuel)%nat ->
  runs (load_db mdb junk malloc_ok fuel o ksize) s (fun a s' => a = None /\
    knows h r (cs ++ db_calls (putflags o) (k_name h) (k_flags h) rs) s').
Proof.
  intros Ho B Hr Hp Hs Hf. unfold load_db, knows in *. rewrite Hr, Hp, Ho in *. unfold line in Hs. rewrite <- app_assoc in Hs.
  apply runs_bind. eapply runs_mono; [apply rc_of_looks, Hs|]. intros ? s1 [-> Hs1]. rewrite decide_False by auto.
  apply runs_bind, runs_gets, runs_bind, runs_gets. rewrite (lk_name _ _ _ _ _ _ _ _ Hs1), (lk_flags _ _ _ _ _ _ _ _ Hs1).
  apply runs_bind. eapply runs_mono; [apply rc_of_looks, Hs1|]. intros ? s2 [-> Hs2]. rewrite decide_False by auto.
  apply runs_bind, runs_ret.
  apply runs_bind. eapply runs_mono; [apply rc_of_looks, Hs2|]. intros ? s3 [-> Hs3]. rewrite decide_False by auto.
  apply runs_bind. eapply runs_mono; [eapply record_loop_fine; [done|done|exact Hs3|done]|]. intros ? s4 [-> Hs4].
  apply runs_bind. eapply runs_mono; [apply rc_of_looks, Hs4|]. intros ? s5 [-> Hs5]. rewrite decide_False by auto.
  apply runs_bind. eapply runs_mono; [apply rc_of_looks, Hs5|]. intros ? s6 [_ Hs6]. apply runs_ret. split; [done|].
  by rewrite <- !app_assoc in Hs6.
Qed.

Lemma readhdr_reads h i r h' cs fuel s : reads i (with_flags h 0) r h' -> knows h i cs s -> (length i < fuel)%nat ->
  runs (readhdr fuel) s (fun a s' => a = true /\ knows h' r cs s').
Proof.
  intros R Hs Hf. unfold readhdr. apply runs_bind, runs_modify. apply R; [|done]. by destruct Hs.
Qed.

Lemma readhdr_eof h cs fuel s : knows h [] cs s -> (0 < fuel)%nat ->
  runs (readhdr fuel) s (fun a s' => a = true /\ knows (with_flags h 0) [] cs s').
Proof.
  intros Hs Hf. destruct fuel as [|f]; [lia|]. exists true, (set_flags 0 s). split; [|split; [done|by destruct Hs]].
  unfold readhdr. cbn [header_loop]. unfold fgets_at, gets, modify, mbind, ST_bind. cbn [input set_flags].
  destruct Hs as [_ _ _ -> _ _ _ _ _ _]. done.
Qed.

Lemma knows_eof h i cs s : knows h i cs s -> Eof s = false.
Proof. by intros []. Qed.

Lemma knows_nohdr h i cs s : knows h i cs s -> l_nohdr s = false.
Proof. by intros []. Qed.

Lemma reads_database_text mode d h i : database_ok d ->
  reads (dump_text mode d ++ i) (with_flags h 0) (concat (record_text mode <$> d_records d) ++ line (text "DATA=END") ++ i)
    (after mode (d_name d) (d_flags d) (d_info d) h).
Proof.
  intros (Hn & Hfl & Hp & Hi & _). unfold dump_text. rewrite <- !app_assoc. exact (reads_header mode _ _ _ _ (with_flags h 0) _ Hn Hfl Hi Hp eq_refl).
Qed.

Definition ended (cs : list mdb_call) s : Prop := Eof s = true /\ calls s = cs.

Lemma rc_of_ended c cs s : ended cs s -> runs (rc_of mdb c) s (fun a s' => a = answer c /\ ended (cs ++ [c]) s').
Proof.
  intros [He Hc]. destruct (rc_of_fine c s) as (e & H). eapply runs_intro; [exact H|]. split; [done|]. split; cbn; congruence.
Qed.

Lemma load_db_eof o ksize h cs fuel s : append o = false -> k_room h = 10%nat -> knows h [] cs s -> (0 < fuel)%nat ->
  runs (load_db mdb junk malloc_ok fuel o ksize) s (fun a s' => a = None /\
    ended (cs ++ db_calls (putflags o) (k_name h) (k_flags h) []) s').
Proof.
  intros Ho Hr Hs Hf. destruct fuel as [|f]; [lia|]. unfold load_db, knows in *. rewrite Ho, Hr in *.
  apply runs_bind. eapply runs_mono; [apply rc_of_looks, Hs|]. intros ? s2 [-> Hs2]. rewrite decide_False by auto.
  apply runs_bind, runs_gets, runs_bind, runs_gets. rewrite (lk_name _ _ _ _ _ _ _ _ Hs2), (lk_flags _ _ _ _ _ _ _ _ Hs2).
  apply runs_bind. eapply runs_mono; [apply rc_of_looks, Hs2|]. intros ? s3 [-> Hs3]. rewrite decide_False by auto.
  apply runs_bind, runs_ret.
  apply runs_bind. eapply runs_mono; [apply rc_of_looks, Hs3|]. intros ? s4 [-> Hs4]. rewrite decide_False by auto.
  apply runs_bind. cbn [record_loop]. apply runs_bind. eapply runs_mono; [apply (readline_eof _ _ _ _ _ _ _ Hs4)|]. intros ? s5 [-> ->].
  apply runs_ret. assert (Hs5 : ended (((cs ++ [TxnBegin]) ++ [DbiOpen (k_name h) (Z.lor (k_flags h) MDB_CREATE)]) ++ [CursorOpen]) (set_eof s4))
    by (split; [done|]; exact (lk_calls _ _ _ _ _ _ _ _ Hs4)).
  apply runs_bind. eapply runs_mono; [apply rc_of_ended, Hs5|]. intros ? s6 [-> Hs6]. rewrite decide_False by auto.
  apply runs_bind. eapply runs_mono; [apply rc_of_ended, Hs6|]. intros ? s7 [_ Hs7]. apply runs_ret. split; [done|].
  by rewrite <- !app_assoc in Hs7.
Qed.

(** The input has ended. *)
Lemma load_loop_end o ksize h cs fuel s : append o = false -> k_room h = 10%nat -> knows h [] cs s -> (1 < fuel)%nat ->
  runs (load_loop mdb junk malloc_ok fuel o ksize true) s (fun a s' => a = 0 /\
    calls s' = cs ++ load_calls (putflags o) (k_name h) []).
Proof.
  intros Ho Hr Hs Hf. destruct fuel as [|[|f]]; [lia..|]. remember (S f) as fuel eqn:Hfuel. cbn [load_loop].
  apply runs_bind, runs_gets. rewrite (knows_eof _ _ _ _ Hs). apply runs_bind, runs_gets. rewrite (knows_nohdr _ _ _ _ Hs).
  apply runs_bind. eapply runs_mono; [apply (readhdr_eof _ _ (S fuel) _ Hs); lia|]. intros ? s1 [-> Hs1].
  apply runs_bind. eapply runs_mono; [eapply (load_db_eof _ _ (with_flags h 0)); [done|exact Hr|exact Hs1|lia]|]. intros ? s2 [-> [He2 Hc2]].
  rewrite Hfuel. cbn [load_loop]. apply runs_bind, runs_gets. rewrite He2. unfold finish. apply runs_bind, runs_bind.
  eapply runs_mono; [apply rc_of_ended; split; [exact He2|exact Hc2]|]. intros ? s3 [_ Hs3]. apply runs_ret.
  apply runs_bind. eapply runs_mono; [apply rc_of_ended, Hs3|]. intros ? s4 [_ [_ Hs4]]. apply runs_ret. split; [done|].
  rewrite Hs4. cbn [load_calls]. by rewrite <- !app_assoc.
Qed.

(** A turn, once the header is read. *)
Lemma load_turn mode o ksize d h i cs f s (Q : Z -> loader -> Prop) :
  append o = false -> database_ok d -> k_room h = 10%nat -> k_print h = printing mode -> k_flags h = d_flags d ->
  knows h (concat (record_text mode <$> d_records d) ++ line (text "DATA=END") ++ i) cs s ->
  (length (concat (record_text mode <$> d_records d)) <= f)%nat ->
  (forall s', knows h i (cs ++ db_calls (putflags o) (k_name h) (d_flags d) (d_records d)) s' ->
    runs (load_loop mdb junk malloc_ok f o ksize true) s' Q) ->
  runs (r ← load_db mdb junk malloc_ok (S f) o ksize;
        match r with
        | Some (st, rc) => finish mdb st rc
        | None => load_loop mdb junk malloc_ok f o ksize true
        end) s Q.
Proof.
  intros Ho (_ & _ & _ & _ & B) Hr Hp Hfl Hs Hf Hk. rewrite <- Hfl in Hk.
  apply runs_bind. eapply runs_mono; [eapply load_db_fine; [done|exact B|done|done|exact Hs|lia]|]. intros ? s1 [-> Hs1]. by apply Hk.
Qed.

Lemma dump_text_longer mode d : (length (concat (record_text mode <$> d_records d)) < length (dump_text mode d))%nat.
Proof. unfold dump_text, header. rewrite !length_app. change (length (line (text "VERSION=3"))) with 10%nat. lia. Qed.

Lemma load_loop_rest mode o ksize ds : append o = false -> Forall database_ok ds -> forall h cs fuel s,
  k_room h = 10%nat -> k_print h = printing mode ->
  knows h (concat (dump_text mode <$> ds)) cs s -> (length (concat (dump_text mode <$> ds)) + 1 < fuel)%nat ->
  runs (load_loop mdb junk malloc_ok fuel o ksize true) s (fun a s' => a = 0 /\
    calls s' = cs ++ load_calls (putflags o) (k_name h) ds).
Proof.
  intros Ho. induction 1 as [|d ds Hd _ IH]; intros h cs fuel s Hr Hp Hs Hf; [apply load_loop_end; [done|done|exact Hs|cbn in Hf; lia]|].
  cbn [fmap list_fmap concat] in Hs, Hf. rewrite length_app in Hf. destruct fuel as [|f]; [lia|]. cbn [load_loop].
  apply runs_bind, runs_gets. rewrite (knows_eof _ _ _ _ Hs). apply runs_bind, runs_gets. rewrite (knows_nohdr _ _ _ _ Hs).
  apply runs_bind. eapply runs_mono; [eapply (readhdr_reads h); [by apply reads_database_text|exact Hs|rewrite length_app; lia]|].
  intros ? s1 [-> Hs1].
  pose proof (dump_text_longer mode d) as Hl.
  set (h1 := after mode (d_name d) (d_flags d) (d_info d) h) in *.
  assert (Hp1 : k_print h1 = printing mode) by (cbn; rewrite Hp; apply orb_diag).
  eapply (load_turn mode _ _ d h1); [done..|exact Hs1|lia|].
  intros s2 Hs2. eapply runs_mono; [eapply (IH h1); [done|done|exact Hs2|lia]|].
  intros a s3 [-> Hs3]. split; [done|]. rewrite Hs3. by rewrite <- app_assoc.
Qed.

Lemma rc_of_opt (P : Prop) `{Decision P} c room pr i nm fl inf cs s : looks room pr i nm fl inf cs s ->
  runs (if decide P then rc_of mdb c else mret 0) s (fun _ s' => looks room pr i nm fl inf (cs ++ if decide P then [c] else []) s').
Proof.
  intros Hs. case_decide; [|apply runs_ret; by rewrite app_nil_r].
  eapply runs_mono; [apply rc_of_looks, Hs|]. by intros ? s' [_ ?].
Qed.

(** The state of the process before main: no option but those of [o]. *)
Definition started (input : list Z) s : Prop :=
  l_print s = false /\ l_nohdr s = false /\ Eof s = false /\ MdbLoad.input s = input /\ l_info s = Info 0 0 0 /\ calls s = [].

Lemma knows_buf h i cs s n : k_room h = 0%nat -> knows h i cs s -> 10 <= n ->
  knows (Known 10 (k_print h) (k_name h) (k_flags h) (k_info h)) i cs (set_buf K (junk n) s).
Proof. intros _ [] Hn. constructor; cbn; try done. rewrite junk_length by lia. lia. Qed.

(** From the end of the first header on. *)
Lemma load_main_env o i info cs s room pr nm fl (f : Z -> ST loader Z) (Q : Z -> loader -> Prop) :
  looks room pr i nm fl info cs s ->
  (forall s', looks room pr i nm fl info (cs ++ env_calls o info) s' -> runs (f maxkey) s' Q) ->
  runs (rc ← rc_of mdb EnvCreate;
    if decide (rc <> 0) then modify (complain (CallFailed rc));; mret 1 else
    rc_of mdb (SetMaxdbs 2);;
    i ← gets l_info;
    (if decide (me_maxreaders i <> 0) then rc_of mdb (SetMaxreaders (me_maxreaders i)) else mret 0);;
    (if decide (me_mapsize i <> 0) then rc_of mdb (SetMapsize (me_mapsize i)) else mret 0);;
    rc ← rc_of mdb (EnvOpen (if decide (me_mapaddr i <> 0) then Z.lor (envflags o) MDB_FIXEDMAP else envflags o));
    if decide (rc <> 0) then modify (complain (CallFailed rc));; finish mdb Stop_env_close rc else
    n ← rc_of mdb MaxKeySize; f n) s Q.
Proof.
  intros Hs Hf.
  apply runs_bind. eapply runs_mono; [apply rc_of_looks, Hs|]. intros ? s1 [-> Hs1]. rewrite decide_False by auto.
  apply runs_bind. eapply runs_mono; [apply rc_of_looks, Hs1|]. intros ? s2 [_ Hs2].
  apply runs_bind, runs_gets. rewrite (lk_info _ _ _ _ _ _ _ _ Hs2).
  apply runs_bind. eapply runs_mono; [apply rc_of_opt, Hs2|]. intros ? s3 Hs3.
  apply runs_bind. eapply runs_mono; [apply rc_of_opt, Hs3|]. intros ? s4 Hs4.
  apply runs_bind. eapply runs_mono; [apply rc_of_looks, Hs4|]. intros ? s5 [-> Hs5]. rewrite decide_False by auto.
  apply runs_bind. eapply runs_mono; [apply rc_of_looks, Hs5|]. intros ? s6 [-> Hs6]. apply Hf.
  by rewrite <- !app_assoc in Hs6.
Qed.

Lemma load_main_fine mode o ds d fuel s : 4 <= maxkey -> append o = false -> Forall database_ok (d :: ds) ->
  started (concat (dump_text mode <$> d :: ds)) s -> (length (concat (dump_text mode <$> d :: ds)) + 1 < fuel)%nat ->
  runs (load_main mdb junk malloc_ok fuel o) s (fun a s' => a = 0 /\
    calls s' = env_calls o (d_info d) ++ load_calls (putflags o) (subname s) (d :: ds)).
Proof.
  intros Hk Ho [Hd Hds]%Forall_cons (Hp & Hno & He & Hi & Hinf & Hc) Hf. cbn [fmap list_fmap concat] in Hi, Hf.
  rewrite length_app in Hf. set (rest := concat (dump_text mode <$> ds)) in *.
  set (h0 := Known 0 false (subname s) (l_flags s) (Info 0 0 0)).
  assert (Hs0 : knows h0 (dump_text mode d ++ rest) [] (set_buf D (junk 4096) s))
    by (constructor; cbn; try done; [lia|rewrite junk_length by lia; done]).
  unfold load_main, new_buf. rewrite !malloc_fine. apply runs_bind, runs_modify. apply runs_bind, runs_gets.
  rewrite (knows_nohdr _ _ _ _ Hs0).
  apply runs_bind. eapply runs_mono; [eapply (readhdr_reads h0); [by apply reads_database_text|exact Hs0|rewrite length_app; lia]|].
  intros ? s1 [-> Hs1]. set (h1 := after mode (d_name d) (d_flags d) (d_info d) h0) in *.
  apply (load_main_env o _ _ _ _ _ _ _ _ _ _ Hs1). clear s1 Hs1. intros s1 Hs1.
  apply runs_bind, runs_modify. rewrite malloc_fine.
  set (h2 := Known 10 (k_print h1) (k_name h1) (k_flags h1) (k_info h1)).
  assert (Hs2 := knows_buf h1 _ _ _ (maxkey * 2 + 2) eq_refl Hs1 ltac:(lia)). fold h2 in Hs2.
  assert (Hinfo : k_info h1 = d_info d) by (subst h1; destruct (d_info d); cbn; case_decide; [done|f_equal; lia]).
  destruct fuel as [|f]; [lia|]. cbn [load_loop]. apply runs_bind, runs_gets. rewrite (knows_eof _ _ _ _ Hs2).
  apply runs_bind, runs_gets. apply runs_bind, runs_ret. cbn [andb].
  pose proof (dump_text_longer mode d) as Hl.
  eapply (load_turn mode _ _ d h2); [done..|exact Hs2|lia|].
  intros s3 Hs3. eapply runs_mono; [eapply (load_loop_rest mode _ _ ds Ho Hds h2); [done|done|exact Hs3|fold rest; lia]|].
  intros a s4 [-> Hs4]. split; [done|]. rewrite Hs4, Hinfo. by rewrite <- app_assoc.
Qed.
End Round.

(** ** The round trip *)

(** C16: what mdb_dump writes for data bases, one after the other, mdb_load puts back when LMDB accepts its calls: for
    each data base it makes the calls [load_calls] lists: it opens a data base with its flags, puts its records byte for
    byte and in their order, 100 to a transaction, and commits; a last turn finds the end of the input; and the
    process exits with 0.  Keys and values are any bytes and of any length.  A data base that has a name is opened under
    that name; one that has none (the main data base) is opened under the last name seen before it, from an earlier data base or the option
    -s, since the header line is missing and the code keeps the name: its records go into that data base. *)
Theorem mdb_dump_load {E : Type} (mdb : mdb_call -> ST E (Z * list Z)) (junk : Z -> list Z) (maxkey : Z) (mode : format)
    (o : options) (ds : list database) (d : database) (outs : list (list Z)) (fuel dfuel : nat) (s : MdbLoad.loader (E := E)) :
  (forall n, 0 <= n -> length (junk n) = Z.to_nat n) ->
  (forall c e, exists k e', mdb c e = Ret (answer maxkey c, k, e')) ->
  4 <= maxkey -> append o = false -> Forall database_ok (d :: ds) ->
  Forall (fun d => (length (d_records d) < dfuel)%nat) (d :: ds) ->
  Forall2 (fun d out => dumpit dfuel mode (view_of d) (d_name d) = Ret (out, 0)) (d :: ds) outs ->
  started (concat outs) s -> (length (concat outs) + 1 < fuel)%nat ->
  exists s', load_main mdb junk (fun _ => true) fuel o s = Ret (0, s') /\
    calls s' = env_calls o (d_info d) ++ load_calls (putflags o) (subname s) (d :: ds).
Proof.
  intros Hj Hm Hk Ho Hd Hfd Ho2 Hs Hf.
  assert (outs = dump_text mode <$> d :: ds) as ->.
  { clear -Hfd Ho2. revert outs Ho2. induction Hfd as [|x l Hx _ IH]; intros outs H; inversion H as [|? ? ? ? E1 H1]; subst; [done|].
    cbn [fmap list_fmap]. rewrite dumpit_view in E1 by done. injection E1 as <-. f_equal. by apply IH. }
  destruct (load_main_fine mdb junk (fun _ => true) Hj (fun _ => eq_refl) maxkey Hm mode o ds d fuel s Hk Ho Hd Hs Hf) as (a & s' & E1 & -> & E2).
  by exists s'.
Qed.

(** An LMDB that accepts everything, with keys of at most 511 bytes. *)
Definition accepting (c : mdb_call) : ST unit (Z * list Z) := fun u => Ret (answer 511 c, [], u).
Definition zeros (n : Z) : list Z := replicate (Z.to_nat n) 0.
Definition example_db : database :=
  Database (Some (text "one")) (Z.lor MDB_DUPSORT MDB_DUPFIXED) 4096 (Info 255 1048576 126)
    [(text "a\b", [0; 10; 255]); (text "a\b", [])].
Definition example_dbs : list database := [Database None 0 4096 (Info 0 1048576 126) [([200], text "x")]].
Definition example_text : list (list Z) := dump_text Print <$> example_db :: example_dbs.
Definition example_start : MdbLoad.loader (E := unit) :=
  Loader unit false false None 0 0 0 false (Info 0 0 0) [] [] (concat example_text) [] tt [].

Lemma mdb_dump_load_witness : exists s',
  load_main accepting zeros (fun _ => true) 1000 (Options false 0 0) example_start = Ret (0, s') /\
  calls s' = [EnvCreate; SetMaxdbs 2; SetMaxreaders 126; SetMapsize 1048576; EnvOpen 1; MaxKeySize;
    TxnBegin; DbiOpen (Some (text "one")) 0x40014; CursorOpen;
    CursorPut (text "a\b") [0; 10; 255] 0; CursorPut (text "a\b") [] 0; TxnCommit; DbiClose;
    TxnBegin; DbiOpen (Some (text "one")) 0x40000; CursorOpen; CursorPut [200] (text "x") 0; TxnCommit; DbiClose;
    TxnBegin; DbiOpen (Some (text "one")) 0x40000; CursorOpen; TxnCommit; DbiClose; TxnAbort true; EnvClose].
Proof.
  apply (mdb_dump_load accepting zeros 511 Print (Options false 0 0) example_dbs example_db example_text 1000 5 example_start).
  - intros n Hn. unfold zeros. by rewrite length_replicate.
  - intros c e. by exists [], e.
  - lia.
  - done.
  - repeat (constructor || split); vm_compute; first [done | lia].
  - repeat constructor; vm_compute; lia.
  - repeat constructor; vm_compute; reflexivity.
  - repeat split; vm_compute; reflexivity.
  - vm_compute. lia.
Defined.
