(* ===== verification/Client.v ===== *)
(** * The client (src/src/rkx.h)

    The parts of the program the commands work on, with one heap and one
    standard output shared by all of them: the state of each component is
    the one its own file defines, and an operation of a component runs on it
    after the shared heap and output are put in. *)

From Stdlib Require Import ZArith Lia Ascii String.
From stdpp Require Import prelude gmap.
From S2P Require Import Prelude.
From S2P Require Import Adlist.
From S2P Require Import FileCrypt.
From S2P Require Import User.
From S2P Require Import Net.
From S2P Require Import Db.

Section Client.
Context {HP FS E R : Type} `{!Allocator HP}.

(** [struct kxclient client]: the pointers it holds ([0] for NULL) and what
    they lead to. *)
Record client := Client {
  cheap : HP;
  cout : list Z;
  node : Z;
  user : Z;
  net_p : Z;
  db : Z;
  local_cryptfiles : Z;
  c_user : ustate (HP := HP);
  c_files : gmap (list Z) (list Z);
  c_lists : store (HP := HP);
  c_net : net (HP := HP) (R := R);
  c_db : dstate (HP := HP) (FS := FS) (E := E)
}.

Definition on_heap {A} (m : ST HP A) : ST client A := fun s =>
  '(a, h) ← m (cheap s);
  Ret (a, Client h (cout s) (node s) (user s) (net_p s) (db s) (local_cryptfiles s)
            (c_user s) (c_files s) (c_lists s) (c_net s) (c_db s)).

Definition on_user {A} (m : ST (ustate (HP := HP)) A) : ST client A := fun s =>
  let u := c_user s in
  '(a, u) ← m (UState (cheap s) (User.nodes u) (users u) (keys u) (gnode u));
  Ret (a, Client (uheap u) (cout s) (node s) (user s) (net_p s) (db s) (local_cryptfiles s)
            u (c_files s) (c_lists s) (c_net s) (c_db s)).

Definition on_files {A} (m : ST (fstate (HP := HP)) A) : ST client A := fun s =>
  '(a, f) ← m (FState (cheap s) (c_files s));
  Ret (a, Client (fheap f) (cout s) (node s) (user s) (net_p s) (db s) (local_cryptfiles s)
            (c_user s) (files f) (c_lists s) (c_net s) (c_db s)).

Definition on_lists {A} (m : ST (store (HP := HP)) A) : ST client A := fun s =>
  let l := c_lists s in
  '(a, l) ← m (Store (cheap s) (Adlist.nodes l) (lists l) (iters l) (freed l));
  Ret (a, Client (heap l) (cout s) (node s) (user s) (net_p s) (db s) (local_cryptfiles s)
            (c_user s) (c_files s) l (c_net s) (c_db s)).

Definition on_net {A} (m : ST (net (HP := HP) (R := R)) A) : ST client A := fun s =>
  let n := c_net s in
  '(a, n) ← m (Net (cheap s) (redis n) (contexts n) (acs n) (live_replies n) (cout s));
  Ret (a, Client (nheap n) (nout n) (node s) (user s) (net_p s) (db s) (local_cryptfiles s)
            (c_user s) (c_files s) (c_lists s) n (c_db s)).

Definition on_db {A} (m : ST (dstate (HP := HP) (FS := FS) (E := E)) A) : ST client A := fun s =>
  let d := c_db s in
  '(a, d) ← m (DState (cheap s) (dfs d) (denv d) (dbs d) (cout s) (calls d));
  Ret (a, Client (dheap d) (dout d) (node s) (user s) (net_p s) (db s) (local_cryptfiles s)
            (c_user s) (c_files s) (c_lists s) (c_net s) d).

Definition cprint (t : list Z) : ST client unit :=
  modify (fun s => Client (cheap s) (cout s ++ t) (node s) (user s) (net_p s) (db s) (local_cryptfiles s)
            (c_user s) (c_files s) (c_lists s) (c_net s) (c_db s)).
Definition set_user (p : Z) : ST client unit :=
  modify (fun s => Client (cheap s) (cout s) (node s) p (net_p s) (db s) (local_cryptfiles s)
            (c_user s) (c_files s) (c_lists s) (c_net s) (c_db s)).
Definition set_db (p : Z) : ST client unit :=
  modify (fun s => Client (cheap s) (cout s) (node s) (user s) (net_p s) p (local_cryptfiles s)
            (c_user s) (c_files s) (c_lists s) (c_net s) (c_db s)).
Definition clift {A} (m : outcome A) : ST client A := fun s => a ← m; Ret (a, s).

(** ** Fields through the pointers *)

(** A NULL [client.user] is not in the map. *)
Definition the_user : ST client kxuser := p ← gets user; on_user (deref_user p).
Definition the_node : ST client (list Z) := p ← gets node; on_user (deref_node p).

Definition username : ST client (list Z) := u ← the_user; clift (of_option (cstr (drop off_username (User.chars u)))).
Definition password : ST client (list Z) := u ← the_user; clift (of_option (cstr (drop off_pwd (User.chars u)))).
Definition node_uuid : ST client (list Z) := n ← the_node; clift (of_option (cstr (drop User.off_uuid n))).
Definition node_ip : ST client (list Z) := n ← the_node; clift (of_option (cstr (drop off_ip n))).
Definition node_mac : ST client (list Z) := n ← the_node; clift (of_option (cstr (drop off_mac n))).

(** [client.user->key]: the bytes behind the pointer. *)
Definition user_key : ST client (list Z) :=
  u ← the_user; s ← gets c_user; clift (of_option (keys s !! ukey u)).

(** ** Options

    [getopt_long] is an argument of the two commands: what it returns call after call
    until -1, with [optarg] and the value it gives to [option_index]. *)

Record gopt := Gopt { g_opt : Z; g_arg : option (list Z); g_index : Z }.

(** A pointer to a string: NULL is the address 0. *)
Definition cstring : Type := Z * list Z.
Definition cnull : cstring := (0, []).

(** [strdup], from the same heap. *)
Definition strdup (t : list Z) : ST client cstring :=
  p ← on_heap (a_alloc (Z.of_nat (length t) + 1)); mret (p, if decide (p = 0) then [] else t).

(** [if (p) free(p)] *)
Definition free_string (p : cstring) : ST client unit :=
  if decide (p.1 <> 0) then on_heap (a_free p.1) else mret tt.

(** The string behind a pointer. *)
Definition deref_string (p : cstring) : ST client (list Z) := if decide (p.1 = 0) then undef else mret p.2.

(** [argv[argc-1] == NULL || argv[argc-1][0] == '\0'], of at least one argument. *)
Definition last_empty (argv : list (list Z)) : outcome bool :=
  match last argv with None => Undef | Some a => Ret (bool_decide (a = [])) end.

(** "%s (%s) %s\n" *)
Definition text_version : list Z := text "0.0.1"%string.
Definition text_authors : list Z := text "Written by Yan Ruibing."%string.
Definition version_text (argv : list (list Z)) : list Z :=
  default [] (list.head argv) ++ [32; 40] ++ text_version ++ [41; 32] ++ text_authors ++ [10].

(** ** Replies *)

(** [atoi], of a number that is an [int]. *)
Definition atoi : list Z -> Z := number.

End Client.
