(* ===== verification/KxUser.v ===== *)
(** * The user command (src/src/kx_user.c)

    The options of the command, read into an allocated state, and what they
    lead to: registering the user (node and user to the server, the local
    data base opened) or asking for him.  [getopt_long] is an argument. *)

From Stdlib Require Import ZArith Lia Ascii String.
From stdpp Require Import prelude gmap.
From S2P Require Import Prelude.
From S2P Require Import User.
From S2P Require Import Net.
From S2P Require Import Db.
From S2P Require Import Client.

Open Scope string_scope.
Definition usage_text : list Z := concat (text <$> [
  "Usage: user [OPTION]... "; String "010" "";
  "list user interface contents"; String "010" (String "010" "");
  "  -u,              user name ."; String "010" "";
  "  -p,              password ."; String "010" "";
  "  -g,              Get user infomation ."; String "010" "";
  "  -r, --register   User register ."; String "010" "";
  "      --help       display this help and exit"; String "010" "";
  "      --version    output version information and exit"; String "010" (String "010" "");
  "Examples:"; String "010" "";
  "  user -r -u admin -p pwd"; String "010" (String "010" "")])%list.

(** The directory of the data bases. *)
Definition data_path : list Z := text "./data".

Definition field_username : list Z := text "username".
Definition field_password : list Z := text "password".
Definition field_isonline : list Z := text "isonline".
Close Scope string_scope.

Definition MAXMAPSIZE : Z := 10 * 1024 * 1024.

(** The results of [parse_options] on the way out of its loop. *)
Inductive way := Out | ErrWay | EndOfOptions.

(** The fields [isreg], [isget], [puser] and [ppwd] of the options. *)
Record state := State { isreg : bool; isget : bool; puser : cstring; ppwd : cstring }.

Definition init_fields : state := State false false cnull cnull.
Definition sizeof_state : Z := 24.

Section KxUser.
Context {HP FS E R : Type} `{!Allocator HP}.

Variable getopt_long : list (list Z) -> list gopt.
Variable mdb : mdb_call -> ST E answer.
Variable mkdir : list Z -> Z -> FS -> FS * Z * bool.
Variable stat_fails : list Z -> FS -> bool.
Variable redisCommand : Z -> list Z -> ST R (option redisReply).
Variable errstr : Z -> R -> list Z.
(** Old contents of new blocks, and of an uninitialised field. *)
Variable junk : nat -> list Z.
Variable junk_dbi : Z.
(** The handlers of kx_file.c. *)
Variable file_reply : redisReply -> ST (net (HP := HP) (R := R)) unit.

Abbreviation client := (client (HP := HP) (FS := FS) (E := E) (R := R)).

(** ** Options *)

(** One option: the state, [ret] and how it goes on ([None]: the next one). *)
Definition one_option (argv : list (list Z)) (g : gopt) (st : state) (ret : Z) : ST client (state * Z * option way) :=
  let opt := g_opt g in
  if decide (opt = 117) then
    match g_arg g with
    | Some a => p ← strdup a; mret (State (isreg st) (isget st) p (ppwd st), 0, None)
    | None => mret (st, -2, None)
    end
  else if decide (opt = 112) then
    match g_arg g with
    | Some a => p ← strdup a; mret (State (isreg st) (isget st) (puser st) p, 0, None)
    | None => mret (st, -2, None)
    end
  else if decide (opt = 114) then mret (State true (isget st) (puser st) (ppwd st), 0, None)
  else if decide (opt = 103) then mret (State (isreg st) true (puser st) (ppwd st), 0, Some Out)
  else if decide (opt = 118) then cprint (version_text argv);; mret (st, -2, Some Out)
  else if decide (opt = 104) then cprint usage_text;; mret (st, -2, Some Out)
  else mret (st, ret, Some ErrWay).

(** The [while] loop; the last component is [option_index]. *)
Fixpoint options_loop (argv : list (list Z)) (gs : list gopt) (st : state) (ret index : Z)
    : ST client (state * Z * way * Z) :=
  match gs with
  | [] => mret (st, ret, EndOfOptions, index)
  | g :: gs' =>
      '(st, ret, w) ← one_option argv g st ret;
      match w with
      | Some w => mret (st, ret, w, g_index g)
      | None => options_loop argv gs' st ret (g_index g)
      end
  end.

(** The state and the result; the messages of the label [err] go to stderr. *)
Definition parse_options (argv : list (list Z)) (st : state) : ST client (state * Z) :=
  let argc := Z.of_nat (length argv) in
  e ← clift (last_empty argv);
  if (e : bool) then mret (st, -1) else
  '(st, ret, w, option_index) ← options_loop argv (getopt_long argv) st (-1) 0;
  match w with
  | Out | ErrWay => mret (st, ret)
  | EndOfOptions =>
      let u := bool_decide ((puser st).1 <> 0) in
      let p := bool_decide ((ppwd st).1 <> 0) in
      if (if isreg st then negb u || negb p else (u && negb p) || (negb u && p))%bool then mret (st, -2)
      else if decide (argc - option_index < 2) then mret (st, ret)
      else mret (st, ret)
  end.

(** The address of the state, 0 for NULL. *)
Definition init_state : ST client Z := on_heap (a_alloc sizeof_state).

Definition free_state (p : Z) (st : state) : ST client unit :=
  if decide (p = 0) then mret tt else
  free_string (puser st);;
  free_string (ppwd st);;
  on_heap (a_free p).

(** ** Replies *)

(** The string of [reply->element[i+1]]. *)
Definition next_str (l : list redisReply) : outcome (list Z) :=
  match l with v :: _ => of_option (r_str v) | [] => Undef end.

Fixpoint user_fields (l : list redisReply) : outcome (list Z) :=
  match l with
  | [] => Ret []
  | k :: l' =>
      name ← of_option (r_str k);
      t ← (if decide (name = field_username) then v ← next_str l'; Ret (field_username ++ [58; 32] ++ v ++ [32])
           else if decide (name = field_password) then v ← next_str l'; Ret (field_password ++ [58; 32] ++ v ++ [32])
           else if decide (name = field_isonline) then
             v ← next_str l'; Ret (field_isonline ++ [58; 32] ++ dec_signed (atoi v) ++ [32])
           else Ret []);
      rest ← (match l' with [] => Ret [] | _ :: l'' => user_fields l'' end);
      Ret (t ++ rest)
  end.

Definition kx_user_reply (reply : redisReply) : ST (net (HP := HP) (R := R)) unit :=
  if decide (r_type reply = REDIS_REPLY_ARRAY) then
    t ← nlift (user_fields (r_element reply)); nprint (t ++ [10])
  else mret tt.

Definition client_reply (f : synccallback) : redisReply -> ST (net (HP := HP) (R := R)) unit :=
  match f with
  | KxUserReply => kx_user_reply
  | KxFileReply => file_reply
  | KxSetReply => kx_set_reply
  end.

(** [kx_search_action] and [kx_sync_send_cmd] with [client.net]. *)
Definition send_cmd (r : request) : ST client unit :=
  p ← gets net_p; on_net (send redisCommand errstr client_reply p r).

(** ** What the command does *)

Definition kx_user_register (st : state) : ST client Z :=
  name ← deref_string (puser st);
  pwd ← deref_string (ppwd st);
  p ← on_user (kx_creat_user junk name pwd);
  set_user p;;
  u ← the_user;
  on_user (put_user p (KxUser (User.chars u) 1 (unode u) (ukey u)));;
  d ← on_db (kx_creat_db mdb mkdir stat_fails junk junk_dbi MAXMAPSIZE data_path name);
  set_db d;;
  id ← node_uuid;
  n ← username;
  w ← password;
  send_cmd (Register id n w);;
  mret 0.

Definition kx_user_get : ST client Z :=
  ac ← on_net (kx_search_action USER_GET);
  on_net (set_syncexec ac KxUserReply);;
  id ← node_uuid;
  n ← username;
  send_cmd (GetUser id n);;
  mret 0.

Definition kx_node_set : ST client Z :=
  id ← node_uuid;
  ip ← node_ip;
  mac ← node_mac;
  send_cmd (SetNode id ip mac);;
  mret 0.

Definition do_user (argv : list (list Z)) : ST client Z :=
  p ← init_state;
  if decide (p = 0) then mret (-1) else
  '(st, ret) ← parse_options argv init_fields;
  r ← (if decide (ret = -2) then mret 0
       else if decide (ret = -1) then mret (-1)
       else if isreg st then _ ← kx_node_set; kx_user_register st
       else if isget st then kx_user_get
       else mret ret);
  free_state p st;;
  mret r.

End KxUser.

(** ** What the options mean *)

(** What the command line asks for. *)
Inductive verdict := DoNothing (ret : Z) | DoRegister (name pwd : option (list Z)) | DoGet.

(** "-u", "-p" and "-r" are collected; any other result of [getopt_long]
    stops the reading. *)
Definition collected (g : gopt) : bool := bool_decide (g_opt g = 117 \/ g_opt g = 112 \/ g_opt g = 114).

Fixpoint before (gs : list gopt) : list gopt :=
  match gs with g :: gs' => if collected g then g :: before gs' else [] | [] => [] end.
Fixpoint stop (gs : list gopt) : option gopt :=
  match gs with g :: gs' => if collected g then stop gs' else Some g | [] => None end.

(** The argument of the last option [c]; whether there is an option [c]. *)
Definition last_arg (c : Z) (gs : list gopt) : option (list Z) :=
  last (omap (fun g => if decide (g_opt g = c) then g_arg g else None) gs).
Definition has (c : Z) (gs : list gopt) : bool := existsb (fun g => bool_decide (g_opt g = c)) gs.

Definition judge (gs : list gopt) : verdict :=
  let b := before gs in
  let name := last_arg 117 b in
  let pwd := last_arg 112 b in
  let nothing := DoNothing (if decide (b = []) then -1 else 0) in
  match stop gs with
  | Some g =>
      if decide (g_opt g = 118 \/ g_opt g = 104) then DoNothing 0
      else if decide (g_opt g = 103) then (if has 114 b then DoRegister name pwd else DoGet)
      else if has 114 b then DoRegister name pwd else nothing
  | None =>
      match has 114 b, name, pwd with
      | true, Some _, Some _ => DoRegister name pwd
      | true, _, _ => DoNothing 0
      | false, Some _, None => DoNothing 0
      | false, None, Some _ => DoNothing 0
      | false, _, _ => nothing
      end
  end.

(** What is printed on the way. *)
Definition judge_text (argv : list (list Z)) (gs : list gopt) : list Z :=
  match stop gs with
  | Some g => if decide (g_opt g = 118) then version_text argv
              else if decide (g_opt g = 104) then usage_text else []
  | None => []
  end.

Lemma last_arg_snoc c gs g : last_arg c (gs ++ [g]) =
  match (if decide (g_opt g = c) then g_arg g else None) with Some a => Some a | None => last_arg c gs end.
Proof.
  unfold last_arg. rewrite omap_app. cbn [omap list_omap]. destruct (if decide _ then _ else _) as [a|].
  - by rewrite last_snoc.
  - by rewrite app_nil_r.
Qed.

Lemma has_snoc c gs g : has c (gs ++ [g]) = has c gs || bool_decide (g_opt g = c).
Proof. unfold has. rewrite existsb_app. cbn. by rewrite orb_false_r. Qed.

Section Parse.
Context {HP FS E R : Type} `{!Allocator HP}.
Abbreviation client := (client (HP := HP) (FS := FS) (E := E) (R := R)).
Implicit Types s : client.

(** Only the heap and the output differ. *)
Definition same_but_heap s s' : Prop :=
  node s' = node s /\ user s' = user s /\ net_p s' = net_p s /\ db s' = db s /\
  local_cryptfiles s' = local_cryptfiles s /\ c_user s' = c_user s /\ c_files s' = c_files s /\
  c_lists s' = c_lists s /\ c_net s' = c_net s /\ c_db s' = c_db s.

#[export] Instance same_but_heap_preorder : PreOrder same_but_heap.
Proof.
  split; [by intros s|]. intros s t u (?&?&?&?&?&?&?&?&?&?) (?&?&?&?&?&?&?&?&?&?). unfold same_but_heap.
  split_and!; congruence.
Qed.

(** A pointer to the string [o]. *)
Definition points (p : cstring) (o : option (list Z)) : Prop :=
  match o with Some a => p.1 <> 0 /\ p.2 = a | None => p = cnull end.

(** The blocks of the strings; the blocks that the command has allocated since [s0] and nothing else:
    those it holds, and those it has lost. *)
Definition strings (l : list cstring) : list Z := filter (fun a => a <> 0) (fst <$> l).
Definition owned (s0 s : client) (bs lost : list Z) : Prop :=
  NoDup (bs ++ lost) /\ Forall (fun a => (a ∉ a_live (cheap s0)) /\ a <> 0) (bs ++ lost) /\
  a_live (cheap s) = list_to_set (bs ++ lost) ∪ a_live (cheap s0).

Lemma owned_nil s0 s : a_live (cheap s) = a_live (cheap s0) -> owned s0 s [] [].
Proof using Type. intros E1. split; [constructor|]. split; [constructor|]. cbn. set_solver. Qed.

(** A new block joins those of a list. *)
Lemma owned_new s0 s s' p bs lost : owned s0 s bs lost -> p <> 0 -> (p ∉ a_live (cheap s)) ->
  a_live (cheap s') = {[p]} ∪ a_live (cheap s) -> owned s0 s' (p :: bs) lost.
Proof using Type.
  intros (N & F & L) Hp Np L'. rewrite L in Np, L'. apply not_elem_of_union in Np as [N1 N2]. rewrite elem_of_list_to_set in N1.
  split; [by constructor|]. split; [by constructor|]. cbn. rewrite L'. by rewrite (assoc_L (∪)).
Qed.

(** Blocks change their place, or are lost. *)
Lemma owned_perm s0 s bs lost bs' lost' : owned s0 s bs lost -> bs ++ lost ≡ₚ bs' ++ lost' -> owned s0 s bs' lost'.
Proof using Type.
  intros (N & F & L) P. split; [by rewrite <- P|]. split; [by rewrite <- P|]. rewrite L. f_equal.
  apply set_eq. intros x. rewrite !elem_of_list_to_set. by rewrite P.
Qed.

Lemma owned_grows s0 s bs lost : owned s0 s bs lost -> a_live (cheap s0) ⊆ a_live (cheap s).
Proof using Type. intros (_ & _ & ->). apply union_subseteq_r. Qed.

(** Every allocation succeeds. *)
Hypothesis alloc_ok : forall n (h : HP), exists p h', a_alloc n h = Ret (p, h') /\ p <> 0.

Lemma alloc_step n s : exists p s', on_heap (a_alloc n) s = Ret (p, s') /\ same_but_heap s s' /\ cout s' = cout s /\
  p <> 0 /\ (p ∉ a_live (cheap s)) /\ a_live (cheap s') = {[p]} ∪ a_live (cheap s).
Proof using alloc_ok.
  destruct (alloc_ok n (cheap s)) as (p & h & A & Hp). destruct (a_alloc_fresh _ _ _ _ A Hp) as [F L].
  eexists p, _. split; [unfold on_heap; rewrite A; cbn; reflexivity|]. done.
Qed.

Lemma strdup_run t s : exists p s', strdup t s = Ret (p, s') /\ points p (Some t) /\ same_but_heap s s' /\ cout s' = cout s /\
  (p.1 ∉ a_live (cheap s)) /\ a_live (cheap s') = {[p.1]} ∪ a_live (cheap s).
Proof using alloc_ok.
  destruct (alloc_step (Z.of_nat (length t) + 1) s) as (p & s' & A & S & O & Hp & N & L).
  exists (p, t), s'. unfold strdup. rewrite (bind_ret _ _ _ _ _ A). rewrite decide_False by done. done.
Qed.

(** The strings of "-u" and "-p" that are copied, and those that are held at the end. *)
Definition arguments (gs : list gopt) : list (list Z) :=
  omap (fun g => if decide (g_opt g = 117 \/ g_opt g = 112) then g_arg g else None) gs.
Definition held (gs : list gopt) : list (list Z) := omap (fun c => last_arg c gs) [117; 112].

Lemma arguments_snoc gs g : arguments (gs ++ [g]) =
  arguments gs ++ match (if decide (g_opt g = 117 \/ g_opt g = 112) then g_arg g else None) with Some a => [a] | None => [] end.
Proof using Type. unfold arguments. rewrite omap_app. cbn. by destruct (if decide _ then _ else _). Qed.

(** The state after the options [done]. *)
Definition parsed (s0 : client) (p : Z) (done : list gopt) (st : state) s : Prop :=
  same_but_heap s0 s /\ isreg st = has 114 done /\ isget st = false /\
  points (puser st) (last_arg 117 done) /\ points (ppwd st) (last_arg 112 done) /\
  exists lost, owned s0 s (strings [puser st; ppwd st] ++ [p]) lost /\
    length (strings [puser st; ppwd st] ++ lost) = length (arguments done).

Lemma strings_cons_ok (c : cstring) l : strings (c :: l) = (if decide (c.1 <> 0) then [c.1] else []) ++ strings l.
Proof. unfold strings. rewrite fmap_cons, filter_cons. by case_decide. Qed.

Lemma strings_points c o : points c o -> length (strings [c]) = match o with Some _ => 1%nat | None => 0%nat end.
Proof using Type. rewrite strings_cons_ok. destruct o as [a|]; [intros [H _]; by rewrite decide_True|intros ->; by rewrite decide_False by (intros []; done)]. Qed.

Lemma strings_two c1 c2 : strings [c1; c2] = strings [c1] ++ strings [c2].
Proof using Type. rewrite (strings_cons_ok c1 [c2]), (strings_cons_ok c1 []). change (strings []) with (@nil Z). by rewrite app_nil_r. Qed.

Lemma option_collected argv s0 p done g st ret s : collected g = true ->
  (g_opt g = 117 \/ g_opt g = 112 -> g_arg g <> None) -> parsed s0 p done st s ->
  exists st' s', one_option argv g st ret s = Ret ((st', 0, None), s') /\ parsed s0 p (done ++ [g]) st' s' /\ cout s' = cout s.
Proof using alloc_ok.
  intros C A (S & Ir & Ig & Pu & Pp & lost & O & Ln). apply bool_decide_eq_true in C. unfold one_option, parsed.
  rewrite has_snoc, !last_arg_snoc, arguments_snoc. rewrite strings_two, length_app in Ln. rewrite length_app in Ln.
  destruct (decide (g_opt g = 117)) as [E1|E1]; [|destruct (decide (g_opt g = 112)) as [E2|E2]].
  - destruct (g_arg g) as [a|] eqn:Ea; [|by destruct A; [left|]].
    destruct (strdup_run a s) as (c & s' & D & Pc & S' & O' & N & L). rewrite (bind_ret _ _ _ _ _ D).
    rewrite decide_False by lia. rewrite bool_decide_eq_false_2 by lia. rewrite orb_false_r.
    eexists _, s'. split; [reflexivity|]. split; [|done]. split; [by etrans|]. cbn [isreg isget puser ppwd].
    split_and!; try done. destruct Pc as [Hc _]. exists (strings [puser st] ++ lost). split.
    + assert (On : owned s0 s (strings [ppwd st] ++ [p]) (strings [puser st] ++ lost)).
      { eapply owned_perm; [exact O|]. rewrite strings_two. solve_Permutation. }
      rewrite strings_cons_ok, decide_True by done. exact (owned_new s0 s s' c.1 _ _ On Hc N L).
    + rewrite (decide_True (P := g_opt g = 117 \/ _)) by tauto. rewrite strings_cons_ok, decide_True by done.
      rewrite !length_app. cbn [length]. lia.
  - destruct (g_arg g) as [a|] eqn:Ea; [|by destruct A; [right|]].
    destruct (strdup_run a s) as (c & s' & D & Pc & S' & O' & N & L). rewrite (bind_ret _ _ _ _ _ D).
    rewrite bool_decide_eq_false_2 by lia. rewrite orb_false_r.
    eexists _, s'. split; [reflexivity|]. split; [|done]. split; [by etrans|]. cbn [isreg isget puser ppwd].
    split_and!; try done. destruct Pc as [Hc _]. exists (strings [ppwd st] ++ lost). split.
    + assert (On : owned s0 s (strings [puser st] ++ [p]) (strings [ppwd st] ++ lost)).
      { eapply owned_perm; [exact O|]. rewrite strings_two. solve_Permutation. }
      eapply owned_perm; [exact (owned_new s0 s s' c.1 _ _ On Hc N L)|]. rewrite strings_two, (strings_cons_ok c), decide_True by done.
      change (strings []) with (@nil Z). solve_Permutation.
    + rewrite (decide_True (P := g_opt g = 117 \/ _)) by tauto. rewrite strings_two, (strings_cons_ok c), decide_True by done.
      change (strings []) with (@nil Z). rewrite !length_app. cbn [length]. lia.
  - assert (E3 : g_opt g = 114) by tauto. rewrite decide_True by done. rewrite bool_decide_eq_true_2 by done. rewrite orb_true_r.
    eexists _, s. split; [reflexivity|]. split; [|done]. split_and!; try done. exists lost. split; [done|].
    rewrite (decide_False (P := g_opt g = 117 \/ _)) by lia. cbn [puser ppwd]. rewrite app_nil_r, strings_two, !length_app. lia.
Qed.


(** What the option that stops the reading does. *)
Definition finish (g : gopt) (st : state) (ret : Z) : state * Z * way :=
  if decide (g_opt g = 103) then (State (isreg st) true (puser st) (ppwd st), 0, Out)
  else if decide (g_opt g = 118 \/ g_opt g = 104) then (st, -2, Out)
  else (st, ret, ErrWay).

Lemma stop_text argv g st ret s : collected g = false -> exists s', same_but_heap s s' /\ cheap s' = cheap s /\
  cout s' = cout s ++ (if decide (g_opt g = 118) then version_text argv else if decide (g_opt g = 104) then usage_text else []) /\
  one_option argv g st ret s = Ret ((finish g st ret).1.1, (finish g st ret).1.2, Some (finish g st ret).2, s').
Proof.
  intros C. apply bool_decide_eq_false in C. unfold one_option, finish.
  rewrite (decide_False (P := g_opt g = 117)), (decide_False (P := g_opt g = 112)), (decide_False (P := g_opt g = 114)) by tauto.
  destruct (decide (g_opt g = 103)) as [E3|E3].
  { rewrite (decide_False (P := g_opt g = 118)), (decide_False (P := g_opt g = 104)) by lia.
    exists s. by rewrite app_nil_r. }
  destruct (decide (g_opt g = 118)) as [E1|E1].
  { rewrite decide_True by tauto. eexists. split; [|split; [|split; [|reflexivity]]]; done. }
  destruct (decide (g_opt g = 104)) as [E2|E2].
  { rewrite decide_True by tauto. eexists. split; [|split; [|split; [|reflexivity]]]; done. }
  rewrite decide_False by tauto. exists s. by rewrite app_nil_r.
Qed.

Lemma parsed_same s0 p done st s s' : parsed s0 p done st s -> same_but_heap s s' -> cheap s' = cheap s -> parsed s0 p done st s'.
Proof using Type.
  intros (S & P1 & P2 & P3 & P4 & O) S' H. unfold parsed, owned in *. rewrite H. split_and!; try done. by etrans.
Qed.

Lemma options_run argv s0 p gs : Forall (fun g => g_opt g = 117 \/ g_opt g = 112 -> g_arg g <> None) gs ->
  forall done st ret index s, parsed s0 p done st s -> exists st1 s1,
    parsed s0 p (done ++ before gs) st1 s1 /\ cout s1 = cout s ++ judge_text argv gs /\
    let r0 := if decide (before gs = []) then ret else 0 in
    match stop gs with
    | None => exists i, options_loop argv gs st ret index s = Ret (st1, r0, EndOfOptions, i, s1)
    | Some g => let f := finish g st1 r0 in options_loop argv gs st ret index s = Ret (f.1.1, f.1.2, f.2, g_index g, s1)
    end.
Proof using alloc_ok.
  induction 1 as [|g gs A F IH]; intros done st ret index s P; cbn [before stop options_loop].
  - exists st, s. unfold judge_text. cbn [stop]. rewrite !app_nil_r. split; [done|]. split; [done|]. by exists index.
  - unfold judge_text. cbn [stop]. destruct (collected g) eqn:C.
    + destruct (option_collected argv s0 p done g st ret s C A P) as (st' & s' & Er & P' & O').
      destruct (IH _ _ 0 (g_index g) _ P') as (st1 & s1 & P1 & O1 & Ro). exists st1, s1. rewrite <- app_assoc in P1.
      split; [exact P1|]. split; [by rewrite O1, O'|]. cbn zeta in *.
      rewrite (decide_False (P := g :: before gs = [])) by done. rewrite (bind_ret _ _ _ _ _ Er). cbn beta iota.
      assert (Ez : (if decide (before gs = []) then 0 else 0) = 0) by by case_decide. rewrite Ez in Ro. exact Ro.
    + destruct (stop_text argv g st ret s C) as (s' & S' & H' & O' & Er). exists st, s'. rewrite app_nil_r.
      split; [by eapply parsed_same|]. split; [done|]. cbn zeta. rewrite decide_True by done.
      by rewrite (bind_ret _ _ _ _ _ Er).
Qed.

End Parse.

Section Command.
Context {HP FS E R : Type} `{!Allocator HP}.
Variable getopt_long : list (list Z) -> list gopt.
Variable mdb : mdb_call -> ST E answer.
Variable mkdir : list Z -> Z -> FS -> FS * Z * bool.
Variable stat_fails : list Z -> FS -> bool.
Variable redisCommand : Z -> list Z -> ST R (option redisReply).
Variable errstr : Z -> R -> list Z.
Variable junk : nat -> list Z.
Variable junk_dbi : Z.
Variable file_reply : redisReply -> ST (net (HP := HP) (R := R)) unit.
Abbreviation client := (client (HP := HP) (FS := FS) (E := E) (R := R)).
Implicit Types s : client.

Abbreviation register := (kx_user_register mdb mkdir stat_fails redisCommand errstr junk junk_dbi file_reply).
Abbreviation node_set := (kx_node_set redisCommand errstr file_reply).
Abbreviation user_get := (kx_user_get redisCommand errstr file_reply).
Abbreviation do_user := (do_user getopt_long mdb mkdir stat_fails redisCommand errstr junk junk_dbi file_reply).

(** A pointer to a string, or NULL. *)
Definition as_cstring (o : option (list Z)) : cstring := match o with Some a => (1, a) | None => cnull end.

(** What a verdict makes the command do. *)
Definition perform (v : verdict) : ST client Z :=
  match v with
  | DoNothing r => mret r
  | DoRegister name pwd => _ ← node_set; register (State true false (as_cstring name) (as_cstring pwd))
  | DoGet => user_get
  end.

Fixpoint free_blocks (l : list Z) : ST client unit :=
  match l with [] => mret tt | a :: l' => on_heap (a_free a);; free_blocks l' end.

Lemma deref_points c o s : points c o -> deref_string c s = deref_string (as_cstring o) s.
Proof. unfold points, deref_string. destruct o as [a|]; [intros [H H2]; rewrite decide_False by done; by rewrite H2|by intros ->]. Qed.

Lemma bind_cong {T A B} (m m' : ST T A) (k k' : A -> ST T B) (t : T) : m t = m' t -> (forall a t1, k a t1 = k' a t1) ->
  (a ← m; k a) t = (a ← m'; k' a) t.
Proof. intros Em Ek. unfold mbind, ST_bind. rewrite Em. by destruct (m' t) as [[a t1]| | |]. Qed.

Lemma register_points st name pwd s : points (puser st) name -> points (ppwd st) pwd ->
  register st s = register (State true false (as_cstring name) (as_cstring pwd)) s.
Proof.
  intros P1 P2. unfold kx_user_register. apply bind_cong; [by apply deref_points|]. intros n s1.
  apply bind_cong; [by apply deref_points|done].
Qed.

Lemma free_string_blocks c s : free_string c s = free_blocks (if decide (c.1 <> 0) then [c.1] else []) s.
Proof.
  unfold free_string. case_decide; [|done]. cbn [free_blocks]. unfold mbind, ST_bind.
  by destruct (on_heap _ s) as [[[] ?]| | |].
Qed.

Lemma free_blocks_app l l' s : free_blocks (l ++ l') s = (free_blocks l;; free_blocks l') s.
Proof.
  revert s. induction l as [|a l IH]; intros s; [done|]. cbn [app free_blocks]. unfold mbind, ST_bind in *.
  destruct (on_heap _ s) as [[[] s1]| | |]; done.
Qed.

Lemma free_state_blocks p st s : p <> 0 -> free_state p st s = free_blocks (strings [puser st; ppwd st] ++ [p]) s.
Proof.
  intros Hp. unfold free_state. rewrite decide_False by done. rewrite !strings_cons_ok. change (strings []) with (@nil Z).
  rewrite app_nil_r, <- app_assoc, !free_blocks_app. unfold mbind, ST_bind. rewrite free_string_blocks.
  destruct (free_blocks _ s) as [[[] s1]| | |]; try done. rewrite free_blocks_app. unfold mbind, ST_bind. rewrite free_string_blocks.
  destruct (free_blocks _ s1) as [[[] s2]| | |]; try done. cbn. unfold mbind, ST_bind. by destruct (on_heap _ s2) as [[[] ?]| | |].
Qed.

Hypothesis alloc_ok : forall n (h : HP), exists p h', a_alloc n h = Ret (p, h') /\ p <> 0.

(** [ret] and the flags after [parse_options] lead to the verdict. *)
Lemma dispatch_run p st ret v s : p <> 0 ->
  (forall s, (if decide (ret = -2) then mret 0 else if decide (ret = -1) then mret (-1)
    else if isreg st then _ ← node_set; register st else if isget st then user_get else mret ret) s = perform v s) ->
  (r ← (if decide (ret = -2) then mret 0 else if decide (ret = -1) then mret (-1)
    else if isreg st then _ ← node_set; register st else if isget st then user_get else mret ret);
   free_state p st;; mret r) s = (r ← perform v; free_blocks (strings [puser st; ppwd st] ++ [p]);; mret r) s.
Proof.
  intros Hp H. unfold mbind, ST_bind in *. rewrite H. destruct (perform v s) as [[r s1]| | |]; try done.
  by rewrite free_state_blocks.
Qed.

(** The options lead to the verdict. *)
Lemma parse_run argv s p st s0 s1 : last_empty argv = Ret false -> let gs := getopt_long argv in
  parsed s p (before gs) st s1 ->
  (let r0 := if decide (before gs = []) then -1 else 0 in
   match stop gs with
   | Some g => let f := finish g st r0 in options_loop argv gs init_fields (-1) 0 s0 = Ret (f.1.1, f.1.2, f.2, g_index g, s1)
   | None => exists i, options_loop argv gs init_fields (-1) 0 s0 = Ret (st, r0, EndOfOptions, i, s1)
   end) ->
  exists st' ret, parse_options getopt_long argv init_fields s0 = Ret (st', ret, s1) /\ puser st' = puser st /\ ppwd st' = ppwd st /\
    forall s, (if decide (ret = -2) then mret 0 else if decide (ret = -1) then mret (-1)
      else if isreg st' then _ ← node_set; register st' else if isget st' then user_get else mret ret) s = perform (judge gs) s.
Proof using Type.
  intros La gs (S1 & Ir & Ig & Pu & Pp & _) Ro.
  assert (Epts : forall o c, points c o -> bool_decide (c.1 <> 0) = match o with Some _ => true | None => false end).
  { intros [a|] c; cbn; [intros [H _]; by apply bool_decide_eq_true_2|]. by intros ->. }
  unfold parse_options. unfold mbind at 1, ST_bind at 1. unfold clift at 1. rewrite La. cbn [mbind outcome_bind].
  fold gs. unfold judge. cbv zeta in Ro. set (r0 := if decide (before gs = []) then -1 else 0) in *.
  assert (Hr : r0 = -1 \/ r0 = 0) by (unfold r0; case_decide; tauto).
  destruct (stop gs) as [g|] eqn:Es.
  - unfold mbind at 1, ST_bind at 1. rewrite Ro. unfold finish.
    destruct (decide (g_opt g = 103)) as [E3|E3].
    + eexists _, _. split; [reflexivity|]. split; [done|]. split; [done|]. intros t. cbn [isreg isget fst snd].
      rewrite (decide_False (P := 0 = -2)), (decide_False (P := 0 = -1)) by lia.
      rewrite (decide_False (P := g_opt g = 118 \/ g_opt g = 104)) by lia. rewrite Ir.
      destruct (has 114 (before gs)); [|done]. cbn [perform].
      apply bind_cong; [done|]. intros a t1. by apply register_points.
    + destruct (decide (g_opt g = 118 \/ g_opt g = 104)) as [E4|E4].
      * eexists _, _. split; [reflexivity|]. split; [done|]. split; [done|]. intros t. done.
      * eexists _, _. split; [reflexivity|]. split; [done|]. split; [done|]. intros t. cbn [fst snd]. rewrite Ig, Ir.
        rewrite (decide_False (P := r0 = -2)) by lia.
        destruct (decide (r0 = -1)) as [E5|E5].
        { assert (Eb : before gs = []) by (unfold r0 in E5; by case_decide). rewrite Eb. cbn. by rewrite E5. }
        destruct (has 114 (before gs)); [|done]. cbn [perform].
        apply bind_cong; [done|]. intros a t1. by apply register_points.
  - destruct Ro as [i Ro]. unfold mbind at 1, ST_bind at 1. rewrite Ro.
    rewrite (Epts _ _ Pu), (Epts _ _ Pp), Ir.
    assert (Em : (if decide (Z.of_nat (length argv) - i < 2) then mret (st, r0) else mret (st, r0) : ST client (state * Z)) s1 =
        Ret (st, r0, s1))
      by by case_decide.
    assert (Hb : has 114 (before gs) = true -> r0 = 0) by (unfold r0; by destruct (before gs)).
    assert (Hu : forall a c, last_arg c (before gs) = Some a -> r0 = 0) by (unfold r0; by destruct (before gs)).
    destruct (has 114 (before gs)) eqn:Eh, (last_arg 117 (before gs)) as [u|] eqn:E1, (last_arg 112 (before gs)) as [w|] eqn:E2;
      cbn [negb orb andb]; rewrite ?Em; (eexists _, _; split; [reflexivity|]; split; [done|]; split; [done|]; intros t);
      try (by rewrite decide_True).
    + rewrite Hb by done. rewrite decide_False, decide_False by lia. rewrite Ir. cbn [perform].
      apply bind_cong; [done|]. intros a t1. by apply register_points.
    + rewrite (Hu u 117) by done. rewrite decide_False, decide_False by lia. by rewrite Ir, Ig.
    + rewrite (decide_False (P := r0 = -2)) by lia. cbn [perform]. destruct (decide (r0 = -1)) as [-> |]; [done|].
      by rewrite Ir, Ig.
Qed.

Lemma do_user_run argv s : last_empty argv = Ret false ->
  Forall (fun g => g_opt g = 117 \/ g_opt g = 112 -> g_arg g <> None) (getopt_long argv) ->
  exists s1 bs lost, same_but_heap s s1 /\ cout s1 = cout s ++ judge_text argv (getopt_long argv) /\ owned s s1 bs lost /\
    length bs = S (length (held (before (getopt_long argv)))) /\ length (bs ++ lost) = S (length (arguments (before (getopt_long argv)))) /\
    do_user argv s = (r ← perform (judge (getopt_long argv)); free_blocks bs;; mret r) s1.
Proof using alloc_ok.
  intros La F. destruct (alloc_step alloc_ok sizeof_state s) as (p & s0 & A & S0 & O0 & Hp & Np & L0).
  assert (P0 : parsed s p [] init_fields s0).
  { split; [done|]. split; [done|]. split; [done|]. split; [done|]. split; [done|].
    exists []. split; [|done]. by apply (owned_new s s s0 p []); [apply owned_nil|..]. }
  destruct (options_run alloc_ok argv s p (getopt_long argv) F [] init_fields (-1) 0 s0 P0) as (st & s1 & P & O & Ro).
  cbn [app] in P. pose proof P as (S1 & Ir & Ig & Pu & Pp & lost & Ow & Ln). exists s1, (strings [puser st; ppwd st] ++ [p]), lost.
  split; [done|]. split; [by rewrite O, O0|]. split; [done|]. split.
  { rewrite length_app, strings_two, length_app, (strings_points _ _ Pu), (strings_points _ _ Pp). unfold held. cbn.
    by destruct (last_arg 117 _), (last_arg 112 _). }
  split. { rewrite !length_app in *. cbn [length]. lia. }
  set (gs := getopt_long argv) in *.
  unfold KxUser.do_user, init_state. rewrite (bind_ret _ _ _ _ _ A). rewrite decide_False by done.
  destruct (parse_run argv s p st s0 s1 La P Ro) as (st' & ret & Ep & Eu & Ew & D). rewrite (bind_ret _ _ _ _ _ Ep). cbn beta iota.
  rewrite <- Eu, <- Ew. exact (dispatch_run p st' ret (judge gs) s1 Hp D).
Qed.

End Command.

(** ** Properties *)

(** C22: the user command, for every sequence of results of [getopt_long].
    When no allocation fails it does what [judge] says of the options, and
    then gives back its state and the strings it holds, each of them once: they are blocks of its own, one for the state,
    one for the last "-u" and one for the last "-p"; the strings that an option given again has replaced are lost, and there is no other
    new block.  Before that nothing but the heap and the output has changed.  The
    verdict: "-g", "-v", "-h" and an unknown option stop the reading; "-h" and
    "-v" do nothing more; "-r" registers, "-g" without "-r" asks for the
    user; at the end of the options "-u" and "-p" go together.  An unknown option is no error once
    something was collected: "-r" before it, or "-r" and "-g" together, register without a test of
    the name and password, and a missing one is dereferenced. *)
Theorem do_user_spec {HP FS E R : Type} `{!Allocator HP} getopt_long mdb mkdir stat_fails redisCommand errstr junk junk_dbi
    file_reply argv (s : client (HP := HP) (FS := FS) (E := E) (R := R)) :
  (forall n (h : HP), exists p h', a_alloc n h = Ret (p, h') /\ p <> 0) -> last_empty argv = Ret false ->
  Forall (fun g => g_opt g = 117 \/ g_opt g = 112 -> g_arg g <> None) (getopt_long argv) ->
  exists s1 bs lost, same_but_heap s s1 /\ cout s1 = cout s ++ judge_text argv (getopt_long argv) /\ owned s s1 bs lost /\
    length bs = S (length (held (before (getopt_long argv)))) /\ length (bs ++ lost) = S (length (arguments (before (getopt_long argv)))) /\
    do_user getopt_long mdb mkdir stat_fails redisCommand errstr junk junk_dbi file_reply argv s =
    (r ← perform mdb mkdir stat_fails redisCommand errstr junk junk_dbi file_reply (judge (getopt_long argv));
     free_blocks bs;; mret r) s1.
Proof.
  intros A. exact (do_user_run getopt_long mdb mkdir stat_fails redisCommand errstr junk junk_dbi file_reply A argv s).
Qed.

(** A client without a user, and "user -u bob". *)
Definition client_demo : client (HP := gset Z) (FS := unit) (E := unit) (R := list (list Z)) :=
  Client ∅ [] 0 0 0 0 0 (UState ∅ ∅ ∅ ∅ 0) ∅ (Adlist.Store ∅ ∅ ∅ ∅ []) (Net ∅ [] ∅ acs0 0 [])
    (DState ∅ tt tt ∅ [] []).

Lemma endless_ok (n : Z) (h : gset Z) : exists p h', a_alloc n h = Ret (p, h') /\ p <> 0.
Proof.
  exists (highest h + 1), ({[highest h + 1]} ∪ h). split; [reflexivity|]. pose proof (highest_pos h). lia.
Qed.

(** "user -u bob" with "-u" twice: two blocks are freed, one is lost. *)
Lemma do_user_spec_witness : exists s1 a b c, owned client_demo s1 [a; b] [c] /\
  do_user (fun _ => [Gopt 117 (Some [98]) 0; Gopt 117 (Some [99]) 0]) (fun _ e => Ret (Answer 0 0 [] [], e)) (fun _ _ fs => (fs, 0, false))
    (fun _ _ => false) log_server (fun _ _ => []) (fun n => replicate n 7) 0 (fun _ => mret tt) [[117]; [98]] client_demo =
  (free_blocks [a; b];; mret 0) s1.
Proof.
  destruct (do_user_spec (fun _ => [Gopt 117 (Some [98]) 0; Gopt 117 (Some [99]) 0]) (fun _ e => Ret (Answer 0 0 [] [], e)) (fun _ _ fs => (fs, 0, false))
    (fun _ _ => false) log_server (fun _ _ => []) (fun n => replicate n 7) 0 (fun _ => mret tt) [[117]; [98]] client_demo endless_ok
    eq_refl ltac:(repeat constructor; discriminate)) as (s1 & bs & lost & _ & _ & O & L1 & L2 & Er).
  destruct bs as [|a [|b [|? ?]]]; try discriminate L1. destruct lost as [|c [|? ?]]; try discriminate L2.
  exists s1, a, b, c. split; [exact O|]. rewrite Er. reflexivity.
Defined.
