(* ===== verification/KxFile.v ===== *)
(** * The file command (src/src/kx_file.c)

    The options of the command and what they lead to: encrypting a file, with
    its record added to the list in memory, sent to the server and stored;
    decrypting one; listing the records. *)

From Stdlib Require Import ZArith Lia Ascii String.
From stdpp Require Import prelude gmap.
From S2P Require Import Prelude.
From S2P Require Import Adlist.
From S2P Require Import Aes.
From S2P Require Import Xxhash.
From S2P Require Import FileCrypt.
From S2P Require Import User.
From S2P Require Import Net.
From S2P Require Import Db.
From S2P Require Import Client.
From S2P Require Import KxUser.

Open Scope string_scope.
Definition file_usage : list Z := concat (text <$> [
  "Usage: file [OPTION]... "; String "010" "";
  "list file interface contents"; String "010" (String "010" "");
  "  -e,              encrypt documents ."; String "010" "";
  "  -d,              File decryption ."; String "010" "";
  "  -t,              Document traceability ."; String "010" "";
  "  -l,              Query file list ."; String "010" "";
  "      --help       display this help and exit"; String "010" "";
  "      --version    output version information and exit"; String "010" (String "010" "");
  "Examples:"; String "010" "";
  "  file -e filename"; String "010" "";
  "  file -d filename"; String "010" (String "010" "")])%list.

Definition text_decrypted : list Z := (text "Decryption of file success" ++ [10])%list.
Definition field_filename : list Z := text "filename".
Definition field_path : list Z := text "path".
Definition text_numbers : list Z := text " numbers: ".
Definition text_shown : list Z := text " [L+]".
Definition text_mark : list Z := text " [*] ".
Close Scope string_scope.

(** The four flags and [file]. *)
Record fopts := FOpts { isecrypt : bool; isdecrypt : bool; istrace : bool; isgetlist : bool; file : cstring }.

Definition init_fopts : fopts := FOpts false false false false cnull.
Definition sizeof_fopts : Z := 16.

Section KxFile.
Context {HP FS E R : Type} `{!Allocator HP}.

Variable getopt_long : list (list Z) -> list gopt.
Variable mdb : mdb_call -> ST E answer.
Variable redisCommand : Z -> list Z -> ST R (option redisReply).
Variable errstr : Z -> R -> list Z.
(** As in the components: the configuration of xxHash, old contents of locals and blocks,
    [basename]. *)
Variable cfg : config.
Variable io : faults.
Variable junk_ctx : AES_ctx.
Variable junk_buffer : list Z.
Variable basename : list Z -> list Z.
Variable junk_node : listNode.
Variable junk_dbi : Z.
Variable junk_gap : Z.
Variable junk_tail : list Z.
(** The bound of the listing, and the uninitialised key it starts with. *)
Variable list_fuel : nat.
Variable junk_key : list Z.

Abbreviation client := (client (HP := HP) (FS := FS) (E := E) (R := R)).
Abbreviation net := (net (HP := HP) (R := R)).

(** ** Options *)

(** The case of "-e", "-d" or "-t": [clash] are the two other flags, [set] sets the flag and
    the file. *)
Definition mode_option (clash : bool) (g : gopt) (set : cstring -> fopts) (st : fopts) (ret : Z)
    : ST client (fopts * Z * option way) :=
  if clash then mret (st, ret, Some ErrWay)
  else match g_arg g with
       | Some a => p ← strdup a; mret (set p, 0, None)
       | None => mret (st, ret, None)
       end.

Definition one_fopt (argv : list (list Z)) (g : gopt) (st : fopts) (ret : Z) : ST client (fopts * Z * option way) :=
  let opt := g_opt g in
  if decide (opt = 101) then
    mode_option (isdecrypt st || istrace st) g (fun p => FOpts true (isdecrypt st) (istrace st) (isgetlist st) p) st ret
  else if decide (opt = 100) then
    mode_option (isecrypt st || istrace st) g (fun p => FOpts (isecrypt st) true (istrace st) (isgetlist st) p) st ret
  else if decide (opt = 116) then
    mode_option (isecrypt st || isdecrypt st) g (fun p => FOpts (isecrypt st) (isdecrypt st) true (isgetlist st) p) st ret
  else if decide (opt = 108) then
    mret (FOpts (isecrypt st) (isdecrypt st) (istrace st) true (file st), 0, Some Out)
  else if decide (opt = 118) then cprint (version_text argv);; mret (st, -2, Some Out)
  else if decide (opt = 104) then cprint file_usage;; mret (st, -2, Some Out)
  else mret (st, ret, Some ErrWay).

Fixpoint fopts_loop (argv : list (list Z)) (gs : list gopt) (st : fopts) (ret index : Z)
    : ST client (fopts * Z * way * Z) :=
  match gs with
  | [] => mret (st, ret, EndOfOptions, index)
  | g :: gs' =>
      '(st, ret, w) ← one_fopt argv g st ret;
      match w with
      | Some w => mret (st, ret, w, g_index g)
      | None => fopts_loop argv gs' st ret (g_index g)
      end
  end.

Definition parse_options (argv : list (list Z)) (st : fopts) : ST client (fopts * Z) :=
  let argc := Z.of_nat (length argv) in
  e ← clift (last_empty argv);
  if (e : bool) then mret (st, -1) else
  '(st, ret, w, option_index) ← fopts_loop argv (getopt_long argv) st (-1) 0;
  match w with
  | Out | ErrWay => mret (st, ret)
  | EndOfOptions => if decide (argc - option_index < 2) then mret (st, ret) else mret (st, ret)
  end.

Definition init_state : ST client Z := on_heap (a_alloc sizeof_fopts).

Definition free_state (p : Z) (st : fopts) : ST client unit :=
  if decide (p = 0) then mret tt else
  free_string (file st);;
  on_heap (a_free p).

(** ** Replies *)

(** "%-24s" and "%-64s"; the fields of a file. *)
Fixpoint file_fields (l : list redisReply) : outcome (list Z) :=
  match l with
  | [] => Ret []
  | k :: l' =>
      name ← of_option (r_str k);
      t ← (if decide (name = field_filename) then v ← next_str l'; Ret (text_mark ++ pad_right 24 v ++ [32])
           else if decide (name = field_path) then v ← next_str l'; Ret ([32] ++ pad_right 64 v ++ text_shown)
           else Ret []);
      rest ← (match l' with [] => Ret [] | _ :: l'' => file_fields l'' end);
      Ret (t ++ rest)
  end.

Definition kx_file_reply (reply : redisReply) : ST net unit :=
  if decide (r_type reply = REDIS_REPLY_ARRAY) then
    t ← nlift (file_fields (r_element reply)); nprint (t ++ [10])
  else mret tt.

Abbreviation reply_of := (client_reply (HP := HP) (R := R) kx_file_reply).
Abbreviation send_cmd := (send_cmd (FS := FS) (E := E) redisCommand errstr kx_file_reply).

Fixpoint each_file (p : Z) (l : list redisReply) : ST net unit :=
  match l with
  | [] => mret tt
  | e :: l' =>
      ac ← kx_search_action FILE_GET;
      set_syncexec ac KxFileReply;;
      key ← nlift (of_option (r_str e));
      send redisCommand errstr reply_of p (GetFile key);;
      each_file p l'
  end.

(** The handler of a list of keys; nothing installs it. *)
Definition kx_filelist_reply (p : Z) (reply : redisReply) : ST net unit :=
  if decide (r_type reply = REDIS_REPLY_ARRAY /\ r_element reply <> []) then
    each_file p (r_element reply);;
    nprint (replicate 88 32 ++ text_numbers ++ dec (Z.of_nat (length (r_element reply))) ++ [10])
  else mret tt.

(** ** What the command does *)

(** The text the record is stored under: "%s:%lu" in 64 bytes. *)
Definition record_key (name : list Z) (id : Z) : list Z := snprintf (name ++ [58] ++ dec id) 64.

(** [client.user->key]; [None] when a pointer on the way is NULL. *)
Definition key_of (s : client) : option (list Z) :=
  u ← users (c_user s) !! user s; keys (c_user s) !! ukey u.

Definition file_encrypt (st : fopts) : ST client Z :=
  if decide ((file st).1 = 0) then mret (-1) else
  key ← gets key_of;
  r ← on_files (kx_crypt_file cfg io junk_ctx junk_buffer basename key (file st).2);
  match r with
  | None => mret (-1)
  | Some (kf, rec) =>
      let block := file_block junk_gap junk_tail rec in
      l ← gets local_cryptfiles;
      _ ← on_lists (listAddNodeHead junk_node l kf);
      f ← clift (of_option (cstr block));
      p ← clift (of_option (cstr (drop off_fullname block)));
      n ← username;
      id ← node_uuid;
      send_cmd (AddFile (uuid rec) f p n id);;
      n ← username;
      ky ← clift (of_option (cstr (record_key n (uuid rec))));
      d ← gets db;
      _ ← on_db (kx_store_db mdb junk_dbi d KX_DB_INSERT_FILE ky block);
      mret 0
  end.

Definition file_decrypt (st : fopts) : ST client Z :=
  if decide ((file st).1 = 0) then mret (-1) else
  k ← user_key;
  ret ← on_files (kx_decrypt_file io junk_ctx junk_buffer (file st).2 k);
  if decide (ret <> 0) then mret (-1) else
  cprint text_decrypted;;
  mret 0.

Definition file_getfilelist : ST client unit :=
  d ← gets db;
  _ ← on_db (kx_get_db mdb list_fuel junk_key d KX_DB_GET_FILELIST []);
  mret tt.

(** kx_local_cryptfilelist, which nothing calls: the list in memory;
    [record_at] is the memory of the records. *)
Definition local_line (block : list Z) : outcome (list Z) :=
  f ← of_option (cstr block);
  p ← of_option (cstr (drop off_fullname block));
  Ret (text_mark ++ pad_right 24 f ++ pad_right 64 p ++ drop 1 text_shown ++ [10]).

Fixpoint local_loop (fuel : nat) (record_at : Z -> option (list Z)) (node : Z) : ST client unit :=
  match fuel with
  | O => no_fuel
  | S fuel =>
      if decide (node = 0) then mret tt else
      n ← on_lists (Adlist.deref_node node);
      t ← clift (block ← of_option (record_at (value n)); local_line block);
      cprint t;;
      n ← on_lists (Adlist.deref_node node);
      local_loop fuel record_at (next n)
  end.

Definition kx_local_cryptfilelist (fuel : nat) (record_at : Z -> option (list Z)) : ST client unit :=
  l ← gets local_cryptfiles;
  d ← on_lists (deref_list l);
  local_loop fuel record_at (head d).

Definition do_file (argv : list (list Z)) : ST client Z :=
  p ← init_state;
  if decide (p = 0) then mret (-1) else
  '(st, ret) ← parse_options argv init_fopts;
  r ← (if decide (ret = -2) then mret 0
       else if decide (ret = -1) then mret (-1)
       else
         (if isecrypt st then _ ← file_encrypt st; mret tt
          else if isgetlist st then file_getfilelist
          else if isdecrypt st then _ ← file_decrypt st; mret tt
          else mret tt);;
         mret ret);
  free_state p st;;
  mret r.

End KxFile.

(** ** Encrypting: the steps *)

Lemma digits_facts fuel : forall n acc, nonul acc ->
  (length (digits fuel n acc) <= fuel + length acc)%nat /\ nonul (digits fuel n acc).
Proof.
  induction fuel as [|f IH]; intros n acc N; cbn [digits]; [split; [lia|done]|].
  assert (N' : nonul ((48 + n mod 10) :: acc)).
  { constructor; [|done]. pose proof (Z.mod_pos_bound n 10 ltac:(lia)). lia. }
  case_decide; [split; [cbn [length]; lia|done]|].
  destruct (IH (n / 10) _ N') as [L N'']. cbn [length] in L. split; [lia|done].
Qed.

Lemma dec_facts n : (length (dec n) <= 21)%nat /\ nonul (dec n).
Proof.
  assert (N : nonul []) by constructor. unfold dec. case_decide.
  - destruct (digits_facts 20 (- n) [] N) as [L D]. cbn [length] in *. split; [lia|]. constructor; [lia|done].
  - destruct (digits_facts 20 n [] N) as [L D]. cbn [length] in *. split; [lia|done].
Qed.

(** The key text is cut at 63 characters. *)
Lemma record_key_text name id : nonul name ->
  cstr (record_key name id) = Some (take 63 (name ++ [58] ++ dec id)).
Proof.
  intros N. unfold record_key. cbn [snprintf]. apply cstr_app. apply Forall_take. apply Forall_app. split; [done|].
  apply Forall_app. split; [by repeat constructor|]. apply dec_facts.
Qed.

(** The two names of a record, through its block. *)
Lemma block_names gap tg kf name path : fname kf = strncpy name NAME_MAX -> fullname kf = strncpy path PATH_MAX ->
  nonul name -> nonul path -> (length name < NAME_MAX)%nat -> (length path < PATH_MAX)%nat ->
  cstr (file_block gap tg kf) = Some name /\ cstr (drop off_fullname (file_block gap tg kf)) = Some path.
Proof.
  intros F1 F2 N1 N2 L1 L2. split.
  - unfold file_block. rewrite F1. exact (strncpy_cstr [] name NAME_MAX _ 0 eq_refl N1 L1).
  - unfold file_block. rewrite F2. apply strncpy_cstr; [rewrite F1; apply strncpy_length|done|done].
Qed.

Section Encrypt.
Context {HP FS E R : Type} `{!Allocator HP}.
Abbreviation client := (client (HP := HP) (FS := FS) (E := E) (R := R)).
Implicit Types s : client.

(** The lists of the client on its heap. *)
Definition lists_of s : Adlist.store (HP := HP) :=
  Adlist.Store (cheap s) (Adlist.nodes (c_lists s)) (lists (c_lists s)) (iters (c_lists s)) (freed (c_lists s)).

(** What is live stays live: the lists are still well formed. *)
Lemma wf_grows (l : Adlist.store (HP := HP)) h : wf l -> a_live (heap l) ⊆ a_live h ->
  wf (Adlist.Store h (Adlist.nodes l) (lists l) (iters l) (freed l)).
Proof.
  intros (W1 & W2 & W3) S. split; [|split]; cbn [Adlist.nodes lists iters heap].
  - intros a H. destruct (W1 a H) as (A & B). split; [by apply S|done].
  - intros a H. destruct (W2 a H) as (A & B). split; [by apply S|done].
  - intros a H. destruct (W3 a H) as (A & B). split; [by apply S|done].
Qed.

(** The pointers the command reads. *)
Record logged_in s (u : kxuser) (name key id : list Z) : Prop := {
  li_user : users (c_user s) !! user s = Some u;
  li_key : keys (c_user s) !! ukey u = Some key;
  li_name : cstr (drop off_username (User.chars u)) = Some name;
  li_node : exists nd, User.nodes (c_user s) !! node s = Some nd /\ cstr (drop User.off_uuid nd) = Some id
}.

(** The user, the node and the pointers are as they were. *)
Definition same_owner s s' : Prop :=
  users (c_user s') = users (c_user s) /\ keys (c_user s') = keys (c_user s) /\ User.nodes (c_user s') = User.nodes (c_user s) /\
  user s' = user s /\ node s' = node s /\ net_p s' = net_p s /\ db s' = db s /\ local_cryptfiles s' = local_cryptfiles s.

#[export] Instance same_owner_preorder : PreOrder same_owner.
Proof.
  split; [by intros s|]. intros s t v (?&?&?&?&?&?&?&?) (?&?&?&?&?&?&?&?). unfold same_owner. split_and!; congruence.
Qed.

Lemma logged_in_same s s' u name key id : logged_in s u name key id -> same_owner s s' -> logged_in s' u name key id.
Proof.
  intros [L1 L2 L3 (nd & L4 & L5)] (E1 & E2 & E3 & E4 & E5 & _). split; [by rewrite E1, E4|by rewrite E2|done|].
  exists nd. by rewrite E3, E5.
Qed.

(** Reading a node of the list. *)
Lemma deref_node_run s a n : Adlist.nodes (c_lists s) !! a = Some n ->
  exists s', on_lists (Adlist.deref_node a) s = Ret (n, s') /\ lists_of s' = lists_of s /\ cout s' = cout s /\
    local_cryptfiles s' = local_cryptfiles s /\ Adlist.nodes (c_lists s') = Adlist.nodes (c_lists s).
Proof. intros Eq. unfold on_lists, Adlist.deref_node. cbn [Adlist.nodes]. rewrite Eq. cbn. by eexists. Qed.

Lemma local_loop_run record_at s p a xs texts fuel : seg (Adlist.nodes (c_lists s)) p xs 0 -> 0 ∉ xs.*1 ->
  a = first_addr xs 0 -> (length xs < fuel)%nat ->
  Forall2 (fun x t => exists block, record_at x.2 = Some block /\ local_line block = Ret t) xs texts ->
  runs (local_loop fuel record_at a) s (fun _ s' => cout s' = cout s ++ concat texts /\ lists_of s' = lists_of s).
Proof.
  intros Sg N0 -> Hf F. revert s p Sg fuel Hf. induction F as [|[q v] t xs texts (block & Er & El) _ IH]; intros s p Sg fuel Hf;
    destruct fuel as [|fuel]; try (cbn in Hf; lia); cbn [local_loop first_addr].
  - rewrite decide_True by done. apply runs_ret. by rewrite app_nil_r.
  - cbn [seg] in Sg. destruct Sg as [En Sg]. cbn [fmap list_fmap fst snd] in *.
    rewrite not_elem_of_cons in N0. destruct N0 as [Nq N0]. rewrite decide_False by congruence.
    destruct (deref_node_run s q _ En) as (s1 & E1 & L1 & O1 & C1 & M1). unfold runs. rewrite (bind_ret _ _ _ _ _ E1).
    cbn [value]. erewrite bind_ret; [|unfold clift; rewrite Er; cbn [of_option mbind outcome_bind]; by rewrite El].
    unfold cprint at 1. erewrite bind_ret; [|reflexivity].
    set (s2 := Client (cheap s1) _ _ _ _ _ _ _ _ _ _ _). 
    assert (M2 : Adlist.nodes (c_lists s2) = Adlist.nodes (c_lists s)) by exact M1.
    destruct (deref_node_run s2 q _ ltac:(rewrite M2; exact En)) as (s3 & E3 & L3 & O3 & C3 & M3). rewrite (bind_ret _ _ _ _ _ E3).
    cbn [next]. eapply runs_mono; [apply (IH N0 s3 q)|].
    + by rewrite M3, M2.
    + cbn in Hf. lia.
    + cbn beta. intros _ s' [O L]. split.
      * rewrite O, O3. cbn [cout s2 concat]. by rewrite O1, <- app_assoc.
      * by rewrite L, L3.
Qed.

(** The list in memory is printed from its head on, and left as it is. *)
Theorem kx_local_cryptfilelist_spec record_at s ms xs texts fuel : rep (lists_of s) (local_cryptfiles s) ms xs ->
  (length xs < fuel)%nat ->
  Forall2 (fun x t => exists block, record_at x.2 = Some block /\ local_line block = Ret t) xs texts ->
  runs (kx_local_cryptfilelist fuel record_at) s (fun _ s' => cout s' = cout s ++ concat texts /\ lists_of s' = lists_of s).
Proof.
  intros (Eq & ND & N0 & Sg & _) Hf F. unfold kx_local_cryptfilelist, runs. rewrite (bind_ret _ _ s (local_cryptfiles s) s eq_refl).
  cbn [lists_of lists] in Eq. erewrite bind_ret; [|unfold on_lists, deref_list; cbn [lists]; rewrite Eq; reflexivity]. cbn [head].
  eapply runs_mono; [eapply (local_loop_run record_at _ 0 _ xs texts fuel)|]; try done.
Qed.

(** Reading a name changes nothing that matters. *)
Lemma username_run s u name key id : logged_in s u name key id -> exists s',
  username s = Ret (name, s') /\ same_owner s s' /\ cheap s' = cheap s /\ cout s' = cout s /\ c_files s' = c_files s /\
  c_lists s' = c_lists s /\ c_net s' = c_net s /\ c_db s' = c_db s.
Proof.
  intros []. unfold username, the_user, on_user, clift, mbind, ST_bind, gets, deref_user. cbn [users].
  rewrite li_user0. cbn [mbind outcome_bind]. rewrite li_name0. cbn [of_option mbind outcome_bind]. eexists. split; [reflexivity|]. done.
Qed.

Lemma node_uuid_run s u name key id : logged_in s u name key id -> exists s',
  node_uuid s = Ret (id, s') /\ same_owner s s' /\ cheap s' = cheap s /\ cout s' = cout s /\ c_files s' = c_files s /\
  c_lists s' = c_lists s /\ c_net s' = c_net s /\ c_db s' = c_db s.
Proof.
  intros [? ? ? (nd & L4 & L5)]. unfold node_uuid, the_node, on_user, clift, mbind, ST_bind, gets, deref_node. cbn [User.nodes].
  rewrite L4. cbn [mbind outcome_bind]. rewrite L5. cbn [of_option mbind outcome_bind]. eexists. split; [reflexivity|]. done.
Qed.

Lemma user_key_run s u name key id : logged_in s u name key id -> exists s',
  user_key s = Ret (key, s') /\ same_owner s s' /\ cheap s' = cheap s /\ c_files s' = c_files s.
Proof.
  intros []. unfold user_key, the_user, on_user, clift, mbind, ST_bind, gets, deref_user. cbn [users].
  rewrite li_user0. cbn [mbind outcome_bind c_user keys]. rewrite li_key0. cbn [of_option mbind outcome_bind].
  eexists. split; [reflexivity|]. done.
Qed.

Lemma key_of_run s u name key id : logged_in s u name key id -> key_of s = Some key.
Proof. intros []. unfold key_of. rewrite li_user0. cbn. by rewrite li_key0. Qed.

End Encrypt.

Section EncryptRun.
Context {HP FS E R : Type} `{!Allocator HP}.
Variable mdb : mdb_call -> ST E answer.
Variable redisCommand : Z -> list Z -> ST R (option redisReply).
Variable errstr : Z -> R -> list Z.
Variable cfg : config.
Variable io : faults.
Variable junk_ctx : AES_ctx.
Variable junk_buffer : list Z.
Variable basename : list Z -> list Z.
Variable junk_node : listNode.
Variable junk_dbi junk_gap : Z.
Variable junk_tail : list Z.
Abbreviation client := (client (HP := HP) (FS := FS) (E := E) (R := R)).
Implicit Types s : client.

(** Every allocation succeeds, the server and LMDB answer. *)
Hypothesis alloc_ok : forall n (h : HP), exists p h', a_alloc n h = Ret (p, h') /\ p <> 0.
Hypothesis redis_answers : forall c t r, exists o r', redisCommand c t r = Ret (o, r').
Hypothesis mdb_answers : forall c e, exists a e', mdb c e = Ret (a, e').

(** Nothing but the heap, the output and the connection changes. *)
Definition sent_only s s' : Prop :=
  same_owner s s' /\ a_live (cheap s') = a_live (cheap s) /\ c_files s' = c_files s /\ c_lists s' = c_lists s /\ c_db s' = c_db s /\
  gnode (c_user s') = gnode (c_user s) /\ contexts (c_net s') = contexts (c_net s) /\ acs (c_net s') = acs (c_net s).

Lemma send_cmd_run s q c a : contexts (c_net s) !! net_p s = Some c -> acs_ok (acs (c_net s)) ->
  acs (c_net s) !! place (type_of q) = Some a -> syncexec a = Some KxSetReply -> Z.of_nat (length (command_text q)) < INT_MAX ->
  exists s' o, send_cmd redisCommand errstr (kx_file_reply (HP := HP) (R := R)) q s = Ret (tt, s') /\ sent_only s s' /\
    redisCommand c (command_text q) (redis (c_net s)) = Ret (o, redis (c_net s')).
Proof using alloc_ok redis_answers.
  intros C K Ea Es L. unfold send_cmd. rewrite (bind_ret _ _ s (net_p s) s eq_refl). unfold on_net.
  set (n := Net (cheap s) (redis (c_net s)) (contexts (c_net s)) (acs (c_net s)) (live_replies (c_net s)) (cout s)).
  destruct (send_run redisCommand errstr (client_reply (kx_file_reply (HP := HP) (R := R))) (net_p s) c q n C K L)
    as (a' & Ea' & _ & Er). cbn [acs n] in Ea'. rewrite Ea in Ea'. injection Ea' as <-.
  destruct (alloc_ok (Z.of_nat (length (command_text q)) + 1) (nheap n)) as (ptr & h & A & Hp). rewrite A in Er.
  rewrite decide_False in Er by done. destruct (a_alloc_fresh _ _ _ _ A Hp) as [Np Lh].
  destruct (free_sent n ptr h Np Lh Hp) as (h' & F & Lh').
  destruct (redis_answers c (command_text q) (redis n)) as (o & r' & Ec). rewrite Ec in Er. rewrite Es in Er.
  set (t := match o with Some reply => reply_line reply | None => command_text q ++ text_error ++ errstr c r' ++ [10] end).
  assert (Er' : send redisCommand errstr (client_reply (kx_file_reply (HP := HP) (R := R))) (net_p s) q n =
    Ret (tt, Net h' r' (contexts n) (acs n) (live_replies n) (nout n ++ t))).
  { destruct o as [reply|]; rewrite Er; unfold mbind, ST_bind; cbn [run_handler]; rewrite ?set_reply_prints; cbn;
      unfold on_nheap; cbn; rewrite F; done. }
  rewrite Er'. cbn [mbind outcome_bind]. eexists _, o. split; [reflexivity|]. split; [|exact Ec].
  unfold sent_only, same_owner. cbn. by split_and!.
Qed.

(** The system refuses nothing of the file. *)
Definition usable (path : list Z) : Prop :=
  no_stat io path = false /\ (forall m, no_open io path m = false) /\ short_read io path = None.

(** What the encryption of a file needs. *)
Record encrypt_ready s (path d : list Z) (u : kxuser) (name key id : list Z) (c : Z) (a : action)
    (dd : kxdb) (dbn : list Z) (ms : methods) (xs : list (Z * Z)) : Prop := {
  er_ctx : length (RoundKey junk_ctx) = AES_keyExpSize AES128;
  er_tail : length junk_tail = 4%nat;
  er_owner : logged_in s u name key id;
  er_key : bytes key /\ (16 <= length key)%nat;
  er_name : nonul name;
  er_files : map_Forall (fun _ x => bytes x) (c_files s);
  er_file : c_files s !! path = Some d;
  er_usable : usable path;
  er_size : Z.of_nat (length d) <= MAXFILESIZE;
  er_path : nonul path /\ (length path < PATH_MAX)%nat;
  er_base : nonul (basename path) /\ (length (basename path) < NAME_MAX)%nat;
  er_net : contexts (c_net s) !! net_p s = Some c;
  er_acs : acs_ok (acs (c_net s));
  er_entry : acs (c_net s) !! place FILE_CRYPT = Some a /\ syncexec a = Some KxSetReply;
  er_text : Z.of_nat (length path + length (basename path) + length name + length id) + 200 < INT_MAX;
  er_db : dbs (c_db s) !! db s = Some dd;
  er_dbn : name_of dd = Ret dbn;
  er_wf : wf (lists_of s);
  er_list : rep (lists_of s) (local_cryptfiles s) ms xs;
  er_len : Z.of_nat (S (length xs)) < 2 ^ 64
}.

(** The contents after encryption. *)
Definition ciphertext (key d : list Z) : list Z := ecb (fips_cipher AES128 key) (numBlocks (length d)) (pad d).

(** A block that was allocated since. *)
Definition new_block s a s' : Prop := a <> 0 /\ (a ∉ a_live (cheap s)) /\ a ∈ a_live (cheap s').

(** What is stored, and what LMDB is told. *)
Definition stored s (name : list Z) (rec : kxfile) (dd : kxdb) (dbn : list Z) s' : Prop :=
  exists cs, inserted mdb junk_dbi (env dd) dbn (take (length (name ++ [58] ++ dec (uuid rec))) (after_id junk_tail rec))
      (file_block junk_gap junk_tail rec) (denv (c_db s)) cs (denv (c_db s')) /\
    calls (c_db s') = calls (c_db s) ++ cs.

(** What the server is sent, and its answer. *)
Definition told s (c : Z) (q : request) s' : Prop :=
  exists o, redisCommand c (command_text q) (redis (c_net s)) = Ret (o, redis (c_net s')).

(** After an encryption: the file; the list, with the node [q] for the block [kf] of the record; the server and
    the data base, with the record. *)
Definition encrypt_done s (path d name key id : list Z) (c : Z) (dd : kxdb) (dbn : list Z) (ms : methods)
    (xs : list (Z * Z)) (q kf : Z) s' : Prop :=
  let rec := crypt_record basename path (ciphertext key d) in
  same_owner s s' /\ a_live (cheap s) ⊆ a_live (cheap s') /\
  c_files s' = <[path := ciphertext key d]> (c_files s) /\
  rep (lists_of s') (local_cryptfiles s') ms ((q, kf) :: xs) /\ new_block s kf s' /\ new_block s q s' /\ q <> kf /\
  told s c (AddFile (uuid rec) (basename path) path name id) s' /\ stored s name rec dd dbn s'.

Abbreviation encrypt := (file_encrypt mdb redisCommand errstr cfg io junk_ctx junk_buffer basename junk_node junk_dbi junk_gap junk_tail).

Lemma add_text_length fid fname path name id :
  (length (command_text (AddFile fid fname path name id)) <= length path + length fname + length name + length id + 150)%nat.
Proof.
  unfold command_text. destruct (dec_facts fid) as [L _]. rewrite !length_app.
  assert (E1 : length (text "HMSET fileuuid:"%string) = 15%nat) by reflexivity.
  assert (E2 : length (text " filename "%string) = 10%nat) by reflexivity.
  assert (E3 : length (text " path "%string) = 6%nat) by reflexivity.
  assert (E4 : length (text " uuid "%string) = 6%nat) by reflexivity.
  assert (E5 : length (text " user "%string) = 6%nat) by reflexivity.
  assert (E6 : length (text " muuid "%string) = 7%nat) by reflexivity.
  rewrite E1, E2, E3, E4, E5, E6. lia.
Qed.

(** The new node at the head of the list. *)
Lemma add_head_run s ms xs kf : wf (lists_of s) -> rep (lists_of s) (local_cryptfiles s) ms xs -> Z.of_nat (S (length xs)) < 2 ^ 64 ->
  exists q s', on_lists (listAddNodeHead junk_node (local_cryptfiles s) kf) s = Ret (local_cryptfiles s, s') /\
    same_owner s s' /\ q <> 0 /\ (q ∉ a_live (cheap s)) /\ a_live (cheap s') = {[q]} ∪ a_live (cheap s) /\ rep (lists_of s') (local_cryptfiles s') ms ((q, kf) :: xs) /\
    c_files s' = c_files s /\ c_net s' = c_net s /\ c_db s' = c_db s.
Proof using alloc_ok.
  intros W Rp Lx. destruct (alloc_ok 24 (heap (lists_of s))) as (q & h & A & Hq).
  pose proof (listAddNodeHead_run junk_node (lists_of s) h (local_cryptfiles s) ms q kf xs W Rp Lx A Hq) as Er.
  exists q. unfold on_lists. fold (lists_of s). rewrite Er. cbn [mbind outcome_bind]. eexists. split; [reflexivity|].
  split; [done|]. destruct (a_alloc_fresh _ _ _ _ A Hq) as [N Lh].
  split; [done|]. split; [exact N|]. split; [exact Lh|]. split; [|done].
  assert (Nq : q ∉ xs.*1).
  { intros Hx. apply N. by eapply rep_live. }
  exact (after_insert_rep (lists_of s) h (local_cryptfiles s) ms q kf [] xs Rp Lx Hq Nq).
Qed.


(** Storing the record: the calls of LMDB, or a read past the record's block. *)
Lemma store_run s name rec dd dbn : let t := name ++ [58] ++ dec (uuid rec) in
  dbs (c_db s) !! db s = Some dd -> name_of dd = Ret dbn -> length (fname rec) = NAME_MAX -> length (fullname rec) = PATH_MAX ->
  length junk_tail = 4%nat ->
  if decide (16 < Z.of_nat (length t)) then
    on_db (kx_store_db mdb junk_dbi (db s) KX_DB_INSERT_FILE (take 63 t) (file_block junk_gap junk_tail rec)) s = Undef
  else exists s', on_db (kx_store_db mdb junk_dbi (db s) KX_DB_INSERT_FILE (take 63 t) (file_block junk_gap junk_tail rec)) s = Ret (0, s') /\
    same_owner s s' /\ cheap s' = cheap s /\ c_files s' = c_files s /\ c_lists s' = c_lists s /\ local_cryptfiles s' = local_cryptfiles s /\ c_net s' = c_net s /\
    stored s name rec dd dbn s'.
Proof using mdb_answers.
  intros t Dd Dn L1 L2 Lt. unfold on_db, kx_store_db. rewrite (decide_True (P := KX_DB_INSERT_FILE = _)) by done.
  set (ds := DState (cheap s) (dfs (c_db s)) (denv (c_db s)) (dbs (c_db s)) (cout s) (calls (c_db s))).
  destruct (decide (16 < Z.of_nat (length t))) as [H|H].
  - assert (H' : (16 < length (take 63 t))%nat) by (rewrite length_take; lia).
    pose proof (insert_file_undef mdb junk_dbi mdb_answers (db s) dd dbn _ junk_gap junk_tail rec ds Dd Dn L1 L2 Lt H') as Hu.
    unfold mbind at 2, ST_bind at 1. by rewrite Hu.
  - assert (Et : take 63 t = t) by (apply take_ge; lia). rewrite Et.
    destruct (insert_file_runs mdb junk_dbi mdb_answers (db s) dd dbn t junk_gap junk_tail rec ds Dd Dn L1 L2 Lt
      ltac:(lia)) as ([] & ds' & Er & _ & cs & In & Hd & _ & _ & Cs).
    rewrite (bind_ret _ _ _ _ _ Er). cbn [mret ST_ret mbind outcome_bind]. eexists. split; [reflexivity|].
    split; [done|]. split; [exact Hd|]. do 4 (split; [done|]). by exists cs.
Qed.

(** What follows the encryption: the request and the local record. *)
Definition report (fid : Z) (f p : list Z) (block : list Z) : ST client Z :=
  n ← username; id ← node_uuid;
  send_cmd redisCommand errstr (kx_file_reply (HP := HP) (R := R)) (AddFile fid f p n id);;
  n ← username; ky ← clift (of_option (cstr (record_key n fid))); d ← gets db;
  _ ← on_db (kx_store_db mdb junk_dbi d KX_DB_INSERT_FILE ky block); mret 0.

Lemma report_run s path u name key id c a dd dbn rec : logged_in s u name key id -> nonul name ->
  contexts (c_net s) !! net_p s = Some c -> acs_ok (acs (c_net s)) ->
  acs (c_net s) !! place FILE_CRYPT = Some a -> syncexec a = Some KxSetReply ->
  Z.of_nat (length path + length (basename path) + length name + length id) + 200 < INT_MAX ->
  dbs (c_db s) !! db s = Some dd -> name_of dd = Ret dbn ->
  length (fname rec) = NAME_MAX -> length (fullname rec) = PATH_MAX -> length junk_tail = 4%nat ->
  let m := report (uuid rec) (basename path) path (file_block junk_gap junk_tail rec) in
  if decide (16 < Z.of_nat (length (name ++ [58] ++ dec (uuid rec)))) then m s = Undef
  else exists s', m s = Ret (0, s') /\ same_owner s s' /\ a_live (cheap s') = a_live (cheap s) /\ c_files s' = c_files s /\
    c_lists s' = c_lists s /\
    told s c (AddFile (uuid rec) (basename path) path name id) s' /\ stored s name rec dd dbn s'.
Proof using alloc_ok redis_answers mdb_answers.
  intros Li Nn C K Ea Es Lt Dd Dn L1 L2 Ltl m. unfold m, report.
  destruct (username_run s u name key id Li) as (s1 & E1 & O1 & H1 & _ & F1 & G1 & N1 & D1). rewrite (bind_ret _ _ _ _ _ E1).
  pose proof (logged_in_same s s1 u name key id Li O1) as Li1.
  destruct (node_uuid_run s1 u name key id Li1) as (s2 & E2 & O2 & H2 & _ & F2 & G2 & N2 & D2). rewrite (bind_ret _ _ _ _ _ E2).
  assert (O12 : same_owner s s2) by (by etrans). pose proof (logged_in_same s s2 u name key id Li O12) as Li2.
  assert (N12 : c_net s2 = c_net s) by (by rewrite N2). pose proof O12 as (_ & _ & _ & _ & _ & Np & Db & _).
  destruct (send_cmd_run s2 (AddFile (uuid rec) (basename path) path name id) c a) as (s3 & o & E3 & (O3 & H3 & F3 & G3 & D3 & _) & Rd).
  { by rewrite N12, Np. } { by rewrite N12. } { by rewrite N12. } { done. }
  { pose proof (add_text_length (uuid rec) (basename path) path name id). lia. }
  rewrite (bind_ret _ _ _ _ _ E3).
  destruct (username_run s3 u name key id (logged_in_same s2 s3 u name key id Li2 O3))
    as (s4 & E4 & O4 & H4 & _ & F4 & G4 & N4 & D4). rewrite (bind_ret _ _ _ _ _ E4).
  rewrite (bind_ret _ _ s4 (take 63 (name ++ [58] ++ dec (uuid rec))) s4) by (unfold clift; by rewrite record_key_text).
  rewrite (bind_ret _ _ s4 (db s4) s4 eq_refl).
  assert (O14 : same_owner s s4) by (etrans; [exact O12|]; by etrans). pose proof O14 as (_ & _ & _ & _ & _ & _ & Db4 & _).
  assert (D14 : c_db s4 = c_db s) by (by rewrite D4, D3, D2, D1).
  pose proof (store_run s4 name rec dd dbn ltac:(by rewrite D14, Db4) Dn L1 L2 Ltl) as St. cbn zeta in St.
  case_decide as Hk; [unfold mbind at 1, ST_bind at 1; by rewrite St|].
  destruct St as (s5 & E5 & O5 & H5 & F5 & G5 & _ & N5 & Cs). exists s5.
  split; [by rewrite (bind_ret _ _ _ _ _ E5)|]. split; [by etrans|]. split; [by rewrite H5, H4, H3, H2, H1|].
  split; [by rewrite F5, F4, F3, F2, F1|]. split; [by rewrite G5, G4, G3, G2, G1|].
  split; [exists o; rewrite N5, N4, <- N12; exact Rd|]. unfold stored in *. by rewrite D14 in Cs.
Qed.

(** The encryption, which gives the record. *)
Lemma crypt_step s path d u name key id c a dd dbn ms xs : encrypt_ready s path d u name key id c a dd dbn ms xs ->
  let e := ciphertext key d in
  exists r s1, on_files (kx_crypt_file cfg io junk_ctx junk_buffer basename (Some key) path) s = Ret (r, s1) /\
    same_owner s s1 /\ c_files s1 = <[path := e]> (c_files s) /\ c_lists s1 = c_lists s /\ c_net s1 = c_net s /\ c_db s1 = c_db s /\
    if decide (file_hash e = 0) then r = None /\ a_live (cheap s1) = a_live (cheap s)
    else exists kf, r = Some (kf, crypt_record basename path e) /\ kf <> 0 /\ (kf ∉ a_live (cheap s)) /\
      a_live (cheap s1) = {[kf]} ∪ a_live (cheap s).
Proof using alloc_ok junk_dbi errstr.
  intros [] e. destruct er_key0 as [Kb Kl], er_usable0 as (U1 & U2 & U3).
  pose proof (crypt_file_runs cfg io junk_ctx junk_buffer basename
    ltac:(intros n h; destruct (alloc_ok n h) as (p & h' & A & _); by exists p, h') er_ctx0 key path (FState (cheap s) (c_files s))
    Kb Kl er_files0) as H.
  rewrite U1 in H. cbn [files] in H. rewrite er_file0 in H. destruct H as (r & f1 & Er & C). fold (ciphertext key d) in C. fold e in C.
  exists r, (Client (fheap f1) (cout s) (node s) (user s) (net_p s) (db s) (local_cryptfiles s) (c_user s) (files f1)
    (c_lists s) (c_net s) (c_db s)).
  split; [unfold on_files; by rewrite Er|]. split; [done|]. cbn [c_files c_lists c_net c_db cheap].
  assert (Ns : ~ reads_short io path e) by (intros (n & Hn & _); by rewrite U3 in Hn).
  inversion C as [|? ? ? A|? ? ? ? ? ? Ho|? ? ? ? ? ? ? Ho|kf h p h' ? ? ? A Hk ? ? A' Ff H]; subst; [lia|exfalso| | |].
  - destruct (alloc_ok sizeof_kxfile (cheap s)) as (q & h2 & A2 & Hq). cbn [fheap] in A. rewrite A in A2. by injection A2 as <- _.
  - by rewrite U2 in Ho.
  - by rewrite U2 in Ho.
  - split; [exact Ff|]. do 3 (split; [done|]). cbn [fheap] in H.
    assert (Hp : p <> 0). { destruct (alloc_ok (Z.of_nat (length e)) h) as (q & h2 & A2 & Hq). rewrite A' in A2. by injection A2 as <- _. }
    destruct (decide (file_hash e = 0)) as [Hz|Hz].
    + rewrite decide_True in H by tauto. exact H.
    + rewrite decide_False in H by tauto. rewrite decide_False in H by done. destruct H as (-> & L & N). exists kf. by split_and!.
Qed.

Lemma file_encrypt_run st s path d u name key id c a dd dbn ms xs :
  (file st).1 <> 0 -> (file st).2 = path -> encrypt_ready s path d u name key id c a dd dbn ms xs ->
  let e := ciphertext key d in
  if decide (file_hash e = 0) then exists s', encrypt st s = Ret (-1, s') /\
     same_owner s s' /\ a_live (cheap s') = a_live (cheap s) /\ c_files s' = <[path := e]> (c_files s) /\
     c_lists s' = c_lists s /\ c_net s' = c_net s /\ c_db s' = c_db s
  else if decide (16 < Z.of_nat (length (name ++ [58] ++ dec (file_hash e)))) then encrypt st s = Undef
  else exists s' q kf, encrypt st s = Ret (0, s') /\ encrypt_done s path d name key id c dd dbn ms xs q kf s' /\
     a_live (cheap s') = {[q; kf]} ∪ a_live (cheap s).
Proof using alloc_ok redis_answers mdb_answers.
  intros Hp E2 Rd e. pose proof Rd as [].
  destruct er_path0 as [Pn Pl], er_base0 as [Bn Bl], er_entry0 as [Ea Es].
  unfold file_encrypt. rewrite (decide_False (P := (file st).1 = 0)) by done. rewrite E2.
  rewrite (bind_ret _ _ s (key_of s) s eq_refl). rewrite (key_of_run s u name key id er_owner0).
  destruct (crypt_step s path d u name key id c a dd dbn ms xs Rd) as (r & s1 & E1 & O1 & F1 & L1 & N1 & D1 & H).
  rewrite (bind_ret _ _ _ _ _ E1). fold e in F1, H. set (rec := crypt_record basename path e) in *.
  destruct (decide (file_hash e = 0)) as [Hz|Hz]; [destruct H as [-> Lv]; exists s1; by split_and!|].
  destruct H as (kf & -> & Hk & Nk & Lv). rewrite (bind_ret _ _ s1 (local_cryptfiles s1) s1 eq_refl).
  pose proof O1 as (_ & _ & _ & _ & _ & Np1 & Db1 & Lc1).
  assert (W1 : wf (lists_of s1)).
  { unfold lists_of. rewrite L1. apply (wf_grows (lists_of s) (cheap s1) er_wf0). cbn [lists_of heap]. rewrite Lv. apply union_subseteq_r. }
  assert (R1 : rep (lists_of s1) (local_cryptfiles s1) ms xs) by (rewrite Lc1; unfold lists_of, rep in *; by rewrite L1).
  destruct (add_head_run s1 ms xs kf W1 R1 er_len0) as (q & s2 & E3 & O2 & Hq & Nq & L12 & R2 & F2 & N2 & D2).
  rewrite (bind_ret _ _ _ _ _ E3).
  destruct (block_names junk_gap junk_tail rec (basename path) path eq_refl eq_refl Bn Pn Bl Pl) as [C1 C2].
  rewrite (bind_ret _ _ s2 (basename path) s2) by (unfold clift; by rewrite C1).
  rewrite (bind_ret _ _ s2 path s2) by (unfold clift; by rewrite C2).
  assert (O12 : same_owner s s2) by (by etrans). pose proof O12 as (_ & _ & _ & _ & _ & Np & Db & Lc).
  pose proof (report_run s2 path u name key id c a dd dbn rec (logged_in_same s s2 u name key id er_owner0 O12) er_name0
    ltac:(by rewrite N2, N1, Np) ltac:(by rewrite N2, N1) ltac:(by rewrite N2, N1) Es er_text0 ltac:(by rewrite D2, D1, Db) er_dbn0
    ltac:(apply strncpy_length) ltac:(apply strncpy_length) er_tail0) as St. cbn zeta in St.
  fold (report (uuid rec) (basename path) path (file_block junk_gap junk_tail rec)).
  change (uuid rec) with (file_hash e) in *. case_decide as Hl; [exact St|].
  destruct St as (s7 & E9 & O7 & H7 & F7 & L7 & (o & Rq) & cs & In & Cs). exists s7, q, kf. split; [exact E9|].
  assert (Lv7 : a_live (cheap s7) = {[q; kf]} ∪ a_live (cheap s)) by (rewrite H7, L12, Lv; by rewrite (assoc_L (∪))).
  split; [|done]. pose proof O7 as (_ & _ & _ & _ & _ & _ & _ & Lc7). unfold encrypt_done, new_block. fold e rec. rewrite Lv7.
  rewrite Lv in Nq. split; [by etrans|]. split; [apply union_subseteq_r|]. split; [by rewrite F7, F2|].
  split; [rewrite Lc7; unfold rep, lists_of in *; by rewrite L7|]. split; [split_and!; [done|done|set_solver-]|].
  split; [split_and!; [done|set_solver|set_solver-]|]. split; [set_solver|].
  split; [exists o; by rewrite <- N1, <- N2|]. exists cs. by rewrite D2, D1 in In, Cs.
Qed.

(** Decrypting a file that holds an encryption. *)
Lemma file_decrypt_run o s path d u name key id : length (RoundKey junk_ctx) = AES_keyExpSize AES128 ->
  points (file o) (Some path) -> logged_in s u name key id -> bytes key -> (16 <= length key)%nat ->
  c_files s !! path = Some (ciphertext key d) -> bytes d -> no_open io path RBplus = false ->
  exists s', file_decrypt (FS := FS) (E := E) (R := R) io junk_ctx junk_buffer o s = Ret (0, s') /\ same_owner s s' /\
    cheap s' = cheap s /\ c_files s' = <[path := pad d]> (c_files s).
Proof using Type.
  intros Hj [P1 P2] Li Kb Kl F B U. unfold file_decrypt. rewrite (decide_False (P := (file o).1 = 0)) by done. rewrite P2.
  destruct (user_key_run s u name key id Li) as (s1 & E1 & O1 & H1 & F1). rewrite (bind_ret _ _ _ _ _ E1).
  pose proof (decrypt_back io junk_ctx junk_buffer key path d (FState (cheap s1) (c_files s1)) Hj Kb Kl B U
    ltac:(cbn; by rewrite F1)) as Er.
  set (s2 := Client (cheap s1) (cout s1) (node s1) (user s1) (net_p s1) (db s1) (local_cryptfiles s1) (c_user s1)
    (<[path := pad d]> (c_files s1)) (c_lists s1) (c_net s1) (c_db s1)).
  rewrite (bind_ret _ _ s1 0 s2) by (unfold on_files, kx_decrypt_file; by rewrite Er).
  rewrite (decide_False (P := 0 <> 0)) by lia. eexists. split; [reflexivity|].
  split; [exact O1|]. split; [exact H1|]. cbn. by rewrite F1.
Qed.

End EncryptRun.

(** ** What the options mean *)

Inductive fverdict := FNothing (ret : Z) | FEncrypt (path : option (list Z)) | FDecrypt (path : option (list Z)) | FList.

(** "-e", "-d", "-t" *)
Definition is_mode (c : Z) : bool := bool_decide (c = 101 \/ c = 100 \/ c = 116).

(** The options [c] at the front, and the option after them. *)
Fixpoint same (c : Z) (gs : list gopt) : list gopt :=
  match gs with g :: gs' => if decide (g_opt g = c) then g :: same c gs' else [] | [] => [] end.
Fixpoint after (c : Z) (gs : list gopt) : option gopt :=
  match gs with g :: gs' => if decide (g_opt g = c) then after c gs' else Some g | [] => None end.

Definition act (c : Z) (path : option (list Z)) : fverdict :=
  if decide (c = 101) then FEncrypt path else if decide (c = 100) then FDecrypt path else FNothing 0.

(** The first option decides: a mode with its last file, up to an option of another kind, or
    no mode. *)
Definition judge_file (gs : list gopt) : fverdict :=
  match gs with
  | [] => FNothing (-1)
  | g :: gs' =>
      let c := g_opt g in
      if is_mode c then
        let path := last_arg c (g :: same c gs') in
        match after c gs' with
        | Some h => if decide (g_opt h = 118 \/ g_opt h = 104) then FNothing 0
                    else if decide (g_opt h = 108 /\ c <> 101) then FList else act c path
        | None => act c path
        end
      else if decide (c = 118 \/ c = 104) then FNothing 0
      else if decide (c = 108) then FList else FNothing (-1)
  end.

Definition stop_of (gs : list gopt) : option gopt :=
  match gs with [] => None | g :: gs' => if is_mode (g_opt g) then after (g_opt g) gs' else Some g end.

Definition judge_file_text (argv : list (list Z)) (gs : list gopt) : list Z :=
  match stop_of gs with
  | Some g => if decide (g_opt g = 118) then version_text argv else if decide (g_opt g = 104) then file_usage else []
  | None => []
  end.

Section FileParse.
Context {HP FS E R : Type} `{!Allocator HP}.
Abbreviation client := (client (HP := HP) (FS := FS) (E := E) (R := R)).
Implicit Types s : client.
Hypothesis alloc_ok : forall n (h : HP), exists p h', a_alloc n h = Ret (p, h') /\ p <> 0.

(** The flags when the mode [c] is set or none is: at most one of the three. *)
Definition flags (b : bool) (c : Z) (st : fopts) : Prop :=
  isecrypt st = (b && bool_decide (c = 101)) /\ isdecrypt st = (b && bool_decide (c = 100)) /\
  istrace st = (b && bool_decide (c = 116)) /\ isgetlist st = false.

Definition fparsed (s0 : client) (p c : Z) (done : list gopt) (st : fopts) s : Prop :=
  same_but_heap s0 s /\ flags (negb (bool_decide (done = []))) c st /\
  points (file st) (last_arg c done) /\
  exists lost, owned s0 s (strings [file st] ++ [p]) lost /\ length (strings [file st] ++ lost) = length done.

Lemma mode_step argv s0 p c done g st ret s : is_mode c = true -> g_opt g = c -> g_arg g <> None -> fparsed s0 p c done st s ->
  exists st' s', one_fopt argv g st ret s = Ret (st', 0, None, s') /\ fparsed s0 p c (done ++ [g]) st' s' /\ cout s' = cout s.
Proof using alloc_ok.
  intros M Eg Ar (Sb & (F1 & F2 & F3 & F4) & Pf & lost & O & Ln). destruct (g_arg g) as [a|] eqn:Ea; [|done].
  destruct (strdup_run alloc_ok a s) as (q & s' & D & Pq & S' & O' & N & L). destruct Pq as [Hq Hq2].
  assert (Ow : owned s0 s' (q.1 :: [p]) (strings [file st] ++ lost)).
  { apply (owned_new s0 s s' q.1 [p]); [|done..]. eapply owned_perm; [exact O|]. solve_Permutation. }
  assert (Mo : forall clash set, clash = false -> mode_option clash g set st ret s = Ret (set q, 0, None, s')).
  { intros clash set ->. unfold mode_option. rewrite Ea. by rewrite (bind_ret _ _ _ _ _ D). }
  assert (Hb : negb (bool_decide (done ++ [g] = [])) = true) by (by destruct done).
  assert (Fp : forall st', flags true c st' -> file st' = q -> fparsed s0 p c (done ++ [g]) st' s').
  { intros st' Fl Ef. unfold fparsed. rewrite Hb, Ef, last_arg_snoc, decide_True, Ea by done. split; [by etrans|]. split; [done|].
    split; [by split|]. exists (strings [file st] ++ lost). rewrite strings_cons_ok, decide_True by done. split; [exact Ow|].
    change (strings []) with (@nil Z). rewrite length_app in Ln. rewrite !length_app. cbn [length]. lia. }
  unfold one_fopt. rewrite Eg. apply bool_decide_eq_true in M. rewrite F1, F2, F3, F4.
  destruct M as [-> |[-> | ->]].
  - rewrite decide_True by done. rewrite Mo by (by destruct (negb _)).
    eexists _, s'. split; [reflexivity|]. split; [|done]. apply Fp; [|done]. unfold flags. cbn. by destruct (negb _).
  - rewrite (decide_False (P := 100 = 101)), (decide_True (P := 100 = 100)) by done. rewrite Mo by (by destruct (negb _)).
    eexists _, s'. split; [reflexivity|]. split; [|done]. apply Fp; [|done]. unfold flags. cbn. by destruct (negb _).
  - rewrite (decide_False (P := 116 = 101)), (decide_False (P := 116 = 100)), (decide_True (P := 116 = 116)) by done.
    rewrite Mo by (by destruct (negb _)).
    eexists _, s'. split; [reflexivity|]. split; [|done]. apply Fp; [|done]. unfold flags. cbn. by destruct (negb _).
Qed.

(** What the option that stops the reading does. *)
Definition ffinish (g : gopt) (st : fopts) (ret : Z) : fopts * Z * way :=
  if decide (g_opt g = 108) then (FOpts (isecrypt st) (isdecrypt st) (istrace st) true (file st), 0, Out)
  else if decide (g_opt g = 118 \/ g_opt g = 104) then (st, -2, Out)
  else (st, ret, ErrWay).

Definition stop_print (argv : list (list Z)) (g : gopt) : list Z :=
  if decide (g_opt g = 118) then version_text argv else if decide (g_opt g = 104) then file_usage else [].

(** Another mode than the one set is refused. *)
Lemma fstop_step argv s0 p c done g st ret s : is_mode c = true ->
  (if decide (done = []) then is_mode (g_opt g) = false else g_opt g <> c) -> fparsed s0 p c done st s ->
  exists s', same_but_heap s s' /\ cheap s' = cheap s /\ cout s' = cout s ++ stop_print argv g /\
    one_fopt argv g st ret s = Ret ((ffinish g st ret).1.1, (ffinish g st ret).1.2, Some (ffinish g st ret).2, s').
Proof.
  intros M Hg (_ & (F1 & F2 & F3 & F4) & _). unfold one_fopt, ffinish, stop_print.
  destruct (is_mode (g_opt g)) eqn:Mg.
  - assert (Hd : done <> []) by (intros ->; by rewrite decide_True in Hg). rewrite decide_False in Hg by done.
    apply bool_decide_eq_true in M, Mg.
    assert (Hb : negb (bool_decide (done = [])) = true) by (by rewrite bool_decide_eq_false_2). rewrite Hb in F1, F2, F3. cbn in F1, F2, F3.
    assert (Mo : forall clash set, clash = true -> mode_option clash g set st ret s = Ret (st, ret, Some ErrWay, s)) by (by intros clash set ->).
    rewrite (decide_False (P := g_opt g = 108)), (decide_False (P := g_opt g = 118 \/ g_opt g = 104)),
      (decide_False (P := g_opt g = 118)), (decide_False (P := g_opt g = 104)) by lia.
    exists s. rewrite app_nil_r. do 3 (split; [done|]). rewrite F1, F2, F3.
    destruct Mg as [Eg|[Eg|Eg]]; rewrite Eg in *; (destruct M as [-> |[-> | ->]]; [..]); try done; cbn; by rewrite Mo.
  - apply bool_decide_eq_false in Mg.
    rewrite (decide_False (P := g_opt g = 101)), (decide_False (P := g_opt g = 100)), (decide_False (P := g_opt g = 116)) by tauto.
    destruct (decide (g_opt g = 108)) as [E3|E3].
    { rewrite (decide_False (P := g_opt g = 118)), (decide_False (P := g_opt g = 104)) by lia. exists s. by rewrite app_nil_r. }
    destruct (decide (g_opt g = 118)) as [E1|E1].
    { rewrite decide_True by tauto. eexists. split; [|split; [|split; [|reflexivity]]]; done. }
    destruct (decide (g_opt g = 104)) as [E2|E2].
    { rewrite decide_True by tauto. eexists. split; [|split; [|split; [|reflexivity]]]; done. }
    rewrite decide_False by tauto. exists s. by rewrite app_nil_r.
Qed.

Lemma fparsed_same s0 p c done st s s' : fparsed s0 p c done st s -> same_but_heap s s' -> cheap s' = cheap s -> fparsed s0 p c done st s'.
Proof using Type.
  intros (S1 & F & P & O) S' H. unfold fparsed, owned in *. rewrite H. split_and!; try done. by etrans.
Qed.

(** The rest of the options once a mode is set. *)
Lemma same_run argv s0 p c gs : is_mode c = true -> Forall (fun g => is_mode (g_opt g) = true -> g_arg g <> None) gs ->
  forall done st index s, done <> [] -> fparsed s0 p c done st s -> exists st1 s1,
    fparsed s0 p c (done ++ same c gs) st1 s1 /\
    cout s1 = cout s ++ match after c gs with Some g => stop_print argv g | None => [] end /\
    match after c gs with
    | None => exists i, fopts_loop argv gs st 0 index s = Ret (st1, 0, EndOfOptions, i, s1)
    | Some g => let f := ffinish g st1 0 in fopts_loop argv gs st 0 index s = Ret (f.1.1, f.1.2, f.2, g_index g, s1)
    end.
Proof using alloc_ok.
  intros M. induction 1 as [|g gs Ar F IH]; intros done st index s Hd P; cbn [same after fopts_loop].
  - exists st, s. rewrite !app_nil_r. split; [done|]. split; [done|]. by exists index.
  - destruct (decide (g_opt g = c)) as [Eg|Eg].
    + destruct (mode_step argv s0 p c done g st 0 s M Eg) as (st' & s' & Er & P' & O'); [rewrite Eg in Ar; by apply Ar|done|].
      destruct (IH (done ++ [g]) st' (g_index g) s' ltac:(by destruct done) P') as (st1 & s1 & P1 & O1 & Ro).
      exists st1, s1. rewrite <- app_assoc in P1. split; [exact P1|]. split; [by rewrite O1, O'|].
      rewrite (bind_ret _ _ _ _ _ Er). exact Ro.
    + destruct (fstop_step argv s0 p c done g st 0 s M ltac:(by rewrite decide_False) P) as (s' & S' & H' & O' & Er).
      exists st, s'. rewrite app_nil_r. split; [by eapply fparsed_same|]. split; [done|]. cbn zeta.
      by rewrite (bind_ret _ _ _ _ _ Er).
Qed.

End FileParse.

Section FileCommand.
Context {HP FS E R : Type} `{!Allocator HP}.
Variable mdb : mdb_call -> ST E answer.
Variable redisCommand : Z -> list Z -> ST R (option redisReply).
Variable errstr : Z -> R -> list Z.
Variable cfg : config.
Variable io : faults.
Variable junk_ctx : AES_ctx.
Variable junk_buffer : list Z.
Variable basename : list Z -> list Z.
Variable junk_node : listNode.
Variable junk_dbi junk_gap : Z.
Variable junk_tail : list Z.
Variable list_fuel : nat.
Variable junk_key : list Z.
Abbreviation client := (client (HP := HP) (FS := FS) (E := E) (R := R)).
Implicit Types s : client.

Abbreviation encrypt := (file_encrypt mdb redisCommand errstr cfg io junk_ctx junk_buffer basename junk_node junk_dbi junk_gap junk_tail).
Abbreviation decrypt := (file_decrypt (FS := FS) (E := E) (R := R) io junk_ctx junk_buffer).
Abbreviation getfilelist := (file_getfilelist mdb list_fuel junk_key).

(** The command's own state with a file and nothing else. *)
Definition with_file (o : option (list Z)) : fopts := FOpts false false false false (as_cstring o).

(** What a verdict makes the command do; the results of the three are not looked at. *)
Definition perform_file (v : fverdict) : ST client Z :=
  match v with
  | FNothing r => mret r
  | FEncrypt path => _ ← encrypt (with_file path); mret 0
  | FDecrypt path => _ ← decrypt (with_file path); mret 0
  | FList => getfilelist;; mret 0
  end.

Lemma encrypt_points st o s : points (file st) o -> encrypt st s = encrypt (with_file o) s.
Proof.
  unfold points, file_encrypt. cbn [file with_file]. destruct o as [a|]; [intros [H1 H2]|by intros ->].
  rewrite decide_False by done. by rewrite H2.
Qed.

Lemma decrypt_points st o s : points (file st) o -> decrypt st s = decrypt (with_file o) s.
Proof.
  unfold points, file_decrypt. cbn [file with_file]. destruct o as [a|]; [intros [H1 H2]|by intros ->].
  rewrite decide_False by done. by rewrite H2.
Qed.

Lemma free_fstate_blocks p st s : p <> 0 -> free_state p st s = free_blocks (strings [file st] ++ [p]) s.
Proof.
  intros Hp. unfold free_state. rewrite decide_False by done. rewrite strings_cons_ok. change (strings []) with (@nil Z).
  rewrite app_nil_r, free_blocks_app. unfold mbind, ST_bind. rewrite free_string_blocks.
  destruct (free_blocks _ s) as [[[] s1]| | |]; try done. cbn. unfold mbind, ST_bind. by destruct (on_heap _ s1) as [[[] ?]| | |].
Qed.

Hypothesis alloc_ok : forall n (h : HP), exists p h', a_alloc n h = Ret (p, h') /\ p <> 0.

(** The code after [parse_options], up to [free_state]. *)
Definition dispatch (st : fopts) (ret : Z) : ST client Z :=
  if decide (ret = -2) then mret 0
  else if decide (ret = -1) then mret (-1)
  else (if isecrypt st then _ ← encrypt st; mret tt
        else if isgetlist st then getfilelist
        else if isdecrypt st then _ ← decrypt st; mret tt
        else mret tt);; mret ret.

Lemma dispatch_zero st v : (forall s, (if isecrypt st then _ ← encrypt st; mret tt
        else if isgetlist st then getfilelist else if isdecrypt st then _ ← decrypt st; mret tt else mret tt) s =
      (_ ← perform_file v; mret tt) s) -> (forall r, v = FNothing r -> r = 0) -> forall s, dispatch st 0 s = perform_file v s.
Proof.
  intros H Hr s. unfold dispatch. rewrite (decide_False (P := 0 = -2)), (decide_False (P := 0 = -1)) by lia.
  unfold mbind, ST_bind in *. rewrite H. destruct v as [r| | |]; cbn [perform_file].
  - by rewrite (Hr r eq_refl).
  - unfold mbind, ST_bind. by destruct (encrypt _ s) as [[? ?]| | |].
  - unfold mbind, ST_bind. by destruct (decrypt _ s) as [[? ?]| | |].
  - unfold mbind, ST_bind. by destruct (getfilelist s) as [[? ?]| | |].
Qed.

(** The mode [c] alone, or with "-l". *)
Lemma dispatch_mode s0 p c done st s1 b : is_mode c = true -> done <> [] -> fparsed s0 p c done st s1 ->
  forall s, dispatch (FOpts (isecrypt st) (isdecrypt st) (istrace st) b (file st)) 0 s =
    perform_file (if decide (b = true /\ c <> 101) then FList else act c (last_arg c done)) s.
Proof.
  intros M Hd (_ & (F1 & F2 & F3 & _) & P & _). rewrite bool_decide_eq_false_2 in F1, F2 by done. cbn [negb andb] in F1, F2.
  apply bool_decide_eq_true in M. unfold act.
  assert (Pe : forall s, encrypt (FOpts true false false b (file st)) s = encrypt (with_file (last_arg c done)) s)
    by (intros s; by apply encrypt_points).
  apply dispatch_zero.
  - intros s. cbn [isecrypt isgetlist isdecrypt]. rewrite F1, F2.
    destruct M as [-> |[-> | ->]]; cbn [bool_decide].
    + rewrite decide_False by tauto. rewrite bool_decide_eq_true_2, decide_True by done. cbn [perform_file].
      unfold mbind, ST_bind. rewrite (encrypt_points _ (last_arg 101 done)) by done.
      by destruct (encrypt _ s) as [[? ?]| | |].
    + rewrite bool_decide_eq_false_2, bool_decide_eq_true_2 by done. destruct b.
      * rewrite decide_True by done. cbn [perform_file]. unfold mbind, ST_bind. by destruct (getfilelist s) as [[[] ?]| | |].
      * rewrite decide_False by (intros []; done). rewrite (decide_False (P := 100 = 101)), (decide_True (P := 100 = 100)) by done.
        cbn [perform_file]. unfold mbind, ST_bind. rewrite (decrypt_points _ (last_arg 100 done)) by done.
        by destruct (decrypt _ s) as [[? ?]| | |].
    + rewrite !bool_decide_eq_false_2 by done. destruct b.
      * rewrite decide_True by done. cbn [perform_file]. unfold mbind, ST_bind. by destruct (getfilelist s) as [[[] ?]| | |].
      * rewrite decide_False by (intros []; done). rewrite (decide_False (P := 116 = 101)), (decide_False (P := 116 = 100)) by done. done.
  - intros r. destruct M as [-> |[-> | ->]], b; repeat case_decide; congruence.
Qed.

Lemma no_mode_dispatch st b s : st = init_fopts ->
  dispatch (FOpts (isecrypt st) (isdecrypt st) (istrace st) b (file st)) 0 s = perform_file (if b then FList else FNothing 0) s.
Proof.
  intros ->. apply dispatch_zero.
  - intros t. cbn. destruct b; [|done]. cbn [perform_file]. unfold mbind, ST_bind. by destruct (getfilelist t) as [[[] ?]| | |].
  - intros r. destruct b; congruence.
Qed.

Lemma getlist_id st : isgetlist st = false -> st = FOpts (isecrypt st) (isdecrypt st) (istrace st) false (file st).
Proof. intros H. destruct st; cbn in *. by rewrite H. Qed.

(** The options whose file is copied. *)
Definition copied (gs : list gopt) : list gopt :=
  match gs with g :: gs' => if is_mode (g_opt g) then g :: same (g_opt g) gs' else [] | [] => [] end.

(** Where the loop ends, the state and the result lead to the verdict. *)
Definition loop_ok argv gs s0 p s : Prop := exists st ret w i s1 lost,
  fopts_loop argv gs init_fopts (-1) 0 s = Ret (st, ret, w, i, s1) /\ same_but_heap s0 s1 /\
  cout s1 = cout s ++ match stop_of gs with Some g => stop_print argv g | None => [] end /\
  owned s0 s1 (strings [file st] ++ [p]) lost /\ length (strings [file st]) = (if decide (copied gs = []) then 0 else 1)%nat /\
  length (strings [file st] ++ lost) = length (copied gs) /\ forall t, dispatch st ret t = perform_file (judge_file gs) t.

Lemma last_arg_given c gs : gs <> [] -> Forall (fun g => g_opt g = c /\ g_arg g <> None) gs -> last_arg c gs = None -> False.
Proof using Type.
  intros Hn F. unfold last_arg. destruct F as [|g gs [E1 E2] F]; [done|]. cbn. rewrite decide_True by done.
  destruct (g_arg g) as [a|]; [|done]. by intros H%last_None.
Qed.

Lemma loop_mode argv g gs s0 p s : is_mode (g_opt g) = true -> Forall (fun g => is_mode (g_opt g) = true -> g_arg g <> None) (g :: gs) ->
  fparsed s0 p (g_opt g) [] init_fopts s -> loop_ok argv (g :: gs) s0 p s.
Proof using alloc_ok.
  intros M F P0. apply Forall_cons in F as [Ag F].
  destruct (mode_step alloc_ok argv s0 p (g_opt g) [] g init_fopts (-1) s M eq_refl (Ag M) P0) as (st & s1 & Er & P & O1).
  destruct (same_run alloc_ok argv s0 p (g_opt g) gs M F [g] st (g_index g) s1 ltac:(done) P) as (st1 & s2 & P2 & O2 & Ro).
  assert (Hd : [g] ++ same (g_opt g) gs <> []) by done. pose proof P2 as (S2 & (_ & _ & _ & F4) & Pt & lost & Ow & Ln).
  pose proof (fun b => dispatch_mode s0 p (g_opt g) _ st1 s2 b M Hd P2) as D.
  assert (Lf : length (strings [file st1]) = 1%nat).
  { rewrite (strings_points _ _ Pt). destruct (last_arg _ _) as [a|] eqn:El; [done|]. exfalso.
    apply (last_arg_given (g_opt g) ([g] ++ same (g_opt g) gs)) in El; [done|done|].
    constructor; [by split; [|apply Ag]|]. clear -F M. induction F as [|h gs Hh _ IH]; cbn [same]; [done|].
    case_decide as Eh; [|done]. constructor; [|done]. split; [done|]. apply Hh. by rewrite Eh. }
  unfold loop_ok, copied. rewrite M. cbn [fopts_loop judge_file stop_of]. rewrite (bind_ret _ _ _ _ _ Er), M. cbn beta iota zeta. cbn [app] in *.
  rewrite (decide_False (P := g :: same (g_opt g) gs = [])) by done.
  destruct (after (g_opt g) gs) as [h|] eqn:Ea.
  - rewrite Ro. cbn zeta. unfold ffinish. destruct (decide (g_opt h = 108)) as [E8|E8].
    + do 6 eexists. split; [reflexivity|]. split; [done|]. split; [by rewrite O2, O1|]. split; [exact Ow|]. split; [exact Lf|]. split; [exact Ln|].
      intros t. cbn [fst snd]. rewrite D. rewrite (decide_False (P := g_opt h = 118 \/ g_opt h = 104)) by lia.
      destruct (decide (g_opt g = 101)) as [E1|E1]; [rewrite !decide_False by tauto|rewrite !decide_True by tauto]; done.
    + destruct (decide (g_opt h = 118 \/ g_opt h = 104)) as [E4|E4];
        (do 6 eexists; split; [reflexivity|]; split; [done|]; split; [by rewrite O2, O1|]; split; [exact Ow|]; split; [exact Lf|]; split; [exact Ln|]; intros t; cbn [fst snd]).
      * done.
      * rewrite (decide_False (P := g_opt h = 108 /\ _)) by tauto. rewrite (getlist_id st1 F4) at 1. rewrite D.
        by rewrite decide_False by (intros []; done).
  - destruct Ro as [i Ro]. rewrite Ro. do 6 eexists. split; [reflexivity|]. split; [done|]. split; [by rewrite O2, O1|]. split; [exact Ow|].
    split; [exact Lf|]. split; [exact Ln|].
    intros t. rewrite (getlist_id st1 F4) at 1. rewrite D. by rewrite decide_False by (intros []; done).
Qed.

Lemma loop_no_mode argv g gs s0 p s : is_mode (g_opt g) = false -> fparsed s0 p 101 [] init_fopts s -> loop_ok argv (g :: gs) s0 p s.
Proof using Type.
  intros M P0. destruct (fstop_step argv s0 p 101 [] g init_fopts (-1) s eq_refl M P0) as (s1 & S1 & H1 & O1 & Er).
  destruct (fparsed_same s0 p 101 [] init_fopts s s1 P0 S1 H1) as (S2 & _ & _ & lost & Ow & Ln).
  unfold loop_ok, copied. rewrite M. cbn [fopts_loop judge_file stop_of]. rewrite (bind_ret _ _ _ _ _ Er), M. cbn beta iota zeta. unfold ffinish.
  do 6 eexists. split; [reflexivity|]. split; [done|]. split; [done|].
  destruct (decide (g_opt g = 108)) as [E8|E8].
  - rewrite (decide_False (P := g_opt g = 118 \/ g_opt g = 104)) by lia. split; [exact Ow|]. split; [done|]. split; [exact Ln|].
    intros t. exact (no_mode_dispatch init_fopts true t eq_refl).
  - destruct (decide (g_opt g = 118 \/ g_opt g = 104)); (split; [exact Ow|]; split; [done|]; split; [exact Ln|]; done).
Qed.

(** The results of [getopt_long]. *)
Variable getopt_long : list (list Z) -> list gopt.

Lemma do_file_run argv s : last_empty argv = Ret false ->
  Forall (fun g => is_mode (g_opt g) = true -> g_arg g <> None) (getopt_long argv) ->
  exists s1 bs lost, same_but_heap s s1 /\ cout s1 = cout s ++ judge_file_text argv (getopt_long argv) /\ owned s s1 bs lost /\
    length bs = (if decide (copied (getopt_long argv) = []) then 1 else 2)%nat /\ length (bs ++ lost) = S (length (copied (getopt_long argv))) /\
    do_file getopt_long mdb redisCommand errstr cfg io junk_ctx junk_buffer basename junk_node junk_dbi junk_gap junk_tail list_fuel junk_key
      argv s = (r ← perform_file (judge_file (getopt_long argv)); free_blocks bs;; mret r) s1.
Proof using alloc_ok.
  intros La F. destruct (alloc_step alloc_ok sizeof_fopts s) as (p & s0 & A & S0 & O0 & Hp & Np & L0).
  assert (Ow : owned s s0 [p] []) by (apply (owned_new s s s0 p []); [by apply owned_nil|done..]).
  assert (P0 : forall c, fparsed s p c [] init_fopts s0) by (intros c; split; [done|]; split; [done|]; split; [done|]; by exists []).
  assert (Lo : loop_ok argv (getopt_long argv) s p s0).
  { destruct (getopt_long argv) as [|g gs].
    - exists init_fopts, (-1), EndOfOptions, 0, s0, []. split; [done|]. split; [done|]. split; [by rewrite app_nil_r|]. done.
    - destruct (is_mode (g_opt g)) eqn:M; [by apply loop_mode|by apply loop_no_mode]. }
  destruct Lo as (st & ret & w & i & s1 & lost & Er & S1 & O1 & Ow1 & Lf & Ln & D). exists s1, (strings [file st] ++ [p]), lost.
  split; [done|]. split; [by rewrite O1, O0|]. split; [done|].
  split; [rewrite length_app, Lf; by case_decide|]. split; [rewrite !length_app in *; cbn [length]; lia|].
  assert (Pa : parse_options getopt_long argv init_fopts s0 = Ret (st, ret, s1)).
  { unfold parse_options. unfold mbind at 1, ST_bind at 1. unfold clift at 1. rewrite La. cbn [mbind outcome_bind].
    rewrite (bind_ret _ _ _ _ _ Er). destruct w; [done|done|]. cbn beta iota. by destruct (decide (_ < 2)). }
  unfold do_file, init_state. rewrite (bind_ret _ _ _ _ _ A). rewrite (decide_False (P := p = 0)) by done.
  rewrite (bind_ret _ _ _ _ _ Pa). cbn beta iota. fold (dispatch st ret). unfold mbind at 1 3, ST_bind at 1 3. rewrite D.
  destruct (perform_file _ s1) as [[r s2]| | |]; try done. unfold mbind, ST_bind. by rewrite free_fstate_blocks.
Qed.

End FileCommand.

(** ** Properties *)

(** C23: the file command, for every sequence of results of [getopt_long] and
    when no allocation fails, does what [judge_file] says of the options, and
    then gives back its state and the string it holds, each of them once: they are blocks of its own, one for
    the state and one for the last file when one was given; the strings that an option given again has
    replaced are lost, and there is no other new block.  Before that nothing but the heap and the output has
    changed.  The verdict: no option, or an unknown one first, is an error;
    "-v" and "-h" do nothing more; the first of "-e", "-d" and "-t" decides
    what is done and with the last file it is given, up to an option of
    another kind, which is no error: "-e a -d b" encrypts a; "-l" lists unless
    "-e" comes before it, and "-t" does nothing.  The command gives 0 whatever
    comes of the encryption or decryption. *)
Theorem do_file_spec {HP FS E R : Type} `{!Allocator HP} getopt_long mdb redisCommand errstr cfg io junk_ctx junk_buffer basename
    junk_node junk_dbi junk_gap junk_tail list_fuel junk_key argv (s : client (HP := HP) (FS := FS) (E := E) (R := R)) :
  (forall n (h : HP), exists p h', a_alloc n h = Ret (p, h') /\ p <> 0) -> last_empty argv = Ret false ->
  Forall (fun g => is_mode (g_opt g) = true -> g_arg g <> None) (getopt_long argv) ->
  exists s1 bs lost, same_but_heap s s1 /\ cout s1 = cout s ++ judge_file_text argv (getopt_long argv) /\ owned s s1 bs lost /\
    length bs = (if decide (copied (getopt_long argv) = []) then 1 else 2)%nat /\ length (bs ++ lost) = S (length (copied (getopt_long argv))) /\
    do_file getopt_long mdb redisCommand errstr cfg io junk_ctx junk_buffer basename junk_node junk_dbi junk_gap junk_tail list_fuel
      junk_key argv s =
    (r ← perform_file mdb redisCommand errstr cfg io junk_ctx junk_buffer basename junk_node junk_dbi junk_gap junk_tail list_fuel
       junk_key (judge_file (getopt_long argv));
     free_blocks bs;; mret r) s1.
Proof.
  intros A. exact (do_file_run mdb redisCommand errstr cfg io junk_ctx junk_buffer basename junk_node junk_dbi junk_gap junk_tail
    list_fuel junk_key A getopt_long argv s).
Qed.

(** C2: encrypting a file of at most 100M, which the system lets be examined, opened and read, with a user logged in, over all the
    components, when no allocation fails and the server and LMDB answer whatever they answer.  The file then holds its AES-128 ECB encryption
    under the user's key.  When the XXH64 of that is 0, the command gives -1 and nothing is recorded.  Otherwise the record is the
    path, its base name and that hash: exactly two blocks are allocated, the one of the record and a node for it, which is
    at the head of the list; the server has been sent the record once; and LMDB has had the conversation
    that stores it in the user's data base, with a commit exactly when it accepted the put, under a key read from the record itself
    and not from the text "user:id".  When that text has more than 16
    characters the key reaches past the record and the behaviour is
    undefined. *)
Theorem file_encrypt_spec {HP FS E R : Type} `{!Allocator HP} mdb redisCommand errstr cfg io junk_ctx junk_buffer basename
    junk_node junk_dbi junk_gap junk_tail st (s : client (HP := HP) (FS := FS) (E := E) (R := R))
    path d u name key id c a dd dbn ms xs :
  (forall n (h : HP), exists p h', a_alloc n h = Ret (p, h') /\ p <> 0) ->
  (forall c t r, exists o r', redisCommand c t r = Ret (o, r')) -> (forall c e, exists a e', mdb c e = Ret (a, e')) ->
  (file st).1 <> 0 -> (file st).2 = path ->
  encrypt_ready io junk_ctx basename junk_tail s path d u name key id c a dd dbn ms xs ->
  let run := file_encrypt mdb redisCommand errstr cfg io junk_ctx junk_buffer basename junk_node junk_dbi junk_gap junk_tail st in
  let e := ciphertext key d in
  if decide (file_hash e = 0) then exists s', run s = Ret (-1, s') /\
     same_owner s s' /\ a_live (cheap s') = a_live (cheap s) /\ c_files s' = <[path := e]> (c_files s) /\
     c_lists s' = c_lists s /\ c_net s' = c_net s /\ c_db s' = c_db s
  else if decide (16 < Z.of_nat (length (name ++ [58] ++ dec (file_hash e)))) then run s = Undef
  else exists s' q kf, run s = Ret (0, s') /\
     encrypt_done mdb redisCommand basename junk_dbi junk_gap junk_tail s path d name key id c dd dbn ms xs q kf s' /\
     a_live (cheap s') = {[q; kf]} ∪ a_live (cheap s).
Proof.
  intros A B C. exact (file_encrypt_run mdb redisCommand errstr cfg io junk_ctx junk_buffer basename junk_node junk_dbi junk_gap
    junk_tail A B C st s path d u name key id c a dd dbn ms xs).
Qed.

(** "file -e a -d b" with the client of the user command: "a" is encrypted, and two blocks are freed. *)
Lemma do_file_spec_witness : exists s1 a b, owned client_demo s1 [a; b] [] /\
  do_file (fun _ => [Gopt 101 (Some [97]) 0; Gopt 100 (Some [98]) 0]) (fun _ e => Ret (Answer 0 0 [] [], e)) log_server
    (fun _ _ => []) default_config no_faults Aes.ctx0 [] (fun p => p) (Node 0 0 0) 0 0 [0; 0; 0; 0] 0 [] [[102]; [98]] client_demo =
  (r ← perform_file (fun _ e => Ret (Answer 0 0 [] [], e)) log_server
    (fun _ _ => []) default_config no_faults Aes.ctx0 [] (fun p => p) (Node 0 0 0) 0 0 [0; 0; 0; 0] 0 [] (FEncrypt (Some [97]));
   free_blocks [a; b];; mret r) s1.
Proof.
  destruct (do_file_spec (fun _ => [Gopt 101 (Some [97]) 0; Gopt 100 (Some [98]) 0]) (fun _ e => Ret (Answer 0 0 [] [], e))
    log_server (fun _ _ => []) default_config no_faults Aes.ctx0 [] (fun p => p) (Node 0 0 0) 0 0 [0; 0; 0; 0] 0 [] [[102]; [98]]
    client_demo endless_ok eq_refl ltac:(repeat constructor; discriminate)) as (s1 & bs & lost & _ & _ & O & L1 & L2 & Er).
  destruct bs as [|a [|b [|? ?]]]; try discriminate L1. destruct lost as [|? ?]; try discriminate L2.
  exists s1, a, b. split; [exact O|]. rewrite Er. reflexivity.
Defined.

(** A client with the user "b", a key, a node, a connection, a data base, an empty list and the
    file "a" of three bytes, whose encryption has a hash of 14 digits; the blocks have the addresses 1 to 6. *)
Definition user_b : kxuser := User.KxUser (98 :: replicate 100 0) 1 1 3.
Definition client_b : client (HP := gset Z) (FS := unit) (E := list entry * list entry) (R := list (list Z)) :=
  Client {[ 1; 2; 3; 4; 5; 6 ]} [] 1 2 4 5 6
    (UState ∅ {[ 1 := replicate 67 0 ]} {[ 2 := user_b ]} {[ 3 := key128 ]} 1)
    {[ [97] := [0; 78; 110] ]}
    (Adlist.Store ∅ ∅ {[ 6 := CList 0 0 no_methods 0 ]} ∅ [])
    (Net ∅ [] {[ 4 := 1 ]} acs0 0 [])
    (DState ∅ tt ([], []) {[ 5 := demo_db ]} [] []).

Lemma client_b_ready : encrypt_ready no_faults Aes.ctx0 (fun p => p) [0; 0; 0; 0] client_b [97] [0; 78; 110] user_b [98] key128 [] 1
  (Action FILE_CRYPT (cmdline (default (Action FILE_CRYPT [] None) (acs0 !! 5%nat))) (Some KxSetReply)) demo_db [117] no_methods [].
Proof.
  split.
  - reflexivity.
  - reflexivity.
  - split; [reflexivity..|]. exists (replicate 67 0). split; reflexivity.
  - split; (apply (bool_decide_unpack _); vm_compute; exact I).
  - by repeat constructor.
  - apply (bool_decide_unpack _); vm_compute; exact I.
  - reflexivity.
  - done.
  - discriminate.
  - split; [by repeat constructor|]. apply Nat.ltb_lt. reflexivity.
  - split; [by repeat constructor|]. apply Nat.ltb_lt. reflexivity.
  - reflexivity.
  - reflexivity.
  - split; reflexivity.
  - reflexivity.
  - reflexivity.
  - reflexivity.
  - split; [|split]; intros a [x H].
    + unfold lists_of in H. cbn in H. by rewrite lookup_empty in H.
    + cbn in H. apply lookup_singleton_Some in H as [<- _]. split; [|done]. apply (bool_decide_unpack _). vm_compute. exact I.
    + unfold lists_of in H. cbn in H. by rewrite lookup_empty in H.
  - split; [reflexivity|]. split; [constructor|]. split; [apply not_elem_of_nil|]. split; [done|reflexivity].
  - reflexivity.
Qed.

(** The run, with the hash of the encrypted file evaluated: the list has the new node, and LMDB has stored the record and got its four calls. *)
Lemma file_encrypt_spec_witness :
  exists s' q kf, file_encrypt mem_mdb log_server (fun _ _ => []) default_config no_faults Aes.ctx0 [] (fun p => p) (Node 0 0 0) 0 0 [0; 0; 0; 0]
    (with_file (Some [97])) client_b = Ret (0, s') /\ c_files s' !! [97] = Some (ciphertext key128 [0; 78; 110]) /\
    rep (lists_of s') 6 no_methods [(q, kf)] /\ new_block client_b kf s' /\ length (calls (c_db s')) = 4%nat.
Proof.
  assert (V : match file_encrypt mem_mdb log_server (fun _ _ => []) default_config no_faults Aes.ctx0 [] (fun p => p) (Node 0 0 0) 0 0
    [0; 0; 0; 0] (with_file (Some [97])) client_b with Ret (r, s') => bool_decide (r = 0 /\ length (calls (c_db s')) = 4%nat) | _ => false end = true)
    by (vm_compute; reflexivity).
  pose proof (file_encrypt_spec mem_mdb log_server (fun _ _ => []) default_config no_faults Aes.ctx0 [] (fun p => p) (Node 0 0 0) 0 0
    [0; 0; 0; 0] (with_file (Some [97])) client_b [97] [0; 78; 110] user_b [98] key128 [] 1 _ demo_db [117] no_methods []
    endless_ok ltac:(by eexists _, _) mem_answers ltac:(done) eq_refl client_b_ready) as H. cbv zeta in H.
  destruct (decide (file_hash _ = 0)) in H.
  { destruct H as (s' & Er & _). rewrite Er in V. apply bool_decide_eq_true in V as [V _]. discriminate V. }
  destruct (decide _) in H; [rewrite H in V; discriminate V|].
  destruct H as (s' & q & kf & Er & (O & _ & F & Rp & Nk & _) & _). rewrite Er in V. apply bool_decide_eq_true in V as [_ V].
  exists s', q, kf. split; [exact Er|]. split; [rewrite F; apply lookup_insert_eq|]. destruct O as (_ & _ & _ & _ & _ & _ & _ & Lc). rewrite Lc in Rp.
  split; [exact Rp|]. split; [exact Nk|exact V].
Defined.
