(* ===== verification/Rkx.v ===== *)
(** * The program (src/src/rkx.c)

    The start of the client, what main does before and after the threads meet
    (the meeting is in Mq.v), and a session of the commands: what registering
    a user leaves for the encryption of a file, and what decrypting gives. *)

From Stdlib Require Import ZArith Lia Ascii String.
From stdpp Require Import prelude gmap.
From S2P Require Import Prelude.
From S2P Require Import Terminal.
From S2P Require Import History.
From S2P Require Import Linenoise.
From S2P Require Import Adlist.
From S2P Require Import Aes.
From S2P Require Import Xxhash.
From S2P Require Import FileCrypt.
From S2P Require Import User.
From S2P Require Import Shell.
From S2P Require Import Net.
From S2P Require Import Db.
From S2P Require Import Mq.
From S2P Require Import Client.
From S2P Require Import KxUser.
From S2P Require Import KxFile.

(** The banner. *)
Open Scope string_scope.
Definition usage : list Z := concat (text <$> [String "010" "";
  "    __              __"; String "010" "";
  "   / /___  ____  __/ /__      Server ip: %s"; String "010" "";
  "  / //_/ |/_/ / / / //_/      Author   : %s"; String "010" "";
  " / ,< _>  </ /_/ / ,<         Version  : 0.0.1"; String "010" "";
  "/_/|_/_/|_|\__, /_/|_|"; String "010" "";
  "          /____/  "; String "010" (String "010" "")])%list.
Definition author : list Z := text "Yan RuiBing".
Close Scope string_scope.

Section Rkx.
Context {HP FS E R Q : Type} `{!Allocator HP}.

(** The system, the libraries, and old contents of blocks, as in the components. *)
Variable sys : system.
Variable junk : nat -> list Z.
Variable junk_list : clist.
Variable redisConnectWithTimeout : list Z -> Z -> ST R Z.
Variable redisFree : Z -> ST R unit.
Variable err : Z -> R -> bool.
Variable errstr : Z -> R -> list Z.
Variable mosquitto : mosq_call -> ST Q Z.

Abbreviation client := (client (HP := HP) (FS := FS) (E := E) (R := R)).

(** The fields of [struct kxclient] that the commands do not use, with what MQTT holds; the heap
    and the output of [p_mq] are those of the client. *)
Record program := Program {
  p_client : client;
  mq : Z;
  remote_cryptfiles : Z;
  p_mq : mqstate (HP := HP) (Q := Q)
}.

Definition on_client {A} (m : ST client A) : ST program A := fun s =>
  '(a, c) ← m (p_client s); Ret (a, Program c (mq s) (remote_cryptfiles s) (p_mq s)).

Definition on_mq {A} (m : ST (mqstate (HP := HP) (Q := Q)) A) : ST program A := fun s =>
  let c := p_client s in
  '(a, k) ← m (MqState (cheap c) (broker (p_mq s)) (mqs (p_mq s)) (cout c) (mcalls (p_mq s)));
  Ret (a, Program (Client (mheap k) (mout k) (node c) (user c) (net_p c) (db c) (local_cryptfiles c)
            (c_user c) (c_files c) (c_lists c) (c_net c) (c_db c)) (mq s) (remote_cryptfiles s) k).

Definition set_node (p : Z) : ST client unit :=
  modify (fun s => Client (cheap s) (cout s) p (user s) (net_p s) (db s) (local_cryptfiles s)
            (c_user s) (c_files s) (c_lists s) (c_net s) (c_db s)).
Definition set_net (p : Z) : ST client unit :=
  modify (fun s => Client (cheap s) (cout s) (node s) (user s) p (db s) (local_cryptfiles s)
            (c_user s) (c_files s) (c_lists s) (c_net s) (c_db s)).
Definition set_local (p : Z) : ST client unit :=
  modify (fun s => Client (cheap s) (cout s) (node s) (user s) (net_p s) (db s) p
            (c_user s) (c_files s) (c_lists s) (c_net s) (c_db s)).
Definition set_remote (p : Z) : ST program unit :=
  modify (fun s => Program (p_client s) (mq s) p (p_mq s)).
Definition set_mq (p : Z) : ST program unit :=
  modify (fun s => Program (p_client s) p (remote_cryptfiles s) (p_mq s)).

(** ** rkx_init *)

Definition rkx_init : ST program unit :=
  l ← on_client (on_lists (listCreate junk_list));
  on_client (set_local l);;
  r ← on_client (on_lists (listCreate junk_list));
  set_remote r;;
  n ← on_client (on_user (kx_creat_node junk sys));
  on_client (set_node n);;
  on_client (set_user 0);;
  p ← on_client (on_net (kx_sync_creat_net redisConnectWithTimeout redisFree err errstr loopback_host 6379));
  on_client (set_net p);;
  on_client (set_db 0);;
  m ← on_mq (rkx_init_mq mosquitto);
  set_mq m.

(** ** main *)

(** Up to the creation of the thread. *)
Definition main_begin : ST program unit :=
  t ← on_client (clift (vformat usage [AStr loopback_host; AStr author]));
  on_client (cprint t);;
  rkx_init.

Definition sizeof_context : Z := 24.

(** From the end of the wait: the context, the shell, and what is given back;
    [fuel] bounds the rounds of the shell.  The array of arguments has no identity here. *)
Variables do_user do_file : list (list Z) -> ST client Z.
Variables system chdir : list Z -> ST program Z.
Variable junk_command : nat -> list Z.
Variable junk_line : list Z.

Definition main_end (fuel : nat) : ST (shell (W := program)) Z :=
  gctx ← on_world (on_client (on_heap (a_alloc sizeof_context)));
  if decide (gctx = 0) then undef else
  kx_loop (fun argv => on_client (do_user argv)) (fun argv => on_client (do_file argv)) system chdir junk_command junk_line fuel;;
  p ← on_world (on_client (gets net_p));
  on_world (on_client (on_net (kx_free_net redisFree p)));;
  m ← on_world (gets mq);
  on_world (on_mq (kx_mq_free mosquitto m));;
  on_world (on_client (on_heap (a_free gctx)));;
  mret 0.

End Rkx.

(** ** The start: the steps *)

Section Start.
Context {HP FS E R Q : Type} `{!Allocator HP}.
Variable sys : system.
Variable junk : nat -> list Z.
Variable junk_list : clist.
Variable redisConnectWithTimeout : list Z -> Z -> ST R Z.
Variable redisFree : Z -> ST R unit.
Variable err : Z -> R -> bool.
Variable errstr : Z -> R -> list Z.
Variable mosquitto : mosq_call -> ST Q Z.
Abbreviation client := (client (HP := HP) (FS := FS) (E := E) (R := R)).
Abbreviation program := (program (HP := HP) (FS := FS) (E := E) (R := R) (Q := Q)).
Implicit Types s : client.

Hypothesis alloc_ok : forall n (h : HP), exists p h', a_alloc n h = Ret (p, h') /\ p <> 0.
Hypothesis junk_length : forall n, length (junk n) = n.
Hypothesis mac_ok : forall a, hwaddr sys = Some a -> bytes a /\ length a = 6%nat.

(** More may be live, and the pointers are as they were. *)
Definition grown s s' : Prop :=
  a_live (cheap s) ⊆ a_live (cheap s') /\ node s' = node s /\ user s' = user s /\ net_p s' = net_p s /\ db s' = db s /\
  local_cryptfiles s' = local_cryptfiles s /\ c_files s' = c_files s.

#[export] Instance grown_preorder : PreOrder grown.
Proof.
  split; [by intros s|]. intros s t v (?&?&?&?&?&?&?) (?&?&?&?&?&?&?). unfold grown. split_and!; try congruence. by etrans.
Qed.

Lemma grown_wf s s' : grown s s' -> c_lists s' = c_lists s -> wf (lists_of s) -> wf (lists_of s').
Proof. intros (L & _) C W. pose proof (wf_grows (lists_of s) (cheap s') W L) as W'. unfold lists_of in *. by rewrite C. Qed.

Lemma same_lists_rep s s' l ms xs : c_lists s' = c_lists s -> rep (lists_of s) l ms xs -> rep (lists_of s') l ms xs.
Proof. unfold rep, lists_of. by intros ->. Qed.

(** Creating a list. *)
Lemma creat_list_step s : wf (lists_of s) -> exists p s', on_lists (listCreate junk_list) s = Ret (p, s') /\ (p ∉ a_live (cheap s)) /\
  grown s s' /\ wf (lists_of s') /\ rep (lists_of s') p no_methods [] /\
  (forall l ms xs, rep (lists_of s) l ms xs -> rep (lists_of s') l ms xs) /\
  c_user s' = c_user s /\ c_net s' = c_net s /\ c_db s' = c_db s.
Proof using alloc_ok.
  intros W. destruct (alloc_ok 48 (cheap s)) as (p & h & A & Hp). destruct (a_alloc_fresh _ _ _ _ A Hp) as [N Lh].
  pose proof (listCreate_run junk_list (lists_of s) p h A) as Er. rewrite decide_False in Er by done.
  destruct (listCreate_post (lists_of s) p h W A Hp) as (Rp & W' & Pr). cbv zeta in *.
  eexists p, _. split; [unfold on_lists; fold (lists_of s); rewrite Er; reflexivity|]. split; [exact N|].
  split; [split; [cbn; rewrite Lh; apply union_subseteq_r|done]|].
  split; [exact W'|]. split; [exact Rp|]. split; [|done]. intros l ms xs. exact (rep_preserved _ _ _ _ _ W Pr).
Qed.

(** Creating the node. *)
Lemma creat_node_step s id : machine_id sys = Some id -> id <> [] -> nonul id ->
  exists p s' m, on_user (kx_creat_node junk sys) s = Ret (p, s') /\ node_of junk sys id m /\ grown s s' /\
  User.nodes (c_user s') = <[p := m]> (User.nodes (c_user s)) /\ gnode (c_user s') = p /\
  c_lists s' = c_lists s /\ c_net s' = c_net s /\ c_db s' = c_db s.
Proof using alloc_ok junk_length mac_ok.
  intros Em Ne Nn. destruct (alloc_ok (Z.of_nat sizeof_kxnode) (cheap s)) as (p & h & A & Hp).
  destruct (a_alloc_fresh _ _ _ _ A Hp) as [N Lh].
  destruct (creat_node_run junk junk_length sys id p h
    (UState (cheap s) (User.nodes (c_user s)) (users (c_user s)) (keys (c_user s)) (gnode (c_user s))) mac_ok A Hp Em Ne Nn)
    as (m & Er & Hm).
  eexists p, _, m. split; [unfold on_user; rewrite Er; reflexivity|]. split; [exact Hm|].
  split; [split; [cbn; rewrite Lh; apply union_subseteq_r|done]|]. done.
Qed.

(** Connecting: a context without an error, or the end of the process. *)
Lemma creat_net_step s addr port : (forall c r, exists r', redisFree c r = Ret (tt, r')) ->
  match redisConnectWithTimeout addr port (redis (c_net s)) with
  | Ret (c, r) =>
      if decide (c = 0 \/ err c r = true)
      then on_net (kx_sync_creat_net redisConnectWithTimeout redisFree err errstr addr port) s = Abort
      else exists p s', on_net (kx_sync_creat_net redisConnectWithTimeout redisFree err errstr addr port) s = Ret (p, s') /\
        grown s s' /\ contexts (c_net s') !! p = Some c /\ redis (c_net s') = r /\ acs (c_net s') = acs (c_net s) /\
        c_user s' = c_user s /\ c_lists s' = c_lists s /\ c_db s' = c_db s
  | _ => True
  end.
Proof using alloc_ok.
  intros Rf. destruct (redisConnectWithTimeout addr port (redis (c_net s))) as [[c r]| | |] eqn:Ec; try done.
  destruct (alloc_ok sizeof_kxsyncnet (cheap s)) as (p & h & A & Hp). destruct (a_alloc_fresh _ _ _ _ A Hp) as [N Lh].
  unfold on_net. set (n := Net (cheap s) (redis (c_net s)) (contexts (c_net s)) (acs (c_net s)) (live_replies (c_net s)) (cout s)).
  unfold kx_sync_creat_net.
  rewrite (bind_ret _ _ n p (Net h (redis n) (contexts n) (acs n) (live_replies n) (nout n)))
    by (unfold on_nheap; cbn [nheap n]; by rewrite A).
  rewrite (decide_False (P := p = 0)) by done.
  rewrite (bind_ret _ _ _ c (Net h r (contexts n) (acs n) (live_replies n) (nout n)))
    by (unfold on_redis; cbn [redis n]; by rewrite Ec).
  rewrite (bind_ret _ _ _ tt (Net h r (<[p := c]> (contexts n)) (acs n) (live_replies n) (nout n))) by done.
  rewrite (bind_ret _ _ _ (err c r) (Net h r (<[p := c]> (contexts n)) (acs n) (live_replies n) (nout n))) by done.
  destruct (decide (c = 0 \/ err c r = true)) as [Hb|Hb].
  - destruct (decide (c <> 0)) as [Hc|Hc]; [|done].
    destruct (Rf c r) as [r' Er]. unfold mbind, ST_bind, gets, nprint, modify, on_redis. cbn. by rewrite Er.
  - eexists p, _. split; [reflexivity|]. cbn [c_net contexts redis acs c_user c_lists c_db].
    split; [split; [cbn; rewrite Lh; apply union_subseteq_r|done]|]. split; [apply lookup_insert_eq|done].
Qed.


(** Every call of mosquitto returns, and [mosquitto_new] has memory. *)
Hypothesis mosq_answers : forall c q, exists r q', mosquitto c q = Ret (r, q').
Hypothesis mosq_new : forall o q m q', mosquitto (New true o) q = Ret (m, q') -> m <> 0.

Abbreviation mqstate := (mqstate (HP := HP) (Q := Q)).

(** A call of mosquitto is recorded. *)
Definition mq_called (k : mqstate) (cs : list mosq_call) (k' : mqstate) : Prop :=
  mheap k' = mheap k /\ mqs k' = mqs k /\ mout k' = mout k /\ mcalls k' = mcalls k ++ cs.

Lemma mcall_step c k : runs (mcall mosquitto c) k (fun r k' => mq_called k [c] k' /\ mosquitto c (broker k) = Ret (r, broker k')).
Proof using mosq_answers.
  destruct (mosq_answers c (broker k)) as (r & q & Er). eexists r, _.
  split; [unfold mcall; rewrite Er; reflexivity|]. done.
Qed.

Lemma mq_called_trans k k1 k2 c1 c2 : mq_called k c1 k1 -> mq_called k1 c2 k2 -> mq_called k (c1 ++ c2) k2.
Proof. intros (?&?&?&E1) (?&?&?&E2). unfold mq_called. rewrite E2, E1. split_and!; [congruence..|by rewrite <- app_assoc]. Qed.

(** A setter of a callback that keeps nothing. *)
Lemma setter_step (c : mosq_call) (f : kxmq -> mosq_call) kq x k : mqs k !! kq = Some x -> f x = c ->
  runs (y ← deref_mq kq; _ ← mcall mosquitto (f y); mret tt) k (fun _ k' => mq_called k [c] k').
Proof using mosq_answers.
  intros K Ef. apply runs_bind. eexists x, k. split; [unfold deref_mq; by rewrite K|].
  apply runs_bind. rewrite Ef. eapply runs_mono; [apply mcall_step|]. intros r k' [C _]. by apply runs_ret.
Qed.

(** The MQTT part of the start: the calls, in order, and the object. *)
Definition mq_started (k : mqstate) (kq : Z) (k' : mqstate) : Prop :=
  kq <> 0 /\ (kq ∉ a_live (mheap k)) /\ a_live (mheap k') = {[kq]} ∪ a_live (mheap k) /\ mout k' = mout k /\
  exists m h t, mqs k' = <[kq := KxMq m 60 h 1883 t (Some RkxConnect) None None None]> (mqs k) /\
    (h = None \/ h = Some loopback_host) /\ (t = None \/ t = Some test_topic) /\
    mcalls k' = mcalls k ++ [LibInit; New true kq; Strdup loopback_host; Strdup test_topic;
      SetConnect m (Some RkxConnect); SetSubscribe m (Some RkxSubscribe); SetMessage m (Some RkxMessage)].

Lemma init_mq_step k : runs (rkx_init_mq mosquitto) k (mq_started k).
Proof using alloc_ok mosq_answers mosq_new.
  destruct (alloc_ok sizeof_kxmq (mheap k)) as (kq & h & A & Hk). destruct (a_alloc_fresh _ _ _ _ A Hk) as [N Lh].
  unfold rkx_init_mq, kx_mq_init. apply runs_bind, runs_bind.
  eexists kq, _. split; [unfold on_mheap; rewrite A; reflexivity|]. rewrite decide_False by done. set (k0 := MqState h _ _ _ _).
  apply runs_bind. eapply runs_mono; [apply mcall_step|]. intros r1 k1 [C1 _].
  apply runs_bind. eapply runs_mono; [apply mcall_step|]. intros m k2 [C2 Em]. rewrite decide_False by (by eapply mosq_new).
  unfold Mq.strdup. apply runs_bind, runs_bind. eapply runs_mono; [apply mcall_step|]. intros r3 k3 [C3 _]. apply runs_ret.
  apply runs_bind, runs_bind. eapply runs_mono; [apply mcall_step|]. intros r4 k4 [C4 _]. apply runs_ret.
  set (hs := if decide (r3 = 0) then None else Some loopback_host).
  set (ts := if decide (r4 = 0) then None else Some test_topic).
  pose proof (mq_called_trans _ _ _ _ _ C1 (mq_called_trans _ _ _ _ _ C2 (mq_called_trans _ _ _ _ _ C3 C4))) as (E1 & E2 & E3 & E4).
  apply runs_bind, runs_modify. apply runs_ret. set (k5 := MqState (mheap k4) _ _ _ _).
  apply runs_bind. unfold kx_mq_set_connect_cb. apply runs_bind. eexists _, _. split; [unfold deref_mq; cbn; rewrite lookup_insert_eq; reflexivity|].
  cbn [mosq keepalive host port topic f_subscribe f_message f_log]. apply runs_bind, runs_modify. set (k6 := MqState _ _ _ _ _).
  apply runs_bind. eapply runs_mono; [apply mcall_step|]. intros r7 k7 [C7 _]. apply runs_ret.
  assert (M7 : mqs k7 !! kq = Some (KxMq m 60 hs 1883 ts (Some RkxConnect) None None None))
    by (destruct C7 as (_ & C7 & _); rewrite C7; apply lookup_insert_eq).
  apply runs_bind. eapply runs_mono; [apply (setter_step (SetSubscribe m (Some RkxSubscribe)) _ _ _ _ M7 eq_refl)|]. intros [] k8 C8.
  assert (M8 : mqs k8 !! kq = Some (KxMq m 60 hs 1883 ts (Some RkxConnect) None None None))
    by (destruct C8 as (_ & C8 & _); by rewrite C8).
  apply runs_bind. eapply runs_mono; [apply (setter_step (SetMessage m (Some RkxMessage)) _ _ _ _ M8 eq_refl)|]. intros [] k9 C9.
  apply runs_ret. pose proof (mq_called_trans _ _ _ _ _ C7 (mq_called_trans _ _ _ _ _ C8 C9)) as (F1 & F2 & F3 & F4).
  split; [done|]. split; [done|]. split; [rewrite F1; cbn; rewrite E1; exact Lh|]. split; [rewrite F3; exact E3|].
  exists m, hs, ts. split.
  { rewrite F2. cbn. rewrite insert_insert_eq, E2. done. }
  split; [unfold hs; case_decide; [by left|by right]|]. split; [unfold ts; case_decide; [by left|by right]|].
  rewrite F4. cbn. rewrite E4. by rewrite <- app_assoc.
Qed.

(** ** What the client is between two commands *)

(** The lists are well formed and the list of records holds [xs]; the node has its texts; there
    is a connection; the requests that only print their reply have their handler. *)
Record client_ready s (id ip mac : list Z) (c : Z) (ms : methods) (xs : list (Z * Z)) : Prop := {
  cr_wf : wf (lists_of s);
  cr_list : rep (lists_of s) (local_cryptfiles s) ms xs;
  cr_node : exists nd, User.nodes (c_user s) !! node s = Some nd /\ gnode (c_user s) = node s /\ length nd = sizeof_kxnode /\
    cstr (drop User.off_uuid nd) = Some id /\ cstr (drop off_ip nd) = Some ip /\ cstr (drop off_mac nd) = Some mac;
  cr_id : bytes id;
  cr_net : contexts (c_net s) !! net_p s = Some c;
  cr_acs : acs_ok (acs (c_net s)) /\ forall t, t = NODE_SET \/ t = USER_REG \/ t = FILE_CRYPT ->
    exists a, acs (c_net s) !! place t = Some a /\ syncexec a = Some KxSetReply
}.

Lemma acs0_ready : acs_ok acs0 /\ forall t, t = NODE_SET \/ t = USER_REG \/ t = FILE_CRYPT ->
  exists a, acs0 !! place t = Some a /\ syncexec a = Some KxSetReply.
Proof using Type. split; [done|]. intros t [-> |[-> | ->]]; by eexists. Qed.

(** The client after the start. *)
Definition started (s : program) (id : list Z) (c : Z) (r : R) (s' : program) : Prop :=
  client_ready (p_client s') (take 32 id) (ip_text sys) (mac_of sys) c no_methods [] /\
  rep (lists_of (p_client s')) (remote_cryptfiles s') no_methods [] /\
  remote_cryptfiles s' <> local_cryptfiles (p_client s') /\
  user (p_client s') = 0 /\ db (p_client s') = 0 /\ c_files (p_client s') = c_files (p_client s) /\
  redis (c_net (p_client s')) = r /\ c_db (p_client s') = c_db (p_client s) /\
  exists m h t, mqs (p_mq s') !! mq s' = Some (KxMq m 60 h 1883 t (Some RkxConnect) None None None) /\
    (h = None \/ h = Some loopback_host) /\ (t = None \/ t = Some test_topic) /\
    mcalls (p_mq s') = mcalls (p_mq s) ++ [LibInit; New true (mq s'); Strdup loopback_host; Strdup test_topic;
      SetConnect m (Some RkxConnect); SetSubscribe m (Some RkxSubscribe); SetMessage m (Some RkxMessage)].

Lemma on_client_step {A B} (m : ST client A) (a : A) c0 c (k : A -> ST program B) q r pm :
  m c0 = Ret (a, c) -> (x ← on_client m; k x) (Program c0 q r pm) = k a (Program c q r pm).
Proof using Type. intros E1. apply bind_ret. unfold on_client. cbn [p_client]. by rewrite E1. Qed.

Abbreviation init := (rkx_init sys junk junk_list redisConnectWithTimeout redisFree err errstr mosquitto).

(** The first half: the lists and the node. *)
Record half_started (c0 : client) (id : list Z) (rm : Z) (c : client) : Prop := {
  hs_wf : wf (lists_of c);
  hs_local : rep (lists_of c) (local_cryptfiles c) no_methods [];
  hs_remote : rep (lists_of c) rm no_methods [];
  hs_distinct : rm <> local_cryptfiles c;
  hs_node : exists m, User.nodes (c_user c) !! node c = Some m /\ gnode (c_user c) = node c /\ node_of junk sys id m;
  hs_user : user c = 0;
  hs_same : c_files c = c_files c0 /\ c_net c = c_net c0 /\ c_db c = c_db c0
}.

Lemma half_run id c0 q0 r0 m0 : wf (lists_of c0) -> machine_id sys = Some id -> id <> [] -> nonul id ->
  exists rm c, half_started c0 id rm c /\ init (Program c0 q0 r0 m0) =
    (p ← on_client (on_net (kx_sync_creat_net redisConnectWithTimeout redisFree err errstr loopback_host 6379));
     on_client (set_net p);; on_client (set_db 0);; m ← on_mq (rkx_init_mq mosquitto); set_mq m) (Program c q0 rm m0).
Proof using alloc_ok junk_length mac_ok.
  intros W Em Ne Nn.
  destruct (creat_list_step c0 W) as (l & c1 & E1 & N1 & G1 & W1 & R1 & _ & U1 & K1 & D1).
  set (c1' := Client (cheap c1) (cout c1) (node c1) (user c1) (net_p c1) (db c1) l (c_user c1) (c_files c1) (c_lists c1) (c_net c1) (c_db c1)).
  destruct (creat_list_step c1' W1) as (rm & c2 & E2 & N2 & G2 & W2 & R2 & Pr2 & U2 & K2 & D2).
  destruct (creat_node_step c2 id Em Ne Nn) as (nd & c3 & m & E3 & Hm & G3 & U3 & Gn3 & L3 & K3 & D3).
  set (c3' := Client (cheap c3) (cout c3) nd 0 (net_p c3) (db c3) (local_cryptfiles c3) (c_user c3) (c_files c3) (c_lists c3) (c_net c3) (c_db c3)).
  pose proof G1 as (_ & _ & _ & _ & _ & _ & F1). pose proof G2 as (_ & _ & _ & _ & _ & V2 & F2).
  pose proof G3 as (_ & _ & _ & _ & _ & V3 & F3). cbn in V2, F2.
  exists rm, c3'. split.
  - split; cbn; rewrite ?V3, ?V2.
    + exact (grown_wf c2 c3 G3 L3 W2).
    + apply (same_lists_rep c2); [exact L3|]. apply Pr2. exact R1.
    + by apply (same_lists_rep c2).
    + intros ->. apply N2. destruct W1 as (_ & W1 & _). apply (W1 l). destruct R1 as (R1 & _). by eexists.
    + exists m. rewrite U3, Gn3. split; [apply lookup_insert_eq|done].
    + done.
    + rewrite F3, F2, F1, K3, K2, D3, D2. cbn. by rewrite K1, D1.
  - unfold rkx_init. rewrite (on_client_step _ _ _ _ _ _ _ _ E1), (on_client_step (set_local l) tt c1 c1') by done.
    rewrite (on_client_step _ _ _ _ _ _ _ _ E2).
    rewrite (bind_ret (set_remote rm) _ (Program c2 q0 r0 m0) tt (Program c2 q0 rm m0)) by done.
    rewrite (on_client_step _ _ _ _ _ _ _ _ E3).
    rewrite (on_client_step (set_node nd) tt c3 (Client (cheap c3) (cout c3) nd (user c3) (net_p c3) (db c3) (local_cryptfiles c3)
      (c_user c3) (c_files c3) (c_lists c3) (c_net c3) (c_db c3))) by done.
    by rewrite (on_client_step (set_user 0) tt _ c3').
Qed.

(** The start, with or without a connection. *)
Lemma rkx_init_run id (s : program) : wf (lists_of (p_client s)) -> acs (c_net (p_client s)) = acs0 ->
  machine_id sys = Some id -> id <> [] -> nonul id -> bytes id ->
  nonul (ip_text sys) -> (length (ip_text sys) < 15)%nat ->
  (forall c r, exists r', redisFree c r = Ret (tt, r')) ->
  match redisConnectWithTimeout loopback_host 6379 (redis (c_net (p_client s))) with
  | Ret (c, r) => if decide (c = 0 \/ err c r = true) then init s = Abort else runs init s (fun _ (s' : program) => started s id c r s')
  | _ => True
  end.
Proof using alloc_ok junk_length mac_ok mosq_answers mosq_new.
  intros W Ac Em Ne Nn Bi Ni Li Rf. destruct s as [c0 q0 r0 m0]. cbn [p_client mq remote_cryptfiles p_mq] in *.
  destruct (half_run id c0 q0 r0 m0 W Em Ne Nn) as (rm & c3 & [] & Ei). destruct hs_same0 as (F3 & K3 & D3).
  destruct hs_node0 as (m & Nd & Gn & M1 & M2 & M3 & _ & _ & M4).
  pose proof (creat_net_step c3 loopback_host 6379 Rf) as Nt. rewrite K3 in Nt.
  destruct (redisConnectWithTimeout loopback_host 6379 _) as [[c r]| | |]; try done.
  destruct (decide (c = 0 \/ err c r = true)) as [Hb|Hb].
  { rewrite Ei. unfold mbind, ST_bind, on_client. cbn [p_client]. by rewrite Nt. }
  destruct Nt as (p & c4 & E4 & G4 & C4 & R4 & A4 & U4 & L4 & D4).
  set (c4' := Client (cheap c4) (cout c4) (node c4) (user c4) p 0 (local_cryptfiles c4) (c_user c4) (c_files c4) (c_lists c4) (c_net c4) (c_db c4)).
  set (k4 := MqState (cheap c4') (broker m0) (mqs m0) (cout c4') (mcalls m0)).
  destruct (init_mq_step k4) as (kq & k5 & E5 & Hk & Nk & Lk & Ok & hm & h & t & M5 & Hh & Ht & C5).
  set (c5 := Client (mheap k5) (mout k5) (node c4') (user c4') (net_p c4') (db c4') (local_cryptfiles c4')
    (c_user c4') (c_files c4') (c_lists c4') (c_net c4') (c_db c4')).
  exists tt, (Program c5 kq rm k5). split.
  { rewrite Ei. rewrite (on_client_step _ _ _ _ _ _ _ _ E4).
    rewrite (on_client_step (set_net p) tt c4 (Client (cheap c4) (cout c4) (node c4) (user c4) p (db c4) (local_cryptfiles c4)
      (c_user c4) (c_files c4) (c_lists c4) (c_net c4) (c_db c4))) by done.
    rewrite (on_client_step (set_db 0) tt _ c4') by done.
    rewrite (bind_ret _ _ _ kq (Program c5 q0 rm k5)); [reflexivity|].
    unfold on_mq. cbn [p_client p_mq]. change (MqState _ _ _ _ _) with k4. by rewrite E5. }
  pose proof G4 as (_ & B4 & X4 & _ & _ & V4 & F4).
  assert (G5 : grown c4' c5) by (split; [cbn; rewrite Lk; apply union_subseteq_r|done]).
  assert (W4 : wf (lists_of c4')) by exact (grown_wf c3 c4 G4 L4 hs_wf0).
  unfold started. cbn [p_client mq remote_cryptfiles p_mq].
  split.
  { split.
    - exact (grown_wf c4' c5 G5 eq_refl W4).
    - apply (same_lists_rep c3); [exact L4|]. cbn. by rewrite V4.
    - exists m. cbn. rewrite B4, U4. split; [done|]. split; [done|]. split; [done|]. split; [done|]. split; [by apply M4|done].
    - by apply Forall_take.
    - exact C4.
    - cbn. rewrite A4, Ac. exact acs0_ready. }
  split; [by apply (same_lists_rep c3)|]. split; [cbn; by rewrite V4|].
  split; [cbn; by rewrite X4|]. split; [done|]. split; [cbn; by rewrite F4, F3|]. split; [exact R4|].
  split; [cbn; by rewrite D4, D3|]. exists hm, h, t. split; [rewrite M5; apply lookup_insert_eq|]. done.
Qed.

End Start.

(** ** Registering a user *)

Section Register.
Context {HP FS E R : Type} `{!Allocator HP}.
Variable mdb : mdb_call -> ST E answer.
Variable mkdir : list Z -> Z -> FS -> FS * Z * bool.
Variable stat_fails : list Z -> FS -> bool.
Variable redisCommand : Z -> list Z -> ST R (option redisReply).
Variable errstr : Z -> R -> list Z.
Variable junk : nat -> list Z.
Variable junk_dbi : Z.
Abbreviation client := (client (HP := HP) (FS := FS) (E := E) (R := R)).
Implicit Types s : client.

Hypothesis alloc_ok : forall n (h : HP), exists p h', a_alloc n h = Ret (p, h') /\ p <> 0.
Hypothesis junk_length : forall n, length (junk n) = n.
Hypothesis redis_answers : forall c t r, exists o r', redisCommand c t r = Ret (o, r').
Hypothesis mdb_answers : forall c e, exists a e', mdb c e = Ret (a, e').

(** Nothing that matters changes. *)
Definition idle s s' : Prop :=
  same_owner s s' /\ gnode (c_user s') = gnode (c_user s) /\ cheap s' = cheap s /\ c_files s' = c_files s /\
  c_lists s' = c_lists s /\ c_net s' = c_net s /\ c_db s' = c_db s.

#[export] Instance idle_preorder : PreOrder idle.
Proof.
  split; [by intros s|]. intros s t v (O&?&?&?&?&?&?) (O'&?&?&?&?&?&?). unfold idle. split; [by etrans|]. split_and!; congruence.
Qed.

(** A field of the node, and of the user, is read. *)
Lemma node_field_run s nd off t : User.nodes (c_user s) !! node s = Some nd -> cstr (drop off nd) = Some t ->
  exists s', (n ← the_node; clift (of_option (cstr (drop off n)))) s = Ret (t, s') /\ idle s s'.
Proof.
  intros N C. unfold the_node, on_user, clift, mbind, ST_bind, gets, deref_node. cbn [User.nodes].
  rewrite N. cbn [mbind outcome_bind]. rewrite C. cbn [of_option mbind outcome_bind]. eexists. split; [reflexivity|]. done.
Qed.

Lemma user_field_run s u off t : users (c_user s) !! user s = Some u -> cstr (drop off (User.chars u)) = Some t ->
  exists s', (n ← the_user; clift (of_option (cstr (drop off (User.chars n))))) s = Ret (t, s') /\ idle s s'.
Proof.
  intros N C. unfold the_user, on_user, clift, mbind, ST_bind, gets, deref_user. cbn [users].
  rewrite N. cbn [mbind outcome_bind]. rewrite C. cbn [of_option mbind outcome_bind]. eexists. split; [reflexivity|]. done.
Qed.

Lemma cstr_shorter m off t : cstr (drop off m) = Some t -> (length t <= length m)%nat.
Proof using Type.
  intros (r & Em & _)%cstr_Some. pose proof (f_equal length Em) as L. rewrite length_drop, length_app in L. cbn [length] in L. lia.
Qed.

(** A request of a ready client. *)
Lemma ready_send s id ip mac c ms xs q : client_ready s id ip mac c ms xs ->
  type_of q = NODE_SET \/ type_of q = USER_REG -> Z.of_nat (length (command_text q)) < INT_MAX ->
  exists s' o, KxUser.send_cmd redisCommand errstr (kx_file_reply (HP := HP) (R := R)) q s = Ret (tt, s') /\ sent_only s s' /\
    redisCommand c (command_text q) (redis (c_net s)) = Ret (o, redis (c_net s')).
Proof using alloc_ok redis_answers.
  intros [] Ht L. destruct cr_acs0 as [K Kt]. destruct (Kt (type_of q)) as (a & Ea & Es); [destruct Ht as [Ht|Ht]; [by left|by right; left]|].
  exact (send_cmd_run redisCommand errstr alloc_ok redis_answers s q c a cr_net0 K Ea Es L).
Qed.

(** What is between two commands survives what neither changes. *)
Lemma ready_idle s s' id ip mac c ms xs : idle s s' -> client_ready s id ip mac c ms xs -> client_ready s' id ip mac c ms xs.
Proof.
  intros ((O1 & O2 & O3 & O4 & O5 & O6 & O7 & O8) & I1 & I2 & I3 & I4 & I5 & I6) [].
  split; rewrite ?O3, ?O5, ?O6, ?O8, ?I1, ?I5; try done; unfold lists_of in *; by rewrite ?I2, ?I4.
Qed.

Lemma ready_sent s s' id ip mac c ms xs : sent_only s s' -> client_ready s id ip mac c ms xs -> client_ready s' id ip mac c ms xs.
Proof.
  intros ((O1 & O2 & O3 & O4 & O5 & O6 & O7 & O8) & I1 & I2 & I3 & I4 & I5 & I6 & I7) [].
  split; rewrite ?O3, ?O5, ?O6, ?O8, ?I5, ?I6, ?I7; try done.
  - pose proof (wf_grows (lists_of s) (cheap s') cr_wf0) as W. unfold lists_of in *. cbn in W. rewrite I3. apply W. by rewrite I1.
  - unfold lists_of, rep in *. by rewrite I3.
Qed.

Lemma idle_sent s s1 s2 : idle s s1 -> sent_only s1 s2 -> sent_only s s2.
Proof.
  intros (O & G & H & F & L & Nn & D) (O' & H' & F' & L' & D' & G' & K' & A').
  split; [by etrans|]. split_and!; congruence.
Qed.

(** The node goes to the server. *)
Lemma node_set_run s id ip mac c ms xs : client_ready s id ip mac c ms xs ->
  exists s' o, kx_node_set redisCommand errstr (kx_file_reply (HP := HP) (R := R)) s = Ret (0, s') /\ sent_only s s' /\
    redisCommand c (command_text (SetNode id ip mac)) (redis (c_net s)) = Ret (o, redis (c_net s')).
Proof using alloc_ok redis_answers.
  intros Rd. pose proof (cr_node _ _ _ _ _ _ _ Rd) as (nd & N & _ & Ln & C1 & C2 & C3). unfold kx_node_set.
  destruct (node_field_run s nd _ _ N C1) as (s1 & E1 & I1). unfold node_uuid. rewrite (bind_ret _ _ _ _ _ E1).
  assert (N1 : User.nodes (c_user s1) !! node s1 = Some nd) by (destruct I1 as ((_&_&->&_&->&_)&_); done).
  destruct (node_field_run s1 nd _ _ N1 C2) as (s2 & E2 & I2). unfold node_ip. rewrite (bind_ret _ _ _ _ _ E2).
  assert (I12 : idle s s2) by (by etrans). assert (N2 : User.nodes (c_user s2) !! node s2 = Some nd) by (destruct I12 as ((_&_&->&_&->&_)&_); done).
  destruct (node_field_run s2 nd _ _ N2 C3) as (s3 & E3 & I3). unfold node_mac. rewrite (bind_ret _ _ _ _ _ E3).
  assert (I13 : idle s s3) by (by etrans).
  destruct (ready_send s3 id ip mac c ms xs (SetNode id ip mac) (ready_idle _ _ _ _ _ _ _ _ I13 Rd)) as (s4 & o & E4 & S4 & Rc).
  { by left. }
  { pose proof (cstr_shorter _ _ _ C1). pose proof (cstr_shorter _ _ _ C2). pose proof (cstr_shorter _ _ _ C3).
    unfold command_text. rewrite !length_app. rewrite Ln in *. unfold sizeof_kxnode in *.
    assert (X : (length (text "HMSET node:"%string) + length (text " uuid "%string) + length (text " ip "%string) + length (text " mac "%string) = 26)%nat) by reflexivity.
    unfold INT_MAX. lia. }
  rewrite (bind_ret _ _ _ _ _ E4). exists s4, o. split; [done|].
  split; [by eapply idle_sent|]. by destruct I13 as (_ & _ & _ & _ & _ & <- & _).
Qed.


(** The data base of the user: NULL exactly when LMDB refused; else it has the environment LMDB gave and the name. *)
Definition db_opened s (name : list Z) s' : Prop :=
  exists cs o, opened mdb MAXMAPSIZE data_path (denv (c_db s)) cs o (denv (c_db s')) /\ calls (c_db s') = calls (c_db s) ++ cs /\
    match o with
    | None => db s' = 0
    | Some h => db s' <> 0 /\ exists d, dbs (c_db s') !! db s' = Some d /\ env d = h /\ name_of d = Ret name
    end.

(** The client after registering. *)
Definition registered s (name pwd id ip mac : list Z) (c : Z) (ms : methods) (xs : list (Z * Z)) s' : Prop :=
  client_ready s' id ip mac c ms xs /\ a_live (cheap s) ⊆ a_live (cheap s') /\ c_files s' = c_files s /\
  c_lists s' = c_lists s /\ local_cryptfiles s' = local_cryptfiles s /\
  (exists u, logged_in s' u name (take 63 (id ++ name)) id /\ user_of name pwd u /\ isonline u = 1) /\
  (exists o1 r o2, redisCommand c (command_text (SetNode id ip mac)) (redis (c_net s)) = Ret (o1, r) /\
     redisCommand c (command_text (Register id name pwd)) r = Ret (o2, redis (c_net s'))) /\
  db_opened s name s'.

Lemma points_string t s : deref_string (as_cstring (Some t)) s = Ret (t, s).
Proof. done. Qed.

(** The user, up to the marks: two blocks, the key from the node's id and the name. *)
Lemma creat_user_step s id ip mac c ms xs name pwd : client_ready s id ip mac c ms xs ->
  bytes name -> nonul name -> (length name < 31)%nat -> nonul pwd -> (length pwd < 31)%nat ->
  exists p s' u, on_user (kx_creat_user junk name pwd) s = Ret (p, s') /\ user_of name pwd u /\
    users (c_user s') !! p = Some u /\ keys (c_user s') !! ukey u = Some (take 63 (id ++ name)) /\
    User.nodes (c_user s') = User.nodes (c_user s) /\ gnode (c_user s') = gnode (c_user s) /\
    grown s s' /\ c_lists s' = c_lists s /\ c_net s' = c_net s /\ c_db s' = c_db s.
Proof using alloc_ok junk_length.
  intros [] Bn Nn Ln Np Lp. destruct cr_node0 as (nd & N & G & Lnd & C1 & C2 & C3).
  destruct (alloc_ok (Z.of_nat sizeof_kxuser) (cheap s)) as (p & h1 & A1 & Hp). destruct (a_alloc_fresh _ _ _ _ A1 Hp) as [F1 L1].
  destruct (alloc_ok (Z.of_nat (length (take 63 (id ++ name)))) h1) as (k & h2 & A2 & Hk).
  destruct (a_alloc_fresh _ _ _ _ A2 Hk) as [F2 L2].
  destruct (creat_user_run junk junk_length name pwd
    (UState (cheap s) (User.nodes (c_user s)) (users (c_user s)) (keys (c_user s)) (gnode (c_user s))) p h1 k h2 nd id
    Bn Nn Ln Np Lp ltac:(cbn; by rewrite G) C1 cr_id0 A1 Hp A2 Hk) as (m & Hm & Er). cbv zeta in *.
  eexists p, _, (KxUser m 0 (gnode (c_user s)) k). split; [unfold on_user; rewrite Er; reflexivity|]. split; [exact Hm|].
  split; [apply lookup_insert_eq|]. split; [apply lookup_insert_eq|]. split; [done|]. split; [done|].
  split; [|done]. split; [|done]. cbn. rewrite L2, L1. etrans; [apply union_subseteq_r|apply union_subseteq_r].
Qed.

(** The data base. *)
Lemma creat_db_step s name : nonul name -> (length name < 31)%nat -> exists p s',
  on_db (kx_creat_db mdb mkdir stat_fails junk junk_dbi MAXMAPSIZE data_path name) s = Ret (p, s') /\ grown s s' /\
  c_user s' = c_user s /\ c_lists s' = c_lists s /\ c_net s' = c_net s /\
  exists cs o, opened mdb MAXMAPSIZE data_path (denv (c_db s)) cs o (denv (c_db s')) /\ calls (c_db s') = calls (c_db s) ++ cs /\
    match o with
    | None => p = 0
    | Some h => p <> 0 /\ exists d, dbs (c_db s') !! p = Some d /\ env d = h /\ name_of d = Ret name
    end.
Proof using alloc_ok junk_length mdb_answers.
  intros Nn Ln.
  assert (Al : forall n (h : HP), exists p h', a_alloc n h = Ret (p, h')) by (intros n h; destruct (alloc_ok n h) as (p & h' & A & _); by exists p, h').
  destruct (kx_creat_db_run mdb mkdir stat_fails junk junk_dbi mdb_answers Al junk_length MAXMAPSIZE data_path name
    (DState (cheap s) (dfs (c_db s)) (denv (c_db s)) (dbs (c_db s)) (cout s) (calls (c_db s)))
    ltac:(apply (bool_decide_unpack _); vm_compute; exact I) Nn) as (p & d & Er & _ & Cr).
  eexists p, _. split; [unfold on_db; rewrite Er; reflexivity|]. cbn.
  destruct Cr as (q & h & A & Cr). cbn [dheap denv calls] in A, Cr.
  assert (Hq : q <> 0). { destruct (alloc_ok sizeof_kxdb (cheap s)) as (q2 & h2 & A2 & Hq). rewrite A in A2. by injection A2 as <- _. }
  rewrite decide_False in Cr by done. destruct Cr as (_ & Lh & cs & o & Op & Cs & H).
  split; [split; [cbn; rewrite Lh; apply union_subseteq_r|done]|]. do 3 (split; [done|]). exists cs, o. split; [exact Op|]. split; [exact Cs|].
  destruct o as [eh|]; [|exact H]. destruct H as (-> & x & D & Ev & _ & Nm). split; [done|]. exists x. split; [done|]. split; [done|]. exact (Nm Ln).
Qed.

(** A ready client stays ready when only the user, the data base or the heap grow. *)
Lemma ready_grown s s' id ip mac c ms xs : client_ready s id ip mac c ms xs ->
  a_live (cheap s) ⊆ a_live (cheap s') -> node s' = node s -> net_p s' = net_p s -> local_cryptfiles s' = local_cryptfiles s ->
  User.nodes (c_user s') = User.nodes (c_user s) -> gnode (c_user s') = gnode (c_user s) -> c_lists s' = c_lists s ->
  c_net s' = c_net s -> client_ready s' id ip mac c ms xs.
Proof using Type.
  intros [] S E1 E2 E3 E4 E5 E6 E7. split; rewrite ?E1, ?E2, ?E3, ?E4, ?E5, ?E7; try done.
  - pose proof (wf_grows (lists_of s) (cheap s') cr_wf0 S) as W. unfold lists_of in *. by rewrite E6.
  - unfold lists_of, rep in *. by rewrite E6.
Qed.

Lemma register_text_length id name pwd :
  (length (command_text (Register id name pwd)) <= length id + 2 * length name + length pwd + 50)%nat.
Proof using Type.
  unfold command_text. rewrite !length_app.
  assert (E0 : (length (text "HMSET node:"%string) + length (text ":user:"%string) + length (text " username "%string) +
    length (text " password "%string) + length (text " isonline 1"%string) = 48)%nat) by reflexivity. lia.
Qed.

(** The request at the end of registering. *)
Lemma register_send_run s id ip mac c ms xs u name pwd : client_ready s id ip mac c ms xs ->
  users (c_user s) !! user s = Some u -> cstr (drop off_username (User.chars u)) = Some name ->
  cstr (drop off_pwd (User.chars u)) = Some pwd -> (length name < 31)%nat -> (length pwd < 31)%nat ->
  exists s' o, (id ← node_uuid; n ← username; w ← password;
      KxUser.send_cmd redisCommand errstr (kx_file_reply (HP := HP) (R := R)) (Register id n w);; mret 0) s = Ret (0, s') /\
    sent_only s s' /\ redisCommand c (command_text (Register id name pwd)) (redis (c_net s)) = Ret (o, redis (c_net s')).
Proof using alloc_ok redis_answers.
  intros Rd U Hn Hp Ln Lp. pose proof (cr_node _ _ _ _ _ _ _ Rd) as (nd & N & _ & Lnd & C & _).
  destruct (node_field_run s nd _ _ N C) as (s1 & E1 & I1).
  assert (U1 : users (c_user s1) !! user s1 = Some u) by (destruct I1 as ((-> & _ & _ & -> & _) & _); exact U).
  destruct (user_field_run s1 u off_username name U1 Hn) as (s2 & E2 & I2). assert (I12 : idle s s2) by (by etrans).
  assert (U2 : users (c_user s2) !! user s2 = Some u) by (destruct I12 as ((-> & _ & _ & -> & _) & _); exact U).
  destruct (user_field_run s2 u off_pwd pwd U2 Hp) as (s3 & E3 & I3). assert (I13 : idle s s3) by (by etrans).
  destruct (ready_send s3 id ip mac c ms xs (Register id name pwd) (ready_idle _ _ _ _ _ _ _ _ I13 Rd)) as (s4 & o & E4 & S4 & Rc).
  { by right. }
  { pose proof (register_text_length id name pwd). pose proof (cstr_shorter _ _ _ C) as Li. rewrite Lnd in Li.
    unfold sizeof_kxnode, INT_MAX in *. lia. }
  exists s4, o. unfold node_uuid, username, password.
  rewrite (bind_ret _ _ _ _ _ E1), (bind_ret _ _ _ _ _ E2), (bind_ret _ _ _ _ _ E3), (bind_ret _ _ _ _ _ E4). split; [done|].
  pose proof I13 as (_ & _ & _ & _ & _ & Nn & _). split; [by eapply idle_sent|by rewrite <- Nn].
Qed.

(** Registering: the node, the user, the data base and the request. *)
Lemma register_run s id ip mac c ms xs name pwd : client_ready s id ip mac c ms xs ->
  bytes name -> nonul name -> (length name < 31)%nat -> nonul pwd -> (length pwd < 31)%nat ->
  runs (perform mdb mkdir stat_fails redisCommand errstr junk junk_dbi (kx_file_reply (HP := HP) (R := R))
    (DoRegister (Some name) (Some pwd))) s (fun r s' => r = 0 /\ registered s name pwd id ip mac c ms xs s').
Proof using alloc_ok junk_length mdb_answers redis_answers.
  intros Rd Bn Nn Ln Np Lp. destruct (node_set_run s id ip mac c ms xs Rd) as (s1 & o1 & E1 & S1 & Rc1).
  pose proof (ready_sent _ _ _ _ _ _ _ _ S1 Rd) as Rd1.
  destruct (creat_user_step s1 id ip mac c ms xs name pwd Rd1 Bn Nn Ln Np Lp)
    as (p & s2 & u & E2 & Hu & U2 & K2 & N2 & G2 & Gr2 & L2 & Nt2 & D2).
  set (s3 := Client (cheap s2) (cout s2) (node s2) p (net_p s2) (db s2) (local_cryptfiles s2) (c_user s2) (c_files s2) (c_lists s2) (c_net s2) (c_db s2)).
  set (u' := KxUser (User.chars u) 1 (unode u) (ukey u)).
  set (us := UState (cheap s3) (User.nodes (c_user s3)) (<[p := u']> (users (c_user s3))) (keys (c_user s3)) (gnode (c_user s3))).
  set (s4 := Client (cheap s3) (cout s3) (node s3) p (net_p s3) (db s3) (local_cryptfiles s3) us (c_files s3) (c_lists s3) (c_net s3) (c_db s3)).
  destruct (creat_db_step s4 name Nn Ln) as (d & s5 & E5 & Gr5 & U5 & L5 & Nt5 & Db5).
  set (s6 := Client (cheap s5) (cout s5) (node s5) (user s5) (net_p s5) d (local_cryptfiles s5) (c_user s5) (c_files s5) (c_lists s5) (c_net s5) (c_db s5)).
  pose proof Gr2 as (H2 & M2 & _ & X2 & _ & V2 & F2). pose proof Gr5 as (H5 & M5 & W5 & X5 & _ & V5 & F5). cbn in M5, W5, X5, V5, F5.
  assert (Rd6 : client_ready s6 id ip mac c ms xs).
  { apply (ready_grown s1 s6 id ip mac c ms xs Rd1); cbn;
      [by etrans|congruence|congruence|congruence|by rewrite U5|by rewrite U5|rewrite L5; exact L2|rewrite Nt5; exact Nt2]. }
  assert (U6 : users (c_user s6) !! user s6 = Some u') by (cbn; rewrite U5, W5; apply lookup_insert_eq).
  destruct Hu as (Hn & Hp & Ht).
  destruct (register_send_run s6 id ip mac c ms xs u' name pwd Rd6 U6 Hn Hp Ln Lp) as (s10 & o2 & E10 & S10 & Rc10).
  exists 0, s10. split.
  { unfold perform. rewrite (bind_ret _ _ _ _ _ E1). unfold kx_user_register. cbn [puser ppwd].
    rewrite (bind_ret _ _ _ _ _ (points_string name s1)), (bind_ret _ _ _ _ _ (points_string pwd s1)).
    rewrite (bind_ret _ _ _ _ _ E2). rewrite (bind_ret (set_user p) _ s2 tt s3) by done.
    set (s3' := Client (cheap s3) (cout s3) (node s3) p (net_p s3) (db s3) (local_cryptfiles s3)
      (UState (cheap s3) (User.nodes (c_user s3)) (users (c_user s3)) (keys (c_user s3)) (gnode (c_user s3)))
      (c_files s3) (c_lists s3) (c_net s3) (c_db s3)).
    rewrite (bind_ret the_user _ s3 u s3')
      by (unfold the_user, gets, mbind, ST_bind, on_user, deref_user; cbn; rewrite U2; done).
    rewrite (bind_ret (on_user (put_user p u')) _ s3' tt s4) by done.
    rewrite (bind_ret _ _ _ _ _ E5). by rewrite (bind_ret (set_db d) _ s5 tt s6). }
  split; [done|]. pose proof S10 as (O6 & H10 & F10 & L10 & D10 & _). pose proof S1 as (O1 & H1 & F1 & L1 & D1 & _).
  split; [by eapply ready_sent|]. split.
  { rewrite H10, <- H1. cbn. by etrans. }
  split; [rewrite F10; cbn; by rewrite F5, F2|]. split; [rewrite L10; cbn; rewrite L5; cbn; by rewrite L2|].
  pose proof O6 as (Q1 & Q2 & Q3 & Q4 & Q5 & Q6 & Q7 & Q8). pose proof O1 as (_ & _ & _ & _ & _ & _ & _ & V1).
  split; [rewrite Q8; cbn; by rewrite V5, V2|].
  split.
  { exists u'. split; [|by split].
    apply (logged_in_same s6); [|done]. pose proof (cr_node _ _ _ _ _ _ _ Rd6) as (nd & N6 & _ & _ & C6 & _).
    split; [done| |done|by exists nd]. cbn [c_user s6]. rewrite U5. exact K2. }
  split.
  { exists o1, (redis (c_net s1)), o2. split; [done|]. cbn [c_net s6] in Rc10. rewrite Nt5 in Rc10. cbn in Rc10.
    by rewrite Nt2 in Rc10. }
  unfold db_opened. rewrite Q7, D10. cbn [db c_db s6]. cbn [c_db s4 s3] in Db5. by rewrite D2, D1 in Db5.
Qed.

(** ** A session *)

(** Giving back blocks that are live. *)
Lemma free_blocks_run bs : forall s, NoDup bs -> Forall (fun a => a ∈ a_live (cheap s) /\ a <> 0) bs ->
  exists s', free_blocks bs s = Ret (tt, s') /\ same_but_heap s s' /\ a_live (cheap s') = a_live (cheap s) ∖ list_to_set bs.
Proof using Type.
  induction bs as [|a bs IH]; intros s N F.
  - exists s. split; [done|]. split; [done|]. cbn. by rewrite difference_empty_L.
  - apply NoDup_cons in N as [Na N]. apply Forall_cons in F as [[La Ha] F].
    destruct (a_free_live a (cheap s) La Ha) as (h & Ef & Lh).
    set (s1 := Client h (cout s) (node s) (user s) (net_p s) (db s) (local_cryptfiles s) (c_user s) (c_files s) (c_lists s) (c_net s) (c_db s)).
    destruct (IH s1 N) as (s2 & E2 & S2 & L2).
    { rewrite Forall_forall in F |- *. intros x Hx. destruct (F x Hx) as [Lx Nx]. split; [|done]. cbn. rewrite Lh.
      apply elem_of_difference. split; [done|]. intros ->%elem_of_singleton. done. }
    exists s2. split.
    { cbn [free_blocks]. rewrite (bind_ret _ _ s tt s1); [exact E2|]. unfold on_heap. by rewrite Ef. }
    split; [exact S2|]. rewrite L2. cbn. rewrite Lh. by rewrite difference_difference_l_L.
Qed.

(** After a command: its own blocks are given back and what was live before stays. *)
Lemma free_own s s1 s2 bs lost : owned s s1 bs lost -> a_live (cheap s1) ⊆ a_live (cheap s2) ->
  exists s3, free_blocks bs s2 = Ret (tt, s3) /\ same_but_heap s2 s3 /\ a_live (cheap s) ⊆ a_live (cheap s3) /\
    a_live (cheap s2) ∖ a_live (cheap s1) ⊆ a_live (cheap s3).
Proof using Type.
  intros O Hs. pose proof (owned_grows _ _ _ _ O) as Ls. destruct O as (N & F & L). apply NoDup_app in N as (N & _). apply Forall_app in F as [F _].
  rewrite Forall_forall in F.
  assert (Lb : forall x, x ∈ bs -> x ∈ a_live (cheap s1)).
  { intros x Hx. rewrite L. apply elem_of_union_l, elem_of_list_to_set, elem_of_app. by left. }
  destruct (free_blocks_run bs s2 N) as (s3 & E3 & S3 & L3).
  { apply Forall_forall. intros x Hx. destruct (F x Hx) as (_ & ?). split; [by apply Hs, Lb|done]. }
  exists s3. split; [done|]. split; [done|]. rewrite L3. split; intros x Hx; apply elem_of_difference; rewrite elem_of_list_to_set.
  - split; [by apply Hs, Ls|]. intros Hb. by destruct (F x Hb) as (? & _).
  - apply elem_of_difference in Hx as [Hx N1]. split; [done|]. intros Hb. by apply N1, Lb.
Qed.

(** The end of a command whose body ran. *)
Lemma command_end s s1 s2 bs lost (r : Z) (m : ST client Z) : owned s s1 bs lost -> a_live (cheap s1) ⊆ a_live (cheap s2) ->
  m s1 = Ret (r, s2) ->
  exists s3, (r ← m; free_blocks bs;; mret r) s1 = Ret (r, s3) /\ same_but_heap s2 s3 /\ a_live (cheap s) ⊆ a_live (cheap s3) /\
    a_live (cheap s2) ∖ a_live (cheap s1) ⊆ a_live (cheap s3).
Proof using Type.
  intros O Hs Em. destruct (free_own s s1 s2 bs lost O Hs) as (s3 & E3 & S3 & L3). exists s3. split; [|done].
  rewrite (bind_ret _ _ _ _ _ Em). by rewrite (bind_ret _ _ _ _ _ E3).
Qed.

Lemma same_owner_heap s s' : same_but_heap s s' -> same_owner s s'.
Proof using Type. intros (?&?&?&?&?&U&?&?&?&?). unfold same_owner. rewrite U. done. Qed.

Lemma ready_same s0 s s' id ip mac c ms xs : client_ready s id ip mac c ms xs -> same_but_heap s s' ->
  wf (lists_of s0) -> c_lists s = c_lists s0 -> a_live (cheap s0) ⊆ a_live (cheap s') -> client_ready s' id ip mac c ms xs.
Proof using Type.
  intros [] (E1&E2&E3&E4&E5&E6&E7&E8&E9&E10) W L S. split; rewrite ?E1, ?E3, ?E5, ?E6, ?E9; try done.
  - pose proof (wf_grows (lists_of s0) (cheap s') W S) as W'. unfold lists_of in *. by rewrite E8, L.
  - unfold lists_of, rep in *. by rewrite E8.
Qed.

(** The command "user" that registers. *)
Lemma user_command_run getopt_long argv s id ip mac c ms xs name pwd : client_ready s id ip mac c ms xs ->
  bytes name -> nonul name -> (length name < 31)%nat -> nonul pwd -> (length pwd < 31)%nat ->
  last_empty argv = Ret false ->
  Forall (fun g => g_opt g = 117 \/ g_opt g = 112 -> g_arg g <> None) (getopt_long argv) ->
  judge (getopt_long argv) = DoRegister (Some name) (Some pwd) ->
  runs (do_user getopt_long mdb mkdir stat_fails redisCommand errstr junk junk_dbi (kx_file_reply (HP := HP) (R := R)) argv) s
    (fun r s' => r = 0 /\ registered s name pwd id ip mac c ms xs s').
Proof using alloc_ok junk_length mdb_answers redis_answers.
  intros Rd Bn Nn Ln Np Lp La F J.
  destruct (do_user_run getopt_long mdb mkdir stat_fails redisCommand errstr junk junk_dbi
    (kx_file_reply (HP := HP) (R := R)) alloc_ok argv s La F) as (s1 & bs & lost & S1 & _ & O1 & _ & _ & E1). rewrite J in E1.
  pose proof (owned_grows _ _ _ _ O1) as Ls.
  assert (Rd1 : client_ready s1 id ip mac c ms xs) by (by eapply (ready_same s s); [..|apply Rd| |]).
  destruct (register_run s1 id ip mac c ms xs name pwd Rd1 Bn Nn Ln Np Lp) as (r & s2 & E2 & -> & Rg).
  pose proof Rg as (Rd2 & L2 & F2 & K2 & V2 & (u & Lu & Hu) & Rq & Db2).
  destruct (command_end s s1 s2 bs lost 0 _ O1 L2 E2) as (s3 & E3 & S3 & L3 & _).
  pose proof S1 as (A1&A2&A3&A4&A5&A6&A7&A8&A9&A10). pose proof S3 as (B1&B2&B3&B4&B5&B6&B7&B8&B9&B10).
  exists 0, s3. split; [by rewrite E1|]. split; [done|]. split.
  { apply (ready_same s s2); [done|done|apply Rd|by rewrite K2, A8|done]. }
  split; [done|]. split; [by rewrite B7, F2, A7|]. split; [by rewrite B8, K2, A8|]. split; [by rewrite B5, V2, A5|].
  split. { exists u. split; [|done]. by eapply logged_in_same; [|apply same_owner_heap]. }
  split; [by rewrite B9, <- A9|]. unfold db_opened in *. by rewrite B4, B10, <- A10.
Qed.

Variable cfg : Xxhash.config.
Variable io : faults.
Variable junk_ctx : AES_ctx.
Variable junk_buffer : list Z.
Variable basename : list Z -> list Z.
Variable junk_node : listNode.
Variable junk_gap : Z.
Variable junk_tail : list Z.
Variable list_fuel : nat.
Variable junk_key : list Z.
Variable getopt_long : list (list Z) -> list gopt.

Abbreviation do_file := (do_file getopt_long mdb redisCommand errstr cfg io junk_ctx junk_buffer basename junk_node junk_dbi junk_gap
  junk_tail list_fuel junk_key).

(** The cipher reads 16 bytes of the key. *)
Lemma words_prefix key n : fips_words AES128 (take 16 key) n = fips_words AES128 key n.
Proof using Type.
  induction n as [|n IH]; [done|]. cbn [fips_words]. rewrite IH. destruct (decide (n < Nk AES128)%nat) as [H|H]; [|done].
  change (Nk AES128) with 4%nat in H.
  rewrite !take_drop_commute, take_take. rewrite Nat.min_l by lia. done.
Qed.

Lemma ecb_ext f g n d : (forall b, f b = g b) -> ecb f n d = ecb g n d.
Proof using Type. intros H. revert d. induction n as [|n IH]; intros d; [done|]. cbn. by rewrite H, IH. Qed.

Lemma ciphertext_prefix key d : ciphertext (take 16 key) d = ciphertext key d.
Proof using Type.
  apply ecb_ext. intros b. unfold fips_cipher, fips_round_key. by rewrite words_prefix.
Qed.

(** What a file must be to be encrypted. *)
Record file_ok s (path d : list Z) : Prop := {
  fo_all : map_Forall (fun _ x => bytes x) (c_files s);
  fo_file : c_files s !! path = Some d;
  fo_usable : usable io path;
  fo_size : Z.of_nat (length d) <= MAXFILESIZE;
  fo_path : nonul path /\ (length path < PATH_MAX)%nat;
  fo_base : nonul (basename path) /\ (length (basename path) < NAME_MAX)%nat
}.

Lemma file_ok_same s s' path d : c_files s' = c_files s -> file_ok s path d -> file_ok s' path d.
Proof using Type. intros Ef []. by split; rewrite ?Ef. Qed.

(** Registering leaves what encrypting needs. *)
Lemma registered_ready s0 s name pwd id ip mac c ms xs path d : registered s0 name pwd id ip mac c ms xs s -> db s <> 0 ->
  length (RoundKey junk_ctx) = AES_keyExpSize AES128 -> length junk_tail = 4%nat -> bytes name -> (16 <= length id)%nat ->
  Z.of_nat (S (length xs)) < 2 ^ 64 -> (length name < 31)%nat -> nonul name ->
  file_ok s path d ->
  exists u a dd, dbs (c_db s) !! db s = Some dd /\ encrypt_ready io junk_ctx basename junk_tail s path d u name (take 63 (id ++ name)) id c a dd name ms xs.
Proof using Type.
  intros (Rd & _ & _ & _ & _ & (u & Lu & _) & _ & cs & o & _ & _ & Hdb) Nd Hj Ht Bn Li Lx Ln Nn [].
  destruct o as [h|]; [|done]. destruct Hdb as (_ & dd & Db1 & _ & Db2). destruct Rd. destruct cr_acs0 as [K Kt].
  destruct (Kt FILE_CRYPT) as (a & Ea & Es); [by right; right|].
  destruct cr_node0 as (nd & _ & _ & Lnd & C1 & _). pose proof (cstr_shorter _ _ _ C1) as L1. rewrite Lnd in L1.
  exists u, a, dd. split; [done|]. split; try done.
  - split; [apply Forall_take, Forall_app; by split|]. rewrite length_take, length_app. lia.
  - destruct fo_path0 as [_ P], fo_base0 as [_ B]. unfold sizeof_kxnode, PATH_MAX, NAME_MAX, INT_MAX in *. lia.
Qed.

(** One command "file" on a client: the body between two states that differ in the heap. *)
Lemma file_command_run argv s v : last_empty argv = Ret false ->
  Forall (fun g => is_mode (g_opt g) = true -> g_arg g <> None) (getopt_long argv) -> judge_file (getopt_long argv) = v ->
  exists s1 bs lost, same_but_heap s s1 /\ owned s s1 bs lost /\
    do_file argv s = (r ← perform_file mdb redisCommand errstr cfg io junk_ctx junk_buffer basename junk_node junk_dbi junk_gap
      junk_tail list_fuel junk_key v; free_blocks bs;; mret r) s1.
Proof using alloc_ok.
  intros La F <-.
  destruct (do_file_run mdb redisCommand errstr cfg io junk_ctx junk_buffer basename junk_node junk_dbi junk_gap
    junk_tail list_fuel junk_key alloc_ok getopt_long argv s La F) as (s1 & bs & lost & S1 & _ & O1 & _ & _ & E1). by exists s1, bs, lost.
Qed.

(** [encrypt_ready] and [encrypt_done] do not look at the heap but for the lists. *)
Lemma encrypt_ready_same s s' path d u name key id c a dd dbn ms xs : same_but_heap s s' -> a_live (cheap s) ⊆ a_live (cheap s') ->
  encrypt_ready io junk_ctx basename junk_tail s path d u name key id c a dd dbn ms xs ->
  encrypt_ready io junk_ctx basename junk_tail s' path d u name key id c a dd dbn ms xs.
Proof using Type.
  intros Sb L []. pose proof Sb as (E1&E2&E3&E4&E5&E6&E7&E8&E9&E10).
  split; rewrite ?E3, ?E4, ?E5, ?E7, ?E9, ?E10; try done.
  - by eapply logged_in_same; [|apply same_owner_heap].
  - pose proof (wf_grows (lists_of s) (cheap s') er_wf L) as W. unfold lists_of in *. by rewrite E8.
  - unfold lists_of, rep in *. by rewrite E8.
Qed.

Lemma encrypt_done_same s s1 s2 s3 path d name key id c dd dbn ms xs q kf : same_but_heap s s1 -> same_but_heap s2 s3 ->
  a_live (cheap s) ⊆ a_live (cheap s1) -> a_live (cheap s) ⊆ a_live (cheap s3) -> a_live (cheap s2) ∖ a_live (cheap s1) ⊆ a_live (cheap s3) ->
  encrypt_done mdb redisCommand basename junk_dbi junk_gap junk_tail s1 path d name key id c dd dbn ms xs q kf s2 ->
  encrypt_done mdb redisCommand basename junk_dbi junk_gap junk_tail s path d name key id c dd dbn ms xs q kf s3.
Proof using Type.
  intros S1 S3 L1 L L3 (O & _ & F & Rq & Nk & Nq & Hq & (o & Ro) & cs & In & Cs).
  pose proof S1 as (A1&A2&A3&A4&A5&A6&A7&A8&A9&A10). pose proof S3 as (B1&B2&B3&B4&B5&B6&B7&B8&B9&B10).
  assert (New : forall a, new_block s1 a s2 -> new_block s a s3).
  { intros a (Ha & N1 & N2). split; [done|]. split; [by intros Hx%L1|]. by apply L3, elem_of_difference. }
  split; [etrans; [by apply same_owner_heap|]; etrans; [exact O|]; by apply same_owner_heap|]. split; [done|].
  split; [by rewrite B7, F, A7|]. split; [rewrite B5; unfold rep, lists_of in *; by rewrite B8|].
  split; [by apply New|]. split; [by apply New|]. split; [done|].
  split; [exists o; by rewrite B9, <- A9|]. exists cs. by rewrite B10, <- A10.
Qed.

(** "file -e path" *)
Lemma encrypt_command_run argv s path d u name key id c a dd dbn ms xs : last_empty argv = Ret false ->
  Forall (fun g => is_mode (g_opt g) = true -> g_arg g <> None) (getopt_long argv) ->
  judge_file (getopt_long argv) = FEncrypt (Some path) ->
  encrypt_ready io junk_ctx basename junk_tail s path d u name key id c a dd dbn ms xs ->
  let e := ciphertext key d in
  if decide (file_hash e = 0) then exists s', do_file argv s = Ret (0, s') /\
     c_files s' = <[path := e]> (c_files s) /\ c_lists s' = c_lists s /\ c_net s' = c_net s /\ c_db s' = c_db s
  else if decide (16 < Z.of_nat (length (name ++ [58] ++ dec (file_hash e)))) then do_file argv s = Undef
  else exists s' q kf, do_file argv s = Ret (0, s') /\
     encrypt_done mdb redisCommand basename junk_dbi junk_gap junk_tail s path d name key id c dd dbn ms xs q kf s'.
Proof using alloc_ok redis_answers mdb_answers.
  intros La F J Rd e. destruct (file_command_run argv s _ La F J) as (s1 & bs & lost & S1 & O1 & E1).
  pose proof (owned_grows _ _ _ _ O1) as Ls. pose proof (encrypt_ready_same _ _ _ _ _ _ _ _ _ _ _ _ _ _ S1 Ls Rd) as Rd1.
  pose proof S1 as (A1&A2&A3&A4&A5&A6&A7&A8&A9&A10).
  pose proof (file_encrypt_run mdb redisCommand errstr cfg io junk_ctx junk_buffer basename junk_node junk_dbi junk_gap
    junk_tail alloc_ok redis_answers mdb_answers (with_file (Some path)) s1 path d u name key id c a dd dbn ms xs
    ltac:(done) eq_refl Rd1) as H. cbv zeta in H. fold e in H. rewrite E1.
  set (body := perform_file _ _ _ _ _ _ _ _ _ _ _ _ _ _ _).
  assert (Body : forall r s2, file_encrypt mdb redisCommand errstr cfg io junk_ctx junk_buffer basename junk_node junk_dbi junk_gap
    junk_tail (with_file (Some path)) s1 = Ret (r, s2) -> body s1 = Ret (0, s2)).
  { intros r s2 Er. unfold body. cbn [perform_file]. by rewrite (bind_ret _ _ _ _ _ Er). }
  destruct (decide (file_hash e = 0)) as [Hz|Hz]; [|case_decide as Hk].
  - destruct H as (s2 & Er & Ow & L2 & F2 & K2 & N2 & D2).
    destruct (command_end s s1 s2 bs lost 0 body O1 ltac:(by rewrite L2) (Body _ _ Er)) as (s3 & E3 & S3 & _).
    pose proof S3 as (B1&B2&B3&B4&B5&B6&B7&B8&B9&B10).
    exists s3. rewrite E3, B7, B8, B9, B10, F2, K2, N2, D2, A7, A8, A9, A10. done.
  - unfold body. cbn [perform_file]. unfold mbind, ST_bind. by rewrite H.
  - destruct H as (s2 & q & kf & Er & Dn & _). pose proof Dn as (_ & L2 & _).
    destruct (command_end s s1 s2 bs lost 0 body O1 L2 (Body _ _ Er)) as (s3 & E3 & S3 & L3 & L4).
    exists s3, q, kf. rewrite E3. split; [done|]. by eapply encrypt_done_same.
Qed.

(** "file -d path" *)
Lemma decrypt_command_run argv s path d u name key id : last_empty argv = Ret false ->
  Forall (fun g => is_mode (g_opt g) = true -> g_arg g <> None) (getopt_long argv) ->
  judge_file (getopt_long argv) = FDecrypt (Some path) -> length (RoundKey junk_ctx) = AES_keyExpSize AES128 ->
  logged_in s u name key id -> bytes key -> (16 <= length key)%nat -> c_files s !! path = Some (ciphertext key d) -> bytes d -> no_open io path RBplus = false ->
  runs (do_file argv) s (fun r s' => r = 0 /\ c_files s' = <[path := pad d]> (c_files s)).
Proof using alloc_ok.
  intros La F J Hj Li Kb Kl Fd Bd Uo. destruct (file_command_run argv s _ La F J) as (s1 & bs & lost & S1 & O1 & E1).
  pose proof S1 as (A1&A2&A3&A4&A5&A6&A7&A8&A9&A10).
  destruct (file_decrypt_run io junk_ctx junk_buffer (with_file (Some path)) s1 path d u name key id Hj ltac:(done)
    ltac:(by eapply logged_in_same; [|apply same_owner_heap]) Kb Kl ltac:(by rewrite A7) Bd Uo) as (s2 & Er & _ & H2 & F2).
  destruct (command_end s s1 s2 bs lost 0 (perform_file mdb redisCommand errstr cfg io junk_ctx junk_buffer basename junk_node
    junk_dbi junk_gap junk_tail list_fuel junk_key (FDecrypt (Some path))) O1) as (s3 & E3 & S3 & L3).
  { by rewrite H2. } { cbn [perform_file]. by rewrite (bind_ret _ _ _ _ _ Er). }
  exists 0, s3. split; [by rewrite E1|]. split; [done|]. destruct S3 as (_&_&_&_&_&_&->&_). by rewrite F2, A7.
Qed.

Variable getopt_user : list (list Z) -> list gopt.

Abbreviation do_user := (do_user getopt_user mdb mkdir stat_fails redisCommand errstr junk junk_dbi (kx_file_reply (HP := HP) (R := R))).

(** The three commands: "user -r -u name -p pwd", "file -e path", "file -d path". *)
Record session_args (name pwd path : list Z) (argv1 argv2 argv3 : list (list Z)) : Prop := {
  sa_name : bytes name /\ nonul name /\ (length name < 31)%nat;
  sa_pwd : nonul pwd /\ (length pwd < 31)%nat;
  sa_argv : last_empty argv1 = Ret false /\ last_empty argv2 = Ret false /\ last_empty argv3 = Ret false;
  sa_user : Forall (fun g => g_opt g = 117 \/ g_opt g = 112 -> g_arg g <> None) (getopt_user argv1);
  sa_encrypt : Forall (fun g => is_mode (g_opt g) = true -> g_arg g <> None) (getopt_long argv2);
  sa_decrypt : Forall (fun g => is_mode (g_opt g) = true -> g_arg g <> None) (getopt_long argv3);
  sa_register : judge (getopt_user argv1) = DoRegister (Some name) (Some pwd);
  sa_path : judge_file (getopt_long argv2) = FEncrypt (Some path);
  sa_back : judge_file (getopt_long argv3) = FDecrypt (Some path)
}.

(** What comes of the encryption, from the client [s1] of a registered user. *)
Definition session_end s1 (name id path d : list Z) (c : Z) (ms : methods) (xs : list (Z * Z)) (argv2 argv3 : list (list Z)) : Prop :=
  let key := take 63 (id ++ name) in let e := ciphertext key d in
  if decide (file_hash e = 0) then exists s2, do_file argv2 s1 = Ret (0, s2) /\
     c_files s2 = <[path := e]> (c_files s1) /\ c_lists s2 = c_lists s1 /\ c_net s2 = c_net s1 /\ c_db s2 = c_db s1
  else if decide (16 < Z.of_nat (length (name ++ [58] ++ dec (file_hash e)))) then do_file argv2 s1 = Undef
  else exists dd q kf s2 s3, dbs (c_db s1) !! db s1 = Some dd /\ do_file argv2 s1 = Ret (0, s2) /\
     encrypt_done mdb redisCommand basename junk_dbi junk_gap junk_tail s1 path d name key id c dd name ms xs q kf s2 /\
     do_file argv3 s2 = Ret (0, s3) /\ c_files s3 = <[path := pad d]> (c_files s1).

(** When the encryption adds to the list, the file comes back. *)
Lemma session_back s1 s2 name id path d c ms xs argv2 argv3 : session_end s1 name id path d c ms xs argv2 argv3 ->
  do_file argv2 s1 = Ret (0, s2) -> c_lists s2 <> c_lists s1 ->
  exists s3, do_file argv3 s2 = Ret (0, s3) /\ c_files s3 = <[path := pad d]> (c_files s1).
Proof using Type.
  intros H E2 Hl. unfold session_end in H. cbv zeta in H. destruct (decide (file_hash _ = 0)).
  - destruct H as (s & Ee & _ & L & _). rewrite E2 in Ee. by injection Ee as <-.
  - destruct (decide _); [by rewrite H in E2|]. destruct H as (dd & q & kf & s & s3 & _ & Ee & _ & E3 & F3).
    rewrite E2 in Ee. injection Ee as <-. by exists s3.
Qed.

Lemma session_run s id ip mac c ms xs name pwd path d argv1 argv2 argv3 : client_ready s id ip mac c ms xs ->
  (16 <= length id)%nat -> Z.of_nat (S (length xs)) < 2 ^ 64 -> session_args name pwd path argv1 argv2 argv3 ->
  length (RoundKey junk_ctx) = AES_keyExpSize AES128 -> length junk_tail = 4%nat -> file_ok s path d ->
  exists s1, do_user argv1 s = Ret (0, s1) /\ registered s name pwd id ip mac c ms xs s1 /\
    (db s1 <> 0 -> session_end s1 name id path d c ms xs argv2 argv3).
Proof using alloc_ok junk_length mdb_answers redis_answers.
  intros Rd Li Lx [(Bn & Nn & Ln) (Np & Lp) (La1 & La2 & La3) F1 F2 F3 J1 J2 J3] Hj Ht Fo.
  destruct (user_command_run getopt_user argv1 s id ip mac c ms xs name pwd Rd Bn Nn Ln Np Lp La1 F1 J1) as (r & s1 & E1 & -> & Rg).
  exists s1. split; [done|]. split; [done|]. intros Hd.
  pose proof Rg as (_ & _ & Fs & _). pose proof (file_ok_same s s1 path d Fs Fo) as Fo1.
  destruct (registered_ready s s1 name pwd id ip mac c ms xs path d Rg Hd Hj Ht Bn Li Lx Ln Nn Fo1) as (u & a & dd & Edd & Er).
  pose proof (encrypt_command_run argv2 s1 path d u name _ id c a dd name ms xs La2 F2 J2 Er) as H. cbv zeta in H.
  unfold session_end. cbv zeta. destruct (decide (file_hash _ = 0)); [exact H|]. case_decide; [exact H|].
  destruct H as (s2 & q & kf & E2 & Dn). pose proof Dn as (Ow & _ & F2' & _).
  destruct Er. destruct er_key as [Kb Kl], er_usable as (_ & Uo & _).
  destruct (decrypt_command_run argv3 s2 path d u name (take 63 (id ++ name)) id La3 F3 J3 Hj
    (logged_in_same _ _ _ _ _ _ er_owner Ow) Kb Kl) as (r3 & s3 & E3 & -> & F3').
  { by rewrite F2', lookup_insert_eq. } { exact (er_files path d er_file). } { apply Uo. }
  exists dd, q, kf, s2, s3. split_and!; try done. by rewrite F3', F2', insert_insert_eq.
Qed.

End Register.

(** ** Properties *)

(** C20: the start of the client ([rkx_init]), when no allocation fails, the
    machine has an id and mosquitto answers.  Without a connection to the
    server the process ends.  Otherwise the client is ready: the two lists
    are empty, well formed and distinct, the node holds the id (its first 32
    bytes), the IP and the MAC address, the connection is the one that was
    made, every request that only prints its reply has its handler, nobody is
    logged in and no data base is open; and mosquitto has been told to make a
    client that carries the MQTT object and to call the three callbacks of
    rkx.c, in this order. *)
Theorem rkx_init_spec {HP FS E R Q : Type} `{!Allocator HP} sys junk junk_list redisConnectWithTimeout redisFree err errstr mosquitto
    id (s : program (HP := HP) (FS := FS) (E := E) (R := R) (Q := Q)) :
  (forall n (h : HP), exists p h', a_alloc n h = Ret (p, h') /\ p <> 0) ->
  (forall n, length (junk n) = n) ->
  (forall a, hwaddr sys = Some a -> bytes a /\ length a = 6%nat) ->
  (forall c q, exists r q', mosquitto c q = Ret (r, q')) ->
  (forall o q m q', mosquitto (New true o) q = Ret (m, q') -> m <> 0) ->
  wf (lists_of (p_client s)) -> acs (c_net (p_client s)) = acs0 ->
  machine_id sys = Some id -> id <> [] -> nonul id -> bytes id ->
  nonul (ip_text sys) -> (length (ip_text sys) < 15)%nat ->
  (forall c r, exists r', redisFree c r = Ret (tt, r')) ->
  match redisConnectWithTimeout loopback_host 6379 (redis (c_net (p_client s))) with
  | Ret (c, r) =>
      let init := rkx_init sys junk junk_list redisConnectWithTimeout redisFree err errstr mosquitto in
      if decide (c = 0 \/ err c r = true) then init s = Abort else runs init s (fun _ s' => started sys s id c r s')
  | _ => True
  end.
Proof.
  intros A B C D F. exact (rkx_init_run sys junk junk_list redisConnectWithTimeout redisFree err errstr mosquitto A B C D F id s).
Qed.

(** C1: a session.  From a ready client, when no allocation fails, LMDB and
    the server answer whatever they answer, and the system lets the file be used: "user -r -u name -p pwd" registers,
    with the two requests sent one after the other, and gives 0; the user's data base is NULL exactly when LMDB refused it, in the
    conversation that creates, sizes and opens an environment.  When there is one, "file -e path"
    encrypts the file under a key of which only the machine's id counts (the same for every name).  When the hash of
    the result is 0, it does no more; when the key text for the record, "name:hash", has more than 16 characters, its behaviour is
    undefined.  Otherwise the record of the path, the base name and the hash is in a block of its own at the
    head of the list, it has been sent once, and LMDB has had the conversation that stores it, with a commit exactly when the put was accepted;
    and "file -d path" then gives back the contents padded to whole blocks.  Each of the commands that end gives 0. *)
Theorem session_spec {HP FS E R : Type} `{!Allocator HP} mdb mkdir stat_fails redisCommand errstr junk junk_dbi
    cfg io junk_ctx junk_buffer basename junk_node junk_gap junk_tail list_fuel junk_key getopt_file getopt_user
    (s : client (HP := HP) (FS := FS) (E := E) (R := R)) id ip mac c ms xs name pwd path d argv1 argv2 argv3 :
  (forall n (h : HP), exists p h', a_alloc n h = Ret (p, h') /\ p <> 0) ->
  (forall n, length (junk n) = n) ->
  (forall c t r, exists o r', redisCommand c t r = Ret (o, r')) ->
  (forall c e, exists a e', mdb c e = Ret (a, e')) ->
  client_ready s id ip mac c ms xs -> (16 <= length id)%nat -> Z.of_nat (S (length xs)) < 2 ^ 64 ->
  session_args getopt_file getopt_user name pwd path argv1 argv2 argv3 ->
  length (RoundKey junk_ctx) = AES_keyExpSize AES128 -> length junk_tail = 4%nat -> file_ok io basename s path d ->
  ciphertext (take 63 (id ++ name)) d = ciphertext (take 16 id) d /\
  exists s1, do_user getopt_user mdb mkdir stat_fails redisCommand errstr junk junk_dbi kx_file_reply argv1 s = Ret (0, s1) /\
    registered mdb redisCommand s name pwd id ip mac c ms xs s1 /\
    (db s1 <> 0 -> session_end mdb redisCommand errstr junk_dbi cfg io junk_ctx junk_buffer basename junk_node junk_gap junk_tail
       list_fuel junk_key getopt_file s1 name id path d c ms xs argv2 argv3).
Proof.
  intros A B C D Rd Li Lx Sa Hj Ht Fo. split.
  - rewrite <- (ciphertext_prefix (take 63 _)), take_take, Nat.min_l, take_app_le by lia. done.
  - exact (session_run mdb mkdir stat_fails redisCommand errstr junk junk_dbi A B C D cfg io junk_ctx junk_buffer basename junk_node
      junk_gap junk_tail list_fuel junk_key getopt_file getopt_user s id ip mac c ms xs name pwd path d argv1 argv2 argv3
      Rd Li Lx Sa Hj Ht Fo).
Qed.

(** A machine with an id of 16 bytes, a broker that accepts everything, and the zeroed client with
    the file "a". *)
Definition demo_system : system := System None false None (Some key128).
Definition demo_broker (c : mosq_call) : ST (list mosq_call) Z := fun q => Ret (match c with New _ _ => 1 | _ => 0 end, q ++ [c]).
Definition program0 : program (HP := gset Z) (FS := unit) (E := list entry * list entry) (R := list (list Z)) (Q := list mosq_call) :=
  Program (Client ∅ [] 0 0 0 0 0 (UState ∅ ∅ ∅ ∅ 0) {[ [97] := [0; 78; 110] ]} (Adlist.Store ∅ ∅ ∅ ∅ []) (Net ∅ [] ∅ acs0 0 [])
    (DState ∅ tt ([], []) ∅ [] [])) 0 0 (MqState ∅ [] ∅ [] []).
Definition demo_init := rkx_init (FS := unit) (E := list entry * list entry) (R := list (list Z)) demo_system junk_zero (CList 1 2 no_methods 3)
  (fun _ _ l => Ret (5, l)) (fun _ l => Ret (tt, l)) (fun _ _ => false) (fun _ _ => []) demo_broker.

Lemma program0_wf : wf (lists_of (p_client program0)).
Proof. unfold lists_of. cbn. split; [|split]; intros a [x H]; cbn in H; by rewrite lookup_empty in H. Qed.

Lemma demo_broker_answers c q : exists r q', demo_broker c q = Ret (r, q').
Proof. by eexists _, _. Qed.

Lemma demo_broker_new o q m q' : demo_broker (New true o) q = Ret (m, q') -> m <> 0.
Proof. by intros [= <- <-]. Qed.

Lemma demo_mac a : hwaddr demo_system = Some a -> bytes a /\ length a = 6%nat.
Proof. done. Qed.

Lemma demo_key : bytes key128 /\ nonul key128.
Proof. split; (apply (bool_decide_unpack _); vm_compute; exact I). Qed.

Lemma rkx_init_spec_witness : runs demo_init program0 (fun _ s' => started demo_system program0 key128 5 [] s' /\
  length (mcalls (p_mq s')) = 7%nat).
Proof.
  destruct (rkx_init_spec demo_system junk_zero (CList 1 2 no_methods 3) (fun _ _ l => Ret (5, l)) (fun _ l => Ret (tt, l))
    (fun _ _ => false) (fun _ _ => []) demo_broker key128 program0 endless_ok (fun n => length_replicate n 7) demo_mac
    demo_broker_answers demo_broker_new program0_wf eq_refl eq_refl ltac:(done) (proj2 demo_key) (proj1 demo_key)
    ltac:(apply (bool_decide_unpack _); vm_compute; exact I) ltac:(apply Nat.ltb_lt; reflexivity)
    ltac:(intros c r; exists r; reflexivity)) as ([] & s' & Er & St).
  exists tt, s'. split; [exact Er|]. split; [exact St|].
  destruct St as (_ & _ & _ & _ & _ & _ & _ & _ & m & h & t & _ & _ & _ & Ec). rewrite Ec. reflexivity.
Defined.

(** The client of that start; what [getopt_long] gives the three commands, by their names. *)
Definition client_0 : client (HP := gset Z) (FS := unit) (E := list entry * list entry) (R := list (list Z)) :=
  match demo_init program0 with Ret (_, s) => p_client s | _ => p_client program0 end.
Definition demo_getopt_user (argv : list (list Z)) : list gopt := [Gopt 114 None 0; Gopt 117 (Some [98]) 0; Gopt 112 (Some [119]) 0].
Definition demo_getopt_file (argv : list (list Z)) : list gopt :=
  if decide (argv = [[101]]) then [Gopt 101 (Some [97]) 0] else [Gopt 100 (Some [97]) 0].

Lemma client_0_ready : client_ready client_0 key128 (ip_text demo_system) (mac_of demo_system) 5 no_methods [].
Proof.
  pose proof (rkx_init_run demo_system junk_zero (CList 1 2 no_methods 3) (fun _ _ l => Ret (5, l)) (fun _ l => Ret (tt, l))
    (fun _ _ => false) (fun _ _ => []) demo_broker endless_ok (fun n => length_replicate n 7) demo_mac
    demo_broker_answers demo_broker_new key128 program0 program0_wf eq_refl eq_refl ltac:(done) (proj2 demo_key) (proj1 demo_key)
    ltac:(apply (bool_decide_unpack _); vm_compute; exact I) ltac:(apply Nat.ltb_lt; reflexivity)
    ltac:(intros c r; exists r; reflexivity)) as ([] & s' & Er & St).
  destruct St as (Rd & _). unfold client_0, demo_init. rewrite Er. exact Rd.
Qed.

Lemma demo_session_args : session_args demo_getopt_file demo_getopt_user [98] [119] [97] [[117]] [[101]] [[100]].
Proof.
  split; try reflexivity.
  - split; [apply (bool_decide_unpack _); vm_compute; exact I|]. split; [by repeat constructor|]. apply Nat.ltb_lt. reflexivity.
  - split; [by repeat constructor|]. apply Nat.ltb_lt. reflexivity.
  - done.
  - repeat (constructor; [by intros [?|?]|]). constructor.
  - repeat constructor. discriminate.
  - repeat constructor. discriminate.
Qed.

Lemma client_0_file : file_ok no_faults (fun p => p) client_0 [97] [0; 78; 110].
Proof.
  split.
  - apply (bool_decide_unpack _); vm_compute; exact I.
  - vm_compute. reflexivity.
  - done.
  - discriminate.
  - split; [by repeat constructor|]. apply Nat.ltb_lt. reflexivity.
  - split; [by repeat constructor|]. apply Nat.ltb_lt. reflexivity.
Qed.

Definition demo_user := do_user (FS := unit) demo_getopt_user mem_mdb (fun _ _ fs => (fs, 0, false)) (fun _ _ => false) log_server (fun _ _ => [])
  junk_zero 0 (kx_file_reply (HP := gset Z) (R := list (list Z))).
Definition demo_file_command := do_file (FS := unit) demo_getopt_file mem_mdb log_server (fun _ _ => []) default_config no_faults Aes.ctx0 []
  (fun p => p) (Node 0 0 0) 0 0 [0; 0; 0; 0] 0 [].

(** The session runs to its end: the record fits, the file is encrypted and comes back padded. *)
Lemma session_spec_witness : runs (_ ← demo_user [[117]]; _ ← demo_file_command [[101]]; demo_file_command [[100]]) client_0
  (fun r s' => r = 0 /\ c_files s' !! [97] = Some (pad [0; 78; 110])).
Proof.
  assert (V : match demo_user [[117]] client_0 with
    | Ret (_, s1) => bool_decide (db s1 <> 0) && match demo_file_command [[101]] s1 with
        | Ret (r, s2) => bool_decide (r = 0) && negb (size (Adlist.nodes (c_lists s2)) =? size (Adlist.nodes (c_lists s1)))%nat | _ => false end
    | _ => false end = true) by (vm_compute; reflexivity).
  unfold demo_user, demo_file_command in V |- *.
  destruct (session_spec mem_mdb (fun _ _ fs => (fs, 0, false)) (fun _ _ => false) log_server (fun _ _ => []) junk_zero 0
    default_config no_faults Aes.ctx0 [] (fun p => p) (Node 0 0 0) 0 [0; 0; 0; 0] 0 [] demo_getopt_file demo_getopt_user client_0
    key128 (ip_text demo_system) (mac_of demo_system) 5 no_methods [] [98] [119] [97] [0; 78; 110] [[117]] [[101]] [[100]]
    endless_ok (fun n => length_replicate n 7) ltac:(by eexists _, _) mem_answers client_0_ready
    ltac:(apply Nat.leb_le; reflexivity) eq_refl demo_session_args eq_refl eq_refl client_0_file)
    as (_ & s1 & E1 & Rg & H).
  rewrite E1 in V. apply andb_true_iff in V as [Vd V]. apply bool_decide_eq_true in Vd. specialize (H Vd).
  destruct (do_file _ _ _ _ _ _ _ _ _ _ _ _ _ _ _ [[101]] s1) as [[r s2]| | |] eqn:E2; try discriminate V.
  apply andb_true_iff in V as [V0 V]. apply bool_decide_eq_true in V0. subst r.
  destruct (session_back mem_mdb log_server (fun _ _ => []) 0 default_config no_faults Aes.ctx0 [] (fun p => p) (Node 0 0 0) 0 [0; 0; 0; 0] 0 []
    demo_getopt_file s1 s2 [98] key128 [97] [0; 78; 110] 5 no_methods [] [[101]] [[100]] H E2) as (s3 & E3 & F3).
  { intros El. rewrite El, Nat.eqb_refl in V. discriminate V. }
  exists 0, s3. split.
  { rewrite (bind_ret _ _ _ _ _ E1), (bind_ret _ _ _ _ _ E2). exact E3. }
  split; [reflexivity|]. rewrite F3. apply lookup_insert_eq.
Defined.

(** ** The whole program on a script *)

Definition getopt_by_name (argv : list (list Z)) : list gopt :=
  if decide (argv = [text "file"%string; text "-e"%string; [97]]) then [Gopt 101 (Some [97]) 0]
  else if decide (argv = [text "file"%string; text "-d"%string; [97]]) then [Gopt 100 (Some [97]) 0] else [].

Definition demo_script : list (list Z) :=
  [text "user -r -u b -p w"%string; text "file -e a"%string; text "file -d a"%string].
Definition demo_tty : tty :=
  Tty (Env (fun _ => true) false None None) (IO (Byte <$> lines_text demo_script) [] 0 0) (tmodes tty0) hist0 (thooks tty0) ∅.

Definition demo_begin := main_begin (FS := unit) (E := list entry * list entry) (R := list (list Z)) demo_system junk_zero
  (CList 1 2 no_methods 3) (fun _ _ l => Ret (5, l)) (fun _ l => Ret (tt, l)) (fun _ _ => false) (fun _ _ => []) demo_broker.
Definition demo_end := main_end (FS := unit) (E := list entry * list entry) (R := list (list Z)) (fun _ l => Ret (tt, l)) demo_broker
  demo_user (do_file (FS := unit) getopt_by_name mem_mdb log_server (fun _ _ => []) default_config no_faults Aes.ctx0 []
    (fun p => p) (Node 0 0 0) 0 0 [0; 0; 0; 0] 0 []) (fun _ => mret 0) (fun _ => mret 0) (fun n => replicate n 7) [] 5.

(** From the banner to the end: the three lines are run, the server is sent three requests, the file
    comes back padded, and every block of the context, the connection and MQTT is given back. *)
Example main_script : match demo_begin program0 with
  | Ret (_, p) => match demo_end (Shell demo_tty p 0) with
      | Ret (r, s) => let c := p_client (sh_world s) in
          r = 0 /\ c_files c !! [97] = Some (pad [0; 78; 110]) /\ length (redis (c_net c)) = 3%nat /\
          last (mcalls (p_mq (sh_world s))) = Some LibCleanup /\ mqs (p_mq (sh_world s)) = ∅
      | _ => False
      end
  | _ => False
  end.
Proof. vm_compute. repeat split; reflexivity. Qed.
